(* ===== verification/_CoqProject ===== *)
-Q . S2P
Prelude.v
TcWords.v
FlashDriver.v
SstDefs.v
SstFlash.v
SstCore.v
SstCoreSpec.v
SstTable.v
SstCoreInv.v
SstCoreOps.v
SstCoreDelete.v
SstCoreBoot.v
SstRefine.v
SstPower.v
SstCrash.v
SstBoard.v
SstInterface.v
SstObject.v
SstObjectSpec.v
FlashMusca.v
Mpu.v
SpmHal.v
Spm.v
SecureApi.v
SecureApiSpec.v
SecureApiChain.v
SecureApiBalance.v
SecureCalls.v
SecureApiEntry.v
SpmSpec.v
CoreBoard.v
CoreInterface.v
CoreLaws.v
SstAsset.v
SstAssetSpec.v
SstAssetClaims.v
AuditLog.v
AuditLogSpec.v
AuditLogClaims.v
Mpc.v
MpcSpec.v
MpcClaims.v
TargetCfg.v
TargetClaims.v
Json.v
JsonSpec.v
Jwt.v
JwtSpec.v
JwtClaims.v
NsClient.v
NsClientClaims.v
BootFlash.v
BootUtil.v
BootImage.v
BootLoader.v
BootView.v
BootTrailer.v
BootSwap.v
BootSteps.v
BootValidate.v
BootCopy.v
BootGo.v
BootUpdate.v
BootClaims.v
BootSecure.v
BootPss.v
BootBoard.v
TcSha256.v
TcSha256Spec.v
TcAes.v
TcAesSpec.v
TcPrng.v
TcPrngSpec.v
EccVli.v
EccVliSpec.v
EccPoint.v
EccPointSpec.v
EccDsa.v
EccDsaSpec.v
JwtEs256.v
