(* ===== verification/Prelude.v ===== *)
(** * Trusted Firmware-M: a verification library

    The repository is a demonstration build of Trusted Firmware-M for Armv8-M
    boards: a bootloader that checks and updates the firmware, a secure firmware
    whose core starts partitions and switches between them, a secure storage
    service, an audit log and a token service, used by a non-secure application
    through client functions and veneers.  This library models the program
    function by function and proves what its parts promise to each other and to
    their clients.

    ** Parts and how they interact

    - The bootloader ([bl2/ext/mcuboot]) runs first: it exchanges the images of its
      two slots when the running system has asked for an update, or to revert one,
      keeps the status of that in flash, and starts the image in slot 0 if it is
      signed.
    - The firmware starts with [main] ([secure_fw/core/tfm_core.c]), which programs
      the protection hardware of the board, fills the partition table, initialises
      the partitions and jumps to the non-secure code.
    - A call of the non-secure side, or of one partition by another, enters
      [tfm_core_partition_request] through an SVC ([tfm_secure_api.c],
      [tfm_handler.c]); the core marks the caller blocked, gives the called
      partition its sandbox ([spm_hal.c], the memory protection unit), and undoes
      all of it on return.  Running services ask the core whether a buffer is
      their caller's and whether the caller is secure ([tfm_unpriv_api.c]).
    - A thread of the non-secure side calls a client function ([interface/src]): it
      takes a lock, enters an SVC of the non-secure operating system, whose handler
      calls the veneer, which asks the core for the function of the service.
    - The storage service is a stack: the asset manager (policy, checks of the
      caller) calls the object system (objects with a header), which calls the
      storage core (metadata and data blocks with scratch copies), which calls the
      flash layer, which calls the CMSIS flash driver of the board.
    - The audit log is a ring of items in memory.  The token service builds a JSON
      web token with the JSON encoder and signs it with tinycrypt: SHA-256 of the text,
      random bytes from a generator over AES-128, and an ECDSA signature on P-256.

    ** Files

    State is passed explicitly by the monad [M S E A] of this file: a function
    returns [Ok a], [Err e] (an error code of the source) or [Fault] (undefined
    behaviour: an access outside an array, a shift that is too wide; in the
    bootloader also an assertion that fails).  Output
    parameters are the value of [Ok].  Definitions have the names of the C
    functions; loops are separate [Fixpoint]s.

    Storage ([src/secure_fw/services/secure_storage]):
    - [FlashDriver]: [an521/cmsis_drivers/Driver_Flash.c]; the class
      [ARM_DRIVER_FLASH] of operations, the class [FlashDevice] of what a device
      promises, and [power_cut], a device that stops accepting programs and erases
      when its budget is used up.  [FlashMusca]: the driver of Musca-A.
    - [SstDefs]: structures and their images in flash, [sst_utils.c].  [SstFlash]:
      [flash/sst_flash.c].  [SstCore]: [sst_core.c], all functions, with encryption
      off, metadata validation and partial access on, as the build selects.
    - [SstCoreSpec], [SstTable], [SstCoreInv], [SstCoreOps],
      [SstCoreDelete], [SstCoreBoot]: the invariant [inv] of the blocks and
      tables and the effect of every function on it.  [SstRefine]: the abstract
      store, a finite map from identifiers to maximum size and content.
    - [SstPower], [SstCrash]: power failures and power cycles.  [SstBoard]: the claims on the layout
      of the boards.
    - [SstInterface]: the classes [sst_core_ops] and [sst_core_laws]
      through which the object system sees
      the core.  [SstObject], [SstObjectSpec]: [sst_object_system.c] and its map of
      assets.  [SstAsset], [SstAssetSpec], [SstAssetClaims]:
      [sst_asset_management.c] with the policy tables of
      [assets/sst_asset_defs.c].

    Core ([src/secure_fw/core], [src/secure_fw/spm], [src/platform/ext/target/mps2/an521]):
    - [Mpu]: [mpu_armv8m_drv.c].  [SpmHal]: [spm_hal.c].  [Spm]: [spm_api.c] and the
      machine state.  [SecureApi]: [tfm_secure_api.c], [tfm_handler.c],
      [tfm_unpriv_api.c] and [main].
    - [SecureApiSpec], [SecureApiChain], [SecureApiBalance], [SecureCalls],
      [SpmSpec]: the call chain, its invariant [chain_ok], and the claims.
      [CoreBoard]: the AN521 as an instance.
    - [CoreInterface], [CoreLaws]: the class [tfm_core_ops] of the requests the
      services make to the core, its laws [tfm_core_laws], and the proof that the core has them.
    - [Mpc], [MpcSpec], [MpcClaims]: [mpc_sie200_drv.c].  [TargetCfg],
      [TargetClaims]: [target_cfg.c], the wrappers of
      [Driver_MPC.c] it calls, [tfm_core_init], and [main] from reset.

    Non-secure side and veneers ([src/interface], [src/secure_fw/ns_callable]):
    - [NsClient]: the client functions of the storage and the log, the lock, the SVC
      table and its handlers, the veneers, and the identity of a thread.
      [SecureApiEntry]: the call of a veneer as a call of the core.
      [NsClientClaims]: the whole path.

    Bootloader ([src/bl2/ext/mcuboot]):
    - [BootFlash]: [flash_map.c].  [BootUtil]: [bootutil_misc.c].  [BootImage]:
      [image_validate.c], [image_rsa.c].  [BootLoader]: [loader.c], [bl2_main.c].
    - [BootView], [BootTrailer], [BootSwap]: the areas as a view, the judgement
      [safely] for programs that a power failure may stop, and its rules for the
      functions of the loader.  [BootSteps], [BootCopy]: the phases of
      a swap and the steps between them.  [BootValidate]: which images pass.
      [BootGo], [BootUpdate], [BootClaims]: boots, and what they do over time.
    - [BootSecure]: what an image needs to be started.  [BootPss]: the signature
      check and EMSA-PSS.  [BootBoard]: layouts, runs and defects.

    Other services:
    - [AuditLog], [AuditLogSpec], [AuditLogClaims]: [audit_logging/log_core.c].
    - [Json], [JsonSpec]: the encoder of [secure_storage/json.c].  [Jwt],
      [JwtSpec], [JwtClaims]: [secure_storage/jwt.c] and [sst_jwt_sign], over the
      class [tinycrypt] of the functions they call.

    tinycrypt ([src/secure_fw/services/secure_storage/tinycrypt/source]):
    - [TcWords]: words, big-endian numbers and exclusive or, shared by the proofs.
    - [TcSha256], [TcAes], [TcPrng]: [sha256.c], the two AES files and [utils.c],
      [ctr_prng.c].  [TcSha256Spec], [TcAesSpec], [TcPrngSpec]: the standards FIPS
      180-4, FIPS 197 and SP 800-90A, each in a Module, and the proofs.
    - [EccVli]: the integers of many words of [ecc.c]; [EccVliSpec] relates them to
      numbers.  [EccPoint]: the points and keys of [ecc.c]; [EccPointSpec].
      [EccDsa]: [ecc_dsa.c]; [EccDsaSpec], where the order of the curve is also
      shown to be prime.
    - [JwtEs256]: these models as an instance of the class [tinycrypt], and the
      token service over it.

    ** What is shown

    - Refinement, from the bottom of the storage to its top: after a wipe every
      sequence of core calls and reboots behaves like a finite map
      ([sst_core_refines_store]); the object system like a map of assets, over any
      core that keeps the interface ([object_system_refines_assets]); the asset
      manager like that map guarded by the policy tables, over the storage core
      and the TF-M core of the other files ([asset_manager_refines_policy]); and the
      client functions of the non-secure side like that map for the application of
      the calling thread, through lock, SVC, veneer, core, service and flash
      ([psa_api_refines_policy]); these two for every request but the creation of
      the three assets that are larger than the object buffer.  The audit log
      behaves like a queue that forgets its oldest items ([log_refines_queue]),
      deletions of some of the items and retrievals by index of all that follows
      left out; with such deletions it behaves like a queue that keeps counting
      the deleted bytes ([log_refines_lossy_queue]).
    - Power failures: cutting the power at any flash operation of any call leaves
      a flash from which start-up finds the store of before or after that call, and
      after any number of such cycles the storage serves again, with every call
      that was completed in one of them ([storage_recovers_and_serves]).
    - Updates of images that leave the last sector of their slot free: a request
      makes an update pending; it survives power failures at any flash operation
      of any number of boots; a trial that is not confirmed is reverted if the old
      image passes the validation, a confirmed one stays
      ([requested_update_waits], [update_survives_power_failures],
      [unconfirmed_update_reverts], [confirmed_update_stays]).  A revert that is
      interrupted boots one of the two images and loses neither
      ([interrupted_revert_keeps_images]).
    - Secure boot: whatever the flash holds, only an image with a signature of a key
      of the table is started ([only_signed_images_start]), and the check of the
      signature is that of the standard ([rsasig_is_pss]).
    - Cryptography: SHA-256, AES-128 and the generator compute what their standards
      define ([sha256_exact], [aes128_exact], [ctr_prng_refines]).  The fast
      reduction is the remainder modulo the prime, coordinates stay reduced, the
      formulas are the chords and tangents of the curve, the check of a key is its
      equation ([fast_reduction_exact], [coordinates_stay_reduced],
      [curve_formulas_exact], [public_key_check_exact]).  A signature solves the
      equation of ECDSA ([signature_equation]); verification always answers
      ([verify_answers]); and a token carries such a signature of the hash of its
      text unless every attempt to sign has failed ([token_signature_exact]).
    - Isolation: at level 3, in every reachable state, unprivileged code writes
      only its own partition's memory, its peripheral, the non-secure data and the
      buffer shared with it; after the
      start-up the non-secure side reaches exactly the non-secure memory, and the
      protection controllers stay as they were programmed.
    - Control: calls return, with the registers, priorities, lock and partition
      states of the caller restored, however deep they nest; requests in any order
      keep the call chain consistent; busy partitions, a locked core and
      configurations with too many partitions are refused.
    - Exactness of single operations: reads, writes, creation, deletion, memory
      checks, access control, the configuration of blocks with the code of every
      refusal ([config_region_exact]) and its reading back.  The token is exact whether the signing works or not, and the
      call that writes it returns ([jwt_token_exact], [jwt_writes_in_buffer]).
    - Defects, as theorems on concrete runs: deletes outside logical block 0 lose
      data, oversized objects block the storage, Musca-A cannot commit, log
      retrieval can run for ever, secure blocks are read back as non-secure, a
      token that was not signed is reported as success, a revert that is
      interrupted may not happen, and an update of an image that reaches into the
      last sector of its slot can leave the next boots without one.

    ** Bounds and fuel

    - [sfn_exec] takes the depth of nested calls as fuel; a partition is entered
      at most once, so [SPM_MAX_PARTITIONS] (8) is enough, and
      [ns_call_returns] states it for that fuel.
    - Loops over tables take the number of entries; [replace_item_loop] the number
      of items; the retrieval of the log by index has no bound in the source: its
      fuel is explicit, and the theorems say for which logs it ends and for which
      it does not end with any fuel.
    - The escape loop of the JSON encoder runs to the terminator of a string of
      the caller; its fuel bounds the length of that string, and [None] is the
      case in which it is used up.
    - The walk over the fields of an image has at most 2^32 rounds ([pow_loop 32]), as
      its offset wraps there; images that pass end it after their fields.  The loops
      over sectors have room for the 256 sectors of the source's arrays
      ([SECTOR_FUEL]); the copy and erase loops for the bytes they are given.
    - The loop of [uECC_vli_modInv] halves the product of two numbers of 256 bits in
      every round, so that 513 rounds are enough ([MODINV_FUEL], [modInv_val]); the
      last loops of the fast reduction run at most eight times ([MMOD_FUEL] is 16).
      The loops of the generator add a byte or more in each round.
    - Integers are [Z] with the wrap-around of the source written out by [u8],
      [u16], [u32]; addresses are 32-bit numbers.

    ** Hardware and parameters

    The registers of the memory protection unit, the attribution unit, the
    memory and peripheral protection controllers and the interrupt controller are
    records, with the meaning the architecture gives a programmed region.  An
    exception entry or return is a step of the core between the caller and the
    handler.  Code that is not the firmware's own is a parameter: the [cmse]
    intrinsics (with the documented fact that a checked range does not wrap), the
    addresses the linker gives ([tfm_layout], [target_cfg]), the bodies of secure
    functions ([sfn_prog], any sequence of calls and requests), the operating system of the non-secure
    side ([cmsis_os]), and the functions of mbedtls the bootloader calls
    ([mbedtls], with the laws of a streaming hash and the sizes of its results
    where a theorem needs them) with its table of keys ([bootutil_key_list]).

    ** Limits of the theorems

    The refinement of the storage is stated for objects of at most
    [SST_MAX_ASSET_SIZE] (256) bytes in logical block 0, where the boards put all of
    them; the creation of the three larger assets of the policy tables (512 and
    2048 bytes) is left out and is the defect above, every other request about
    them is included.  [log_core_delete_items] does not give back the bytes of
    deleted items, so that the ideal queue of the log is shown for deletions of
    all items.  Reading a region's configuration back is exact where the
    last word is compared with the mask that belongs to it.  The bootloader is
    modelled with its assertions on; the theorems on updates are for images that
    leave the last sector of their slot free, without which the last defect above
    shows them to be false, and for a scratch area that holds a slot, as the boards
    have it.  The theorems on the token but the last are for any functions in the
    place of tinycrypt's.  [uECC_vli_mmod] is exact for moduli of 256 bits, as the
    curve's are.  That the ladder of [EccPoint_mult] and the sum of [uECC_verify] are
    the multiples in the group of the curve is not shown (the group law is not
    developed): what is shown is each step of them, the type of their results, and
    the arithmetic modulo the order around them.

    ** Not modelled

    Encrypted objects and the storage cryptography (excluded from the build, and mbedtls is
    not in the repository); the parts of tinycrypt outside the build (CMAC, HMAC and its
    generator, CBC, CTR, CCM, key agreement); the JSON parser, which nothing calls; UART,
    timer and PPC drivers, the console and the fault handlers (output only, or
    not called by the start-up); the two veneers of the token service, which no
    client function reaches; the capabilities and the key table of the bootloader;
    the AN519 and Musca-A copies of the board files; CMSIS, RTOS, tests, tools
    and the demo application. *)

From coqutil Require Export Byte Word.LittleEndianList.
From Stdlib Require Export ZArith Lia.
From Stdlib Require Strings.Byte.
From stdpp Require Export base numbers list list_numbers decidable tactics.

#[global] Open Scope Z_scope.

Abbreviation byte := Init.Byte.byte.

#[global] Instance byte_eq_decision : EqDecision byte := Strings.Byte.byte_eq_dec.
#[global] Instance byte_inhabited : Inhabited byte := populate Byte.x00.

(** ** Machine integers

    A C unsigned integer of [w] bits is a [Z] in [0, 2^w); every operation of
    the source that can leave the range is followed by the wrap-around below. *)

Definition u8 (x : Z) : Z := x mod 2 ^ 8.
Definition u16 (x : Z) : Z := x mod 2 ^ 16.
Definition u32 (x : Z) : Z := x mod 2 ^ 32.
Definition u64 (x : Z) : Z := x mod 2 ^ 64.

Lemma u32_small x : 0 <= x < 2 ^ 32 -> u32 x = x.
Proof. apply Z.mod_small. Qed.

Lemma u32_bound x : 0 <= u32 x < 2 ^ 32.
Proof. apply Z.mod_pos_bound. lia. Qed.

Lemma u8_small x : 0 <= x < 2 ^ 8 -> u8 x = x.
Proof. apply Z.mod_small. Qed.

Lemma u8_bound x : 0 <= u8 x < 2 ^ 8.
Proof. apply Z.mod_pos_bound. lia. Qed.

(** A shifted part and a part below it. *)
Lemma lor_parts x n y : 0 <= n -> 0 <= y < 2 ^ n -> Z.lor (Z.shiftl x n) y = x * 2 ^ n + y.
Proof.
  intros Hn Hy. rewrite <- Z.shiftl_mul_pow2 by lia. symmetry. apply Z.add_nocarry_lor.
  apply Z.bits_inj'. intros i Hi. rewrite Z.land_spec, Z.shiftl_spec, Z.testbit_0_l by lia.
  destruct (Z.lt_ge_cases i n); [by rewrite Z.testbit_neg_r by lia|].
  rewrite <- (Z.mod_small y (2 ^ n)), Z.mod_pow2_bits_high by lia. apply andb_false_r.
Qed.

(** ** Tables indexed by [Z] *)

Definition upd {A} (f : Z -> A) (i : Z) (x : A) : Z -> A := fun j =>
  if decide (j = i) then x else f j.

Lemma upd_eq {A} (f : Z -> A) i x : upd f i x i = x.
Proof. unfold upd. by rewrite decide_True. Qed.

Lemma upd_ne {A} (f : Z -> A) i j x : j <> i -> upd f i x j = f j.
Proof. intros. unfold upd. by rewrite decide_False. Qed.

(** ** Byte sequences indexed by [Z] *)

Abbreviation zlen l := (Z.of_nat (length l)).

Definition znth (l : list byte) (i : Z) : byte := nth (Z.to_nat i) l Byte.x00.
Definition ztake {A} (n : Z) (l : list A) : list A := take (Z.to_nat n) l.
Definition zdrop {A} (n : Z) (l : list A) : list A := drop (Z.to_nat n) l.
Definition slice {A} (off n : Z) (l : list A) : list A := ztake n (zdrop off l).

(** [splice off new l] overwrites [l] from position [off] with [new]. *)
Definition splice {A} (off : Z) (new l : list A) : list A :=
  ztake off l ++ new ++ zdrop (off + zlen new) l.

Lemma zlen_app {A} (l k : list A) : zlen (l ++ k) = zlen l + zlen k.
Proof. rewrite length_app. lia. Qed.

Lemma zlen_ztake {A} n (l : list A) : 0 <= n -> zlen (ztake n l) = Z.min n (zlen l).
Proof. intros. unfold ztake. rewrite length_take. lia. Qed.

Lemma zlen_zdrop {A} n (l : list A) : 0 <= n -> zlen (zdrop n l) = Z.max 0 (zlen l - n).
Proof. intros. unfold zdrop. rewrite length_drop. lia. Qed.

Lemma zlen_slice {A} off n (l : list A) :
  0 <= off -> 0 <= n -> off + n <= zlen l -> zlen (slice off n l) = n.
Proof. intros. unfold slice. rewrite zlen_ztake, zlen_zdrop by lia. lia. Qed.

Lemma zlen_splice {A} off (new l : list A) :
  0 <= off -> off + zlen new <= zlen l -> zlen (splice off new l) = zlen l.
Proof.
  intros. unfold splice. rewrite !zlen_app, zlen_ztake, zlen_zdrop by lia. lia.
Qed.

Lemma znth_lookup l i x :
  0 <= i -> l !! Z.to_nat i = Some x -> znth l i = x.
Proof. intros _ H. unfold znth. by apply nth_lookup_Some. Qed.

Lemma znth_app_l l k i : 0 <= i < zlen l -> znth (l ++ k) i = znth l i.
Proof. intros. unfold znth. rewrite app_nth1; [done|lia]. Qed.

Lemma znth_app_r l k i :
  zlen l <= i -> znth (l ++ k) i = znth k (i - zlen l).
Proof. intros. unfold znth. rewrite app_nth2 by lia. f_equal. lia. Qed.

Lemma znth_ztake n l i : 0 <= i < n -> znth (ztake n l) i = znth l i.
Proof.
  intros. unfold znth, ztake. rewrite !nth_lookup, lookup_take_lt by lia. done.
Qed.

Lemma znth_zdrop n l i : 0 <= n -> 0 <= i -> znth (zdrop n l) i = znth l (n + i).
Proof.
  intros. unfold znth, zdrop. rewrite !nth_lookup, lookup_drop.
  do 2 f_equal. lia.
Qed.

Lemma znth_slice off n l i :
  0 <= off -> 0 <= i < n -> znth (slice off n l) i = znth l (off + i).
Proof. intros. unfold slice. rewrite znth_ztake, znth_zdrop by lia. done. Qed.

Lemma znth_splice off new l i :
  0 <= off -> off <= zlen l -> 0 <= i ->
  znth (splice off new l) i =
    if decide (off <= i < off + zlen new) then znth new (i - off) else znth l i.
Proof.
  intros. unfold splice.
  assert (zlen (ztake off l) = off) as Hl by (rewrite zlen_ztake; lia).
  case_decide.
  - rewrite znth_app_r by lia. rewrite znth_app_l by lia. f_equal. lia.
  - destruct (decide (i < off)).
    + rewrite znth_app_l by lia. by apply znth_ztake.
    + rewrite znth_app_r by lia. rewrite znth_app_r by lia.
      rewrite znth_zdrop by lia. f_equal. lia.
Qed.

(** Two byte sequences of one length are equal when they agree pointwise. *)
Lemma zlist_ext (l k : list byte) :
  zlen l = zlen k -> (forall i, 0 <= i < zlen l -> znth l i = znth k i) -> l = k.
Proof.
  intros Hlen H. apply (nth_ext _ _ Byte.x00 Byte.x00); [lia|].
  intros n Hn. specialize (H (Z.of_nat n)). unfold znth in H.
  rewrite Nat2Z.id in H. apply H. lia.
Qed.

(** ** Byte-addressed memories *)

Abbreviation mem := (Z -> byte).

Fixpoint mread_nat (m : mem) (a : Z) (n : nat) : list byte :=
  match n with
  | O => []
  | S n => m a :: mread_nat m (a + 1) n
  end.

Definition mread (m : mem) (a n : Z) : list byte := mread_nat m a (Z.to_nat n).

Definition mwrite (m : mem) (a : Z) (bs : list byte) : mem := fun x =>
  if (a <=? x) && (x <? a + zlen bs) then znth bs (x - a) else m x.

Definition mset (m : mem) (a n : Z) (v : byte) : mem := fun x =>
  if (a <=? x) && (x <? a + n) then v else m x.

Lemma length_mread_nat m a n : length (mread_nat m a n) = n.
Proof. revert a. induction n; intros; simpl; auto. Qed.

Lemma zlen_mread m a n : 0 <= n -> zlen (mread m a n) = n.
Proof. intros. unfold mread. rewrite length_mread_nat. lia. Qed.

Lemma nth_mread_nat m a n k :
  (k < n)%nat -> nth k (mread_nat m a n) Byte.x00 = m (a + Z.of_nat k).
Proof.
  revert a k. induction n as [|n IH]; intros a k Hk; [lia|].
  destruct k as [|k]; simpl; [f_equal; lia|].
  rewrite IH by lia. f_equal. lia.
Qed.

Lemma znth_mread m a n i : 0 <= i < n -> znth (mread m a n) i = m (a + i).
Proof.
  intros. unfold znth, mread. rewrite nth_mread_nat by lia. f_equal. lia.
Qed.

Lemma mread_nat_ext m m' a a' n :
  (forall i, 0 <= i < Z.of_nat n -> m (a + i) = m' (a' + i)) ->
  mread_nat m a n = mread_nat m' a' n.
Proof.
  revert a a'. induction n as [|n IH]; intros a a' H; simpl; [done|]. f_equal.
  - specialize (H 0). rewrite !Z.add_0_r in H. apply H. lia.
  - apply IH. intros i Hi. specialize (H (i + 1)).
    replace (a + 1 + i) with (a + (i + 1)) by lia.
    replace (a' + 1 + i) with (a' + (i + 1)) by lia. apply H. lia.
Qed.

Lemma mread_ext m m' a a' n :
  (forall i, 0 <= i < n -> m (a + i) = m' (a' + i)) -> mread m a n = mread m' a' n.
Proof. intros H. apply mread_nat_ext. intros. apply H. lia. Qed.

Lemma mwrite_spec m a bs x :
  mwrite m a bs x =
    if decide (a <= x < a + zlen bs) then znth bs (x - a) else m x.
Proof.
  unfold mwrite. case_decide.
  - by rewrite (proj2 (Z.leb_le _ _)), (proj2 (Z.ltb_lt _ _)) by lia.
  - destruct (Z.leb_spec a x), (Z.ltb_spec x (a + zlen bs)); simpl; done || lia.
Qed.

Lemma mset_spec m a n v x :
  mset m a n v x = if decide (a <= x < a + n) then v else m x.
Proof.
  unfold mset. case_decide.
  - by rewrite (proj2 (Z.leb_le _ _)), (proj2 (Z.ltb_lt _ _)) by lia.
  - destruct (Z.leb_spec a x), (Z.ltb_spec x (a + n)); simpl; done || lia.
Qed.

Lemma mread_mwrite_eq m a bs : mread (mwrite m a bs) a (zlen bs) = bs.
Proof.
  apply zlist_ext; [by rewrite zlen_mread by lia|]. intros i Hi.
  rewrite zlen_mread in Hi by lia. rewrite znth_mread by lia.
  rewrite mwrite_spec, decide_True by lia. f_equal. lia.
Qed.

Lemma mread_app m a n k :
  0 <= n -> 0 <= k -> mread m a (n + k) = mread m a n ++ mread m (a + n) k.
Proof.
  intros. apply zlist_ext.
  - rewrite zlen_app, !zlen_mread; lia.
  - intros i Hi. rewrite zlen_mread in Hi by lia. rewrite znth_mread by lia.
    destruct (decide (i < n)).
    + rewrite znth_app_l by (rewrite zlen_mread; lia). by rewrite znth_mread by lia.
    + rewrite znth_app_r by (rewrite zlen_mread; lia).
      rewrite zlen_mread by lia. rewrite znth_mread by lia. f_equal. lia.
Qed.

Lemma slice_mread m a n off k :
  0 <= off -> 0 <= k -> off + k <= n -> slice off k (mread m a n) = mread m (a + off) k.
Proof.
  intros. apply zlist_ext.
  - rewrite zlen_slice; rewrite ?zlen_mread; lia.
  - intros i Hi. rewrite zlen_slice in Hi by (rewrite ?zlen_mread; lia).
    rewrite znth_slice, !znth_mread by lia. f_equal. lia.
Qed.

(** ** Little-endian fields

    The targets are little-endian Arm cores: a [uint32_t] member of a struct
    that is copied to or from flash is the four bytes [put32]. *)

Definition put32 (x : Z) : list byte := le_split 4 x.
Definition get32 (bs : list byte) : Z := le_combine bs.
Definition put64 (x : Z) : list byte := le_split 8 x.

Lemma length_put32 x : length (put32 x) = 4%nat.
Proof. apply length_le_split. Qed.

Lemma length_put64 x : length (put64 x) = 8%nat.
Proof. apply length_le_split. Qed.

Lemma get_put32 x : 0 <= x < 2 ^ 32 -> get32 (put32 x) = x.
Proof.
  intros. unfold get32, put32. rewrite le_combine_split.
  change (Z.of_nat 4 * 8) with 32. by apply Z.mod_small.
Qed.

Lemma put_get32 bs : length bs = 4%nat -> put32 (get32 bs) = bs.
Proof. apply split_le_combine'. Qed.

Lemma get32_bound bs : length bs = 4%nat -> 0 <= get32 bs < 2 ^ 32.
Proof.
  intros H. pose proof (le_combine_bound bs) as B. rewrite H in B.
  unfold get32. change (8 * Z.of_nat 4) with 32 in B. lia.
Qed.

(** A byte as an unsigned number, and back. *)
Definition b2z (b : byte) : Z := byte.unsigned b.
Definition z2b (x : Z) : byte := byte.of_Z x.

Lemma b2z_bound b : 0 <= b2z b < 2 ^ 8.
Proof. apply byte.unsigned_range. Qed.

Lemma b2z_z2b x : 0 <= x < 2 ^ 8 -> b2z (z2b x) = x.
Proof.
  intros. unfold b2z, z2b. rewrite byte.unsigned_of_Z. unfold byte.wrap.
  by apply Z.mod_small.
Qed.

Lemma z2b_b2z b : z2b (b2z b) = b.
Proof. apply byte.of_Z_unsigned. Qed.

#[global] Opaque put32 put64.
#[global] Arguments get32 : simpl never.
#[global] Arguments b2z : simpl never.
#[global] Arguments z2b : simpl never.
#[global] Arguments u8 : simpl never.
#[global] Arguments u16 : simpl never.
#[global] Arguments u32 : simpl never.
#[global] Arguments u64 : simpl never.
#[global] Arguments znth : simpl never.
#[global] Arguments slice : simpl never.
#[global] Arguments splice : simpl never.
#[global] Arguments mread : simpl never.
#[global] Arguments mwrite : simpl never.
#[global] Arguments mset : simpl never.

(** ** Effects

    A C function that reads and updates file-scope state, returns an error
    code and may have undefined behaviour is a value of [M S E A]: [Ok a] is
    the success code together with the function's outputs, [Err e] is any other
    return code and [Fault] is undefined behaviour (an access outside an
    object).  The state after an error is kept: what was programmed into flash
    before the error stays there. *)

Inductive outcome (E A : Type) :=
| Ok (a : A)
| Err (e : E)
| Fault.
Arguments Ok {E A} a.
Arguments Err {E A} e.
Arguments Fault {E A}.

Definition M (S E A : Type) : Type := S -> outcome E A * S.

Section monad.
  Context {S E : Type}.

Definition ret {A} (a : A) : M S E A := fun s => (Ok a, s).
Definition fail {A} (e : E) : M S E A := fun s => (Err e, s).
Definition fault {A} : M S E A := fun s => (Fault, s).

Definition bind {A B} (m : M S E A) (k : A -> M S E B) : M S E B := fun s =>
  match m s with
  | (Ok a, s') => k a s'
  | (Err e, s') => (Err e, s')
  | (Fault, s') => (Fault, s')
  end.

Definition gets {A} (f : S -> A) : M S E A := fun s => (Ok (f s), s).
Definition modify (f : S -> S) : M S E unit := fun s => (Ok tt, f s).

(** [if (err != SUCCESS) return e;] after [m] *)
Definition or_return {A} (m : M S E A) (e : E) : M S E A := fun s =>
  match m s with
  | (Err _, s') => (Err e, s')
  | r => r
  end.

(** The caller looks at the error code of [m] itself. *)
Definition try {A} (m : M S E A) : M S E (option A) := fun s =>
  match m s with
  | (Ok a, s') => (Ok (Some a), s')
  | (Err _, s') => (Ok None, s')
  | (Fault, s') => (Fault, s')
  end.

(** The caller keeps the error code of [m]. *)
Definition try_err {A} (m : M S E A) : M S E (A + E) := fun s =>
  match m s with
  | (Ok a, s') => (Ok (inl a), s')
  | (Err e, s') => (Ok (inr e), s')
  | (Fault, s') => (Fault, s')
  end.

(** The error code of [m] is dropped. *)
Definition ignore {A} (m : M S E A) : M S E unit := bind (try m) (fun _ => ret tt).

Definition guard (b : bool) (e : E) : M S E unit := if b then ret tt else fail e.

(** An access that stays inside its object when [b] holds. *)
Definition in_bounds (b : bool) : M S E unit := if b then ret tt else fault.
End monad.

Declare Scope tfm_scope.
Delimit Scope tfm_scope with tfm.
Notation "x <- m ;; k" := (bind m (fun x => k))
  (at level 100, m at next level, right associativity) : tfm_scope.
Notation "m ;; k" := (bind m (fun _ => k))
  (at level 100, right associativity) : tfm_scope.
#[global] Open Scope tfm_scope.

Section monad_lemmas.
  Context {S E : Type}.

Lemma bind_Ok {A B} (m : M S E A) (k : A -> M S E B) s a s' :
  m s = (Ok a, s') -> bind m k s = k a s'.
Proof. intros H. unfold bind. by rewrite H. Qed.

Lemma bind_Err {A B} (m : M S E A) (k : A -> M S E B) s e s' :
  m s = (Err e, s') -> bind m k s = (Err e, s').
Proof. intros H. unfold bind. by rewrite H. Qed.

Lemma bind_inv_Ok {A B} (m : M S E A) (k : A -> M S E B) s b s' :
  bind m k s = (Ok b, s') -> exists a s1, m s = (Ok a, s1) /\ k a s1 = (Ok b, s').
Proof.
  unfold bind. destruct (m s) as [[a|e|] s1] eqn:H; intros; simplify_eq. eauto.
Qed.

Lemma bind_assoc {A B C} (m : M S E A) (f : A -> M S E B) (g : B -> M S E C) s :
  bind m (fun x => bind (f x) g) s = bind (bind m f) g s.
Proof. unfold bind. by destruct (m s) as [[]]. Qed.

Lemma bind_congr {A B} (m : M S E A) (f g : A -> M S E B) s :
  (forall a s', f a s' = g a s') -> bind m f s = bind m g s.
Proof. intros H. unfold bind. destruct (m s) as [[]]; auto. Qed.

Lemma bind_fail {A B} (e : E) (k : A -> M S E B) s : fail e s = bind (fail e) k s.
Proof. done. Qed.

Lemma or_return_Ok {A} (m : M S E A) e s a s' :
  m s = (Ok a, s') -> or_return m e s = (Ok a, s').
Proof. intros H. unfold or_return. by rewrite H. Qed.

Lemma or_return_Err {A} (m : M S E A) e e' s s' :
  m s = (Err e', s') -> or_return m e s = (Err e, s').
Proof. intros H. unfold or_return. by rewrite H. Qed.

Lemma try_Ok {A} (m : M S E A) s a s' :
  m s = (Ok a, s') -> try m s = (Ok (Some a), s').
Proof. intros H. unfold try. by rewrite H. Qed.

Lemma try_err_Ok {A} (m : M S E A) s a s' :
  m s = (Ok a, s') -> try_err m s = (Ok (inl a), s').
Proof. intros H. unfold try_err. by rewrite H. Qed.

Lemma ignore_Ok {A} (m : M S E A) s a s' :
  m s = (Ok a, s') -> ignore m s = (Ok tt, s').
Proof. intros H. unfold ignore. by rewrite (bind_Ok _ _ _ _ _ (try_Ok _ _ _ _ H)). Qed.
End monad_lemmas.

(** ** Successful runs

    [runs m s Q]: from [s] the function [m] succeeds, and its result and the
    state it leaves satisfy [Q].  A run that fails or faults satisfies no
    postcondition, so this is total correctness. *)

Section runs.
  Context {S E : Type}.

Definition runs {A} (m : M S E A) (s : S) (Q : A -> S -> Prop) : Prop :=
  exists a s', m s = (Ok a, s') /\ Q a s'.

Lemma runs_ret {A} (a : A) s (Q : A -> S -> Prop) : Q a s -> runs (ret a) s Q.
Proof. intros H. by exists a, s. Qed.

Lemma runs_bind {A B} (m : M S E A) (k : A -> M S E B) s Q :
  runs m s (fun a s' => runs (k a) s' Q) -> runs (bind m k) s Q.
Proof.
  intros (a & s1 & H1 & b & s2 & H2 & HQ). exists b, s2.
  by rewrite (bind_Ok _ _ _ _ _ H1).
Qed.

Lemma runs_gets {A} (f : S -> A) s (Q : A -> S -> Prop) :
  Q (f s) s -> runs (gets f) s Q.
Proof. intros H. by exists (f s), s. Qed.

Lemma runs_modify (f : S -> S) s (Q : unit -> S -> Prop) :
  Q tt (f s) -> runs (modify f) s Q.
Proof. intros H. by exists tt, (f s). Qed.

Lemma runs_or_return {A} (m : M S E A) e s Q : runs m s Q -> runs (or_return m e) s Q.
Proof. intros (a & s' & H & HQ). exists a, s'. by rewrite (or_return_Ok _ _ _ _ _ H). Qed.

Lemma runs_try {A} (m : M S E A) s Q :
  runs m s (fun a s' => Q (Some a) s') -> runs (try m) s Q.
Proof. intros (a & s' & H & HQ). exists (Some a), s'. by rewrite (try_Ok _ _ _ _ H). Qed.

Lemma runs_try_err {A} (m : M S E A) s Q :
  runs m s (fun a s' => Q (inl a) s') -> runs (try_err m) s Q.
Proof. intros (a & s' & H & HQ). exists (inl a), s'. by rewrite (try_err_Ok _ _ _ _ H). Qed.

Lemma runs_ignore {A} (m : M S E A) s Q :
  runs m s (fun _ s' => Q tt s') -> runs (ignore m) s Q.
Proof. intros (a & s' & H & HQ). exists tt, s'. by rewrite (ignore_Ok _ _ _ _ H). Qed.

Lemma runs_guard b (e : E) s (Q : unit -> S -> Prop) :
  b = true -> Q tt s -> runs (guard b e) s Q.
Proof. intros -> H. by apply runs_ret. Qed.

Lemma runs_in_bounds b s (Q : unit -> S -> Prop) :
  b = true -> Q tt s -> runs (in_bounds b) s Q.
Proof. intros -> H. by apply runs_ret. Qed.

Lemma runs_mono {A} (m : M S E A) s (P Q : A -> S -> Prop) :
  runs m s P -> (forall a s', P a s' -> Q a s') -> runs m s Q.
Proof. intros (a & s' & H & HP) HQ. exists a, s'. auto. Qed.

Lemma runs_val {A} (m : M S E A) s a (Q : A -> S -> Prop) :
  m s = (Ok a, s) -> Q a s -> runs m s Q.
Proof. intros. by exists a, s. Qed.

Lemma runs_ext {A} (m m' : M S E A) s Q : m s = m' s -> runs m' s Q -> runs m s Q.
Proof. intros Em (a & s' & H & HQ). exists a, s'. by rewrite Em. Qed.

Lemma runs_eq {A} (m : M S E A) s a s' :
  runs m s (fun a' s1 => a' = a /\ s1 = s') -> m s = (Ok a, s').
Proof. by intros (a' & s1 & H & -> & ->). Qed.
End runs.
