(* ===== verification/TcWords.v ===== *)
(** * Words and arrays of words

    What the proofs about the cryptography share: 32-bit words as bit patterns
    and numbers in big-endian bytes. *)

From S2P Require Import Prelude.

(** ** Words *)

Abbreviation word x := (0 <= x < 2 ^ 32).

Lemma pow2_bound_bits n x : 0 <= n -> 0 <= x -> (forall i, n <= i -> Z.testbit x i = false) -> x < 2 ^ n.
Proof.
  intros Hn Hx Hb. rewrite <- (Z.mod_small x (2 ^ n)); [apply Z.mod_pos_bound; lia|].
  split; [done|]. assert (x = x mod 2 ^ n) as E; [|rewrite E; apply Z.mod_pos_bound; lia].
  apply Z.bits_inj'. intros i Hi. destruct (Z.lt_ge_cases i n).
  - by rewrite Z.mod_pow2_bits_low by lia.
  - by rewrite Z.mod_pow2_bits_high, Hb by lia.
Qed.

Lemma bits_above n x i : 0 <= x < 2 ^ n -> n <= i -> 0 <= n -> Z.testbit x i = false.
Proof. intros Hx Hi Hn. rewrite <- (Z.mod_small x (2 ^ n)) by done. apply Z.mod_pow2_bits_high. lia. Qed.

(** Bitwise operations stay below a power of two. *)
Lemma lxor_pow2 n x y : 0 <= n -> 0 <= x < 2 ^ n -> 0 <= y < 2 ^ n -> 0 <= Z.lxor x y < 2 ^ n.
Proof.
  intros Hn Hx Hy. assert (0 <= Z.lxor x y) by (apply Z.lxor_nonneg; lia). split; [done|].
  apply pow2_bound_bits; [done..|]. intros i Hi. rewrite Z.lxor_spec, !(bits_above n) by done. done.
Qed.

Lemma land_pow2 n x y : 0 <= n -> 0 <= x < 2 ^ n -> 0 <= y -> 0 <= Z.land x y < 2 ^ n.
Proof.
  intros Hn Hx Hy. assert (0 <= Z.land x y) by (apply Z.land_nonneg; lia). split; [done|].
  apply pow2_bound_bits; [done..|]. intros i Hi. rewrite Z.land_spec, (bits_above n x) by done. done.
Qed.

Lemma lor_pow2 n x y : 0 <= n -> 0 <= x < 2 ^ n -> 0 <= y < 2 ^ n -> 0 <= Z.lor x y < 2 ^ n.
Proof.
  intros Hn Hx Hy. assert (0 <= Z.lor x y) by (apply Z.lor_nonneg; lia). split; [done|].
  apply pow2_bound_bits; [done..|]. intros i Hi. rewrite Z.lor_spec, !(bits_above n) by done. done.
Qed.

Lemma shiftr_word x n : word x -> 0 <= n -> word (Z.shiftr x n).
Proof.
  intros Hx Hn. rewrite Z.shiftr_div_pow2 by done. split; [apply Z.div_pos; lia|].
  apply Z.div_lt_upper_bound; nia.
Qed.

Lemma lnot_word x : word x -> u32 (Z.lnot x) = 2 ^ 32 - 1 - x.
Proof. intros Hx. unfold u32, Z.lnot. symmetry. apply (Z.mod_unique _ _ (-1)); lia. Qed.

(** The high part of a word that is shifted out comes back below. *)
Lemma u32_shiftl x n : word x -> 0 <= n <= 32 -> u32 (Z.shiftl x (32 - n)) = x mod 2 ^ n * 2 ^ (32 - n).
Proof.
  intros Hx Hn. unfold u32. rewrite Z.shiftl_mul_pow2 by lia.
  replace (2 ^ 32) with (2 ^ n * 2 ^ (32 - n)) by (rewrite <- Z.pow_add_r by lia; f_equal; lia).
  by rewrite Z.mul_mod_distr_r by lia.
Qed.

(** A part shifted below a part that has room for it. *)
Lemma lor_low x y n : 0 <= n -> 0 <= x < 2 ^ n -> Z.lor x (y * 2 ^ n) = x + y * 2 ^ n.
Proof. intros Hn Hx. rewrite Z.lor_comm, <- Z.shiftl_mul_pow2, lor_parts, Z.shiftl_mul_pow2 by done. lia. Qed.

(** ** Big-endian numbers *)

Definition be (bs : list byte) : Z := fold_left (fun x b => x * 256 + b2z b) bs 0.

Fixpoint be_bytes (n : nat) (x : Z) : list byte :=
  match n with
  | O => []
  | S n => be_bytes n (x / 256) ++ [z2b x]
  end.

Lemma length_be_bytes n x : length (be_bytes n x) = n.
Proof. revert x. induction n as [|n IH]; intros x; cbn; [done|]. rewrite length_app, IH. cbn. lia. Qed.

Lemma be_snoc bs b : be (bs ++ [b]) = be bs * 256 + b2z b.
Proof. unfold be. by rewrite fold_left_app. Qed.

Lemma be_bound bs : 0 <= be bs < 256 ^ zlen bs.
Proof.
  induction bs as [|b bs IH] using rev_ind; [done|]. rewrite be_snoc, zlen_app. cbn [length].
  pose proof (b2z_bound b). rewrite Z.pow_add_r by lia. change (256 ^ Z.of_nat 1) with 256. nia.
Qed.

Lemma b2z_z2b_mod x : b2z (z2b x) = x mod 256.
Proof. unfold b2z, z2b. by rewrite byte.unsigned_of_Z. Qed.

Lemma z2b_mod x : z2b (x mod 256) = z2b x.
Proof. rewrite <- b2z_z2b_mod. apply z2b_b2z. Qed.


Lemma be_bytes_mod n x : be_bytes n (x mod 256 ^ Z.of_nat n) = be_bytes n x.
Proof.
  revert x. induction n as [|n IH]; intros x; cbn [be_bytes]; [done|]. rewrite Nat2Z.inj_succ, Z.pow_succ_r by lia.
  rewrite Z.rem_mul_r by lia. f_equal.
  - rewrite <- (IH (x / 256)). f_equal. rewrite Z.mul_comm, Z.div_add by lia.
    rewrite (Z.div_small (x mod 256)) by (apply Z.mod_pos_bound; lia). lia.
  - f_equal. rewrite <- (z2b_mod x), <- z2b_mod. f_equal. rewrite Z.mul_comm, Z.mod_add, Z.mod_mod by lia. done.
Qed.

Lemma be_bytes_be l : be_bytes (length l) (be l) = l.
Proof.
  induction l as [|x l IH] using rev_ind; [done|]. rewrite length_app, Nat.add_1_r. cbn [be_bytes]. rewrite be_snoc.
  rewrite Z.div_add_l, Z.div_small, Z.add_0_r, IH by (lia || apply b2z_bound). f_equal.
  rewrite <- z2b_mod, Z.add_comm, Z.mod_add by lia. by rewrite z2b_mod, z2b_b2z.
Qed.

(** ** Exclusive or of parts and of bytes *)

Lemma lxor_mod_pow2 n x y : 0 <= n -> Z.lxor x y mod 2 ^ n = Z.lxor (x mod 2 ^ n) (y mod 2 ^ n).
Proof.
  intros Hn. apply Z.bits_inj'. intros i Hi. rewrite Z.lxor_spec. destruct (Z.lt_ge_cases i n).
  - by rewrite !Z.mod_pow2_bits_low, Z.lxor_spec by lia.
  - by rewrite !Z.mod_pow2_bits_high by lia.
Qed.

Lemma lxor_parts n x y x' y' : 0 <= n -> 0 <= y < 2 ^ n -> 0 <= y' < 2 ^ n ->
  Z.lxor (x * 2 ^ n + y) (x' * 2 ^ n + y') = Z.lxor x x' * 2 ^ n + Z.lxor y y'.
Proof.
  intros Hn Hy Hy'. pose proof (lxor_pow2 n y y' Hn Hy Hy') as Hl.
  rewrite <- !lor_parts by done. apply Z.bits_inj'. intros i Hi.
  rewrite !Z.lxor_spec, !Z.lor_spec, !Z.shiftl_spec, !Z.lxor_spec by lia.
  destruct (Z.lt_ge_cases i n).
  - rewrite !(Z.testbit_neg_r _ (i - n)) by lia. done.
  - rewrite (bits_above n y), (bits_above n y') by lia. by rewrite !orb_false_r.
Qed.

Lemma b2z_inj x y : b2z x = b2z y -> x = y.
Proof. intros H. rewrite <- (z2b_b2z x), <- (z2b_b2z y). by f_equal. Qed.

(** [x ^ y] of two bytes. *)
Definition bxor (x y : byte) : byte := z2b (Z.lxor (b2z x) (b2z y)).

Lemma bxor_val x y : b2z (bxor x y) = Z.lxor (b2z x) (b2z y).
Proof. unfold bxor. apply b2z_z2b. apply lxor_pow2; [lia|apply b2z_bound..]. Qed.

Lemma bxor_comm x y : bxor x y = bxor y x.
Proof. unfold bxor. by rewrite Z.lxor_comm. Qed.

Lemma bxor_assoc x y z : bxor x (bxor y z) = bxor (bxor x y) z.
Proof. apply b2z_inj. by rewrite !bxor_val, Z.lxor_assoc. Qed.

Lemma bxor_0_r x : bxor x Byte.x00 = x.
Proof. apply b2z_inj. rewrite bxor_val. apply Z.lxor_0_r. Qed.

Lemma bxor_inv x y : bxor (bxor x y) y = x.
Proof. apply b2z_inj. by rewrite !bxor_val, Z.lxor_assoc, Z.lxor_nilpotent, Z.lxor_0_r. Qed.

Lemma bxor_swap a b c d : bxor (bxor a b) (bxor c d) = bxor (bxor a c) (bxor b d).
Proof. rewrite !bxor_assoc. f_equal. rewrite <- !bxor_assoc. f_equal. apply bxor_comm. Qed.

Lemma z2b_lxor u v : z2b (Z.lxor u v) = bxor (z2b u) (z2b v).
Proof.
  apply b2z_inj. rewrite bxor_val, !b2z_z2b_mod. change 256 with (2 ^ 8). by rewrite lxor_mod_pow2.
Qed.

Definition all_bytes : list byte := z2b <$> seqZ 0 256.

(** A test of all bytes. *)
Lemma byte_all (P : byte -> bool) : forallb P all_bytes = true -> forall x, P x = true.
Proof.
  intros H x. rewrite forallb_forall in H. apply H, list_elem_of_In, list_elem_of_fmap.
  exists (b2z x). split; [by rewrite z2b_b2z|]. apply elem_of_seqZ. pose proof (b2z_bound x). lia.
Qed.

Lemma byte_eq_all (f g : byte -> byte) : forallb (fun x => bool_decide (f x = g x)) all_bytes = true -> forall x, f x = g x.
Proof. intros H x. pose proof (byte_all _ H x) as E. by apply bool_decide_eq_true_1 in E. Qed.

(** ** Sequences that grow by a recurrence *)

Section grow.
  Context {A : Type} `{Inhabited A} (next : list A -> A).

Definition grow (n : nat) (w : list A) : list A := Nat.iter n (fun w => w ++ [next w]) w.

Lemma grow_S n w : grow (S n) w = grow n w ++ [next (grow n w)].
Proof. reflexivity. Qed.

Lemma length_grow n w : length (grow n w) = (n + length w)%nat.
Proof. induction n as [|n IH]; [done|]. rewrite grow_S, length_app, IH. cbn. lia. Qed.

Lemma grow_prefix n w t : (t < length w)%nat -> grow n w !!! t = w !!! t.
Proof.
  intros Ht. induction n as [|n IH]; [done|]. rewrite grow_S, lookup_total_app_l by (rewrite length_grow; lia). done.
Qed.

Lemma take_grow n w t : (t <= length w)%nat -> take t (grow n w) = take t w.
Proof.
  intros Ht. induction n as [|n IH]; [done|]. rewrite grow_S, take_app_le; [done|]. rewrite length_grow. lia.
Qed.

Lemma grow_add n k w : grow (n + k) w = grow n (grow k w).
Proof. apply Nat.iter_add. Qed.

Lemma grow_next n w t : (length w <= t < n + length w)%nat -> grow n w !!! t = next (take t (grow n w)).
Proof.
  intros Ht. set (j := (t - length w)%nat). replace n with ((n - S j) + S j)%nat by lia. rewrite grow_add.
  assert (length (grow j w) = t) as Hj by (rewrite length_grow; lia).
  assert (length (grow (S j) w) = S t) as Hw by (rewrite length_grow; lia). rewrite grow_prefix by lia.
  rewrite take_grow, grow_S, take_app_length' by lia. rewrite lookup_total_app_r by lia. by rewrite Hj, Nat.sub_diag.
Qed.
End grow.
