(* ===== verification/FlashDriver.v ===== *)
(** * The CMSIS flash driver

    [platform/ext/target/mps2/an521/cmsis_drivers/Driver_Flash.c] (the an519
    copy is the same file): the flash device is emulated over code SRAM.  The
    secure storage service only sees the [ARM_DRIVER_FLASH] structure of
    function pointers, so that structure is a class here; [FlashDevice] states
    what a device promises to its clients, [Emulated] discharges it for the
    driver of the source and [PowerCut] for a device that loses power after a
    given number of program and erase operations. *)

From S2P Require Import Prelude.

Definition ARM_DRIVER_OK : Z := 0.
Definition ARM_DRIVER_ERROR : Z := -1.
Definition ARM_DRIVER_ERROR_UNSUPPORTED : Z := -4.
Definition ARM_DRIVER_ERROR_PARAMETER : Z := -5.

(** The members of [ARM_DRIVER_FLASH] the storage service calls.  [ReadData]
    returns the bytes it stores in the caller's buffer. *)
Class ARM_DRIVER_FLASH (D : Type) := {
  ReadData : Z -> Z -> D -> Z * list byte;
  ProgramData : Z -> list byte -> D -> Z * D;
  EraseSector : Z -> D -> Z * D;
}.

(** What a device promises: the content is a byte array, reads return it,
    program and erase operations either take effect and return
    [ARM_DRIVER_OK] or leave the content unchanged, and on a device that is
    powered ([flash_live]) operations inside the device succeed. *)
Class FlashDevice (D : Type) `{!ARM_DRIVER_FLASH D} := {
  flash_limit : Z;
  flash_sector : Z;
  flash_byte : D -> Z -> byte;
  flash_live : D -> Prop;
  flash_limit_range : 0 <= flash_limit < 2 ^ 32;
  flash_sector_pos : 0 < flash_sector;
  ReadData_spec d a n bs :
    0 <= a -> 0 <= n -> a + n <= flash_limit ->
    ReadData a n d = (ARM_DRIVER_OK, bs) -> bs = mread (flash_byte d) a n;
  ReadData_live d a n :
    0 <= a -> 0 <= n -> a + n <= flash_limit ->
    flash_live d -> (ReadData a n d).1 = ARM_DRIVER_OK;
  ProgramData_spec d a bs :
    0 <= a -> a + zlen bs <= flash_limit ->
    let '(rc, d') := ProgramData a bs d in
    (rc = ARM_DRIVER_OK /\
       forall x, 0 <= x < flash_limit -> flash_byte d' x = mwrite (flash_byte d) a bs x) \/
    (rc <> ARM_DRIVER_OK /\
       forall x, 0 <= x < flash_limit -> flash_byte d' x = flash_byte d x);
  ProgramData_live d a bs :
    0 <= a -> a + zlen bs <= flash_limit -> flash_live d ->
    (ProgramData a bs d).1 = ARM_DRIVER_OK /\ flash_live (ProgramData a bs d).2;
  EraseSector_spec d a :
    0 <= a -> a + flash_sector <= flash_limit -> a mod flash_sector = 0 ->
    let '(rc, d') := EraseSector a d in
    (rc = ARM_DRIVER_OK /\
       forall x, 0 <= x < flash_limit ->
         flash_byte d' x = mset (flash_byte d) a flash_sector Byte.xff x) \/
    (rc <> ARM_DRIVER_OK /\
       forall x, 0 <= x < flash_limit -> flash_byte d' x = flash_byte d x);
  EraseSector_live d a :
    0 <= a -> a + flash_sector <= flash_limit -> a mod flash_sector = 0 ->
    flash_live d ->
    (EraseSector a d).1 = ARM_DRIVER_OK /\ flash_live (EraseSector a d).2;
}.

(** ** The driver of the source *)

Record ARM_FLASH_INFO := {
  sector_count : Z;
  sector_size : Z;
  program_unit : Z;
  erased_value : byte;
}.

Record arm_flash_dev_t := {
  memory_base : Z;
  data : ARM_FLASH_INFO;
}.

Definition is_range_valid (flash_dev : arm_flash_dev_t) (offset : Z) : Z :=
  let flash_limit :=
    u32 (u32 (sector_count (data flash_dev) * sector_size (data flash_dev)) - 1) in
  if flash_limit <? offset then -1 else 0.

Definition is_write_aligned (flash_dev : arm_flash_dev_t) (param : Z) : Z :=
  if negb (param mod program_unit (data flash_dev) =? 0) then -1 else 0.

Definition is_sector_aligned (flash_dev : arm_flash_dev_t) (offset : Z) : Z :=
  if negb (offset mod sector_size (data flash_dev) =? 0) then -1 else 0.

(** The driver's state is the SRAM it emulates flash on. *)
Definition ARM_Flash_ReadData (dev : arm_flash_dev_t) (addr cnt : Z) (sram : mem)
  : Z * list byte :=
  let start_addr := u32 (memory_base dev + addr) in
  let rc := is_range_valid dev (u32 (addr + cnt)) in
  if negb (rc =? 0) then (ARM_DRIVER_ERROR_PARAMETER, [])
  else (ARM_DRIVER_OK, mread sram start_addr cnt).

Definition ARM_Flash_ProgramData (dev : arm_flash_dev_t) (addr : Z) (bs : list byte)
  (sram : mem) : Z * mem :=
  let cnt := zlen bs in
  let start_addr := u32 (memory_base dev + addr) in
  let rc := is_range_valid dev (u32 (addr + cnt)) in
  let rc := Z.lor rc (is_write_aligned dev addr) in
  let rc := Z.lor rc (is_write_aligned dev cnt) in
  if negb (rc =? 0) then (ARM_DRIVER_ERROR_PARAMETER, sram)
  else (ARM_DRIVER_OK, mwrite sram start_addr bs).

Definition ARM_Flash_EraseSector (dev : arm_flash_dev_t) (addr : Z) (sram : mem)
  : Z * mem :=
  let start_addr := u32 (memory_base dev + addr) in
  let rc := is_range_valid dev addr in
  let rc := Z.lor rc (is_sector_aligned dev addr) in
  if negb (rc =? 0) then (ARM_DRIVER_ERROR_PARAMETER, sram)
  else (ARM_DRIVER_OK,
        mset sram start_addr (sector_size (data dev)) (erased_value (data dev))).

(** The loop of [ARM_Flash_EraseChip], [n] sectors still to erase. *)
Fixpoint erase_chip_loop (dev : arm_flash_dev_t) (n : nat) (addr : Z) (rc : Z)
  (sram : mem) : Z * mem :=
  match n with
  | O => (rc, sram)
  | S n =>
      erase_chip_loop dev n (u32 (addr + sector_size (data dev))) ARM_DRIVER_OK
        (mset sram addr (sector_size (data dev)) (erased_value (data dev)))
  end.

(** [DriverCapabilities.erase_chip] is 1. *)
Definition ARM_Flash_EraseChip (dev : arm_flash_dev_t) (sram : mem) : Z * mem :=
  erase_chip_loop dev (Z.to_nat (sector_count (data dev))) (memory_base dev)
    ARM_DRIVER_ERROR_UNSUPPORTED sram.

(** [ARM_FLASH0_DEV] of the an521 board: [FLASH0_BASE_S], [FLASH0_SIZE],
    [FLASH0_SECTOR_SIZE], [FLASH0_PROGRAM_UNIT] of [platform_retarget.h]. *)
Definition ARM_FLASH0_DEV_an521 : arm_flash_dev_t := {|
  memory_base := 0x10000000;
  data := {| sector_count := 0x00400000 / 0x1000; sector_size := 0x1000;
             program_unit := 1; erased_value := Byte.xff |} |}.

(** The function table [Driver_FLASH0] over a device description. *)
Record emulated (dev : arm_flash_dev_t) := Emulated { sram : mem }.
Arguments Emulated {dev} sram.
Arguments sram {dev} e.

#[global] Instance Driver_FLASH0 dev : ARM_DRIVER_FLASH (emulated dev) := {
  ReadData addr cnt d := ARM_Flash_ReadData dev addr cnt (sram d);
  ProgramData addr bs d :=
    let '(rc, m) := ARM_Flash_ProgramData dev addr bs (sram d) in (rc, Emulated m);
  EraseSector addr d :=
    let '(rc, m) := ARM_Flash_EraseSector dev addr (sram d) in (rc, Emulated m);
}.

(** A device description the driver can serve: it fits the address space and
    every byte can be programmed on its own. *)
Class flash_dev_ok (dev : arm_flash_dev_t) : Prop := {
  dev_base : 0 <= memory_base dev;
  dev_count : 0 < sector_count (data dev);
  dev_sector : 0 < sector_size (data dev);
  dev_size : memory_base dev + sector_count (data dev) * sector_size (data dev) < 2 ^ 32;
  dev_unit : program_unit (data dev) = 1;
  dev_erased : erased_value (data dev) = Byte.xff;
}.

#[global] Instance an521_ok : flash_dev_ok ARM_FLASH0_DEV_an521.
Proof. split; vm_compute; congruence. Qed.

(** ** The driver's checks *)

Section emulated.
  Context (dev : arm_flash_dev_t).

Definition dev_bytes : Z := sector_count (data dev) * sector_size (data dev).

Lemma is_range_valid_spec off :
  0 < dev_bytes < 2 ^ 32 ->
  is_range_valid dev off = 0 <-> off < dev_bytes.
Proof.
  intros H. unfold is_range_valid. fold dev_bytes.
  rewrite !u32_small by (rewrite ?u32_small; lia).
  destruct (Z.ltb_spec (dev_bytes - 1) off); lia.
Qed.

Lemma rc_zero rc : (rc =? 0) = true <-> rc = 0.
Proof. apply Z.eqb_eq. Qed.

(** A transfer is accepted exactly when the wrapped end address lies strictly
    inside the device and, for programming, both the address and the length
    are multiples of the programming unit. *)
Lemma ARM_Flash_ReadData_cases addr cnt m :
  0 < dev_bytes < 2 ^ 32 ->
  ARM_Flash_ReadData dev addr cnt m =
    if decide (u32 (addr + cnt) < dev_bytes)
    then (ARM_DRIVER_OK, mread m (u32 (memory_base dev + addr)) cnt)
    else (ARM_DRIVER_ERROR_PARAMETER, []).
Proof.
  intros H. unfold ARM_Flash_ReadData.
  pose proof (is_range_valid_spec (u32 (addr + cnt)) H) as R.
  case_decide as C.
  - by rewrite (proj2 R C).
  - destruct (is_range_valid dev (u32 (addr + cnt)) =? 0) eqn:E; [|done].
    apply rc_zero in E. tauto.
Qed.

Lemma ARM_Flash_ProgramData_cases addr bs m :
  0 < dev_bytes < 2 ^ 32 ->
  ARM_Flash_ProgramData dev addr bs m =
    if decide (u32 (addr + zlen bs) < dev_bytes /\
               addr mod program_unit (data dev) = 0 /\
               zlen bs mod program_unit (data dev) = 0)
    then (ARM_DRIVER_OK, mwrite m (u32 (memory_base dev + addr)) bs)
    else (ARM_DRIVER_ERROR_PARAMETER, m).
Proof.
  intros H. unfold ARM_Flash_ProgramData, is_write_aligned.
  pose proof (is_range_valid_spec (u32 (addr + zlen bs)) H) as R.
  destruct (Z.eqb_spec (addr mod program_unit (data dev)) 0),
    (Z.eqb_spec (zlen bs mod program_unit (data dev)) 0); simpl;
    rewrite ?Z.lor_0_r, ?Z.lor_m1_r; case_decide as C; try (exfalso; tauto); try done.
  - by rewrite (proj2 R (proj1 C)).
  - destruct (is_range_valid _ _ =? 0) eqn:E; [|done]. apply rc_zero in E. tauto.
Qed.

Lemma ARM_Flash_EraseSector_cases addr m :
  0 < dev_bytes < 2 ^ 32 ->
  ARM_Flash_EraseSector dev addr m =
    if decide (addr < dev_bytes /\ addr mod sector_size (data dev) = 0)
    then (ARM_DRIVER_OK,
          mset m (u32 (memory_base dev + addr)) (sector_size (data dev))
            (erased_value (data dev)))
    else (ARM_DRIVER_ERROR_PARAMETER, m).
Proof.
  intros H. unfold ARM_Flash_EraseSector, is_sector_aligned.
  pose proof (is_range_valid_spec addr H) as R.
  destruct (Z.eqb_spec (addr mod sector_size (data dev)) 0); simpl;
    rewrite ?Z.lor_0_r, ?Z.lor_m1_r; case_decide as C; try (exfalso; tauto); try done.
  - by rewrite (proj2 R (proj1 C)).
  - destruct (is_range_valid _ _ =? 0) eqn:E; [|done]. apply rc_zero in E. tauto.
Qed.
End emulated.

(** ** The driver implements the device interface *)

Section emulated_device.
  Context (dev : arm_flash_dev_t) `{!flash_dev_ok dev}.

Lemma dev_bytes_range : 0 < dev_bytes dev < 2 ^ 32.
Proof.
  unfold dev_bytes. pose proof dev_base. pose proof dev_count.
  pose proof dev_sector. pose proof dev_size. nia.
Qed.

Lemma dev_addr x : 0 <= x < dev_bytes dev -> u32 (memory_base dev + x) = memory_base dev + x.
Proof.
  intros. apply u32_small. pose proof dev_base. pose proof dev_size.
  unfold dev_bytes in *. lia.
Qed.

Ltac dev_range :=
  pose proof dev_bytes_range; pose proof dev_base; pose proof dev_sector;
  rewrite ?u32_small by lia; try lia.

#[global] Program Instance emulated_device : FlashDevice (emulated dev) := {
  flash_limit := dev_bytes dev - 1;
  flash_sector := sector_size (data dev);
  flash_byte d x := sram d (memory_base dev + x);
  flash_live _ := True;
}.
Next Obligation. dev_range. Qed.
Next Obligation. apply dev_sector. Qed.
Next Obligation.
  simpl. intros d a n bs Ha Hn Hr. rewrite ARM_Flash_ReadData_cases by apply dev_bytes_range.
  rewrite decide_True by dev_range. intros [= <-]. dev_range.
  rewrite dev_addr by lia. apply mread_ext. intros. f_equal. lia.
Qed.
Next Obligation.
  simpl. intros d a n Ha Hn Hr _. rewrite ARM_Flash_ReadData_cases by apply dev_bytes_range.
  by rewrite decide_True by dev_range.
Qed.
Next Obligation.
  simpl. intros d a bs Ha Hr. rewrite ARM_Flash_ProgramData_cases by apply dev_bytes_range.
  rewrite dev_unit, !Z.mod_1_r. rewrite decide_True by (split_and!; dev_range).
  left. split; [done|]. intros x Hx. simpl. pose proof dev_bytes_range.
  rewrite dev_addr by lia. rewrite !mwrite_spec.
  repeat case_decide; try lia; f_equal; lia.
Qed.
Next Obligation.
  simpl. intros d a bs Ha Hr _. rewrite ARM_Flash_ProgramData_cases by apply dev_bytes_range.
  rewrite dev_unit, !Z.mod_1_r. by rewrite decide_True by (split_and!; dev_range).
Qed.
Next Obligation.
  simpl. intros d a Ha Hr Hs. rewrite ARM_Flash_EraseSector_cases by apply dev_bytes_range.
  rewrite decide_True by (split; dev_range). pose proof dev_sector.
  left. split; [done|]. intros x Hx. simpl. pose proof dev_bytes_range.
  rewrite dev_addr by lia. rewrite dev_erased, !mset_spec.
  repeat case_decide; try lia; done.
Qed.
Next Obligation.
  simpl. intros d a Ha Hr Hs _. rewrite ARM_Flash_EraseSector_cases by apply dev_bytes_range.
  by rewrite decide_True by (pose proof dev_sector; split; dev_range).
Qed.
End emulated_device.

(** ** A device that loses power

    [budget = Some k]: [k] more program or erase operations take effect, all
    later ones fail and leave the content as it was.  [None]: powered. *)
Record power_cut (D : Type) := PowerCut { budget : option nat; device : D }.
Arguments PowerCut {D} budget device.
Arguments budget {D} p.
Arguments device {D} p.

Definition spend (b : option nat) : option (option nat) :=
  match b with
  | None => Some None
  | Some O => None
  | Some (S k) => Some (Some k)
  end.

#[global] Instance power_cut_driver D `{!ARM_DRIVER_FLASH D} :
  ARM_DRIVER_FLASH (power_cut D) := {
  ReadData addr cnt p := ReadData addr cnt (device p);
  ProgramData addr bs p :=
    match spend (budget p) with
    | None => (ARM_DRIVER_ERROR, p)
    | Some b => let '(rc, d) := ProgramData addr bs (device p) in (rc, PowerCut b d)
    end;
  EraseSector addr p :=
    match spend (budget p) with
    | None => (ARM_DRIVER_ERROR, p)
    | Some b => let '(rc, d) := EraseSector addr (device p) in (rc, PowerCut b d)
    end;
}.

#[global] Program Instance power_cut_device D `{!ARM_DRIVER_FLASH D, !FlashDevice D} :
  FlashDevice (power_cut D) := {
  flash_limit := flash_limit (D := D);
  flash_sector := flash_sector (D := D);
  flash_byte p := flash_byte (device p);
  flash_live p := budget p = None /\ flash_live (device p);
}.
Next Obligation. intros. apply flash_limit_range. Qed.
Next Obligation. intros. apply flash_sector_pos. Qed.
Next Obligation. simpl. intros. eapply ReadData_spec; eauto. Qed.
Next Obligation. simpl. intros D ? ? d a n ? ? ? [_ ?]. by apply ReadData_live. Qed.
Next Obligation.
  simpl. intros D ? ? d a bs Ha Hr. destruct (spend (budget d)); [|by right].
  pose proof (ProgramData_spec (device d) a bs Ha Hr) as P.
  destruct (ProgramData a bs (device d)); naive_solver.
Qed.
Next Obligation.
  simpl. intros D ? ? d a bs Ha Hr [-> Hl]. simpl.
  pose proof (ProgramData_live (device d) a bs Ha Hr Hl) as P.
  destruct (ProgramData a bs (device d)); naive_solver.
Qed.
Next Obligation.
  simpl. intros D ? ? d a Ha Hr Hm. destruct (spend (budget d)); [|by right].
  pose proof (EraseSector_spec (device d) a Ha Hr Hm) as P.
  destruct (EraseSector a (device d)); naive_solver.
Qed.
Next Obligation.
  simpl. intros D ? ? d a Ha Hr Hm [-> Hl]. simpl.
  pose proof (EraseSector_live (device d) a Ha Hr Hm Hl) as P.
  destruct (EraseSector a (device d)); naive_solver.
Qed.

(** ** Properties of the driver *)

Section driver_claims.
  Context (dev : arm_flash_dev_t).

(** The driver's argument checks, for every 32-bit argument: a read is done
    exactly when the wrapped end address is strictly below the size of the
    device, a program operation needs in addition that address and length are
    multiples of the programming unit, an erase that the address is in the
    device and sector aligned; a refused operation leaves memory as it was. *)
Theorem driver_argument_checks addr cnt bs m :
  0 < dev_bytes dev < 2 ^ 32 ->
  ARM_Flash_ReadData dev addr cnt m =
    (if decide (u32 (addr + cnt) < dev_bytes dev)
     then (ARM_DRIVER_OK, mread m (u32 (memory_base dev + addr)) cnt)
     else (ARM_DRIVER_ERROR_PARAMETER, [])) /\
  ARM_Flash_ProgramData dev addr bs m =
    (if decide (u32 (addr + zlen bs) < dev_bytes dev /\
                addr mod program_unit (data dev) = 0 /\
                zlen bs mod program_unit (data dev) = 0)
     then (ARM_DRIVER_OK, mwrite m (u32 (memory_base dev + addr)) bs)
     else (ARM_DRIVER_ERROR_PARAMETER, m)) /\
  ARM_Flash_EraseSector dev addr m =
    (if decide (addr < dev_bytes dev /\ addr mod sector_size (data dev) = 0)
     then (ARM_DRIVER_OK,
           mset m (u32 (memory_base dev + addr)) (sector_size (data dev))
             (erased_value (data dev)))
     else (ARM_DRIVER_ERROR_PARAMETER, m)).
Proof.
  intros Hb. split_and!; [by apply ARM_Flash_ReadData_cases|by apply ARM_Flash_ProgramData_cases
    |by apply ARM_Flash_EraseSector_cases].
Qed.

Lemma erase_chip_loop_spec n addr rc m :
  (forall k, 0 <= k <= Z.of_nat n ->
     u32 (addr + k * sector_size (data dev)) = addr + k * sector_size (data dev)) ->
  0 < sector_size (data dev) ->
  let '(rc', m') := erase_chip_loop dev n addr rc m in
  (n <> 0%nat -> rc' = ARM_DRIVER_OK) /\
  forall x, m' x = if decide (addr <= x < addr + Z.of_nat n * sector_size (data dev))
                   then erased_value (data dev) else m x.
Proof.
  intros Hw Hs. revert addr rc m Hw. induction n as [|n IH]; intros addr rc m Hw; cbn [erase_chip_loop].
  - split; [done|]. intros x. by rewrite decide_False by lia.
  - set (ss := sector_size (data dev)) in *.
    assert (u32 (addr + ss) = addr + ss) as E by (specialize (Hw 1); rewrite Z.mul_1_l in Hw; apply Hw; lia).
    rewrite E. specialize (IH (addr + ss) ARM_DRIVER_OK (mset m addr ss (erased_value (data dev)))).
    destruct (erase_chip_loop _ n _ _ _) as [rc' m'] eqn:El.
    destruct IH as [Hrc Hm].
    { intros k Hk. specialize (Hw (k + 1)). replace (addr + ss + k * ss) with (addr + (k + 1) * ss) by lia.
      apply Hw. lia. }
    split.
    + intros _. destruct n; [by injection El|]. by apply Hrc.
    + intros x. rewrite Hm, mset_spec. repeat case_decide; try done; lia.
Qed.

(** Erasing the chip sets every byte of the device to the erased value and
    nothing else. *)
Theorem erase_chip_erases_all m :
  flash_dev_ok dev ->
  exists m', ARM_Flash_EraseChip dev m = (ARM_DRIVER_OK, m') /\
    forall x, m' x = if decide (memory_base dev <= x < memory_base dev + dev_bytes dev)
                     then erased_value (data dev) else m x.
Proof.
  intros Hok. pose proof dev_base. pose proof dev_count. pose proof dev_sector. pose proof dev_size.
  unfold ARM_Flash_EraseChip.
  pose proof (erase_chip_loop_spec (Z.to_nat (sector_count (data dev))) (memory_base dev)
    ARM_DRIVER_ERROR_UNSUPPORTED m) as L.
  destruct (erase_chip_loop _ _ _ _ _) as [rc m']. destruct L as [Hrc Hm]; [|done|].
  - intros k Hk. apply u32_small. nia.
  - exists m'. rewrite Hrc by lia. split; [done|]. intros x. rewrite Hm.
    unfold dev_bytes. by rewrite Z2Nat.id by lia.
Qed.
End driver_claims.

Lemma driver_argument_checks_witness :
  ARM_Flash_ReadData ARM_FLASH0_DEV_an521 0x3FFFFF 1 (fun _ => Byte.x00) =
    (ARM_DRIVER_ERROR_PARAMETER, []) /\
  ARM_Flash_EraseSector ARM_FLASH0_DEV_an521 0x400000 (fun _ => Byte.x00) =
    (ARM_DRIVER_ERROR_PARAMETER, fun _ => Byte.x00).
Proof.
  destruct (driver_argument_checks ARM_FLASH0_DEV_an521 0x3FFFFF 1 [] (fun _ => Byte.x00)) as (E & _ & _);
    [vm_compute; split; reflexivity|].
  destruct (driver_argument_checks ARM_FLASH0_DEV_an521 0x400000 1 [] (fun _ => Byte.x00)) as (_ & _ & E');
    [vm_compute; split; reflexivity|].
  rewrite E, E'. split; reflexivity.
Defined.

Lemma erase_chip_erases_all_witness :
  exists m', ARM_Flash_EraseChip ARM_FLASH0_DEV_an521 (fun _ => Byte.x00) = (ARM_DRIVER_OK, m') /\
    m' 0x10000000 = Byte.xff /\ m' 0x103FFFFF = Byte.xff /\ m' 0x10400000 = Byte.x00.
Proof.
  destruct (erase_chip_erases_all ARM_FLASH0_DEV_an521 (fun _ => Byte.x00) an521_ok) as (m' & E & Hm).
  exists m'. split; [done|]. rewrite !Hm. repeat split; reflexivity.
Defined.
