(* ===== verification/SstDefs.v ===== *)
(** * Secure storage: data structures and utilities

    [interface/include/psa_sst_api.h] (error codes), [sst_core.h] (the
    structures kept in flash and in the running context),
    [sst_object_defs.h] (sizes of objects) and [sst_utils.c].

    Structures that are copied to flash have an encoder and a decoder that
    follow the layout the Arm ABI gives them. *)

From S2P Require Import Prelude.

(** The non-zero values of [enum psa_sst_err_t]; [PSA_SST_ERR_SUCCESS] is the
    [Ok] outcome. *)
Inductive psa_sst_err_t :=
| PSA_SST_ERR_ASSET_NOT_PREPARED
| PSA_SST_ERR_ASSET_NOT_FOUND
| PSA_SST_ERR_PARAM_ERROR
| PSA_SST_ERR_STORAGE_SYSTEM_FULL
| PSA_SST_ERR_SYSTEM_ERROR.

#[global] Instance psa_sst_err_eq_dec : EqDecision psa_sst_err_t.
Proof. solve_decision. Defined.

(** ** Flash layout: the macros of [flash_layout.h] and [sst_flash.h] *)

Class sst_layout := {
  SST_FLASH_AREA_ADDR : Z;
  SST_BLOCK_SIZE : Z;
  SST_TOTAL_NUM_OF_BLOCKS : Z;
  SST_FLASH_PROGRAM_UNIT : Z;
}.

Definition SST_FLASH_DEFAULT_VAL : Z := 0xFF.
Definition SST_BLOCK_INVALID_ID : Z := 0xFFFFFFFF.

(** ** Assets: [assets/sst_asset_defs.h] *)

Definition SST_NUM_ASSETS : Z := 10.
Definition SST_MAX_ASSET_SIZE : Z := 256.

(** ** Structures of [sst_core.h] *)

Definition SST_SUPPORTED_VERSION : Z := 0x01.
Definition SST_METADATA_INVALID_INDEX : Z := 0xFFFF.
Definition SST_METADATA_BLOCK0 : Z := 0.
Definition SST_METADATA_BLOCK1 : Z := 1.
Definition SST_INVALID_UUID : Z := 0.

Definition SST_OTHER_META_BLOCK (metablock : Z) : Z :=
  if metablock =? SST_METADATA_BLOCK0 then SST_METADATA_BLOCK1 else SST_METADATA_BLOCK0.

Record sst_block_metadata := {
  phys_id : Z;
  data_start : Z;
  free_size : Z;
}.

Record sst_assetmeta := {
  lblock : Z;
  data_index : Z;
  cur_size : Z;
  max_size : Z;
  unique_id : Z;
}.

(** The crypto union is 16 bytes of tag and 12 bytes of IV; two bytes of
    padding follow [active_swap_count]. *)
Record sst_metadata_block_header := {
  crypto : list byte;
  scratch_idx : Z;
  fs_version : Z;
  active_swap_count : Z;
}.

Record sst_core_obj_info_t := {
  size_current : Z;
  size_max : Z;
}.

Record sst_asset_system_context := {
  meta_block_header : sst_metadata_block_header;
  active_metablock : Z;
  scratch_metablock : Z;
}.

Definition SIZEOF_block_metadata : Z := 12.
Definition SIZEOF_assetmeta : Z := 20.
Definition SIZEOF_crypto : Z := 28.
Definition SIZEOF_metadata_block_header : Z := 36.
Definition OFFSETOF_active_swap_count : Z := 33.

Definition encode_block_metadata (b : sst_block_metadata) : list byte :=
  put32 (phys_id b) ++ put32 (data_start b) ++ put32 (free_size b).

Definition decode_block_metadata (bs : list byte) : sst_block_metadata := {|
  phys_id := get32 (slice 0 4 bs);
  data_start := get32 (slice 4 4 bs);
  free_size := get32 (slice 8 4 bs) |}.

Definition encode_assetmeta (m : sst_assetmeta) : list byte :=
  put32 (lblock m) ++ put32 (data_index m) ++ put32 (cur_size m) ++
  put32 (max_size m) ++ put32 (unique_id m).

Definition decode_assetmeta (bs : list byte) : sst_assetmeta := {|
  lblock := get32 (slice 0 4 bs);
  data_index := get32 (slice 4 4 bs);
  cur_size := get32 (slice 8 4 bs);
  max_size := get32 (slice 12 4 bs);
  unique_id := get32 (slice 16 4 bs) |}.

(** The bytes of a header before [active_swap_count]. *)
Definition encode_header_prefix (h : sst_metadata_block_header) : list byte :=
  crypto h ++ put32 (scratch_idx h) ++ [z2b (fs_version h)].

Definition decode_header (bs : list byte) : sst_metadata_block_header := {|
  crypto := slice 0 28 bs;
  scratch_idx := get32 (slice 28 4 bs);
  fs_version := b2z (znth bs 32);
  active_swap_count := b2z (znth bs 33) |}.

(** ** Objects: [sst_object_defs.h]

    [struct sst_obj_header_t] without encryption: uuid, version, info (type,
    current size, maximum size), four bytes of padding, attributes (validity
    start and end, attribute bits, reserved bytes). *)
Definition SST_OBJECT_HEADER_SIZE : Z := 48.
Definition SST_MAX_OBJECT_SIZE : Z := SST_OBJECT_HEADER_SIZE + SST_MAX_ASSET_SIZE.
Definition PSA_SST_ASSET_INFO_SIZE : Z := 12.
Definition PSA_SST_ASSET_ATTR_SIZE : Z := 24.

(** ** [sst_utils.c] *)

(** The parameters are promoted to 64 bits before they are added. *)
Definition sst_utils_check_contained_in
  (superset_start superset_size subset_start subset_size : Z) : option psa_sst_err_t :=
  let tmp_superset_start := u64 superset_start in
  let tmp_superset_size := u64 superset_size in
  let tmp_subset_start := u64 subset_start in
  let tmp_subset_size := u64 subset_size in
  if (tmp_subset_start <? tmp_superset_start) ||
     (u64 (tmp_superset_start + tmp_superset_size) <?
      u64 (tmp_subset_start + tmp_subset_size))
  then Some PSA_SST_ERR_PARAM_ERROR
  else None.

Definition sst_utils_validate_uuid (uuid : Z) : option psa_sst_err_t :=
  if uuid =? SST_INVALID_UUID then Some PSA_SST_ERR_ASSET_NOT_FOUND else None.

(** The copy loop: [i] bytes left, [p_dst] and [p_src] as offsets into the two
    buffers; [None] when an access leaves its buffer. *)
Fixpoint memcpy_loop (i : nat) (dest : list byte) (p_dst : nat)
  (src : list byte) (p_src : nat) : option (list byte) :=
  match i with
  | O => Some dest
  | S i =>
      match src !! p_src with
      | Some b =>
          if decide (p_dst < length dest)%nat
          then memcpy_loop i (<[p_dst := b]> dest) (S p_dst) src (S p_src)
          else None
      | None => None
      end
  end.

(** [sst_utils_memcpy(dest + doff, src + soff, size)] *)
Definition sst_utils_memcpy (dest : list byte) (doff : Z) (src : list byte)
  (soff : Z) (size : Z) : option (list byte) :=
  memcpy_loop (Z.to_nat size) dest (Z.to_nat doff) src (Z.to_nat soff).

Fixpoint memset_loop (i : nat) (dest : list byte) (p_dst : nat) (pattern : byte)
  : option (list byte) :=
  match i with
  | O => Some dest
  | S i =>
      if decide (p_dst < length dest)%nat
      then memset_loop i (<[p_dst := pattern]> dest) (S p_dst) pattern
      else None
  end.

Definition sst_utils_memset (dest : list byte) (pattern : byte) (size : Z)
  : option (list byte) :=
  memset_loop (Z.to_nat size) dest 0 pattern.

(** ** Round trips of the flash structures *)

Definition is_u32 (x : Z) : Prop := 0 <= x < 2 ^ 32.

Definition block_metadata_u32 (b : sst_block_metadata) : Prop :=
  is_u32 (phys_id b) /\ is_u32 (data_start b) /\ is_u32 (free_size b).

Definition assetmeta_u32 (m : sst_assetmeta) : Prop :=
  is_u32 (lblock m) /\ is_u32 (data_index m) /\ is_u32 (cur_size m) /\
  is_u32 (max_size m) /\ is_u32 (unique_id m).

Lemma slice_app_skip {A} (l k : list A) off n :
  zlen l <= off -> slice off n (l ++ k) = slice (off - zlen l) n k.
Proof.
  intros. unfold slice, zdrop. rewrite drop_app_ge by lia.
  do 2 f_equal. lia.
Qed.

Lemma slice_app_head {A} (l k : list A) n :
  n = zlen l -> slice 0 n (l ++ k) = l.
Proof.
  intros ->. unfold slice, ztake, zdrop. rewrite Nat2Z.id. simpl.
  rewrite drop_0. apply take_app_length.
Qed.

Lemma slice_full {A} (l : list A) n : n = zlen l -> slice 0 n l = l.
Proof. intros ->. rewrite <- (app_nil_r l) at 2. by apply slice_app_head. Qed.

Lemma slice_split {A} (l : list A) off n k mid len :
  0 <= off -> 0 <= n -> 0 <= k -> mid = off + n -> len = n + k ->
  slice off n l ++ slice mid k l = slice off len l.
Proof.
  intros ??? -> ->. unfold slice, ztake, zdrop.
  rewrite !Z2Nat.inj_add by lia. by rewrite <- drop_drop, take_take_drop.
Qed.

Ltac slice_fields :=
  repeat (rewrite slice_app_skip by (rewrite ?length_put32; simpl; lia);
          rewrite ?length_put32);
  repeat first
    [ rewrite slice_app_head by (rewrite ?length_put32; reflexivity)
    | rewrite slice_full by (rewrite ?length_put32; reflexivity) ].

Lemma length_encode_block_metadata b : length (encode_block_metadata b) = 12%nat.
Proof. unfold encode_block_metadata. by rewrite !length_app, !length_put32. Qed.

Lemma length_encode_assetmeta m : length (encode_assetmeta m) = 20%nat.
Proof. unfold encode_assetmeta. by rewrite !length_app, !length_put32. Qed.

Lemma decode_encode_block_metadata b :
  block_metadata_u32 b -> decode_block_metadata (encode_block_metadata b) = b.
Proof.
  intros (H1 & H2 & H3). destruct b as [p d f]. simpl in *.
  unfold decode_block_metadata, encode_block_metadata. simpl.
  f_equal; slice_fields; by apply get_put32.
Qed.

Lemma decode_encode_assetmeta m :
  assetmeta_u32 m -> decode_assetmeta (encode_assetmeta m) = m.
Proof.
  intros (H1 & H2 & H3 & H4 & H5). destruct m as [l d c x u]. simpl in *.
  unfold decode_assetmeta, encode_assetmeta. simpl.
  f_equal; slice_fields; by apply get_put32.
Qed.

Lemma zlen_slice_4 (bs : list byte) off :
  0 <= off -> off + 4 <= zlen bs -> length (slice off 4 bs) = 4%nat.
Proof. intros. pose proof (zlen_slice off 4 bs). lia. Qed.

Lemma encode_decode_assetmeta bs :
  length bs = 20%nat -> encode_assetmeta (decode_assetmeta bs) = bs.
Proof.
  intros H. unfold encode_assetmeta, decode_assetmeta. simpl.
  rewrite !put_get32 by (apply zlen_slice_4; lia).
  rewrite (slice_split bs 12 4 4 16 8), (slice_split bs 8 4 8 12 12),
    (slice_split bs 4 4 12 8 16), (slice_split bs 0 4 16 4 20) by lia.
  apply slice_full. lia.
Qed.

Lemma decode_assetmeta_u32 bs :
  length bs = 20%nat -> assetmeta_u32 (decode_assetmeta bs).
Proof.
  intros H. unfold assetmeta_u32, decode_assetmeta, is_u32; simpl.
  split_and!; apply get32_bound; apply zlen_slice_4; lia.
Qed.

Lemma decode_block_metadata_u32 bs :
  length bs = 12%nat -> block_metadata_u32 (decode_block_metadata bs).
Proof.
  intros H. unfold block_metadata_u32, decode_block_metadata, is_u32; simpl.
  split_and!; apply get32_bound; apply zlen_slice_4; lia.
Qed.

(** ** The utilities *)

(** The promotion to 64 bits makes the containment test exact for every
    combination of 32-bit arguments. *)
Lemma sst_utils_check_contained_in_spec a n b k :
  is_u32 a -> is_u32 n -> is_u32 b -> is_u32 k ->
  sst_utils_check_contained_in a n b k =
    if decide (a <= b /\ b + k <= a + n) then None else Some PSA_SST_ERR_PARAM_ERROR.
Proof.
  unfold is_u32, sst_utils_check_contained_in, u64. intros.
  rewrite (Z.mod_small a), (Z.mod_small n), (Z.mod_small b), (Z.mod_small k) by lia.
  rewrite !Z.mod_small by lia.
  destruct (Z.ltb_spec b a), (Z.ltb_spec (a + n) (b + k)); simpl;
    case_decide; done || lia.
Qed.

Lemma memcpy_loop_spec i dest p_dst src p_src :
  (p_dst + i <= length dest)%nat -> (p_src + i <= length src)%nat ->
  memcpy_loop i dest p_dst src p_src =
    Some (take p_dst dest ++ take i (drop p_src src) ++ drop (p_dst + i) dest).
Proof.
  revert dest p_dst p_src. induction i as [|i IH]; intros dest p_dst p_src Hd Hs; simpl.
  - by rewrite Nat.add_0_r, take_drop.
  - destruct (lookup_lt_is_Some_2 src p_src) as [b Hb]; [lia|]. rewrite Hb.
    rewrite decide_True by lia. rewrite IH by (rewrite ?length_insert; lia). f_equal.
    rewrite (take_S_r _ _ b) by (apply list_lookup_insert_eq; lia).
    rewrite take_insert_ge by lia. rewrite drop_insert_lt by lia.
    rewrite (drop_S src b p_src Hb). rewrite <- app_assoc. simpl.
    by replace (p_dst + S i)%nat with (S (p_dst + i)) by lia.
Qed.

Lemma sst_utils_memcpy_spec dest doff src soff size :
  0 <= doff -> 0 <= soff -> 0 <= size ->
  doff + size <= zlen dest -> soff + size <= zlen src ->
  sst_utils_memcpy dest doff src soff size = Some (splice doff (slice soff size src) dest).
Proof.
  intros. unfold sst_utils_memcpy. rewrite memcpy_loop_spec by lia.
  unfold splice. rewrite zlen_slice by lia. unfold ztake, slice, zdrop, ztake.
  by rewrite Z2Nat.inj_add by lia.
Qed.

Lemma memcpy_loop_overflow i dest p_dst src p_src :
  (length dest < p_dst + i)%nat -> (0 < i)%nat -> memcpy_loop i dest p_dst src p_src = None.
Proof.
  revert dest p_dst p_src. induction i as [|i IH]; intros dest p_dst p_src Hd Hi; [lia|].
  simpl. destruct (src !! p_src); [|done]. case_decide; [|done].
  apply IH; rewrite ?length_insert; lia.
Qed.

(** A copy that would run past the destination is flagged. *)
Lemma sst_utils_memcpy_overflow dest doff src soff size :
  0 <= doff -> 0 < size -> zlen dest < doff + size ->
  sst_utils_memcpy dest doff src soff size = None.
Proof. intros. apply memcpy_loop_overflow; lia. Qed.

Lemma memset_loop_spec i dest p v :
  (p + i <= length dest)%nat ->
  memset_loop i dest p v = Some (take p dest ++ replicate i v ++ drop (p + i) dest).
Proof.
  revert dest p. induction i as [|i IH]; intros dest p H; simpl.
  - by rewrite Nat.add_0_r, take_drop.
  - rewrite decide_True by lia. rewrite IH by (rewrite length_insert; lia). f_equal.
    rewrite (take_S_r _ _ v) by (apply list_lookup_insert_eq; lia).
    rewrite take_insert_ge by lia. rewrite drop_insert_lt by lia.
    rewrite <- app_assoc. simpl. by replace (p + S i)%nat with (S (p + i)) by lia.
Qed.

Lemma sst_utils_memset_spec dest v size :
  0 <= size <= zlen dest ->
  sst_utils_memset dest v size =
    Some (replicate (Z.to_nat size) v ++ zdrop size dest).
Proof. intros. unfold sst_utils_memset. by rewrite memset_loop_spec by lia. Qed.

(** ** Properties of the data structures and utilities *)

(** The flash image of an object's metadata entry is faithful in both
    directions: decoding what was encoded gives the entry back, and encoding
    what was decoded gives the same twenty bytes. *)
Theorem assetmeta_roundtrip m bs :
  (assetmeta_u32 m -> decode_assetmeta (encode_assetmeta m) = m) /\
  (length bs = 20%nat -> encode_assetmeta (decode_assetmeta bs) = bs).
Proof. split; [apply decode_encode_assetmeta|apply encode_decode_assetmeta]. Qed.

Lemma assetmeta_roundtrip_witness :
  let m := {| lblock := 1; data_index := 272; cur_size := 7; max_size := 304;
              unique_id := 0xFFFFFFFF |} in
  decode_assetmeta (encode_assetmeta m) = m /\
  encode_assetmeta (decode_assetmeta (replicate 20 Byte.xff)) = replicate 20 Byte.xff.
Proof.
  split; [|apply (assetmeta_roundtrip {| lblock := 0; data_index := 0; cur_size := 0; max_size := 0;
                                         unique_id := 0 |}); reflexivity].
  apply (assetmeta_roundtrip _ []). repeat split; vm_compute; discriminate || reflexivity.
Defined.

(** The containment check is exact for all 32-bit arguments, also where the
    32-bit sums would wrap around. *)
Theorem check_contained_in_exact a n b k :
  is_u32 a -> is_u32 n -> is_u32 b -> is_u32 k ->
  sst_utils_check_contained_in a n b k = None <-> a <= b /\ b + k <= a + n.
Proof. intros. rewrite sst_utils_check_contained_in_spec by done. case_decide; naive_solver. Qed.

Lemma check_contained_in_exact_witness :
  sst_utils_check_contained_in 0 256 0xFFFFFFFF 2 <> None /\
  sst_utils_check_contained_in 0 256 255 1 = None.
Proof.
  split.
  - intros E. apply check_contained_in_exact in E; [lia|split; vm_compute; discriminate || reflexivity..].
  - apply check_contained_in_exact; [split; vm_compute; discriminate || reflexivity..|lia].
Defined.

(** The copy loop copies exactly [size] bytes to the right place when both
    ranges are inside their buffers, and runs outside the destination when it
    is too small. *)
Theorem sst_utils_memcpy_copies dest doff src soff size :
  0 <= doff -> 0 <= soff -> 0 < size -> soff + size <= zlen src ->
  sst_utils_memcpy dest doff src soff size =
    if decide (doff + size <= zlen dest) then Some (splice doff (slice soff size src) dest)
    else None.
Proof.
  intros. case_decide; [by apply sst_utils_memcpy_spec; lia|by apply sst_utils_memcpy_overflow; lia].
Qed.

Lemma sst_utils_memcpy_copies_witness :
  sst_utils_memcpy [Byte.x00; Byte.x00] 1 [Byte.x01; Byte.x02] 1 1 = Some [Byte.x00; Byte.x02] /\
  sst_utils_memcpy [Byte.x00; Byte.x00] 1 [Byte.x01; Byte.x02] 0 2 = None.
Proof.
  split; (rewrite sst_utils_memcpy_copies; [reflexivity|done|done|done|done]).
Defined.
