(* ===== verification/SstFlash.v ===== *)
(** * Secure storage: access to flash blocks

    [flash/sst_flash.c] over the [ARM_DRIVER_FLASH] interface, the state of the
    storage core, and the view of the device as an array of blocks that the
    later files reason with. *)

From S2P Require Import Prelude FlashDriver SstDefs.

(** The flash device and the file-scope [sst_system_ctx] of [sst_core.c]. *)
Record sst_state (D : Type) := SstState {
  sst_dev : D;
  sst_system_ctx : sst_asset_system_context;
}.
Arguments SstState {D} sst_dev sst_system_ctx.
Arguments sst_dev {D} s.
Arguments sst_system_ctx {D} s.

Definition with_dev {D} (s : sst_state D) (d : D) : sst_state D :=
  SstState d (sst_system_ctx s).
Definition with_ctx {D} (s : sst_state D) (c : sst_asset_system_context) : sst_state D :=
  SstState (sst_dev s) c.

Definition BLOCK_START_OFFSET : Z := 0.

Section sst_flash.
  Context {D : Type} `{!ARM_DRIVER_FLASH D, !sst_layout}.

Definition SM (A : Type) : Type := M (sst_state D) psa_sst_err_t A.

Definition get_phys_address (block_id offset : Z) : Z :=
  u32 (SST_FLASH_AREA_ADDR + block_id * SST_BLOCK_SIZE + offset).

Definition flash_read (flash_addr size : Z) : SM (list byte) := fun s =>
  let '(err, bs) := ReadData flash_addr size (sst_dev s) in
  if negb (err =? ARM_DRIVER_OK) then (Err PSA_SST_ERR_SYSTEM_ERROR, s)
  else (Ok bs, s).

Definition flash_write (flash_addr : Z) (buff : list byte) : SM unit := fun s =>
  let '(err, d) := ProgramData flash_addr buff (sst_dev s) in
  if negb (err =? ARM_DRIVER_OK) then (Err PSA_SST_ERR_SYSTEM_ERROR, with_dev s d)
  else (Ok tt, with_dev s d).

Definition flash_erase (flash_addr : Z) : SM unit := fun s =>
  let '(err, d) := EraseSector flash_addr (sst_dev s) in
  if negb (err =? ARM_DRIVER_OK) then (Err PSA_SST_ERR_SYSTEM_ERROR, with_dev s d)
  else (Ok tt, with_dev s d).

Definition sst_flash_read (block_id offset size : Z) : SM (list byte) :=
  let flash_addr := get_phys_address block_id offset in
  flash_read flash_addr size.

(** [size] is the length of [buff]. *)
Definition sst_flash_write (block_id : Z) (buff : list byte) (offset : Z) : SM unit :=
  let flash_addr := get_phys_address block_id offset in
  flash_write flash_addr buff.

(** The data passes through the static buffer [dst_block_data_copy] of
    [SST_BLOCK_SIZE] bytes. *)
Definition sst_flash_block_to_block_move (dst_block dst_offset src_block src_offset
  size : Z) : SM unit :=
  let src_flash_addr := get_phys_address src_block src_offset in
  dst_block_data_copy <- flash_read src_flash_addr size ;;
  in_bounds (size <=? SST_BLOCK_SIZE) ;;
  let dst_flash_addr := get_phys_address dst_block dst_offset in
  flash_write dst_flash_addr dst_block_data_copy.

Definition sst_flash_erase_block (block_id : Z) : SM unit :=
  let flash_addr := get_phys_address block_id BLOCK_START_OFFSET in
  flash_erase flash_addr.
End sst_flash.

(** ** The block view of the device *)

(** The storage area lies inside the device on sector boundaries, one sector
    per block, and the number of blocks is one [sst_core.c] accepts. *)
Class sst_area_ok (D : Type) `{!ARM_DRIVER_FLASH D, !FlashDevice D, !sst_layout} : Prop := {
  area_addr : 0 <= SST_FLASH_AREA_ADDR;
  area_block : SST_BLOCK_SIZE = flash_sector (D := D);
  area_aligned : SST_FLASH_AREA_ADDR mod SST_BLOCK_SIZE = 0;
  area_fits : SST_FLASH_AREA_ADDR + SST_TOTAL_NUM_OF_BLOCKS * SST_BLOCK_SIZE
              <= flash_limit (D := D);
  area_blocks : SST_TOTAL_NUM_OF_BLOCKS = 2 \/ 4 <= SST_TOTAL_NUM_OF_BLOCKS;
  area_unit : SST_FLASH_PROGRAM_UNIT = 1 \/ SST_FLASH_PROGRAM_UNIT = 2 \/
              SST_FLASH_PROGRAM_UNIT = 4;
}.

(** The content of the storage area: block number, offset, byte. *)
Abbreviation blocks := (Z -> Z -> byte).

Definition vread (V : blocks) (b off n : Z) : list byte := mread (V b) off n.

Definition vwrite (V : blocks) (b off : Z) (bs : list byte) : blocks := fun b' =>
  if b' =? b then mwrite (V b) off bs else V b'.

Definition verase (V : blocks) (b : Z) : blocks := fun b' =>
  if b' =? b then fun _ => Byte.xff else V b'.

Section view.
  Context {D : Type} `{!ARM_DRIVER_FLASH D, !FlashDevice D, !sst_layout, !sst_area_ok D}.
  Implicit Types (s : sst_state D) (V : blocks).

Definition valid_block (b : Z) : Prop := 0 <= b < SST_TOTAL_NUM_OF_BLOCKS.

(** The device is powered and its storage area holds [V]. *)
Definition DRep (d : D) V : Prop :=
  flash_live d /\
  forall b o, valid_block b -> 0 <= o < SST_BLOCK_SIZE ->
    flash_byte d (SST_FLASH_AREA_ADDR + b * SST_BLOCK_SIZE + o) = V b o.

Definition Rep s V : Prop := DRep (sst_dev s) V.

Lemma block_size_pos : 0 < SST_BLOCK_SIZE.
Proof using All. rewrite area_block. apply flash_sector_pos. Qed.

Lemma block_size_u32 : SST_BLOCK_SIZE < 2 ^ 32.
Proof using All.
  pose proof block_size_pos. pose proof area_fits. pose proof area_addr.
  pose proof flash_limit_range. destruct area_blocks; nia.
Qed.

Lemma phys_range b off n :
  valid_block b -> 0 <= off -> 0 <= n -> off + n <= SST_BLOCK_SIZE ->
  0 <= SST_FLASH_AREA_ADDR + b * SST_BLOCK_SIZE + off /\
  SST_FLASH_AREA_ADDR + b * SST_BLOCK_SIZE + off + n <= flash_limit (D := D).
Proof using All.
  unfold valid_block. intros. pose proof area_addr. pose proof area_fits.
  pose proof block_size_pos. nia.
Qed.

Lemma get_phys_address_spec b off :
  valid_block b -> 0 <= off <= SST_BLOCK_SIZE ->
  get_phys_address b off = SST_FLASH_AREA_ADDR + b * SST_BLOCK_SIZE + off.
Proof using All.
  intros. unfold get_phys_address. apply u32_small.
  destruct (phys_range b off 0) as [P1 P2]; [done|lia..|].
  pose proof (flash_limit_range (D := D)). lia.
Qed.

(** Two places of the area share an address only if they are the same. *)
Lemma phys_disjoint b b' o o' :
  b <> b' -> 0 <= o < SST_BLOCK_SIZE -> 0 <= o' < SST_BLOCK_SIZE ->
  b * SST_BLOCK_SIZE + o <> b' * SST_BLOCK_SIZE + o'.
Proof using All. intros. pose proof block_size_pos. nia. Qed.

Lemma area_block_aligned b : (SST_FLASH_AREA_ADDR + b * SST_BLOCK_SIZE + 0) mod SST_BLOCK_SIZE = 0.
Proof using All.
  pose proof block_size_pos. rewrite Z.add_0_r, Z.mod_add by lia. apply area_aligned.
Qed.

Lemma sst_flash_read_ok s V b off n :
  Rep s V -> valid_block b -> 0 <= off -> 0 <= n -> off + n <= SST_BLOCK_SIZE ->
  sst_flash_read b off n s = (Ok (vread V b off n), s).
Proof using All.
  intros [Hl HV] Hb Ho Hn Hr. unfold sst_flash_read, flash_read.
  rewrite get_phys_address_spec by (done || lia).
  pose proof (phys_range b off n Hb Ho Hn Hr) as [P1 P2].
  pose proof (ReadData_live (sst_dev s) _ n P1 Hn P2 Hl) as E.
  destruct (ReadData _ n (sst_dev s)) as [rc bs] eqn:R. simpl in E. subst rc. simpl.
  do 2 f_equal. rewrite (ReadData_spec _ _ _ _ P1 Hn P2 R).
  apply mread_ext. intros i Hi. rewrite <- HV by (done || lia). f_equal. lia.
Qed.

Lemma Rep_vwrite s V d b off bs :
  Rep s V -> valid_block b -> 0 <= off -> off + zlen bs <= SST_BLOCK_SIZE ->
  flash_live d ->
  (forall x, 0 <= x < flash_limit (D := D) ->
    flash_byte d x =
      mwrite (flash_byte (sst_dev s)) (SST_FLASH_AREA_ADDR + b * SST_BLOCK_SIZE + off) bs x) ->
  Rep (with_dev s d) (vwrite V b off bs).
Proof using All.
  intros [_ HV] Hb Ho Hr Hl Hd. split; [done|]. simpl. intros b' o' Hb' Ho'.
  destruct (phys_range b' o' 1 Hb') as [P1 P2]; [lia..|]. rewrite Hd by lia.
  unfold vwrite.
  destruct (Z.eqb_spec b' b) as [->|Hne].
  - rewrite !mwrite_spec. repeat case_decide; try lia; [f_equal; lia|by apply HV].
  - rewrite mwrite_spec, decide_False; [by apply HV|].
    intros [C1 C2].
    set (k := b' * SST_BLOCK_SIZE + o' - (b * SST_BLOCK_SIZE + off)).
    apply (phys_disjoint b' b o' (off + k)); [done|done|lia|lia].
Qed.

Lemma sst_flash_write_ok s V b off bs :
  Rep s V -> valid_block b -> 0 <= off -> off + zlen bs <= SST_BLOCK_SIZE ->
  exists d, sst_flash_write b bs off s = (Ok tt, with_dev s d) /\
            Rep (with_dev s d) (vwrite V b off bs).
Proof using All.
  intros HR Hb Ho Hr. unfold sst_flash_write, flash_write.
  rewrite get_phys_address_spec by (done || lia).
  destruct (phys_range b off (zlen bs) Hb Ho ltac:(lia) Hr) as [P1 P2].
  pose proof (ProgramData_live (sst_dev s) _ bs P1 P2 (proj1 HR)) as [E L].
  pose proof (ProgramData_spec (sst_dev s) _ bs P1 P2) as Sp.
  destruct (ProgramData _ bs (sst_dev s)) as [rc d]. simpl in *. subst rc.
  exists d. split; [done|]. destruct Sp as [[_ Hd]|[? _]]; [|done].
  by apply (Rep_vwrite s V d b off bs).
Qed.

Lemma sst_flash_erase_block_ok s V b :
  Rep s V -> valid_block b ->
  exists d, sst_flash_erase_block b s = (Ok tt, with_dev s d) /\
            Rep (with_dev s d) (verase V b).
Proof using All.
  intros [Hl HV] Hb. pose proof block_size_pos as Hp.
  unfold sst_flash_erase_block, flash_erase, BLOCK_START_OFFSET.
  rewrite get_phys_address_spec by (done || lia).
  destruct (phys_range b 0 SST_BLOCK_SIZE Hb) as [P1 P2]; [lia..|].
  pose proof (area_block_aligned b) as A. rewrite area_block in P2 at 2.
  rewrite area_block in A at 2.
  pose proof (EraseSector_live (sst_dev s) _ P1 P2 A Hl) as [E L].
  pose proof (EraseSector_spec (sst_dev s) _ P1 P2 A) as Sp.
  destruct (EraseSector _ (sst_dev s)) as [rc d]. simpl in *. subst rc.
  exists d. split; [done|]. destruct Sp as [[_ Hd]|[? _]]; [|done].
  split; [done|]. simpl. intros b' o' Hb' Ho'.
  destruct (phys_range b' o' 1 Hb') as [Q1 Q2]; [lia..|]. rewrite Hd by lia. rewrite <- area_block. unfold verase.
  rewrite mset_spec. destruct (Z.eqb_spec b' b) as [->|Hne].
  - by rewrite decide_True by lia.
  - rewrite decide_False; [by apply HV|]. intros [C1 C2].
    set (k := b' * SST_BLOCK_SIZE + o' - b * SST_BLOCK_SIZE).
    apply (phys_disjoint b' b o' k); [done|done|lia|lia].
Qed.

(** A move reads the source range and programs it at the destination. *)
Lemma sst_flash_block_to_block_move_ok s V db doff sb soff n :
  Rep s V -> valid_block db -> valid_block sb -> 0 <= doff -> 0 <= soff -> 0 <= n ->
  doff + n <= SST_BLOCK_SIZE -> soff + n <= SST_BLOCK_SIZE ->
  exists d, sst_flash_block_to_block_move db doff sb soff n s = (Ok tt, with_dev s d) /\
            Rep (with_dev s d) (vwrite V db doff (vread V sb soff n)).
Proof using All.
  intros HR Hdb Hsb Hd Hs Hn Hdn Hsn. unfold sst_flash_block_to_block_move.
  rewrite (bind_Ok _ _ _ _ _ (sst_flash_read_ok s V sb soff n HR Hsb Hs Hn Hsn)).
  rewrite (bind_Ok (in_bounds _) _ s tt s).
  - apply (sst_flash_write_ok s V db doff (vread V sb soff n) HR Hdb Hd).
    unfold vread. rewrite zlen_mread; lia.
  - unfold in_bounds. by rewrite (proj2 (Z.leb_le _ _)) by lia.
Qed.
End view.

(** ** Flash operations as successful runs *)

Section view_runs.
  Context {D : Type} `{!ARM_DRIVER_FLASH D, !FlashDevice D, !sst_layout, !sst_area_ok D}.
  Implicit Types (d : D) (c : sst_asset_system_context) (V : blocks).

Lemma DRep_ext d V V' :
  DRep d V ->
  (forall b o, valid_block b -> 0 <= o < SST_BLOCK_SIZE -> V b o = V' b o) -> DRep d V'.
Proof using Type. intros [HL HV] Hext. split; [done|]. intros. rewrite <- Hext by done. auto. Qed.

Lemma runs_flash_read d c V b off n Q :
  DRep d V -> valid_block b -> 0 <= off -> 0 <= n -> off + n <= SST_BLOCK_SIZE ->
  Q (vread V b off n) (SstState d c) ->
  runs (sst_flash_read b off n) (SstState d c) Q.
Proof using All.
  intros HR Hb Ho Hn Hr HQ.
  apply (runs_val _ _ _ _ (sst_flash_read_ok (SstState d c) V b off n HR Hb Ho Hn Hr) HQ).
Qed.

Lemma runs_flash_write d c V b off bs Q :
  DRep d V -> valid_block b -> 0 <= off -> off + zlen bs <= SST_BLOCK_SIZE ->
  (forall d', DRep d' (vwrite V b off bs) -> Q tt (SstState d' c)) ->
  runs (sst_flash_write b bs off) (SstState d c) Q.
Proof using All.
  intros HR Hb Ho Hr HQ.
  destruct (sst_flash_write_ok (SstState d c) V b off bs HR Hb Ho Hr) as (d' & E & HR').
  exists tt, (SstState d' c). split; [done|]. by apply HQ.
Qed.

Lemma runs_flash_erase d c V b Q :
  DRep d V -> valid_block b ->
  (forall d', DRep d' (verase V b) -> Q tt (SstState d' c)) ->
  runs (sst_flash_erase_block b) (SstState d c) Q.
Proof using All.
  intros HR Hb HQ.
  destruct (sst_flash_erase_block_ok (SstState d c) V b HR Hb) as (d' & E & HR').
  exists tt, (SstState d' c). split; [done|]. by apply HQ.
Qed.

Lemma runs_flash_move d c V db doff sb soff n Q :
  DRep d V -> valid_block db -> valid_block sb -> 0 <= doff -> 0 <= soff -> 0 <= n ->
  doff + n <= SST_BLOCK_SIZE -> soff + n <= SST_BLOCK_SIZE ->
  (forall d', DRep d' (vwrite V db doff (vread V sb soff n)) -> Q tt (SstState d' c)) ->
  runs (sst_flash_block_to_block_move db doff sb soff n) (SstState d c) Q.
Proof using All.
  intros HR Hdb Hsb Hd Hs Hn H1 H2 HQ.
  destruct (sst_flash_block_to_block_move_ok (SstState d c) V db doff sb soff n
              HR Hdb Hsb Hd Hs Hn H1 H2) as (d' & E & HR').
  exists tt, (SstState d' c). split; [done|]. by apply HQ.
Qed.
End view_runs.

(** ** Reading a view back *)

Lemma vwrite_spec V b off bs b' o :
  vwrite V b off bs b' o =
    if decide (b' = b /\ off <= o < off + zlen bs) then znth bs (o - off) else V b' o.
Proof.
  unfold vwrite. destruct (Z.eqb_spec b' b) as [->|?].
  - rewrite mwrite_spec. repeat case_decide; tauto || lia.
  - by rewrite decide_False by tauto.
Qed.

Lemma verase_spec V b b' o :
  verase V b b' o = if decide (b' = b) then Byte.xff else V b' o.
Proof. unfold verase. destruct (Z.eqb_spec b' b); by case_decide. Qed.

Lemma vread_ext V V' b b' off off' n :
  (forall i, 0 <= i < n -> V b (off + i) = V' b' (off' + i)) ->
  vread V b off n = vread V' b' off' n.
Proof. apply mread_ext. Qed.

Lemma zlen_vread V b off n : 0 <= n -> zlen (vread V b off n) = n.
Proof. apply zlen_mread. Qed.

Lemma znth_vread V b off n i : 0 <= i < n -> znth (vread V b off n) i = V b (off + i).
Proof. apply znth_mread. Qed.

Lemma vread_vwrite_eq V b off bs n :
  n = zlen bs -> vread (vwrite V b off bs) b off n = bs.
Proof.
  intros ->. unfold vread, vwrite. rewrite Z.eqb_refl. apply mread_mwrite_eq.
Qed.
