(* ===== verification/SstCore.v ===== *)
(** * Secure storage core

    [secure_fw/services/secure_storage/sst_core.c], in the configuration the
    build selects: [SST_ENCRYPTION] off, [SST_VALIDATE_METADATA_FROM_FLASH] and
    [SST_ENABLE_PARTIAL_ASSET_RW] on.  Each C function is one definition with
    its name; its output parameters are the value it returns on success. *)

From S2P Require Import Prelude FlashDriver SstDefs SstFlash.

Definition SST_LOGICAL_DBLOCK0 : Z := 0.
Definition SST_DEFAULT_EMPTY_BUFF_VAL : byte := Byte.x00.
Definition SST_OBJECT_START_POSITION : Z := 0.

(** Field updates of the structures. *)
Definition set_phys_id (p : Z) (b : sst_block_metadata) : sst_block_metadata :=
  {| phys_id := p; data_start := data_start b; free_size := free_size b |}.
Definition set_free_size (f : Z) (b : sst_block_metadata) : sst_block_metadata :=
  {| phys_id := phys_id b; data_start := data_start b; free_size := f |}.
Definition set_cur_size (c : Z) (m : sst_assetmeta) : sst_assetmeta :=
  {| lblock := lblock m; data_index := data_index m; cur_size := c;
     max_size := max_size m; unique_id := unique_id m |}.
Definition set_data_index (d : Z) (m : sst_assetmeta) : sst_assetmeta :=
  {| lblock := lblock m; data_index := d; cur_size := cur_size m;
     max_size := max_size m; unique_id := unique_id m |}.
Definition set_swap_count (n : Z) (h : sst_metadata_block_header) : sst_metadata_block_header :=
  {| crypto := crypto h; scratch_idx := scratch_idx h; fs_version := fs_version h;
     active_swap_count := n |}.
Definition set_scratch_idx (n : Z) (h : sst_metadata_block_header) : sst_metadata_block_header :=
  {| crypto := crypto h; scratch_idx := n; fs_version := fs_version h;
     active_swap_count := active_swap_count h |}.
Definition set_header (h : sst_metadata_block_header) (c : sst_asset_system_context)
  : sst_asset_system_context :=
  {| meta_block_header := h; active_metablock := active_metablock c;
     scratch_metablock := scratch_metablock c |}.
Definition set_metablocks (active scratch : Z) (c : sst_asset_system_context)
  : sst_asset_system_context :=
  {| meta_block_header := meta_block_header c; active_metablock := active;
     scratch_metablock := scratch |}.

Section sst_core.
  Context {D : Type} `{!ARM_DRIVER_FLASH D, !sst_layout}.
  Local Abbreviation SM := (@SM D).

(** ** Compile-time layout *)

Definition SST_INIT_SCRATCH_DBLOCK : Z := if SST_TOTAL_NUM_OF_BLOCKS =? 2 then 1 else 2.
Definition SST_INIT_DBLOCK_START : Z := if SST_TOTAL_NUM_OF_BLOCKS =? 2 then 0 else 3.
Definition SST_NUM_DEDICATED_DBLOCKS : Z :=
  if SST_TOTAL_NUM_OF_BLOCKS =? 2 then 0
  else SST_TOTAL_NUM_OF_BLOCKS - SST_INIT_DBLOCK_START.
Definition SST_NUM_ACTIVE_DBLOCKS : Z := SST_NUM_DEDICATED_DBLOCKS + 1.

Definition SST_ALIGNED_MAX_OBJECT_SIZE : Z :=
  (SST_FLASH_PROGRAM_UNIT - (SST_MAX_OBJECT_SIZE mod SST_FLASH_PROGRAM_UNIT))
  + SST_MAX_OBJECT_SIZE.

Definition SST_ALL_METADATA_SIZE : Z :=
  SIZEOF_metadata_block_header + SST_NUM_ACTIVE_DBLOCKS * SIZEOF_block_metadata
  + SST_NUM_ASSETS * SIZEOF_assetmeta.

(** The [SST_UTILS_BOUND_CHECK] assertions that stop the build. *)
Class sst_build_ok : Prop := {
  largest_object_fits : SST_ALIGNED_MAX_OBJECT_SIZE <= SST_BLOCK_SIZE;
  object_fits_data_area :
    SST_TOTAL_NUM_OF_BLOCKS = 2 ->
    SST_ALIGNED_MAX_OBJECT_SIZE <= SST_BLOCK_SIZE - SST_ALL_METADATA_SIZE;
  metadata_fits : SST_ALL_METADATA_SIZE <= SST_BLOCK_SIZE;
}.

(** ** Helpers on offsets and the running context *)

Definition sst_get_aligned_flash_bytes (nbr_bytes : Z) : Z :=
  let align_flash_size := nbr_bytes mod SST_FLASH_PROGRAM_UNIT in
  let align_flash_size :=
    if negb (align_flash_size =? 0) then SST_FLASH_PROGRAM_UNIT - align_flash_size
    else align_flash_size in
  u32 (align_flash_size + nbr_bytes).

Definition sst_meta_block_meta_offset (idx : Z) : Z :=
  u32 (SIZEOF_metadata_block_header + idx * SIZEOF_block_metadata).

Definition sst_meta_object_meta_offset (object_index : Z) : Z :=
  u32 (SIZEOF_metadata_block_header + SST_NUM_ACTIVE_DBLOCKS * SIZEOF_block_metadata
       + object_index * SIZEOF_assetmeta).

Definition sst_meta_cur_meta_scratch : SM Z :=
  gets (fun s => scratch_metablock (sst_system_ctx s)).

Definition sst_meta_cur_meta_active : SM Z :=
  gets (fun s => active_metablock (sst_system_ctx s)).

Definition sst_meta_swap_metablocks : SM unit :=
  modify (fun s => with_ctx s
    (set_metablocks (scratch_metablock (sst_system_ctx s))
                    (active_metablock (sst_system_ctx s)) (sst_system_ctx s))).

Definition sst_meta_cur_data_scratch (lblock : Z) : SM Z :=
  if lblock =? SST_LOGICAL_DBLOCK0 then sst_meta_cur_meta_scratch
  else gets (fun s => scratch_idx (meta_block_header (sst_system_ctx s))).

Definition sst_meta_set_data_scratch (index lblock : Z) : SM unit :=
  if negb (lblock =? SST_LOGICAL_DBLOCK0)
  then modify (fun s => with_ctx s
         (set_header (set_scratch_idx index (meta_block_header (sst_system_ctx s)))
                     (sst_system_ctx s)))
  else ret tt.

Definition sst_meta_latest_meta_block (meta0 meta1 : sst_metadata_block_header) : Z :=
  let meta0_swap_count := active_swap_count meta0 in
  let meta1_swap_count := active_swap_count meta1 in
  if (meta1_swap_count =? 0) && negb (meta0_swap_count =? 1) then SST_METADATA_BLOCK1
  else if (meta0_swap_count =? 0) && negb (meta1_swap_count =? 1) then SST_METADATA_BLOCK0
  else if meta0_swap_count <? meta1_swap_count then SST_METADATA_BLOCK1
  else SST_METADATA_BLOCK0.

(** ** Reading and validating metadata *)

Definition sst_meta_validate_block_meta (block_meta : sst_block_metadata)
  : option psa_sst_err_t :=
  if SST_TOTAL_NUM_OF_BLOCKS <=? phys_id block_meta then Some PSA_SST_ERR_SYSTEM_ERROR
  else match sst_utils_check_contained_in 0 SST_BLOCK_SIZE (data_start block_meta)
               (free_size block_meta) with
  | Some _ => Some PSA_SST_ERR_ASSET_NOT_FOUND
  | None =>
      let valid_data_start_value :=
        if (phys_id block_meta =? SST_METADATA_BLOCK0) ||
           (phys_id block_meta =? SST_METADATA_BLOCK1)
        then sst_meta_object_meta_offset SST_NUM_ASSETS else 0 in
      if negb (data_start block_meta =? valid_data_start_value)
      then Some PSA_SST_ERR_ASSET_NOT_FOUND else None
  end.

Definition sst_meta_read_block_metadata (lblock : Z) : SM sst_block_metadata :=
  metablock <- sst_meta_cur_meta_active ;;
  let pos := sst_meta_block_meta_offset lblock in
  bs <- sst_flash_read metablock pos SIZEOF_block_metadata ;;
  let block_meta := decode_block_metadata bs in
  match sst_meta_validate_block_meta block_meta with
  | Some err => fail err
  | None => ret block_meta
  end.

Definition sst_meta_validate_object_meta (meta : sst_assetmeta) : option psa_sst_err_t :=
  if SST_NUM_ACTIVE_DBLOCKS <=? lblock meta then Some PSA_SST_ERR_ASSET_NOT_FOUND
  else match sst_utils_validate_uuid (unique_id meta) with
  | Some _ => None
  | None =>
      if SST_MAX_OBJECT_SIZE <? max_size meta then Some PSA_SST_ERR_ASSET_NOT_FOUND
      else if max_size meta <? cur_size meta then Some PSA_SST_ERR_ASSET_NOT_FOUND
      else if (lblock meta =? SST_LOGICAL_DBLOCK0) &&
              (data_index meta <? sst_meta_object_meta_offset SST_NUM_ASSETS)
      then Some PSA_SST_ERR_ASSET_NOT_FOUND
      else sst_utils_check_contained_in 0 SST_BLOCK_SIZE (data_index meta) (max_size meta)
  end.

Definition sst_meta_read_object_meta (object_index : Z) : SM sst_assetmeta :=
  let offset := sst_meta_object_meta_offset object_index in
  metablock <- sst_meta_cur_meta_active ;;
  bs <- sst_flash_read metablock offset SIZEOF_assetmeta ;;
  let meta := decode_assetmeta bs in
  match sst_meta_validate_object_meta meta with
  | Some err => fail err
  | None => ret meta
  end.

(** The search loop, [n] entries left. *)
Fixpoint free_object_index_loop (n : nat) (i : Z) : SM Z :=
  match n with
  | O => ret SST_METADATA_INVALID_INDEX
  | S n =>
      r <- try (sst_meta_read_object_meta i) ;;
      match r with
      | Some tmp_metadata =>
          match sst_utils_validate_uuid (unique_id tmp_metadata) with
          | Some _ => ret i
          | None => free_object_index_loop n (i + 1)
          end
      | None => ret SST_METADATA_INVALID_INDEX
      end
  end.

Definition sst_get_free_object_index : SM Z :=
  free_object_index_loop (Z.to_nat SST_NUM_ASSETS) 0.

Definition sst_dblock_lo_to_phy (lblock : Z) : SM Z :=
  r <- try (sst_meta_read_block_metadata lblock) ;;
  match r with
  | None => ret SST_BLOCK_INVALID_ID
  | Some block_meta => ret (phys_id block_meta)
  end.

(** ** Building the next version of the metadata in the scratch blocks *)

Definition sst_dblock_update_scratch (cur_logical_block : Z)
  (block_meta : sst_block_metadata) (data : list byte) (offset size : Z) : SM unit :=
  scratch_block <- sst_meta_cur_data_scratch cur_logical_block ;;
  in_bounds (size <=? zlen data) ;;
  sst_flash_write scratch_block (ztake size data) offset ;;
  (if data_start block_meta <? offset
   then sst_flash_block_to_block_move scratch_block (data_start block_meta)
          (phys_id block_meta) (data_start block_meta)
          (u32 (offset - data_start block_meta))
   else ret tt) ;;
  let end_data := u32 (SST_BLOCK_SIZE - (offset + size) - free_size block_meta) in
  sst_flash_block_to_block_move scratch_block (u32 (offset + size))
    (phys_id block_meta) (u32 (offset + size)) end_data.

Definition sst_mblock_update_scratch_object_meta (object_index : Z)
  (obj_meta : sst_assetmeta) : SM unit :=
  scratch_block <- sst_meta_cur_meta_scratch ;;
  let pos := sst_meta_object_meta_offset object_index in
  sst_flash_write scratch_block (encode_assetmeta obj_meta) pos.

Definition sst_meta_erase_scratch_blocks : SM unit :=
  scratch_metablock <- sst_meta_cur_meta_scratch ;;
  sst_flash_erase_block scratch_metablock ;;
  if 2 <? SST_TOTAL_NUM_OF_BLOCKS
  then scratch_datablock <- sst_meta_cur_data_scratch (SST_LOGICAL_DBLOCK0 + 1) ;;
       sst_flash_erase_block scratch_datablock
  else ret tt.

Definition sst_mblock_update_scratch_block_meta (lblock : Z)
  (block_meta : sst_block_metadata) : SM unit :=
  meta_block <- sst_meta_cur_meta_scratch ;;
  let pos := sst_meta_block_meta_offset lblock in
  sst_flash_write meta_block (encode_block_metadata block_meta) pos.

Definition sst_mblock_copy_remaining_object_meta (object_index : Z) : SM unit :=
  scratch_block <- sst_meta_cur_meta_scratch ;;
  meta_block <- sst_meta_cur_meta_active ;;
  let pos := sst_meta_object_meta_offset 0 in
  sst_flash_block_to_block_move scratch_block pos meta_block pos
    (u32 (object_index * SIZEOF_assetmeta)) ;;
  let pos := sst_meta_object_meta_offset (object_index + 1) in
  let end_ := sst_meta_object_meta_offset SST_NUM_ASSETS in
  if pos <? end_
  then sst_flash_block_to_block_move scratch_block pos meta_block pos (end_ - pos)
  else ret tt.

Definition sst_mblock_copy_remaining_block_meta (lblock : Z) : SM unit :=
  scratch_block <- sst_meta_cur_meta_scratch ;;
  meta_block <- sst_meta_cur_meta_active ;;
  (if negb (lblock =? SST_LOGICAL_DBLOCK0)
   then
     block_meta <- or_return (sst_meta_read_block_metadata SST_LOGICAL_DBLOCK0)
                     PSA_SST_ERR_SYSTEM_ERROR ;;
     let block_meta := set_phys_id scratch_block block_meta in
     or_return (sst_mblock_update_scratch_block_meta SST_LOGICAL_DBLOCK0 block_meta)
       PSA_SST_ERR_SYSTEM_ERROR ;;
     let size := u32 ((lblock - 1) * SIZEOF_block_metadata) in
     if 0 <? size
     then let pos := SIZEOF_metadata_block_header + SIZEOF_block_metadata in
          sst_flash_block_to_block_move scratch_block pos meta_block pos size
     else ret tt
   else ret tt) ;;
  let pos := sst_meta_block_meta_offset (lblock + 1) in
  let size := u32 (sst_meta_object_meta_offset 0 - pos) in
  sst_flash_block_to_block_move scratch_block pos meta_block pos size.

Definition sst_block_object_read_raw (meta : sst_assetmeta) (offset size : Z)
  : SM (list byte) :=
  phys_block <- sst_dblock_lo_to_phy (lblock meta) ;;
  if phys_block =? SST_BLOCK_INVALID_ID then fail PSA_SST_ERR_SYSTEM_ERROR
  else let pos := u32 (data_index meta + offset) in
       sst_flash_read phys_block pos size.

(** ** Header *)

Definition sst_meta_validate_swap_count (swap_count : Z) : option psa_sst_err_t :=
  if swap_count =? SST_FLASH_DEFAULT_VAL then Some PSA_SST_ERR_SYSTEM_ERROR else None.

Definition sst_meta_validate_fs_version (fs_version : Z) : option psa_sst_err_t :=
  if negb (fs_version =? SST_SUPPORTED_VERSION) then Some PSA_SST_ERR_SYSTEM_ERROR
  else None.

Definition sst_meta_validate_header_meta (meta : sst_metadata_block_header)
  : option psa_sst_err_t :=
  match sst_meta_validate_fs_version (fs_version meta) with
  | None => sst_meta_validate_swap_count (active_swap_count meta)
  | Some err => Some err
  end.

Definition sst_meta_write_scratch_meta_header : SM unit :=
  scratch_metablock <- sst_meta_cur_meta_scratch ;;
  modify (fun s =>
    let h := meta_block_header (sst_system_ctx s) in
    with_ctx s (set_header (set_swap_count (u8 (active_swap_count h + 1)) h)
                  (sst_system_ctx s))) ;;
  modify (fun s =>
    let h := meta_block_header (sst_system_ctx s) in
    match sst_meta_validate_swap_count (active_swap_count h) with
    | Some _ => with_ctx s (set_header (set_swap_count 0 h) (sst_system_ctx s))
    | None => s
    end) ;;
  h <- gets (fun s => meta_block_header (sst_system_ctx s)) ;;
  sst_flash_write scratch_metablock (encode_header_prefix h) 0 ;;
  sst_flash_write scratch_metablock [z2b (active_swap_count h)] OFFSETOF_active_swap_count.

Definition sst_meta_read_meta_header : SM unit :=
  metablock <- sst_meta_cur_meta_active ;;
  bs <- sst_flash_read metablock 0 SIZEOF_metadata_block_header ;;
  modify (fun s => with_ctx s (set_header (decode_header bs) (sst_system_ctx s))) ;;
  match sst_meta_validate_header_meta (decode_header bs) with
  | Some err => fail err
  | None => ret tt
  end.

Definition sst_mblock_migrate_data_to_scratch : SM unit :=
  scratch_metablock <- sst_meta_cur_meta_scratch ;;
  current_metablock <- sst_meta_cur_meta_active ;;
  block_meta <- sst_meta_read_block_metadata SST_LOGICAL_DBLOCK0 ;;
  let data_size := u32 (SST_BLOCK_SIZE - data_start block_meta - free_size block_meta) in
  sst_flash_block_to_block_move scratch_metablock (data_start block_meta)
    current_metablock (data_start block_meta) data_size.

Definition sst_meta_update_finalize : SM unit :=
  sst_meta_write_scratch_meta_header ;;
  sst_meta_swap_metablocks ;;
  sst_meta_erase_scratch_blocks.

(** ** Objects *)

(** The loop of [sst_meta_reserve_object], [n] logical blocks left. *)
Fixpoint reserve_object_loop (n : nat) (i : Z) (object_meta : sst_assetmeta)
  (size size_in_flash : Z) : SM (sst_assetmeta * sst_block_metadata) :=
  match n with
  | O => fail PSA_SST_ERR_STORAGE_SYSTEM_FULL
  | S n =>
      block_meta <- or_return (sst_meta_read_block_metadata i) PSA_SST_ERR_SYSTEM_ERROR ;;
      if size_in_flash <=? free_size block_meta
      then ret ({| lblock := i;
                   data_index := u32 (SST_BLOCK_SIZE - free_size block_meta);
                   cur_size := cur_size object_meta;
                   max_size := size;
                   unique_id := unique_id object_meta |},
                set_free_size (u32 (free_size block_meta - size_in_flash)) block_meta)
      else reserve_object_loop n (i + 1) object_meta size size_in_flash
  end.

Definition sst_meta_reserve_object (object_meta : sst_assetmeta) (size : Z)
  : SM (sst_assetmeta * sst_block_metadata) :=
  reserve_object_loop (Z.to_nat SST_NUM_ACTIVE_DBLOCKS) 0 object_meta size
    (sst_get_aligned_flash_bytes size).

Fixpoint get_object_idx_loop (n : nat) (i : Z) (obj_uuid : Z) : SM Z :=
  match n with
  | O => fail PSA_SST_ERR_ASSET_NOT_FOUND
  | S n =>
      tmp_metadata <- or_return (sst_meta_read_object_meta i) PSA_SST_ERR_SYSTEM_ERROR ;;
      if unique_id tmp_metadata =? obj_uuid then ret i
      else get_object_idx_loop n (i + 1) obj_uuid
  end.

Definition sst_core_get_object_idx (obj_uuid : Z) : SM Z :=
  get_object_idx_loop (Z.to_nat SST_NUM_ASSETS) 0 obj_uuid.

Definition sst_core_object_exist (obj_uuid : Z) : SM unit :=
  or_return (sst_core_get_object_idx obj_uuid) PSA_SST_ERR_ASSET_NOT_FOUND ;;
  ret tt.

(** The automatic variable [object_meta] before it is filled in. *)
Definition uninit_assetmeta : sst_assetmeta := {|
  lblock := 0; data_index := 0; cur_size := 0; max_size := 0; unique_id := 0 |}.

Definition sst_core_object_create (object_uuid size : Z) : SM unit :=
  r <- try (sst_meta_reserve_object uninit_assetmeta size) ;;
  object_index <- sst_get_free_object_index ;;
  match r with
  | None => fail PSA_SST_ERR_STORAGE_SYSTEM_FULL
  | Some (object_meta, block_meta) =>
      if object_index =? SST_METADATA_INVALID_INDEX
      then fail PSA_SST_ERR_STORAGE_SYSTEM_FULL
      else
        let object_meta := {| lblock := lblock object_meta;
                              data_index := data_index object_meta;
                              cur_size := 0; max_size := size;
                              unique_id := object_uuid |} in
        or_return (sst_mblock_update_scratch_object_meta object_index object_meta)
          PSA_SST_ERR_SYSTEM_ERROR ;;
        scratch <- sst_meta_cur_meta_scratch ;;
        let block_meta :=
          if lblock object_meta =? SST_LOGICAL_DBLOCK0
          then set_phys_id scratch block_meta else block_meta in
        or_return (sst_mblock_update_scratch_block_meta (lblock object_meta) block_meta)
          PSA_SST_ERR_SYSTEM_ERROR ;;
        or_return (sst_mblock_copy_remaining_object_meta object_index)
          PSA_SST_ERR_SYSTEM_ERROR ;;
        or_return (sst_mblock_copy_remaining_block_meta (lblock object_meta))
          PSA_SST_ERR_SYSTEM_ERROR ;;
        or_return sst_mblock_migrate_data_to_scratch PSA_SST_ERR_SYSTEM_ERROR ;;
        or_return sst_meta_update_finalize PSA_SST_ERR_SYSTEM_ERROR
  end.

Definition sst_core_object_get_info (object_uuid : Z) : SM sst_core_obj_info_t :=
  object_index <- or_return (sst_core_get_object_idx object_uuid)
                    PSA_SST_ERR_ASSET_NOT_FOUND ;;
  tmp_metadata <- sst_meta_read_object_meta object_index ;;
  if negb (object_uuid =? unique_id tmp_metadata) then fail PSA_SST_ERR_ASSET_NOT_FOUND
  else ret {| size_current := cur_size tmp_metadata; size_max := max_size tmp_metadata |}.

(** The object content after the write, in [sst_buf_plain_text], and the new
    current size. *)
Definition prepare_plain_text (object_meta : sst_assetmeta) (data : list byte)
  (offset size : Z) : SM (list byte * sst_assetmeta) :=
  let buf := replicate (Z.to_nat SST_ALIGNED_MAX_OBJECT_SIZE) SST_DEFAULT_EMPTY_BUFF_VAL in
  buf <- (if 0 <? cur_size object_meta
          then bs <- sst_block_object_read_raw object_meta SST_OBJECT_START_POSITION
                       (cur_size object_meta) ;;
               in_bounds (cur_size object_meta <=? SST_ALIGNED_MAX_OBJECT_SIZE) ;;
               ret (splice 0 bs buf)
          else ret buf) ;;
  let object_meta :=
    if cur_size object_meta <? u32 (offset + size)
    then set_cur_size (u32 (offset + size)) object_meta else object_meta in
  match sst_utils_memcpy buf offset data 0 size with
  | Some buf => ret (buf, object_meta)
  | None => fault
  end.

Definition sst_core_object_write (object_uuid : Z) (data : list byte) (offset size : Z)
  : SM unit :=
  object_index <- or_return (sst_core_get_object_idx object_uuid)
                    PSA_SST_ERR_ASSET_NOT_FOUND ;;
  object_meta <- or_return (sst_meta_read_object_meta object_index)
                   PSA_SST_ERR_ASSET_NOT_FOUND ;;
  block_meta <- or_return (sst_meta_read_block_metadata (lblock object_meta))
                  PSA_SST_ERR_SYSTEM_ERROR ;;
  guard (negb (cur_size object_meta <? offset)) PSA_SST_ERR_PARAM_ERROR ;;
  pb <- prepare_plain_text object_meta data offset size ;;
  let '(prepared_buf, object_meta) := pb in
  let align_flash_nbr_bytes := sst_get_aligned_flash_bytes (cur_size object_meta) in
  or_return (sst_dblock_update_scratch (lblock object_meta) block_meta prepared_buf
               (data_index object_meta) align_flash_nbr_bytes)
    PSA_SST_ERR_SYSTEM_ERROR ;;
  let cur_phys_block := phys_id block_meta in
  scratch <- sst_meta_cur_data_scratch (lblock object_meta) ;;
  let block_meta := set_phys_id scratch block_meta in
  sst_meta_set_data_scratch cur_phys_block (lblock object_meta) ;;
  or_return (sst_mblock_update_scratch_block_meta (lblock object_meta) block_meta)
    PSA_SST_ERR_SYSTEM_ERROR ;;
  or_return (sst_mblock_update_scratch_object_meta object_index object_meta)
    PSA_SST_ERR_SYSTEM_ERROR ;;
  or_return (sst_mblock_copy_remaining_block_meta (lblock object_meta))
    PSA_SST_ERR_SYSTEM_ERROR ;;
  or_return (sst_mblock_copy_remaining_object_meta object_index)
    PSA_SST_ERR_SYSTEM_ERROR ;;
  (if negb (lblock object_meta =? SST_LOGICAL_DBLOCK0)
   then or_return sst_mblock_migrate_data_to_scratch PSA_SST_ERR_SYSTEM_ERROR
   else ret tt) ;;
  sst_meta_update_finalize.

Definition sst_compact_dblock (lblock obj_size src_offset dst_offset size : Z) : SM unit :=
  block_meta <- sst_meta_read_block_metadata lblock ;;
  let block_meta := set_free_size (u32 (free_size block_meta + obj_size)) block_meta in
  scratch_dblock_id <- sst_meta_cur_data_scratch lblock ;;
  (if 0 <? size
   then or_return (sst_flash_block_to_block_move scratch_dblock_id dst_offset
                     (phys_id block_meta) src_offset size) PSA_SST_ERR_SYSTEM_ERROR
   else ret tt) ;;
  (if data_start block_meta <? dst_offset
   then or_return (sst_flash_block_to_block_move scratch_dblock_id
                     (data_start block_meta) (phys_id block_meta) (data_start block_meta)
                     (dst_offset - data_start block_meta)) PSA_SST_ERR_SYSTEM_ERROR
   else ret tt) ;;
  sst_meta_set_data_scratch (phys_id block_meta) lblock ;;
  let block_meta := set_phys_id scratch_dblock_id block_meta in
  r <- try_err (sst_mblock_update_scratch_block_meta lblock block_meta) ;;
  match r with
  | inr err => sst_meta_set_data_scratch scratch_dblock_id lblock ;; fail err
  | inl _ =>
      r <- try_err (sst_mblock_copy_remaining_block_meta lblock) ;;
      match r with
      | inr err => sst_meta_set_data_scratch scratch_dblock_id lblock ;; fail err
      | inl _ => ret tt
      end
  end.

(** The loop over the metadata table, [n] entries left; it returns
    [src_offset] and [nbr_bytes_to_move]. *)
Fixpoint delete_object_loop (n : nat) (obj_idx : Z) (del_obj_index del_obj_lblock
  del_obj_data_index del_obj_max_size src_offset nbr_bytes_to_move : Z) : SM (Z * Z) :=
  match n with
  | O => ret (src_offset, nbr_bytes_to_move)
  | S n =>
      if obj_idx =? del_obj_index
      then delete_object_loop n (obj_idx + 1) del_obj_index del_obj_lblock
             del_obj_data_index del_obj_max_size src_offset nbr_bytes_to_move
      else
        object_meta <- sst_meta_read_object_meta obj_idx ;;
        let moved := (lblock object_meta =? del_obj_lblock) &&
                     (del_obj_data_index <? data_index object_meta) in
        let src_offset' :=
          if moved && (data_index object_meta <? src_offset)
          then data_index object_meta else src_offset in
        let object_meta' :=
          if moved
          then set_data_index (u32 (data_index object_meta - del_obj_max_size)) object_meta
          else object_meta in
        let nbr_bytes_to_move' :=
          if moved
          then u32 (nbr_bytes_to_move + sst_get_aligned_flash_bytes (max_size object_meta))
          else nbr_bytes_to_move in
        ignore (sst_mblock_update_scratch_object_meta obj_idx object_meta') ;;
        delete_object_loop n (obj_idx + 1) del_obj_index del_obj_lblock
          del_obj_data_index del_obj_max_size src_offset' nbr_bytes_to_move'
  end.

Definition sst_core_object_delete (object_uuid : Z) : SM unit :=
  del_obj_index <- or_return (sst_core_get_object_idx object_uuid)
                     PSA_SST_ERR_ASSET_NOT_FOUND ;;
  object_meta <- sst_meta_read_object_meta del_obj_index ;;
  match sst_utils_validate_uuid (unique_id object_meta) with
  | Some _ => fail PSA_SST_ERR_ASSET_NOT_FOUND
  | None =>
      let del_obj_lblock := lblock object_meta in
      let del_obj_data_index := data_index object_meta in
      let del_obj_max_size := sst_get_aligned_flash_bytes (max_size object_meta) in
      let object_meta := {| lblock := 0; data_index := data_index object_meta;
                            cur_size := 0; max_size := 0;
                            unique_id := SST_INVALID_UUID |} in
      ignore (sst_mblock_update_scratch_object_meta del_obj_index object_meta) ;;
      mv <- delete_object_loop (Z.to_nat SST_NUM_ASSETS) 0 del_obj_index del_obj_lblock
              del_obj_data_index del_obj_max_size SST_BLOCK_SIZE 0 ;;
      let '(src_offset, nbr_bytes_to_move) := mv in
      sst_compact_dblock del_obj_lblock del_obj_max_size src_offset del_obj_data_index
        nbr_bytes_to_move ;;
      ignore sst_meta_update_finalize
  end.

Definition sst_core_object_read (object_uuid offset size : Z) : SM (list byte) :=
  object_index <- or_return (sst_core_get_object_idx object_uuid)
                    PSA_SST_ERR_ASSET_NOT_FOUND ;;
  tmp_metadata <- or_return (sst_meta_read_object_meta object_index)
                    PSA_SST_ERR_SYSTEM_ERROR ;;
  if negb (object_uuid =? unique_id tmp_metadata) then fail PSA_SST_ERR_ASSET_NOT_FOUND
  else match sst_utils_check_contained_in 0 (cur_size tmp_metadata) offset size with
  | Some _ => fail PSA_SST_ERR_PARAM_ERROR
  | None => or_return (sst_block_object_read_raw tmp_metadata offset size)
              PSA_SST_ERR_SYSTEM_ERROR
  end.

(** ** Start-up and wipe *)

Definition sst_init_get_active_metablock : SM unit :=
  b0 <- or_return (sst_flash_read SST_METADATA_BLOCK0 0 SIZEOF_metadata_block_header)
          PSA_SST_ERR_SYSTEM_ERROR ;;
  b1 <- or_return (sst_flash_read SST_METADATA_BLOCK1 0 SIZEOF_metadata_block_header)
          PSA_SST_ERR_SYSTEM_ERROR ;;
  let meta0 := decode_header b0 in
  let meta1 := decode_header b1 in
  let valid0 := bool_decide (sst_meta_validate_header_meta meta0 = None) in
  let valid1 := bool_decide (sst_meta_validate_header_meta meta1 = None) in
  if negb valid0 && negb valid1 then fail PSA_SST_ERR_SYSTEM_ERROR
  else
    let cur_meta_block :=
      if valid0 && valid1 then sst_meta_latest_meta_block meta0 meta1
      else if valid1 then SST_METADATA_BLOCK1 else SST_METADATA_BLOCK0 in
    modify (fun s => with_ctx s
      (set_metablocks cur_meta_block (SST_OTHER_META_BLOCK cur_meta_block)
         (sst_system_ctx s))).

Definition sst_core_prepare : SM unit :=
  or_return sst_init_get_active_metablock PSA_SST_ERR_SYSTEM_ERROR ;;
  or_return sst_meta_read_meta_header PSA_SST_ERR_SYSTEM_ERROR ;;
  sst_meta_erase_scratch_blocks.

(** [for (i = SST_INIT_DBLOCK_START; i < SST_NUM_DEDICATED_DBLOCKS; i++)]: the
    result tells whether every erase succeeded. *)
Fixpoint wipe_erase_loop (n : nat) (i : Z) (ok : bool) : SM bool :=
  match n with
  | O => ret ok
  | S n =>
      r <- try (sst_flash_erase_block i) ;;
      wipe_erase_loop n (i + 1) (ok && bool_decide (is_Some r))
  end.

Fixpoint wipe_block_meta_loop (n : nat) (i : Z) (block_meta : sst_block_metadata)
  : SM unit :=
  match n with
  | O => ret tt
  | S n =>
      or_return (sst_mblock_update_scratch_block_meta (i + 1)
                   (set_phys_id (i + SST_INIT_DBLOCK_START) block_meta))
        PSA_SST_ERR_SYSTEM_ERROR ;;
      wipe_block_meta_loop n (i + 1) block_meta
  end.

Fixpoint wipe_object_meta_loop (n : nat) (i : Z) (object_metadata : sst_assetmeta)
  : SM unit :=
  match n with
  | O => ret tt
  | S n =>
      or_return (sst_mblock_update_scratch_object_meta i object_metadata)
        PSA_SST_ERR_SYSTEM_ERROR ;;
      wipe_object_meta_loop n (i + 1) object_metadata
  end.

Definition sst_core_wipe_all : SM unit :=
  r <- try sst_init_get_active_metablock ;;
  metablock_to_erase_first <-
    match r with
    | Some _ => gets (fun s => scratch_metablock (sst_system_ctx s))
    | None => ret SST_METADATA_BLOCK0
    end ;;
  sst_flash_erase_block metablock_to_erase_first ;;
  sst_flash_erase_block (SST_OTHER_META_BLOCK metablock_to_erase_first) ;;
  modify (fun s => with_ctx s
    {| meta_block_header :=
         {| crypto := crypto (meta_block_header (sst_system_ctx s));
            scratch_idx := SST_INIT_SCRATCH_DBLOCK;
            fs_version := SST_SUPPORTED_VERSION;
            active_swap_count := 0 |};
       scratch_metablock := SST_METADATA_BLOCK1;
       active_metablock := SST_METADATA_BLOCK0 |}) ;;
  ignore (sst_mblock_update_scratch_block_meta SST_LOGICAL_DBLOCK0
    {| data_start := SST_ALL_METADATA_SIZE;
       free_size := SST_BLOCK_SIZE - SST_ALL_METADATA_SIZE;
       phys_id := SST_METADATA_BLOCK0 |}) ;;
  let block_meta := {| data_start := 0; free_size := SST_BLOCK_SIZE;
                       phys_id := SST_METADATA_BLOCK0 |} in
  ok <- wipe_erase_loop (Z.to_nat (SST_NUM_DEDICATED_DBLOCKS - SST_INIT_DBLOCK_START))
          SST_INIT_DBLOCK_START true ;;
  guard ok PSA_SST_ERR_SYSTEM_ERROR ;;
  wipe_block_meta_loop (Z.to_nat SST_NUM_DEDICATED_DBLOCKS) 0 block_meta ;;
  wipe_object_meta_loop (Z.to_nat SST_NUM_ASSETS) 0
    {| lblock := 0; data_index := 0; cur_size := 0; max_size := 0; unique_id := 0 |} ;;
  or_return sst_meta_write_scratch_meta_header PSA_SST_ERR_SYSTEM_ERROR ;;
  sst_meta_swap_metablocks.
End sst_core.
