(* ===== verification/SstCoreSpec.v ===== *)
(** * Secure storage core: what the building blocks do to flash

    For a powered device and metadata that validates, every helper of
    [sst_core.c] succeeds; the lemmas below give its effect on the block view.
    The three operations that change the store are split into a part that builds
    the next version in the scratch blocks and the commit by
    [sst_meta_update_finalize].  The object operations are verified from these in
    [SstCoreInv]. *)

From S2P Require Import Prelude FlashDriver SstDefs SstFlash SstCore.

(** ** Views: copies between blocks *)

Definition vcopy (V : blocks) (db sb off n : Z) : blocks :=
  vwrite V db off (vread V sb off n).

Lemma vmove_spec V db doff sb soff n b o :
  0 <= n ->
  vwrite V db doff (vread V sb soff n) b o =
    if decide (b = db /\ doff <= o < doff + n) then V sb (soff + (o - doff)) else V b o.
Proof.
  intros. rewrite vwrite_spec, zlen_vread by lia. case_decide; [|done].
  rewrite znth_vread by lia. done.
Qed.

Lemma vcopy_spec V db sb off n b o :
  0 <= n ->
  vcopy V db sb off n b o =
    if decide (b = db /\ off <= o < off + n) then V sb o else V b o.
Proof.
  intros. unfold vcopy. rewrite vmove_spec by lia. case_decide; [|done]. f_equal. lia.
Qed.

(** Evaluate a view at a place whose region [lia] can decide. *)
Ltac vstep :=
  match goal with
  | |- context [vcopy ?V ?db ?sb ?off ?n ?b ?o] => rewrite (vcopy_spec V db sb off n b o) by lia
  | |- context [vwrite ?V ?db ?doff (vread ?W ?sb ?soff ?n) ?b ?o] =>
      rewrite (vmove_spec V db doff sb soff n b o) by lia
  | |- context [vwrite ?V ?b0 ?off ?bs ?b ?o] => rewrite (vwrite_spec V b0 off bs b o)
  | |- context [verase ?V ?b0 ?b ?o] => rewrite (verase_spec V b0 b o)
  end.

Ltac vdecide :=
  match goal with
  | |- context [decide ?P] =>
      first [ rewrite (decide_True (P := P)) by (repeat split; lia)
            | rewrite (decide_False (P := P)) by lia ]
  end.

Ltac vsimp := repeat (vstep; try vdecide).

Section spec.
  Context {D : Type} `{!ARM_DRIVER_FLASH D, !FlashDevice D, !sst_layout, !sst_area_ok D,
                       !sst_build_ok}.
  Implicit Types (d : D) (c : sst_asset_system_context) (V : blocks).

(** ** Layout arithmetic *)

Lemma active_dblocks :
  (SST_TOTAL_NUM_OF_BLOCKS = 2 /\ SST_NUM_ACTIVE_DBLOCKS = 1) \/
  (4 <= SST_TOTAL_NUM_OF_BLOCKS /\ SST_NUM_ACTIVE_DBLOCKS = SST_TOTAL_NUM_OF_BLOCKS - 2).
Proof using All.
  unfold SST_NUM_ACTIVE_DBLOCKS, SST_NUM_DEDICATED_DBLOCKS, SST_INIT_DBLOCK_START.
  destruct area_blocks as [E|E]; destruct (Z.eqb_spec SST_TOTAL_NUM_OF_BLOCKS 2); lia.
Qed.

Definition boff (l : Z) : Z := 36 + 12 * l.
Definition ooff (i : Z) : Z := 36 + 12 * SST_NUM_ACTIVE_DBLOCKS + 20 * i.

Lemma all_metadata_size : SST_ALL_METADATA_SIZE = ooff 10.
Proof using Type.
  unfold SST_ALL_METADATA_SIZE, ooff, SIZEOF_metadata_block_header,
    SIZEOF_block_metadata, SIZEOF_assetmeta, SST_NUM_ASSETS. lia.
Qed.

Lemma layout_bounds :
  1 <= SST_NUM_ACTIVE_DBLOCKS /\ ooff 10 <= SST_BLOCK_SIZE /\ SST_BLOCK_SIZE < 2 ^ 32 /\
  2 <= SST_TOTAL_NUM_OF_BLOCKS < 2 ^ 32.
Proof using All.
  pose proof active_dblocks. pose proof block_size_u32. pose proof block_size_pos.
  rewrite <- all_metadata_size. pose proof metadata_fits.
  pose proof area_fits. pose proof area_addr. pose proof flash_limit_range.
  split_and!; try lia.
Qed.

Lemma block_meta_offset l :
  0 <= l <= SST_NUM_ACTIVE_DBLOCKS -> sst_meta_block_meta_offset l = boff l.
Proof using All.
  intros. pose proof layout_bounds. unfold sst_meta_block_meta_offset, boff, ooff,
    SIZEOF_metadata_block_header, SIZEOF_block_metadata in *. rewrite u32_small; lia.
Qed.

Lemma object_meta_offset i :
  0 <= i <= SST_NUM_ASSETS -> sst_meta_object_meta_offset i = ooff i.
Proof using All.
  intros. pose proof layout_bounds. unfold SST_NUM_ASSETS in *.
  unfold sst_meta_object_meta_offset, ooff, SIZEOF_metadata_block_header,
    SIZEOF_block_metadata, SIZEOF_assetmeta in *. rewrite u32_small; lia.
Qed.

(** Rounding up to the programming unit. *)
Lemma aligned_bytes n :
  0 <= n -> n + 4 <= 2 ^ 32 ->
  n <= sst_get_aligned_flash_bytes n < n + SST_FLASH_PROGRAM_UNIT /\
  sst_get_aligned_flash_bytes n mod SST_FLASH_PROGRAM_UNIT = 0.
Proof using All.
  intros. unfold sst_get_aligned_flash_bytes.
  assert (0 < SST_FLASH_PROGRAM_UNIT <= 4) by (destruct area_unit; lia).
  pose proof (Z.mod_pos_bound n SST_FLASH_PROGRAM_UNIT).
  destruct (Z.eqb_spec (n mod SST_FLASH_PROGRAM_UNIT) 0) as [E|E]; simpl.
  - rewrite u32_small by lia. split; [lia|]. by rewrite E.
  - rewrite u32_small by lia. split; [lia|].
    replace (_ + n) with (n - n mod SST_FLASH_PROGRAM_UNIT + 1 * SST_FLASH_PROGRAM_UNIT) by lia.
    rewrite Z.mod_add by lia. rewrite Zminus_mod_idemp_r.
    by rewrite Z.sub_diag, Z.mod_0_l by lia.
Qed.

Lemma aligned_max_object : 
  SST_ALIGNED_MAX_OBJECT_SIZE = SST_MAX_OBJECT_SIZE + SST_FLASH_PROGRAM_UNIT.
Proof using All.
  unfold SST_ALIGNED_MAX_OBJECT_SIZE.
  destruct area_unit as [-> | [-> | ->]]; reflexivity.
Qed.

(** ** Metadata in a view *)

Definition bm V (A l : Z) : sst_block_metadata :=
  decode_block_metadata (vread V A (boff l) 12).
Definition om V (A i : Z) : sst_assetmeta :=
  decode_assetmeta (vread V A (ooff i) 20).
Definition hdr V (A : Z) : sst_metadata_block_header :=
  decode_header (vread V A 0 36).

Lemma bm_ext V V' A A' l :
  (forall o, boff l <= o < boff l + 12 -> V A o = V' A' o) -> bm V A l = bm V' A' l.
Proof using Type. intros Hx. unfold bm. f_equal. apply vread_ext. intros. apply Hx. lia. Qed.

Lemma om_ext V V' A A' i :
  (forall o, ooff i <= o < ooff i + 20 -> V A o = V' A' o) -> om V A i = om V' A' i.
Proof using Type. intros Hx. unfold om. f_equal. apply vread_ext. intros. apply Hx. lia. Qed.

Lemma bm_written V A l b :
  block_metadata_u32 b ->
  (forall o, boff l <= o < boff l + 12 -> V A o = znth (encode_block_metadata b) (o - boff l)) ->
  bm V A l = b.
Proof using Type.
  intros Hb Hx. unfold bm. replace (vread V A (boff l) 12) with (encode_block_metadata b).
  - by apply decode_encode_block_metadata.
  - apply zlist_ext; rewrite ?length_encode_block_metadata, ?zlen_vread by lia; [done|].
    intros i Hi. rewrite znth_vread by lia. rewrite Hx by lia. f_equal. lia.
Qed.

Lemma om_written V A i m :
  assetmeta_u32 m ->
  (forall o, ooff i <= o < ooff i + 20 -> V A o = znth (encode_assetmeta m) (o - ooff i)) ->
  om V A i = m.
Proof using Type.
  intros Hb Hx. unfold om. replace (vread V A (ooff i) 20) with (encode_assetmeta m).
  - by apply decode_encode_assetmeta.
  - apply zlist_ext; rewrite ?length_encode_assetmeta, ?zlen_vread by lia; [done|].
    intros k Hk. rewrite znth_vread by lia. rewrite Hx by lia. f_equal. lia.
Qed.

Lemma om_u32 V A i : assetmeta_u32 (om V A i).
Proof using Type.
  apply decode_assetmeta_u32. pose proof (zlen_vread V A (ooff i) 20). lia.
Qed.

Lemma bm_u32 V A l : block_metadata_u32 (bm V A l).
Proof using Type.
  apply decode_block_metadata_u32. pose proof (zlen_vread V A (boff l) 12). lia.
Qed.

(** ** Validation *)

Definition block_meta_ok (b : sst_block_metadata) : Prop :=
  valid_block (phys_id b) /\ 0 <= data_start b /\ 0 <= free_size b /\
  data_start b + free_size b <= SST_BLOCK_SIZE /\
  data_start b = (if decide (phys_id b < 2) then ooff 10 else 0).

Lemma validate_block_meta_ok b :
  block_meta_ok b -> sst_meta_validate_block_meta b = None.
Proof using All.
  intros ((P1 & P2) & Hd & Hf & Hs & Hv). pose proof layout_bounds as (_ & _ & HB & _).
  unfold sst_meta_validate_block_meta.
  destruct (Z.leb_spec SST_TOTAL_NUM_OF_BLOCKS (phys_id b)); [lia|].
  rewrite sst_utils_check_contained_in_spec by (unfold is_u32; lia).
  rewrite decide_True by lia.
  rewrite object_meta_offset by (unfold SST_NUM_ASSETS; lia).
  change (ooff SST_NUM_ASSETS) with (ooff 10).
  unfold SST_METADATA_BLOCK0, SST_METADATA_BLOCK1.
  destruct (Z.eqb_spec (phys_id b) 0), (Z.eqb_spec (phys_id b) 1); simpl; case_decide;
    try lia; destruct (Z.eqb_spec (data_start b) (ooff 10)),
      (Z.eqb_spec (data_start b) 0); simpl; done || lia.
Qed.

Definition object_meta_ok (m : sst_assetmeta) : Prop :=
  0 <= lblock m < SST_NUM_ACTIVE_DBLOCKS /\
  (unique_id m <> 0 ->
     max_size m <= SST_MAX_OBJECT_SIZE /\ cur_size m <= max_size m /\
     (lblock m = 0 -> ooff 10 <= data_index m) /\
     data_index m + max_size m <= SST_BLOCK_SIZE).

Lemma validate_object_meta_ok m :
  assetmeta_u32 m -> object_meta_ok m -> sst_meta_validate_object_meta m = None.
Proof using All.
  intros (U1 & U2 & U3 & U4 & U5) [Hl Hv]. pose proof layout_bounds as (_ & _ & HB & _).
  unfold sst_meta_validate_object_meta.
  destruct (Z.leb_spec SST_NUM_ACTIVE_DBLOCKS (lblock m)); [lia|].
  unfold sst_utils_validate_uuid, SST_INVALID_UUID.
  destruct (Z.eqb_spec (unique_id m) 0) as [_|Hu]; [done|]. destruct (Hv Hu) as (V1 & V2 & V3 & V4).
  destruct (Z.ltb_spec SST_MAX_OBJECT_SIZE (max_size m)); [lia|].
  destruct (Z.ltb_spec (max_size m) (cur_size m)); [lia|].
  rewrite object_meta_offset by (unfold SST_NUM_ASSETS; lia).
  change (ooff SST_NUM_ASSETS) with (ooff 10). unfold SST_LOGICAL_DBLOCK0.
  destruct (Z.eqb_spec (lblock m) 0) as [E|_]; simpl.
  - destruct (Z.ltb_spec (data_index m) (ooff 10)); [specialize (V3 E); lia|].
    rewrite sst_utils_check_contained_in_spec by (unfold is_u32 in *; lia).
    by rewrite decide_True by (unfold is_u32 in *; lia).
  - rewrite sst_utils_check_contained_in_spec by (unfold is_u32 in *; lia).
    by rewrite decide_True by (unfold is_u32 in *; lia).
Qed.

(** ** Metadata accesses *)

(** The two metadata blocks of the running context. *)
Definition ctx_blocks c : Prop :=
  (active_metablock c = 0 /\ scratch_metablock c = 1) \/
  (active_metablock c = 1 /\ scratch_metablock c = 0).

Lemma ctx_active_valid c : ctx_blocks c -> valid_block (active_metablock c).
Proof using All. pose proof layout_bounds. unfold ctx_blocks, valid_block. lia. Qed.

Lemma ctx_scratch_valid c : ctx_blocks c -> valid_block (scratch_metablock c).
Proof using All. pose proof layout_bounds. unfold ctx_blocks, valid_block. lia. Qed.

Lemma runs_read_block_metadata d c V l Q :
  DRep d V -> ctx_blocks c -> 0 <= l < SST_NUM_ACTIVE_DBLOCKS ->
  block_meta_ok (bm V (active_metablock c) l) ->
  Q (bm V (active_metablock c) l) (SstState d c) ->
  runs (sst_meta_read_block_metadata l) (SstState d c) Q.
Proof using All.
  intros HR Hc Hl Hv HQ. pose proof layout_bounds as (H1 & H2 & _). unfold ooff in H2.
  apply runs_bind, runs_gets, runs_bind. simpl.
  rewrite block_meta_offset by lia. unfold SIZEOF_block_metadata.
  apply runs_flash_read with V; try (unfold boff; lia); [done|by apply ctx_active_valid|].
  fold (bm V (active_metablock c) l). rewrite validate_block_meta_ok by done.
  by apply runs_ret.
Qed.

Lemma runs_read_object_meta d c V i Q :
  DRep d V -> ctx_blocks c -> 0 <= i < SST_NUM_ASSETS ->
  object_meta_ok (om V (active_metablock c) i) ->
  Q (om V (active_metablock c) i) (SstState d c) ->
  runs (sst_meta_read_object_meta i) (SstState d c) Q.
Proof using All.
  intros HR Hc Hl Hv HQ. pose proof layout_bounds as (H1 & H2 & _).
  unfold SST_NUM_ASSETS in Hl.
  apply runs_bind, runs_gets, runs_bind. simpl.
  rewrite object_meta_offset by (unfold SST_NUM_ASSETS; lia). unfold SIZEOF_assetmeta.
  apply runs_flash_read with V; try (unfold ooff in *; lia); [done|by apply ctx_active_valid|].
  fold (om V (active_metablock c) i).
  rewrite validate_object_meta_ok by (done || apply om_u32). by apply runs_ret.
Qed.

Lemma runs_update_scratch_object_meta d c V i m Q :
  DRep d V -> ctx_blocks c -> 0 <= i < SST_NUM_ASSETS ->
  (forall d', DRep d' (vwrite V (scratch_metablock c) (ooff i) (encode_assetmeta m)) ->
    Q tt (SstState d' c)) ->
  runs (sst_mblock_update_scratch_object_meta i m) (SstState d c) Q.
Proof using All.
  intros HR Hc Hi HQ. pose proof layout_bounds as (H1 & H2 & _).
  unfold SST_NUM_ASSETS in Hi.
  apply runs_bind, runs_gets. simpl. rewrite object_meta_offset by (unfold SST_NUM_ASSETS; lia).
  apply runs_flash_write with V; rewrite ?length_encode_assetmeta; try (unfold ooff in *; lia);
    [done|by apply ctx_scratch_valid|done].
Qed.

Lemma runs_update_scratch_block_meta d c V l b Q :
  DRep d V -> ctx_blocks c -> 0 <= l < SST_NUM_ACTIVE_DBLOCKS ->
  (forall d', DRep d' (vwrite V (scratch_metablock c) (boff l) (encode_block_metadata b)) ->
    Q tt (SstState d' c)) ->
  runs (sst_mblock_update_scratch_block_meta l b) (SstState d c) Q.
Proof using All.
  intros HR Hc Hi HQ. pose proof layout_bounds as (H1 & H2 & _).
  apply runs_bind, runs_gets. simpl. rewrite block_meta_offset by lia.
  apply runs_flash_write with V; rewrite ?length_encode_block_metadata;
    try (unfold ooff, boff in *; lia); [done|by apply ctx_scratch_valid|done].
Qed.

(** ** Copies of the remaining metadata *)

(** The object table of the scratch block after the copy: every entry but
    [i] comes from the active block. *)
Definition copy_objects V (X A i : Z) : blocks :=
  vcopy (vcopy V X A (ooff 0) (20 * i)) X A (ooff (i + 1)) (20 * (9 - i)).

Lemma runs_copy_remaining_object_meta d c V i Q :
  DRep d V -> ctx_blocks c -> 0 <= i < SST_NUM_ASSETS ->
  (forall d', DRep d' (copy_objects V (scratch_metablock c) (active_metablock c) i) ->
    Q tt (SstState d' c)) ->
  runs (sst_mblock_copy_remaining_object_meta i) (SstState d c) Q.
Proof using All.
  intros HR Hc Hi HQ. pose proof layout_bounds as (H1 & H2 & H3 & _).
  unfold SST_NUM_ASSETS in Hi. pose proof (ctx_active_valid c Hc).
  pose proof (ctx_scratch_valid c Hc).
  unfold sst_mblock_copy_remaining_object_meta.
  apply runs_bind, runs_gets, runs_bind, runs_gets, runs_bind. simpl.
  rewrite !object_meta_offset by (unfold SST_NUM_ASSETS; lia). unfold SIZEOF_assetmeta.
  replace (u32 (i * 20)) with (20 * i) by (rewrite u32_small; lia).
  apply runs_flash_move with V; try (unfold ooff in *; lia); try done.
  intros d1 HR1. unfold SST_NUM_ASSETS. destruct (Z.ltb_spec (ooff (i + 1)) (ooff 10)) as [C|C].
  - replace (ooff 10 - ooff (i + 1)) with (20 * (9 - i)) by (unfold ooff; lia).
    apply runs_flash_move with (vcopy V (scratch_metablock c) (active_metablock c) (ooff 0) (20 * i));
      try (unfold ooff in *; lia); done.
  - apply runs_ret, HQ. eapply DRep_ext; [exact HR1|]. intros b o _ _.
    unfold copy_objects. unfold ooff in C. replace (20 * (9 - i)) with 0 by lia.
    symmetry. rewrite vcopy_spec by lia. by rewrite decide_False by lia.
Qed.

(** The block table: entry 0 is rewritten for the new metadata block when the
    object lives in another block, every other entry but [l] is copied. *)
Definition copy_blocks V (X A l : Z) : blocks :=
  let V1 := if decide (l = 0) then V else
              vcopy (vwrite V X (boff 0) (encode_block_metadata (set_phys_id X (bm V A 0))))
                X A (boff 1) (12 * (l - 1)) in
  vcopy V1 X A (boff (l + 1)) (12 * (SST_NUM_ACTIVE_DBLOCKS - l - 1)).

Lemma runs_copy_remaining_block_meta d c V l Q :
  DRep d V -> ctx_blocks c -> 0 <= l < SST_NUM_ACTIVE_DBLOCKS ->
  block_meta_ok (bm V (active_metablock c) 0) ->
  (forall d', DRep d' (copy_blocks V (scratch_metablock c) (active_metablock c) l) ->
    Q tt (SstState d' c)) ->
  runs (sst_mblock_copy_remaining_block_meta l) (SstState d c) Q.
Proof using All.
  intros HR Hc Hl Hv HQ. pose proof layout_bounds as (H1 & H2 & H3 & _).
  pose proof (ctx_active_valid c Hc). pose proof (ctx_scratch_valid c Hc).
  unfold sst_mblock_copy_remaining_block_meta.
  apply runs_bind, runs_gets, runs_bind, runs_gets, runs_bind. simpl.
  rewrite block_meta_offset by lia. rewrite object_meta_offset by (unfold SST_NUM_ASSETS; lia).
  replace (u32 (ooff 0 - boff (l + 1))) with (12 * (SST_NUM_ACTIVE_DBLOCKS - l - 1))
    by (rewrite u32_small; unfold ooff, boff in *; lia).
  unfold SST_LOGICAL_DBLOCK0. unfold copy_blocks in HQ.
  destruct (Z.eqb_spec l 0) as [->|Hne]; simpl.
  - rewrite decide_True in HQ by done. apply runs_ret.
    apply runs_flash_move with V; try (unfold ooff, boff in *; lia); done.
  - rewrite decide_False in HQ by done.
    apply runs_bind, runs_or_return, runs_read_block_metadata with V; try done; [lia|].
    apply runs_bind, runs_or_return, runs_update_scratch_block_meta with V; try done; [lia|].
    intros d1 HR1. unfold SIZEOF_metadata_block_header, SIZEOF_block_metadata.
    change (36 + 12) with (boff 1).
    replace (u32 ((l - 1) * 12)) with (12 * (l - 1)) by (rewrite u32_small; unfold ooff in *; lia).
    destruct (Z.ltb_spec 0 (12 * (l - 1))).
    + eapply runs_flash_move; try exact HR1; try (unfold ooff, boff in *; lia); try done.
      intros d2 HR2.
      eapply runs_flash_move; try exact HR2; try (unfold ooff, boff in *; lia); done.
    + apply runs_ret.
      eapply runs_flash_move; try exact HR1; try (unfold ooff, boff in *; lia); try done.
      intros d2 HR2. apply HQ. replace (12 * (l - 1)) with 0 by lia.
      eapply DRep_ext; [exact HR2|]. intros b o _ _. unfold vcopy at 1.
      rewrite !vmove_spec by lia. case_decide as C; rewrite vcopy_spec by lia;
        by rewrite decide_False by lia.
Qed.

(** ** Object data *)

Lemma runs_read_raw d c V m off n Q :
  DRep d V -> ctx_blocks c -> 0 <= lblock m < SST_NUM_ACTIVE_DBLOCKS ->
  block_meta_ok (bm V (active_metablock c) (lblock m)) ->
  0 <= data_index m -> 0 <= off -> 0 <= n -> data_index m + off + n <= SST_BLOCK_SIZE ->
  Q (vread V (phys_id (bm V (active_metablock c) (lblock m))) (data_index m + off) n)
    (SstState d c) ->
  runs (sst_block_object_read_raw m off n) (SstState d c) Q.
Proof using All.
  intros HR Hc Hl Hv H1 H2 H3 H4 HQ. pose proof layout_bounds as (_ & _ & HB & HT).
  pose proof Hv as [[P1 P2] _].
  unfold sst_block_object_read_raw, sst_dblock_lo_to_phy.
  apply runs_bind, runs_bind, runs_try, runs_read_block_metadata with V; try done.
  apply runs_ret. unfold SST_BLOCK_INVALID_ID.
  destruct (Z.eqb_spec (phys_id (bm V (active_metablock c) (lblock m))) 0xFFFFFFFF); [lia|].
  rewrite u32_small by lia. apply runs_flash_read with V; try lia; done.
Qed.

Lemma runs_migrate_data d c V Q :
  DRep d V -> ctx_blocks c -> block_meta_ok (bm V (active_metablock c) 0) ->
  data_start (bm V (active_metablock c) 0) = ooff 10 ->
  (forall d', DRep d' (vcopy V (scratch_metablock c) (active_metablock c) (ooff 10)
                 (SST_BLOCK_SIZE - ooff 10 - free_size (bm V (active_metablock c) 0))) ->
    Q tt (SstState d' c)) ->
  runs sst_mblock_migrate_data_to_scratch (SstState d c) Q.
Proof using All.
  intros HR Hc Hv Hds HQ. pose proof layout_bounds as (H1 & H2 & H3 & _).
  pose proof Hv as (_ & B1 & B2 & B3 & _). rewrite Hds in B3.
  unfold sst_mblock_migrate_data_to_scratch, SST_LOGICAL_DBLOCK0.
  apply runs_bind, runs_gets, runs_bind, runs_gets, runs_bind. simpl.
  apply runs_read_block_metadata with V; try done; [lia|]. rewrite Hds.
  assert (0 <= ooff 10) by (unfold ooff; lia).
  rewrite u32_small by lia.
  apply runs_flash_move with V; try lia; try done;
    [by apply ctx_scratch_valid|by apply ctx_active_valid].
Qed.

(** The data block after an update: new content at [off], everything the old
    block used around it. *)
Definition updated_block V (X : Z) (b : sst_block_metadata) (bs : list byte) (off : Z) : blocks :=
  vcopy (vcopy (vwrite V X off bs) X (phys_id b) (data_start b) (off - data_start b))
    X (phys_id b) (off + zlen bs) (SST_BLOCK_SIZE - (off + zlen bs) - free_size b).

Definition data_scratch c (l : Z) : Z :=
  if l =? 0 then scratch_metablock c else scratch_idx (meta_block_header c).

Lemma runs_cur_data_scratch d c l Q :
  Q (data_scratch c l) (SstState d c) ->
  runs (sst_meta_cur_data_scratch l) (SstState d c) Q.
Proof using All.
  intros HQ. unfold sst_meta_cur_data_scratch, data_scratch, SST_LOGICAL_DBLOCK0 in *.
  destruct (Z.eqb_spec l 0); by apply runs_gets.
Qed.

Lemma runs_dblock_update_scratch d c V l b data off n Q :
  DRep d V -> valid_block (data_scratch c l) -> block_meta_ok b ->
  data_start b <= off -> 0 <= n -> n <= zlen data ->
  off + n <= SST_BLOCK_SIZE - free_size b ->
  (forall d', DRep d' (updated_block V (data_scratch c l) b (ztake n data) off) ->
    Q tt (SstState d' c)) ->
  runs (sst_dblock_update_scratch l b data off n) (SstState d c) Q.
Proof using All.
  intros HR HX (Hp & B1 & B2 & B3 & _) Hoff Hn Hlen Hend HQ.
  pose proof layout_bounds as (H1 & H2 & H3 & _).
  assert (zlen (ztake n data) = n) as Ht by (rewrite zlen_ztake; lia).
  unfold sst_dblock_update_scratch.
  apply runs_bind, runs_cur_data_scratch, runs_bind, runs_in_bounds; [by apply Z.leb_le|].
  apply runs_bind, runs_flash_write with V; try lia; try done. intros d1 HR1.
  unfold updated_block in HQ. rewrite Ht in HQ.
  rewrite (u32_small (off + n)), (u32_small (off - _)), (u32_small (SST_BLOCK_SIZE - _ - _)) by lia.
  apply runs_bind. destruct (Z.ltb_spec (data_start b) off).
  - eapply runs_flash_move; try exact HR1; try lia; try done. intros d2 HR2.
    eapply runs_flash_move; try exact HR2; try lia; done.
  - apply runs_ret. eapply runs_flash_move; try exact HR1; try lia; try done.
    intros d2 HR2. apply HQ. replace (off - data_start b) with 0 by lia.
    eapply DRep_ext; [exact HR2|]. intros b' o _ _. unfold vcopy at 1.
    rewrite !vmove_spec by lia. case_decide; rewrite vcopy_spec by lia;
      by rewrite decide_False by lia.
Qed.

(** ** Committing: header, swap, erase *)

(** The swap count skips 0xFF, the value of erased flash. *)
Definition next_swap_count (n : Z) : Z := if n + 1 =? 0xFF then 0 else n + 1.

Definition next_header (h : sst_metadata_block_header) : sst_metadata_block_header :=
  set_swap_count (next_swap_count (active_swap_count h)) h.

Definition header_ok (h : sst_metadata_block_header) : Prop :=
  zlen (crypto h) = 28 /\ is_u32 (scratch_idx h) /\ fs_version h = 1 /\
  0 <= active_swap_count h < 0xFF.

Lemma next_header_ok h : header_ok h -> header_ok (next_header h).
Proof using Type.
  intros (H1 & H2 & H3 & H4). unfold next_header, next_swap_count, header_ok; simpl.
  split_and!; try done; case_match; lia.
Qed.

Definition committed_header V (X : Z) (h : sst_metadata_block_header) : blocks :=
  vwrite (vwrite V X 0 (encode_header_prefix h)) X 33 [z2b (active_swap_count h)].

Lemma zlen_header_prefix h : zlen (crypto h) = 28 -> zlen (encode_header_prefix h) = 33.
Proof using Type.
  intros. unfold encode_header_prefix. rewrite !zlen_app, length_put32. simpl. lia.
Qed.

Lemma runs_write_scratch_meta_header d c V Q :
  DRep d V -> ctx_blocks c -> header_ok (meta_block_header c) ->
  (forall d', DRep d' (committed_header V (scratch_metablock c)
                         (next_header (meta_block_header c))) ->
    Q tt (SstState d' (set_header (next_header (meta_block_header c)) c))) ->
  runs sst_meta_write_scratch_meta_header (SstState d c) Q.
Proof using All.
  intros HR Hc Hh HQ. pose proof layout_bounds as (H1 & H2 & H3 & _). unfold ooff in H2.
  pose proof (ctx_scratch_valid c Hc) as HX.
  unfold sst_meta_write_scratch_meta_header.
  apply runs_bind, runs_gets, runs_bind, runs_modify, runs_bind, runs_modify.
  apply runs_bind, runs_gets. simpl.
  destruct Hh as (C1 & C2 & C3 & C4).
  rewrite u8_small by lia.
  unfold sst_meta_validate_swap_count, SST_FLASH_DEFAULT_VAL.
  assert (next_header (meta_block_header c) =
    (if active_swap_count (meta_block_header c) + 1 =? 255
     then set_swap_count 0 (meta_block_header c)
     else set_swap_count (active_swap_count (meta_block_header c) + 1) (meta_block_header c)))
    as E by (unfold next_header, next_swap_count; by case_match).
  destruct (_ =? 255) eqn:EQ; simpl; rewrite E in HQ;
  (apply runs_bind; eapply runs_flash_write; try exact HR;
    rewrite ?zlen_header_prefix by done; try lia; try done;
    intros d1 HR1; eapply runs_flash_write; try exact HR1; simpl; unfold OFFSETOF_active_swap_count;
    try lia; done).
Qed.

(** A successful update leaves the new metadata block active and both scratch
    blocks erased. *)
Definition finalized V c : blocks :=
  let V1 := verase (committed_header V (scratch_metablock c) (next_header (meta_block_header c)))
              (active_metablock c) in
  if decide (2 < SST_TOTAL_NUM_OF_BLOCKS)
  then verase V1 (scratch_idx (meta_block_header c)) else V1.

Definition finalized_ctx c : sst_asset_system_context :=
  {| meta_block_header := next_header (meta_block_header c);
     active_metablock := scratch_metablock c;
     scratch_metablock := active_metablock c |}.

Lemma runs_update_finalize d c V Q :
  DRep d V -> ctx_blocks c -> header_ok (meta_block_header c) ->
  (2 < SST_TOTAL_NUM_OF_BLOCKS -> valid_block (scratch_idx (meta_block_header c))) ->
  (forall d', DRep d' (finalized V c) -> Q tt (SstState d' (finalized_ctx c))) ->
  runs sst_meta_update_finalize (SstState d c) Q.
Proof using All.
  intros HR Hc Hh Hs HQ. unfold sst_meta_update_finalize.
  apply runs_bind, runs_write_scratch_meta_header with V; try done. intros d1 HR1.
  apply runs_bind, runs_modify. unfold sst_meta_erase_scratch_blocks.
  apply runs_bind, runs_gets, runs_bind. simpl.
  eapply runs_flash_erase; try exact HR1; [by apply ctx_active_valid|]. intros d2 HR2.
  unfold finalized in HQ. unfold with_ctx, set_metablocks; simpl.
  destruct (Z.ltb_spec 2 SST_TOTAL_NUM_OF_BLOCKS).
  - rewrite decide_True in HQ by done.
    apply runs_bind, runs_cur_data_scratch. unfold data_scratch; simpl.
    eapply runs_flash_erase; try exact HR2; [by apply Hs|done].
  - rewrite decide_False in HQ by lia. by apply runs_ret, HQ.
Qed.
End spec.

#[global] Arguments bm : simpl never.
#[global] Arguments om : simpl never.
#[global] Arguments hdr : simpl never.

(** ** Updates as preparation and commit

    The part of an operation before the commit is named here, and each operation is
    shown to be that part followed by the commit. *)

Section split.
  Context {D : Type} `{!ARM_DRIVER_FLASH D, !sst_layout}.
  Local Abbreviation SM := (@SM D).

Definition create_pre (object_uuid size : Z) : SM unit :=
  r <- try (sst_meta_reserve_object uninit_assetmeta size) ;;
  object_index <- sst_get_free_object_index ;;
  match r with
  | None => fail PSA_SST_ERR_STORAGE_SYSTEM_FULL
  | Some (object_meta, block_meta) =>
      if object_index =? SST_METADATA_INVALID_INDEX
      then fail PSA_SST_ERR_STORAGE_SYSTEM_FULL
      else
        let object_meta := {| lblock := lblock object_meta;
                              data_index := data_index object_meta;
                              cur_size := 0; max_size := size;
                              unique_id := object_uuid |} in
        or_return (sst_mblock_update_scratch_object_meta object_index object_meta)
          PSA_SST_ERR_SYSTEM_ERROR ;;
        scratch <- sst_meta_cur_meta_scratch ;;
        let block_meta :=
          if lblock object_meta =? SST_LOGICAL_DBLOCK0
          then set_phys_id scratch block_meta else block_meta in
        or_return (sst_mblock_update_scratch_block_meta (lblock object_meta) block_meta)
          PSA_SST_ERR_SYSTEM_ERROR ;;
        or_return (sst_mblock_copy_remaining_object_meta object_index)
          PSA_SST_ERR_SYSTEM_ERROR ;;
        or_return (sst_mblock_copy_remaining_block_meta (lblock object_meta))
          PSA_SST_ERR_SYSTEM_ERROR ;;
        or_return sst_mblock_migrate_data_to_scratch PSA_SST_ERR_SYSTEM_ERROR
  end.

Definition write_pre (object_uuid : Z) (data : list byte) (offset size : Z) : SM unit :=
  object_index <- or_return (sst_core_get_object_idx object_uuid)
                    PSA_SST_ERR_ASSET_NOT_FOUND ;;
  object_meta <- or_return (sst_meta_read_object_meta object_index)
                   PSA_SST_ERR_ASSET_NOT_FOUND ;;
  block_meta <- or_return (sst_meta_read_block_metadata (lblock object_meta))
                  PSA_SST_ERR_SYSTEM_ERROR ;;
  guard (negb (cur_size object_meta <? offset)) PSA_SST_ERR_PARAM_ERROR ;;
  pb <- prepare_plain_text object_meta data offset size ;;
  let '(prepared_buf, object_meta) := pb in
  let align_flash_nbr_bytes := sst_get_aligned_flash_bytes (cur_size object_meta) in
  or_return (sst_dblock_update_scratch (lblock object_meta) block_meta prepared_buf
               (data_index object_meta) align_flash_nbr_bytes)
    PSA_SST_ERR_SYSTEM_ERROR ;;
  let cur_phys_block := phys_id block_meta in
  scratch <- sst_meta_cur_data_scratch (lblock object_meta) ;;
  let block_meta := set_phys_id scratch block_meta in
  sst_meta_set_data_scratch cur_phys_block (lblock object_meta) ;;
  or_return (sst_mblock_update_scratch_block_meta (lblock object_meta) block_meta)
    PSA_SST_ERR_SYSTEM_ERROR ;;
  or_return (sst_mblock_update_scratch_object_meta object_index object_meta)
    PSA_SST_ERR_SYSTEM_ERROR ;;
  or_return (sst_mblock_copy_remaining_block_meta (lblock object_meta))
    PSA_SST_ERR_SYSTEM_ERROR ;;
  or_return (sst_mblock_copy_remaining_object_meta object_index)
    PSA_SST_ERR_SYSTEM_ERROR ;;
  (if negb (lblock object_meta =? SST_LOGICAL_DBLOCK0)
   then or_return sst_mblock_migrate_data_to_scratch PSA_SST_ERR_SYSTEM_ERROR
   else ret tt).

Definition delete_pre (object_uuid : Z) : SM unit :=
  del_obj_index <- or_return (sst_core_get_object_idx object_uuid)
                     PSA_SST_ERR_ASSET_NOT_FOUND ;;
  object_meta <- sst_meta_read_object_meta del_obj_index ;;
  match sst_utils_validate_uuid (unique_id object_meta) with
  | Some _ => fail PSA_SST_ERR_ASSET_NOT_FOUND
  | None =>
      let del_obj_lblock := lblock object_meta in
      let del_obj_data_index := data_index object_meta in
      let del_obj_max_size := sst_get_aligned_flash_bytes (max_size object_meta) in
      let object_meta := {| lblock := 0; data_index := data_index object_meta;
                            cur_size := 0; max_size := 0;
                            unique_id := SST_INVALID_UUID |} in
      ignore (sst_mblock_update_scratch_object_meta del_obj_index object_meta) ;;
      mv <- delete_object_loop (Z.to_nat SST_NUM_ASSETS) 0 del_obj_index del_obj_lblock
              del_obj_data_index del_obj_max_size SST_BLOCK_SIZE 0 ;;
      let '(src_offset, nbr_bytes_to_move) := mv in
      sst_compact_dblock del_obj_lblock del_obj_max_size src_offset del_obj_data_index
        nbr_bytes_to_move
  end.

Ltac split_bind :=
  repeat (rewrite <- bind_assoc; apply bind_congr; intros ? ?).

Lemma create_split u size s :
  sst_core_object_create u size s =
    bind (create_pre u size)
      (fun _ => or_return sst_meta_update_finalize PSA_SST_ERR_SYSTEM_ERROR) s.
Proof using Type.
  unfold sst_core_object_create, create_pre.
  rewrite <- bind_assoc; apply bind_congr; intros r s1.
  rewrite <- bind_assoc; apply bind_congr; intros i s2.
  destruct r as [[m b]|]; [|apply bind_fail]. destruct (_ =? _); [apply bind_fail|].
  by split_bind.
Qed.

Lemma write_split u data off n s :
  sst_core_object_write u data off n s =
    bind (write_pre u data off n) (fun _ => sst_meta_update_finalize) s.
Proof using Type.
  unfold sst_core_object_write, write_pre.
  do 4 (rewrite <- bind_assoc; apply bind_congr; intros ? ?).
  rewrite <- bind_assoc; apply bind_congr; intros [buf m] s1. by split_bind.
Qed.

Lemma delete_split u s :
  sst_core_object_delete u s =
    bind (delete_pre u) (fun _ => ignore sst_meta_update_finalize) s.
Proof using Type.
  unfold sst_core_object_delete, delete_pre.
  do 2 (rewrite <- bind_assoc; apply bind_congr; intros ? ?).
  destruct (sst_utils_validate_uuid _); [apply bind_fail|].
  rewrite <- bind_assoc; apply bind_congr; intros ? ?.
  by rewrite <- bind_assoc; apply bind_congr; intros [] ?.
Qed.
End split.
