(* ===== verification/SstTable.v ===== *)
(** * Secure storage core: the metadata tables

    The invariant of the object table and the block table of the active
    metadata block, as a property of the decoded entries: the objects of a
    logical block tile its data area in some order, entries that are not in
    use never point inside an object, and the physical blocks of the logical
    blocks are distinct.  Creating, writing and deleting an object preserve
    it. *)

From stdpp Require Import sets.
From S2P Require Import Prelude FlashDriver SstDefs SstFlash SstCore SstCoreSpec.

Section table.
  Context {D : Type} `{!ARM_DRIVER_FLASH D, !FlashDevice D, !sst_layout, !sst_area_ok D,
                       !sst_build_ok}.

Abbreviation otable := (Z -> sst_assetmeta).
Abbreviation btable := (Z -> sst_block_metadata).
Implicit Types (T : otable) (B : btable) (lay : Z -> list Z).

(** Space an object takes in its block. *)
Definition space (m : sst_assetmeta) : Z := sst_get_aligned_flash_bytes (max_size m).

(** The objects [l] follow each other from offset [pos] up to offset [e]. *)
Fixpoint chain T (pos : Z) (l : list Z) (e : Z) : Prop :=
  match l with
  | [] => pos = e
  | i :: l => data_index (T i) = pos /\ chain T (pos + space (T i)) l e
  end.

Definition sized T (l : list Z) : Prop :=
  forall i, i ∈ l -> 0 < max_size (T i) <= SST_MAX_OBJECT_SIZE.

Lemma space_bounds m :
  0 <= max_size m <= SST_MAX_OBJECT_SIZE ->
  max_size m <= space m < max_size m + SST_FLASH_PROGRAM_UNIT.
Proof using All.
  intros. unfold space. change SST_MAX_OBJECT_SIZE with 304 in *.
  destruct (aligned_bytes (max_size m)); lia.
Qed.

Lemma chain_ext T T' pos l e :
  (forall i, i ∈ l -> T i = T' i) -> chain T pos l e -> chain T' pos l e.
Proof using All.
  revert pos. induction l as [|i l IH]; intros pos Heq; simpl; [done|].
  rewrite (Heq i) by set_solver. intros [? ?]. split; [done|].
  apply IH; [set_solver|done].
Qed.

Lemma chain_app T pos l1 l2 e :
  chain T pos (l1 ++ l2) e <-> exists mid, chain T pos l1 mid /\ chain T mid l2 e.
Proof using All.
  revert pos. induction l1 as [|i l1 IH]; intros pos; simpl.
  - split; [intros; by exists pos|intros (m & -> & ?); done].
  - rewrite IH. split; [intros (? & m & ? & ?)|intros (m & [? ?] & ?)]; eauto 10.
Qed.

Lemma chain_le T pos l e : sized T l -> chain T pos l e -> pos <= e.
Proof using All.
  revert pos. induction l as [|i l IH]; intros pos Hs; simpl; [lia|]. intros [_ Hc].
  apply IH in Hc; [|intros j ?; apply Hs; set_solver].
  pose proof (space_bounds (T i)). pose proof (Hs i ltac:(set_solver)). lia.
Qed.

Lemma chain_member T pos l e i :
  sized T l -> chain T pos l e -> i ∈ l ->
  pos <= data_index (T i) /\ data_index (T i) + space (T i) <= e.
Proof using All.
  revert pos. induction l as [|j l IH]; intros pos Hs Hc Hi; [set_solver|].
  assert (sized T l) as Hs' by (intros k ?; apply Hs; set_solver).
  pose proof (space_bounds (T j)). pose proof (Hs j ltac:(set_solver)).
  destruct Hc as [Hj Hc]. apply elem_of_cons in Hi as [->|Hi].
  - split; [lia|]. apply chain_le in Hc; [lia|done].
  - destruct (IH _ Hs' Hc Hi). lia.
Qed.

(** Two objects of a chain do not overlap. *)
Lemma chain_disjoint T pos l e i j :
  sized T l -> chain T pos l e -> i ∈ l -> j ∈ l -> i <> j ->
  data_index (T i) + space (T i) <= data_index (T j) \/
  data_index (T j) + space (T j) <= data_index (T i).
Proof using All.
  revert pos. induction l as [|k l IH]; intros pos Hs Hc Hi Hj Hne; [set_solver|].
  assert (sized T l) as Hs' by (intros h ?; apply Hs; set_solver).
  destruct Hc as [Hk Hc].
  apply elem_of_cons in Hi as [->|Hi]; apply elem_of_cons in Hj as [->|Hj]; [done|..].
  - left. destruct (chain_member _ _ _ _ j Hs' Hc Hj). lia.
  - right. destruct (chain_member _ _ _ _ i Hs' Hc Hi). lia.
  - by apply (IH _ Hs' Hc).
Qed.

(** Moving every object of a chain by [k] bytes moves the chain. *)
Lemma chain_shift T T' pos l e k :
  (forall i, i ∈ l -> data_index (T' i) = data_index (T i) - k /\
                      max_size (T' i) = max_size (T i)) ->
  chain T pos l e -> chain T' (pos - k) l (e - k).
Proof using All.
  revert pos. induction l as [|i l IH]; intros pos Heq; simpl; [lia|]. intros [Hi Hc].
  destruct (Heq i ltac:(set_solver)) as [E1 E2]. split; [lia|].
  unfold space in *. rewrite E2. replace (pos - k + _) with
    (pos + sst_get_aligned_flash_bytes (max_size (T i)) - k) by lia.
  apply IH; [set_solver|done].
Qed.

Lemma chain_same T T' pos l e :
  (forall i, i ∈ l -> data_index (T' i) = data_index (T i) /\
                      max_size (T' i) = max_size (T i)) ->
  chain T pos l e -> chain T' pos l e.
Proof using All.
  intros Heq Hc. replace pos with (pos - 0) by lia. replace e with (e - 0) by lia.
  apply (chain_shift T); [|done]. intros i Hi. destruct (Heq i Hi). split; [lia|done].
Qed.

(** The bytes a list of objects takes. *)
Fixpoint total T (l : list Z) : Z :=
  match l with [] => 0 | i :: l => space (T i) + total T l end.

Lemma chain_total T pos l e : chain T pos l e -> total T l = e - pos.
Proof using All.
  revert pos. induction l as [|i l IH]; intros pos; simpl; [lia|]. intros [_ Hc].
  rewrite (IH _ Hc). lia.
Qed.

Lemma total_perm T l k : l ≡ₚ k -> total T l = total T k.
Proof using All. induction 1; simpl; lia. Qed.

(** ** The object table

    [dstart l] is where the data area of logical block [l] starts, [en l] where
    its used part ends, and [lay l] the order of its objects. *)
Definition dstart (l : Z) : Z := if decide (l = 0) then ooff 10 else 0.

Definition live T (i : Z) : Prop := 0 <= i < 10 /\ unique_id (T i) <> 0.

(** An entry that is not in use: nothing of it counts but its data index,
    which the delete loop still looks at. *)
Definition stale T (l0 : list Z) (en0 i : Z) : Prop :=
  lblock (T i) = 0 /\ max_size (T i) = 0 /\ data_index (T i) <= en0 /\
  forall j, j ∈ l0 -> ~ (data_index (T j) < data_index (T i) < data_index (T j) + space (T j)).

Record oinv T lay (en : Z -> Z) : Prop := {
  o_u32 : forall i, 0 <= i < 10 -> assetmeta_u32 (T i);
  o_size : forall i, live T i ->
    0 <= lblock (T i) < SST_NUM_ACTIVE_DBLOCKS /\
    0 < max_size (T i) <= SST_MAX_OBJECT_SIZE /\ cur_size (T i) <= max_size (T i);
  o_uniq : forall i j, live T i -> live T j -> unique_id (T i) = unique_id (T j) -> i = j;
  o_nodup : forall l, 0 <= l < SST_NUM_ACTIVE_DBLOCKS -> NoDup (lay l);
  o_mem : forall l i, 0 <= l < SST_NUM_ACTIVE_DBLOCKS ->
    i ∈ lay l <-> live T i /\ lblock (T i) = l;
  o_chain : forall l, 0 <= l < SST_NUM_ACTIVE_DBLOCKS -> chain T (dstart l) (lay l) (en l);
  o_free : forall i, 0 <= i < 10 -> unique_id (T i) = 0 -> stale T (lay 0) (en 0) i;
}.

(** ** The block table: [si] is the scratch data block *)

Record binv B (si : Z) : Prop := {
  b_ok : forall l, 0 <= l < SST_NUM_ACTIVE_DBLOCKS -> block_meta_ok (B l);
  b_zero : phys_id (B 0) < 2;
  b_dedicated : forall l, 1 <= l < SST_NUM_ACTIVE_DBLOCKS -> 2 <= phys_id (B l);
  b_distinct : forall l l', 1 <= l < SST_NUM_ACTIVE_DBLOCKS ->
    1 <= l' < SST_NUM_ACTIVE_DBLOCKS -> phys_id (B l) = phys_id (B l') -> l = l';
  b_scratch : forall l, 1 <= l < SST_NUM_ACTIVE_DBLOCKS -> phys_id (B l) <> si;
  b_scratch_range : 2 < SST_TOTAL_NUM_OF_BLOCKS -> 2 <= si < SST_TOTAL_NUM_OF_BLOCKS;
}.

Definition ends B (l : Z) : Z := SST_BLOCK_SIZE - free_size (B l).

(** The tables of metadata block [A]. *)
Record tinv T B lay (A si : Z) : Prop := {
  t_obj : oinv T lay (ends B);
  t_blk : binv B si;
  t_home : lay 0 <> [] -> phys_id (B 0) = A;
}.

Section object_facts.
  Context T lay en (I : oinv T lay en).

Lemma oinv_member i : live T i -> i ∈ lay (lblock (T i)).
Proof using All.
  intros Hi. apply (o_mem _ _ _ I); [|done]. by apply (o_size _ _ _ I).
Qed.

Lemma oinv_sized l : 0 <= l < SST_NUM_ACTIVE_DBLOCKS -> sized T (lay l).
Proof using All.
  intros Hl i [Hi _]%(o_mem _ _ _ I); [|done]. by apply (o_size _ _ _ I).
Qed.

(** A live object lies in the used part of its block. *)
Lemma oinv_placed i :
  live T i ->
  dstart (lblock (T i)) <= data_index (T i) /\
  data_index (T i) + space (T i) <= en (lblock (T i)).
Proof using All.
  intros Hi. destruct (o_size _ _ _ I i Hi) as [Hl _].
  eapply chain_member; [by apply oinv_sized|by apply (o_chain _ _ _ I)|by apply oinv_member].
Qed.

Lemma oinv_disjoint i j :
  live T i -> live T j -> i <> j -> lblock (T i) = lblock (T j) ->
  data_index (T i) + space (T i) <= data_index (T j) \/
  data_index (T j) + space (T j) <= data_index (T i).
Proof using All.
  intros Hi Hj Hne Hl. destruct (o_size _ _ _ I i Hi) as [Hb _].
  eapply chain_disjoint; [by apply oinv_sized|by apply (o_chain _ _ _ I)
    |by apply oinv_member| |done].
  rewrite Hl. by apply oinv_member.
Qed.

Lemma oinv_lblock i : 0 <= i < 10 -> 0 <= lblock (T i) < SST_NUM_ACTIVE_DBLOCKS.
Proof using All.
  intros Hi. destruct (decide (unique_id (T i) = 0)) as [E|E].
  - destruct (o_free _ _ _ I i Hi E) as [-> _]. pose proof layout_bounds. lia.
  - by apply (o_size _ _ _ I).
Qed.

(** Every entry validates. *)
Lemma oinv_object_meta_ok i :
  (forall l, 0 <= l < SST_NUM_ACTIVE_DBLOCKS -> en l <= SST_BLOCK_SIZE) ->
  0 <= i < 10 -> object_meta_ok (T i).
Proof using All.
  intros He Hi. split; [by apply oinv_lblock|]. intros Hu.
  destruct (o_size _ _ _ I i (conj Hi Hu)) as (Hl & S1 & S2).
  destruct (oinv_placed i (conj Hi Hu)) as [P1 P2]. specialize (He _ Hl).
  pose proof (space_bounds (T i)). unfold dstart in P1. split_and!; try lia.
  intros E. by rewrite E, decide_True in P1.
Qed.

Lemma oinv_not_live i l : 0 <= l < SST_NUM_ACTIVE_DBLOCKS -> unique_id (T i) = 0 -> i ∉ lay l.
Proof using All. intros Hl Hu [[_ ?] _]%(o_mem _ _ _ I); done. Qed.
End object_facts.

Lemma oinv_ends T lay en en' :
  oinv T lay en -> (forall l, 0 <= l < SST_NUM_ACTIVE_DBLOCKS -> en l = en' l) ->
  oinv T lay en'.
Proof using All.
  pose proof layout_bounds as (HN & _).
  intros [H1 H2 H3 H4 H5 H6 H7] He. constructor; try done.
  - intros l Hl. rewrite <- He by done. auto.
  - intros i. rewrite <- He by lia. auto.
Qed.

(** ** Committing a block table

    Entry [l] becomes [b] and entry 0 moves to the new metadata block [X]. *)
Definition commit_B B (X l : Z) (b : sst_block_metadata) : btable :=
  upd (upd B 0 (set_phys_id X (B 0))) l b.

Lemma binv_data_start B si l :
  binv B si -> 0 <= l < SST_NUM_ACTIVE_DBLOCKS -> data_start (B l) = dstart l.
Proof using All.
  intros I Hl. destruct (b_ok _ _ I l Hl) as (_ & _ & _ & _ & ->).
  pose proof (b_zero _ _ I). pose proof (b_dedicated _ _ I l). unfold dstart.
  repeat case_decide; subst; done || lia.
Qed.

Lemma binv_ends B si l :
  binv B si -> 0 <= l < SST_NUM_ACTIVE_DBLOCKS ->
  dstart l <= ends B l <= SST_BLOCK_SIZE /\ 0 <= dstart l.
Proof using All.
  intros I Hl. pose proof (binv_data_start _ _ _ I Hl) as <-.
  destruct (b_ok _ _ I l Hl) as (_ & ? & ? & ? & _). unfold ends. lia.
Qed.

(** Block 0 moves to [X]; another block stays where it is or trades places with
    the scratch block. *)
Definition moved_to B (X si l : Z) (b : sst_block_metadata) (si' : Z) : Prop :=
  (l = 0 /\ phys_id b = X /\ si' = si) \/
  (l <> 0 /\ phys_id b = phys_id (B l) /\ si' = si) \/
  (l <> 0 /\ phys_id b = si /\ si' = phys_id (B l)).


Section commit.
  Context B si X l b si' (I : binv B si) (HX : 0 <= X < 2)
    (Hl : 0 <= l < SST_NUM_ACTIVE_DBLOCKS) (Hm : moved_to B X si l b si').

Lemma binv_phys k :
  1 <= k < SST_NUM_ACTIVE_DBLOCKS -> 2 <= phys_id (B k) < SST_TOTAL_NUM_OF_BLOCKS.
Proof using All.
  intros Hk. pose proof (b_dedicated _ _ I k Hk). destruct (b_ok _ _ I k) as ([? ?] & _); lia.
Qed.

(** The entry that is written validates. *)
Lemma moved_to_ok :
  data_start b = dstart l -> 0 <= free_size b -> dstart l + free_size b <= SST_BLOCK_SIZE ->
  block_meta_ok b /\ (l = 0 -> phys_id b < 2) /\ (l <> 0 -> 2 <= phys_id b).
Proof using All.
  intros Hd Hf Hs. pose proof layout_bounds as (HN & HM & HB & HT). pose proof active_dblocks.
  pose proof (b_scratch_range _ _ I). assert (0 <= ooff 10) by (unfold ooff; lia).
  unfold block_meta_ok, valid_block, moved_to, dstart in *. pose proof (binv_phys l).
  destruct (decide (l = 0)), (decide (phys_id b < 2)); lia.
Qed.

(** No other dedicated block is in its place, nor in that of the new scratch. *)
Lemma moved_to_distinct k :
  1 <= k < SST_NUM_ACTIVE_DBLOCKS -> k <> l ->
  phys_id (B k) <> phys_id b /\ phys_id (B k) <> si'.
Proof using All.
  intros Hk Hne. pose proof (b_scratch _ _ I k Hk). pose proof (binv_phys k Hk).
  pose proof (b_distinct _ _ I k l). destruct Hm as [?|[?|?]]; split; lia.
Qed.

Lemma commit_B_eq : commit_B B X l b l = b.
Proof using Type. apply upd_eq. Qed.

Lemma commit_B_ne k : k <> 0 -> k <> l -> commit_B B X l b k = B k.
Proof using Type. intros. unfold commit_B. by rewrite !upd_ne by lia. Qed.

Lemma commit_B_zero : l <> 0 -> commit_B B X l b 0 = set_phys_id X (B 0).
Proof using Type. intros. unfold commit_B. by rewrite upd_ne, upd_eq by done. Qed.

Lemma moved_zero_ok : block_meta_ok (set_phys_id X (B 0)).
Proof using All.
  pose proof layout_bounds as (HN & _ & _ & HT).
  destruct (b_ok _ _ I 0) as (_ & ? & ? & ? & _); [lia|].
  pose proof (binv_data_start _ _ 0 I ltac:(lia)) as E. unfold block_meta_ok, valid_block; simpl.
  unfold dstart in E. rewrite E in *. rewrite decide_True in * by done.
  rewrite decide_True by lia. lia.
Qed.

Lemma binv_commit :
  data_start b = dstart l -> 0 <= free_size b -> dstart l + free_size b <= SST_BLOCK_SIZE ->
  binv (commit_B B X l b) si'.
Proof using All.
  intros Hd Hf Hs. destruct (moved_to_ok Hd Hf Hs) as (Bok & Bz & Bd). constructor.
  - intros k Hk. destruct (decide (k = l)) as [->|]; [by rewrite commit_B_eq|].
    destruct (decide (k = 0)) as [->|]; [rewrite commit_B_zero by done; apply moved_zero_ok|].
    rewrite commit_B_ne by lia. by apply (b_ok _ _ I).
  - destruct (decide (l = 0)) as [E|]; [rewrite <- E at 1; rewrite commit_B_eq; by apply Bz|].
    rewrite commit_B_zero by done. simpl. lia.
  - intros k Hk. destruct (decide (k = l)) as [->|]; [rewrite commit_B_eq; apply Bd; lia|].
    rewrite commit_B_ne by lia. by apply binv_phys.
  - intros k k' Hk Hk'. destruct (decide (k = l)) as [->|], (decide (k' = l)) as [->|];
      rewrite ?commit_B_eq, ?commit_B_ne by lia; try done.
    + intros E. by destruct (moved_to_distinct k').
    + intros E. by destruct (moved_to_distinct k).
    + by apply (b_distinct _ _ I).
  - intros k Hk. destruct (decide (k = l)) as [->|].
    + rewrite commit_B_eq. pose proof (b_scratch _ _ I l Hk). unfold moved_to in Hm. lia.
    + rewrite commit_B_ne by lia. by apply moved_to_distinct.
  - pose proof (binv_phys l). pose proof (b_scratch_range _ _ I). unfold moved_to in Hm.
    pose proof active_dblocks. lia.
Qed.
End commit.

(** ** Creating an object: a new entry at the end of block [l] *)

Definition created (l di size u : Z) : sst_assetmeta :=
  {| lblock := l; data_index := di; cur_size := 0; max_size := size; unique_id := u |}.

Section create.
  Context T lay en (i l size u : Z) (I : oinv T lay en).
  Context (Hi : 0 <= i < 10) (Hfree : unique_id (T i) = 0)
    (Hl : 0 <= l < SST_NUM_ACTIVE_DBLOCKS) (Hu32 : is_u32 u) (Hu : u <> 0)
    (Hfresh : forall j, live T j -> unique_id (T j) <> u)
    (Hsz : 0 < size <= SST_MAX_OBJECT_SIZE) (Hen : 0 <= en l < 2 ^ 32).
  Local Abbreviation T' := (upd T i (created l (en l) size u)).

Lemma create_live j : live T' j <-> j = i \/ live T j.
Proof using All.
  unfold live. destruct (decide (j = i)) as [->|].
  - rewrite upd_eq; simpl. tauto.
  - rewrite upd_ne by done. tauto.
Qed.

Lemma create_old k j : 0 <= k < SST_NUM_ACTIVE_DBLOCKS -> j ∈ lay k -> T' j = T j.
Proof using All.
  intros Hk Hj. apply upd_ne. intros ->. by apply (oinv_not_live _ _ _ I i k Hk Hfree).
Qed.

Lemma create_mem k j : 0 <= k < SST_NUM_ACTIVE_DBLOCKS ->
  j ∈ upd lay l (lay l ++ [i]) k <-> live T' j /\ lblock (T' j) = k.
Proof using All.
  intros Hk. rewrite create_live. pose proof (oinv_not_live _ _ _ I i k Hk Hfree) as Hn.
  destruct (decide (k = l)) as [->|Hkl].
  - rewrite upd_eq, elem_of_app, list_elem_of_singleton, (o_mem _ _ _ I) by done.
    destruct (decide (j = i)) as [->|]; [rewrite upd_eq; simpl; tauto|].
    rewrite upd_ne by done. tauto.
  - rewrite upd_ne by done. destruct (decide (j = i)) as [->|].
    + rewrite upd_eq; simpl. split; [done|]. intros [_ ?]. congruence.
    + rewrite upd_ne, (o_mem _ _ _ I) by done. tauto.
Qed.

Lemma create_chain k : 0 <= k < SST_NUM_ACTIVE_DBLOCKS ->
  chain T' (dstart k) (upd lay l (lay l ++ [i]) k)
    (upd en l (en l + sst_get_aligned_flash_bytes size) k).
Proof using All.
  intros Hk. assert (chain T' (dstart k) (lay k) (en k)) as Hc.
  { eapply chain_ext; [|by apply (o_chain _ _ _ I)]. intros j Hj. symmetry.
    by apply (create_old k). }
  destruct (decide (k = l)) as [->|]; [|by rewrite !upd_ne by done].
  rewrite !upd_eq. apply chain_app. exists (en l). split; [done|].
  simpl. by rewrite upd_eq.
Qed.

Lemma oinv_create :
  oinv T' (upd lay l (lay l ++ [i])) (upd en l (en l + sst_get_aligned_flash_bytes size)).
Proof using All.
  pose proof layout_bounds as (HN & HM & HB & HT). change SST_MAX_OBJECT_SIZE with 304 in Hsz.
  pose proof (aligned_bytes size) as [Hal _]; [lia|lia|].
  constructor.
  - intros j Hj. destruct (decide (j = i)) as [->|].
    + rewrite upd_eq. unfold assetmeta_u32, is_u32 in *; simpl. pose proof active_dblocks. lia.
    + rewrite upd_ne by done. by apply (o_u32 _ _ _ I).
  - intros j Hj%create_live. destruct (decide (j = i)) as [->|].
    + rewrite upd_eq; simpl. change SST_MAX_OBJECT_SIZE with 304. lia.
    + rewrite upd_ne by done. apply (o_size _ _ _ I). tauto.
  - intros j k Hj%create_live Hk%create_live.
    destruct (decide (j = i)) as [->|], (decide (k = i)) as [->|];
      rewrite ?upd_eq, ?upd_ne by done; simpl; [done|..]; intros E.
    + by destruct (Hfresh k); [tauto|].
    + by destruct (Hfresh j); [tauto|].
    + apply (o_uniq _ _ _ I); tauto.
  - intros k Hk. pose proof (o_nodup _ _ _ I k Hk).
    destruct (decide (k = l)) as [->|]; [|by rewrite upd_ne by done].
    rewrite upd_eq. apply list.NoDup_app. split_and!; [done| |apply NoDup_singleton].
    intros j Hj ->%list_elem_of_singleton. by apply (oinv_not_live _ _ _ I i l).
  - intros k j. apply create_mem.
  - apply create_chain.
  - intros j Hj Hfj. destruct (decide (j = i)) as [->|Hji]; [by rewrite upd_eq in Hfj|].
    rewrite upd_ne in Hfj by done. destruct (o_free _ _ _ I j Hj Hfj) as (F1 & F2 & F3 & F4).
    unfold stale. rewrite upd_ne by done. split_and!; [done..| |].
    + destruct (decide (0 = l)) as [<-|]; [rewrite upd_eq; lia|by rewrite upd_ne].
    + intros k Hk. destruct (decide (k = i)) as [->|Hki].
      * rewrite upd_eq; simpl. apply create_mem in Hk as [_ E]; [|lia].
        rewrite upd_eq in E; simpl in E. subst. lia.
      * rewrite upd_ne by done. apply F4. apply create_mem in Hk as [Hk E]; [|lia].
        rewrite upd_ne in E by done. apply create_live in Hk as [|Hk]; [done|].
        apply (o_mem _ _ _ I); [lia|done].
Qed.
End create.

(** ** Writing: the current size of entry [i] changes *)

Lemma oinv_write T lay en i n :
  oinv T lay en -> live T i -> 0 <= n <= max_size (T i) ->
  oinv (upd T i (set_cur_size n (T i))) lay en.
Proof using All.
  intros I Hi Hn. set (T' := upd T i (set_cur_size n (T i))).
  assert (forall j, lblock (T' j) = lblock (T j) /\ data_index (T' j) = data_index (T j) /\
    max_size (T' j) = max_size (T j) /\ unique_id (T' j) = unique_id (T j)) as Hs.
  { intros j. unfold T', upd. case_decide; subst; done. }
  assert (forall j, live T' j <-> live T j) as Hlive.
  { intros j. unfold live. destruct (Hs j) as (_ & _ & _ & ->). done. }
  destruct (o_size _ _ _ I i Hi) as (Z1 & Z2 & Z3). change SST_MAX_OBJECT_SIZE with 304 in *.
  constructor.
  - intros j Hj. unfold T'. destruct (decide (j = i)) as [->|]; rewrite ?upd_eq, ?upd_ne by done.
    + destruct (o_u32 _ _ _ I i Hj) as (? & ? & ? & ? & ?). unfold assetmeta_u32, is_u32 in *; simpl. lia.
    + by apply (o_u32 _ _ _ I).
  - intros j Hj%Hlive. unfold T'. destruct (decide (j = i)) as [->|]; rewrite ?upd_eq, ?upd_ne by done.
    + simpl. change SST_MAX_OBJECT_SIZE with 304 in *. lia.
    + by apply (o_size _ _ _ I).
  - intros j k Hj%Hlive Hk%Hlive. destruct (Hs j) as (_ & _ & _ & ->), (Hs k) as (_ & _ & _ & ->).
    by apply (o_uniq _ _ _ I).
  - apply (o_nodup _ _ _ I).
  - intros l j Hl. rewrite Hlive. destruct (Hs j) as (-> & _). by apply (o_mem _ _ _ I).
  - intros l Hl. eapply chain_same; [|by apply (o_chain _ _ _ I)]. intros j _. by destruct (Hs j) as (_ & -> & -> & _).
  - intros j Hj. destruct (Hs j) as (E1 & E2 & E3 & E4). rewrite E4. intros Hu.
    destruct (o_free _ _ _ I j Hj Hu) as (? & ? & ? & F). unfold stale.
    rewrite E1, E2, E3. split_and!; try done. intros k Hk. unfold space.
    destruct (Hs k) as (_ & -> & -> & _). by apply F.
Qed.

(** ** Deleting an object of logical block 0

    Objects behind the deleted one, and stale entries that point behind it,
    move down by the space it took. *)

Definition behind T (di j : Z) : Prop := lblock (T j) = 0 /\ di < data_index (T j).

#[global] Instance behind_dec T di j : Decision (behind T di j).
Proof using Type. unfold behind. apply _. Defined.

Definition deleted_T T (i : Z) : otable := fun j =>
  if decide (j = i)
  then {| lblock := 0; data_index := data_index (T i); cur_size := 0; max_size := 0;
          unique_id := 0 |}
  else if decide (behind T (data_index (T i)) j)
  then set_data_index (data_index (T j) - space (T i)) (T j)
  else T j.

Section delete.
  Context T lay en (i : Z) (l1 l2 : list Z) (I : oinv T lay en).
  Context (Hi : live T i) (Hz : lblock (T i) = 0) (Hlay : lay 0 = l1 ++ i :: l2)
    (Hen0 : en 0 <= SST_BLOCK_SIZE).
  Local Abbreviation T' := (deleted_T T i).
  Local Abbreviation di := (data_index (T i)).

Lemma zero_block : 0 <= 0 < SST_NUM_ACTIVE_DBLOCKS.
Proof using All. pose proof layout_bounds. lia. Qed.

Lemma delete_sized : sized T (l1 ++ i :: l2).
Proof using All. rewrite <- Hlay. by apply (oinv_sized _ _ _ I), zero_block. Qed.

Lemma delete_chains :
  chain T (dstart 0) l1 di /\ chain T (di + space (T i)) l2 (en 0).
Proof using All.
  pose proof (o_chain _ _ _ I 0 zero_block) as Hc. rewrite Hlay in Hc.
  apply chain_app in Hc as (mid & C1 & C2 & C3). by subst mid.
Qed.

Lemma delete_space : 0 < space (T i).
Proof using All.
  destruct (o_size _ _ _ I i Hi) as (_ & ? & _). pose proof (space_bounds (T i)). lia.
Qed.

Lemma delete_before j : j ∈ l1 -> data_index (T j) + space (T j) <= di /\ 0 < space (T j).
Proof using All.
  intros Hj. destruct delete_chains as [C _]. pose proof delete_sized as Hs.
  assert (sized T l1) as Hs1 by (intros k ?; apply Hs; set_solver).
  pose proof (chain_member _ _ _ _ j Hs1 C Hj). pose proof (Hs1 j Hj).
  pose proof (space_bounds (T j)). lia.
Qed.

Lemma delete_after j : j ∈ l2 -> di + space (T i) <= data_index (T j).
Proof using All.
  intros Hj. destruct delete_chains as [_ C]. pose proof delete_sized as Hs.
  assert (sized T l2) as Hs2 by (intros k ?; apply Hs; set_solver).
  pose proof (chain_member _ _ _ _ j Hs2 C Hj). lia.
Qed.

Lemma delete_nodup : NoDup (l1 ++ l2) /\ i ∉ l1 ++ l2.
Proof using All.
  pose proof (o_nodup _ _ _ I 0 zero_block) as N. rewrite Hlay in N.
  assert (l1 ++ i :: l2 ≡ₚ i :: l1 ++ l2) as P by (by rewrite Permutation_middle).
  rewrite P in N. apply list.NoDup_cons in N. tauto.
Qed.

(** What moves is [l2] and stale entries at or behind the end of the object. *)
Lemma delete_behind j :
  0 <= j < 10 -> j <> i ->
  behind T di j <-> j ∈ l2 \/ (unique_id (T j) = 0 /\ di + space (T i) <= data_index (T j)).
Proof using All.
  intros Hj Hne. pose proof delete_space. unfold behind. split.
  - intros [E Hd]. destruct (decide (unique_id (T j) = 0)) as [Hu|Hu].
    + right. split; [done|]. destruct (o_free _ _ _ I j Hj Hu) as (_ & _ & _ & F).
      specialize (F i). rewrite Hlay in F. specialize (F ltac:(set_solver)). lia.
    + left. assert (j ∈ lay 0) as Hm by (apply (o_mem _ _ _ I); [apply zero_block|done]).
      rewrite Hlay in Hm. apply elem_of_app in Hm as [Hm|Hm].
      * pose proof (delete_before j Hm). lia.
      * apply elem_of_cons in Hm as [|]; done.
  - intros [Hm|[Hu Hd]].
    + pose proof (delete_after j Hm). split; [|lia].
      apply (o_mem _ _ _ I 0); [apply zero_block|]. rewrite Hlay. set_solver.
    + destruct (o_free _ _ _ I j Hj Hu) as (? & _). split; [done|lia].
Qed.

Lemma deleted_moved j : j <> i -> behind T di j ->
  T' j = set_data_index (data_index (T j) - space (T i)) (T j).
Proof using Type. intros. unfold deleted_T. by rewrite decide_False, decide_True. Qed.

Lemma deleted_kept j : j <> i -> ~ behind T di j -> T' j = T j.
Proof using Type. intros. unfold deleted_T. by rewrite !decide_False. Qed.

Lemma deleted_fields j : j <> i ->
  lblock (T' j) = lblock (T j) /\ cur_size (T' j) = cur_size (T j) /\
  max_size (T' j) = max_size (T j) /\ unique_id (T' j) = unique_id (T j) /\
  data_index (T' j) <= data_index (T j).
Proof using All.
  intros Hj. pose proof delete_space. destruct (decide (behind T di j)).
  - rewrite deleted_moved by done. simpl. split_and!; try done; lia.
  - rewrite deleted_kept by done. split_and!; try done; lia.
Qed.

Lemma delete_live j : live T' j <-> j <> i /\ live T j.
Proof using All.
  unfold live. destruct (decide (j = i)) as [->|Hj].
  - unfold deleted_T. rewrite decide_True by done. simpl. tauto.
  - destruct (deleted_fields j Hj) as (_ & _ & _ & -> & _). tauto.
Qed.

Lemma delete_mem k j : 0 <= k < SST_NUM_ACTIVE_DBLOCKS ->
  j ∈ upd lay 0 (l1 ++ l2) k <-> live T' j /\ lblock (T' j) = k.
Proof using All.
  intros Hk. rewrite delete_live. destruct delete_nodup as [_ Hnot].
  assert (j ∈ upd lay 0 (l1 ++ l2) k <-> j <> i /\ j ∈ lay k) as ->.
  { destruct (decide (k = 0)) as [->|]; [rewrite upd_eq, Hlay; set_solver|].
    rewrite upd_ne by done. split; [|tauto]. intros Hj. split; [|done]. intros ->.
    apply (o_mem _ _ _ I) in Hj; [|done]. lia. }
  rewrite (o_mem _ _ _ I) by done. destruct (decide (j = i)) as [->|Hj]; [tauto|].
  destruct (deleted_fields j Hj) as (-> & _). tauto.
Qed.

Lemma delete_index j : j ∈ l1 ++ l2 ->
  0 <= j < 10 /\ j <> i /\
  (j ∈ l1 /\ T' j = T j \/
   j ∈ l2 /\ T' j = set_data_index (data_index (T j) - space (T i)) (T j)).
Proof using All.
  intros Hj. destruct delete_nodup as [N Hnot].
  assert (live T j) as [Hr _].
  { apply (o_mem _ _ _ I 0); [apply zero_block|]. rewrite Hlay. set_solver. }
  assert (j <> i) as Hne by (intros ->; done). split_and!; [lia..|done|].
  apply elem_of_app in Hj as [Hj|Hj].
  - left. split; [done|]. apply deleted_kept; [done|]. intros [_ Hb].
    pose proof (delete_before j Hj). lia.
  - right. split; [done|]. apply deleted_moved; [done|]. apply delete_behind; auto.
Qed.

Lemma delete_chain k : 0 <= k < SST_NUM_ACTIVE_DBLOCKS ->
  chain T' (dstart k) (upd lay 0 (l1 ++ l2) k) (upd en 0 (en 0 - space (T i)) k).
Proof using All.
  intros Hk. destruct delete_chains as [C1 C2]. destruct delete_nodup as [N _].
  apply list.NoDup_app in N as (_ & Hd & _).
  destruct (decide (k = 0)) as [->|Hne].
  - rewrite !upd_eq. apply chain_app. exists di. split.
    + eapply chain_ext; [|exact C1]. intros j Hj.
      destruct (delete_index j) as (_ & _ & [[_ E]|[E _]]); [set_solver|done|].
      by destruct (Hd j Hj).
    + replace di with (di + space (T i) - space (T i)) at 1 by lia.
      eapply chain_shift; [|exact C2]. intros j Hj.
      destruct (delete_index j) as (_ & _ & [[E _]|[_ E]]); [set_solver|by destruct (Hd j E)|].
      by rewrite E.
  - rewrite !upd_ne by done. eapply chain_ext; [|by apply (o_chain _ _ _ I)].
    intros j Hj. apply (o_mem _ _ _ I) in Hj as [_ Hj]; [|done]. symmetry.
    apply deleted_kept; [intros ->; lia|]. intros [? _]. lia.
Qed.

Lemma deleted_space j : j <> i -> space (T' j) = space (T j).
Proof using All. intros Hj. unfold space. by destruct (deleted_fields j Hj) as (_ & _ & -> & _). Qed.

Lemma delete_fits : di + space (T i) <= en 0.
Proof using All. pose proof (oinv_placed _ _ _ I i Hi) as [_ P]. by rewrite Hz in P. Qed.

(** The entry of the deleted object itself, and the other stale entries, stay
    stale: nothing is moved across a boundary. *)
Lemma delete_stale_self : stale T' (l1 ++ l2) (en 0 - space (T i)) i.
Proof using All.
  pose proof delete_space. pose proof delete_fits.
  assert (T' i = {| lblock := 0; data_index := di; cur_size := 0; max_size := 0;
                    unique_id := 0 |}) as E by (unfold deleted_T; by rewrite decide_True).
  unfold stale. rewrite E; simpl. split_and!; [done..|lia|]. intros k Hk.
  destruct (delete_index k Hk) as (_ & Hne & [[Hm Ek]|[Hm Ek]]);
    rewrite deleted_space by done; rewrite Ek; simpl.
  - pose proof (delete_before k Hm). lia.
  - pose proof (delete_after k Hm). lia.
Qed.

Lemma delete_stale j :
  0 <= j < 10 -> j <> i -> unique_id (T j) = 0 -> stale T' (l1 ++ l2) (en 0 - space (T i)) j.
Proof using All.
  intros Hj Hne Hu. pose proof delete_space. pose proof delete_fits.
  destruct (deleted_fields j Hne) as (E1 & E2 & E3 & E4 & E5).
  destruct (o_free _ _ _ I j Hj Hu) as (F1 & F2 & F3 & F4). unfold stale. rewrite E1, E3.
  assert (behind T di j /\ di + space (T i) <= data_index (T j) /\
            data_index (T' j) = data_index (T j) - space (T i) \/
          data_index (T j) <= di /\ data_index (T' j) = data_index (T j)) as Hd.
  { destruct (decide (behind T di j)) as [Hb|Hb].
    - left. rewrite deleted_moved by done. split_and!; [done| |done].
      apply delete_behind in Hb as [Hm|[_ ?]]; try done. by apply delete_after.
    - right. rewrite deleted_kept by done. unfold behind in Hb. lia. }
  split_and!; [done..|lia|]. intros k Hk.
  destruct (delete_index k Hk) as (_ & Hnk & [[Hm Ek]|[Hm Ek]]);
    rewrite (deleted_space k) by done; rewrite Ek; simpl;
    specialize (F4 k); rewrite Hlay in F4; specialize (F4 ltac:(set_solver)).
  - pose proof (delete_before k Hm). lia.
  - pose proof (delete_after k Hm). lia.
Qed.

Lemma oinv_delete : oinv T' (upd lay 0 (l1 ++ l2)) (upd en 0 (en 0 - space (T i))).
Proof using All.
  pose proof layout_bounds as (HN & _ & HB & _). pose proof delete_space.
  constructor.
  - intros j Hj. destruct (decide (j = i)) as [->|Hne].
    + unfold deleted_T. rewrite decide_True by done.
      destruct (o_u32 _ _ _ I i Hj) as (_ & ? & _). unfold assetmeta_u32, is_u32 in *; simpl. lia.
    + destruct (o_u32 _ _ _ I j Hj) as (? & U & ? & ? & ?).
      destruct (deleted_fields j Hne) as (E1 & E2 & E3 & E4 & E5).
      unfold assetmeta_u32. rewrite E1, E2, E3, E4. split_and!; try done.
      assert (0 <= data_index (T' j)); [|unfold is_u32 in *; lia].
      destruct (decide (behind T di j)) as [Hb|Hb].
      * rewrite deleted_moved by done; simpl. pose proof (oinv_placed _ _ _ I i Hi) as [P _].
        assert (0 <= dstart (lblock (T i))) by (unfold dstart, ooff; case_decide; lia).
        apply delete_behind in Hb as [Hm|[_ ?]]; try done; [|lia].
        pose proof (delete_after j Hm). lia.
      * rewrite deleted_kept by done. unfold is_u32 in *; lia.
  - intros j [Hne Hj]%delete_live. destruct (deleted_fields j Hne) as (-> & -> & -> & _).
    by apply (o_size _ _ _ I).
  - intros j k [Hj1 Hj]%delete_live [Hk1 Hk]%delete_live.
    destruct (deleted_fields j Hj1) as (_ & _ & _ & -> & _).
    destruct (deleted_fields k Hk1) as (_ & _ & _ & -> & _). by apply (o_uniq _ _ _ I).
  - intros k Hk. destruct (decide (k = 0)) as [->|]; [rewrite upd_eq; apply delete_nodup|].
    rewrite upd_ne by done. by apply (o_nodup _ _ _ I).
  - intros k j. apply delete_mem.
  - apply delete_chain.
  - intros j Hj Hu. rewrite !upd_eq. destruct (decide (j = i)) as [->|Hne].
    + apply delete_stale_self.
    + apply delete_stale; [done..|]. by destruct (deleted_fields j Hne) as (_ & _ & _ & <- & _).
Qed.

(** ** The bytes the delete loop counts *)

Lemma space_stale j : max_size (T j) = 0 -> space (T j) = 0.
Proof using All.
  intros E. unfold space. rewrite E. unfold sst_get_aligned_flash_bytes.
  destruct area_unit as [-> | [-> | ->]]; reflexivity.
Qed.

Lemma total_filter (P : Z -> Prop) `{!forall x, Decision (P x)} l :
  (forall j, j ∈ l -> ~ P j -> space (T j) = 0) -> total T l = total T (filter P l).
Proof using All.
  induction l as [|j l IH]; intros Hz0; simpl; [done|]. rewrite filter_cons.
  specialize (IH ltac:(set_solver)). case_decide as C; simpl; [lia|].
  rewrite (Hz0 j) by (set_solver || done). lia.
Qed.

(** The entries behind the object, taken in table order, cover exactly the
    bytes between its end and the end of the used area. *)
Lemma delete_total k :
  NoDup k -> (forall j, j ∈ k <-> 0 <= j < 10 /\ j <> i /\ behind T di j) ->
  total T k = en 0 - (di + space (T i)).
Proof using All.
  intros N Hk. destruct delete_chains as [_ C]. rewrite <- (chain_total _ _ _ _ C).
  destruct delete_nodup as [N' Hni]. apply list.NoDup_app in N' as (_ & _ & N2).
  rewrite (total_filter (fun j => unique_id (T j) <> 0)).
  - apply total_perm, list.NoDup_Permutation; [by apply list.NoDup_filter|done|].
    intros j. rewrite list_elem_of_filter, Hk. split.
    + intros (Hu & Hj & Hne & Hb). apply delete_behind in Hb as [?|[? _]]; done.
    + intros Hj. assert (j ∈ l1 ++ l2) as Hm by set_solver.
      destruct (delete_index j Hm) as (Hr & Hne & _).
      assert (live T j) as [_ Hu].
      { apply (o_mem _ _ _ I 0); [apply zero_block|]. rewrite Hlay. set_solver. }
      split_and!; try done; try lia. apply delete_behind; auto.
  - intros j (Hj & _)%Hk Hu. apply space_stale.
    by destruct (o_free _ _ _ I j Hj ltac:(by destruct (decide (unique_id (T j) = 0)))) as (_ & ? & _).
Qed.
End delete.
End table.
