(* ===== verification/SstCoreInv.v ===== *)
(** * Secure storage core: invariant and abstract store

    The invariant the storage keeps between two operations, the abstract store
    (object identifier to maximum size and content) it represents, and the
    steps every update shares: building the tables of the scratch metadata
    block and committing it. *)

From stdpp Require Import sets gmap.
From S2P Require Import Prelude FlashDriver SstDefs SstFlash SstCore SstCoreSpec SstTable.

(** An object of the store: its maximum size and its content. *)
Record sst_object := SstObject { o_max : Z; o_data : list byte }.
Abbreviation store := (gmap Z sst_object).

Section inv.
  Context {D : Type} `{!ARM_DRIVER_FLASH D, !FlashDevice D, !sst_layout, !sst_area_ok D,
                       !sst_build_ok}.
  Implicit Types (d : D) (c : sst_asset_system_context) (V : blocks) (lay : Z -> list Z).

(** ** Tables only matter inside their bounds *)

Lemma oinv_ext T T' lay en :
  oinv T lay en -> (forall i, 0 <= i < 10 -> T i = T' i) -> oinv T' lay en.
Proof using All.
  intros I He. pose proof layout_bounds as (HN & _).
  assert (forall i, live T' i <-> live T i) as Hlive.
  { intros i. unfold live. split; intros [? Hu]; split; try done; rewrite He in * || rewrite <- He; done. }
  constructor.
  - intros i Hi. rewrite <- He by done. by apply (o_u32 _ _ _ I).
  - intros i Hi%Hlive. rewrite <- He by apply Hi. by apply (o_size _ _ _ I).
  - intros i j Hi%Hlive Hj%Hlive. rewrite <- !He by (apply Hi || apply Hj). by apply (o_uniq _ _ _ I).
  - apply (o_nodup _ _ _ I).
  - intros l i Hl. rewrite Hlive, (o_mem _ _ _ I) by done.
    split; intros [Hi ?]; (split; [done|]); [rewrite <- He by apply Hi|rewrite He by apply Hi]; done.
  - intros l Hl. eapply chain_ext; [|by apply (o_chain _ _ _ I)].
    intros i [Hi _]%(o_mem _ _ _ I); [|done]. apply He, Hi.
  - intros i Hi. rewrite <- He by done. intros Hu. destruct (o_free _ _ _ I i Hi Hu) as (? & ? & ? & F).
    unfold stale. rewrite <- He by done. split_and!; try done. intros j Hj.
    assert (live T j) as [? _] by (apply (o_mem _ _ _ I) in Hj; [tauto|lia]).
    rewrite <- He by done. by apply F.
Qed.

Lemma binv_ext B B' si :
  binv B si -> (forall l, 0 <= l < SST_NUM_ACTIVE_DBLOCKS -> B l = B' l) -> binv B' si.
Proof using All.
  pose proof layout_bounds as (HN & _). intros [H1 H2 H3 H4 H5 H6] He. constructor; try done.
  - intros l Hl. rewrite <- He by done. auto.
  - rewrite <- He by lia. done.
  - intros l Hl. rewrite <- He by lia. auto.
  - intros l l' Hl Hl'. rewrite <- !He by lia. auto.
  - intros l Hl. rewrite <- He by lia. auto.
Qed.

Lemma tinv_ext T T' B B' lay A si :
  tinv T B lay A si -> (forall i, 0 <= i < 10 -> T i = T' i) ->
  (forall l, 0 <= l < SST_NUM_ACTIVE_DBLOCKS -> B l = B' l) -> tinv T' B' lay A si.
Proof using All.
  intros [IO IB Ih] HT HB. pose proof layout_bounds as (HN & _). constructor.
  - eapply oinv_ends; [by eapply oinv_ext|]. intros l Hl. unfold ends. by rewrite HB.
  - by eapply binv_ext.
  - rewrite <- HB by lia. done.
Qed.

(** ** The tables of the scratch metadata block *)

Lemma copy_objects_spec V X A i b o :
  0 <= i < 10 -> X <> A ->
  copy_objects V X A i b o =
    if decide (b = X /\ (ooff 0 <= o < ooff i \/ ooff (i + 1) <= o < ooff 10))
    then V A o else V b o.
Proof using All.
  intros Hi HX. unfold copy_objects, ooff. vsimp. repeat case_decide; done || lia.
Qed.

Lemma copy_blocks_spec V X A l b o :
  0 <= l < SST_NUM_ACTIVE_DBLOCKS -> X <> A ->
  copy_blocks V X A l b o =
    if decide (b = X /\ l <> 0 /\ boff 0 <= o < boff 1)
    then znth (encode_block_metadata (set_phys_id X (bm V A 0))) (o - boff 0)
    else if decide (b = X /\ (l <> 0 /\ boff 1 <= o < boff l \/ boff (l + 1) <= o < ooff 0))
    then V A o else V b o.
Proof using All.
  intros Hl HX. unfold copy_blocks, ooff, boff.
  destruct (decide (l = 0)) as [->|Hne]; vsimp; rewrite ?length_encode_block_metadata;
    repeat case_decide; try done; lia.
Qed.

(** A view whose block [X] holds the tables of block [A] of [V], with entries
    [i] and [l] replaced and entry 0 moved to [X]. *)
Record rebuilt V X A i (m : sst_assetmeta) l (b : sst_block_metadata) (W : blocks) : Prop := {
  r_object : forall o, ooff i <= o < ooff i + 20 ->
    W X o = znth (encode_assetmeta m) (o - ooff i);
  r_objects : forall o, ooff 0 <= o < ooff i \/ ooff (i + 1) <= o < ooff 10 -> W X o = V A o;
  r_block : forall o, boff l <= o < boff l + 12 ->
    W X o = znth (encode_block_metadata b) (o - boff l);
  r_block0 : l <> 0 -> forall o, boff 0 <= o < boff 1 ->
    W X o = znth (encode_block_metadata (set_phys_id X (bm V A 0))) (o - boff 0);
  r_blocks : forall o, l <> 0 /\ boff 1 <= o < boff l \/ boff (l + 1) <= o < ooff 0 ->
    W X o = V A o;
}.

Section rebuilt_tables.
  Context V X A i m l b W (R : rebuilt V X A i m l b W).
  Context (Hi : 0 <= i < 10) (Hl : 0 <= l < SST_NUM_ACTIVE_DBLOCKS) (HX : 0 <= X < 2).

Lemma rebuilt_om j : assetmeta_u32 m -> 0 <= j < 10 -> om W X j = upd (om V A) i m j.
Proof using All.
  intros Hm Hj. destruct (decide (j = i)) as [->|Hne].
  - rewrite upd_eq. apply om_written; [done|]. apply (r_object _ _ _ _ _ _ _ _ R).
  - rewrite upd_ne by done. apply om_ext. intros o Ho. apply (r_objects _ _ _ _ _ _ _ _ R).
    unfold ooff in *. lia.
Qed.

Lemma rebuilt_bm k :
  block_metadata_u32 b -> 0 <= k < SST_NUM_ACTIVE_DBLOCKS ->
  bm W X k = commit_B (bm V A) X l b k.
Proof using All.
  intros Hb Hk. unfold commit_B. destruct (decide (k = l)) as [->|Hne].
  - rewrite upd_eq. apply bm_written; [done|]. apply (r_block _ _ _ _ _ _ _ _ R).
  - rewrite upd_ne by done. destruct (decide (k = 0)) as [->|Hk0].
    + rewrite upd_eq. apply bm_written.
      * destruct (bm_u32 V A 0) as (? & ? & ?). unfold block_metadata_u32, is_u32 in *; cbn [phys_id data_start free_size set_phys_id].
        lia.
      * intros o Ho. apply (r_block0 _ _ _ _ _ _ _ _ R); [lia|]. unfold boff in *. lia.
    + rewrite upd_ne by done. apply bm_ext. intros o Ho. apply (r_blocks _ _ _ _ _ _ _ _ R).
      unfold boff, ooff in *. lia.
Qed.
End rebuilt_tables.

(** ** The invariant between two operations *)

Record inv V c lay : Prop := {
  i_ctx : ctx_blocks c;
  i_header : header_ok (meta_block_header c);
  i_active : hdr V (active_metablock c) = meta_block_header c;
  i_scratch : V (scratch_metablock c) 33 = Byte.xff;
  i_tables : tinv (om V (active_metablock c)) (bm V (active_metablock c)) lay
               (active_metablock c) (scratch_idx (meta_block_header c));
}.

Lemma inv_objects V c lay : inv V c lay -> oinv (om V (active_metablock c)) lay (ends (bm V (active_metablock c))).
Proof using Type. intros I. apply (t_obj _ _ _ _ _ (i_tables _ _ _ I)). Qed.

Lemma inv_blocks V c lay :
  inv V c lay -> binv (bm V (active_metablock c)) (scratch_idx (meta_block_header c)).
Proof using Type. intros I. apply (t_blk _ _ _ _ _ (i_tables _ _ _ I)). Qed.

Lemma inv_object_ok V c lay i :
  inv V c lay -> 0 <= i < 10 -> object_meta_ok (om V (active_metablock c) i).
Proof using All.
  intros I. apply (oinv_object_meta_ok _ _ _ (inv_objects _ _ _ I)).
  intros l Hl. by apply (binv_ends _ _ _ (inv_blocks _ _ _ I)).
Qed.

Lemma inv_block_ok V c lay l :
  inv V c lay -> 0 <= l < SST_NUM_ACTIVE_DBLOCKS -> block_meta_ok (bm V (active_metablock c) l).
Proof using Type. intros I. apply (b_ok _ _ (inv_blocks _ _ _ I)). Qed.

Lemma ctx_range c :
  ctx_blocks c -> 0 <= active_metablock c < 2 /\ 0 <= scratch_metablock c < 2 /\
    scratch_metablock c <> active_metablock c.
Proof using All. unfold ctx_blocks. lia. Qed.

Lemma decode_committed V X h :
  header_ok h -> hdr (committed_header V X h) X = h.
Proof using All.
  intros (H1 & H2 & H3 & H4). destruct h as [cr si fv sc]; simpl in *. subst fv.
  unfold hdr, decode_header. set (W := committed_header _ _ _).
  assert (forall o, 0 <= o < 33 ->
    W X o = znth (encode_header_prefix {| crypto := cr; scratch_idx := si; fs_version := 1;
                                          active_swap_count := sc |}) o) as Hp.
  { intros o Ho. unfold W, committed_header. rewrite !vwrite_spec, zlen_header_prefix by done.
    simpl. rewrite decide_False by lia. rewrite decide_True by lia. f_equal. lia. }
  assert (vread W X 0 33 = cr ++ put32 si ++ [z2b 1]) as E.
  { apply zlist_ext; rewrite ?zlen_vread by lia.
    - rewrite !zlen_app, length_put32. simpl. lia.
    - intros k Hk. rewrite znth_vread by lia. rewrite Hp by lia. f_equal. }
  assert (vread W X 0 36 = (cr ++ put32 si ++ [z2b 1]) ++ vread W X 33 3) as ->.
  { rewrite <- E. unfold vread. by rewrite <- mread_app by lia. }
  assert (W X 33 = z2b sc) as Ec.
  { unfold W, committed_header. rewrite vwrite_spec, decide_True by (simpl; lia). done. }
  f_equal.
  - rewrite <- app_assoc. by rewrite slice_app_head by lia.
  - rewrite <- !app_assoc. rewrite slice_app_skip by lia. rewrite H1. simpl.
    rewrite slice_app_head by (by rewrite length_put32). by apply get_put32.
  - rewrite znth_app_l by (rewrite !zlen_app, length_put32; simpl; lia).
    rewrite !znth_app_r by (rewrite ?length_put32; lia). rewrite length_put32, H1. simpl.
    by apply b2z_z2b.
  - rewrite znth_app_r by (rewrite !zlen_app, length_put32; simpl; lia).
    rewrite !zlen_app, length_put32, H1. simpl. rewrite znth_vread by lia.
    replace (W X _) with (z2b sc) by (rewrite <- Ec; f_equal; lia). apply b2z_z2b. lia.
Qed.

Lemma finalized_spec V c b o :
  finalized V c b o =
    if decide (2 < SST_TOTAL_NUM_OF_BLOCKS /\ b = scratch_idx (meta_block_header c))
    then Byte.xff
    else if decide (b = active_metablock c) then Byte.xff
    else committed_header V (scratch_metablock c) (next_header (meta_block_header c)) b o.
Proof using All.
  unfold finalized. repeat case_decide; rewrite !verase_spec; repeat case_decide; done || lia.
Qed.

Lemma committed_header_other V X h b o :
  zlen (crypto h) = 28 -> b <> X \/ 36 <= o -> committed_header V X h b o = V b o.
Proof using All.
  intros Hz Hb. unfold committed_header. rewrite !vwrite_spec, zlen_header_prefix by done. simpl.
  by rewrite !decide_False by lia.
Qed.

(** What a commit keeps: the new metadata block past its header, and every
    other block but the two scratch blocks. *)
Lemma finalized_kept V c b o :
  ctx_blocks c -> header_ok (meta_block_header c) ->
  b <> active_metablock c ->
  (2 < SST_TOTAL_NUM_OF_BLOCKS -> b <> scratch_idx (meta_block_header c)) ->
  b <> scratch_metablock c \/ 36 <= o ->
  finalized V c b o = V b o.
Proof using All.
  intros Hc (Hh & _) HA Hs HX. rewrite finalized_spec, !decide_False by tauto.
  by apply committed_header_other.
Qed.

Lemma finalized_tables V c :
  ctx_blocks c -> header_ok (meta_block_header c) ->
  (2 < SST_TOTAL_NUM_OF_BLOCKS -> 2 <= scratch_idx (meta_block_header c)) ->
  let X := scratch_metablock c in
  (forall i, 0 <= i < 10 -> om (finalized V c) X i = om V X i) /\
  (forall l, 0 <= l < SST_NUM_ACTIVE_DBLOCKS -> bm (finalized V c) X l = bm V X l).
Proof using All.
  intros Hc Hh Hs X. pose proof (ctx_range c Hc). pose proof layout_bounds as (HN & _).
  split; intros k Hk; [apply om_ext|apply bm_ext]; intros o Ho;
    apply finalized_kept; try done; unfold ooff, boff in *; lia.
Qed.

Lemma inv_commit V c lay :
  ctx_blocks c -> header_ok (meta_block_header c) ->
  tinv (om V (scratch_metablock c)) (bm V (scratch_metablock c)) lay (scratch_metablock c)
    (scratch_idx (meta_block_header c)) ->
  inv (finalized V c) (finalized_ctx c) lay.
Proof using All.
  intros Hc Hh I. pose proof (ctx_range c Hc) as (HA & HX & Hne).
  pose proof (b_scratch_range _ _ (t_blk _ _ _ _ _ I)) as Hs.
  destruct (finalized_tables V c Hc Hh) as [HO HB]; [lia|].
  constructor; simpl.
  - unfold ctx_blocks in *; simpl. tauto.
  - by apply next_header_ok.
  - etransitivity; [|apply (decode_committed V (scratch_metablock c)); by apply next_header_ok].
    unfold hdr. f_equal. apply vread_ext. intros k Hk.
    rewrite finalized_spec, !decide_False by lia. done.
  - rewrite finalized_spec. rewrite decide_False by lia. by rewrite decide_True.
  - eapply tinv_ext; [exact I|intros; symmetry; auto..].
Qed.

(** ** The abstract store *)

Definition content V (B : Z -> sst_block_metadata) (m : sst_assetmeta) : list byte :=
  vread V (phys_id (B (lblock m))) (data_index m) (cur_size m).

Definition obj_at V A (m : sst_assetmeta) : sst_object :=
  SstObject (max_size m) (content V (bm V A) m).

(** Block [A] of [V] is the table of the store [σ]. *)
Definition stores V A (σ : store) : Prop :=
  forall u o, σ !! u = Some o <->
    exists i, live (om V A) i /\ unique_id (om V A i) = u /\ obj_at V A (om V A i) = o.

(** The storage satisfies the invariant and represents [σ]; [P] restricts how
    the objects are laid out in the blocks. *)
Definition sst_rep_in (P : (Z -> list Z) -> Prop) (s : sst_state D) (σ : store) : Prop :=
  exists V lay, DRep (sst_dev s) V /\ inv V (sst_system_ctx s) lay /\
    stores V (active_metablock (sst_system_ctx s)) σ /\ P lay.

Definition sst_rep : sst_state D -> store -> Prop := sst_rep_in (fun _ => True).

(** Every object is in logical block 0. *)
Definition all_home lay : Prop := forall l, 1 <= l < SST_NUM_ACTIVE_DBLOCKS -> lay l = [].

Lemma sst_rep_in_rep P s σ : sst_rep_in P s σ -> sst_rep s σ.
Proof using Type. intros (V & lay & HR & I & Hs & _). by exists V, lay. Qed.

Lemma stores_live V A σ i :
  stores V A σ -> live (om V A) i -> σ !! unique_id (om V A i) = Some (obj_at V A (om V A i)).
Proof using Type. intros Hs Hi. apply Hs. eauto. Qed.

Lemma stores_none V A σ u :
  stores V A σ -> (forall i, live (om V A) i -> unique_id (om V A i) <> u) -> σ !! u = None.
Proof using Type.
  intros Hs Hn. apply eq_None_not_Some. intros [o (i & Hi & Hu & _)%Hs]. by apply (Hn i).
Qed.

Lemma stores_absent V A σ i :
  stores V A σ -> live (om V A) i -> σ !! unique_id (om V A i) <> None.
Proof using Type. intros Hs Hi. by rewrite (stores_live _ _ _ _ Hs Hi). Qed.

(** Entry [i] is added or replaced, every other entry keeps its object. *)
Lemma stores_insert V A V' A' σ i u :
  stores V A σ ->
  (forall j, live (om V' A') j <-> j = i \/ live (om V A) j) ->
  unique_id (om V' A' i) = u ->
  (forall j, live (om V A) j -> unique_id (om V A j) = u -> j = i) ->
  (forall j, live (om V A) j -> j <> i ->
     unique_id (om V' A' j) = unique_id (om V A j) /\
     obj_at V' A' (om V' A' j) = obj_at V A (om V A j)) ->
  (live (om V A) i -> unique_id (om V A i) = u) ->
  stores V' A' (<[u := obj_at V' A' (om V' A' i)]> σ).
Proof using Type.
  intros Hs Hl Hu Huniq Hkeep Hi v o. unfold stores in Hs. rewrite lookup_insert_Some, Hs. split.
  - intros [[<- <-]|[Hne (j & Hj & Hju & Ho)]].
    + exists i. split_and!; try done. apply Hl. by left.
    + assert (j <> i) as Hji by (intros ->; by rewrite Hi in Hju).
      destruct (Hkeep j Hj Hji) as [E1 E2]. exists j. rewrite Hl, E1, E2. auto.
  - intros (j & [->|Hj]%Hl & Hju & Ho); [left; subst; auto|].
    destruct (decide (j = i)) as [->|Hji]; [left; subst; auto|]. right.
    destruct (Hkeep j Hj Hji) as [E1 E2]. rewrite E1 in Hju. rewrite E2 in Ho.
    split; [|by exists j]. intros <-. by apply Hji, Huniq.
Qed.

Lemma stores_delete V A V' A' σ i :
  stores V A σ -> live (om V A) i ->
  (forall j, live (om V A) j -> unique_id (om V A j) = unique_id (om V A i) -> j = i) ->
  (forall j, live (om V' A') j <-> j <> i /\ live (om V A) j) ->
  (forall j, live (om V A) j -> j <> i ->
     unique_id (om V' A' j) = unique_id (om V A j) /\
     obj_at V' A' (om V' A' j) = obj_at V A (om V A j)) ->
  stores V' A' (delete (unique_id (om V A i)) σ).
Proof using Type.
  intros Hs Hi Huniq Hl Hkeep v o. unfold stores in Hs. rewrite lookup_delete_Some, Hs. split.
  - intros [Hne (j & Hj & Hju & Ho)].
    assert (j <> i) as Hji by (intros ->; done). destruct (Hkeep j Hj Hji) as [E1 E2].
    exists j. rewrite Hl, E1, E2. auto.
  - intros (j & [Hji Hj]%Hl & Hju & Ho). destruct (Hkeep j Hj Hji) as [E1 E2].
    rewrite E1 in Hju. rewrite E2 in Ho. split; [|by exists j]. intros <-.
    by apply Hji, Huniq.
Qed.

(** The same tables and the same bytes are the same store. *)
Lemma stores_same V A V' A' σ :
  stores V A σ ->
  (forall j, 0 <= j < 10 -> om V' A' j = om V A j) ->
  (forall j, live (om V A) j -> content V' (bm V' A') (om V A j) = content V (bm V A) (om V A j)) ->
  stores V' A' σ.
Proof using Type.
  intros Hs HT Hc u o. unfold stores in Hs. rewrite Hs.
  assert (forall j, live (om V' A') j <-> live (om V A) j) as Hl.
  { intros j. unfold live. split; intros [Hj Hu]; (split; [done|]); by rewrite HT in * by done. }
  split; intros (j & Hj & Hu & Ho); exists j; rewrite Hl in *; (split; [done|]);
    rewrite HT in * by apply Hj; unfold obj_at in *; rewrite Hc in * by done; done.
Qed.

(** ** Committing a store

    When the scratch metadata block holds tables that satisfy the invariant and
    represent [σ], the commit leaves a storage that represents [σ]. *)
Lemma stores_commit W c lay σ :
  ctx_blocks c -> header_ok (meta_block_header c) ->
  tinv (om W (scratch_metablock c)) (bm W (scratch_metablock c)) lay (scratch_metablock c)
    (scratch_idx (meta_block_header c)) ->
  stores W (scratch_metablock c) σ -> stores (finalized W c) (scratch_metablock c) σ.
Proof using All.
  intros Hc Hh I Hs.
  pose proof (ctx_range c Hc) as (HA & HX & Hne). destruct I as [IO IB Ih].
  pose proof (b_scratch_range _ _ IB) as Hsr.
  destruct (finalized_tables W c Hc Hh) as [HO HB]; [lia|].
  eapply stores_same; [exact Hs|done|]. intros j Hj.
  destruct (o_size _ _ _ IO j Hj) as (Hl & _). destruct (oinv_placed _ _ _ IO j Hj) as [P1 _].
  unfold content. rewrite HB by done. apply vread_ext. intros k Hk.
  assert (lblock (om W (scratch_metablock c) j) = 0 \/
          1 <= lblock (om W (scratch_metablock c) j)) as [E|E] by lia.
  - rewrite E in *. rewrite Ih in *.
    + apply finalized_kept; try done; [lia|]. unfold dstart in P1.
      rewrite decide_True in P1 by done. pose proof layout_bounds as (HN & _). unfold ooff in P1. lia.
    + intros E0. pose proof (oinv_member _ _ _ IO j Hj) as Hm. rewrite E, E0 in Hm. set_solver.
  - pose proof (b_dedicated _ _ IB _ (conj E (proj2 Hl))).
    pose proof (b_scratch _ _ IB _ (conj E (proj2 Hl))).
    apply finalized_kept; try done; lia.
Qed.

Lemma commit_rep (P : (Z -> list Z) -> Prop) d W c lay σ :
  ctx_blocks c -> header_ok (meta_block_header c) ->
  tinv (om W (scratch_metablock c)) (bm W (scratch_metablock c)) lay (scratch_metablock c)
    (scratch_idx (meta_block_header c)) ->
  stores W (scratch_metablock c) σ -> P lay ->
  DRep d (finalized W c) -> sst_rep_in P (SstState d (finalized_ctx c)) σ.
Proof using All.
  intros Hc Hh I Hs HP HR. exists (finalized W c), lay. cbn [sst_dev sst_system_ctx].
  split_and!; [done|by apply inv_commit|by apply (stores_commit W c lay)|done].
Qed.

(** The object in block 0 are in the active metadata block. *)
Lemma live_home V c lay i :
  inv V c lay -> live (om V (active_metablock c)) i ->
  lblock (om V (active_metablock c) i) = 0 ->
  phys_id (bm V (active_metablock c) 0) = active_metablock c.
Proof using All.
  intros I Hi E. apply (t_home _ _ _ _ _ (i_tables _ _ _ I)). intros E0.
  pose proof (oinv_member _ _ _ (inv_objects _ _ _ I) i Hi) as Hm. rewrite E, E0 in Hm. set_solver.
Qed.

Lemma ends_commit (B : Z -> sst_block_metadata) X l b k :
  ends (commit_B B X l b) k = upd (ends B) l (SST_BLOCK_SIZE - free_size b) k.
Proof using Type.
  unfold ends, commit_B, upd. repeat case_decide; subst; done.
Qed.

Lemma commit_B_home (B : Z -> sst_block_metadata) X l b :
  (l = 0 -> phys_id b = X) -> phys_id (commit_B B X l b 0) = X.
Proof using Type. intros Hb. unfold commit_B, upd. repeat case_decide; subst; auto. done. Qed.

(** A rebuilt block whose tables satisfy the invariant. *)
Lemma rebuilt_tinv V X A i m l b W lay si :
  rebuilt V X A i m l b W -> 0 <= i < 10 -> 0 <= l < SST_NUM_ACTIVE_DBLOCKS -> 0 <= X < 2 ->
  tinv (upd (om V A) i m) (commit_B (bm V A) X l b) lay X si ->
  (forall j, 0 <= j < 10 -> om W X j = upd (om V A) i m j) /\
  (forall k, 0 <= k < SST_NUM_ACTIVE_DBLOCKS -> bm W X k = commit_B (bm V A) X l b k) /\
  tinv (om W X) (bm W X) lay X si.
Proof using All.
  intros R Hi Hl HX IT. pose proof layout_bounds as (_ & _ & HB & HT).
  assert (assetmeta_u32 m) as Um.
  { pose proof (o_u32 _ _ _ (t_obj _ _ _ _ _ IT) i Hi) as U. by rewrite upd_eq in U. }
  assert (block_metadata_u32 b) as Ub.
  { destruct (b_ok _ _ (t_blk _ _ _ _ _ IT) l Hl) as (Hv & O1 & O2 & O3 & _).
    rewrite commit_B_eq in *. unfold valid_block in Hv. unfold block_metadata_u32, is_u32. lia. }
  assert (forall j, 0 <= j < 10 -> om W X j = upd (om V A) i m j) as HO
    by (intros; by apply (rebuilt_om _ _ _ _ _ _ _ _ R)).
  assert (forall k, 0 <= k < SST_NUM_ACTIVE_DBLOCKS -> bm W X k = commit_B (bm V A) X l b k) as HBk
    by (intros; by apply (rebuilt_bm _ _ _ _ _ _ _ _ R)).
  split_and!; try done. eapply tinv_ext; [exact IT|intros; symmetry; auto..].
Qed.

(** ** Counting objects *)

Lemma full_table V A σ :
  stores V A σ ->
  (forall i j, live (om V A) i -> live (om V A) j ->
     unique_id (om V A i) = unique_id (om V A j) -> i = j) ->
  (forall j, 0 <= j < 10 -> unique_id (om V A j) <> 0) -> (10 <= size σ)%nat.
Proof using Type.
  intros Hs Huniq Hall. rewrite <- size_dom.
  assert (length ((fun j => unique_id (om V A j)) <$> seqZ 0 10) = 10%nat) as <-
    by (by rewrite length_fmap, length_seqZ).
  rewrite <- (size_list_to_set (C := gset Z)).
  - apply subseteq_size. intros u. rewrite elem_of_list_to_set, list_elem_of_fmap, elem_of_dom.
    intros (j & -> & Hj%elem_of_seqZ). exists (obj_at V A (om V A j)).
    apply stores_live; [done|]. split; [lia|apply Hall; lia].
  - apply NoDup_fmap_2_strong; [|apply NoDup_seqZ]. intros i j Hi%elem_of_seqZ Hj%elem_of_seqZ.
    apply Huniq; (split; [lia|apply Hall; lia]).
Qed.

Lemma total_bound T l k :
  sized T l -> SST_MAX_OBJECT_SIZE + SST_FLASH_PROGRAM_UNIT <= k -> total T l <= zlen l * k.
Proof using All.
  intros Hs Hk. induction l as [|i l IH]; [simpl; lia|]; simpl total.
  specialize (IH ltac:(intros j ?; apply Hs; set_solver)).
  pose proof (Hs i ltac:(set_solver)). pose proof (space_bounds (T i)). simpl length. lia.
Qed.

(** With a free entry, block 0 holds at most nine objects. *)
Lemma free_entry_room V c lay i :
  inv V c lay -> 0 <= i < 10 -> unique_id (om V (active_metablock c) i) = 0 ->
  ends (bm V (active_metablock c)) 0 <=
    ooff 10 + 9 * (SST_MAX_OBJECT_SIZE + SST_FLASH_PROGRAM_UNIT).
Proof using All.
  intros I Hi Hu. pose proof (inv_objects _ _ _ I) as IO. pose proof layout_bounds as (HN & _).
  assert (0 <= 0 < SST_NUM_ACTIVE_DBLOCKS) as H0' by lia.
  pose proof (chain_total _ _ _ _ (o_chain _ _ _ IO 0 H0')) as E.
  pose proof (total_bound _ _ _ (oinv_sized _ _ _ IO 0 H0') (Z.le_refl _)) as Hb.
  assert (i :: lay 0 ⊆+ seqZ 0 10) as Hsub.
  { apply NoDup_submseteq.
    - apply list.NoDup_cons. split; [by apply (oinv_not_live _ _ _ IO)|by apply (o_nodup _ _ _ IO)].
    - intros j Hj. apply elem_of_seqZ. apply elem_of_cons in Hj as [->|Hj]; [lia|].
      apply (o_mem _ _ _ IO) in Hj as [[? _] _]; lia. }
  apply submseteq_length in Hsub. rewrite length_seqZ in Hsub. simpl length in Hsub.
  unfold dstart in E. rewrite decide_True in E by done.
  assert (0 < SST_FLASH_PROGRAM_UNIT) by (destruct area_unit; lia).
  change SST_MAX_OBJECT_SIZE with 304 in *. nia.
Qed.

Lemma size_list_to_set_le (k : list Z) : (size (list_to_set k : gset Z) <= length k)%nat.
Proof using Type.
  induction k as [|x k IH]; [done|]. rewrite list_to_set_cons. cbn [length].
  rewrite size_union_alt, size_singleton.
  assert (size ((list_to_set k : gset Z) ∖ {[x]}) <= size (list_to_set k : gset Z))%nat
    by (by apply subseteq_size, subseteq_difference_l). lia.
Qed.

Lemma table_not_full V A σ i :
  stores V A σ -> 0 <= i < 10 -> unique_id (om V A i) = 0 -> (size σ < 10)%nat.
Proof using Type.
  intros Hs Hi Hu. rewrite <- size_dom.
  set (k := filter (fun j => unique_id (om V A j) <> 0) (seqZ 0 10)).
  assert (length k < 10)%nat as Hk.
  { replace 10%nat with (length (seqZ 0 10)) by (by rewrite length_seqZ).
    apply (length_filter_lt _ _ i); [apply elem_of_seqZ; lia|]. by intros ?. }
  assert (dom σ ⊆ list_to_set ((fun j => unique_id (om V A j)) <$> k)) as Hd.
  { intros u (o & (j & [Hj Hju] & <- & _)%Hs)%elem_of_dom.
    apply elem_of_list_to_set, list_elem_of_fmap. exists j. split; [done|].
    apply list_elem_of_filter. split; [done|]. apply elem_of_seqZ. lia. }
  apply subseteq_size in Hd.
  pose proof (size_list_to_set_le ((fun j => unique_id (om V A j)) <$> k)).
  rewrite length_fmap in *. lia.
Qed.
End inv.
