(* ===== verification/SstCoreOps.v ===== *)
(** * Secure storage core: the object operations

    Every operation of [sst_core.c] on a storage that satisfies the invariant:
    it succeeds with the effect the abstract store prescribes, or it returns
    the error of the failed check and leaves the storage as it was. *)

From stdpp Require Import sets gmap.
From S2P Require Import Prelude FlashDriver SstDefs SstFlash SstCore SstCoreSpec SstTable SstCoreInv.

Section lookup.
  Context {D : Type} `{!ARM_DRIVER_FLASH D, !FlashDevice D, !sst_layout, !sst_area_ok D,
                       !sst_build_ok}.
  Context (d : D) (c : sst_asset_system_context) (V : blocks) (lay : Z -> list Z).
  Context (HR : DRep d V) (I : inv V c lay).
  Local Abbreviation A := (active_metablock c).
  Local Abbreviation X := (scratch_metablock c).
  Local Abbreviation T := (om V A).
  Local Abbreviation B := (bm V A).
  Local Abbreviation s := (SstState d c).

(** ** Metadata reads *)

Lemma read_object_meta_eq i : 0 <= i < 10 -> sst_meta_read_object_meta i s = (Ok (T i), s).
Proof using All.
  intros Hi. apply runs_eq. apply runs_read_object_meta with V; try done;
    [apply (i_ctx _ _ _ I)|by apply (inv_object_ok _ _ _ _ I)].
Qed.

Lemma read_block_metadata_eq l :
  0 <= l < SST_NUM_ACTIVE_DBLOCKS -> sst_meta_read_block_metadata l s = (Ok (B l), s).
Proof using All.
  intros Hl. apply runs_eq. apply runs_read_block_metadata with V; try done;
    [apply (i_ctx _ _ _ I)|by apply (inv_block_ok _ _ _ _ I)].
Qed.

(** ** Searching the object table *)

Fixpoint first_uuid (Tb : Z -> sst_assetmeta) (n : nat) (i u : Z) : option Z :=
  match n with
  | O => None
  | S n => if unique_id (Tb i) =? u then Some i else first_uuid Tb n (i + 1) u
  end.

Lemma first_uuid_spec Tb n i u :
  match first_uuid Tb n i u with
  | Some k => i <= k < i + Z.of_nat n /\ unique_id (Tb k) = u
  | None => forall k, i <= k < i + Z.of_nat n -> unique_id (Tb k) <> u
  end.
Proof using Type.
  revert i. induction n as [|n IH]; intros i; cbn [first_uuid]; [lia|].
  destruct (Z.eqb_spec (unique_id (Tb i)) u) as [E|E]; [split; [lia|done]|].
  specialize (IH (i + 1)). destruct (first_uuid Tb n (i + 1) u).
  - destruct IH. split; [lia|done].
  - intros k Hk. destruct (decide (k = i)) as [->|]; [done|]. apply IH. lia.
Qed.

Lemma get_object_idx_loop_eq n i u :
  0 <= i -> i + Z.of_nat n <= 10 ->
  get_object_idx_loop n i u s =
    match first_uuid T n i u with
    | Some k => (Ok k, s)
    | None => (Err PSA_SST_ERR_ASSET_NOT_FOUND, s)
    end.
Proof using All.
  revert i. induction n as [|n IH]; intros i Hi Hn; [done|].
  cbn [get_object_idx_loop first_uuid].
  rewrite (bind_Ok _ _ _ _ _ (or_return_Ok _ _ _ _ _ (read_object_meta_eq i ltac:(lia)))).
  destruct (_ =? u); [done|]. rewrite IH by lia. done.
Qed.

Lemma get_object_idx_eq u :
  sst_core_get_object_idx u s =
    match first_uuid T 10 0 u with
    | Some k => (Ok k, s)
    | None => (Err PSA_SST_ERR_ASSET_NOT_FOUND, s)
    end.
Proof using All. by apply (get_object_idx_loop_eq 10). Qed.

Lemma free_object_index_loop_eq n i :
  0 <= i -> i + Z.of_nat n <= 10 ->
  free_object_index_loop n i s =
    (Ok (default SST_METADATA_INVALID_INDEX (first_uuid T n i 0)), s).
Proof using All.
  revert i. induction n as [|n IH]; intros i Hi Hn; [done|].
  cbn [free_object_index_loop first_uuid].
  rewrite (bind_Ok _ _ _ _ _ (try_Ok _ _ _ _ (read_object_meta_eq i ltac:(lia)))).
  unfold sst_utils_validate_uuid, SST_INVALID_UUID.
  destruct (_ =? 0); [done|]. rewrite IH by lia. done.
Qed.

Lemma get_free_object_index_eq :
  sst_get_free_object_index s =
    (Ok (default SST_METADATA_INVALID_INDEX (first_uuid T 10 0 0)), s).
Proof using All. by apply (free_object_index_loop_eq 10). Qed.

(** ** Searching for space *)

Fixpoint first_fit (Bb : Z -> sst_block_metadata) (n : nat) (i sz : Z) : option Z :=
  match n with
  | O => None
  | S n => if sz <=? free_size (Bb i) then Some i else first_fit Bb n (i + 1) sz
  end.

Lemma first_fit_spec Bb n i sz :
  match first_fit Bb n i sz with
  | Some k => i <= k < i + Z.of_nat n /\ sz <= free_size (Bb k)
  | None => forall k, i <= k < i + Z.of_nat n -> free_size (Bb k) < sz
  end.
Proof using Type.
  revert i. induction n as [|n IH]; intros i; cbn [first_fit]; [lia|].
  destruct (Z.leb_spec sz (free_size (Bb i))) as [E|E]; [split; [lia|done]|].
  specialize (IH (i + 1)). destruct (first_fit Bb n (i + 1) sz).
  - destruct IH. split; [lia|done].
  - intros k Hk. destruct (decide (k = i)) as [->|]; [lia|]. apply IH. lia.
Qed.

Definition reserved (Bb : Z -> sst_block_metadata) l m size sz :=
  ({| lblock := l; data_index := SST_BLOCK_SIZE - free_size (Bb l); cur_size := cur_size m;
      max_size := size; unique_id := unique_id m |},
   set_free_size (free_size (Bb l) - sz) (Bb l)).

Lemma reserve_object_loop_eq n i m size sz :
  0 <= i -> i + Z.of_nat n <= SST_NUM_ACTIVE_DBLOCKS -> 0 <= sz ->
  reserve_object_loop n i m size sz s =
    match first_fit B n i sz with
    | Some l => (Ok (reserved B l m size sz), s)
    | None => (Err PSA_SST_ERR_STORAGE_SYSTEM_FULL, s)
    end.
Proof using All.
  intros Hi Hn Hs. pose proof layout_bounds as (_ & _ & HB & _).
  revert i Hi Hn. induction n as [|n IH]; intros i Hi Hn; [done|].
  cbn [reserve_object_loop first_fit].
  rewrite (bind_Ok _ _ _ _ _ (or_return_Ok _ _ _ _ _ (read_block_metadata_eq i ltac:(lia)))).
  destruct (Z.leb_spec sz (free_size (B i))).
  - destruct (inv_block_ok _ _ _ i I) as (_ & ? & ? & ? & _); [lia|].
    unfold ret, reserved. by rewrite !u32_small by lia.
  - rewrite IH by lia. done.
Qed.

Lemma reserve_object_eq m size :
  0 <= sst_get_aligned_flash_bytes size ->
  sst_meta_reserve_object m size s =
    match first_fit B (Z.to_nat SST_NUM_ACTIVE_DBLOCKS) 0 (sst_get_aligned_flash_bytes size) with
    | Some l => (Ok (reserved B l m size (sst_get_aligned_flash_bytes size)), s)
    | None => (Err PSA_SST_ERR_STORAGE_SYSTEM_FULL, s)
    end.
Proof using All.
  intros. pose proof layout_bounds. apply reserve_object_loop_eq; lia.
Qed.
End lookup.

Section ops.
  Context {D : Type} `{!ARM_DRIVER_FLASH D, !FlashDevice D, !sst_layout, !sst_area_ok D,
                       !sst_build_ok}.
  Implicit Types (d : D) (c : sst_asset_system_context) (V : blocks) (lay : Z -> list Z)
    (σ : store).

Lemma find_present d c V lay σ u o :
  DRep d V -> inv V c lay -> stores V (active_metablock c) σ -> σ !! u = Some o ->
  exists i, live (om V (active_metablock c)) i /\ unique_id (om V (active_metablock c) i) = u /\
    obj_at V (active_metablock c) (om V (active_metablock c) i) = o /\
    sst_core_get_object_idx u (SstState d c) = (Ok i, SstState d c).
Proof using All.
  intros HR I Hs Hu. apply Hs in Hu as (i & Hi & Hu & Ho).
  rewrite (get_object_idx_eq _ _ _ _ HR I). exists i. split_and!; try done.
  pose proof (first_uuid_spec (om V (active_metablock c)) 10 0 u) as F.
  destruct (first_uuid _ 10 0 u) as [k|].
  - do 2 f_equal. apply (o_uniq _ _ _ (inv_objects _ _ _ I)); try done.
    + split; [apply F|]. destruct Hi as [_ ?]. destruct F as [_ ->]. by rewrite <- Hu.
    + by destruct F as [_ ->].
  - exfalso. apply (F i); [|done]. apply Hi.
Qed.

Lemma find_absent d c V lay σ u :
  DRep d V -> inv V c lay -> stores V (active_metablock c) σ -> u <> 0 -> σ !! u = None ->
  sst_core_get_object_idx u (SstState d c) = (Err PSA_SST_ERR_ASSET_NOT_FOUND, SstState d c).
Proof using All.
  intros HR I Hs Hne Hu. rewrite (get_object_idx_eq _ _ _ _ HR I).
  pose proof (first_uuid_spec (om V (active_metablock c)) 10 0 u) as F.
  destruct (first_uuid _ 10 0 u) as [k|]; [|done]. exfalso. destruct F as [Fk Fu].
  apply (stores_absent _ _ _ k Hs); [split; [done|by rewrite Fu]|by rewrite Fu].
Qed.

(** ** Queries *)

(** The current size of a live object is the length of its content. *)
Lemma obj_at_len V c lay i :
  inv V c lay -> live (om V (active_metablock c)) i ->
  zlen (o_data (obj_at V (active_metablock c) (om V (active_metablock c) i))) =
    cur_size (om V (active_metablock c) i).
Proof using All.
  intros I Hi. cbn [obj_at o_data]. unfold content. apply zlen_vread.
  destruct (o_u32 _ _ _ (inv_objects _ _ _ I) i (proj1 Hi)) as (_ & _ & ? & _).
  unfold is_u32 in *; lia.
Qed.

Lemma object_exist_spec s σ u :
  sst_rep s σ -> u <> 0 ->
  sst_core_object_exist u s =
    (match σ !! u with Some _ => Ok tt | None => Err PSA_SST_ERR_ASSET_NOT_FOUND end, s).
Proof using All.
  destruct s as [d c]. intros (V & lay & HR & I & Hs & _) Hne. unfold sst_core_object_exist.
  destruct (σ !! u) as [o|] eqn:Hu.
  - destruct (find_present d c V lay σ u o HR I Hs Hu) as (i & _ & _ & _ & E).
    by rewrite (bind_Ok _ _ _ _ _ (or_return_Ok _ _ _ _ _ E)).
  - by rewrite (bind_Err _ _ _ _ _ (or_return_Err _ _ _ _ _
                  (find_absent d c V lay σ u HR I Hs Hne Hu))).
Qed.

Lemma object_get_info_spec s σ u :
  sst_rep s σ -> u <> 0 ->
  sst_core_object_get_info u s =
    (match σ !! u with
     | Some o => Ok {| size_current := zlen (o_data o); size_max := o_max o |}
     | None => Err PSA_SST_ERR_ASSET_NOT_FOUND
     end, s).
Proof using All.
  destruct s as [d c]. intros (V & lay & HR & I & Hs & _) Hne. unfold sst_core_object_get_info.
  simpl in *. destruct (σ !! u) as [o|] eqn:Hu.
  - destruct (find_present d c V lay σ u o HR I Hs Hu) as (i & Hi & Hiu & <- & E).
    rewrite (bind_Ok _ _ _ _ _ (or_return_Ok _ _ _ _ _ E)).
    rewrite (bind_Ok _ _ _ _ _ (read_object_meta_eq _ _ _ _ HR I i (proj1 Hi))).
    rewrite Hiu, Z.eqb_refl. rewrite (obj_at_len V c lay i I Hi). done.
  - by rewrite (bind_Err _ _ _ _ _ (or_return_Err _ _ _ _ _
                  (find_absent d c V lay σ u HR I Hs Hne Hu))).
Qed.

(** Where the content of a live object lies. *)
Lemma live_bounds V c lay i :
  inv V c lay -> live (om V (active_metablock c)) i ->
  let m := om V (active_metablock c) i in
  0 <= lblock m < SST_NUM_ACTIVE_DBLOCKS /\ 0 <= dstart (lblock m) <= data_index m /\
  0 <= cur_size m <= max_size m /\ 0 < max_size m <= 304 /\ max_size m <= space m /\
  data_index m + space m <= ends (bm V (active_metablock c)) (lblock m) /\
  ends (bm V (active_metablock c)) (lblock m) <= SST_BLOCK_SIZE.
Proof using All.
  intros I Hi m. pose proof (inv_objects _ _ _ I) as IO. pose proof (inv_blocks _ _ _ I) as IB.
  destruct (o_size _ _ _ IO i Hi) as (Hl & S1 & S2). change SST_MAX_OBJECT_SIZE with 304 in S1.
  destruct (oinv_placed _ _ _ IO i Hi) as [P1 P2]. pose proof (binv_ends _ _ _ IB Hl).
  destruct (o_u32 _ _ _ IO i (proj1 Hi)) as (_ & _ & U & _). unfold is_u32 in U.
  pose proof (space_bounds (om V (active_metablock c) i)) as Hsp.
  change SST_MAX_OBJECT_SIZE with 304 in Hsp. subst m. lia.
Qed.

Lemma object_read_spec s σ u off n :
  sst_rep s σ -> u <> 0 -> is_u32 off -> is_u32 n ->
  sst_core_object_read u off n s =
    (match σ !! u with
     | Some o => if decide (off + n <= zlen (o_data o)) then Ok (slice off n (o_data o))
                 else Err PSA_SST_ERR_PARAM_ERROR
     | None => Err PSA_SST_ERR_ASSET_NOT_FOUND
     end, s).
Proof using All.
  destruct s as [d c]. intros (V & lay & HR & I & Hs & _) Hne Hoff Hn. unfold sst_core_object_read.
  simpl in *. destruct (σ !! u) as [o|] eqn:Hu; cycle 1.
  { by rewrite (bind_Err _ _ _ _ _ (or_return_Err _ _ _ _ _
                  (find_absent d c V lay σ u HR I Hs Hne Hu))). }
  destruct (find_present d c V lay σ u o HR I Hs Hu) as (i & Hi & Hiu & <- & E).
  rewrite (bind_Ok _ _ _ _ _ (or_return_Ok _ _ _ _ _ E)).
  rewrite (bind_Ok _ _ _ _ _ (or_return_Ok _ _ _ _ _
             (read_object_meta_eq _ _ _ _ HR I i (proj1 Hi)))).
  rewrite Hiu, Z.eqb_refl. cbn [negb].
  destruct (live_bounds V c lay i I Hi) as (Hl & Hd & Hc & Hm & Hsp & He & Hb).
  destruct (o_u32 _ _ _ (inv_objects _ _ _ I) i (proj1 Hi)) as (_ & _ & ? & _).
  rewrite sst_utils_check_contained_in_spec by (done || (unfold is_u32; lia)).
  rewrite (obj_at_len V c lay i I Hi). unfold is_u32 in *.
  destruct (decide (off + n <= _)) as [Hr|Hr]; cycle 1.
  { rewrite decide_False by lia. done. }
  rewrite decide_True by lia. apply or_return_Ok, runs_eq, runs_read_raw with V; try done; try lia.
  - apply (i_ctx _ _ _ I).
  - by apply (inv_block_ok _ _ _ _ I).
  - split; [|done]. cbn [obj_at o_data]. unfold content, vread. by rewrite slice_mread by lia.
Qed.

(** ** Updates only write scratch blocks *)

Definition only_at V (X : Z) (W : blocks) : Prop := forall b o, b <> X -> W b o = V b o.

Lemma only_at_refl V X : only_at V X V.
Proof using Type. done. Qed.

Lemma only_at_vwrite V X W off bs : only_at V X W -> only_at V X (vwrite W X off bs).
Proof using Type.
  intros HW b o Hb. rewrite vwrite_spec, decide_False by tauto. by apply HW.
Qed.

Lemma only_at_vcopy V X W A off n : only_at V X W -> only_at V X (vcopy W X A off n).
Proof using Type. apply only_at_vwrite. Qed.

Lemma only_at_copy_objects V X W A i : only_at V X W -> only_at V X (copy_objects W X A i).
Proof using Type. intros. by do 2 apply only_at_vcopy. Qed.

Lemma only_at_copy_blocks V X W A l : only_at V X W -> only_at V X (copy_blocks W X A l).
Proof using Type.
  intros. unfold copy_blocks. apply only_at_vcopy. case_decide; [done|].
  by apply only_at_vcopy, only_at_vwrite.
Qed.

Lemma only_at_bm V X W A l : only_at V X W -> A <> X -> bm W A l = bm V A l.
Proof using Type. intros HW HA. apply bm_ext. intros. by apply HW. Qed.

Lemma only_at_om V X W A i : only_at V X W -> A <> X -> om W A i = om V A i.
Proof using Type. intros HW HA. apply om_ext. intros. by apply HW. Qed.

(** ** Create *)

Definition create_meta V (A l u size : Z) : sst_assetmeta :=
  created l (SST_BLOCK_SIZE - free_size (bm V A l)) size u.

Definition create_block V (A X l size : Z) : sst_block_metadata :=
  {| phys_id := if decide (l = 0) then X else phys_id (bm V A l);
     data_start := data_start (bm V A l);
     free_size := free_size (bm V A l) - sst_get_aligned_flash_bytes size |}.

Definition create_view V (A X i l u size : Z) : blocks :=
  vcopy (copy_blocks (copy_objects
    (vwrite (vwrite V X (ooff i) (encode_assetmeta (create_meta V A l u size)))
       X (boff l) (encode_block_metadata (create_block V A X l size))) X A i) X A l)
    X A (ooff 10) (SST_BLOCK_SIZE - ooff 10 - free_size (bm V A 0)).

Lemma runs_create_pre d c V lay i l u size Q :
  DRep d V -> inv V c lay -> 0 <= sst_get_aligned_flash_bytes size ->
  first_uuid (om V (active_metablock c)) 10 0 0 = Some i ->
  first_fit (bm V (active_metablock c)) (Z.to_nat SST_NUM_ACTIVE_DBLOCKS) 0
    (sst_get_aligned_flash_bytes size) = Some l ->
  (forall d', DRep d' (create_view V (active_metablock c) (scratch_metablock c) i l u size) ->
     Q tt (SstState d' c)) ->
  runs (create_pre u size) (SstState d c) Q.
Proof using All.
  intros HR I Hsz Hi Hl HQ. pose proof (i_ctx _ _ _ I) as Hc.
  pose proof (ctx_range c Hc) as (HA & HX & Hne).
  pose proof (first_uuid_spec (om V (active_metablock c)) 10 0 0) as Fi. rewrite Hi in Fi.
  pose proof (first_fit_spec (bm V (active_metablock c)) (Z.to_nat SST_NUM_ACTIVE_DBLOCKS) 0
    (sst_get_aligned_flash_bytes size)) as Fl. rewrite Hl in Fl.
  assert (0 <= l < SST_NUM_ACTIVE_DBLOCKS) as Hlr by lia.
  assert (0 <= i < SST_NUM_ASSETS) as Hir by (unfold SST_NUM_ASSETS; lia).
  pose proof layout_bounds as (HN & _). pose proof (inv_blocks _ _ _ I) as IB.
  unfold create_pre.
  apply runs_bind, runs_try. eapply runs_val; [by rewrite (reserve_object_eq _ _ _ _ HR I), Hl|].
  apply runs_bind. eapply runs_val; [by rewrite (get_free_object_index_eq _ _ _ _ HR I), Hi|].
  cbn [reserved from_option id]. destruct (Z.eqb_spec i SST_METADATA_INVALID_INDEX) as [E|_];
    [unfold SST_METADATA_INVALID_INDEX in E; lia|].
  cbn [lblock data_index].
  apply runs_bind, runs_or_return, runs_update_scratch_object_meta with V; try done.
  intros d1 R1. apply runs_bind, runs_gets. cbn [sst_system_ctx]. unfold SST_LOGICAL_DBLOCK0.
  set (m := {| lblock := l |}) in *. fold (create_meta V (active_metablock c) l u size) in m.
  assert ((if l =? 0 then set_phys_id (scratch_metablock c)
     (set_free_size (free_size (bm V (active_metablock c) l) - sst_get_aligned_flash_bytes size)
        (bm V (active_metablock c) l))
     else set_free_size (free_size (bm V (active_metablock c) l) - sst_get_aligned_flash_bytes size)
        (bm V (active_metablock c) l)) =
     create_block V (active_metablock c) (scratch_metablock c) l size) as ->.
  { unfold create_block. destruct (Z.eqb_spec l 0); case_decide; done. }
  apply runs_bind, runs_or_return. eapply runs_update_scratch_block_meta; try exact R1; try done.
  intros d2 R2. apply runs_bind, runs_or_return.
  eapply runs_copy_remaining_object_meta; try exact R2; try done.
  intros d3 R3. apply runs_bind, runs_or_return.
  set (W3 := copy_objects _ _ _ _) in R3.
  assert (only_at V (scratch_metablock c) W3) as O3
    by (by apply only_at_copy_objects, only_at_vwrite, only_at_vwrite).
  pose proof (inv_block_ok _ _ _ 0 I ltac:(lia)) as B0.
  eapply runs_copy_remaining_block_meta; try exact R3; try done.
  { rewrite (only_at_bm V (scratch_metablock c)) by (done || lia). done. }
  intros d4 R4. apply runs_or_return.
  assert (bm (copy_blocks W3 (scratch_metablock c) (active_metablock c) l) (active_metablock c) 0 =
    bm V (active_metablock c) 0) as E4
    by (apply (only_at_bm V (scratch_metablock c)); [by apply only_at_copy_blocks|lia]).
  eapply runs_migrate_data; try exact R4; try done; rewrite ?E4; try done.
  by rewrite (binv_data_start _ _ _ IB) by lia.
Qed.

Lemma scratch_valid V c lay :
  inv V c lay -> 2 < SST_TOTAL_NUM_OF_BLOCKS -> valid_block (scratch_idx (meta_block_header c)).
Proof using All.
  intros I Ht. pose proof (b_scratch_range _ _ (inv_blocks _ _ _ I) Ht). unfold valid_block; lia.
Qed.

Lemma runs_create d c V lay i l u size Q :
  DRep d V -> inv V c lay -> 0 <= sst_get_aligned_flash_bytes size ->
  first_uuid (om V (active_metablock c)) 10 0 0 = Some i ->
  first_fit (bm V (active_metablock c)) (Z.to_nat SST_NUM_ACTIVE_DBLOCKS) 0
    (sst_get_aligned_flash_bytes size) = Some l ->
  (forall d', DRep d' (finalized (create_view V (active_metablock c) (scratch_metablock c)
                                   i l u size) c) ->
     Q tt (SstState d' (finalized_ctx c))) ->
  runs (sst_core_object_create u size) (SstState d c) Q.
Proof using All.
  intros HR I Hsz Hi Hl HQ. apply (runs_ext _ _ _ _ (create_split u size _)).
  apply runs_bind, (runs_create_pre d c V lay i l u size); try done. intros d' R'.
  apply runs_or_return. eapply runs_update_finalize;
    [exact R'|apply (i_ctx _ _ _ I)|apply (i_header _ _ _ I)|by apply (scratch_valid V c lay)|done].
Qed.

Ltac region := unfold ooff, boff in *; repeat case_decide; try done; lia.

Lemma create_rebuilt V A X i l u size :
  A <> X -> 0 <= i < 10 -> 0 <= l < SST_NUM_ACTIVE_DBLOCKS ->
  0 <= SST_BLOCK_SIZE - ooff 10 - free_size (bm V A 0) ->
  rebuilt V X A i (create_meta V A l u size) l (create_block V A X l size)
    (create_view V A X i l u size).
Proof using All.
  intros HA Hi Hl Hn. set (m := create_meta V A l u size).
  set (b := create_block V A X l size).
  assert (zlen (encode_assetmeta m) = 20) as Lm by (by rewrite length_encode_assetmeta).
  assert (zlen (encode_block_metadata b) = 12) as Lb by (by rewrite length_encode_block_metadata).
  set (W2 := vwrite (vwrite V X (ooff i) (encode_assetmeta m)) X (boff l) (encode_block_metadata b)).
  assert (only_at V X (copy_objects W2 X A i)) as O3
    by (by apply only_at_copy_objects, only_at_vwrite, only_at_vwrite).
  constructor; intros; unfold create_view; fold m; fold b; fold W2;
    rewrite vcopy_spec, decide_False by (unfold ooff, boff in *; lia);
    rewrite copy_blocks_spec by (done || lia); rewrite ?(only_at_bm V X _ A 0 O3) by done;
    rewrite ?copy_objects_spec by lia; unfold W2; rewrite ?vwrite_spec, ?Lm, ?Lb;
    region.
Qed.

Lemma create_only V A X i l u size : only_at V X (create_view V A X i l u size).
Proof using Type.
  apply only_at_vcopy, only_at_copy_blocks, only_at_copy_objects, only_at_vwrite, only_at_vwrite.
  apply only_at_refl.
Qed.

Lemma create_data V A X i l u size o :
  A <> X -> ooff 10 <= o < SST_BLOCK_SIZE - free_size (bm V A 0) ->
  create_view V A X i l u size X o = V A o.
Proof using All.
  intros HA Ho. unfold create_view. rewrite vcopy_spec by lia. rewrite decide_True by (split; lia).
  apply (only_at_copy_blocks V X); [|done]. by apply only_at_copy_objects, only_at_vwrite, only_at_vwrite.
Qed.

(** The tables after a create. *)
Lemma create_tinv V c lay i l u size :
  let A := active_metablock c in let X := scratch_metablock c in
  inv V c lay -> 0 <= i < 10 -> unique_id (om V A i) = 0 ->
  0 <= l < SST_NUM_ACTIVE_DBLOCKS -> is_u32 u -> u <> 0 ->
  (forall j, live (om V A) j -> unique_id (om V A j) <> u) ->
  0 < size <= SST_MAX_OBJECT_SIZE ->
  sst_get_aligned_flash_bytes size <= free_size (bm V A l) ->
  tinv (upd (om V A) i (create_meta V A l u size))
    (commit_B (bm V A) X l (create_block V A X l size)) (upd lay l (lay l ++ [i])) X
    (scratch_idx (meta_block_header c)).
Proof using All.
  intros A X I Hi Hfree Hl Hu32 Hu Hfresh Hsz Hfit.
  pose proof (inv_objects _ _ _ I) as IO. pose proof (inv_blocks _ _ _ I) as IB.
  fold A in IO, IB. pose proof (ctx_range c (i_ctx _ _ _ I)) as (HA & HX & Hne).
  pose proof layout_bounds as (HN & HM & HB & HT).
  destruct (inv_block_ok _ _ _ l I Hl) as (_ & F1 & F2 & F3 & _). fold A in F1, F2, F3.
  pose proof (aligned_bytes size) as [Hal _]; [lia|change SST_MAX_OBJECT_SIZE with 304 in Hsz; lia|].
  pose proof (binv_data_start _ _ _ IB Hl) as Hds.
  assert (ends (bm V A) l = SST_BLOCK_SIZE - free_size (bm V A l)) as Ee by done.
  constructor.
  - eapply oinv_ends.
    + unfold create_meta. rewrite <- Ee. apply oinv_create; try done. lia.
    + intros k Hk. rewrite ends_commit. unfold create_block, upd; cbn [free_size].
      case_decide; [|done]. unfold ends. lia.
  - apply (binv_commit _ (scratch_idx (meta_block_header c))); try done; unfold create_block;
      cbn [data_start free_size]; try (rewrite ?Hds in *; done || lia).
    unfold moved_to; cbn [phys_id]. case_decide; [left|right; left]; done.
  - intros _. apply commit_B_home. intros ->. unfold create_block. by rewrite decide_True.
Qed.

Lemma create_content V c lay i l u size j :
  let A := active_metablock c in let X := scratch_metablock c in
  inv V c lay -> 0 <= i < 10 -> 0 <= l < SST_NUM_ACTIVE_DBLOCKS -> live (om V A) j ->
  content (create_view V A X i l u size)
    (commit_B (bm V A) X l (create_block V A X l size)) (om V A j) =
  content V (bm V A) (om V A j).
Proof using All.
  intros A X I Hi Hl Hj. pose proof (ctx_range c (i_ctx _ _ _ I)) as (HA & HX & Hne).
  destruct (live_bounds V c lay j I Hj) as (L1 & L2 & L3 & L4 & L5 & L6 & L7).
  fold A in L1, L2, L3, L4, L5, L6, L7. unfold content. set (k := lblock (om V A j)) in *.
  assert (k = 0 \/ 1 <= k) as [E|E] by lia.
  - pose proof (live_home V c lay j I Hj E) as Hh. fold A in Hh. rewrite E in *. rewrite Hh.
    rewrite commit_B_home by (intros ->; unfold create_block; by rewrite decide_True).
    apply vread_ext. intros n Hn. apply create_data; [done|].
    unfold dstart, ends in *. rewrite decide_True in L2 by done. lia.
  - pose proof (b_dedicated _ _ (inv_blocks _ _ _ I) k ltac:(lia)) as Hd. fold A in Hd.
    assert (phys_id (commit_B (bm V A) X l (create_block V A X l size) k) = phys_id (bm V A k)) as ->.
    { unfold commit_B, upd, create_block. repeat case_decide; subst; done || lia. }
    apply vread_ext. intros n Hn. apply create_only. lia.
Qed.

(** What create leaves in the scratch metadata block before the commit. *)
Lemma create_built V c lay σ i l u size :
  let A := active_metablock c in let X := scratch_metablock c in
  let W := create_view V A X i l u size in
  inv V c lay -> stores V A σ -> 0 <= i < 10 -> unique_id (om V A i) = 0 ->
  0 <= l < SST_NUM_ACTIVE_DBLOCKS -> is_u32 u -> u <> 0 -> σ !! u = None ->
  0 < size <= SST_MAX_OBJECT_SIZE ->
  sst_get_aligned_flash_bytes size <= free_size (bm V A l) ->
  tinv (om W X) (bm W X) (upd lay l (lay l ++ [i])) X (scratch_idx (meta_block_header c)) /\
  stores W X (<[u := SstObject size []]> σ).
Proof using All.
  intros A X W I Hs Hi Hfree Hl Hu32 Hu Hnone Hsz Hfit.
  pose proof (ctx_range c (i_ctx _ _ _ I)) as (HA & HX & Hne).
  pose proof layout_bounds as (HN & _).
  assert (forall j, live (om V A) j -> unique_id (om V A j) <> u) as Hfresh.
  { intros j Hj <-. by apply (stores_absent _ _ _ j Hs). }
  pose proof (create_tinv V c lay i l u size I Hi Hfree Hl Hu32 Hu Hfresh Hsz Hfit) as IT.
  fold A X in IT.
  pose proof (binv_ends _ _ 0 (inv_blocks _ _ _ I) ltac:(lia)) as [He _]. fold A in He.
  assert (rebuilt V X A i (create_meta V A l u size) l (create_block V A X l size) W) as R
    by (apply create_rebuilt; try done; unfold ends, dstart in He;
        rewrite decide_True in He by done; lia).
  destruct (rebuilt_tinv _ _ _ _ _ _ _ _ _ _ R Hi Hl HX IT) as (HO & HBk & IT').
  split; [done|].
  replace (SstObject size []) with (obj_at W X (om W X i)); cycle 1.
  { rewrite HO, upd_eq by done. unfold obj_at, content, create_meta, created.
    cbn [max_size cur_size]. done. }
  apply (stores_insert V A W X σ i u Hs).
  - intros j. destruct (decide (0 <= j < 10)) as [Hj|Hj].
    + unfold live. rewrite HO by done. destruct (decide (j = i)) as [->|Hji].
      * rewrite upd_eq. cbn [create_meta created unique_id]. tauto.
      * rewrite upd_ne by done. tauto.
    + unfold live. split; [tauto|]. intros [->|?]; tauto.
  - rewrite HO, upd_eq by done. done.
  - intros j Hj E. by destruct (Hfresh j Hj).
  - intros j Hj Hji. pose proof (proj1 Hj) as Hr. rewrite HO, upd_ne by done. split; [done|].
    pose proof (create_content V c lay i l u size j I Hi Hl Hj) as E. cbv zeta in E.
    fold A X in E. fold W in E. unfold obj_at. rewrite <- E. unfold content. rewrite HBk; [done|]. apply (o_size _ _ _ (inv_objects _ _ _ I) j Hj).
  - intros [_ ?]. done.
Qed.

Lemma aligned_nonneg n : 0 <= sst_get_aligned_flash_bytes n.
Proof using Type. unfold sst_get_aligned_flash_bytes. apply u32_bound. Qed.

(** No room for an object of [size] bytes: the table has no free
    entry or no block has the space. *)
Definition create_full (s : sst_state D) (size : Z) : Prop :=
  exists V lay, DRep (sst_dev s) V /\ inv V (sst_system_ctx s) lay /\
    let A := active_metablock (sst_system_ctx s) in
    ((forall j, 0 <= j < 10 -> unique_id (om V A j) <> 0) \/
     (forall l, 0 <= l < SST_NUM_ACTIVE_DBLOCKS ->
        free_size (bm V A l) < sst_get_aligned_flash_bytes size)).

Lemma object_create_spec s σ u size :
  sst_rep s σ -> is_u32 u -> u <> 0 -> σ !! u = None -> 0 < size <= SST_MAX_OBJECT_SIZE ->
  runs (sst_core_object_create u size) s
    (fun _ s' => sst_rep s' (<[u := SstObject size []]> σ)) \/
  (sst_core_object_create u size s = (Err PSA_SST_ERR_STORAGE_SYSTEM_FULL, s) /\
   create_full s size).
Proof using All.
  destruct s as [d c]. intros (V & lay & HR & I & Hs & _) Hu32 Hu Hnone Hsz. cbn [sst_dev sst_system_ctx] in *.
  pose proof (first_uuid_spec (om V (active_metablock c)) 10 0 0) as Fi.
  pose proof (first_fit_spec (bm V (active_metablock c)) (Z.to_nat SST_NUM_ACTIVE_DBLOCKS) 0
    (sst_get_aligned_flash_bytes size)) as Fl.
  assert (0 <= sst_get_aligned_flash_bytes size) as Ha
    by apply aligned_nonneg.
  pose proof layout_bounds as (HN & _).
  destruct (first_fit _ _ 0 _) as [l|] eqn:El.
  - destruct (first_uuid _ 10 0 0) as [i|] eqn:Ei; [left|right].
    + destruct Fi as [Fi Fu], Fl as [Fl Ff].
      destruct (create_built V c lay σ i l u size I Hs) as [IT Hst]; try done; try lia.
      apply (runs_create d c V lay i l u size); try done. intros d' R'.
      eapply commit_rep; try done; [apply (i_ctx _ _ _ I)|apply (i_header _ _ _ I)].
    + split; [|exists V, lay; split_and!; try done; left; intros; apply Fi; lia].
      unfold sst_core_object_create.
      erewrite bind_Ok by (apply try_Ok; rewrite (reserve_object_eq _ _ _ _ HR I), El by done; done).
      erewrite bind_Ok by (by rewrite (get_free_object_index_eq _ _ _ _ HR I), Ei). done.
  - right. split; [|exists V, lay; split_and!; try done; right; intros; apply Fl; lia].
    unfold sst_core_object_create, bind, try.
    rewrite (reserve_object_eq _ _ _ _ HR I), El by done.
    by rewrite (get_free_object_index_eq _ _ _ _ HR I).
Qed.

(** Where a block holds ten objects of the largest size, only the number of
    objects limits what can be stored, and every object is in block 0. *)
Definition roomy : Prop :=
  ooff 10 + 10 * (SST_MAX_OBJECT_SIZE + SST_FLASH_PROGRAM_UNIT) <= SST_BLOCK_SIZE.

Lemma roomy_fit V c lay i size :
  roomy -> inv V c lay -> 0 <= i < 10 -> unique_id (om V (active_metablock c) i) = 0 ->
  0 < size <= SST_MAX_OBJECT_SIZE ->
  sst_get_aligned_flash_bytes size <= free_size (bm V (active_metablock c) 0) /\
  first_fit (bm V (active_metablock c)) (Z.to_nat SST_NUM_ACTIVE_DBLOCKS) 0
    (sst_get_aligned_flash_bytes size) = Some 0.
Proof using All.
  intros Hroom I Hi Hu Hsz. pose proof (free_entry_room V c lay i I Hi Hu) as Hr.
  pose proof layout_bounds as (HN & _).
  unfold roomy, ends in *. change SST_MAX_OBJECT_SIZE with 304 in *.
  pose proof (aligned_bytes size) as [Hal _]; [lia|lia|]. split; [lia|].
  destruct (Z.to_nat SST_NUM_ACTIVE_DBLOCKS) as [|k] eqn:Ek; [lia|]. cbn [first_fit].
  by rewrite (proj2 (Z.leb_le _ _)) by lia.
Qed.

Lemma object_create_roomy s σ u size :
  roomy -> sst_rep_in all_home s σ -> is_u32 u -> u <> 0 -> σ !! u = None ->
  0 < size <= SST_MAX_OBJECT_SIZE ->
  if decide (base.size σ < 10)%nat
  then runs (sst_core_object_create u size) s
         (fun _ s' => sst_rep_in all_home s' (<[u := SstObject size []]> σ))
  else sst_core_object_create u size s = (Err PSA_SST_ERR_STORAGE_SYSTEM_FULL, s).
Proof using All.
  intros Hroom Hrep Hu32 Hu Hnone Hsz. pose proof Hrep as (V & lay & HR & I & Hs & HP).
  destruct s as [d c]. cbn [sst_dev sst_system_ctx] in *.
  pose proof (inv_objects _ _ _ I) as IO. pose proof layout_bounds as (HN & _).
  pose proof (first_uuid_spec (om V (active_metablock c)) 10 0 0) as Fi.
  destruct (first_uuid _ 10 0 0) as [i|] eqn:Ei.
  - destruct Fi as [Fi Fu]. assert (0 <= i < 10) as Hi by lia.
    rewrite decide_True by (by apply (table_not_full V (active_metablock c) σ i)).
    destruct (roomy_fit V c lay i size Hroom I Hi Fu Hsz) as [Hfit Hff].
    apply (runs_create d c V lay i 0 u size); try done.
    { apply aligned_nonneg. }
    intros d' R'.
    destruct (create_built V c lay σ i 0 u size I Hs) as [IT Hst]; try done; try lia.
    eapply commit_rep; try done; [apply (i_ctx _ _ _ I)|apply (i_header _ _ _ I)|].
    intros l Hl. rewrite upd_ne by lia. by apply HP.
  - rewrite decide_False.
    + destruct (object_create_spec (SstState d c) σ u size) as [(a & s' & E & Hr)|[E _]]; try done.
      { by apply sst_rep_in_rep with all_home. }
      exfalso. revert E. unfold sst_core_object_create, bind, try.
      rewrite (reserve_object_eq _ _ _ _ HR I) by apply aligned_nonneg.
      destruct (first_fit _ _ _ _); rewrite (get_free_object_index_eq _ _ _ _ HR I), ?Ei; done.
    + pose proof (full_table V (active_metablock c) σ Hs (o_uniq _ _ _ IO)) as Hf.
      assert (10 <= base.size σ)%nat; [apply Hf; intros; apply Fi; lia|lia].
Qed.

(** ** Write *)

Lemma aligned_mono a b :
  0 <= a <= b -> b + 4 <= 2 ^ 32 ->
  sst_get_aligned_flash_bytes a <= sst_get_aligned_flash_bytes b.
Proof using All.
  intros Ha Hb. destruct (aligned_bytes a) as [A1 A2], (aligned_bytes b) as [B1 B2]; try lia.
  assert (0 < SST_FLASH_PROGRAM_UNIT) by (destruct area_unit; lia).
  apply Z.div_exact in A2, B2; [|lia..].
  set (x := sst_get_aligned_flash_bytes a) in *. set (y := sst_get_aligned_flash_bytes b) in *.
  destruct (Z.le_gt_cases x y); [done|].
  assert (y / SST_FLASH_PROGRAM_UNIT + 1 <= x / SST_FLASH_PROGRAM_UNIT); nia.
Qed.

Lemma updated_block_spec V Y b bs off b' o :
  Y <> phys_id b -> data_start b <= off -> off + zlen bs <= SST_BLOCK_SIZE - free_size b ->
  updated_block V Y b bs off b' o =
    if decide (b' = Y /\ off <= o < off + zlen bs) then znth bs (o - off)
    else if decide (b' = Y /\ data_start b <= o < SST_BLOCK_SIZE - free_size b)
    then V (phys_id b) o else V b' o.
Proof using All.
  intros HY Hd He. unfold updated_block. vsimp. repeat case_decide; try done; lia.
Qed.

(** The object buffer after the new bytes are merged in. *)
Definition plain_text (old data : list byte) (off n : Z) : list byte :=
  splice off (ztake n data)
    (splice 0 old (replicate (Z.to_nat SST_ALIGNED_MAX_OBJECT_SIZE) Byte.x00)).

Lemma plain_text_spec old data off n :
  0 <= off <= zlen old -> 0 <= n <= zlen data -> zlen old <= SST_ALIGNED_MAX_OBJECT_SIZE ->
  off + n <= SST_ALIGNED_MAX_OBJECT_SIZE ->
  zlen (plain_text old data off n) = SST_ALIGNED_MAX_OBJECT_SIZE /\
  ztake (Z.max (zlen old) (off + n)) (plain_text old data off n) =
    splice off (ztake n data) old.
Proof using All.
  intros Ho Hn Hl He. unfold plain_text. set (buf := replicate _ _).
  assert (zlen buf = SST_ALIGNED_MAX_OBJECT_SIZE) as Lb
    by (unfold buf; rewrite length_replicate; lia).
  assert (zlen (ztake n data) = n) as Ld by (rewrite zlen_ztake; lia).
  assert (zlen (splice 0 old buf) = SST_ALIGNED_MAX_OBJECT_SIZE) as L0
    by (rewrite zlen_splice; lia).
  assert (zlen (splice off (ztake n data) (splice 0 old buf)) = SST_ALIGNED_MAX_OBJECT_SIZE) as L1
    by (rewrite zlen_splice; lia).
  assert (zlen (splice off (ztake n data) old) = Z.max (zlen old) (off + n)) as L2.
  { unfold splice. rewrite !zlen_app, zlen_ztake, zlen_zdrop by lia. lia. }
  split; [done|]. apply zlist_ext; rewrite zlen_ztake by lia; [lia|].
  intros k Hk. rewrite znth_ztake by lia. rewrite !znth_splice by lia. rewrite Ld.
  repeat case_decide; try done; try lia. f_equal. lia.
Qed.

Lemma set_cur_size_id m : set_cur_size (cur_size m) m = m.
Proof using Type. by destruct m. Qed.

Lemma prepare_plain_text_eq d c V lay i data off n :
  DRep d V -> inv V c lay -> live (om V (active_metablock c)) i ->
  let m := om V (active_metablock c) i in
  0 <= off <= cur_size m -> 0 <= n <= zlen data -> off + n <= max_size m ->
  prepare_plain_text m data off n (SstState d c) =
    (Ok (plain_text (content V (bm V (active_metablock c)) m) data off n,
         set_cur_size (Z.max (cur_size m) (off + n)) m), SstState d c).
Proof using All.
  intros HR I Hi m Ho Hn Hmax.
  destruct (live_bounds V c lay i I Hi) as (L1 & L2 & L3 & L4 & L5 & L6 & L7). fold m in L1, L2, L3, L4, L5, L6, L7.
  pose proof aligned_max_object as Ea. change SST_MAX_OBJECT_SIZE with 304 in Ea.
  assert (0 < SST_FLASH_PROGRAM_UNIT) by (destruct area_unit; lia).
  set (buf := replicate (Z.to_nat SST_ALIGNED_MAX_OBJECT_SIZE) Byte.x00).
  assert (zlen buf = SST_ALIGNED_MAX_OBJECT_SIZE) as Lb
    by (unfold buf; rewrite length_replicate; lia).
  set (old := content V (bm V (active_metablock c)) m).
  assert (zlen old = cur_size m) as Lo by (unfold old, content; rewrite zlen_vread; lia).
  apply runs_eq. unfold prepare_plain_text. apply runs_bind.
  unfold SST_DEFAULT_EMPTY_BUFF_VAL. fold buf.
  assert (runs (if 0 <? cur_size m
    then bs <- sst_block_object_read_raw m SST_OBJECT_START_POSITION (cur_size m) ;;
         in_bounds (cur_size m <=? SST_ALIGNED_MAX_OBJECT_SIZE) ;; ret (splice 0 bs buf)
    else ret buf) (SstState d c) (fun b s' => b = splice 0 old buf /\ s' = SstState d c)) as Hr.
  { destruct (Z.ltb_spec 0 (cur_size m)).
    - apply runs_bind, runs_read_raw with V; unfold SST_OBJECT_START_POSITION; try done; try lia;
        [apply (i_ctx _ _ _ I)|by apply (inv_block_ok _ _ _ _ I)|].
      rewrite Z.add_0_r. fold (content V (bm V (active_metablock c)) m). fold old.
      apply runs_bind, runs_in_bounds; [apply Z.leb_le; lia|]. by apply runs_ret.
    - apply runs_ret. split; [|done]. clearbody old. assert (old = []) as -> by (apply nil_length_inv; lia).
      unfold splice, ztake, zdrop. simpl. by rewrite drop_0. }
  eapply runs_mono; [exact Hr|]. intros b s' [-> ->]. rewrite u32_small by lia.
  assert (zlen (splice 0 old buf) = SST_ALIGNED_MAX_OBJECT_SIZE) as Ls
    by (rewrite zlen_splice; lia).
  rewrite sst_utils_memcpy_spec by lia.
  assert (slice 0 n data = ztake n data) as -> by (unfold slice, zdrop; by rewrite drop_0).
  apply runs_ret. split; [|done]. f_equal. destruct (Z.ltb_spec (cur_size m) (off + n)).
  - by rewrite Z.max_r by lia.
  - rewrite Z.max_l by lia. by rewrite set_cur_size_id.
Qed.

(** The context while a write is committed: the old data block becomes the
    scratch data block. *)
Definition write_ctx c (l p : Z) : sst_asset_system_context :=
  if decide (l = 0) then c else set_header (set_scratch_idx p (meta_block_header c)) c.

Definition write_tables V (A X i : Z) (m : sst_assetmeta) (l : Z) (b : sst_block_metadata)
  : blocks :=
  copy_objects (copy_blocks
    (vwrite (vwrite V X (boff l) (encode_block_metadata b)) X (ooff i) (encode_assetmeta m))
    X A l) X A i.

Definition write_view V c (i : Z) (m : sst_assetmeta) (bs : list byte) : blocks :=
  let A := active_metablock c in let X := scratch_metablock c in
  let l := lblock m in let b := bm V A l in
  let W := write_tables (updated_block V (data_scratch c l) b bs (data_index m)) A X i m l
             (set_phys_id (data_scratch c l) b) in
  if decide (l = 0) then W
  else vcopy W X A (ooff 10) (SST_BLOCK_SIZE - ooff 10 - free_size (bm V A 0)).

Lemma updated_block_only V Y b bs off b' o :
  b' <> Y -> updated_block V Y b bs off b' o = V b' o.
Proof using Type.
  intros HY. unfold updated_block. revert b' o HY. fold (only_at V Y (updated_block V Y b bs off)).
  by apply only_at_vcopy, only_at_vcopy, only_at_vwrite.
Qed.

(** The scratch data block of a live object is not a block in use. *)
Lemma data_scratch_fresh V c lay i :
  inv V c lay -> live (om V (active_metablock c)) i ->
  let l := lblock (om V (active_metablock c) i) in
  valid_block (data_scratch c l) /\ data_scratch c l <> active_metablock c /\
  data_scratch c l <> phys_id (bm V (active_metablock c) l) /\
  (l <> 0 -> 2 <= data_scratch c l /\ 2 <= phys_id (bm V (active_metablock c) l) /\
             data_scratch c l = scratch_idx (meta_block_header c) /\ 2 < SST_TOTAL_NUM_OF_BLOCKS) /\
  (l = 0 -> data_scratch c l = scratch_metablock c).
Proof using All.
  intros I Hi l. pose proof (ctx_range c (i_ctx _ _ _ I)) as (HA & HX & Hne).
  destruct (live_bounds V c lay i I Hi) as (L1 & _). fold l in L1.
  pose proof (inv_blocks _ _ _ I) as IB. pose proof active_dblocks as Hn.
  pose proof layout_bounds as (_ & _ & _ & HT). pose proof (b_scratch_range _ _ IB) as Hs.
  unfold data_scratch. destruct (Z.eqb_spec l 0) as [E|E].
  - pose proof (live_home V c lay i I Hi E) as Hh. rewrite E, Hh. unfold valid_block. lia.
  - pose proof (b_dedicated _ _ IB l ltac:(lia)). pose proof (b_scratch _ _ IB l ltac:(lia)).
    unfold valid_block. lia.
Qed.

Lemma runs_set_data_scratch d c p l Q :
  Q tt (SstState d (write_ctx c l p)) ->
  runs (sst_meta_set_data_scratch p l) (SstState d c) Q.
Proof using All.
  intros HQ. unfold sst_meta_set_data_scratch, write_ctx, SST_LOGICAL_DBLOCK0 in *.
  destruct (Z.eqb_spec l 0), (decide (l = 0)); try done; simpl.
  - by apply runs_ret.
  - by apply runs_modify.
Qed.

Lemma write_ctx_blocks c l p :
  active_metablock (write_ctx c l p) = active_metablock c /\
  scratch_metablock (write_ctx c l p) = scratch_metablock c.
Proof using Type. unfold write_ctx. by case_decide. Qed.

Section write.
  Context d c V lay (i : Z) (data : list byte) (off n : Z).
  Local Abbreviation A := (active_metablock c).
  Local Abbreviation X := (scratch_metablock c).
  Local Abbreviation m := (om V A i).
  Local Abbreviation l := (lblock m).
  Local Abbreviation old := (content V (bm V A) m).
  Local Abbreviation cur' := (Z.max (cur_size m) (off + n)).
  Local Abbreviation m' := (set_cur_size cur' m).
  Local Abbreviation wc := (write_ctx c l (phys_id (bm V A l))).
  Local Abbreviation bs := (ztake (sst_get_aligned_flash_bytes cur') (plain_text old data off n)).
  Local Abbreviation W := (write_view V c i m' bs).
  Context (HR : DRep d V) (I : inv V c lay) (Hi : live (om V A) i)
    (Hoff : 0 <= off <= cur_size m) (Hn : 0 <= n <= zlen data) (Hmax : off + n <= max_size m).

(** The new content fits the space of the object. *)
Lemma write_size :
  0 <= cur' <= sst_get_aligned_flash_bytes cur' /\ cur' <= max_size m /\
  zlen bs = sst_get_aligned_flash_bytes cur' /\
  data_index m + sst_get_aligned_flash_bytes cur' <= ends (bm V A) l /\
  sst_get_aligned_flash_bytes cur' <= zlen (plain_text old data off n).
Proof using All.
  destruct (live_bounds V c lay i I Hi) as (L1 & L2 & L3 & L4 & L5 & L6 & L7).
  pose proof aligned_max_object as Ea. change SST_MAX_OBJECT_SIZE with 304 in Ea.
  assert (0 < SST_FLASH_PROGRAM_UNIT) by (destruct area_unit; lia).
  assert (zlen old = cur_size m) as Lo by (unfold content; rewrite zlen_vread; lia).
  pose proof (aligned_bytes cur') as [Ac _]; [lia|lia|].
  pose proof (aligned_mono cur' (max_size m)) as Am. unfold space in L6.
  destruct (plain_text_spec old data off n) as [Lp _]; try lia.
  rewrite zlen_ztake by lia. lia.
Qed.

Lemma wc_ok :
  active_metablock wc = A /\ scratch_metablock wc = X /\ ctx_blocks wc /\
  header_ok (meta_block_header wc) /\
  (2 < SST_TOTAL_NUM_OF_BLOCKS -> valid_block (scratch_idx (meta_block_header wc))).
Proof using All.
  destruct (write_ctx_blocks c l (phys_id (bm V A l))) as [E1 E2].
  pose proof (i_ctx _ _ _ I) as Hc. pose proof (i_header _ _ _ I) as (H1' & H2' & H3' & H4').
  pose proof (inv_blocks _ _ _ I) as IB. pose proof (b_scratch_range _ _ IB) as Hs.
  destruct (live_bounds V c lay i I Hi) as (L1 & _).
  destruct (inv_block_ok _ _ _ _ I L1) as (Hv & _). pose proof layout_bounds as (_ & _ & _ & HT).
  split_and!; try done.
  - unfold ctx_blocks. by rewrite E1, E2.
  - unfold write_ctx. case_decide; [done|]. unfold header_ok; cbn [meta_block_header set_header set_scratch_idx crypto scratch_idx fs_version active_swap_count]. split_and!; try done; try lia.
    unfold valid_block in Hv. unfold is_u32. lia.
  - unfold write_ctx. case_decide; [intros; unfold valid_block; lia|done].
Qed.

Lemma updated_A b o : b = A \/ b <> data_scratch c l ->
  updated_block V (data_scratch c l) (bm V A l) bs (data_index m) b o = V b o.
Proof using All.
  intros Hb. apply updated_block_only. destruct (data_scratch_fresh V c lay i I Hi) as (_ & ? & _).
  destruct Hb; congruence.
Qed.

Lemma runs_write_pre u Q :
  sst_core_get_object_idx u (SstState d c) = (Ok i, SstState d c) ->
  (forall d', DRep d' W -> Q tt (SstState d' wc)) ->
  runs (write_pre u data off n) (SstState d c) Q.
Proof using All.
  intros Hidx HQ. destruct write_size as (C1 & C2 & C3 & C4 & C5).
  destruct (live_bounds V c lay i I Hi) as (L1 & L2 & L3 & L4 & L5 & L6 & L7).
  destruct (data_scratch_fresh V c lay i I Hi) as (D1 & D2 & D3 & D4 & D5).
  destruct wc_ok as (E1 & E2 & E3 & E4 & E5). pose proof (proj1 Hi) as Hir.
  pose proof (inv_blocks _ _ _ I) as IB. pose proof (inv_block_ok _ _ _ _ I L1) as Bok.
  pose proof layout_bounds as (HN & _). pose proof (inv_block_ok _ _ _ 0 I ltac:(lia)) as B0.
  pose proof (ctx_range c (i_ctx _ _ _ I)) as (HA & HX & Hne).
  unfold write_pre.
  apply runs_bind, runs_or_return. eapply runs_val; [exact Hidx|].
  apply runs_bind, runs_or_return. eapply runs_val; [by apply (read_object_meta_eq _ _ _ _ HR I)|].
  apply runs_bind, runs_or_return. eapply runs_val; [by apply (read_block_metadata_eq _ _ _ _ HR I)|].
  apply runs_bind, runs_guard; [apply negb_true_iff, Z.ltb_ge; lia|].
  apply runs_bind. eapply runs_val; [by apply (prepare_plain_text_eq _ _ _ _ _ _ _ _ HR I)|].
  cbn [set_cur_size lblock data_index cur_size].
  apply runs_bind, runs_or_return, runs_dblock_update_scratch with V; try done; try lia.
  { rewrite (binv_data_start _ _ _ IB L1). lia. }
  intros d1 R1. apply runs_bind, runs_cur_data_scratch, runs_bind, runs_set_data_scratch.
  set (V1 := updated_block _ _ _ _ _) in R1.
  assert (forall o, V1 A o = V A o) as HV1 by (intros; apply updated_A; by left).
  apply runs_bind, runs_or_return. eapply runs_update_scratch_block_meta; [exact R1|done|done|].
  intros d2 R2. apply runs_bind, runs_or_return.
  eapply runs_update_scratch_object_meta; [exact R2|done|done|].
  intros d3 R3. apply runs_bind, runs_or_return.
  rewrite E2 in R3. set (V3 := vwrite (vwrite _ _ _ _) _ _ _) in R3.
  assert (only_at V1 X V3) as O3 by (by apply only_at_vwrite, only_at_vwrite).
  assert (forall V', only_at V1 X V' -> bm V' A 0 = bm V A 0) as HbmA.
  { intros V' O'. rewrite (only_at_bm V1 X) by (done || lia). apply bm_ext. intros. apply HV1. }
  eapply runs_copy_remaining_block_meta; [exact R3|done|done|by rewrite E1, HbmA|].
  intros d4 R4. apply runs_bind, runs_or_return.
  eapply runs_copy_remaining_object_meta; [exact R4|done|done|].
  intros d5 R5. rewrite E1, E2 in R5.
  assert (only_at V1 X (write_tables V1 A X i m' l (set_phys_id (data_scratch c l) (bm V A l)))) as O5
    by (by apply only_at_copy_objects, only_at_copy_blocks).
  change (DRep d5 (write_tables V1 A X i m' l (set_phys_id (data_scratch c l) (bm V A l)))) in R5.
  unfold write_view in HQ. cbn [lblock data_index set_cur_size] in HQ.
  unfold SST_LOGICAL_DBLOCK0. destruct (Z.eqb_spec l 0) as [E|E]; cbn [negb].
  - rewrite decide_True in HQ by done. by apply runs_ret, HQ.
  - rewrite decide_False in HQ by done. apply runs_or_return.
    eapply runs_migrate_data; [exact R5|done| | |]; rewrite E1, (HbmA _ O5); [done| |].
    { by rewrite (binv_data_start _ _ _ IB) by lia. }
    by rewrite E2.
Qed.

Lemma runs_write u Q :
  sst_core_get_object_idx u (SstState d c) = (Ok i, SstState d c) ->
  (forall d', DRep d' (finalized W wc) -> Q tt (SstState d' (finalized_ctx wc))) ->
  runs (sst_core_object_write u data off n) (SstState d c) Q.
Proof using All.
  intros Hidx HQ. apply (runs_ext _ _ _ _ (write_split u data off n _)).
  apply runs_bind, runs_write_pre; [done|]. intros d' R'.
  destruct wc_ok as (E1 & E2 & E3 & E4 & E5). eapply runs_update_finalize; [exact R'|done..].
Qed.

Local Abbreviation Y := (data_scratch c l).
Local Abbreviation b' := (set_phys_id Y (bm V A l)).
Local Abbreviation V1 := (updated_block V Y (bm V A l) bs (data_index m)).

(** The tables part of the scratch metadata block. *)
Lemma write_view_tables o :
  o < ooff 10 -> W X o = write_tables V1 A X i m' l b' X o.
Proof using All.
  intros Ho. destruct (live_bounds V c lay i I Hi) as (L1 & _).
  pose proof (binv_ends _ _ 0 (inv_blocks _ _ _ I) ltac:(lia)) as [He _].
  unfold ends, dstart in He. rewrite decide_True in He by done.
  unfold write_view. cbn [lblock data_index set_cur_size]. case_decide; [done|].
  by rewrite vcopy_spec, decide_False by lia.
Qed.

Lemma write_rebuilt : rebuilt V X A i m' l b' W.
Proof using All.
  destruct (live_bounds V c lay i I Hi) as (L1 & _). pose proof (proj1 Hi) as Hir.
  pose proof (ctx_range c (i_ctx _ _ _ I)) as (HA & HX & Hne).
  assert (zlen (encode_assetmeta m') = 20) as Lm by (by rewrite length_encode_assetmeta).
  assert (zlen (encode_block_metadata b') = 12) as Lb by (by rewrite length_encode_block_metadata).
  set (W3 := vwrite (vwrite V1 X (boff l) (encode_block_metadata b')) X (ooff i) (encode_assetmeta m')).
  assert (only_at V1 X W3) as O3 by (by apply only_at_vwrite, only_at_vwrite).
  assert (bm W3 A 0 = bm V A 0) as EA.
  { rewrite (only_at_bm V1 X) by (done || lia). apply bm_ext. intros. apply updated_A. by left. }
  assert (forall o, V1 A o = V A o) as HV1 by (intros; apply updated_A; by left).
  constructor; intros; rewrite write_view_tables by (unfold ooff, boff in *; lia);
    unfold write_tables; fold W3; rewrite copy_objects_spec by lia;
    rewrite ?copy_blocks_spec by (done || lia); rewrite ?EA; unfold W3;
    rewrite ?vwrite_spec, ?Lm, ?Lb, ?HV1; region.
Qed.

Lemma write_only b o : b <> X -> b <> Y -> W b o = V b o.
Proof using All.
  intros HbX HbY. transitivity (V1 b o); [|by apply updated_block_only].
  unfold write_view. cbn [lblock data_index set_cur_size].
  assert (only_at V1 X (write_tables V1 A X i m' l b')) as O
    by (by apply only_at_copy_objects, only_at_copy_blocks, only_at_vwrite, only_at_vwrite).
  case_decide; [by apply O|]. by apply (only_at_vcopy V1 X _ A _ _ O).
Qed.

(** Past the tables the metadata steps change nothing. *)
Lemma write_tables_data b o : b <> X \/ ooff 10 <= o -> write_tables V1 A X i m' l b' b o = V1 b o.
Proof using All.
  intros Hb. destruct (live_bounds V c lay i I Hi) as (L1 & _). pose proof (proj1 Hi) as Hir.
  pose proof (ctx_range c (i_ctx _ _ _ I)) as (HA & HX & Hne).
  unfold write_tables. rewrite copy_objects_spec, decide_False by (unfold ooff in *; lia).
  rewrite copy_blocks_spec by (done || lia). rewrite !decide_False by (unfold ooff, boff in *; lia).
  rewrite !vwrite_spec, length_encode_assetmeta, length_encode_block_metadata.
  by rewrite !decide_False by (unfold ooff, boff in *; lia).
Qed.

(** The new data block: the new content, everything else as it was. *)
Lemma write_data o :
  dstart l <= o < ends (bm V A) l ->
  W Y o = if decide (data_index m <= o < data_index m + sst_get_aligned_flash_bytes cur')
          then znth bs (o - data_index m) else V (phys_id (bm V A l)) o.
Proof using All.
  intros Ho. destruct (live_bounds V c lay i I Hi) as (L1 & L2 & L3 & L4 & L5 & L6 & L7).
  destruct (data_scratch_fresh V c lay i I Hi) as (D1 & D2 & D3 & D4 & D5).
  destruct write_size as (C1 & C2 & C3 & C4 & C5).
  pose proof (ctx_range c (i_ctx _ _ _ I)) as (HA & HX & Hne).
  assert (W Y o = V1 Y o) as ->.
  { unfold write_view. cbn [lblock data_index set_cur_size]. destruct (decide (l = 0)) as [E|E].
    - apply write_tables_data. right. unfold dstart in Ho. rewrite decide_True in Ho by done. lia.
    - rewrite (only_at_vcopy (write_tables V1 A X i m' l b') X); [|apply only_at_refl|].
      + apply write_tables_data. left. lia.
      + lia. }
  pose proof (binv_data_start _ _ _ (inv_blocks _ _ _ I) L1) as Hds.
  rewrite updated_block_spec by (rewrite ?C3, ?Hds; unfold ends in *; done || lia).
  rewrite C3, Hds. unfold ends in *. repeat case_decide; try done; lia.
Qed.

Lemma write_data_home o :
  l <> 0 -> ooff 10 <= o < ends (bm V A) 0 -> W X o = V A o.
Proof using All.
  intros E Ho. pose proof (ctx_range c (i_ctx _ _ _ I)) as (HA & HX & Hne).
  unfold write_view. cbn [lblock data_index set_cur_size]. rewrite decide_False by done.
  unfold ends in Ho. rewrite vcopy_spec by lia. rewrite decide_True by lia.
  rewrite write_tables_data by (left; lia). apply updated_A. by left.
Qed.

Lemma write_tinv :
  tinv (upd (om V A) i m') (commit_B (bm V A) X l b') lay X (scratch_idx (meta_block_header wc)).
Proof using All.
  destruct (live_bounds V c lay i I Hi) as (L1 & L2 & L3 & L4 & L5 & L6 & L7).
  destruct (data_scratch_fresh V c lay i I Hi) as (D1 & D2 & D3 & D4 & D5).
  destruct write_size as (C1 & C2 & _). pose proof (inv_blocks _ _ _ I) as IB.
  pose proof (ctx_range c (i_ctx _ _ _ I)) as (HA & HX & Hne).
  destruct (inv_block_ok _ _ _ _ I L1) as (_ & F1 & F2 & F3 & _).
  pose proof (binv_data_start _ _ _ IB L1) as Hds. constructor.
  - eapply oinv_ends; [apply oinv_write; [apply (inv_objects _ _ _ I)|done|lia]|].
    intros k Hk. rewrite ends_commit. unfold upd. case_decide; subst; done.
  - apply (binv_commit _ (scratch_idx (meta_block_header c))); try done; cbn [set_phys_id data_start free_size];
      rewrite ?Hds in *; try done.
    unfold moved_to, write_ctx; cbn [set_phys_id phys_id].
    destruct (decide (l = 0)) as [E|E]; [left; auto|]. right; right. split_and!; try done.
    by apply D4.
  - intros _. apply commit_B_home. cbn [set_phys_id phys_id]. done.
Qed.

Lemma commit_phys k :
  0 <= k < SST_NUM_ACTIVE_DBLOCKS ->
  phys_id (commit_B (bm V A) X l b' k) =
    if decide (k = l) then Y else if decide (k = 0) then X else phys_id (bm V A k).
Proof using Type. intros Hk. unfold commit_B, upd. repeat case_decide; done. Qed.

(** The object that is written. *)
Lemma write_content_self :
  content W (commit_B (bm V A) X l b') m' = splice off (ztake n data) old.
Proof using All.
  destruct (live_bounds V c lay i I Hi) as (L1 & L2 & L3 & L4 & L5 & L6 & L7).
  destruct write_size as (C1 & C2 & C3 & C4 & C5).
  assert (zlen old = cur_size m) as Lo by (unfold content; rewrite zlen_vread; lia).
  pose proof aligned_max_object as Ea. change SST_MAX_OBJECT_SIZE with 304 in Ea.
  assert (0 < SST_FLASH_PROGRAM_UNIT) by (destruct area_unit; lia).
  destruct (plain_text_spec old data off n) as [_ <-]; try lia. rewrite Lo.
  unfold content at 1. cbn [set_cur_size lblock data_index cur_size].
  rewrite commit_phys, decide_True by done.
  apply zlist_ext; rewrite zlen_vread by lia; [rewrite zlen_ztake; lia|].
  intros k Hk. rewrite znth_vread by lia. rewrite write_data by lia.
  rewrite decide_True by lia. rewrite !znth_ztake by lia. f_equal. lia.
Qed.

(** Every other object. *)
Lemma write_content_other j :
  live (om V A) j -> j <> i ->
  content W (commit_B (bm V A) X l b') (om V A j) = content V (bm V A) (om V A j).
Proof using All.
  intros Hj Hji. destruct (live_bounds V c lay j I Hj) as (L1 & L2 & L3 & L4 & L5 & L6 & L7).
  destruct (data_scratch_fresh V c lay i I Hi) as (D1 & D2 & D3 & D4 & D5).
  destruct write_size as (C1 & C2 & C3 & C4 & C5).
  pose proof (ctx_range c (i_ctx _ _ _ I)) as (HA & HX & Hne).
  pose proof (inv_blocks _ _ _ I) as IB. unfold content. set (k := lblock (om V A j)) in *.
  rewrite commit_phys by done. apply vread_ext. intros a Ha.
  destruct (decide (k = l)) as [E|E].
  - rewrite write_data by (rewrite <- E; lia). rewrite decide_False; [by rewrite E|].
    pose proof (oinv_disjoint _ _ _ (inv_objects _ _ _ I) j i Hj Hi Hji E) as Hd.
    destruct (live_bounds V c lay i I Hi) as (_ & _ & M3 & M4 & _).
    pose proof (aligned_mono cur' (max_size m)) as Am. unfold space in *. lia.
  - destruct (decide (k = 0)) as [E0|E0].
    + pose proof (live_home V c lay j I Hj E0) as Hh. rewrite E0, Hh in *.
      unfold dstart in L2. rewrite decide_True in L2 by done. apply write_data_home; [congruence|lia].
    + assert (1 <= k < SST_NUM_ACTIVE_DBLOCKS) as Hk by lia.
      pose proof (b_dedicated _ _ IB k Hk). pose proof (b_scratch _ _ IB k Hk).
      apply write_only; [lia|]. unfold data_scratch. case_match; lia.
Qed.

(** What write leaves in the scratch metadata block before the commit. *)
Lemma write_built σ :
  stores V A σ ->
  tinv (om W X) (bm W X) lay X (scratch_idx (meta_block_header wc)) /\
  stores W X (<[unique_id m := SstObject (max_size m) (splice off (ztake n data) old)]> σ).
Proof using All.
  intros Hs. destruct (live_bounds V c lay i I Hi) as (L1 & _). pose proof (proj1 Hi) as Hir.
  pose proof (ctx_range c (i_ctx _ _ _ I)) as (HA & HX & Hne).
  pose proof (inv_objects _ _ _ I) as IO.
  destruct (rebuilt_tinv _ _ _ _ _ _ _ _ _ _ write_rebuilt Hir L1 HX write_tinv)
    as (HO & HBk & IT). split; [done|].
  assert (om W X i = m') as Ei by (by rewrite HO, upd_eq).
  assert (forall j, live (om V A) j -> j <> i -> om W X j = om V A j) as Ej
    by (intros j [Hj _] ?; by rewrite HO, upd_ne).
  replace (SstObject (max_size m) (splice off (ztake n data) old)) with (obj_at W X (om W X i)); cycle 1.
  { rewrite Ei. unfold obj_at. f_equal. rewrite <- write_content_self.
    unfold content. rewrite HBk by done. done. }
  apply (stores_insert V A W X σ i); try done.
  - intros j. destruct (decide (0 <= j < 10)) as [Hj|Hj].
    + unfold live. rewrite HO by done. destruct (decide (j = i)) as [->|Hji].
      * rewrite upd_eq. cbn [set_cur_size unique_id]. unfold live in Hi. tauto.
      * rewrite upd_ne by done. tauto.
    + unfold live. split; [tauto|]. intros [->|?]; tauto.
  - by rewrite Ei.
  - intros j Hj E. by apply (o_uniq _ _ _ IO).
  - intros j Hj Hji. rewrite Ej by done. split; [done|]. unfold obj_at. f_equal.
    rewrite <- (write_content_other j Hj Hji). unfold content. rewrite HBk; [done|].
    apply (o_size _ _ _ IO j Hj).
Qed.
End write.

(** Writing [n] bytes at [off]: the bytes replace or extend the content, and
    nothing else changes.  An offset past the end is refused. *)
Lemma object_write_spec P s σ u o data off n :
  sst_rep_in P s σ -> σ !! u = Some o -> 0 <= off -> 0 <= n <= zlen data ->
  off + n <= o_max o ->
  if decide (off <= zlen (o_data o))
  then runs (sst_core_object_write u data off n) s
         (fun _ s' => sst_rep_in P s'
            (<[u := SstObject (o_max o) (splice off (ztake n data) (o_data o))]> σ))
  else sst_core_object_write u data off n s = (Err PSA_SST_ERR_PARAM_ERROR, s).
Proof using All.
  destruct s as [d c]. intros (V & lay & HR & I & Hs & HP) Hu Hoff Hn Hmax. cbn [sst_dev sst_system_ctx] in *.
  destruct (find_present d c V lay σ u o HR I Hs Hu) as (i & Hi & Hiu & <- & E).
  rewrite (obj_at_len V c lay i I Hi). cbn [obj_at o_max o_data] in *. case_decide as Hc.
  - apply (runs_write d c V lay i data off n HR I Hi); try done. intros d' R'.
    destruct (write_built d c V lay i data off n HR I Hi ltac:(lia) Hn Hmax σ Hs) as [IT Hst].
    destruct (wc_ok d c V lay i data off n HR I Hi ltac:(lia) Hn Hmax) as (E1 & E2 & E3 & E4 & _).
    rewrite Hiu in Hst. eapply commit_rep; try done; rewrite E2; done.
  - destruct (live_bounds V c lay i I Hi) as (L1 & _).
    unfold sst_core_object_write.
    rewrite (bind_Ok _ _ _ _ _ (or_return_Ok _ _ _ _ _ E)).
    rewrite (bind_Ok _ _ _ _ _ (or_return_Ok _ _ _ _ _
               (read_object_meta_eq _ _ _ _ HR I i (proj1 Hi)))).
    rewrite (bind_Ok _ _ _ _ _ (or_return_Ok _ _ _ _ _
               (read_block_metadata_eq _ _ _ _ HR I _ L1))).
    destruct (Z.ltb_spec (cur_size (om V (active_metablock c) i)) off); [done|lia].
Qed.

Lemma object_write_absent s σ u data off n :
  sst_rep s σ -> u <> 0 -> σ !! u = None ->
  sst_core_object_write u data off n s = (Err PSA_SST_ERR_ASSET_NOT_FOUND, s).
Proof using All.
  destruct s as [d c]. intros (V & lay & HR & I & Hs & _) Hne Hu. unfold sst_core_object_write.
  by rewrite (bind_Err _ _ _ _ _ (or_return_Err _ _ _ _ _
                (find_absent d c V lay σ u HR I Hs Hne Hu))).
Qed.
End ops.
