(* ===== verification/SstCoreDelete.v ===== *)
(** * Secure storage core: deleting an object

    [sst_core_object_delete] for an object of logical block 0: the object
    disappears, the objects behind it are moved down and keep their content. *)

From stdpp Require Import sets gmap.
From S2P Require Import Prelude FlashDriver SstDefs SstFlash SstCore SstCoreSpec SstTable SstCoreInv SstCoreOps.

Section delete.
  Context {D : Type} `{!ARM_DRIVER_FLASH D, !FlashDevice D, !sst_layout, !sst_area_ok D,
                       !sst_build_ok}.
  Context (c : sst_asset_system_context) (V : blocks) (lay : Z -> list Z) (i : Z)
    (l1 l2 : list Z).
  Local Abbreviation A := (active_metablock c).
  Local Abbreviation X := (scratch_metablock c).
  Local Abbreviation T := (om V A).
  Local Abbreviation B := (bm V A).
  Local Abbreviation di := (data_index (T i)).
  Local Abbreviation sp := (space (T i)).
  Local Abbreviation en := (ends B 0).
  Context (I : inv V c lay) (Hi : live T i) (Hz : lblock (T i) = 0)
    (Hlay : lay 0 = l1 ++ i :: l2).

(** ** The loop over the table *)

Definition behind_obj (j : Z) : Prop := j <> i /\ behind T di j.

Fixpoint moved_list (n : nat) (j : Z) : list Z :=
  match n with
  | O => []
  | S n => if decide (behind_obj j) then j :: moved_list n (j + 1) else moved_list n (j + 1)
  end.

Lemma elem_of_moved_list n j k :
  k ∈ moved_list n j <-> j <= k < j + Z.of_nat n /\ behind_obj k.
Proof using All.
  revert j. induction n as [|n IH]; intros j; cbn [moved_list].
  - split; [set_solver|lia].
  - assert (j <= k < j + Z.of_nat (S n) <-> k = j \/ j + 1 <= k < j + 1 + Z.of_nat n) as -> by lia.
    case_decide as C; rewrite ?elem_of_cons, IH; split; intros Hk; destruct_and?; try tauto.
    + destruct Hk as [->|?]; tauto.
    + destruct H1 as [->|?]; tauto.
Qed.

Lemma NoDup_moved_list n j : NoDup (moved_list n j).
Proof using All.
  revert j. induction n as [|n IH]; intros j; cbn [moved_list]; [constructor|].
  case_decide; [|done]. constructor; [|done]. rewrite elem_of_moved_list. lia.
Qed.

Fixpoint min_index (src : Z) (k : list Z) : Z :=
  match k with
  | [] => src
  | j :: k => min_index (if data_index (T j) <? src then data_index (T j) else src) k
  end.

Lemma min_index_spec src k :
  min_index src k <= src /\ (forall j, j ∈ k -> min_index src k <= data_index (T j)) /\
  (min_index src k = src \/ exists j, j ∈ k /\ min_index src k = data_index (T j)).
Proof using All.
  revert src. induction k as [|j k IH]; intros src; cbn [min_index].
  - split_and!; [lia|set_solver|auto].
  - set (src' := if _ : bool then _ else _). specialize (IH src') as (H1' & H2' & H3').
    assert (src' <= src /\ src' <= data_index (T j) /\ (src' = src \/ src' = data_index (T j))) as Hs
      by (unfold src'; destruct (Z.ltb_spec (data_index (T j)) src); lia).
    split_and!; [lia| |].
    + intros j' [->|Hj]%elem_of_cons; [lia|]. by apply H2'.
    + destruct H3' as [E|(j' & Hj & E)].
      * destruct Hs as (_ & _ & [Hs|Hs]); [left; lia|right; exists j]. split; [set_solver|lia].
      * right. exists j'. split; [set_solver|done].
Qed.

(** The object table the loop writes. *)
Fixpoint delete_tables (n : nat) (j : Z) (W : blocks) : blocks :=
  match n with
  | O => W
  | S n => delete_tables n (j + 1)
             (if decide (j = i) then W
              else vwrite W X (ooff j) (encode_assetmeta (deleted_T T i j)))
  end.

Lemma delete_tables_spec n j W b o :
  0 <= j -> j + Z.of_nat n <= 10 ->
  delete_tables n j W b o =
    if decide (b = X /\ ooff j <= o < ooff (j + Z.of_nat n) /\
               ~ (ooff i <= o < ooff i + 20))
    then znth (encode_assetmeta (deleted_T T i ((o - ooff 0) / 20))) ((o - ooff 0) mod 20)
    else W b o.
Proof using All.
  revert j W. induction n as [|n IH]; intros j W Hj Hn; cbn [delete_tables].
  - rewrite decide_False; [done|]. replace (j + Z.of_nat 0) with j by lia. lia.
  - rewrite IH by lia. replace (j + 1 + Z.of_nat n) with (j + Z.of_nat (S n)) by lia.
    destruct (decide (b = X /\ ooff (j + 1) <= o < ooff (j + Z.of_nat (S n)) /\ _)) as [C|C].
    { rewrite decide_True; [done|]. unfold ooff in *. lia. }
    destruct (decide (j = i)) as [->|Hne].
    + rewrite decide_False; [done|]. unfold ooff in *. lia.
    + rewrite vwrite_spec, length_encode_assetmeta.
      destruct (decide (b = X /\ ooff j <= o < ooff j + Z.of_nat 20)) as [C'|C'].
      * rewrite decide_True by (unfold ooff in *; lia). destruct C' as [_ Ho].
        replace (o - ooff 0) with (j * 20 + (o - ooff j)) by (unfold ooff; lia).
        rewrite Z.div_add_l, Z.div_small, Z.add_0_r by lia.
        by rewrite Z.add_comm, Z.mod_add, Z.mod_small by lia.
      * rewrite decide_False; [done|]. unfold ooff in *. lia.
Qed.

Lemma delete_tables_only n j W : only_at V X W -> only_at V X (delete_tables n j W).
Proof using All.
  revert j W. induction n as [|n IH]; intros j W HW; cbn [delete_tables]; [done|].
  apply IH. case_decide; [done|]. by apply only_at_vwrite.
Qed.

Lemma zero_lt : 0 <= 0 < SST_NUM_ACTIVE_DBLOCKS.
Proof using All. pose proof layout_bounds. lia. Qed.

Lemma en_bounds : ooff 10 <= en <= SST_BLOCK_SIZE /\ 0 <= ooff 10.
Proof using All.
  pose proof (binv_ends _ _ 0 (inv_blocks _ _ _ I) zero_lt) as [He Hd].
  unfold dstart in *. by rewrite decide_True in * by done.
Qed.

(** The delete loop does not wrap around. *)
Lemma behind_shift j :
  0 <= j < 10 -> behind_obj j -> u32 (data_index (T j) - sp) = data_index (T j) - sp.
Proof using All.
  intros Hj [Hne Hb]. pose proof (inv_objects _ _ _ I) as IO. apply u32_small.
  destruct (o_u32 _ _ _ IO j Hj) as (_ & U & _). unfold is_u32 in U.
  pose proof en_bounds as [[E1 He] E2].
  pose proof (delete_space _ _ _ _ _ _ IO Hi Hz Hlay He).
  destruct (oinv_placed _ _ _ IO i Hi) as [P _].
  rewrite Hz in P. unfold dstart in P. rewrite decide_True in P by done.
  apply (delete_behind _ _ _ _ _ _ IO Hi Hz Hlay He) in Hb as [Hm|[_ ?]]; [|lia|done|done].
  pose proof (delete_after _ _ _ _ _ _ IO Hi Hz Hlay He j Hm). lia.
Qed.

Lemma space_nonneg m : 0 <= space m.
Proof using All. apply aligned_nonneg. Qed.

Lemma total_nonneg k : 0 <= total T k.
Proof using All. induction k as [|j k IH]; simpl; [lia|]. pose proof (space_nonneg (T j)). lia. Qed.

Lemma runs_delete_loop n j src nbr d W Q :
  DRep d W -> only_at V X W -> 0 <= j -> j + Z.of_nat n <= 10 -> 0 <= nbr ->
  nbr + total T (moved_list n j) < 2 ^ 32 ->
  (forall d', DRep d' (delete_tables n j W) ->
     Q (min_index src (moved_list n j), nbr + total T (moved_list n j)) (SstState d' c)) ->
  runs (delete_object_loop n j i 0 di sp src nbr) (SstState d c) Q.
Proof using All.
  pose proof (i_ctx _ _ _ I) as Hc. pose proof (ctx_range c Hc) as (HA & HX & Hne).
  revert j src nbr d W. induction n as [|n IH]; intros j src nbr d W HR HW Hj Hn Hnb Ht HQ.
  { apply runs_ret. specialize (HQ d HR). cbn [moved_list total min_index] in HQ.
    by rewrite Z.add_0_r in HQ. }
  cbn [delete_object_loop moved_list delete_tables] in *.
  destruct (Z.eqb_spec j i) as [E|E].
  { rewrite decide_False in Ht, HQ by (intros [? _]; done). rewrite decide_True in HQ by done.
    eapply IH; [exact HR|done|lia|lia|done|done|done]. }
  rewrite (decide_False (P := j = i)) in HQ by done.
  apply runs_bind, runs_read_object_meta with W; try done.
  { unfold SST_NUM_ASSETS; lia. }
  { rewrite (only_at_om V X) by (done || lia). apply (inv_object_ok _ _ _ _ I). lia. }
  rewrite (only_at_om V X) by (done || lia).
  assert ((lblock (T j) =? 0) && (di <? data_index (T j)) = bool_decide (behind_obj j)) as ->.
  { unfold behind_obj, behind. destruct (Z.eqb_spec (lblock (T j)) 0), (Z.ltb_spec di (data_index (T j)));
      cbn [andb]; symmetry; rewrite ?bool_decide_eq_true, ?bool_decide_eq_false; lia. }
  assert ((if bool_decide (behind_obj j)
           then set_data_index (u32 (data_index (T j) - sp)) (T j) else T j) = deleted_T T i j) as ->.
  { unfold deleted_T. rewrite (decide_False (P := j = i)) by done.
    case_bool_decide as Hb; destruct (decide (behind T di j)) as [Hb'|Hb'].
    - rewrite behind_shift; [done|lia|done].
    - by destruct Hb.
    - by destruct Hb.
    - done. }
  apply runs_bind, runs_ignore, runs_update_scratch_object_meta with W; try done.
  { unfold SST_NUM_ASSETS; lia. }
  intros d1 R1. pose proof (total_nonneg (moved_list n (j + 1))). pose proof (space_nonneg (T j)).
  case_bool_decide as Hb.
  - rewrite decide_True in Ht, HQ by done. cbn [total min_index andb] in *.
    fold (space (T j)) in *. rewrite u32_small by lia.
    eapply IH; [exact R1|by apply only_at_vwrite|lia..|].
    intros d' R'. specialize (HQ d' R'). by rewrite Z.add_assoc in HQ.
  - rewrite decide_False in Ht, HQ by done. cbn [andb].
    eapply IH; [exact R1|by apply only_at_vwrite|lia..|done].
Qed.

(** ** The whole operation *)

Definition delete_block : sst_block_metadata :=
  {| phys_id := X; data_start := data_start (B 0); free_size := free_size (B 0) + sp |}.

Definition delete_view : blocks :=
  let W2 := delete_tables 10 0
              (vwrite V X (ooff i) (encode_assetmeta (deleted_T T i i))) in
  let W3 := vwrite W2 X di (vread W2 A (di + sp) (en - (di + sp))) in
  let W4 := vcopy W3 X A (ooff 10) (di - ooff 10) in
  copy_blocks (vwrite W4 X (boff 0) (encode_block_metadata delete_block)) X A 0.

Lemma delete_facts :
  ooff 10 <= di /\ 0 < sp /\ di + sp <= en /\ data_start (B 0) = ooff 10 /\
  phys_id (B 0) = A /\ free_size (B 0) = SST_BLOCK_SIZE - en.
Proof using All.
  pose proof (inv_objects _ _ _ I) as IO. pose proof en_bounds as [[E1 He] E2].
  pose proof (delete_space _ _ _ _ _ _ IO Hi Hz Hlay He).
  destruct (oinv_placed _ _ _ IO i Hi) as [P1 P2]. rewrite Hz in P1, P2.
  rewrite (binv_data_start _ _ _ (inv_blocks _ _ _ I) zero_lt). unfold dstart in *.
  rewrite decide_True in * by done. pose proof (live_home V c lay i I Hi Hz). unfold ends in *. lia.
Qed.

(** The bytes to move are those behind the object, and they start at its end. *)
Lemma delete_moved :
  total T (moved_list 10 0) = en - (di + sp) /\
  (0 < total T (moved_list 10 0) -> min_index SST_BLOCK_SIZE (moved_list 10 0) = di + sp).
Proof using All.
  pose proof (inv_objects _ _ _ I) as IO. pose proof en_bounds as [[E1 He] E2].
  assert (total T (moved_list 10 0) = en - (di + sp)) as Et.
  { apply (delete_total _ _ _ _ _ _ IO Hi Hz Hlay He); [apply NoDup_moved_list|].
    intros j. rewrite elem_of_moved_list. unfold behind_obj. lia || tauto. }
  split; [done|]. intros Hpos. destruct delete_facts as (F1 & F2 & F3 & _).
  destruct (delete_chains _ _ _ _ _ _ IO Hi Hz Hlay He) as [_ C].
  assert (exists k l2', l2 = k :: l2') as (k & l2' & El).
  { destruct l2 as [|k l2']; [cbn [chain] in C; lia|eauto]. }
  assert (k ∈ l2) as Hk2 by (rewrite El; apply list_elem_of_here).
  rewrite El in C. destruct C as [Ck _].
  destruct (min_index_spec SST_BLOCK_SIZE (moved_list 10 0)) as (M1 & M2 & M3).
  assert (k ∈ moved_list 10 0) as Hk.
  { destruct (delete_index _ _ _ _ _ _ IO Hi Hz Hlay He k) as (Hr & Hne & _);
      [apply elem_of_app; by right|].
    apply elem_of_moved_list. split; [lia|]. split; [done|].
    apply (delete_behind _ _ _ _ _ _ IO Hi Hz Hlay He); try done. by left. }
  specialize (M2 k Hk). destruct M3 as [E|(j & Hj & Ej)]; [lia|].
  apply elem_of_moved_list in Hj as [Hr [Hne Hb]].
  apply (delete_behind _ _ _ _ _ _ IO Hi Hz Hlay He) in Hb as [Hm|[_ ?]]; [|lia|lia|done].
  pose proof (delete_after _ _ _ _ _ _ IO Hi Hz Hlay He j Hm). lia.
Qed.

Lemma runs_delete_pre d u Q :
  DRep d V -> unique_id (T i) = u ->
  sst_core_get_object_idx u (SstState d c) = (Ok i, SstState d c) ->
  (forall d', DRep d' delete_view -> Q tt (SstState d' c)) ->
  runs (delete_pre u) (SstState d c) Q.
Proof using All.
  intros HR Hu Hidx HQ. pose proof (i_ctx _ _ _ I) as Hc. pose proof (ctx_range c Hc) as (HA & HX & Hne).
  destruct delete_facts as (F1 & F2 & F3 & F4 & F5 & F6). destruct delete_moved as [Mt Mm].
  pose proof en_bounds as [[E1 He] E2]. pose proof layout_bounds as (HN & _ & HB & _).
  pose proof (proj1 Hi) as Hir. pose proof (inv_block_ok _ _ _ 0 I zero_lt) as B0.
  unfold delete_pre.
  apply runs_bind, runs_or_return. eapply runs_val; [exact Hidx|].
  apply runs_bind. eapply runs_val; [by apply (read_object_meta_eq _ _ _ _ HR I)|].
  unfold sst_utils_validate_uuid, SST_INVALID_UUID.
  destruct (Z.eqb_spec (unique_id (T i)) 0) as [E|_]; [by destruct Hi|].
  assert ({| lblock := 0; data_index := di; cur_size := 0; max_size := 0; unique_id := 0 |}
          = deleted_T T i i) as -> by (unfold deleted_T; by rewrite decide_True).
  fold sp. rewrite Hz.
  apply runs_bind, runs_ignore, runs_update_scratch_object_meta with V; try done.
  intros d1 R1. set (W1 := vwrite V X _ _) in R1.
  assert (only_at V X W1) as O1 by (by apply only_at_vwrite).
  change (Z.to_nat SST_NUM_ASSETS) with 10%nat.
  apply runs_bind. eapply runs_delete_loop; [exact R1|done|lia|done|lia|lia|]. set (W2 := delete_tables 10 0 W1).
  assert (only_at V X W2) as O2 by (by apply delete_tables_only).
  intros d2 R2. rewrite Z.add_0_l.
  unfold sst_compact_dblock.
  assert (bm W2 A 0 = B 0) as EB by (apply (only_at_bm V X); done || lia).
  apply runs_bind, runs_read_block_metadata with W2; try done; [apply zero_lt|by rewrite EB|].
  rewrite EB. apply runs_bind, runs_cur_data_scratch.
  change (data_scratch c 0) with X. cbn [set_free_size phys_id data_start]. rewrite F4, F5.
  rewrite Mt in *. rewrite u32_small by lia.
  set (W3 := vwrite W2 X di (vread W2 A (di + sp) (en - (di + sp)))).
  apply runs_bind.
  assert (runs (if 0 <? en - (di + sp)
     then or_return (sst_flash_block_to_block_move X di A (min_index SST_BLOCK_SIZE (moved_list 10 0))
            (en - (di + sp))) PSA_SST_ERR_SYSTEM_ERROR
     else ret tt) (SstState d2 c) (fun _ s' => exists d3, s' = SstState d3 c /\ DRep d3 W3)) as Hmv.
  { destruct (Z.ltb_spec 0 (en - (di + sp))).
    - rewrite Mm by done. apply runs_or_return. eapply runs_flash_move; try exact R2; try lia.
      + by apply ctx_scratch_valid.
      + by apply ctx_active_valid.
      + eauto.
    - apply runs_ret. exists d2. split; [done|]. eapply DRep_ext; [exact R2|]. intros b o _ _.
      unfold W3. rewrite vmove_spec by lia. by rewrite decide_False by lia. }
  eapply runs_mono; [exact Hmv|]. intros [] s' (d3 & -> & R3).
  set (W4 := vcopy W3 X A (ooff 10) (di - ooff 10)).
  apply runs_bind.
  assert (runs (if ooff 10 <? di
     then or_return (sst_flash_block_to_block_move X (ooff 10) A (ooff 10) (di - ooff 10))
            PSA_SST_ERR_SYSTEM_ERROR
     else ret tt) (SstState d3 c) (fun _ s' => exists d4, s' = SstState d4 c /\ DRep d4 W4)) as Hmv'.
  { destruct (Z.ltb_spec (ooff 10) di).
    - apply runs_or_return. eapply runs_flash_move; try exact R3; try lia.
      + by apply ctx_scratch_valid.
      + by apply ctx_active_valid.
      + eauto.
    - apply runs_ret. exists d3. split; [done|]. eapply DRep_ext; [exact R3|]. intros b o _ _.
      unfold W4. rewrite vcopy_spec by lia. by rewrite decide_False by lia. }
  eapply runs_mono; [exact Hmv'|]. intros [] s' (d4 & -> & R4).
  apply runs_bind. unfold sst_meta_set_data_scratch at 1. cbn [SST_LOGICAL_DBLOCK0 Z.eqb negb].
  apply runs_ret, runs_bind, runs_try_err.
  eapply runs_update_scratch_block_meta; try exact R4; try done; [apply zero_lt|].
  intros d5 R5. apply runs_bind, runs_try_err.
  assert (only_at V X W4) as O4 by (by apply only_at_vcopy, only_at_vwrite).
  eapply runs_copy_remaining_block_meta; try exact R5; try done; [apply zero_lt| |].
  { rewrite (only_at_bm V X); [done|by apply only_at_vwrite|lia]. }
  intros d6 R6. by apply runs_ret, HQ.
Qed.

Lemma runs_delete d u Q :
  DRep d V -> unique_id (T i) = u ->
  sst_core_get_object_idx u (SstState d c) = (Ok i, SstState d c) ->
  (forall d', DRep d' (finalized delete_view c) -> Q tt (SstState d' (finalized_ctx c))) ->
  runs (sst_core_object_delete u) (SstState d c) Q.
Proof using All.
  intros HR Hu Hidx HQ. apply (runs_ext _ _ _ _ (delete_split u _)).
  apply runs_bind, runs_delete_pre; try done. intros d' R'. apply runs_ignore.
  eapply runs_update_finalize;
    [exact R'|apply (i_ctx _ _ _ I)|apply (i_header _ _ _ I)|by apply (scratch_valid V c lay)|done].
Qed.

Local Abbreviation W1 := (vwrite V X (ooff i) (encode_assetmeta (deleted_T T i i))).

(** Above the block table, [delete_view] is the loop's table and the moved data. *)
Lemma delete_view_upper o :
  ooff 0 <= o ->
  delete_view X o =
    if decide (ooff 10 <= o < di) then V A o
    else if decide (di <= o < en - sp) then V A (o + sp)
    else delete_tables 10 0 W1 X o.
Proof using All.
  intros Ho. pose proof (ctx_range c (i_ctx _ _ _ I)) as (HA & HX & Hne).
  destruct delete_facts as (F1 & F2 & F3 & _). pose proof layout_bounds as (HN & _).
  assert (only_at V X (delete_tables 10 0 W1)) as O2 by (by apply delete_tables_only, only_at_vwrite).
  unfold delete_view. rewrite copy_blocks_spec by (done || apply zero_lt).
  rewrite !decide_False by (unfold ooff, boff in *; lia).
  rewrite vwrite_spec, length_encode_block_metadata, decide_False by (unfold ooff, boff in *; lia).
  rewrite vcopy_spec by lia. rewrite !vmove_spec by lia.
  repeat case_decide; try done; try lia; rewrite O2 by lia; f_equal; lia.
Qed.

Lemma delete_om j : 0 <= j < 10 -> om delete_view X j = deleted_T T i j.
Proof using All.
  intros Hj. pose proof (inv_objects _ _ _ I) as IO. pose proof en_bounds as [[E1 He] E2].
  pose proof (oinv_delete _ _ _ _ _ _ IO Hi Hz Hlay He) as ID.
  destruct delete_facts as (F1 & F2 & F3 & _). pose proof (proj1 Hi) as Hir.
  apply om_written; [by apply (o_u32 _ _ _ ID)|]. intros o Ho.
  rewrite delete_view_upper by (unfold ooff in *; lia).
  rewrite !decide_False by (unfold ooff in *; lia). rewrite delete_tables_spec by lia.
  destruct (decide (j = i)) as [->|Hne].
  - rewrite decide_False by lia. rewrite vwrite_spec, length_encode_assetmeta.
    by rewrite decide_True by lia.
  - rewrite decide_True by (unfold ooff in *; lia).
    replace (o - ooff 0) with (j * 20 + (o - ooff j)) by (unfold ooff; lia).
    rewrite Z.div_add_l, Z.div_small, Z.add_0_r by lia.
    by rewrite Z.add_comm, Z.mod_add, Z.mod_small by lia.
Qed.

Lemma delete_only : only_at V X delete_view.
Proof using All.
  apply only_at_copy_blocks, only_at_vwrite, only_at_vcopy, only_at_vwrite, delete_tables_only.
  by apply only_at_vwrite.
Qed.

Lemma delete_bm k :
  0 <= k < SST_NUM_ACTIVE_DBLOCKS -> bm delete_view X k = commit_B B X 0 delete_block k.
Proof using All.
  intros Hk. pose proof (ctx_range c (i_ctx _ _ _ I)) as (HA & HX & Hne).
  destruct delete_facts as (F1 & F2 & F3 & F4 & F5 & F6). pose proof en_bounds as [[E1 He] E2].
  pose proof layout_bounds as (HN & _ & HB & _).
  unfold commit_B. destruct (decide (k = 0)) as [->|Hk0].
  - rewrite upd_eq. apply bm_written.
    + unfold block_metadata_u32, is_u32, delete_block. cbn [phys_id data_start free_size].
      rewrite F4, F6. lia.
    + intros o Ho. unfold delete_view. rewrite copy_blocks_spec by (done || lia).
      rewrite !decide_False by (unfold ooff, boff in *; lia).
      rewrite vwrite_spec, length_encode_block_metadata. by rewrite decide_True by lia.
  - rewrite !upd_ne by done. apply bm_ext. intros o Ho.
    unfold delete_view. rewrite copy_blocks_spec by (done || lia).
    rewrite decide_False by lia. rewrite decide_True by (unfold ooff, boff in *; lia).
    apply (only_at_vwrite V X); [|lia]. apply only_at_vcopy, only_at_vwrite, delete_tables_only.
    by apply only_at_vwrite.
Qed.

Lemma delete_tinv :
  tinv (om delete_view X) (bm delete_view X) (upd lay 0 (l1 ++ l2)) X
    (scratch_idx (meta_block_header c)).
Proof using All.
  pose proof (inv_objects _ _ _ I) as IO. pose proof (inv_blocks _ _ _ I) as IB.
  pose proof (ctx_range c (i_ctx _ _ _ I)) as (HA & HX & Hne).
  destruct delete_facts as (F1 & F2 & F3 & F4 & F5 & F6). pose proof en_bounds as [[E1 He] E2].
  eapply (tinv_ext (deleted_T T i) _ (commit_B B X 0 delete_block));
    [|intros; by rewrite delete_om|intros; by rewrite delete_bm].
  constructor.
  - eapply oinv_ends; [by apply (oinv_delete _ _ _ _ _ _ IO)|].
    intros k Hk. rewrite ends_commit. unfold upd, delete_block; cbn [free_size].
    case_decide; [|done]. rewrite F6. lia.
  - apply (binv_commit _ (scratch_idx (meta_block_header c))); try done; try apply zero_lt;
      unfold delete_block, dstart; cbn [data_start free_size]; rewrite ?F4, ?F6, ?decide_True by done;
      try done; try lia. by left.
  - intros _. by apply commit_B_home.
Qed.

(** The remaining objects keep their content, wherever they end up. *)
Lemma delete_content j :
  live T j -> j <> i ->
  content delete_view (bm delete_view X) (deleted_T T i j) = content V B (T j).
Proof using All.
  intros Hj Hji. pose proof (inv_objects _ _ _ I) as IO. pose proof en_bounds as [[E1 He] E2].
  pose proof (ctx_range c (i_ctx _ _ _ I)) as (HA & HX & Hne).
  destruct delete_facts as (F1 & F2 & F3 & F4 & F5 & F6). pose proof layout_bounds as (HN & _).
  destruct (live_bounds V c lay j I Hj) as (L1 & L2 & L3 & L4 & L5 & L6 & L7).
  destruct (deleted_fields _ _ _ _ _ _ IO Hi Hz Hlay He j Hji) as (D1 & D2 & _ & _ & _).
  unfold content. rewrite D1, D2, delete_bm by done.
  assert (lblock (T j) = 0 \/ 1 <= lblock (T j)) as [E|E] by lia.
  - rewrite E in *. rewrite commit_B_eq. cbn [delete_block phys_id]. rewrite F5.
    unfold dstart in L2. rewrite decide_True in L2 by done.
    pose proof (oinv_disjoint _ _ _ IO j i Hj Hi Hji ltac:(congruence)) as Hdis.
    apply vread_ext. intros k Hk. destruct (decide (behind T di j)) as [Hb|Hb].
    + rewrite (deleted_moved T i j) by done. cbn [set_data_index data_index].
      unfold behind in Hb. rewrite delete_view_upper by (unfold ooff in *; lia).
      rewrite decide_False, decide_True by lia. f_equal. lia.
    + rewrite (deleted_kept T i j) by done. unfold behind in Hb.
      rewrite delete_view_upper by (unfold ooff in *; lia). by rewrite decide_True by lia.
  - assert (1 <= lblock (T j) < SST_NUM_ACTIVE_DBLOCKS) as Hk by lia.
    pose proof (b_dedicated _ _ (inv_blocks _ _ _ I) _ Hk). rewrite commit_B_ne by lia.
    rewrite (deleted_kept T i j) by (done || (unfold behind; lia)).
    apply vread_ext. intros k Hk'. apply delete_only. lia.
Qed.

Lemma delete_built σ :
  stores V A σ -> stores delete_view X (delete (unique_id (T i)) σ).
Proof using All.
  intros Hs. pose proof (inv_objects _ _ _ I) as IO. pose proof en_bounds as [[E1 He] E2].
  pose proof (delete_live _ _ _ _ _ _ IO Hi Hz Hlay He) as HL.
  apply (stores_delete V A); try done.
  - intros j Hj E. by apply (o_uniq _ _ _ IO).
  - intros j. rewrite <- HL. unfold live. split; intros [Hj Hu]; (split; [done|]);
      by rewrite delete_om in *.
  - intros j Hj Hji. rewrite delete_om by apply Hj.
    destruct (deleted_fields _ _ _ _ _ _ IO Hi Hz Hlay He j Hji) as (_ & _ & D3 & D4 & _).
    split; [done|]. unfold obj_at. rewrite D3. f_equal. by apply delete_content.
Qed.
End delete.

Section delete_spec.
  Context {D : Type} `{!ARM_DRIVER_FLASH D, !FlashDevice D, !sst_layout, !sst_area_ok D,
                       !sst_build_ok}.
  Implicit Types (d : D) (c : sst_asset_system_context) (V : blocks) (lay : Z -> list Z)
    (σ : store).

Lemma all_home_lblock V c lay i :
  all_home lay -> inv V c lay -> live (om V (active_metablock c)) i ->
  lblock (om V (active_metablock c) i) = 0.
Proof using All.
  intros Hh I Hi. destruct (live_bounds V c lay i I Hi) as (L1 & _).
  destruct (decide (lblock (om V (active_metablock c) i) = 0)) as [|E]; [done|].
  pose proof (oinv_member _ _ _ (inv_objects _ _ _ I) i Hi) as Hm.
  rewrite Hh in Hm by lia. by apply not_elem_of_nil in Hm.
Qed.

Lemma object_delete_at d c V lay σ i (P : (Z -> list Z) -> Prop) u :
  DRep d V -> inv V c lay -> stores V (active_metablock c) σ ->
  live (om V (active_metablock c)) i -> unique_id (om V (active_metablock c) i) = u ->
  lblock (om V (active_metablock c) i) = 0 ->
  (forall l1 l2, lay 0 = l1 ++ i :: l2 -> P (upd lay 0 (l1 ++ l2))) ->
  runs (sst_core_object_delete u) (SstState d c)
    (fun _ s' => sst_rep_in P s' (delete u σ)).
Proof using All.
  intros HR I Hs Hi Hu Hz HP. pose proof (inv_objects _ _ _ I) as IO.
  pose proof (oinv_member _ _ _ IO i Hi) as Hm. rewrite Hz in Hm.
  apply list_elem_of_split in Hm as (l1 & l2 & Hlay).
  destruct (find_present d c V lay σ u (obj_at V (active_metablock c) (om V (active_metablock c) i))
    HR I Hs) as (i' & Hi' & Hu' & _ & E); [apply Hs; eauto|].
  assert (i' = i) as -> by (apply (o_uniq _ _ _ IO); congruence).
  apply (runs_delete c V lay i l1 l2 I Hi Hz Hlay); try done. intros d' R'.
  subst u. eapply commit_rep; [apply (i_ctx _ _ _ I)|apply (i_header _ _ _ I)
    |by apply (delete_tinv c V lay i l1 l2 I Hi Hz Hlay)
    |by apply (delete_built c V lay i l1 l2 I Hi Hz Hlay)|by apply HP|done].
Qed.

(** Deleting an object of block 0 removes it and nothing else. *)
Lemma object_delete_spec s σ u :
  sst_rep_in all_home s σ -> is_Some (σ !! u) ->
  runs (sst_core_object_delete u) s (fun _ s' => sst_rep_in all_home s' (delete u σ)).
Proof using All.
  destruct s as [d c]. intros (V & lay & HR & I & Hs & HP) [o Hu]. cbn [sst_dev sst_system_ctx] in *.
  apply Hs in Hu as (i & Hi & Hu & _).
  apply (object_delete_at d c V lay σ i); try done; [by apply (all_home_lblock V c lay)|].
  intros l1 l2 _ l Hl. rewrite upd_ne by lia. by apply HP.
Qed.

Lemma object_delete_absent s σ u :
  sst_rep s σ -> u <> 0 -> σ !! u = None ->
  sst_core_object_delete u s = (Err PSA_SST_ERR_ASSET_NOT_FOUND, s).
Proof using All.
  destruct s as [d c]. intros (V & lay & HR & I & Hs & _) Hne Hu. unfold sst_core_object_delete.
  by rewrite (bind_Err _ _ _ _ _ (or_return_Err _ _ _ _ _
                (find_absent d c V lay σ u HR I Hs Hne Hu))).
Qed.
End delete_spec.
