(* ===== verification/SstCoreBoot.v ===== *)
(** * Secure storage core: start-up and wipe

    [sst_core_prepare] on a storage that satisfies the invariant recovers the
    running context from flash alone; [sst_core_wipe_all] makes an empty store
    from any flash content. *)

From stdpp Require Import sets gmap.
From S2P Require Import Prelude FlashDriver SstDefs SstFlash SstCore SstCoreSpec SstTable SstCoreInv SstCoreOps.

Section boot.
  Context {D : Type} `{!ARM_DRIVER_FLASH D, !FlashDevice D, !sst_layout, !sst_area_ok D,
                       !sst_build_ok}.
  Implicit Types (d : D) (c : sst_asset_system_context) (V : blocks) (lay : Z -> list Z)
    (σ : store).

(** ** Headers *)

Definition header_valid (h : sst_metadata_block_header) : bool :=
  bool_decide (sst_meta_validate_header_meta h = None).

Lemma header_ok_valid h : header_ok h -> header_valid h = true.
Proof using Type.
  intros (_ & _ & H3 & H4). apply bool_decide_eq_true.
  unfold sst_meta_validate_header_meta, sst_meta_validate_fs_version, sst_meta_validate_swap_count,
    SST_SUPPORTED_VERSION, SST_FLASH_DEFAULT_VAL. rewrite H3. simpl.
  destruct (Z.eqb_spec (active_swap_count h) 255); [lia|done].
Qed.

Lemma hdr_swap_count V b : active_swap_count (hdr V b) = b2z (V b 33).
Proof using Type.
  unfold hdr, decode_header. cbn [active_swap_count]. by rewrite znth_vread by lia.
Qed.

(** A block whose swap count was never programmed is not a metadata block. *)
Lemma erased_invalid V b : V b 33 = Byte.xff -> header_valid (hdr V b) = false.
Proof using Type.
  intros E. apply bool_decide_eq_false. unfold sst_meta_validate_header_meta,
    sst_meta_validate_fs_version, sst_meta_validate_swap_count, SST_FLASH_DEFAULT_VAL.
  rewrite hdr_swap_count, E. by case_match.
Qed.

(** Which block start-up chooses. *)
Definition chosen_block V : option Z :=
  match header_valid (hdr V 0), header_valid (hdr V 1) with
  | false, false => None
  | true, true => Some (sst_meta_latest_meta_block (hdr V 0) (hdr V 1))
  | false, true => Some 1
  | true, false => Some 0
  end.

Lemma latest_meta_block_range h0 h1 :
  sst_meta_latest_meta_block h0 h1 = 0 \/ sst_meta_latest_meta_block h0 h1 = 1.
Proof using Type.
  unfold sst_meta_latest_meta_block, SST_METADATA_BLOCK0, SST_METADATA_BLOCK1.
  repeat case_match; auto.
Qed.

Lemma init_get_active_metablock_eq d c V :
  DRep d V ->
  sst_init_get_active_metablock (SstState d c) =
    match chosen_block V with
    | Some b => (Ok tt, SstState d (set_metablocks b (1 - b) c))
    | None => (Err PSA_SST_ERR_SYSTEM_ERROR, SstState d c)
    end.
Proof using All.
  intros HR. pose proof layout_bounds as (HN & HM & HB & HT). unfold ooff in HM.
  assert (forall b, 0 <= b < 2 ->
    sst_flash_read b 0 SIZEOF_metadata_block_header (SstState d c) = (Ok (vread V b 0 36), SstState d c)) as Hrd.
  { intros b Hb. apply (sst_flash_read_ok (SstState d c)); try done; try (unfold valid_block; lia). }
  unfold sst_init_get_active_metablock, SST_METADATA_BLOCK0, SST_METADATA_BLOCK1.
  rewrite (bind_Ok _ _ _ _ _ (or_return_Ok _ _ _ _ _ (Hrd 0 ltac:(lia)))).
  rewrite (bind_Ok _ _ _ _ _ (or_return_Ok _ _ _ _ _ (Hrd 1 ltac:(lia)))).
  fold (hdr V 0) (hdr V 1). fold (header_valid (hdr V 0)) (header_valid (hdr V 1)).
  unfold chosen_block. destruct (header_valid (hdr V 0)), (header_valid (hdr V 1)); try done.
  cbn [andb negb]. unfold modify. cbn [sst_system_ctx].
  by destruct (latest_meta_block_range (hdr V 0) (hdr V 1)) as [-> | ->].
Qed.

(** ** Start-up *)

Definition prepared V c : blocks :=
  let V1 := verase V (scratch_metablock c) in
  if decide (2 < SST_TOTAL_NUM_OF_BLOCKS) then verase V1 (scratch_idx (meta_block_header c)) else V1.

(** The part of start-up that only reads flash. *)
Definition load_header : M (sst_state D) psa_sst_err_t unit :=
  or_return sst_init_get_active_metablock PSA_SST_ERR_SYSTEM_ERROR ;;
  or_return sst_meta_read_meta_header PSA_SST_ERR_SYSTEM_ERROR.

Lemma prepare_split (s : sst_state D) :
  sst_core_prepare s = bind load_header (fun _ => sst_meta_erase_scratch_blocks) s.
Proof using Type. unfold sst_core_prepare, load_header. by rewrite <- bind_assoc. Qed.

Lemma runs_load_header d c0 V b Q :
  DRep d V -> chosen_block V = Some b -> 0 <= b < 2 -> header_valid (hdr V b) = true ->
  Q tt (SstState d {| meta_block_header := hdr V b; active_metablock := b;
                      scratch_metablock := 1 - b |}) ->
  runs load_header (SstState d c0) Q.
Proof using All.
  intros HR Hb Hr Hv HQ. pose proof layout_bounds as (HN & HM & HB & HT). unfold ooff in HM.
  apply runs_bind, runs_or_return. eexists _, _. split;
    [by rewrite (init_get_active_metablock_eq _ _ _ HR), Hb|].
  apply runs_or_return. unfold sst_meta_read_meta_header.
  apply runs_bind, runs_gets, runs_bind. cbn [sst_system_ctx set_metablocks active_metablock].
  apply runs_flash_read with V; try done; try (unfold valid_block; lia).
  { unfold SIZEOF_metadata_block_header. lia. }
  change SIZEOF_metadata_block_header with 36. fold (hdr V b). apply runs_bind, runs_modify.
  apply bool_decide_eq_true in Hv. rewrite Hv. by apply runs_ret.
Qed.

(** Start-up on flash whose chosen block [b] has a valid header. *)
Lemma runs_prepare d c0 V b Q :
  DRep d V -> chosen_block V = Some b -> 0 <= b < 2 -> header_valid (hdr V b) = true ->
  let c := {| meta_block_header := hdr V b; active_metablock := b; scratch_metablock := 1 - b |} in
  (2 < SST_TOTAL_NUM_OF_BLOCKS -> valid_block (scratch_idx (hdr V b))) ->
  (forall d', DRep d' (prepared V c) -> Q tt (SstState d' c)) ->
  runs sst_core_prepare (SstState d c0) Q.
Proof using All.
  intros HR Hb Hr Hv c Hs HQ. pose proof layout_bounds as (HN & HM & HB & HT).
  apply (runs_ext _ _ _ _ (prepare_split _)). apply runs_bind, (runs_load_header d c0 V b); try done.
  fold c. unfold sst_meta_erase_scratch_blocks.
  apply runs_bind, runs_gets, runs_bind. cbn [sst_system_ctx].
  eapply runs_flash_erase; [exact HR|unfold valid_block; subst c; cbn; lia|]. intros d1 R1.
  unfold prepared in HQ. destruct (Z.ltb_spec 2 SST_TOTAL_NUM_OF_BLOCKS).
  - rewrite decide_True in HQ by done. apply runs_bind, runs_cur_data_scratch.
    eapply runs_flash_erase; [exact R1|by apply Hs|done].
  - rewrite decide_False in HQ by lia. by apply runs_ret, HQ.
Qed.

Lemma chosen_active V c lay :
  inv V c lay -> chosen_block V = Some (active_metablock c).
Proof using All.
  intros I. pose proof (i_ctx _ _ _ I) as Hc. unfold chosen_block.
  pose proof (header_ok_valid _ (i_header _ _ _ I)) as Hv. rewrite <- (i_active _ _ _ I) in Hv.
  pose proof (erased_invalid _ _ (i_scratch _ _ _ I)) as He.
  destruct Hc as [[EA EX]|[EA EX]]; rewrite EA in *; rewrite EX in *; by rewrite Hv, He.
Qed.

(** Erasing the scratch blocks again changes nothing of the store. *)
Lemma prepared_rep P d V c lay σ :
  DRep d (prepared V c) -> ctx_blocks c -> header_ok (meta_block_header c) ->
  hdr V (active_metablock c) = meta_block_header c ->
  tinv (om V (active_metablock c)) (bm V (active_metablock c)) lay (active_metablock c)
    (scratch_idx (meta_block_header c)) ->
  stores V (active_metablock c) σ -> P lay -> sst_rep_in P (SstState d c) σ.
Proof using All.
  intros HR Hc Hh Ha IT Hs HP. pose proof (ctx_range c Hc) as (HA & HX & Hne).
  pose proof IT as [IO IB Ih]. pose proof (b_scratch_range _ _ IB) as Hsr.
  assert (forall b o, b <> scratch_metablock c ->
    (2 < SST_TOTAL_NUM_OF_BLOCKS -> b <> scratch_idx (meta_block_header c)) ->
    prepared V c b o = V b o) as Hk.
  { intros b o Hb1 Hb2. unfold prepared. case_decide; rewrite !verase_spec;
      repeat case_decide; tauto || lia. }
  assert (forall o, prepared V c (active_metablock c) o = V (active_metablock c) o) as HkA
    by (intros; apply Hk; lia).
  assert (forall i, om (prepared V c) (active_metablock c) i = om V (active_metablock c) i) as HO
    by (intros; apply om_ext; auto).
  assert (forall l, bm (prepared V c) (active_metablock c) l = bm V (active_metablock c) l) as HBm
    by (intros; apply bm_ext; auto).
  exists (prepared V c), lay. cbn [sst_dev sst_system_ctx]. split_and!; try done.
  - constructor; try done.
    + rewrite <- Ha. unfold hdr. f_equal. apply vread_ext. auto.
    + unfold prepared. case_decide; rewrite !verase_spec; repeat case_decide; done || lia.
    + eapply tinv_ext; [exact IT|intros; by rewrite HO..|intros; by rewrite HBm].
  - eapply stores_same; [exact Hs|auto|]. intros j Hj.
    destruct (o_size _ _ _ IO j Hj) as (Hl & _). unfold content. rewrite HBm.
    apply vread_ext. intros k _. set (l := lblock (om V (active_metablock c) j)) in *.
    assert (l = 0 \/ 1 <= l) as [E|E] by lia.
    + rewrite E. rewrite Ih; [apply HkA|]. intros E0.
      pose proof (oinv_member _ _ _ IO j Hj) as Hm. fold l in Hm. rewrite E, E0 in Hm.
      by apply not_elem_of_nil in Hm.
    + pose proof (b_dedicated _ _ IB l ltac:(lia)). pose proof (b_scratch _ _ IB l ltac:(lia)).
      apply Hk; [lia|done].
Qed.

(** The running context is a function of flash. *)
Lemma ctx_from_flash V c lay :
  inv V c lay ->
  {| meta_block_header := hdr V (active_metablock c); active_metablock := active_metablock c;
     scratch_metablock := 1 - active_metablock c |} = c.
Proof using All.
  intros I. pose proof (ctx_range c (i_ctx _ _ _ I)). rewrite (i_active _ _ _ I).
  destruct c as [h a x]; cbn in *. f_equal. lia.
Qed.

(** Start-up recovers the store from flash, whatever the RAM context was. *)
Lemma prepare_spec P s σ c0 :
  sst_rep_in P s σ ->
  runs sst_core_prepare (SstState (sst_dev s) c0) (fun _ s' =>
    sst_system_ctx s' = sst_system_ctx s /\ sst_rep_in P s' σ).
Proof using All.
  destruct s as [d c]. intros (V & lay & HR & I & Hs & HP). cbn [sst_dev sst_system_ctx] in *.
  pose proof (ctx_range c (i_ctx _ _ _ I)) as (HA & HX & Hne).
  pose proof (b_scratch_range _ _ (inv_blocks _ _ _ I)) as Hsr.
  pose proof (ctx_from_flash V c lay I) as Ec.
  apply (runs_prepare d c0 V (active_metablock c)); try done.
  - by apply (chosen_active V c lay).
  - rewrite (i_active _ _ _ I). apply header_ok_valid, (i_header _ _ _ I).
  - rewrite (i_active _ _ _ I). unfold valid_block. lia.
  - rewrite Ec. intros d' R'. split; [done|].
    eapply prepared_rep; [exact R'|apply (i_ctx _ _ _ I)|apply (i_header _ _ _ I)
      |apply (i_active _ _ _ I)|apply (i_tables _ _ _ I)|done|done].
Qed.

(** ** Wipe *)

(** The loops of the wipe; [c] has metadata block 1 as its scratch block. *)
Section wipe_loops.
  Context (c : sst_asset_system_context) (Hc : ctx_blocks c) (HX : scratch_metablock c = 1).

Lemma runs_wipe_erase_loop n i d W Q :
  DRep d W -> ((0 < n)%nat -> 0 <= i) -> i + Z.of_nat n <= SST_TOTAL_NUM_OF_BLOCKS ->
  (forall d' W', DRep d' W' ->
     (forall b o, b < i \/ i + Z.of_nat n <= b -> W' b o = W b o) -> Q true (SstState d' c)) ->
  runs (wipe_erase_loop n i true) (SstState d c) Q.
Proof using All.
  revert i d W. induction n as [|n IH]; intros i d W HR Hi Hn HQ; cbn [wipe_erase_loop].
  { apply runs_ret. by apply (HQ d W). }
  apply runs_bind, runs_try, runs_flash_erase with W; [done|unfold valid_block; lia|].
  intros d1 R1. cbn [andb bool_decide]. rewrite bool_decide_eq_true_2 by done.
  eapply IH; [exact R1|lia|lia|]. intros d' W' R' HW. apply (HQ d' W' R').
  intros b o Hb. rewrite HW by lia. rewrite verase_spec. by rewrite decide_False by lia.
Qed.

Lemma runs_wipe_block_meta_loop n i d W b0 Q :
  DRep d W -> 0 <= i -> i + Z.of_nat n < SST_NUM_ACTIVE_DBLOCKS ->
  (forall k, 0 <= k <= SST_TOTAL_NUM_OF_BLOCKS -> block_metadata_u32 (set_phys_id k b0)) ->
  (forall d' W', DRep d' W' ->
     (forall k, i <= k < i + Z.of_nat n ->
        bm W' 1 (k + 1) = set_phys_id (k + SST_INIT_DBLOCK_START) b0) ->
     (forall b o, b <> 1 \/ o < boff (i + 1) \/ boff (i + Z.of_nat n + 1) <= o -> W' b o = W b o) ->
     Q tt (SstState d' c)) ->
  runs (wipe_block_meta_loop n i b0) (SstState d c) Q.
Proof using All.
  pose proof active_dblocks as HA.
  assert (SST_NUM_ACTIVE_DBLOCKS = SST_TOTAL_NUM_OF_BLOCKS - SST_INIT_DBLOCK_START + 1 \/
          SST_NUM_ACTIVE_DBLOCKS = 1) as HN.
  { unfold SST_NUM_ACTIVE_DBLOCKS, SST_NUM_DEDICATED_DBLOCKS. case_match; lia. }
  assert (0 <= SST_INIT_DBLOCK_START) by (unfold SST_INIT_DBLOCK_START; case_match; lia).
  revert i d W. induction n as [|n IH]; intros i d W HR Hi Hn Hb HQ; cbn [wipe_block_meta_loop].
  { apply runs_ret. apply (HQ d W HR); [lia|done]. }
  apply runs_bind, runs_or_return, runs_update_scratch_block_meta with W; try done; [lia|].
  intros d1 R1. rewrite HX in R1. eapply IH; [exact R1|lia|lia|done|].
  intros d' W' R' H1' H2'. apply (HQ d' W' R').
  - intros k Hk. destruct (decide (k = i)) as [->|]; [|apply H1'; lia].
    apply bm_written; [apply Hb; lia|]. intros o Ho. rewrite H2' by (unfold boff in *; lia).
    rewrite vwrite_spec, length_encode_block_metadata. by rewrite decide_True by lia.
  - intros b o Ho. rewrite H2' by (unfold boff in *; lia).
    rewrite vwrite_spec, length_encode_block_metadata. by rewrite decide_False by (unfold boff in *; lia).
Qed.

Lemma runs_wipe_object_meta_loop n i d W m Q :
  DRep d W -> 0 <= i -> i + Z.of_nat n <= 10 -> assetmeta_u32 m ->
  (forall d' W', DRep d' W' ->
     (forall k, i <= k < i + Z.of_nat n -> om W' 1 k = m) ->
     (forall b o, b <> 1 \/ o < ooff i -> W' b o = W b o) ->
     Q tt (SstState d' c)) ->
  runs (wipe_object_meta_loop n i m) (SstState d c) Q.
Proof using All.
  revert i d W. induction n as [|n IH]; intros i d W HR Hi Hn Hm HQ; cbn [wipe_object_meta_loop].
  { apply runs_ret. apply (HQ d W HR); [lia|done]. }
  apply runs_bind, runs_or_return, runs_update_scratch_object_meta with W; try done;
    [unfold SST_NUM_ASSETS; lia|].
  intros d1 R1. rewrite HX in R1. eapply IH; [exact R1|lia|lia|done|].
  intros d' W' R' H1' H2'. apply (HQ d' W' R').
  - intros k Hk. destruct (decide (k = i)) as [->|]; [|apply H1'; lia].
    apply om_written; [done|]. intros o Ho. rewrite H2' by (unfold ooff in *; lia).
    rewrite vwrite_spec, length_encode_assetmeta. by rewrite decide_True by lia.
  - intros b o Ho. rewrite H2' by (unfold ooff in *; lia).
    rewrite vwrite_spec, length_encode_assetmeta. by rewrite decide_False by (unfold ooff in *; lia).
Qed.
End wipe_loops.

Definition wiped_ctx c : sst_asset_system_context :=
  {| meta_block_header := {| crypto := crypto (meta_block_header c);
                             scratch_idx := SST_INIT_SCRATCH_DBLOCK;
                             fs_version := SST_SUPPORTED_VERSION; active_swap_count := 0 |};
     scratch_metablock := 1; active_metablock := 0 |}.

Definition empty_meta : sst_assetmeta :=
  {| lblock := 0; data_index := 0; cur_size := 0; max_size := 0; unique_id := 0 |}.

Definition wiped_block (l : Z) : sst_block_metadata :=
  if decide (l = 0)
  then {| data_start := ooff 10; free_size := SST_BLOCK_SIZE - ooff 10; phys_id := 0 |}
  else {| data_start := 0; free_size := SST_BLOCK_SIZE; phys_id := l - 1 + SST_INIT_DBLOCK_START |}.

Lemma wiped_tinv :
  tinv (fun _ => empty_meta) wiped_block (fun _ => []) 1 SST_INIT_SCRATCH_DBLOCK.
Proof using All.
  pose proof layout_bounds as (HN & HM & HB & HT). pose proof active_dblocks as HA.
  assert (0 <= ooff 10) by (unfold ooff; lia).
  assert (SST_INIT_SCRATCH_DBLOCK = SST_INIT_DBLOCK_START - 1 /\ SST_INIT_DBLOCK_START = 3 /\
          SST_NUM_ACTIVE_DBLOCKS = SST_TOTAL_NUM_OF_BLOCKS - 2 \/
          SST_TOTAL_NUM_OF_BLOCKS = 2 /\ SST_NUM_ACTIVE_DBLOCKS = 1) as Hc.
  { unfold SST_INIT_SCRATCH_DBLOCK, SST_INIT_DBLOCK_START. case_match; lia. }
  constructor; [constructor|constructor|done].
  - intros i Hi. unfold assetmeta_u32, is_u32; simpl. lia.
  - intros i [_ Hu]. done.
  - intros i j [_ Hu]. done.
  - intros l Hl. constructor.
  - intros l i Hl. split; [by intros ?%not_elem_of_nil|]. intros [[_ Hu] _]. done.
  - intros l Hl. simpl. unfold ends, wiped_block, dstart. case_decide; simpl; lia.
  - intros i Hi _. unfold stale. split_and!; try done; [|by intros j ?%not_elem_of_nil].
    unfold ends, wiped_block. rewrite decide_True by done. simpl. lia.
  - intros l Hl. unfold block_meta_ok, wiped_block, valid_block. case_decide; simpl; repeat case_decide; lia.
  - unfold wiped_block. by rewrite decide_True.
  - intros l Hl. unfold wiped_block. rewrite decide_False by lia. simpl. lia.
  - intros l l' Hl Hl'. unfold wiped_block. rewrite !decide_False by lia. simpl. lia.
  - intros l Hl. unfold wiped_block. rewrite decide_False by lia. simpl. lia.
  - lia.
Qed.

(** The flash after a wipe, up to the blocks the tables do not mention. *)
Record wiped V c (W : blocks) : Prop := {
  w_objects : forall i, 0 <= i < 10 -> om W 1 i = empty_meta;
  w_blocks : forall l, 0 <= l < SST_NUM_ACTIVE_DBLOCKS -> bm W 1 l = wiped_block l;
  w_scratch : forall o, W 0 o = Byte.xff;
  w_header : hdr W 1 = next_header (meta_block_header (wiped_ctx c));
  w_kept : forall b o, 2 <= b < SST_INIT_DBLOCK_START \/ SST_NUM_DEDICATED_DBLOCKS <= b ->
    2 <= b -> W b o = V b o;
}.

Lemma wiped_header_ok c :
  zlen (crypto (meta_block_header c)) = 28 -> header_ok (meta_block_header (wiped_ctx c)).
Proof using Type.
  intros Hcr. unfold header_ok, is_u32; simpl. split_and!; try done;
    unfold SST_INIT_SCRATCH_DBLOCK; case_match; lia.
Qed.

Lemma wipe_committed V c W0 W1 W2 W3 :
  zlen (crypto (meta_block_header c)) = 28 ->
  (forall b o, 2 <= b -> W0 b o = V b o) -> (forall o, W0 0 o = Byte.xff) ->
  (forall b o, b < SST_INIT_DBLOCK_START \/ SST_NUM_DEDICATED_DBLOCKS <= b ->
     W1 b o = vwrite W0 1 (boff 0) (encode_block_metadata (wiped_block 0)) b o) ->
  (forall k, 0 <= k < SST_NUM_DEDICATED_DBLOCKS -> bm W2 1 (k + 1) = wiped_block (k + 1)) ->
  (forall b o, b <> 1 \/ o < boff 1 -> W2 b o = W1 b o) ->
  (forall k, 0 <= k < 10 -> om W3 1 k = empty_meta) ->
  (forall b o, b <> 1 \/ o < ooff 0 -> W3 b o = W2 b o) ->
  wiped V c (committed_header W3 1 (next_header (meta_block_header (wiped_ctx c)))).
Proof using All.
  intros Hcr H0' H0e H1' H2b H2' H3o H3'. pose proof layout_bounds as (HN & HM & HB & HT).
  assert (SST_INIT_DBLOCK_START = 3 \/ SST_NUM_DEDICATED_DBLOCKS = 0) as Hst.
  { unfold SST_INIT_DBLOCK_START, SST_NUM_DEDICATED_DBLOCKS. case_match; auto. }
  pose proof (wiped_header_ok c Hcr) as Hh.
  assert (zlen (crypto (next_header (meta_block_header (wiped_ctx c)))) = 28) as Hcr' by done.
  assert (zlen (encode_block_metadata (wiped_block 0)) = 12) as Lb by (by rewrite length_encode_block_metadata).
  constructor.
  - intros i Hi. rewrite <- (H3o i Hi). apply om_ext. intros o Ho.
    apply committed_header_other; [done|]. unfold ooff in Ho. lia.
  - intros l Hl. destruct (decide (l = 0)) as [->|Hl0].
    + apply bm_written.
      * unfold block_metadata_u32, is_u32, wiped_block. rewrite decide_True by done. simpl.
        assert (0 <= ooff 10) by (unfold ooff; lia). lia.
      * intros o Ho. rewrite committed_header_other by (done || (unfold boff in Ho; lia)).
        rewrite H3' by (unfold boff, ooff in *; lia). rewrite H2' by (unfold boff in *; lia).
        rewrite H1' by lia. rewrite vwrite_spec, Lb. by rewrite decide_True by lia.
    + replace l with (l - 1 + 1) by lia.
      rewrite <- H2b by (unfold SST_NUM_ACTIVE_DBLOCKS in Hl; lia).
      apply bm_ext. intros o Ho. rewrite committed_header_other by (done || (unfold boff in Ho; lia)).
      apply H3'. unfold boff, ooff in *. lia.
  - intros o. rewrite committed_header_other by (done || (left; lia)).
    rewrite H3' by lia. rewrite H2' by lia. rewrite H1' by lia.
    rewrite vwrite_spec, decide_False by lia. apply H0e.
  - apply decode_committed, next_header_ok, Hh.
  - intros b o Hb Hb2. rewrite committed_header_other by (done || (left; lia)).
    rewrite H3' by lia. rewrite H2' by lia. rewrite H1' by lia.
    rewrite vwrite_spec, decide_False by lia. by apply H0'.
Qed.

Lemma runs_wipe_all d c V Q :
  DRep d V -> zlen (crypto (meta_block_header c)) = 28 ->
  (forall d' W, DRep d' W -> wiped V c W ->
     Q tt (SstState d' (set_metablocks 1 0
       (set_header (next_header (meta_block_header (wiped_ctx c))) (wiped_ctx c))))) ->
  runs sst_core_wipe_all (SstState d c) Q.
Proof using All.
  intros HR Hcr HQ. pose proof layout_bounds as (HN & HM & HB & HT). pose proof active_dblocks as HA.
  assert (forall b, 0 <= b < 2 -> valid_block b) as Hvb by (intros; unfold valid_block; lia).
  unfold sst_core_wipe_all.
  match goal with
  | |- runs (bind _ (fun r => bind _ ?k)) _ _ =>
      assert (forall b c1, 0 <= b < 2 -> crypto (meta_block_header c1) = crypto (meta_block_header c) ->
                runs (k b) (SstState d c1) Q) as Htail
  end; cycle 1.
  { apply runs_bind. destruct (chosen_block V) as [b|] eqn:Eb.
    - assert (b = 0 \/ b = 1) as Hb.
      { unfold chosen_block in Eb. pose proof (latest_meta_block_range (hdr V 0) (hdr V 1)).
        repeat case_match; simplify_eq; lia. }
      apply runs_try. eexists _, _. split; [by rewrite (init_get_active_metablock_eq _ _ _ HR), Eb|].
      apply runs_bind, runs_gets. apply Htail; [cbn [sst_system_ctx scratch_metablock set_metablocks]; lia|done].
    - eexists _, _. split; [unfold try; by rewrite (init_get_active_metablock_eq _ _ _ HR), Eb|].
      apply runs_bind, runs_ret. by apply Htail. }
  intros b c1 Hb Ec.
  apply runs_bind, runs_flash_erase with V; [done|by apply Hvb|]. intros d1 R1.
  assert (SST_OTHER_META_BLOCK b = 1 - b) as ->
    by (unfold SST_OTHER_META_BLOCK, SST_METADATA_BLOCK0; destruct (Z.eqb_spec b 0);
        unfold SST_METADATA_BLOCK1; lia).
  apply runs_bind. eapply runs_flash_erase; [exact R1|apply Hvb; lia|]. intros d2 R2.
  set (W0 := verase (verase V b) (1 - b)) in R2.
  apply runs_bind, runs_modify. unfold with_ctx; cbn [sst_dev sst_system_ctx].
  rewrite Ec. set (wc := wiped_ctx c).
  match goal with |- runs _ (SstState _ ?x) _ => change x with wc end.
  assert (ctx_blocks wc) as Hwc by (left; done).
  assert (scratch_metablock wc = 1) as HwX by done.
  apply runs_bind, runs_ignore.
  eapply runs_update_scratch_block_meta; [exact R2|done|unfold SST_LOGICAL_DBLOCK0; lia|]. intros d3 R3. rewrite HwX in R3.
  rewrite all_metadata_size in R3.
  change {| phys_id := _; data_start := ooff 10; free_size := _ |} with (wiped_block 0) in R3.
  apply runs_bind.
  assert (SST_INIT_DBLOCK_START = 3 /\ SST_NUM_DEDICATED_DBLOCKS = SST_TOTAL_NUM_OF_BLOCKS - 3 /\
          4 <= SST_TOTAL_NUM_OF_BLOCKS \/
          SST_NUM_DEDICATED_DBLOCKS = 0 /\ SST_INIT_DBLOCK_START = 0) as Hdd.
  { unfold SST_INIT_DBLOCK_START, SST_NUM_DEDICATED_DBLOCKS, SST_INIT_DBLOCK_START.
    case_match; lia. }
  eapply (runs_wipe_erase_loop wc Hwc HwX); [exact R3|lia|lia|]. intros d4 W1 R4 HW1.
  apply runs_bind, runs_guard; [done|]. apply runs_bind.
  eapply (runs_wipe_block_meta_loop wc Hwc HwX); [exact R4|lia| | |].
  { unfold SST_NUM_ACTIVE_DBLOCKS in *. lia. }
  { intros k Hk. pose proof block_size_pos. unfold block_metadata_u32, is_u32; simpl. lia. }
  intros d5 W2 R5 HW2b HW2. apply runs_bind.
  change (Z.to_nat SST_NUM_ASSETS) with 10%nat.
  eapply (runs_wipe_object_meta_loop wc Hwc HwX); [exact R5|lia|lia| |].
  { unfold assetmeta_u32, is_u32; simpl. lia. }
  intros d6 W3 R6 HW3o HW3. apply runs_bind, runs_or_return.
  eapply runs_write_scratch_meta_header; [exact R6|done|by apply wiped_header_ok|].
  intros d7 R7. rewrite HwX in R7. apply runs_modify.
  apply (HQ d7 _ R7). apply (wipe_committed V c W0 W1 W2 W3); try done.
  - intros b' o Hb'. unfold W0. rewrite !verase_spec. by rewrite !decide_False by lia.
  - intros o. unfold W0. rewrite !verase_spec. repeat case_decide; done || lia.
  - intros b' o Hb'. apply HW1. lia.
  - intros k Hk. rewrite HW2b by lia. unfold wiped_block. rewrite decide_False by lia.
    unfold set_phys_id; simpl. f_equal. lia.
  - intros b' o Hb'. apply HW2. change (0 + 1) with 1. lia.
Qed.

(** A wipe succeeds on any flash content and leaves an empty store. *)
Lemma wipe_all_spec d c V :
  DRep d V -> zlen (crypto (meta_block_header c)) = 28 ->
  runs sst_core_wipe_all (SstState d c) (fun _ s' => sst_rep_in all_home s' ∅).
Proof using All.
  intros HR Hcr. apply (runs_wipe_all d c V); try done. intros d' W R' [WO WB WS WH WK].
  exists W, (fun _ => []). cbn [sst_dev sst_system_ctx set_metablocks active_metablock].
  split_and!; [done| | |done].
  - constructor; cbn [set_metablocks active_metablock scratch_metablock meta_block_header set_header].
    + by right.
    + by apply next_header_ok, wiped_header_ok.
    + done.
    + apply WS.
    + eapply tinv_ext; [apply wiped_tinv|intros; by rewrite WO|intros; by rewrite WB].
  - intros u o. rewrite lookup_empty. split; [done|]. intros (i & [Hi Hu] & _).
    by rewrite WO in Hu.
Qed.
End boot.

(** ** Choosing between two valid metadata blocks *)

Lemma latest_next_spec h :
  header_ok h ->
  sst_meta_latest_meta_block h (next_header h) = 1 /\
  sst_meta_latest_meta_block (next_header h) h = 0.
Proof.
  intros (_ & _ & _ & Hc). unfold sst_meta_latest_meta_block, next_header, next_swap_count,
    SST_METADATA_BLOCK0, SST_METADATA_BLOCK1. cbn [active_swap_count set_swap_count].
  set (n := active_swap_count h) in *. destruct (Z.eqb_spec (n + 1) 255).
  - assert (n = 254) as -> by lia. done.
  - destruct (Z.eqb_spec (n + 1) 0), (Z.eqb_spec n 1), (Z.eqb_spec n 0), (Z.eqb_spec (n + 1) 1),
      (Z.ltb_spec n (n + 1)), (Z.ltb_spec (n + 1) n); simpl; lia || done.
Qed.

(** After an update was committed and before the old metadata block is
    erased, both metadata blocks are valid; whichever of the two holds the
    newer tables, start-up chooses it, also when the swap count wraps around
    past 254. *)
Theorem latest_meta_block_is_newer h :
  header_ok h ->
  sst_meta_latest_meta_block h (next_header h) = SST_METADATA_BLOCK1 /\
  sst_meta_latest_meta_block (next_header h) h = SST_METADATA_BLOCK0.
Proof. apply latest_next_spec. Qed.

Lemma latest_meta_block_is_newer_witness :
  let h := {| crypto := replicate 28 Byte.x00; scratch_idx := 2; fs_version := 1;
              active_swap_count := 254 |} in
  active_swap_count (next_header h) = 0 /\
  sst_meta_latest_meta_block h (next_header h) = SST_METADATA_BLOCK1.
Proof.
  split; [reflexivity|]. apply latest_meta_block_is_newer.
  repeat split; vm_compute; discriminate || reflexivity.
Defined.
