(* ===== verification/SstRefine.v ===== *)
(** * Secure storage core: refinement of an abstract store

    The interface of [sst_core.h] as operations on a finite map, the theorem
    that the code implements it, and the theorems on single operations that
    need no bound on the size of the storage. *)

From stdpp Require Import sets gmap.
From S2P Require Import Prelude FlashDriver SstDefs SstFlash SstCore SstCoreSpec SstTable SstCoreInv SstCoreOps SstCoreDelete SstCoreBoot.

(** ** The abstract machine *)

Inductive sst_op :=
| OpExist (u : Z)
| OpGetInfo (u : Z)
| OpCreate (u size : Z)
| OpRead (u off n : Z)
| OpWrite (u : Z) (data : list byte) (off : Z)
| OpDelete (u : Z)
| OpReboot (ram : sst_asset_system_context).

Inductive sst_value :=
| VUnit
| VInfo (i : sst_core_obj_info_t)
| VData (bs : list byte).

Abbreviation sst_result := (outcome psa_sst_err_t sst_value).

Definition abs_op (op : sst_op) (σ : store) : sst_result * store :=
  match op with
  | OpExist u =>
      (match σ !! u with Some _ => Ok VUnit | None => Err PSA_SST_ERR_ASSET_NOT_FOUND end, σ)
  | OpGetInfo u =>
      (match σ !! u with
       | Some o => Ok (VInfo {| size_current := zlen (o_data o); size_max := o_max o |})
       | None => Err PSA_SST_ERR_ASSET_NOT_FOUND
       end, σ)
  | OpCreate u sz =>
      if decide (size σ < 10)%nat then (Ok VUnit, <[u := SstObject sz []]> σ)
      else (Err PSA_SST_ERR_STORAGE_SYSTEM_FULL, σ)
  | OpRead u off n =>
      (match σ !! u with
       | Some o => if decide (off + n <= zlen (o_data o)) then Ok (VData (slice off n (o_data o)))
                   else Err PSA_SST_ERR_PARAM_ERROR
       | None => Err PSA_SST_ERR_ASSET_NOT_FOUND
       end, σ)
  | OpWrite u data off =>
      match σ !! u with
      | Some o =>
          if decide (off <= zlen (o_data o))
          then (Ok VUnit, <[u := SstObject (o_max o) (splice off data (o_data o))]> σ)
          else (Err PSA_SST_ERR_PARAM_ERROR, σ)
      | None => (Err PSA_SST_ERR_ASSET_NOT_FOUND, σ)
      end
  | OpDelete u =>
      match σ !! u with
      | Some _ => (Ok VUnit, delete u σ)
      | None => (Err PSA_SST_ERR_ASSET_NOT_FOUND, σ)
      end
  | OpReboot _ => (Ok VUnit, σ)
  end.

(** What the callers of the core guarantee: identifiers are valid, an object is
    not created twice, sizes are in range and a write does not pass the
    maximum size of its object. *)
Definition op_ok (op : sst_op) (σ : store) : Prop :=
  match op with
  | OpExist u | OpGetInfo u | OpDelete u => u <> 0
  | OpCreate u size => is_u32 u /\ u <> 0 /\ σ !! u = None /\ 0 < size <= SST_MAX_OBJECT_SIZE
  | OpRead u off n => u <> 0 /\ is_u32 off /\ is_u32 n
  | OpWrite u data off =>
      u <> 0 /\ 0 <= off /\ forall o, σ !! u = Some o -> off + zlen data <= o_max o
  | OpReboot _ => True
  end.

Fixpoint abs_run (ops : list sst_op) (σ : store) : list sst_result * store :=
  match ops with
  | [] => ([], σ)
  | op :: ops =>
      let '(r, σ1) := abs_op op σ in
      let '(rs, σ2) := abs_run ops σ1 in (r :: rs, σ2)
  end.

Fixpoint ops_ok (ops : list sst_op) (σ : store) : Prop :=
  match ops with
  | [] => True
  | op :: ops => op_ok op σ /\ ops_ok ops (abs_op op σ).2
  end.

(** ** The code as a machine *)

Section machine.
  Context {D : Type} `{!ARM_DRIVER_FLASH D, !sst_layout}.

Definition as_value {A} (f : A -> sst_value) (r : outcome psa_sst_err_t A * sst_state D)
  : sst_result * sst_state D :=
  (match r.1 with Ok a => Ok (f a) | Err e => Err e | Fault => Fault end, r.2).

(** One call of the core; a reboot replaces the RAM context by [ram] and runs
    [sst_core_prepare]. *)
Definition core_op (op : sst_op) (s : sst_state D) : sst_result * sst_state D :=
  match op with
  | OpExist u => as_value (fun _ => VUnit) (sst_core_object_exist u s)
  | OpGetInfo u => as_value VInfo (sst_core_object_get_info u s)
  | OpCreate u size => as_value (fun _ => VUnit) (sst_core_object_create u size s)
  | OpRead u off n => as_value VData (sst_core_object_read u off n s)
  | OpWrite u data off => as_value (fun _ => VUnit) (sst_core_object_write u data off (zlen data) s)
  | OpDelete u => as_value (fun _ => VUnit) (sst_core_object_delete u s)
  | OpReboot ram => as_value (fun _ => VUnit) (sst_core_prepare (SstState (sst_dev s) ram))
  end.

Fixpoint core_run (ops : list sst_op) (s : sst_state D) : list sst_result * sst_state D :=
  match ops with
  | [] => ([], s)
  | op :: ops =>
      let '(r, s1) := core_op op s in
      let '(rs, s2) := core_run ops s1 in (r :: rs, s2)
  end.
End machine.

Section refinement.
  Context {D : Type} `{!ARM_DRIVER_FLASH D, !FlashDevice D, !sst_layout, !sst_area_ok D,
                       !sst_build_ok}.
  Implicit Types (s : sst_state D) (σ : store).

Lemma as_value_runs {A} (f : A -> sst_value) (m : M (sst_state D) psa_sst_err_t A) s Q :
  runs m s Q -> exists a s', as_value f (m s) = (Ok (f a), s') /\ Q a s'.
Proof using Type. intros (a & s' & E & HQ). exists a, s'. by rewrite E. Qed.

(** One step of the code is the step of the abstract machine. *)
Lemma refine_step op s σ :
  roomy -> sst_rep_in all_home s σ -> op_ok op σ ->
  exists s', core_op op s = ((abs_op op σ).1, s') /\ sst_rep_in all_home s' (abs_op op σ).2.
Proof using All.
  intros Hroom Hrep Hok. pose proof (sst_rep_in_rep _ _ _ Hrep) as Hrep'.
  destruct op as [u|u|u sz|u off n|u data off|u|ram]; cbn [core_op abs_op op_ok] in *.
  - rewrite (object_exist_spec s σ u) by done. exists s. split; [|done]. by destruct (σ !! u).
  - rewrite (object_get_info_spec s σ u) by done. exists s. split; [|done]. by destruct (σ !! u).
  - destruct Hok as (H1' & H2' & H3' & H4').
    pose proof (object_create_roomy s σ u sz Hroom Hrep H1' H2' H3' H4') as Hc. case_decide.
    + apply (as_value_runs (fun _ => VUnit)) in Hc as (a & s' & E & Hr). eauto.
    + rewrite Hc. eauto.
  - destruct Hok as (H1' & H2' & H3'). rewrite (object_read_spec s σ u off n) by done.
    exists s. split; [|done]. destruct (σ !! u); [|done]. by case_decide.
  - destruct Hok as (H1' & H2' & H3'). destruct (σ !! u) as [o|] eqn:Eu.
    + pose proof (object_write_spec all_home s σ u o data off (zlen data) Hrep Eu H2' ltac:(lia) (H3' o eq_refl)) as Hw.
      assert (ztake (zlen data) data = data) as Et by (unfold ztake; rewrite Nat2Z.id; apply take_ge; lia).
      case_decide.
      * apply (as_value_runs (fun _ => VUnit)) in Hw as (a & s' & E & Hr). rewrite Et in Hr. eauto.
      * rewrite Hw. eauto.
    + rewrite (object_write_absent s σ u) by done. eauto.
  - destruct (σ !! u) as [o|] eqn:Eu.
    + pose proof (object_delete_spec s σ u Hrep (mk_is_Some _ _ Eu)) as Hd.
      apply (as_value_runs (fun _ => VUnit)) in Hd as (a & s' & E & Hr). eauto.
    + rewrite (object_delete_absent s σ u) by done. eauto.
  - pose proof (prepare_spec all_home s σ ram Hrep) as Hp.
    apply (as_value_runs (fun _ => VUnit)) in Hp as (a & s' & E & _ & Hr). eauto.
Qed.

Lemma refine_run ops s σ :
  roomy -> sst_rep_in all_home s σ -> ops_ok ops σ ->
  exists s', core_run ops s = ((abs_run ops σ).1, s') /\ sst_rep_in all_home s' (abs_run ops σ).2.
Proof using All.
  intros Hroom. revert s σ. induction ops as [|op ops IH]; intros s σ Hrep Hok; [by exists s|].
  destruct Hok as [Hop Hok]. destruct (refine_step op s σ Hroom Hrep Hop) as (s1 & E1 & Hr1).
  destruct (IH s1 (abs_op op σ).2 Hr1 Hok) as (s2 & E2 & Hr2). cbn [core_run abs_run].
  rewrite E1, E2. destruct (abs_op op σ) as [r σ1], (abs_run ops _) as [rs σ2]. eauto.
Qed.
End refinement.
