(* ===== verification/SstPower.v ===== *)
(** * Programs on a device that can lose power

    [power_cut D] (in [FlashDriver]) stops taking program and erase operations
    when its budget is spent.  The functions of the storage core are [regular]:
    without power they change nothing, and as long as the budget lasts they do
    exactly what they do on a powered device. *)

From S2P Require Import Prelude FlashDriver SstDefs SstFlash SstCore SstCoreSpec.

Create HintDb regular.

Section power.
  Context {D : Type} `{!ARM_DRIVER_FLASH D, !sst_layout}.
  Local Abbreviation PState := (sst_state (power_cut D)).
  Local Abbreviation PM := (M PState psa_sst_err_t).

(** The same state with another budget. *)
Definition refuel (b : option nat) (s : PState) : PState :=
  SstState (PowerCut b (device (sst_dev s))) (sst_system_ctx s).

Definition dead (s : PState) : Prop := budget (sst_dev s) = Some 0%nat.

Record regular {A} (m : PM A) : Prop := {
  reg_inert : forall s, dead s -> sst_dev (m s).2 = sst_dev s;
  reg_powered : forall s, exists s', (m (refuel None s)).2 = refuel None s';
  reg_tracks : forall s n,
    (exists n', m (refuel (Some n) s) =
       ((m (refuel None s)).1, refuel (Some n') (m (refuel None s)).2)) \/
    dead (m (refuel (Some n) s)).2;
}.

Lemma regular_pure {A} (m : PM A) :
  (forall s, sst_dev (m s).2 = sst_dev s) ->
  (forall s b, m (refuel b s) = ((m s).1, refuel b (m s).2)) -> regular m.
Proof using Type.
  intros Hd Hr. split.
  - intros s _. apply Hd.
  - intros s. exists (m s).2. by rewrite Hr.
  - intros s n. left. exists n. rewrite !Hr. done.
Qed.

Lemma regular_ret {A} (a : A) : regular (ret a).
Proof using Type. by apply regular_pure. Qed.

Lemma regular_fail {A} e : regular (@fail _ _ A e).
Proof using Type. by apply regular_pure. Qed.

Lemma regular_fault {A} : regular (@fault _ psa_sst_err_t A).
Proof using Type. by apply regular_pure. Qed.

Lemma regular_guard b e : regular (guard b e).
Proof using Type. unfold guard. destruct b; [apply regular_ret|apply regular_fail]. Qed.

Lemma regular_in_bounds b : regular (in_bounds b).
Proof using Type. unfold in_bounds. destruct b; [apply regular_ret|apply regular_fault]. Qed.

(** Accesses to the context only. *)
Lemma regular_gets {A} (f : sst_asset_system_context -> A) :
  regular (gets (fun s => f (sst_system_ctx s))).
Proof using Type. by apply regular_pure. Qed.

Lemma regular_modify (f : sst_asset_system_context -> sst_asset_system_context) :
  regular (modify (fun s => with_ctx s (f (sst_system_ctx s)))).
Proof using Type. by apply regular_pure. Qed.

Lemma refuel_refuel b b' s : refuel b (refuel b' s) = refuel b s.
Proof using Type. done. Qed.

Lemma regular_bind {A B} (m : PM A) (k : A -> PM B) :
  regular m -> (forall a, regular (k a)) -> regular (bind m k).
Proof using Type.
  intros [I1 P1 T1] Hk. unfold bind. split.
  - intros s Hs. specialize (I1 s Hs). destruct (m s) as [[a|e|] s1] eqn:E; simpl in *; try done.
    destruct (Hk a) as [I2 _ _]. rewrite I2; [done|]. unfold dead in *. by rewrite I1.
  - intros s. destruct (P1 s) as [s1 E1]. destruct (m (refuel None s)) as [[a|e|] s1'];
      simpl in *; subst; eauto. destruct (Hk a) as [_ P2 _]. apply P2.
  - intros s n. destruct (P1 s) as [s1 E1]. destruct (T1 s n) as [[n' E]|Hd].
    + rewrite E. destruct (m (refuel None s)) as [[a|e|] s1'] eqn:Em; simpl in *; subst;
        [|left; eauto..]. destruct (Hk a) as [_ _ T2]. rewrite refuel_refuel. apply T2.
    + right. destruct (m (refuel (Some n) s)) as [[a|e|] s2]; simpl in *; try done.
      destruct (Hk a) as [I2 _ _]. unfold dead in *. by rewrite I2.
Qed.

Lemma regular_or_return {A} (m : PM A) e : regular m -> regular (or_return m e).
Proof using Type.
  intros [I P T]. unfold or_return. split.
  - intros s Hs. specialize (I s Hs). by destruct (m s) as [[]].
  - intros s. destruct (P s) as [s1 E]. exists s1. by destruct (m (refuel None s)) as [[]].
  - intros s n. destruct (T s n) as [[n' E]|Hd].
    + left. exists n'. rewrite E. by destruct (m (refuel None s)) as [[]].
    + right. by destruct (m (refuel (Some n) s)) as [[]].
Qed.

Lemma regular_try {A} (m : PM A) : regular m -> regular (try m).
Proof using Type.
  intros [I P T]. unfold try. split.
  - intros s Hs. specialize (I s Hs). by destruct (m s) as [[]].
  - intros s. destruct (P s) as [s1 E]. exists s1. by destruct (m (refuel None s)) as [[]].
  - intros s n. destruct (T s n) as [[n' E]|Hd].
    + left. exists n'. rewrite E. by destruct (m (refuel None s)) as [[]].
    + right. by destruct (m (refuel (Some n) s)) as [[]].
Qed.

Lemma regular_try_err {A} (m : PM A) : regular m -> regular (try_err m).
Proof using Type.
  intros [I P T]. unfold try_err. split.
  - intros s Hs. specialize (I s Hs). by destruct (m s) as [[]].
  - intros s. destruct (P s) as [s1 E]. exists s1. by destruct (m (refuel None s)) as [[]].
  - intros s n. destruct (T s n) as [[n' E]|Hd].
    + left. exists n'. rewrite E. by destruct (m (refuel None s)) as [[]].
    + right. by destruct (m (refuel (Some n) s)) as [[]].
Qed.

Lemma regular_ignore {A} (m : PM A) : regular m -> regular (ignore m).
Proof using Type. intros. apply regular_bind; [by apply regular_try|intros; apply regular_ret]. Qed.

(** ** Flash accesses *)

Lemma regular_flash_read a n : regular (flash_read a n).
Proof using Type.
  apply regular_pure; intros s; [|intros b]; unfold flash_read; simpl;
    destruct (ReadData _ _ _) as [rc bs]; by destruct (negb _).
Qed.

Lemma regular_flash_write a bs : regular (flash_write a bs).
Proof using Type.
  unfold flash_write. split; simpl.
  - intros s Hs. unfold dead in Hs. rewrite Hs. done.
  - intros s. destruct (ProgramData _ _ (device _)) as [rc d]. exists (SstState (PowerCut None d) (sst_system_ctx s)).
    by destruct (negb _).
  - intros s n. destruct n as [|n]; [by right|]. left. exists n. simpl.
    destruct (ProgramData _ _ (device _)) as [rc d]. by destruct (negb _).
Qed.

Lemma regular_flash_erase a : regular (flash_erase a).
Proof using Type.
  unfold flash_erase. split; simpl.
  - intros s Hs. unfold dead in Hs. rewrite Hs. done.
  - intros s. destruct (EraseSector _ (device _)) as [rc d]. exists (SstState (PowerCut None d) (sst_system_ctx s)).
    by destruct (negb _).
  - intros s n. destruct n as [|n]; [by right|]. left. exists n. simpl.
    destruct (EraseSector _ (device _)) as [rc d]. by destruct (negb _).
Qed.
End power.

#[export] Hint Resolve regular_ret regular_fail regular_fault regular_guard regular_in_bounds
  regular_gets regular_modify regular_flash_read regular_flash_write regular_flash_erase : regular.

(** Decompose a program into its parts; what is left is a function call. *)
Ltac regular :=
  intros;
  repeat first
    [ progress intros
    | solve [eauto with regular]
    | apply regular_bind
    | apply regular_or_return
    | apply regular_ignore
    | apply regular_try
    | apply regular_try_err
    | match goal with |- regular (match ?x with _ => _ end) => destruct x end ].

Section regular_core.
  Context {D : Type} `{!ARM_DRIVER_FLASH D, !sst_layout}.
  Local Abbreviation PState := (sst_state (power_cut D)).
  Local Abbreviation reg m := (@regular D _ m).

Lemma regular_sst_flash_read b o n : reg (sst_flash_read b o n).
Proof using Type. unfold sst_flash_read. regular. Qed.
Lemma regular_sst_flash_write b bs o : reg (sst_flash_write b bs o).
Proof using Type. unfold sst_flash_write. regular. Qed.
Lemma regular_sst_flash_erase_block b : reg (sst_flash_erase_block b).
Proof using Type. unfold sst_flash_erase_block. regular. Qed.
Lemma regular_move db doff sb soff n : reg (sst_flash_block_to_block_move db doff sb soff n).
Proof using Type. unfold sst_flash_block_to_block_move. regular. Qed.
End regular_core.

#[export] Hint Resolve regular_sst_flash_read regular_sst_flash_write
  regular_sst_flash_erase_block regular_move : regular.

Section regular_helpers.
  Context {D : Type} `{!ARM_DRIVER_FLASH D, !sst_layout}.
  Local Abbreviation reg m := (@regular D _ m).

Lemma regular_cur_meta_scratch : reg sst_meta_cur_meta_scratch.
Proof using Type. exact (regular_gets scratch_metablock). Qed.
Lemma regular_cur_meta_active : reg sst_meta_cur_meta_active.
Proof using Type. exact (regular_gets active_metablock). Qed.
Lemma regular_swap_metablocks : reg sst_meta_swap_metablocks.
Proof using Type.
  exact (regular_modify (fun c => set_metablocks (scratch_metablock c) (active_metablock c) c)).
Qed.
#[local] Hint Resolve regular_cur_meta_scratch regular_cur_meta_active regular_swap_metablocks : regular.

Lemma regular_cur_data_scratch l : reg (sst_meta_cur_data_scratch l).
Proof using Type.
  unfold sst_meta_cur_data_scratch. destruct (_ =? _); [regular|].
  exact (regular_gets (fun c => scratch_idx (meta_block_header c))).
Qed.
Lemma regular_set_data_scratch p l : reg (sst_meta_set_data_scratch p l).
Proof using Type.
  unfold sst_meta_set_data_scratch. destruct (negb _); [|regular].
  exact (regular_modify (fun c => set_header (set_scratch_idx p (meta_block_header c)) c)).
Qed.
#[local] Hint Resolve regular_cur_data_scratch regular_set_data_scratch : regular.

Lemma regular_read_block_metadata l : reg (sst_meta_read_block_metadata l).
Proof using Type. unfold sst_meta_read_block_metadata. regular. Qed.
Lemma regular_read_object_meta i : reg (sst_meta_read_object_meta i).
Proof using Type. unfold sst_meta_read_object_meta. regular. Qed.
#[local] Hint Resolve regular_read_block_metadata regular_read_object_meta : regular.

Lemma regular_free_object_index_loop n i : reg (free_object_index_loop n i).
Proof using Type. revert i. induction n; intros i; cbn [free_object_index_loop]; regular. Qed.
Lemma regular_get_object_idx_loop n i u : reg (get_object_idx_loop n i u).
Proof using Type. revert i. induction n; intros i; cbn [get_object_idx_loop]; regular. Qed.
Lemma regular_reserve_object_loop n i m size sz : reg (reserve_object_loop n i m size sz).
Proof using Type. revert i. induction n; intros i; cbn [reserve_object_loop]; regular. Qed.
#[local] Hint Resolve regular_free_object_index_loop regular_get_object_idx_loop
  regular_reserve_object_loop : regular.

Lemma regular_lo_to_phy l : reg (sst_dblock_lo_to_phy l).
Proof using Type. unfold sst_dblock_lo_to_phy. regular. Qed.
#[local] Hint Resolve regular_lo_to_phy : regular.
Lemma regular_read_raw m o n : reg (sst_block_object_read_raw m o n).
Proof using Type. unfold sst_block_object_read_raw. regular. Qed.
Lemma regular_dblock_update_scratch l b bs o n : reg (sst_dblock_update_scratch l b bs o n).
Proof using Type. unfold sst_dblock_update_scratch. regular. Qed.
Lemma regular_update_scratch_object_meta i m : reg (sst_mblock_update_scratch_object_meta i m).
Proof using Type. unfold sst_mblock_update_scratch_object_meta. regular. Qed.
Lemma regular_update_scratch_block_meta l b : reg (sst_mblock_update_scratch_block_meta l b).
Proof using Type. unfold sst_mblock_update_scratch_block_meta. regular. Qed.
#[local] Hint Resolve regular_read_raw regular_dblock_update_scratch
  regular_update_scratch_object_meta regular_update_scratch_block_meta : regular.

Lemma regular_erase_scratch_blocks : reg sst_meta_erase_scratch_blocks.
Proof using Type. unfold sst_meta_erase_scratch_blocks. regular. Qed.
Lemma regular_copy_remaining_object_meta i : reg (sst_mblock_copy_remaining_object_meta i).
Proof using Type. unfold sst_mblock_copy_remaining_object_meta. regular. Qed.
Lemma regular_copy_remaining_block_meta l : reg (sst_mblock_copy_remaining_block_meta l).
Proof using Type. unfold sst_mblock_copy_remaining_block_meta. regular. Qed.
Lemma regular_migrate : reg sst_mblock_migrate_data_to_scratch.
Proof using Type. unfold sst_mblock_migrate_data_to_scratch. regular. Qed.
#[local] Hint Resolve regular_erase_scratch_blocks regular_copy_remaining_object_meta
  regular_copy_remaining_block_meta regular_migrate : regular.

Lemma regular_write_scratch_meta_header : reg sst_meta_write_scratch_meta_header.
Proof using Type.
  unfold sst_meta_write_scratch_meta_header. apply regular_bind; [regular|intros x].
  apply regular_bind; [|intros _; apply regular_bind; [|intros _; apply regular_bind; [|regular]]].
  - exact (regular_modify (fun c => set_header (set_swap_count
             (u8 (active_swap_count (meta_block_header c) + 1)) (meta_block_header c)) c)).
  - apply regular_pure; intros s; [|intros b]; unfold modify; simpl; by case_match.
  - exact (regular_gets meta_block_header).
Qed.
#[local] Hint Resolve regular_write_scratch_meta_header : regular.

Lemma regular_update_finalize : reg sst_meta_update_finalize.
Proof using Type. unfold sst_meta_update_finalize. regular. Qed.

Lemma regular_prepare_plain_text m data o n : reg (prepare_plain_text m data o n).
Proof using Type. unfold prepare_plain_text. regular. Qed.
Lemma regular_delete_object_loop n i x l di sp src nbr :
  reg (delete_object_loop n i x l di sp src nbr).
Proof using Type.
  revert i src nbr. induction n; intros i src nbr; cbn [delete_object_loop]; regular.
Qed.
Lemma regular_compact l o s d n : reg (sst_compact_dblock l o s d n).
Proof using Type. unfold sst_compact_dblock. regular. Qed.
#[local] Hint Resolve regular_prepare_plain_text regular_delete_object_loop regular_compact : regular.

Lemma regular_get_object_idx u : reg (sst_core_get_object_idx u).
Proof using Type. unfold sst_core_get_object_idx. regular. Qed.
Lemma regular_get_free_object_index : reg sst_get_free_object_index.
Proof using Type. unfold sst_get_free_object_index. regular. Qed.
Lemma regular_reserve_object m n : reg (sst_meta_reserve_object m n).
Proof using Type. unfold sst_meta_reserve_object. regular. Qed.
#[local] Hint Resolve regular_get_object_idx regular_get_free_object_index
  regular_reserve_object : regular.

Lemma regular_create_pre u size : reg (create_pre u size).
Proof using Type. unfold create_pre. regular. Qed.
Lemma regular_write_pre u data o n : reg (write_pre u data o n).
Proof using Type. unfold write_pre. regular. Qed.
Lemma regular_delete_pre u : reg (delete_pre u).
Proof using Type. unfold delete_pre. regular. Qed.

Lemma regular_object_create u size : reg (sst_core_object_create u size).
Proof using Type. unfold sst_core_object_create. pose proof regular_update_finalize. regular. Qed.
Lemma regular_object_write u data o n : reg (sst_core_object_write u data o n).
Proof using Type. unfold sst_core_object_write. pose proof regular_update_finalize. regular. Qed.
Lemma regular_object_delete u : reg (sst_core_object_delete u).
Proof using Type. unfold sst_core_object_delete. pose proof regular_update_finalize. regular. Qed.
Lemma regular_object_exist u : reg (sst_core_object_exist u).
Proof using Type. unfold sst_core_object_exist. regular. Qed.
Lemma regular_object_get_info u : reg (sst_core_object_get_info u).
Proof using Type. unfold sst_core_object_get_info. regular. Qed.
Lemma regular_object_read u o n : reg (sst_core_object_read u o n).
Proof using Type. unfold sst_core_object_read. regular. Qed.
Lemma regular_prepare : reg sst_core_prepare.
Proof using Type.
  unfold sst_core_prepare, sst_init_get_active_metablock, sst_meta_read_meta_header. regular.
Qed.
End regular_helpers.
