(* ===== verification/SstCrash.v ===== *)
(** * Secure storage core: power failures

    A power failure at any program or erase operation of an update leaves flash
    in a state from which start-up recovers either the store of before the
    update or the store after it, and from one power cycle to the next the calls
    that were complete stay ([store_lives]). *)

From stdpp Require Import sets gmap.
From S2P Require Import Prelude FlashDriver SstDefs SstFlash SstCore SstCoreSpec SstTable.
From S2P Require Import SstCoreInv SstCoreOps SstCoreDelete SstCoreBoot SstRefine SstPower.

(** ** Functions that do not look at the budget *)

Create HintDb blind.

Section blind.
  Context {D : Type} `{!ARM_DRIVER_FLASH D, !sst_layout}.
  Local Abbreviation PM := (M (sst_state (power_cut D)) psa_sst_err_t).

Definition blind {A} (m : PM A) : Prop := forall s b, m (refuel b s) = ((m s).1, refuel b (m s).2).

Lemma blind_ret {A} (a : A) : blind (ret a).
Proof using Type. done. Qed.
Lemma blind_fail {A} e : blind (@fail _ _ A e).
Proof using Type. done. Qed.
Lemma blind_fault {A} : blind (@fault _ psa_sst_err_t A).
Proof using Type. done. Qed.
Lemma blind_in_bounds b : blind (in_bounds b).
Proof using Type. by destruct b. Qed.
Lemma blind_gets {A} (f : sst_asset_system_context -> A) : blind (gets (fun s => f (sst_system_ctx s))).
Proof using Type. done. Qed.

Lemma blind_modify (f : sst_asset_system_context -> sst_asset_system_context) :
  blind (modify (fun s => with_ctx s (f (sst_system_ctx s)))).
Proof using Type. done. Qed.

Lemma blind_bind {A B} (m : PM A) (k : A -> PM B) :
  blind m -> (forall a, blind (k a)) -> blind (bind m k).
Proof using Type.
  intros Hm Hk s b. unfold bind. rewrite Hm. destruct (m s) as [[a|e|] s']; simpl; try done.
  apply Hk.
Qed.

Lemma blind_or_return {A} (m : PM A) e : blind m -> blind (or_return m e).
Proof using Type. intros Hm s b. unfold or_return. rewrite Hm. by destruct (m s) as [[]]. Qed.
Lemma blind_try {A} (m : PM A) : blind m -> blind (try m).
Proof using Type. intros Hm s b. unfold try. rewrite Hm. by destruct (m s) as [[]]. Qed.

Lemma blind_sst_flash_read b o n : blind (sst_flash_read b o n).
Proof using Type.
  intros s bu. unfold sst_flash_read, flash_read. simpl.
  destruct (ReadData _ _ _) as [rc bs]. by destruct (negb _).
Qed.
End blind.

#[export] Hint Resolve blind_ret blind_fail blind_fault blind_in_bounds blind_gets blind_modify
  blind_sst_flash_read : blind.

Ltac blind :=
  intros;
  repeat first
    [ progress intros
    | solve [eauto with blind]
    | apply blind_bind
    | apply blind_or_return
    | apply blind_try
    | match goal with |- blind (match ?x with _ => _ end) => destruct x end ].

Section blind_core.
  Context {D : Type} `{!ARM_DRIVER_FLASH D, !sst_layout}.
  Local Abbreviation bl m := (@blind D _ m).

Lemma blind_cur_meta_active : bl sst_meta_cur_meta_active.
Proof using Type. exact (blind_gets active_metablock). Qed.
#[local] Hint Resolve blind_cur_meta_active : blind.
Lemma blind_read_block_metadata l : bl (sst_meta_read_block_metadata l).
Proof using Type. unfold sst_meta_read_block_metadata. blind. Qed.
Lemma blind_read_object_meta i : bl (sst_meta_read_object_meta i).
Proof using Type. unfold sst_meta_read_object_meta. blind. Qed.
#[local] Hint Resolve blind_read_block_metadata blind_read_object_meta : blind.
Lemma blind_get_object_idx u : bl (sst_core_get_object_idx u).
Proof using Type.
  unfold sst_core_get_object_idx. generalize (Z.to_nat SST_NUM_ASSETS), 0. intros n.
  induction n; intros i; cbn [get_object_idx_loop]; blind.
Qed.
Lemma blind_get_free_object_index : bl sst_get_free_object_index.
Proof using Type.
  unfold sst_get_free_object_index. generalize (Z.to_nat SST_NUM_ASSETS), 0. intros n.
  induction n; intros i; cbn [free_object_index_loop]; blind.
Qed.
Lemma blind_reserve_object m size : bl (sst_meta_reserve_object m size).
Proof using Type.
  unfold sst_meta_reserve_object. generalize (Z.to_nat SST_NUM_ACTIVE_DBLOCKS), 0. intros n.
  induction n; intros i; cbn [reserve_object_loop]; blind.
Qed.
Lemma blind_prepare_plain_text m data o n : bl (prepare_plain_text m data o n).
Proof using Type.
  unfold prepare_plain_text, sst_block_object_read_raw, sst_dblock_lo_to_phy. blind.
Qed.

Lemma blind_load_header : bl load_header.
Proof using Type.
  unfold load_header, sst_init_get_active_metablock, sst_meta_read_meta_header. blind.
Qed.
Lemma blind_object_exist u : bl (sst_core_object_exist u).
Proof using Type. unfold sst_core_object_exist. pose proof (blind_get_object_idx u). blind. Qed.
Lemma blind_object_get_info u : bl (sst_core_object_get_info u).
Proof using Type. unfold sst_core_object_get_info. pose proof (blind_get_object_idx u). blind. Qed.
Lemma blind_object_read u o n : bl (sst_core_object_read u o n).
Proof using Type.
  unfold sst_core_object_read, sst_block_object_read_raw, sst_dblock_lo_to_phy.
  pose proof (blind_get_object_idx u). blind.
Qed.

(** What a function that only reads does on a powered device, it does with any
    budget. *)
Lemma blind_eq {A} (m : M (sst_state (power_cut D)) psa_sst_err_t A) p c r :
  bl m -> m (SstState (PowerCut None (device p)) c) = (r, SstState (PowerCut None (device p)) c) ->
  m (SstState p c) = (r, SstState p c).
Proof using Type.
  intros Hm E. specialize (Hm (SstState (PowerCut None (device p)) c) (budget p)).
  rewrite E in Hm. unfold refuel in Hm; simpl in Hm. by destruct p.
Qed.
End blind_core.

(** ** Programs that only touch the scratch blocks

    While an update is prepared, a power failure may hit at any time.  The
    content of flash then agrees with the content [V] at the start of the
    operation except in the scratch blocks, and the scratch metadata block has
    no swap count. *)

#[global] Instance power_cut_area_ok D `{!ARM_DRIVER_FLASH D, !FlashDevice D, !sst_layout}
  (Hok : sst_area_ok D) : sst_area_ok (power_cut D).
Proof. destruct Hok. by constructor. Qed.

Section device.
  Context {D : Type} `{!ARM_DRIVER_FLASH D, !FlashDevice D, !sst_layout, !sst_area_ok D,
                       !sst_build_ok}.
  Implicit Types (p : power_cut D) (c : sst_asset_system_context) (W : blocks).

(** The content of a device, powered or not. *)
Definition DV p W : Prop := DRep (PowerCut None (device p)) W.

(** Flash content start-up can load: it picks the metadata block of [c], and the
    scratch blocks of [c] can be erased without a loss. *)
Record loadable (W : blocks) c : Prop := {
  l_ctx : ctx_blocks c;
  l_header : header_ok (meta_block_header c);
  l_active : hdr W (active_metablock c) = meta_block_header c;
  l_chosen : chosen_block W = Some (active_metablock c);
  l_scratch : 2 < SST_TOTAL_NUM_OF_BLOCKS ->
    valid_block (scratch_idx (meta_block_header c)) /\ scratch_idx (meta_block_header c) <> active_metablock c
    /\ scratch_idx (meta_block_header c) <> scratch_metablock c;
}.

(** The content of [p] holds the store [σ], however dirty its scratch blocks. *)
Definition recovers p (P : (Z -> list Z) -> Prop) (σ : store) : Prop :=
  exists W c V lay, DV p W /\ loadable W c /\ (forall b o, V b o = prepared W c b o)
    /\ inv V c lay /\ stores V (active_metablock c) σ /\ P lay.

Lemma loadable_ctx W c :
  loadable W c ->
  {| meta_block_header := hdr W (active_metablock c); active_metablock := active_metablock c;
     scratch_metablock := 1 - active_metablock c |} = c.
Proof using All.
  intros L. pose proof (ctx_range c (l_ctx _ _ L)) as (HA & HX & Hne). rewrite (l_active _ _ L).
  replace (1 - active_metablock c) with (scratch_metablock c) by lia. by destruct c.
Qed.

(** Start-up with power succeeds, whatever is in RAM. *)
Lemma recovers_boot p P σ ram :
  recovers p P σ ->
  runs sst_core_prepare (SstState (PowerCut None (device p)) ram) (fun _ s' => sst_rep_in P s' σ).
Proof using All.
  intros (W & c & V & lay & HR & L & HV & I & Hs & HP).
  pose proof (ctx_range c (l_ctx _ _ L)) as (HA & HX & Hne).
  apply (runs_prepare _ ram W (active_metablock c)); [exact HR|apply L|lia|..].
  - rewrite (l_active _ _ L). apply header_ok_valid, L.
  - rewrite (l_active _ _ L). intros HT. by apply L.
  - rewrite (loadable_ctx W c L). intros d' R'. exists V, lay. split_and!; [|done..].
    eapply DRep_ext; [exact R'|]. intros b o _ _. by rewrite HV.
Qed.

(** Erasing a scratch block keeps what start-up finds. *)
Lemma loadable_erase W c b :
  loadable W c -> b = scratch_metablock c \/ 2 < SST_TOTAL_NUM_OF_BLOCKS /\ b = scratch_idx (meta_block_header c) ->
  loadable (verase W b) c.
Proof using All.
  intros L Hb. pose proof (ctx_range c (l_ctx _ _ L)) as (HA & HX & Hne).
  assert (b <> active_metablock c) as Hba by (destruct Hb as [->|[HT ->]]; [lia|by apply (l_scratch _ _ L)]).
  assert (forall b', b' <> b -> hdr (verase W b) b' = hdr W b') as Eh.
  { intros b' Hb'. unfold hdr. f_equal. apply vread_ext. intros o _. by rewrite verase_spec, decide_False. }
  pose proof (header_ok_valid _ (l_header _ _ L)) as Hv. rewrite <- (l_active _ _ L) in Hv.
  destruct L as [L1 L2 L3 L4 L5]. split; try done; [by rewrite Eh|].
  destruct (decide (b = scratch_metablock c)) as [->|Hbs].
  - assert (header_valid (hdr (verase W (scratch_metablock c)) (scratch_metablock c)) = false) as He
      by (apply erased_invalid; by rewrite verase_spec, decide_True).
    rewrite <- (Eh (active_metablock c)) in Hv by lia. unfold chosen_block.
    destruct L1 as [[EA EX]|[EA EX]]; rewrite EA in *; rewrite EX in *; by rewrite Hv, He.
  - unfold chosen_block in *. destruct L1 as [[EA EX]|[EA EX]]; rewrite EA in *; rewrite EX in *; by rewrite !Eh by lia.
Qed.

Lemma prepared_erase W c b b' o :
  b = scratch_metablock c \/ 2 < SST_TOTAL_NUM_OF_BLOCKS /\ b = scratch_idx (meta_block_header c) ->
  prepared (verase W b) c b' o = prepared W c b' o.
Proof using Type.
  intros Hb. unfold prepared. case_decide; rewrite !verase_spec; repeat case_decide; try done; intuition congruence.
Qed.

(** ** Primitive operations: done or refused *)

Lemma flash_write_or p c W b off bs :
  DV p W -> valid_block b -> 0 <= off -> off + zlen bs <= SST_BLOCK_SIZE ->
  (exists p', sst_flash_write b bs off (SstState p c) = (Ok tt, SstState p' c) /\
              DV p' (vwrite W b off bs)) \/
  sst_flash_write b bs off (SstState p c) = (Err PSA_SST_ERR_SYSTEM_ERROR, SstState p c).
Proof using All.
  intros HR Hb Ho Hn.
  destruct (sst_flash_write_ok (SstState (PowerCut None (device p)) c) W b off bs HR Hb Ho Hn)
    as (d' & E & R'). revert E R'. unfold sst_flash_write, flash_write, Rep, with_dev. simpl.
  destruct (spend (budget p)) as [bu|]; [|by right].
  destruct (ProgramData _ bs (device p)) as [rc d1]. destruct (negb _); [done|].
  intros [= <-] R'. left. eauto.
Qed.

Lemma flash_erase_or p c W b :
  DV p W -> valid_block b ->
  (exists p', sst_flash_erase_block b (SstState p c) = (Ok tt, SstState p' c) /\
              DV p' (verase W b)) \/
  sst_flash_erase_block b (SstState p c) = (Err PSA_SST_ERR_SYSTEM_ERROR, SstState p c).
Proof using All.
  intros HR Hb.
  destruct (sst_flash_erase_block_ok (SstState (PowerCut None (device p)) c) W b HR Hb)
    as (d' & E & R'). revert E R'. unfold sst_flash_erase_block, flash_erase, Rep, with_dev. simpl.
  destruct (spend (budget p)) as [bu|]; [|by right].
  destruct (EraseSector _ (device p)) as [rc d1]. destruct (negb _); [done|].
  intros [= <-] R'. left. eauto.
Qed.
End device.

Section confined.
  Context {D : Type} `{!ARM_DRIVER_FLASH D, !FlashDevice D, !sst_layout, !sst_area_ok D,
                       !sst_build_ok}.
  Context (c0 : sst_asset_system_context) (V : blocks) (lay : Z -> list Z).
  Context (I : inv V c0 lay).
  Local Abbreviation A := (active_metablock c0).
  Local Abbreviation X := (scratch_metablock c0).
  Local Abbreviation si := (scratch_idx (meta_block_header c0)).
  Local Abbreviation PD := (power_cut D).
  Local Abbreviation PM := (M (sst_state PD) psa_sst_err_t).
  Implicit Types (p : PD) (c : sst_asset_system_context) (W : blocks).

Definition keep W : Prop :=
  (forall b o, b <> X -> (2 < SST_TOTAL_NUM_OF_BLOCKS -> b <> si) -> W b o = V b o) /\
  W X 33 = Byte.xff.

Definition JD p : Prop := exists W, DV p W /\ keep W.

Definition scratch_place (b off n : Z) : Prop :=
  valid_block b /\ 0 <= off /\ 0 <= n /\ off + n <= SST_BLOCK_SIZE /\
  (b = X /\ (off + n <= 33 \/ 34 <= off) \/ 2 < SST_TOTAL_NUM_OF_BLOCKS /\ b = si).

Lemma si_not_X : 2 < SST_TOTAL_NUM_OF_BLOCKS -> si <> X /\ si <> A /\ valid_block si.
Proof using All.
  intros HT. pose proof (b_scratch_range _ _ (inv_blocks _ _ _ I) HT).
  pose proof (ctx_range c0 (i_ctx _ _ _ I)). unfold valid_block. lia.
Qed.

Lemma keep_vwrite W b off bs :
  keep W -> scratch_place b off (zlen bs) -> keep (vwrite W b off bs).
Proof using All.
  intros [H1' H2'] (_ & Ho & _ & _ & Hp). pose proof si_not_X as Hs. split.
  - intros b' o Hb1 Hb2. rewrite vwrite_spec, decide_False by (intros [-> _]; intuition). by apply H1'.
  - rewrite vwrite_spec, decide_False by (intros [E ?]; subst; intuition lia). done.
Qed.

Lemma keep_A W : keep W -> forall o, W A o = V A o.
Proof using All.
  intros [H1' _] o. pose proof si_not_X. pose proof (ctx_range c0 (i_ctx _ _ _ I)).
  apply H1'; [lia|intuition].
Qed.

Lemma keep_bm W l : keep W -> bm W A l = bm V A l.
Proof using All. intros HW. apply bm_ext. intros. by apply keep_A. Qed.
Lemma keep_om W i : keep W -> om W A i = om V A i.
Proof using All. intros HW. apply om_ext. intros. by apply keep_A. Qed.

Lemma keep_inv W : keep W -> inv W c0 lay.
Proof using All.
  intros HW. destruct I as [H1' H2' H3' H4' H5']. constructor; try done.
  - rewrite <- H3'. unfold hdr. f_equal. apply vread_ext. intros. by apply keep_A.
  - apply HW.
  - eapply tinv_ext; [exact H5'|intros; symmetry; by apply keep_om|intros; symmetry; by apply keep_bm].
Qed.

Lemma keep_stores W σ : keep W -> stores V A σ -> stores W A σ.
Proof using All.
  intros HW Hs. pose proof (inv_objects _ _ _ I) as IO. pose proof (inv_blocks _ _ _ I) as IB.
  pose proof (ctx_range c0 (i_ctx _ _ _ I)).
  eapply stores_same; [exact Hs|intros; by apply keep_om|]. intros j Hj. unfold content.
  rewrite keep_bm by done. apply vread_ext. intros k _.
  destruct (live_bounds V c0 lay j I Hj) as (L1 & _).
  destruct (decide (lblock (om V A j) = 0)) as [E|E].
  - rewrite E, (live_home V c0 lay j I Hj E). by apply keep_A.
  - assert (1 <= lblock (om V A j) < SST_NUM_ACTIVE_DBLOCKS) as L2 by lia.
    pose proof (b_dedicated _ _ IB _ L2). pose proof (b_scratch _ _ IB _ L2). apply HW; [lia|done].
Qed.

(** ** Programs confined to the scratch blocks

    [confined c m]: run with context [c], [m] keeps the context and, however it
    ends, the content outside the scratch blocks.  [safe c m] says nothing about
    the context.  [reads c m r]: [m] has outcome [r] and no effect. *)

Definition confined {R} c (m : PM R) : Prop :=
  forall p, JD p -> exists p', (m (SstState p c)).2 = SstState p' c /\ JD p'.
Definition safe {R} c (m : PM R) : Prop :=
  forall p, JD p -> JD (sst_dev (m (SstState p c)).2).
Definition reads {R} c (m : PM R) (r : outcome psa_sst_err_t R) : Prop :=
  forall p, JD p -> m (SstState p c) = (r, SstState p c).

Lemma confined_safe {R} c (m : PM R) : confined c m -> safe c m.
Proof using Type. intros Hm p Hp. destruct (Hm p Hp) as (p' & E & Hp'). by rewrite E. Qed.

Lemma reads_confined {R} c (m : PM R) r : reads c m r -> confined c m.
Proof using Type. intros Hm p Hp. exists p. by rewrite (Hm p Hp). Qed.

Lemma reads_ret {R} c (a : R) : reads c (ret a) (Ok a).
Proof using Type. by intros p _. Qed.
Lemma reads_fail {R} c e : reads c (@fail _ _ R e) (Err e).
Proof using Type. by intros p _. Qed.
Lemma reads_gets {R} c (f : sst_state PD -> R) a :
  (forall p, f (SstState p c) = a) -> reads c (gets f) (Ok a).
Proof using Type. intros Hf p _. unfold gets. by rewrite Hf. Qed.
Lemma reads_or_return {R} c (m : PM R) a e : reads c m (Ok a) -> reads c (or_return m e) (Ok a).
Proof using Type. intros Hm p Hp. by apply or_return_Ok, Hm. Qed.

Lemma confined_ret {R} c (a : R) : confined c (ret a).
Proof using Type. apply (reads_confined _ _ _ (reads_ret c a)). Qed.
Lemma confined_fail {R} c e : confined c (@fail _ _ R e).
Proof using Type. apply (reads_confined _ _ _ (reads_fail c e)). Qed.
Lemma confined_in_bounds c b : confined c (in_bounds b).
Proof using Type. intros p Hp. exists p. by destruct b. Qed.

Lemma confined_bind {R S} c (m : PM R) (k : R -> PM S) :
  confined c m -> (forall a, confined c (k a)) -> confined c (bind m k).
Proof using Type.
  intros Hm Hk p Hp. destruct (Hm p Hp) as (p' & E & Hp'). unfold bind.
  destruct (m (SstState p c)) as [[a|e|] s']; simpl in *; subst; [by apply Hk|eauto..].
Qed.

Lemma confined_read {R S} c (m : PM R) (k : R -> PM S) a :
  reads c m (Ok a) -> confined c (k a) -> confined c (bind m k).
Proof using Type.
  intros Hm Hk p Hp. rewrite (bind_Ok _ _ _ _ _ (Hm p Hp)). by apply Hk.
Qed.

Lemma confined_or_return {R} c (m : PM R) e : confined c m -> confined c (or_return m e).
Proof using Type.
  intros Hm p Hp. destruct (Hm p Hp) as (p' & E & Hp'). exists p'. split; [|done].
  unfold or_return. by destruct (m (SstState p c)) as [[]].
Qed.
Lemma confined_try {R} c (m : PM R) : confined c m -> confined c (try m).
Proof using Type.
  intros Hm p Hp. destruct (Hm p Hp) as (p' & E & Hp'). exists p'. split; [|done].
  unfold try. by destruct (m (SstState p c)) as [[]].
Qed.
Lemma confined_try_err {R} c (m : PM R) : confined c m -> confined c (try_err m).
Proof using Type.
  intros Hm p Hp. destruct (Hm p Hp) as (p' & E & Hp'). exists p'. split; [|done].
  unfold try_err. by destruct (m (SstState p c)) as [[]].
Qed.
Lemma confined_ignore {R} c (m : PM R) : confined c m -> confined c (ignore m).
Proof using Type. intros Hm. apply confined_bind; [by apply confined_try|intros; apply confined_ret]. Qed.

Lemma safe_bind {R S} c (m : PM R) (k : R -> PM S) :
  confined c m -> (forall a, safe c (k a)) -> safe c (bind m k).
Proof using Type.
  intros Hm Hk p Hp. destruct (Hm p Hp) as (p' & E & Hp'). unfold bind.
  destruct (m (SstState p c)) as [[a|e|] s']; simpl in *; subst; [by apply Hk|done..].
Qed.

Lemma safe_read {R S} c (m : PM R) (k : R -> PM S) a :
  reads c m (Ok a) -> safe c (k a) -> safe c (bind m k).
Proof using Type.
  intros Hm Hk p Hp. rewrite (bind_Ok _ _ _ _ _ (Hm p Hp)). by apply Hk.
Qed.

Lemma safe_abort {R S} c (m : PM R) (k : R -> PM S) r :
  reads c m r -> (forall a, r <> Ok a) -> safe c (bind m k).
Proof using Type.
  intros Hm Hr p Hp. unfold bind. rewrite (Hm p Hp).
  destruct r as [a|e|]; [by destruct (Hr a)|done..].
Qed.

Lemma safe_set_data_scratch {S} c b l (k : unit -> PM S) :
  safe (write_ctx c l b) (k tt) -> safe c (bind (sst_meta_set_data_scratch b l) k).
Proof using Type.
  intros Hk p Hp. specialize (Hk p Hp). revert Hk. unfold bind, sst_meta_set_data_scratch, write_ctx, SST_LOGICAL_DBLOCK0.
  destruct (Z.eqb_spec l 0), (decide (l = 0)); done.
Qed.

(** A function that only reads, from its run on a powered device. *)
Lemma reads_blind {R} c (m : PM R) r :
  blind m ->
  (forall p W, DV p W -> keep W ->
     m (SstState (PowerCut None (device p)) c) = (r, SstState (PowerCut None (device p)) c)) ->
  reads c m r.
Proof using Type. intros Hb Hm p (W & HR & HW). apply blind_eq; [done|]. by apply (Hm p W). Qed.

(** ** Flash operations *)

Lemma confined_flash_write c b off bs :
  scratch_place b off (zlen bs) -> confined c (sst_flash_write b bs off).
Proof using All.
  intros Hs p (W & HR & HW). pose proof Hs as (H1' & H2' & _ & H4' & _).
  destruct (flash_write_or p c W b off bs HR H1' H2' H4') as [(p' & E & R')|E]; rewrite E.
  - exists p'. split; [done|]. exists (vwrite W b off bs). split; [done|]. by apply keep_vwrite.
  - exists p. split; [done|]. by exists W.
Qed.

Lemma confined_move c db doff sb soff n :
  scratch_place db doff n -> valid_block sb -> 0 <= soff -> soff + n <= SST_BLOCK_SIZE ->
  confined c (sst_flash_block_to_block_move db doff sb soff n).
Proof using All.
  intros Hs Hb Ho Hn p HJ. pose proof HJ as (W & HR & HW). pose proof Hs as (_ & _ & Hp & _).
  pose proof (sst_flash_read_ok (SstState (PowerCut None (device p)) c) W sb soff n HR Hb Ho Hp Hn) as E.
  apply blind_eq in E; [|apply blind_sst_flash_read]. unfold sst_flash_block_to_block_move.
  rewrite (bind_Ok _ _ _ _ _ E). revert p HJ HR E. intros p HJ _ _.
  apply (confined_bind c (in_bounds _)); [apply confined_in_bounds|intros _|done].
  apply confined_flash_write. unfold vread. by rewrite zlen_mread.
Qed.

(** ** The helpers that build the next version *)

Section helpers.
  Context c (EA : active_metablock c = A) (EX : scratch_metablock c = X).

Lemma helper_ctx : ctx_blocks c.
Proof using EA EX I. pose proof (i_ctx _ _ _ I) as Hc. unfold ctx_blocks in *. by rewrite EA, EX. Qed.

Lemma reads_scratch : reads c sst_meta_cur_meta_scratch (Ok X).
Proof using EX. by apply reads_gets. Qed.
Lemma reads_active : reads c sst_meta_cur_meta_active (Ok A).
Proof using EA. by apply reads_gets. Qed.

Lemma X_place off n :
  34 <= off -> 0 <= n -> off + n <= SST_BLOCK_SIZE -> scratch_place X off n.
Proof using All.
  intros. pose proof (ctx_scratch_valid c0 (i_ctx _ _ _ I)).
  unfold scratch_place. split_and!; try done; [lia|]. left. split; [done|]. by right.
Qed.

Lemma reads_block_metadata l :
  0 <= l < SST_NUM_ACTIVE_DBLOCKS -> reads c (sst_meta_read_block_metadata l) (Ok (bm V A l)).
Proof using All.
  intros Hl. apply reads_blind; [apply blind_read_block_metadata|]. intros p W HR HW.
  apply runs_eq, runs_read_block_metadata with W; [done|apply helper_ctx|done|..];
    rewrite EA, keep_bm by done; [|done]. by apply (inv_block_ok _ _ _ _ I).
Qed.

Lemma reads_object_meta i :
  0 <= i < 10 -> reads c (sst_meta_read_object_meta i) (Ok (om V A i)).
Proof using All.
  intros Hi. apply reads_blind; [apply blind_read_object_meta|]. intros p W HR HW.
  apply runs_eq, runs_read_object_meta with W; [done|apply helper_ctx|done|..];
    rewrite EA, keep_om by done; [|done]. by apply (inv_object_ok _ _ _ _ I).
Qed.

Lemma confined_update_object_meta i m :
  0 <= i < 10 -> confined c (sst_mblock_update_scratch_object_meta i m).
Proof using All.
  intros Hi. pose proof layout_bounds as (H1' & H2' & _).
  apply (confined_read _ _ _ _ reads_scratch). apply confined_flash_write.
  rewrite object_meta_offset, length_encode_assetmeta by (unfold SST_NUM_ASSETS; lia).
  apply X_place; unfold ooff in *; lia.
Qed.

Lemma confined_update_block_meta l b :
  0 <= l < SST_NUM_ACTIVE_DBLOCKS -> confined c (sst_mblock_update_scratch_block_meta l b).
Proof using All.
  intros Hl. pose proof layout_bounds as (H1' & H2' & _).
  apply (confined_read _ _ _ _ reads_scratch). apply confined_flash_write.
  rewrite block_meta_offset, length_encode_block_metadata by lia.
  apply X_place; unfold ooff, boff in *; lia.
Qed.

Lemma A_valid : valid_block A.
Proof using All. apply ctx_active_valid, (i_ctx _ _ _ I). Qed.

Lemma confined_copy_objects i :
  0 <= i < 10 -> confined c (sst_mblock_copy_remaining_object_meta i).
Proof using All.
  intros Hi. pose proof layout_bounds as (H1' & H2' & H3' & _). pose proof A_valid.
  apply (confined_read _ _ _ _ reads_scratch), (confined_read _ _ _ _ reads_active).
  rewrite !object_meta_offset by (unfold SST_NUM_ASSETS; lia). unfold SIZEOF_assetmeta, SST_NUM_ASSETS.
  rewrite u32_small by (unfold ooff in *; lia).
  apply confined_bind; [|intros _; destruct (Z.ltb_spec (ooff (i + 1)) (ooff 10)); [|apply confined_ret]];
    apply confined_move; try done; try apply X_place; unfold ooff in *; lia.
Qed.

Lemma confined_copy_blocks l :
  0 <= l < SST_NUM_ACTIVE_DBLOCKS -> confined c (sst_mblock_copy_remaining_block_meta l).
Proof using All.
  intros Hl. pose proof layout_bounds as (H1' & H2' & H3' & _). pose proof A_valid.
  apply (confined_read _ _ _ _ reads_scratch), (confined_read _ _ _ _ reads_active).
  rewrite block_meta_offset by lia. rewrite object_meta_offset by (unfold SST_NUM_ASSETS; lia).
  cbv zeta. rewrite (u32_small (ooff 0 - _)) by (unfold ooff, boff in *; lia).
  apply confined_bind; [|intros _; apply confined_move; try done; try apply X_place; unfold ooff, boff in *; lia].
  unfold SST_LOGICAL_DBLOCK0. destruct (Z.eqb_spec l 0); [apply confined_ret|]. cbn [negb].
  eapply confined_read; [apply reads_or_return, reads_block_metadata; lia|].
  apply confined_bind; [apply confined_or_return, confined_update_block_meta; lia|intros _].
  unfold SIZEOF_block_metadata, SIZEOF_metadata_block_header. rewrite u32_small by (unfold ooff in *; lia).
  destruct (Z.ltb_spec 0 ((l - 1) * 12)); [|apply confined_ret].
  apply confined_move; try done; try apply X_place; unfold ooff in *; lia.
Qed.

Lemma block0_facts :
  data_start (bm V A 0) = ooff 10 /\ 0 <= free_size (bm V A 0) <= SST_BLOCK_SIZE - ooff 10 /\
  34 <= ooff 10 /\ 0 <= 0 < SST_NUM_ACTIVE_DBLOCKS.
Proof using All.
  pose proof layout_bounds as (HN & H2' & _). pose proof (inv_blocks _ _ _ I) as IB.
  assert (0 <= 0 < SST_NUM_ACTIVE_DBLOCKS) as Hz by lia.
  pose proof (binv_data_start _ _ _ IB Hz) as E. destruct (b_ok _ _ IB 0 Hz) as (_ & _ & F1 & F2 & _).
  rewrite E in *. unfold dstart in *. rewrite decide_True in * by done. unfold ooff in *. lia.
Qed.

Lemma confined_migrate : confined c sst_mblock_migrate_data_to_scratch.
Proof using All.
  destruct block0_facts as (F1 & F2 & F3 & Hz). pose proof A_valid. pose proof layout_bounds as (_ & _ & H3' & _).
  apply (confined_read _ _ _ _ reads_scratch), (confined_read _ _ _ _ reads_active).
  apply (confined_read _ _ _ _ (reads_block_metadata 0 Hz)). rewrite F1, u32_small by lia.
  apply confined_move; try done; try apply X_place; lia.
Qed.
End helpers.

(** ** The preparation of each update *)

(** A read whose value is only known to satisfy [φ]. *)
Lemma safe_read_any {R S} c (m : PM R) (k : R -> PM S) (φ : R -> Prop) :
  blind m ->
  (forall p W, DV p W -> keep W ->
     exists r, m (SstState (PowerCut None (device p)) c) = (r, SstState (PowerCut None (device p)) c) /\
               forall a, r = Ok a -> φ a) ->
  (forall a, φ a -> safe c (k a)) -> safe c (bind m k).
Proof using Type.
  intros Hb Hm Hk p HJ. pose proof HJ as (W & HR & HW). destruct (Hm p W HR HW) as (r & E & Hr).
  apply blind_eq in E; [|done]. unfold bind. rewrite E. destruct r as [a|e|]; [|done..].
  apply Hk; auto.
Qed.

(** Every entry the lookup returns is one of the table. *)
Lemma find_any p W u :
  DV p W -> keep W -> u <> 0 ->
  exists r, sst_core_get_object_idx u (SstState (PowerCut None (device p)) c0) =
              (r, SstState (PowerCut None (device p)) c0) /\
    forall i, r = Ok i -> live (om V A) i /\ unique_id (om V A i) = u.
Proof using All.
  intros HR HW Hu. pose proof (get_object_idx_eq _ _ _ _ HR (keep_inv W HW) u) as E.
  pose proof (first_uuid_spec (om W A) 10 0 u) as F. destruct (first_uuid (om W A) 10 0 u) as [k|].
  - eexists. split; [exact E|]. intros i [= <-]. rewrite keep_om in F by done. destruct F as [Fk Fu].
    split; [split; [lia|]|]; congruence.
  - eexists. split; [exact E|]. done.
Qed.

Lemma blind_or_return_idx u e : blind (or_return (sst_core_get_object_idx (D := PD) u) e).
Proof using Type. apply blind_or_return, blind_get_object_idx. Qed.

Lemma find_any_or p W u e :
  DV p W -> keep W -> u <> 0 ->
  exists r, or_return (sst_core_get_object_idx u) e (SstState (PowerCut None (device p)) c0) =
              (r, SstState (PowerCut None (device p)) c0) /\
    forall i, r = Ok i -> live (om V A) i /\ unique_id (om V A i) = u.
Proof using All.
  intros HR HW Hu. destruct (find_any p W u HR HW Hu) as (r & E & Hr).
  unfold or_return. rewrite E. destruct r as [i|e'|]; eexists; (split; [done|]); [auto|done..].
Qed.

Lemma safe_create_pre u size : safe c0 (create_pre u size).
Proof using All.
  pose proof layout_bounds as (HN & _).
  unfold create_pre. apply safe_read_any with
    (φ := fun r => forall m b, r = Some (m, b) -> 0 <= lblock m < SST_NUM_ACTIVE_DBLOCKS).
  - apply blind_try, blind_reserve_object.
  - intros p W HR HW. pose proof (reserve_object_eq _ _ _ _ HR (keep_inv W HW) uninit_assetmeta size (aligned_nonneg _)) as E.
    unfold try. rewrite E. pose proof (first_fit_spec (bm W A) (Z.to_nat SST_NUM_ACTIVE_DBLOCKS) 0
      (sst_get_aligned_flash_bytes size)) as F. destruct (first_fit _ _ _ _) as [l|]; eexists; (split; [done|]).
    + intros a [= <-] m b [= <- <-]. cbn [lblock]. lia.
    + intros a [= <-]. done.
  - intros r Hr. apply safe_read_any with (φ := fun i => i = SST_METADATA_INVALID_INDEX \/ 0 <= i < 10).
    + apply blind_get_free_object_index.
    + intros p W HR HW. rewrite (get_free_object_index_eq _ _ _ _ HR (keep_inv W HW)). eexists.
      split; [done|]. pose proof (first_uuid_spec (om W A) 10 0 0) as F.
      destruct (first_uuid (om W A) 10 0 0) as [k|]; intros a [= <-]; [right; lia|by left].
    + intros i Hi. destruct r as [[m b]|]; [|apply confined_safe, confined_fail].
      specialize (Hr m b eq_refl). destruct (Z.eqb_spec i SST_METADATA_INVALID_INDEX);
        [apply confined_safe, confined_fail|]. destruct Hi as [?|Hi]; [done|]. cbv zeta. cbn [lblock].
      apply safe_bind; [by apply confined_or_return, confined_update_object_meta|intros _].
      eapply safe_read; [by apply reads_scratch|].
      apply safe_bind; [by apply confined_or_return, confined_update_block_meta|intros _].
      apply safe_bind; [by apply confined_or_return, confined_copy_objects|intros _].
      apply safe_bind; [by apply confined_or_return, confined_copy_blocks|intros _].
      by apply confined_safe, confined_or_return, confined_migrate.
Qed.

Lemma reads_cur_data_scratch c l : reads c (sst_meta_cur_data_scratch l) (Ok (data_scratch c l)).
Proof using Type.
  unfold sst_meta_cur_data_scratch, data_scratch, SST_LOGICAL_DBLOCK0. by destruct (l =? 0).
Qed.

(** The place of object data in the scratch block of its logical block. *)
Lemma data_place i off n :
  live (om V A) i -> let l := lblock (om V A i) in
  dstart l <= off -> 0 <= n -> off + n <= SST_BLOCK_SIZE -> scratch_place (data_scratch c0 l) off n.
Proof using All.
  intros Hi l Ho Hn He. destruct (data_scratch_fresh V c0 lay i I Hi) as (D1 & _ & _ & D4 & D5).
  destruct (live_bounds V c0 lay i I Hi) as (L1 & L2 & _). fold l in D1, D4, D5, L1, L2.
  destruct (block0_facts c0 eq_refl eq_refl) as (_ & _ & F3 & _).
  unfold scratch_place. split_and!; try done; [lia|]. destruct (decide (l = 0)) as [E|E].
  - left. rewrite D5 by done. split; [done|]. right. unfold dstart in Ho. rewrite decide_True in Ho by done. lia.
  - right. destruct (D4 E) as (_ & _ & -> & ?). done.
Qed.

Lemma confined_dblock_update i data n :
  live (om V A) i -> let m := om V A i in let l := lblock m in
  0 <= n -> data_index m + n <= ends (bm V A) l ->
  confined c0 (sst_dblock_update_scratch l (bm V A l) data (data_index m) n).
Proof using All.
  intros Hi m l Hn He. destruct (live_bounds V c0 lay i I Hi) as (L1 & L2 & _ & _ & _ & _ & L7).
  fold m in L1, L2, L7. fold l in L1, L2, L7. pose proof (inv_block_ok _ _ _ _ I L1) as (Hv & B1 & B2 & B3 & _).
  pose proof (binv_data_start _ _ _ (inv_blocks _ _ _ I) L1) as Ed. pose proof layout_bounds as (_ & _ & H3' & _).
  unfold ends in He, L7. eapply confined_read; [apply reads_cur_data_scratch|].
  destruct (Z.leb_spec n (zlen data)) as [Hd|Hd]; cbn [in_bounds]; cycle 1.
  { intros p HJ. by exists p. }
  eapply confined_read; [apply reads_ret|]. cbv zeta. rewrite Ed.
  rewrite !u32_small by lia.
  apply confined_bind; [|intros _; apply confined_bind; [|intros _]].
  - apply confined_flash_write. rewrite zlen_ztake by lia. apply data_place; try done; fold m; fold l; lia.
  - destruct (Z.ltb_spec (dstart l) (data_index m)); [|apply confined_ret].
    apply confined_move; try done; try lia. apply data_place; try done; lia.
  - apply confined_move; try done; try lia. apply data_place; try done; fold m; fold l; lia.
Qed.

Lemma safe_write_pre u data off :
  u <> 0 -> 0 <= off ->
  (forall i, live (om V A) i -> unique_id (om V A i) = u -> off + zlen data <= max_size (om V A i)) ->
  safe c0 (write_pre u data off (zlen data)).
Proof using All.
  intros Hu Hoff Hmax. unfold write_pre.
  eapply safe_read_any; [apply blind_or_return_idx|intros p W HR HW; by apply (find_any_or p W)|].
  intros i [Hi Hiu]. specialize (Hmax i Hi Hiu). pose proof (proj1 Hi) as Hir.
  destruct (live_bounds V c0 lay i I Hi) as (L1 & L2 & _).
  eapply safe_read; [by apply reads_or_return, reads_object_meta|].
  eapply safe_read; [by apply reads_or_return, reads_block_metadata|].
  set (m := om V A i) in *. destruct (Z.ltb_spec (cur_size m) off) as [Hc|Hc];
    cbn [negb guard]; [by eapply safe_abort; [apply reads_fail|]|].
  eapply safe_read; [apply reads_ret|].
  eapply safe_read_any with (φ := fun r => r.2 = set_cur_size (Z.max (cur_size m) (off + zlen data)) m).
  - apply blind_prepare_plain_text.
  - intros p W HR HW. pose proof (keep_om W i HW) as Em. unfold m in *.
    assert (live (om W A) i) as HiW by (unfold live; by rewrite Em).
    pose proof (prepare_plain_text_eq _ c0 W lay i data off (zlen data) HR (keep_inv W HW) HiW) as E.
    cbv zeta in E. rewrite Em in E. rewrite E by lia. eexists. split; [done|]. by intros a [= <-].
  - intros [buf m'] Hm'. cbn [snd] in Hm'. subst m'. cbn [set_cur_size lblock data_index cur_size].
    assert (active_metablock (write_ctx c0 (lblock m) (phys_id (bm V A (lblock m)))) = A /\
            scratch_metablock (write_ctx c0 (lblock m) (phys_id (bm V A (lblock m)))) = X)
      as [EA EX] by apply write_ctx_blocks.
    intros p HJ. pose proof HJ as (W & HR & HW). pose proof (keep_om W i HW) as Em.
    assert (live (om W A) i) as HiW by (unfold live; by rewrite Em).
    pose proof (write_size _ c0 W lay i data off (zlen data) HR (keep_inv W HW) HiW) as Hws.
    rewrite Em in Hws. fold m in Hws.
    destruct Hws as (C1 & _ & _ & C4 & _); [lia..|]. unfold ends in C4. rewrite keep_bm in C4 by done.
    fold (ends (bm V A) (lblock m)) in C4. clear W HR HW Em HiW. revert p HJ.
    match goal with |- forall p, JD p -> JD (sst_dev (?f (SstState p c0)).2) => change (safe c0 f) end.
    apply safe_bind; [apply confined_or_return, (confined_dblock_update i); done || lia|intros _].
    eapply safe_read; [apply reads_cur_data_scratch|]. apply safe_set_data_scratch.
    apply safe_bind; [by apply confined_or_return, confined_update_block_meta|intros _].
    apply safe_bind; [by apply confined_or_return, confined_update_object_meta|intros _].
    apply safe_bind; [by apply confined_or_return, confined_copy_blocks|intros _].
    apply safe_bind; [by apply confined_or_return, confined_copy_objects|intros _].
    destruct (negb _); [by apply confined_safe, confined_or_return, confined_migrate|
                        apply confined_safe, confined_ret].
Qed.

(** [confined] with a condition on the result. *)
Definition confined_to {R} c (m : PM R) (φ : R -> Prop) : Prop :=
  forall p, JD p -> exists p', (m (SstState p c)).2 = SstState p' c /\ JD p' /\
    forall a, (m (SstState p c)).1 = Ok a -> φ a.

Lemma safe_bind_to {R S} c (m : PM R) (k : R -> PM S) φ :
  confined_to c m φ -> (forall a, φ a -> safe c (k a)) -> safe c (bind m k).
Proof using Type.
  intros Hm Hk p Hp. destruct (Hm p Hp) as (p' & E & Hp' & Hφ). unfold bind.
  destruct (m (SstState p c)) as [[a|e|] s']; simpl in *; subst; [apply Hk; auto|done..].
Qed.

Lemma confined_to_bind {R S} c (m : PM R) (k : R -> PM S) φ :
  confined c m -> (forall a, confined_to c (k a) φ) -> confined_to c (bind m k) φ.
Proof using Type.
  intros Hm Hk p Hp. destruct (Hm p Hp) as (p' & E & Hp'). unfold bind.
  destruct (m (SstState p c)) as [[a|e|] s']; simpl in *; subst; [by apply Hk|..];
    exists p'; (split_and!; [done|done|]); done.
Qed.

Lemma confined_to_read {R S} c (m : PM R) (k : R -> PM S) a φ :
  reads c m (Ok a) -> confined_to c (k a) φ -> confined_to c (bind m k) φ.
Proof using Type.
  intros Hm Hk p Hp. rewrite (bind_Ok _ _ _ _ _ (Hm p Hp)). by apply Hk.
Qed.

Section delete_pre.
  Context (i : Z) (l1 l2 : list Z).
  Context (Hi : live (om V A) i) (Hz : lblock (om V A i) = 0) (Hlay : lay 0 = l1 ++ i :: l2).
  Local Abbreviation di := (data_index (om V A i)).
  Local Abbreviation sp := (space (om V A i)).

Lemma confined_delete_loop n j src nbr :
  0 <= j -> j + Z.of_nat n <= 10 -> 0 <= nbr ->
  nbr + total (om V A) (moved_list c0 V i n j) < 2 ^ 32 ->
  confined_to c0 (delete_object_loop n j i 0 di sp src nbr) (fun r =>
    r = (min_index c0 V src (moved_list c0 V i n j), nbr + total (om V A) (moved_list c0 V i n j))).
Proof using All.
  revert j src nbr. induction n as [|n IH]; intros j src nbr Hj Hn Hnb Ht.
  { cbn [delete_object_loop]. intros p HJ. exists p. split_and!; [done..|]. intros a [= <-].
    cbn [moved_list total min_index]. by rewrite Z.add_0_r. }
  cbn [delete_object_loop moved_list] in *.
  destruct (Z.eqb_spec j i) as [E|E].
  { rewrite decide_False in * by (intros [? _]; done). apply IH; lia || done. }
  eapply confined_to_read; [apply reads_object_meta; done || lia|].
  assert ((lblock (om V A j) =? 0) && (di <? data_index (om V A j)) = bool_decide (behind_obj c0 V i j)) as ->.
  { unfold behind_obj, behind. destruct (Z.eqb_spec (lblock (om V A j)) 0), (Z.ltb_spec di (data_index (om V A j)));
      cbn [andb]; symmetry; rewrite ?bool_decide_eq_true, ?bool_decide_eq_false; lia. }
  apply confined_to_bind; [apply confined_ignore, confined_update_object_meta; done || lia|intros _].
  pose proof (total_nonneg c0 V lay i l1 l2 I Hi Hz Hlay (moved_list c0 V i n (j + 1))).
  pose proof (aligned_nonneg (max_size (om V A j))). fold (space (om V A j)) in *.
  case_bool_decide as Hb.
  - rewrite decide_True in * by done. cbn [total min_index andb] in *. rewrite u32_small by lia.
    rewrite Z.add_assoc. apply IH; lia.
  - rewrite decide_False in * by done. cbn [andb]. apply IH; lia.
Qed.

Lemma safe_delete_rest u :
  (forall i', live (om V A) i' -> unique_id (om V A i') = u -> i' = i) -> u <> 0 ->
  safe c0 (delete_pre u).
Proof using All.
  intros Huniq Hu. destruct (delete_facts c0 V lay i l1 l2 I Hi Hz Hlay) as (F1 & F2 & F3 & F4 & F5 & F6).
  destruct (delete_moved c0 V lay i l1 l2 I Hi Hz Hlay) as [Mt Mm].
  destruct (en_bounds c0 V lay i l1 l2 I Hi Hz Hlay) as [[E1 He] E2].
  pose proof (block0_facts c0 eq_refl eq_refl) as (_ & _ & G3 & G4). pose proof (A_valid c0 eq_refl eq_refl) as HAv.
  pose proof layout_bounds as (_ & _ & HB & _).
  unfold delete_pre.
  eapply safe_read_any; [apply blind_or_return_idx|intros p W HR HW; by apply (find_any_or p W)|].
  intros i' [Hi' Hiu']. rewrite (Huniq i' Hi' Hiu'). clear i' Hi' Hiu'. pose proof (proj1 Hi) as Hir.
  eapply safe_read; [by apply reads_object_meta|].
  destruct (sst_utils_validate_uuid _); [apply confined_safe, confined_fail|].
  cbv zeta. rewrite Hz. fold sp.
  apply safe_bind; [by apply confined_ignore, confined_update_object_meta|intros _].
  change (Z.to_nat SST_NUM_ASSETS) with 10%nat.
  eapply safe_bind_to; [apply confined_delete_loop; lia|]. intros a ->. rewrite Z.add_0_l.
  unfold sst_compact_dblock. eapply safe_read; [by apply reads_block_metadata|].
  eapply safe_read; [apply reads_cur_data_scratch|]. change (data_scratch c0 0) with X.
  cbv zeta. cbn [set_free_size phys_id data_start]. rewrite F4, F5.
  apply safe_bind; [|intros _; apply safe_bind; [|intros _]].
  - destruct (Z.ltb_spec 0 (total (om V A) (moved_list c0 V i 10 0))); [|apply confined_ret].
    rewrite Mm by done. apply confined_or_return, confined_move; try done; try (apply (X_place c0 eq_refl eq_refl)); lia.
  - destruct (Z.ltb_spec (ooff 10) di); [|apply confined_ret].
    apply confined_or_return, confined_move; try done; try (apply (X_place c0 eq_refl eq_refl)); lia.
  - apply safe_set_data_scratch. unfold write_ctx. rewrite decide_True by done.
    apply safe_bind; [by apply confined_try_err, confined_update_block_meta|]. intros [?|e].
    + apply safe_bind; [by apply confined_try_err, confined_copy_blocks|]. intros [?|e].
      * apply confined_safe, confined_ret.
      * apply safe_set_data_scratch, confined_safe, confined_fail.
    + apply safe_set_data_scratch, confined_safe, confined_fail.
Qed.
End delete_pre.

Lemma safe_delete_pre u : all_home lay -> u <> 0 -> safe c0 (delete_pre u).
Proof using All.
  intros Hh Hu p HJ. pose proof HJ as (W & HR & HW). pose proof (inv_objects _ _ _ I) as IO.
  destruct (find_any p W u HR HW Hu) as (r & E & Hr). destruct r as [i|e|].
  - destruct (Hr i eq_refl) as [Hi Hiu]. pose proof (all_home_lblock V c0 lay i Hh I Hi) as Hz.
    pose proof (oinv_member _ _ _ IO i Hi) as Hm. rewrite Hz in Hm.
    apply list_elem_of_split in Hm as (l1 & l2 & Hlay).
    apply (safe_delete_rest i l1 l2 Hi Hz Hlay u); try done.
    intros i' Hi' Hu'. apply (o_uniq _ _ _ IO); congruence.
  - apply blind_eq in E; [|apply blind_get_object_idx]. unfold delete_pre, bind, or_return. by rewrite E.
  - apply blind_eq in E; [|apply blind_get_object_idx]. unfold delete_pre, bind, or_return. by rewrite E.
Qed.

(** ** Recovery *)

(** Before the commit, the old store is recovered. *)
Lemma recover_old p (P : (Z -> list Z) -> Prop) σ :
  JD p -> stores V A σ -> P lay -> recovers p P σ.
Proof using All.
  intros (W & HR & HW) Hs HP. pose proof (keep_inv W HW) as IW.
  pose proof (ctx_range c0 (i_ctx _ _ _ IW)) as (HA & HX & Hne). pose proof si_not_X as Hsi.
  assert (keep (prepared W c0)) as HWp.
  { destruct HW as [K1 K2]. unfold prepared. split; [intros b o Hb1 Hb2|]; case_decide; rewrite !verase_spec;
      repeat case_decide; try done; try (by apply K1); intuition congruence. }
  exists W, c0, (prepared W c0), lay. split_and!; [done| |done|by apply keep_inv|by apply keep_stores|done].
  split; [apply IW|apply IW|apply IW|by apply (chosen_active W c0 lay)|]. intros HT. destruct (Hsi HT) as (? & ? & ?).
  split_and!; done.
Qed.
End confined.

Section commit.
  Context {D : Type} `{!ARM_DRIVER_FLASH D, !FlashDevice D, !sst_layout, !sst_area_ok D,
                       !sst_build_ok}.
  Implicit Types (p : power_cut D) (c : sst_asset_system_context) (W : blocks).

(** What the commit can leave in flash, from content [W] and context [c]. *)
Definition commit_states W c : list blocks :=
  let X := scratch_metablock c in let h := next_header (meta_block_header c) in
  [W; vwrite W X 0 (encode_header_prefix h); committed_header W X h;
   verase (committed_header W X h) (active_metablock c); finalized W c].

Lemma write_header_or p c W :
  DV p W -> ctx_blocks c -> header_ok (meta_block_header c) ->
  exists p' r, sst_meta_write_scratch_meta_header (SstState p c) =
      (r, SstState p' (set_header (next_header (meta_block_header c)) c)) /\
    (r = Ok tt /\ DV p' (committed_header W (scratch_metablock c) (next_header (meta_block_header c))) \/
     (forall a, r <> Ok a) /\
       exists W', DV p' W' /\ W' ∈ take 2 (commit_states W c)).
Proof using All.
  intros HR Hc Hh. pose proof (ctx_scratch_valid c Hc) as HX. pose proof layout_bounds as (H1' & H2' & _).
  unfold ooff in H2'. pose proof (next_header_ok _ Hh) as Hn.
  set (h := next_header (meta_block_header c)) in *. set (c' := set_header h c).
  assert (sst_meta_write_scratch_meta_header (SstState p c) =
    bind (sst_flash_write (scratch_metablock c) (encode_header_prefix h) 0)
      (fun _ => sst_flash_write (scratch_metablock c) [z2b (active_swap_count h)] 33) (SstState p c')) as ->.
  { unfold sst_meta_write_scratch_meta_header, sst_meta_cur_meta_scratch, bind, modify, gets.
    cbn [sst_system_ctx with_ctx set_header meta_block_header sst_dev].
    destruct Hh as (C1 & C2 & C3 & C4). rewrite u8_small by lia. unfold c', h.
    unfold sst_meta_validate_swap_count, SST_FLASH_DEFAULT_VAL, next_header, next_swap_count.
    cbn [set_swap_count active_swap_count]. by destruct (_ =? 255). }
  pose proof (zlen_header_prefix h (proj1 Hn)) as Hz.
  destruct (flash_write_or p c' W (scratch_metablock c) 0 (encode_header_prefix h) HR HX) as [(p1 & E & R1)|E];
    [lia|lia| |].
  - rewrite (bind_Ok _ _ _ _ _ E).
    destruct (flash_write_or p1 c' _ (scratch_metablock c) 33 [z2b (active_swap_count h)] R1 HX)
      as [(p2 & E2 & R2)|E2]; [lia|simpl; lia|rewrite E2; exists p2, (Ok tt)|rewrite E2; eexists p1, _].
    + split; [done|]. by left.
    + split; [done|]. right. split; [done|]. eexists. split; [exact R1|]. set_solver.
  - rewrite (bind_Err _ _ _ _ _ E). eexists p, _. split; [done|]. right. split; [done|].
    eexists. split; [exact HR|]. set_solver.
Qed.

Lemma finalize_states p c W :
  DV p W -> ctx_blocks c -> header_ok (meta_block_header c) ->
  (2 < SST_TOTAL_NUM_OF_BLOCKS -> valid_block (scratch_idx (meta_block_header c))) ->
  exists W', DV (sst_dev (sst_meta_update_finalize (SstState p c)).2) W' /\ W' ∈ commit_states W c.
Proof using All.
  intros HR Hc Hh Hs. unfold sst_meta_update_finalize, bind at 1.
  destruct (write_header_or p c W HR Hc Hh) as (p1 & r & -> & [[-> R1]|[Hr (W' & R1 & HW')]]); cycle 1.
  { exists W'. destruct r as [a|e|]; [by destruct (Hr a)|..];
      (split; [done|]); cbn [take commit_states] in *; set_solver. }
  rewrite (bind_Ok sst_meta_swap_metablocks _ _ tt (SstState p1 (finalized_ctx c))) by done.
  set (c' := finalized_ctx c). unfold sst_meta_erase_scratch_blocks.
  rewrite (bind_Ok sst_meta_cur_meta_scratch _ _ (active_metablock c) (SstState p1 c')) by done.
  destruct (flash_erase_or p1 c' _ (active_metablock c) R1) as [(p2 & E & R2)|E]; [by apply ctx_active_valid|..];
    [rewrite (bind_Ok _ _ _ _ _ E)|rewrite (bind_Err _ _ _ _ _ E)]; cycle 1.
  { eexists. split; [exact R1|]. set_solver. }
  destruct (Z.ltb_spec 2 SST_TOTAL_NUM_OF_BLOCKS) as [HT|HT]; cycle 1.
  { exists (finalized W c). split; [|set_solver]. unfold finalized. by rewrite decide_False by lia. }
  rewrite (bind_Ok (sst_meta_cur_data_scratch _) _ _ (scratch_idx (meta_block_header c)) (SstState p2 c')) by done.
  destruct (flash_erase_or p2 c' _ (scratch_idx (meta_block_header c)) R2 (Hs HT)) as [(p3 & E3 & R3)|E3];
    rewrite E3; eexists.
  - split; [exact R3|]. unfold commit_states, finalized. rewrite decide_True by done. set_solver.
  - split; [exact R2|]. set_solver.
Qed.

(** ** The commit *)

Lemma latest_counts h0 h1 h0' h1' :
  active_swap_count h0 = active_swap_count h0' -> active_swap_count h1 = active_swap_count h1' ->
  sst_meta_latest_meta_block h0 h1 = sst_meta_latest_meta_block h0' h1'.
Proof using Type. intros E0 E1. unfold sst_meta_latest_meta_block. by rewrite E0, E1. Qed.

(** A header written by a commit is chosen over the one it replaces, and over
    an erased block. *)
Lemma chosen_new W' c h X :
  ctx_blocks c -> X = scratch_metablock c -> header_ok h -> header_ok (meta_block_header c) ->
  hdr W' X = next_header (meta_block_header c) ->
  active_swap_count h = active_swap_count (meta_block_header c) ->
  hdr W' (active_metablock c) = h \/ W' (active_metablock c) 33 = Byte.xff ->
  chosen_block W' = Some X.
Proof using All.
  intros Hc -> Hh Hh' HX Esc HA. pose proof (next_header_ok _ Hh') as Hn.
  pose proof (header_ok_valid _ Hn) as Vn. unfold chosen_block.
  destruct (latest_next_spec h Hh) as [L1 L2].
  assert (active_swap_count (next_header h) = active_swap_count (next_header (meta_block_header c))) as En
    by (unfold next_header; cbn [set_swap_count active_swap_count]; by rewrite Esc).
  destruct Hc as [[EA EX]|[EA EX]]; rewrite EA, EX in *; rewrite HX; rewrite Vn;
    (destruct HA as [HA|HA]; [rewrite HA, (header_ok_valid h Hh)|by rewrite (erased_invalid _ _ HA)]).
  - by rewrite (latest_counts _ _ h (next_header h)), L1.
  - by rewrite (latest_counts _ _ (next_header h) h), L2.
Qed.

Section committed.
  Context (c0 c : sst_asset_system_context) (V W : blocks) (lay lay' : Z -> list Z) (σ σ' : store)
    (P : (Z -> list Z) -> Prop).
  Context (I : inv V c0 lay) (HW : keep c0 V W)
    (EA : active_metablock c = active_metablock c0) (EX : scratch_metablock c = scratch_metablock c0)
    (Hh : header_ok (meta_block_header c))
    (Esc : active_swap_count (meta_block_header c0) = active_swap_count (meta_block_header c))
    (IT : tinv (om W (scratch_metablock c)) (bm W (scratch_metablock c)) lay' (scratch_metablock c)
            (scratch_idx (meta_block_header c)))
    (Hs : stores V (active_metablock c0) σ) (Hs' : stores W (scratch_metablock c) σ')
    (HP : P lay) (HP' : P lay').

Lemma committed_ctx : ctx_blocks c.
Proof using EA EX I. pose proof (i_ctx _ _ _ I) as Hc. unfold ctx_blocks in *. by rewrite EA, EX. Qed.

Lemma recover_new p W' :
  DV p W' -> W' ∈ drop 2 (commit_states W c) -> recovers p P σ'.
Proof using All.
  intros HR HW'. pose proof committed_ctx as Hc. pose proof (ctx_range c Hc) as (HA & HX & Hne).
  pose proof (b_scratch_range _ _ (t_blk _ _ _ _ _ IT)) as Hsr. pose proof (next_header_ok _ Hh) as Hn.
  set (h := next_header (meta_block_header c)) in *.
  set (W1 := committed_header W (scratch_metablock c) h).
  assert (W' = W1 \/ W' = verase W1 (active_metablock c) \/ W' = finalized W c) as HW1.
  { unfold commit_states in HW'. cbn [drop] in HW'. fold h W1 in HW'. set_solver. }
  assert (forall o, W' (scratch_metablock c) o = W1 (scratch_metablock c) o) as EX1.
  { intros o. destruct HW1 as [->|[->| ->]]; [done|rewrite verase_spec, decide_False by lia; done|].
    rewrite finalized_spec. by rewrite !decide_False by lia. }
  assert (hdr W' (scratch_metablock c) = h) as Eh.
  { etransitivity; [|apply (decode_committed W (scratch_metablock c)); done].
    unfold hdr. f_equal. apply vread_ext. auto. }
  assert (hdr W' (active_metablock c) = meta_block_header c0 \/
          W' (active_metablock c) 33 = Byte.xff) as Ea.
  { destruct HW1 as [->|[->| ->]].
    - left. rewrite <- (i_active _ _ _ I). unfold hdr. f_equal. apply vread_ext. intros o Ho.
      unfold W1. rewrite committed_header_other by (apply Hn || lia). rewrite EA.
      by apply (keep_A c0 V lay I).
    - right. by rewrite verase_spec, decide_True.
    - right. rewrite finalized_spec, decide_False by lia. by rewrite decide_True. }
  exists W', (finalized_ctx c), (finalized W c), lay'. split_and!; [done| | |by apply inv_commit| |done].
  - split; cbn [finalized_ctx active_metablock scratch_metablock meta_block_header]; try done.
    + unfold ctx_blocks in *. cbn [finalized_ctx active_metablock scratch_metablock]. lia.
    + apply (chosen_new W' c (meta_block_header c0)); try done. apply (i_header _ _ _ I).
    + intros HT. unfold valid_block. cbn [next_header set_swap_count scratch_idx]. lia.
  - intros b o. rewrite finalized_spec. unfold prepared.
    cbn [finalized_ctx scratch_metablock meta_block_header].
    change (scratch_idx (next_header (meta_block_header c))) with (scratch_idx (meta_block_header c)).
    fold h W1.
    destruct HW1 as [->|[->| ->]]; repeat case_decide;
      rewrite ?verase_spec, ?finalized_spec; repeat case_decide; done || lia.
  - by apply (stores_commit W c lay').
Qed.

Lemma commit_recovers p :
  DV p W ->
  let p' := sst_dev (sst_meta_update_finalize (SstState p c)).2 in
  recovers p' P σ \/ recovers p' P σ'.
Proof using All.
  intros HR p'. pose proof committed_ctx as Hc. pose proof (next_header_ok _ Hh) as Hn.
  pose proof (b_scratch_range _ _ (t_blk _ _ _ _ _ IT)) as Hsr.
  destruct (finalize_states p c W HR Hc Hh) as (W' & R' & HW').
  { unfold valid_block. lia. }
  rewrite <- (take_drop 2 (commit_states W c)) in HW'. apply elem_of_app in HW' as [HW'|HW'].
  - left. apply (recover_old c0 V lay I); try done. exists W'. split; [done|].
    unfold commit_states in HW'. cbn [take] in HW'. apply elem_of_cons in HW' as [->|HW']; [done|].
    apply list_elem_of_singleton in HW' as ->. rewrite EX. apply (keep_vwrite c0 V lay I); [done|].
    pose proof (ctx_scratch_valid c Hc) as HX. pose proof layout_bounds as (H1' & H2' & _). unfold ooff in H2'.
    rewrite zlen_header_prefix by apply Hn. rewrite EX in HX. unfold scratch_place. split_and!; try done; [lia|].
    left. split; [done|]. by left.
  - right. by apply (recover_new _ W').
Qed.
End committed.
End commit.

(** ** Updates that lose power *)

Section updates.
  Context {D : Type} `{!ARM_DRIVER_FLASH D, !FlashDevice D, !sst_layout, !sst_area_ok D,
                       !sst_build_ok}.
  Local Abbreviation PD := (power_cut D).
  Local Abbreviation PM := (M (sst_state PD) psa_sst_err_t).
  Context (c0 : sst_asset_system_context) (V : blocks) (lay : Z -> list Z) (σ : store)
    (P : (Z -> list Z) -> Prop).
  Context (I : inv V c0 lay) (Hs : stores V (active_metablock c0) σ) (HP : P lay).
  Local Abbreviation A := (active_metablock c0).
  Local Abbreviation X := (scratch_metablock c0).
  Implicit Types (p : PD).

(** [s1] is a powered state whose scratch blocks hold the next version [σ']. *)
Definition built (s1 : sst_state PD) (σ' : store) : Prop :=
  exists W lay', let c := sst_system_ctx s1 in
    DRep (sst_dev s1) W /\
    (forall b o, b <> X ->
       (2 < SST_TOTAL_NUM_OF_BLOCKS -> b <> scratch_idx (meta_block_header c0)) -> W b o = V b o) /\
    active_metablock c = A /\ scratch_metablock c = X /\ header_ok (meta_block_header c) /\
    active_swap_count (meta_block_header c0) = active_swap_count (meta_block_header c) /\
    tinv (om W X) (bm W X) lay' X (scratch_idx (meta_block_header c)) /\ stores W X σ' /\ P lay'.

Lemma built_recovers p c σ' :
  built (SstState (PowerCut None (device p)) c) σ' -> JD c0 V p ->
  let p' := sst_dev (sst_meta_update_finalize (SstState p c)).2 in
  recovers p' P σ \/ recovers p' P σ'.
Proof using All.
  intros (W & lay' & HR & Ho & EA & EX & Hh & Esc & IT & Hs' & HP') (W2 & HR2 & HW2).
  cbn [sst_system_ctx sst_dev] in *.
  assert (keep c0 V W) as HW.
  { split; [done|]. pose proof (ctx_scratch_valid c0 (i_ctx _ _ _ I)) as HX.
    pose proof layout_bounds as (H1' & H2' & _). unfold ooff in H2'.
    destruct HR as [_ HR], HR2 as [_ HR2]. rewrite <- HR by (done || lia).
    rewrite HR2 by (done || lia). apply HW2. }
  rewrite <- EX in IT, Hs'. by apply (commit_recovers c0 c V W lay lay' σ σ' P).
Qed.

(** An operation that is a preparation followed by the commit. *)
Lemma crash_update (pre fin : PM unit) p n σ' :
  budget p = Some n -> DV p V -> regular pre -> safe c0 V c0 pre ->
  (forall s, (fin s).2 = (sst_meta_update_finalize s).2) ->
  (forall s1, pre (SstState (PowerCut None (device p)) c0) = (Ok tt, s1) -> built s1 σ') ->
  let p' := sst_dev (bind pre (fun _ => fin) (SstState p c0)).2 in
  recovers p' P σ \/ recovers p' P σ'.
Proof using All.
  intros Eb HR Hreg Hsafe Hfin Hpow p'.
  assert (JD c0 V p) as HJ.
  { exists V. split; [done|]. split; [done|]. apply (i_scratch _ _ _ I). }
  pose proof (Hsafe p HJ) as HJ'. pose proof (reg_tracks _ Hreg (SstState p c0) n) as Ht.
  unfold p', bind. change (refuel (Some n) (SstState p c0)) with (SstState (PowerCut (Some n) (device p)) c0) in Ht.
  rewrite <- Eb in Ht. destruct p as [bu d]. cbn [device budget] in *.
  change (refuel None (SstState (PowerCut bu d) c0)) with (SstState (PowerCut None d) c0) in Ht.
  destruct (pre (SstState (PowerCut bu d) c0)) as [[[]|e|] s1] eqn:E; cbn [fst snd] in *.
  - rewrite Hfin. destruct Ht as [(n' & Et)|Hdead].
    + destruct (pre (SstState (PowerCut None d) c0)) as [r s2] eqn:E2. cbn [fst snd] in Et.
      injection Et as <- Et. specialize (Hpow s2 eq_refl).
      destruct (reg_powered _ Hreg (SstState (PowerCut bu d) c0)) as [s3 E3].
      change (refuel None (SstState (PowerCut bu d) c0)) with (SstState (PowerCut None d) c0) in E3.
      rewrite E2 in E3. cbn [snd] in E3. subst s2. subst s1.
      apply (built_recovers (PowerCut (Some n') (device (sst_dev s3))) (sst_system_ctx s3) σ'); done.
    + left. apply (recover_old c0 V lay I); try done.
      by rewrite (reg_inert _ regular_update_finalize s1 Hdead).
  - left. by apply (recover_old c0 V lay I).
  - left. by apply (recover_old c0 V lay I).
Qed.
End updates.

Section crash.
  Context {D : Type} `{!ARM_DRIVER_FLASH D, !FlashDevice D, !sst_layout, !sst_area_ok D,
                       !sst_build_ok}.
  Local Abbreviation PD := (power_cut D).
  Implicit Types (p : PD) (σ : store) (V : blocks) (lay : Z -> list Z).

Lemma crash_create p n c V lay σ u size :
  roomy -> budget p = Some n -> DV p V -> inv V c lay -> stores V (active_metablock c) σ ->
  all_home lay -> op_ok (OpCreate u size) σ ->
  let p' := sst_dev (sst_core_object_create u size (SstState p c)).2 in
  recovers p' all_home σ \/ recovers p' all_home (abs_op (OpCreate u size) σ).2.
Proof using All.
  intros Hroom Eb HR I Hs Hh (Hu32 & Hu & Hnone & Hsz). rewrite create_split.
  apply (crash_update c V lay σ all_home I Hs Hh _ _ p n); try done;
    [apply regular_create_pre|by apply (safe_create_pre c V lay)| |].
  { intros s. unfold or_return. by destruct (sst_meta_update_finalize s) as [[]]. }
  intros s1 E1. pose proof (first_uuid_spec (om V (active_metablock c)) 10 0 0) as Fi.
  destruct (first_uuid _ 10 0 0) as [i|] eqn:Ei; cycle 1.
  { exfalso. revert E1. unfold create_pre, bind, try.
    rewrite (reserve_object_eq _ _ _ _ HR I) by apply aligned_nonneg.
    destruct (first_fit _ _ _ _); rewrite (get_free_object_index_eq _ _ _ _ HR I), ?Ei; done. }
  destruct Fi as [Fi Fu]. assert (0 <= i < 10) as Hi by lia. pose proof layout_bounds as (HN & _).
  destruct (roomy_fit V c lay i size Hroom I Hi Fu Hsz) as [Hfit Hff].
  cbn [abs_op]. rewrite decide_True by (by apply (table_not_full V (active_metablock c) σ i)). cbn [snd].
  assert (0 <= sst_get_aligned_flash_bytes size) as Ha by apply aligned_nonneg.
  destruct (runs_create_pre _ c V lay i 0 u size (fun _ s' => built c V all_home s' (<[u := SstObject size []]> σ))
    HR I Ha Ei Hff) as (a & s' & E & Hb).
  { intros d' R'. destruct (create_built V c lay σ i 0 u size I Hs) as [IT Hst]; try done; try lia.
    eexists _, _. cbn [sst_dev sst_system_ctx]. split_and!; [exact R'| |done|done|apply (i_header _ _ _ I)|done|done|done|].
    - intros b o Hb _. by apply create_only.
    - intros l Hl. rewrite upd_ne by lia. by apply Hh. }
  rewrite E in E1. by simplify_eq.
Qed.

Lemma crash_write p n c V lay σ u data off :
  budget p = Some n -> DV p V -> inv V c lay -> stores V (active_metablock c) σ ->
  all_home lay -> op_ok (OpWrite u data off) σ ->
  let p' := sst_dev (sst_core_object_write u data off (zlen data) (SstState p c)).2 in
  recovers p' all_home σ \/ recovers p' all_home (abs_op (OpWrite u data off) σ).2.
Proof using All.
  intros Eb HR I Hs Hh (Hu & Hoff & Hmax). rewrite write_split.
  apply (crash_update c V lay σ all_home I Hs Hh _ _ p n); try done; [apply regular_write_pre|..].
  { apply (safe_write_pre c V lay I); try done. intros i Hi Hiu. specialize (Hmax _ (ltac:(rewrite <- Hiu; apply (stores_live _ _ _ _ Hs Hi)))).
    apply Hmax. }
  intros s1 E1. cbn [abs_op]. destruct (σ !! u) as [o|] eqn:Eu; cycle 1.
  { exfalso. revert E1. unfold write_pre.
    rewrite (bind_Err _ _ _ _ _ (or_return_Err _ _ _ _ _ (find_absent _ c V lay σ u HR I Hs Hu Eu))). done. }
  destruct (find_present _ c V lay σ u o HR I Hs Eu) as (i & Hi & Hiu & <- & E).
  specialize (Hmax _ eq_refl). rewrite (obj_at_len V c lay i I Hi). cbn [obj_at o_max o_data] in *.
  destruct (live_bounds V c lay i I Hi) as (L1 & _). destruct (decide _) as [Hc|Hc]; cycle 1.
  { exfalso. revert E1. unfold write_pre.
    rewrite (bind_Ok _ _ _ _ _ (or_return_Ok _ _ _ _ _ E)).
    rewrite (bind_Ok _ _ _ _ _ (or_return_Ok _ _ _ _ _ (read_object_meta_eq _ _ _ _ HR I i (proj1 Hi)))).
    rewrite (bind_Ok _ _ _ _ _ (or_return_Ok _ _ _ _ _ (read_block_metadata_eq _ _ _ _ HR I _ L1))).
    destruct (Z.ltb_spec (cur_size (om V (active_metablock c) i)) off); [done|lia]. }
  cbn [snd]. assert (0 <= off <= cur_size (om V (active_metablock c) i)) as Hoff' by lia.
  assert (0 <= zlen data <= zlen data) as Hn' by lia.
  assert (ztake (zlen data) data = data) as Et by (unfold ztake; rewrite Nat2Z.id; apply take_ge; lia).
  destruct (runs_write_pre _ c V lay i data off (zlen data) HR I Hi Hoff' Hn' Hmax u
    (fun _ s' => built c V all_home s' (<[u := SstObject (max_size (om V (active_metablock c) i))
       (splice off data (content V (bm V (active_metablock c)) (om V (active_metablock c) i)))]> σ)) E)
    as (a & s' & E' & Hb).
  { intros d' R'.
    destruct (write_built _ c V lay i data off (zlen data) HR I Hi Hoff' Hn' Hmax σ Hs) as [IT Hst].
    destruct (wc_ok _ c V lay i data off (zlen data) HR I Hi Hoff' Hn' Hmax) as (E1' & E2' & E3' & E4' & _).
    rewrite Hiu, Et in Hst. eexists _, _. cbn [sst_dev sst_system_ctx].
    split_and!; [exact R'| |done|done|done|unfold write_ctx; by case_decide|exact IT|exact Hst|done].
    intros b o Hb1 Hb2. apply (write_only _ c V lay i data off (zlen data) HR I Hi Hoff' Hn' Hmax); [done|].
    destruct (data_scratch_fresh V c lay i I Hi) as (_ & _ & _ & D4 & D5).
    destruct (decide (lblock (om V (active_metablock c) i) = 0)) as [Ez|Ez]; [by rewrite D5|].
    destruct (D4 Ez) as (_ & _ & -> & HT). by apply Hb2. }
  rewrite E' in E1. by simplify_eq.
Qed.

Lemma crash_delete p n c V lay σ u :
  budget p = Some n -> DV p V -> inv V c lay -> stores V (active_metablock c) σ ->
  all_home lay -> op_ok (OpDelete u) σ ->
  let p' := sst_dev (sst_core_object_delete u (SstState p c)).2 in
  recovers p' all_home σ \/ recovers p' all_home (abs_op (OpDelete u) σ).2.
Proof using All.
  intros Eb HR I Hs Hh Hu. cbn [op_ok] in Hu. rewrite delete_split.
  apply (crash_update c V lay σ all_home I Hs Hh _ _ p n); try done;
    [apply regular_delete_pre|by apply (safe_delete_pre c V lay)|..].
  { intros s. unfold ignore, bind, try. by destruct (sst_meta_update_finalize s) as [[]]. }
  intros s1 E1. cbn [abs_op]. destruct (σ !! u) as [o|] eqn:Eu; cycle 1.
  { exfalso. revert E1. unfold delete_pre.
    rewrite (bind_Err _ _ _ _ _ (or_return_Err _ _ _ _ _ (find_absent _ c V lay σ u HR I Hs Hu Eu))). done. }
  destruct (find_present _ c V lay σ u o HR I Hs Eu) as (i & Hi & Hiu & <- & E). cbn [snd].
  pose proof (inv_objects _ _ _ I) as IO. pose proof (all_home_lblock V c lay i Hh I Hi) as Hz.
  pose proof (oinv_member _ _ _ IO i Hi) as Hm. rewrite Hz in Hm.
  apply list_elem_of_split in Hm as (l1 & l2 & Hlay).
  destruct (runs_delete_pre c V lay i l1 l2 I Hi Hz Hlay _ u
    (fun _ s' => built c V all_home s' (delete u σ)) HR Hiu E) as (a & s' & E' & Hb).
  { intros d' R'. subst u. eexists _, _. cbn [sst_dev sst_system_ctx].
    split_and!; [exact R'| |done|done|apply (i_header _ _ _ I)|done
      |by apply (delete_tinv c V lay i l1 l2 I Hi Hz Hlay)
      |by apply (delete_built c V lay i l1 l2 I Hi Hz Hlay)|].
    - intros b o Hb _. by apply (delete_only c V lay i l1 l2 I Hi Hz Hlay).
    - intros l Hl. rewrite upd_ne by lia. by apply Hh. }
  rewrite E' in E1. by simplify_eq.
Qed.

(** Start-up that loses power keeps the store. *)
Lemma crash_boot p (P : (Z -> list Z) -> Prop) σ ram :
  recovers p P σ -> recovers (sst_dev (sst_core_prepare (SstState p ram)).2) P σ.
Proof using All.
  intros (W & c & V & lay & HR & L & HV & I & Hs & HP).
  pose proof (ctx_range c (l_ctx _ _ L)) as (HA & HX & Hne).
  assert (forall p' W', DV p' W' -> loadable W' c -> (forall b o, prepared W' c b o = prepared W c b o) ->
    recovers p' P σ) as Hre.
  { intros p' W' R' L' E'. exists W', c, V, lay. split_and!; try done. intros b o. by rewrite E'. }
  rewrite prepare_split.
  destruct (runs_load_header (D := PD) (PowerCut None (device p)) ram W (active_metablock c)
    (fun _ s' => s' = SstState (PowerCut None (device p)) c)) as ([] & s' & E & ->); [done|apply L|lia|..].
  { rewrite (l_active _ _ L). apply header_ok_valid, L. }
  { by rewrite (loadable_ctx W c L). }
  assert (load_header (SstState p ram) = (Ok tt, SstState p c)) as E'.
  { pose proof (blind_load_header (SstState (PowerCut None (device p)) ram) (budget p)) as Hb.
    rewrite E in Hb. unfold refuel in Hb. cbn in Hb. by destruct p. }
  rewrite (bind_Ok _ _ _ _ _ E'). unfold sst_meta_erase_scratch_blocks.
  rewrite (bind_Ok sst_meta_cur_meta_scratch _ _ (scratch_metablock c) (SstState p c)) by done.
  pose proof (loadable_erase W c (scratch_metablock c) L (or_introl eq_refl)) as L1.
  assert (forall b o, prepared (verase W (scratch_metablock c)) c b o = prepared W c b o) as P1
    by (intros b o; apply prepared_erase; by left).
  destruct (flash_erase_or p c W (scratch_metablock c) HR) as [(p2 & E2 & R2)|E2];
    [by apply ctx_scratch_valid, L
    |rewrite (bind_Ok _ _ _ _ _ E2)|rewrite (bind_Err _ _ _ _ _ E2); by apply (Hre p W)].
  destruct (Z.ltb_spec 2 SST_TOTAL_NUM_OF_BLOCKS) as [HT|HT]; [|by eapply Hre].
  rewrite (bind_Ok (sst_meta_cur_data_scratch _) _ _ (scratch_idx (meta_block_header c)) (SstState p2 c)) by done.
  destruct (flash_erase_or p2 c _ (scratch_idx (meta_block_header c)) R2) as [(p3 & E3 & R3)|E3];
    [by apply L|rewrite E3|rewrite E3; by eapply Hre].
  eapply Hre; [exact R3|apply loadable_erase; [done|by right]|].
  intros b o. rewrite prepared_erase by (by right). done.
Qed.

Lemma rep_recovers (s : sst_state PD) b σ :
  sst_rep_in all_home (refuel None s) σ -> recovers (sst_dev (refuel b s)) all_home σ.
Proof using All.
  intros (V & lay & HR & I & Hs & Hh). apply (recover_old _ V lay I); [|done..].
  exists V. split; [exact HR|]. split; [done|apply (i_scratch _ _ _ I)].
Qed.

(** One operation, interrupted anywhere: the old or the new store. *)
Lemma crash_op op (s : sst_state PD) n σ :
  roomy -> sst_rep_in all_home (refuel None s) σ -> op_ok op σ ->
  let p' := sst_dev (core_op op (refuel (Some n) s)).2 in
  recovers p' all_home σ \/ recovers p' all_home (abs_op op σ).2.
Proof using All.
  intros Hroom Hrep Hok. pose proof (sst_rep_in_rep _ _ _ Hrep) as Hr.
  pose proof Hrep as (V & lay & HR & I & Hs & Hh).
  destruct op as [u|u|u sz|u off k|u data off|u|ram]; cbn [core_op].
  - left. cbn [as_value snd]. pose proof (blind_object_exist u (refuel None s) (Some n)) as Hb.
    rewrite (object_exist_spec _ σ u Hr Hok) in Hb. unfold refuel in *; cbn in *. rewrite Hb.
    by apply (rep_recovers s (Some n)).
  - left. cbn [as_value snd]. pose proof (blind_object_get_info u (refuel None s) (Some n)) as Hb.
    rewrite (object_get_info_spec _ σ u Hr Hok) in Hb. unfold refuel in *; cbn in *. rewrite Hb.
    by apply (rep_recovers s (Some n)).
  - by apply (crash_create _ n _ V lay).
  - left. cbn [as_value snd]. pose proof (blind_object_read u off k (refuel None s) (Some n)) as Hb.
    destruct Hok as (O1 & O2 & O3).
    rewrite (object_read_spec _ σ u off k Hr O1 O2 O3) in Hb. unfold refuel in *; cbn in *. rewrite Hb.
    by apply (rep_recovers s (Some n)).
  - by apply (crash_write _ n _ V lay).
  - by apply (crash_delete _ n _ V lay).
  - left. apply crash_boot. by apply (rep_recovers s (Some n)).
Qed.

(** ** Sequences of operations *)

(** Every operation of the core is regular; a reboot replaces the context first. *)
Lemma core_op_regular op :
  exists (R : Type) (f : R -> sst_value) (m : M (sst_state PD) psa_sst_err_t R)
         (g : sst_asset_system_context -> sst_asset_system_context),
    regular m /\ forall s, core_op op s = as_value f (m (SstState (sst_dev s) (g (sst_system_ctx s)))).
Proof using Type.
  destruct op as [u|u|u sz|u off k|u data off|u|ram]; [..|exists unit, (fun _ => VUnit), sst_core_prepare, (fun _ => ram);
    (split; [apply regular_prepare|done])].
  all: eexists _, _, _, id; (split; [|intros []; reflexivity]);
    apply regular_object_exist || apply regular_object_get_info || apply regular_object_create
    || apply regular_object_read || apply regular_object_write || apply regular_object_delete.
Qed.

Lemma core_op_inert op (s : sst_state PD) : dead s -> sst_dev (core_op op s).2 = sst_dev s.
Proof using Type.
  destruct (core_op_regular op) as (R & f & m & g & Hm & ->). intros Hs. cbn [as_value snd].
  by rewrite (reg_inert _ Hm).
Qed.

Lemma core_op_tracks op (s : sst_state PD) n :
  (exists n', core_op op (refuel (Some n) s) =
     ((core_op op (refuel None s)).1, refuel (Some n') (core_op op (refuel None s)).2)) \/
  dead (core_op op (refuel (Some n) s)).2.
Proof using Type.
  destruct (core_op_regular op) as (R & f & m & g & Hm & E). rewrite !E.
  destruct (reg_tracks _ Hm (SstState (sst_dev s) (g (sst_system_ctx s))) n) as [(n' & Et)|Hd].
  - left. exists n'. unfold refuel in *. cbn [sst_dev sst_system_ctx device] in *. rewrite Et. done.
  - by right.
Qed.

Lemma core_op_powered op (s : sst_state PD) :
  exists s', (core_op op (refuel None s)).2 = refuel None s'.
Proof using Type.
  destruct (core_op_regular op) as (R & f & m & g & Hm & E). rewrite E.
  destruct (reg_powered _ Hm (SstState (sst_dev s) (g (sst_system_ctx s)))) as [s' Es].
  exists s'. unfold refuel in *. cbn [as_value snd sst_dev sst_system_ctx device] in *. by rewrite Es.
Qed.

Lemma core_run_inert ops (s : sst_state PD) : dead s -> sst_dev (core_run ops s).2 = sst_dev s.
Proof using Type.
  revert s. induction ops as [|op ops IH]; intros s Hs; [done|]. cbn [core_run].
  pose proof (core_op_inert op s Hs) as E. destruct (core_op op s) as [r s1]. cbn [snd] in E.
  assert (dead s1) as H1' by (unfold dead in *; by rewrite E). specialize (IH s1 H1').
  destruct (core_run ops s1) as [rs s2]. cbn [snd] in *. congruence.
Qed.

Lemma core_run_dead ops (s : sst_state PD) : dead s -> dead (core_run ops s).2.
Proof using Type. intros Hs. unfold dead in *. by rewrite core_run_inert. Qed.

Lemma crash_run ops (s : sst_state PD) n σ :
  roomy -> sst_rep_in all_home (refuel None s) σ -> ops_ok ops σ ->
  exists k, (k <= length ops)%nat /\
    recovers (sst_dev (core_run ops (refuel (Some n) s)).2) all_home (abs_run (take k ops) σ).2 /\
    forall j, (j <= length ops)%nat -> ~ dead (core_run (take j ops) (refuel (Some n) s)).2 -> (j <= k)%nat.
Proof using All.
  intros Hroom. revert s n σ. induction ops as [|op ops IH]; intros s n σ Hrep Hok.
  { exists 0%nat. split_and!; [done| |simpl; lia]. by apply (rep_recovers s (Some n)). }
  destruct Hok as [Hop Hok]. cbn [core_run].
  destruct (core_op_tracks op s n) as [(n' & Et)|Hd].
  - destruct (refine_step op _ σ Hroom Hrep Hop) as (s1 & E1 & Hr1).
    destruct (core_op_powered op s) as [s1' Ep]. rewrite E1 in Ep, Et. cbn [fst snd] in Ep, Et.
    subst s1. rewrite refuel_refuel in Et. rewrite Et.
    destruct (IH s1' n' _ Hr1 Hok) as (k & Hk & Hrec & Hj). exists (S k). split_and!; [simpl; lia|..].
    + destruct (core_run ops (refuel (Some n') s1')) as [rs s2]. cbn [snd] in *.
      cbn [take abs_run]. destruct (abs_op op σ) as [r σ1]. cbn [snd] in *.
      by destruct (abs_run (take k ops) σ1).
    + intros [|j] Hl Hnd; [lia|]. cbn [take core_run] in Hnd. rewrite Et in Hnd.
      specialize (Hj j ltac:(simpl in Hl; lia)).
      destruct (core_run (take j ops) (refuel (Some n') s1')) as [rs s2]. cbn [snd] in *. apply Hj in Hnd. lia.
  - pose proof (crash_op op s n σ Hroom Hrep Hop) as Hc. cbv zeta in Hc.
    assert (forall j, ~ dead (core_run (take j (op :: ops)) (refuel (Some n) s)).2 -> j = 0%nat) as Hj.
    { intros [|j] Hnd; [done|]. destruct Hnd. cbn [take core_run].
      destruct (core_op op (refuel (Some n) s)) as [r s1]. cbn [snd] in Hd.
      pose proof (core_run_dead (take j ops) s1 Hd) as Hd'.
      by destruct (core_run (take j ops) s1) as [rs s2]. }
    destruct (core_op op (refuel (Some n) s)) as [r s1] eqn:Eo. cbn [snd] in *.
    pose proof (core_run_inert ops s1 Hd) as E. destruct (core_run ops s1) as [rs s2]. cbn [snd] in *. rewrite E.
    destruct Hc as [Hc|Hc].
    + exists 0%nat. split_and!; [lia|done|]. intros j _ Hnd%Hj. lia.
    + exists 1%nat. split_and!; [simpl; lia| |intros j _ Hnd%Hj; lia].
      cbn [take abs_run]. destruct (abs_op op σ) as [r' σ1]. done.
Qed.
(** ** Power cycles *)

(** A device that is switched on, started, used, and loses power. *)
Record power_cycle := Cycle { cy_ram : sst_asset_system_context; cy_ops : list sst_op; cy_budget : nat }.

(** The state when the first [i] of its operations have been called. *)
Definition cycle_state (k : power_cycle) (i : nat) (d : D) : sst_state PD :=
  (core_run (OpReboot (cy_ram k) :: take i (cy_ops k)) (SstState (PowerCut (Some (cy_budget k)) d) (cy_ram k))).2.

Definition cycle_run (k : power_cycle) (d : D) : D :=
  device (sst_dev (core_run (OpReboot (cy_ram k) :: cy_ops k) (SstState (PowerCut (Some (cy_budget k)) d) (cy_ram k))).2).

Fixpoint device_life (ks : list power_cycle) (d : D) : D :=
  match ks with [] => d | k :: ks => device_life ks (cycle_run k d) end.

(** Each cycle leaves the store as it was after some of its operations, among them
    all that were complete while the device still had power. *)
Fixpoint store_lives (ks : list power_cycle) (d : D) (σ σ' : store) : Prop :=
  match ks with
  | [] => σ' = σ
  | k :: ks => exists j, (j <= length (cy_ops k))%nat /\
      (forall i, (i <= length (cy_ops k))%nat -> budget (sst_dev (cycle_state k i d)) <> Some 0%nat -> (i <= j)%nat) /\
      store_lives ks (cycle_run k d) (abs_run (take j (cy_ops k)) σ).2 σ'
  end.

(** The callers keep their obligations whatever the store is by then. *)
Fixpoint cycles_ok (ks : list power_cycle) (σ : store) : Prop :=
  match ks with
  | [] => True
  | k :: ks => ops_ok (cy_ops k) σ /\
      forall j, (j <= length (cy_ops k))%nat -> cycles_ok ks (abs_run (take j (cy_ops k)) σ).2
  end.

Lemma recovers_device p p' P σ : device p = device p' -> recovers p P σ -> recovers p' P σ.
Proof using Type. unfold recovers, DV. by intros ->. Qed.

(** Start-up and operations, interrupted anywhere. *)
Lemma cycle_recovers k d σ :
  roomy -> recovers (PowerCut None d) all_home σ -> ops_ok (cy_ops k) σ ->
  exists j, (j <= length (cy_ops k))%nat /\
    (forall i, (i <= length (cy_ops k))%nat -> budget (sst_dev (cycle_state k i d)) <> Some 0%nat -> (i <= j)%nat) /\
    recovers (PowerCut None (cycle_run k d)) all_home (abs_run (take j (cy_ops k)) σ).2.
Proof using All.
  intros Hroom Hrec Hok. unfold cycle_run, cycle_state. set (s := SstState (PowerCut None d) (cy_ram k)). cbn [core_run].
  change (SstState (PowerCut (Some (cy_budget k)) d) (cy_ram k)) with (refuel (Some (cy_budget k)) s).
  pose proof (crash_boot (PowerCut (Some (cy_budget k)) d) all_home σ (cy_ram k)
    (recovers_device _ (PowerCut (Some (cy_budget k)) d) _ _ eq_refl Hrec)) as Hcut.
  destruct (core_op_tracks (OpReboot (cy_ram k)) s (cy_budget k)) as [(n' & Et)|Hd].
  - destruct (recovers_boot _ _ _ (cy_ram k) Hrec) as (a & s1 & E1 & Hr1).
    destruct (core_op_powered (OpReboot (cy_ram k)) s) as [s1' Ep].
    assert (core_op (OpReboot (cy_ram k)) (refuel None s) = (Ok VUnit, s1)) as E2
      by (cbn [core_op]; unfold as_value; change (sst_dev (refuel None s)) with (PowerCut None (device (PowerCut None d))); by rewrite E1).
    rewrite E2 in Et, Ep. cbn [fst snd] in Et, Ep. subst s1. rewrite refuel_refuel in Et. rewrite Et.
    destruct (crash_run (cy_ops k) s1' n' σ Hroom Hr1 Hok) as (j & Hj & Hrec' & Hall). exists j. split; [done|]. split.
    { intros i Hi Hb. apply (Hall i Hi). by destruct (core_run (take i (cy_ops k)) (refuel (Some n') s1')) as [rs s2]. }
    destruct (core_run (cy_ops k) (refuel (Some n') s1')) as [rs s2]. cbn [snd] in *. by eapply recovers_device; [|exact Hrec'].
  - exists 0%nat. split; [lia|]. cbn [take abs_run snd].
    destruct (core_op (OpReboot (cy_ram k)) (refuel (Some (cy_budget k)) s)) as [r s1] eqn:Eo. cbn [snd] in Hd.
    split.
    { intros i _ Hb. destruct Hb. pose proof (core_run_dead (take i (cy_ops k)) s1 Hd) as Hd'.
      by destruct (core_run (take i (cy_ops k)) s1) as [rs s2]. }
    pose proof (core_run_inert (cy_ops k) s1 Hd) as Ei. destruct (core_run (cy_ops k) s1) as [rs s2]. cbn [snd] in *. rewrite Ei.
    eapply recovers_device; [|exact Hcut]. change (sst_dev s1) with (sst_dev (r, s1).2). rewrite <- Eo. done.
Qed.

Lemma life_recovers ks d σ :
  roomy -> recovers (PowerCut None d) all_home σ -> cycles_ok ks σ ->
  exists σ', store_lives ks d σ σ' /\ recovers (PowerCut None (device_life ks d)) all_home σ'.
Proof using All.
  intros Hroom. revert d σ. induction ks as [|k ks IH]; intros d σ Hrec Hok; [by exists σ|].
  destruct Hok as [Hk Hok]. destruct (cycle_recovers k d σ Hroom Hrec Hk) as (j & Hj & Hall & Hrec').
  destruct (IH _ _ Hrec' (Hok j Hj)) as (σ' & Hl & Hr). exists σ'. split; [by exists j|done].
Qed.
End crash.
