(* ===== verification/SstBoard.v ===== *)
(** * Secure storage core on the boards of the repository

    The flash layout of the AN521 ([partition/flash_layout.h]) satisfies what
    the storage core needs, so the theorems of [SstRefine] apply to it; the
    theorems on the whole core are stated here with their concrete instances,
    followed by runs that show where the code does not do what it means to. *)

From stdpp Require Import sets gmap.
From S2P Require Import Prelude FlashDriver SstDefs SstFlash SstCore SstCoreSpec SstTable SstCoreInv SstCoreOps SstCoreDelete SstCoreBoot SstRefine.
From S2P Require Import SstPower SstCrash.

(** ** AN521 *)

Definition an521_flash : Type := emulated ARM_FLASH0_DEV_an521.

(** [FLASH_SST_AREA_OFFSET], [FLASH_AREA_IMAGE_SECTOR_SIZE],
    [SST_NBR_OF_SECTORS] and [SST_FLASH_PROGRAM_UNIT]. *)
Definition an521_layout : sst_layout := {|
  SST_FLASH_AREA_ADDR := 0x380000;
  SST_BLOCK_SIZE := 0x1000;
  SST_TOTAL_NUM_OF_BLOCKS := 0x5000 / 0x1000;
  SST_FLASH_PROGRAM_UNIT := 1 |}.

Lemma an521_area_ok : @sst_area_ok an521_flash _ _ an521_layout.
Proof. split; vm_compute; auto; try discriminate. right. discriminate. Qed.

Lemma an521_build_ok : @sst_build_ok an521_layout.
Proof. split; vm_compute; discriminate. Qed.

(** ** The core implements the abstract store *)

Section claims.
  Context {D : Type} `{!ARM_DRIVER_FLASH D, !FlashDevice D, !sst_layout, !sst_area_ok D,
                       !sst_build_ok}.
  Implicit Types (s : sst_state D) (σ : store).

(** C2: Where a block holds ten objects of the largest size, the storage core
    refines a finite map from identifiers to objects: after a wipe of any flash
    content, every sequence of calls that meets the callers' obligations
    (create, write, read, delete, queries, and reboots with arbitrary RAM
    content in between) returns exactly the results of the abstract store, call
    by call, and leaves a storage that represents its state. *)
Theorem sst_core_refines_store (d : D) c V ops :
  roomy -> DRep d V -> zlen (crypto (meta_block_header c)) = 28 -> ops_ok ops ∅ ->
  exists s1 s2, sst_core_wipe_all (SstState d c) = (Ok tt, s1) /\
    core_run ops s1 = ((abs_run ops ∅).1, s2) /\ sst_rep s2 (abs_run ops ∅).2.
Proof using All.
  intros Hroom HR Hcr Hok. destruct (wipe_all_spec d c V HR Hcr) as ([] & s1 & E1 & Hr1).
  destruct (refine_run ops s1 ∅ Hroom Hr1 Hok) as (s2 & E2 & Hr2).
  exists s1, s2. split_and!; try done. by apply sst_rep_in_rep in Hr2.
Qed.

(** Start-up recovers the storage: from the flash alone, whatever the RAM
    context holds, [sst_core_prepare] succeeds, finds the running context of
    before the restart again and leaves a storage that represents the same
    store. *)
Theorem sst_core_prepare_recovers s σ ram :
  sst_rep s σ ->
  exists s', sst_core_prepare (SstState (sst_dev s) ram) = (Ok tt, s') /\
    sst_system_ctx s' = sst_system_ctx s /\ sst_rep s' σ.
Proof using All.
  intros Hrep. destruct (prepare_spec _ s σ ram Hrep) as ([] & s' & E & Hc & Hr). by exists s'.
Qed.

(** Creating an object under a fresh identifier, in any block layout, either
    adds an empty object of the requested maximum size and changes nothing
    else, or reports a full storage and leaves the state as it was; it only
    does the latter when no table entry is free or no block has the space. *)
Theorem sst_core_object_create_adds s σ u size :
  sst_rep s σ -> is_u32 u -> u <> 0 -> σ !! u = None -> 0 < size <= SST_MAX_OBJECT_SIZE ->
  (exists s', sst_core_object_create u size s = (Ok tt, s') /\
     sst_rep s' (<[u := SstObject size []]> σ)) \/
  (sst_core_object_create u size s = (Err PSA_SST_ERR_STORAGE_SYSTEM_FULL, s) /\
   create_full s size).
Proof using All.
  intros Hrep Hu32 Hu Hn Hsz.
  destruct (object_create_spec s σ u size Hrep Hu32 Hu Hn Hsz) as [([] & s' & E & Hr)|Hf];
    [left; by exists s'|by right].
Qed.

(** Writing [n] bytes at [off] into an object, in any block layout: when the
    offset is inside the content or at its end, the bytes replace or extend
    the content and every other object keeps its content; when the offset is
    past the end, the call is refused and nothing changes. *)
Theorem sst_core_object_write_updates s σ u o data off n :
  sst_rep s σ -> σ !! u = Some o -> 0 <= off -> 0 <= n <= zlen data -> off + n <= o_max o ->
  (off <= zlen (o_data o) ->
     exists s', sst_core_object_write u data off n s = (Ok tt, s') /\
       sst_rep s' (<[u := SstObject (o_max o) (splice off (ztake n data) (o_data o))]> σ)) /\
  (zlen (o_data o) < off ->
     sst_core_object_write u data off n s = (Err PSA_SST_ERR_PARAM_ERROR, s)).
Proof using All.
  intros Hrep Hu Ho Hn Hm. pose proof (object_write_spec _ s σ u o data off n Hrep Hu Ho Hn Hm) as Hw.
  split; intros Hc.
  - rewrite decide_True in Hw by done. destruct Hw as ([] & s' & E & Hr). by exists s'.
  - by rewrite decide_False in Hw by lia.
Qed.

(** Reading: the bytes of the object at the requested place when they exist,
    and otherwise the error that says what is wrong; the state is unchanged in
    every case. *)
Theorem sst_core_object_read_returns s σ u off n :
  sst_rep s σ -> u <> 0 -> is_u32 off -> is_u32 n ->
  sst_core_object_read u off n s =
    (match σ !! u with
     | Some o => if decide (off + n <= zlen (o_data o)) then Ok (slice off n (o_data o))
                 else Err PSA_SST_ERR_PARAM_ERROR
     | None => Err PSA_SST_ERR_ASSET_NOT_FOUND
     end, s).
Proof using All. apply object_read_spec. Qed.

(** Deleting an object, when every object is in logical block 0, removes it,
    moves the objects behind it and keeps the content of all of them. *)
Theorem sst_core_object_delete_removes s σ u :
  sst_rep_in all_home s σ -> is_Some (σ !! u) ->
  exists s', sst_core_object_delete u s = (Ok tt, s') /\ sst_rep_in all_home s' (delete u σ).
Proof using All.
  intros Hrep Hu. destruct (object_delete_spec s σ u Hrep Hu) as ([] & s' & E & Hr). by exists s'.
Qed.

(** C5: Power failures.  A device loses power after any number [n] of program
    and erase operations, in the middle of any operation of a sequence of
    calls: later operations on flash fail.  Start-up on the content that is
    left then succeeds, with any RAM content, and finds the store as it was
    after the first [k] operations of the sequence for some [k]; no operation
    is found half done, and every operation that was complete while the device
    still had power is kept. *)
Theorem sst_core_survives_power_failure (d : D) c σ ops n :
  roomy -> sst_rep_in all_home (SstState (PowerCut None d) c) σ -> ops_ok ops σ ->
  let run j := (core_run (take j ops) (SstState (PowerCut (Some n) d) c)).2 in
  exists k, (k <= length ops)%nat /\
    (forall j, (j <= length ops)%nat -> budget (sst_dev (run j)) <> Some 0%nat -> (j <= k)%nat) /\
    forall ram, exists s' : sst_state (power_cut D),
      sst_core_prepare (SstState (PowerCut None (device (sst_dev (run (length ops))))) ram) = (Ok tt, s') /\
      sst_rep s' (abs_run (take k ops) σ).2.
Proof using All.
  intros Hroom Hrep Hok run. unfold run.
  destruct (crash_run ops (SstState (PowerCut None d) c) n σ Hroom Hrep Hok) as (k & Hk & Hrec & Hj).
  exists k. split_and!; [done|done|]. intros ram. rewrite take_ge by done.
  destruct (recovers_boot _ _ _ ram Hrec) as ([] & s' & E & Hr). exists s'. split; [done|]. by apply sst_rep_in_rep in Hr.
Qed.

(** C6: The storage comes back after every power failure.  A device goes through
    any number of power cycles, each of which is started, used and loses power
    after any number of program and erase operations, during start-up too.
    Start-up with power then succeeds, with any RAM content, and from then on
    every sequence of calls is served with the results of a store in which each
    cycle has performed a first part of its calls, in their order, that includes
    every call that was complete while the device still had power: no completed
    call is rolled back, by the failure or by a later one, and none is half done. *)
Theorem storage_recovers_and_serves (d : D) c σ ks :
  roomy -> sst_rep_in all_home (SstState (PowerCut None d) c) σ -> cycles_ok ks σ ->
  exists σ', store_lives ks d σ σ' /\
    forall ram ops, ops_ok ops σ' ->
      exists s' : sst_state (power_cut D), core_run (OpReboot ram :: ops) (SstState (PowerCut None (device_life ks d)) ram) =
        (Ok VUnit :: (abs_run ops σ').1, s') /\ sst_rep s' (abs_run ops σ').2.
Proof using All.
  intros Hroom Hrep Hok.
  destruct (life_recovers ks d σ Hroom (rep_recovers (SstState (PowerCut None d) c) None σ Hrep) Hok) as (σ' & Hl & Hrec).
  exists σ'. split; [done|]. intros ram ops Hops.
  destruct (recovers_boot _ _ _ ram Hrec) as ([] & s1 & E1 & Hr1).
  destruct (refine_run ops s1 σ' Hroom Hr1 Hops) as (s2 & E2 & Hr2).
  exists s2. split; [|by apply sst_rep_in_rep in Hr2].
  cbn [core_run core_op]. unfold as_value. cbn [sst_dev]. cbn [device] in E1. rewrite E1. cbn [fst snd]. by rewrite E2.
Qed.

(** A wipe succeeds whatever the flash holds and leaves an empty store. *)
Theorem sst_core_wipe_all_empties (d : D) c V :
  DRep d V -> zlen (crypto (meta_block_header c)) = 28 ->
  exists s', sst_core_wipe_all (SstState d c) = (Ok tt, s') /\ sst_rep s' ∅.
Proof using All.
  intros HR Hcr. destruct (wipe_all_spec d c V HR Hcr) as ([] & s' & E & Hr).
  exists s'. split; [done|]. by apply sst_rep_in_rep in Hr.
Qed.
End claims.

(** ** The claims at the AN521 *)

Module An521.
Local Existing Instances an521_layout an521_area_ok an521_build_ok.

Definition blank : an521_flash := Emulated (fun _ => Byte.xff).
Definition ram : sst_asset_system_context :=
  {| meta_block_header := {| crypto := replicate 28 Byte.x00; scratch_idx := 7;
                             fs_version := 9; active_swap_count := 3 |};
     active_metablock := 1; scratch_metablock := 1 |}.

Lemma blank_rep : DRep blank (fun _ _ => Byte.xff).
Proof. by split. Qed.

Definition session : list sst_op :=
  [OpCreate 5 100; OpWrite 5 [Byte.x01; Byte.x02; Byte.x03] 0; OpCreate 9 304;
   OpWrite 9 [Byte.x0a] 0; OpReboot ram; OpDelete 5; OpWrite 9 [Byte.x0b; Byte.x0c] 1;
   OpRead 9 0 3; OpRead 5 0 1; OpWrite 9 [Byte.x0b] 7].

Lemma an521_roomy : roomy.
Proof. vm_compute. discriminate. Qed.

Lemma session_ok : ops_ok session ∅.
Proof.
  vm_compute. repeat (split || discriminate || intros ? [= <-]).
Qed.

(** The witness also shows the results of the session. *)
Lemma sst_core_refines_store_witness :
  (exists s1 s2, sst_core_wipe_all (SstState blank ram) = (Ok tt, s1) /\
    core_run session s1 = ((abs_run session ∅).1, s2) /\ sst_rep s2 (abs_run session ∅).2) /\
  (abs_run session ∅).1 =
    [Ok VUnit; Ok VUnit; Ok VUnit; Ok VUnit; Ok VUnit; Ok VUnit; Ok VUnit;
     Ok (VData [Byte.x0a; Byte.x0b; Byte.x0c]); Err PSA_SST_ERR_ASSET_NOT_FOUND;
     Err PSA_SST_ERR_PARAM_ERROR].
Proof.
  split; [|vm_compute; reflexivity].
  apply (sst_core_refines_store blank ram _ session an521_roomy blank_rep eq_refl session_ok).
Defined.

Definition σ1 : store := {[ 5 := SstObject 100 [Byte.x01; Byte.x02] ]}.

Lemma stored : exists s : sst_state an521_flash, sst_rep_in all_home s σ1.
Proof.
  destruct (wipe_all_spec blank ram _ blank_rep eq_refl) as ([] & s1 & _ & Hr1).
  destruct (refine_run [OpCreate 5 100; OpWrite 5 [Byte.x01; Byte.x02] 0] s1 ∅ an521_roomy Hr1)
    as (s2 & _ & Hr2); [|by exists s2].
  vm_compute. repeat (split || discriminate || intros ? [= <-]).
Qed.

Lemma sst_core_prepare_recovers_witness :
  exists s s' : sst_state an521_flash, sst_rep s σ1 /\
    sst_core_prepare (SstState (sst_dev s) ram) = (Ok tt, s') /\ sst_rep s' σ1.
Proof.
  destruct stored as [s Hs]. pose proof (sst_rep_in_rep _ _ _ Hs) as Hs'.
  destruct (sst_core_prepare_recovers s σ1 ram Hs') as (s' & E & _ & Hr). by exists s, s'.
Defined.

Lemma sst_core_object_create_adds_witness :
  exists s : sst_state an521_flash, sst_rep s σ1 /\
    ((exists s', sst_core_object_create 7 304 s = (Ok tt, s') /\
        sst_rep s' (<[7 := SstObject 304 []]> σ1)) \/
     (sst_core_object_create 7 304 s = (Err PSA_SST_ERR_STORAGE_SYSTEM_FULL, s) /\
      create_full s 304)).
Proof.
  destruct stored as [s Hs]. apply sst_rep_in_rep in Hs. exists s. split; [done|].
  apply (sst_core_object_create_adds s σ1 7 304 Hs); vm_compute; try done; split; discriminate || done.
Defined.

Lemma sst_core_object_write_updates_witness :
  exists s s' : sst_state an521_flash, sst_rep s σ1 /\
    sst_core_object_write 5 [Byte.x0a; Byte.x0b] 1 2 s = (Ok tt, s') /\
    sst_rep s' (<[5 := SstObject 100 [Byte.x01; Byte.x0a; Byte.x0b]]> σ1) /\
    sst_core_object_write 5 [Byte.x0a] 3 1 s = (Err PSA_SST_ERR_PARAM_ERROR, s).
Proof.
  destruct stored as [s Hs]. apply sst_rep_in_rep in Hs. exists s.
  destruct (sst_core_object_write_updates s σ1 5 (SstObject 100 [Byte.x01; Byte.x02])
    [Byte.x0a; Byte.x0b] 1 2 Hs) as [Hw _]; [done|done|split; vm_compute; discriminate|vm_compute; discriminate|].
  destruct Hw as (s' & E & Hr); [vm_compute; discriminate|]. exists s'. split_and!; try done.
  apply (sst_core_object_write_updates s σ1 5 (SstObject 100 [Byte.x01; Byte.x02])
    [Byte.x0a] 3 1 Hs); try done; split; vm_compute; discriminate.
Defined.

Lemma sst_core_object_read_returns_witness :
  exists s : sst_state an521_flash, sst_rep s σ1 /\
    sst_core_object_read 5 1 1 s = (Ok [Byte.x02], s) /\
    sst_core_object_read 5 1 2 s = (Err PSA_SST_ERR_PARAM_ERROR, s) /\
    sst_core_object_read 6 0 1 s = (Err PSA_SST_ERR_ASSET_NOT_FOUND, s).
Proof.
  destruct stored as [s Hs]. apply sst_rep_in_rep in Hs. exists s. split; [done|].
  assert (forall u off n, u <> 0 -> is_u32 off -> is_u32 n -> _) as Hrd
    by exact (fun u off n => sst_core_object_read_returns s σ1 u off n Hs).
  split_and!; (rewrite Hrd; [vm_compute; reflexivity|done|split; done..]).
Defined.

Lemma sst_core_object_delete_removes_witness :
  exists s s' : sst_state an521_flash, sst_rep_in all_home s σ1 /\
    sst_core_object_delete 5 s = (Ok tt, s') /\ sst_rep_in all_home s' ∅.
Proof.
  destruct stored as [s Hs].
  destruct (sst_core_object_delete_removes s σ1 5 Hs) as (s' & E & Hr); [by eexists|].
  exists s, s'. split_and!; try done.
Defined.

Lemma stored_powered :
  exists (d : an521_flash) c, sst_rep_in all_home (SstState (PowerCut None d) c) σ1.
Proof.
  destruct (wipe_all_spec (PowerCut None blank) ram (fun _ _ => Byte.xff)) as ([] & s1 & _ & Hr1); [by split|done|].
  destruct (refine_run [OpCreate 5 100; OpWrite 5 [Byte.x01; Byte.x02] 0] s1 ∅ an521_roomy Hr1)
    as (s2 & _ & Hr2).
  { vm_compute. repeat (split || discriminate || intros ? [= <-]). }
  pose proof Hr2 as (V & lay & [[E _] _] & _). destruct s2 as [[b d] c]. cbn in E. subst b. by exists d, c.
Qed.

(** The power fails at the tenth flash operation. *)
Lemma sst_core_survives_power_failure_witness :
  exists (d : an521_flash) c k s', (k <= 2)%nat /\
    sst_core_prepare (SstState (PowerCut None (device (sst_dev
      (core_run [OpCreate 7 50; OpDelete 5] (SstState (PowerCut (Some 10%nat) d) c)).2))) ram) = (Ok tt, s') /\
    sst_rep s' (abs_run (take k [OpCreate 7 50; OpDelete 5]) σ1).2.
Proof.
  destruct stored_powered as (d & c & Hr).
  destruct (sst_core_survives_power_failure d c σ1 [OpCreate 7 50; OpDelete 5] 10 an521_roomy Hr)
    as (k & Hk & _ & Hrec); [vm_compute; repeat (split || discriminate || intros ? [= <-])|].
  destruct (Hrec ram) as (s' & E & Hs). by exists d, c, k, s'.
Defined.

(** Power fails after five flash operations of a creation, at once in a
    start-up, and after twelve flash operations of a deletion. *)
Definition cycles : list power_cycle :=
  [Cycle ram [OpCreate 7 50] 5; Cycle ram [] 0; Cycle ram [OpDelete 5] 12].

Lemma storage_recovers_and_serves_witness :
  exists (d : an521_flash) σ' s' rs, store_lives cycles d σ1 σ' /\
    core_run [OpReboot ram; OpExist 9] (SstState (PowerCut None (device_life cycles d)) ram) = (Ok VUnit :: rs, s').
Proof.
  destruct stored_powered as (d & c & Hr).
  destruct (storage_recovers_and_serves d c σ1 cycles an521_roomy Hr) as (σ' & Hl & Hserve).
  { vm_compute. split; [repeat (split || discriminate)|]. intros j Hj.
    split; [done|]. intros j' Hj'. split; [split; discriminate || done|]. done. }
  destruct (Hserve ram [OpExist 9]) as (s' & E & _); [vm_compute; split; discriminate || done|].
  exists d, σ', s'. eexists. split; [exact Hl|exact E].
Defined.

Lemma sst_core_wipe_all_empties_witness :
  exists s', sst_core_wipe_all (SstState blank ram) = (Ok tt, s') /\ sst_rep s' ∅.
Proof. apply (sst_core_wipe_all_empties blank ram _ blank_rep eq_refl). Defined.
End An521.

(** ** Where the code departs from the store

    A layout with one data block besides the metadata blocks. *)
Module SmallBlocks.
Definition small_dev : arm_flash_dev_t :=
  {| memory_base := 0x10000000;
     data := {| sector_count := 8; sector_size := 1024; program_unit := 1;
                erased_value := Byte.xff |} |}.

Definition small_layout : sst_layout := {|
  SST_FLASH_AREA_ADDR := 0; SST_BLOCK_SIZE := 1024; SST_TOTAL_NUM_OF_BLOCKS := 4;
  SST_FLASH_PROGRAM_UNIT := 1 |}.
Local Existing Instance small_layout.

Definition small_blank : emulated small_dev := Emulated (fun _ => Byte.xff).

Definition run (ops : list sst_op) : list sst_result :=
  match sst_core_wipe_all (SstState small_blank An521.ram) with
  | (Ok _, s) => (core_run ops s).1
  | _ => []
  end.

(** Deleting an object of a logical block other than 0 loses the objects of
    block 0: their data is not migrated to the new metadata block.  On a
    layout the build accepts, two objects fill block 0, the third goes to
    block 1; after the third is deleted the first reads back as erased
    flash, although the abstract store still holds its content. *)
Theorem delete_other_block_loses_data :
  @sst_build_ok small_layout /\
  let ops := [OpCreate 1 304; OpCreate 2 304; OpCreate 3 304; OpWrite 1 [Byte.x01; Byte.x02] 0;
              OpRead 1 0 2; OpDelete 3; OpRead 1 0 2] in
  run ops = [Ok VUnit; Ok VUnit; Ok VUnit; Ok VUnit; Ok (VData [Byte.x01; Byte.x02]); Ok VUnit;
             Ok (VData [Byte.xff; Byte.xff])] /\
  (abs_run ops ∅).1 = [Ok VUnit; Ok VUnit; Ok VUnit; Ok VUnit; Ok (VData [Byte.x01; Byte.x02]);
             Ok VUnit; Ok (VData [Byte.x01; Byte.x02])].
Proof. split; [split; vm_compute; discriminate|]. split; vm_compute; reflexivity. Qed.

(** Creating an object larger than the largest object (512 bytes of content,
    which the policy of [asset_perms] allows for large certificates) succeeds,
    but its table entry then fails validation: neither it nor any object with a
    later entry can be found again, and no object can be created. *)
Theorem create_oversized_blocks_storage :
  run [OpCreate 1 (SST_OBJECT_HEADER_SIZE + 512); OpExist 1; OpCreate 2 100] =
    [Ok VUnit; Err PSA_SST_ERR_ASSET_NOT_FOUND; Err PSA_SST_ERR_STORAGE_SYSTEM_FULL].
Proof. vm_compute. reflexivity. Qed.
End SmallBlocks.

Section wipe_claim.
  Context {D : Type} `{!ARM_DRIVER_FLASH D, !FlashDevice D, !sst_layout, !sst_area_ok D,
                       !sst_build_ok}.

(** With four to six blocks, as on every board of the repository, a wipe
    erases no data block: the loop that should erase them runs from the first
    data block up to the number of data blocks.  Objects stored there before
    the wipe stay readable in flash. *)
Theorem wipe_all_keeps_data_blocks (d : D) c V :
  DRep d V -> zlen (crypto (meta_block_header c)) = 28 -> 4 <= SST_TOTAL_NUM_OF_BLOCKS <= 6 ->
  exists s' W, sst_core_wipe_all (SstState d c) = (Ok tt, s') /\ DRep (sst_dev s') W /\
    forall b o, 2 <= b -> W b o = V b o.
Proof using All.
  intros HR Hcr HT.
  assert (runs sst_core_wipe_all (SstState d c) (fun _ s' => exists W, DRep (sst_dev s') W /\
    forall b o, 2 <= b -> W b o = V b o)) as ([] & s' & E & W & R' & HW); [|by exists s', W].
  apply (runs_wipe_all d c V _ HR Hcr). intros d' W R' HW. exists W. split; [done|].
  intros b o Hb. apply (w_kept _ _ _ HW); [|done].
  unfold SST_NUM_DEDICATED_DBLOCKS, SST_INIT_DBLOCK_START.
  destruct (Z.eqb_spec SST_TOTAL_NUM_OF_BLOCKS 2); lia.
Qed.
End wipe_claim.

Lemma wipe_all_keeps_data_blocks_witness :
  exists s' W, @sst_core_wipe_all an521_flash _ an521_layout (SstState An521.blank An521.ram) = (Ok tt, s') /\
    @DRep an521_flash _ _ an521_layout (sst_dev s') W /\ forall b o, 2 <= b -> W b o = Byte.xff.
Proof.
  apply (@wipe_all_keeps_data_blocks an521_flash _ _ an521_layout an521_area_ok an521_build_ok
    An521.blank An521.ram (fun _ _ => Byte.xff)).
  - exact An521.blank_rep.
  - reflexivity.
  - vm_compute; split; discriminate.
Defined.
