(* ===== verification/SstInterface.v ===== *)
(** * Secure storage: the interface of the storage core

    [sst_core.h] as a class of operations, what they promise to the object
    system as a class of laws over an abstract store, and the proof that
    [sst_core.c] keeps the promises where a block holds ten objects. *)

From stdpp Require Import sets gmap.
From S2P Require Import Prelude FlashDriver SstDefs SstFlash SstCore SstCoreSpec SstTable SstCoreInv SstCoreOps SstCoreDelete SstCoreBoot SstRefine.

(** The operations; [S] is the state of the core and of the flash below. *)
Class sst_core_ops (S : Type) := {
  core_prepare : M S psa_sst_err_t unit;
  core_object_exist : Z -> M S psa_sst_err_t unit;
  core_object_create : Z -> Z -> M S psa_sst_err_t unit;
  core_object_write : Z -> list byte -> Z -> Z -> M S psa_sst_err_t unit;
  core_object_read : Z -> Z -> Z -> M S psa_sst_err_t (list byte);
  core_object_delete : Z -> M S psa_sst_err_t unit;
  core_wipe_all : M S psa_sst_err_t unit;
}.

#[global] Instance sst_core_c D `{!ARM_DRIVER_FLASH D, !sst_layout} : sst_core_ops (sst_state D) := {
  core_prepare := sst_core_prepare;
  core_object_exist := sst_core_object_exist;
  core_object_create := sst_core_object_create;
  core_object_write := sst_core_object_write;
  core_object_read := sst_core_object_read;
  core_object_delete := sst_core_object_delete;
  core_wipe_all := sst_core_wipe_all;
}.

(** The promises. *)
Class sst_core_laws (S : Type) `{!sst_core_ops S} := {
  core_rep : S -> store -> Prop;
  core_usable : S -> Prop;
  core_rep_usable s σ : core_rep s σ -> core_usable s;
  core_prepare_law s σ :
    core_rep s σ -> runs core_prepare s (fun _ s' => core_rep s' σ);
  core_exist_law s σ u :
    core_rep s σ -> u <> 0 ->
    core_object_exist u s =
      (match σ !! u with Some _ => Ok tt | None => Err PSA_SST_ERR_ASSET_NOT_FOUND end, s);
  core_create_law s σ u size :
    core_rep s σ -> is_u32 u -> u <> 0 -> σ !! u = None -> 0 < size <= SST_MAX_OBJECT_SIZE ->
    if decide (base.size σ < 10)%nat
    then runs (core_object_create u size) s (fun _ s' => core_rep s' (<[u := SstObject size []]> σ))
    else core_object_create u size s = (Err PSA_SST_ERR_STORAGE_SYSTEM_FULL, s);
  core_write_law s σ u o data off n :
    core_rep s σ -> σ !! u = Some o -> 0 <= off <= zlen (o_data o) -> 0 <= n <= zlen data ->
    off + n <= o_max o ->
    runs (core_object_write u data off n) s
      (fun _ s' => core_rep s' (<[u := SstObject (o_max o) (splice off (ztake n data) (o_data o))]> σ));
  core_read_law s σ u off n :
    core_rep s σ -> u <> 0 -> is_u32 off -> is_u32 n ->
    core_object_read u off n s =
      (match σ !! u with
       | Some o => if decide (off + n <= zlen (o_data o)) then Ok (slice off n (o_data o))
                   else Err PSA_SST_ERR_PARAM_ERROR
       | None => Err PSA_SST_ERR_ASSET_NOT_FOUND
       end, s);
  core_delete_law s σ u :
    core_rep s σ -> u <> 0 ->
    match σ !! u with
    | Some _ => runs (core_object_delete u) s (fun _ s' => core_rep s' (delete u σ))
    | None => core_object_delete u s = (Err PSA_SST_ERR_ASSET_NOT_FOUND, s)
    end;
  core_wipe_law s : core_usable s -> runs core_wipe_all s (fun _ s' => core_rep s' ∅);
}.

Section discharge.
  Context {D : Type} `{!ARM_DRIVER_FLASH D, !FlashDevice D, !sst_layout, !sst_area_ok D,
                       !sst_build_ok}.

#[export] Program Instance sst_core_c_laws (Hroom : roomy) : sst_core_laws (sst_state D) := {
  core_rep := sst_rep_in all_home;
  core_usable s := (exists V, DRep (sst_dev s) V) /\
                   zlen (crypto (meta_block_header (sst_system_ctx s))) = 28;
}.
Next Obligation.
  intros Hroom s σ (V & lay & HR & I & _). split; [by exists V|]. apply (i_header _ _ _ I).
Qed.
Next Obligation.
  intros Hroom [d c] σ Hr. eapply runs_mono; [apply (prepare_spec _ _ _ c Hr)|]. by intros ? ? [_ ?].
Qed.
Next Obligation. intros Hroom s σ u Hr%sst_rep_in_rep. by apply object_exist_spec. Qed.
Next Obligation. intros Hroom s σ u size. by apply object_create_roomy. Qed.
Next Obligation.
  intros Hroom s σ u o data off n Hr Hu Ho Hn Hm.
  pose proof (object_write_spec _ s σ u o data off n Hr Hu ltac:(lia) Hn Hm) as Hw.
  by rewrite decide_True in Hw by lia.
Qed.
Next Obligation. intros Hroom s σ u off n Hr%sst_rep_in_rep. by apply object_read_spec. Qed.
Next Obligation.
  intros Hroom s σ u Hr Hu. destruct (σ !! u) as [o|] eqn:E.
  - by apply object_delete_spec; [|exists o].
  - apply (object_delete_absent _ σ); try done. by apply sst_rep_in_rep in Hr.
Qed.
Next Obligation. intros Hroom [d c] [[V HR] Hz]. by apply (wipe_all_spec d c V). Qed.
End discharge.
