(* ===== verification/SstObject.v ===== *)
(** * Secure storage: the object system

    [sst_object_system.c] without encryption: an asset is stored as an object
    of the core whose content is a header (identifier, version, type, current
    and maximum size, attributes) followed by the data of the asset.  The
    functions work on the static buffer [g_sst_object]; they are written
    against the interface of the core and shown to implement an abstract map
    from identifiers to assets. *)

From stdpp Require Import sets gmap.
From S2P Require Import Prelude FlashDriver SstDefs SstFlash SstCore SstCoreInv SstInterface.

Definition SST_SYSTEM_READY : Z := 1.
Definition SST_SYSTEM_NOT_READY : Z := 0.

(** File-scope state of [sst_object_system.c] and the state of the core. *)
Record sst_sys (S : Type) := SstSys {
  sys_core : S;
  sst_system_ready : Z;
  g_sst_object : list byte;
}.
Arguments SstSys {S} sys_core sst_system_ready g_sst_object.
Arguments sys_core {S} s.
Arguments sst_system_ready {S} s.
Arguments g_sst_object {S} s.

(** Offsets in [struct sst_object_t]; four bytes of padding precede [attr]. *)
Definition OFFSETOF_uuid : Z := 0.
Definition OFFSETOF_version : Z := 4.
Definition OFFSETOF_info : Z := 8.
Definition OFFSETOF_info_type : Z := 8.
Definition OFFSETOF_info_size_current : Z := 12.
Definition OFFSETOF_info_size_max : Z := 16.
Definition OFFSETOF_attr : Z := 24.
Definition OFFSETOF_data : Z := 48.

Definition SST_OBJECT_SIZE (max_size : Z) : Z := u32 (SST_OBJECT_HEADER_SIZE + max_size).

(** The structures the functions fill in for their caller; attributes are
    copied as a whole. *)
Record psa_sst_asset_info_t := {
  info_type : Z;
  info_size_current : Z;
  info_size_max : Z;
}.

Definition decode_info (bs : list byte) : psa_sst_asset_info_t := {|
  info_type := get32 (slice 0 4 bs);
  info_size_current := get32 (slice 4 4 bs);
  info_size_max := get32 (slice 8 4 bs) |}.

Section object_system.
  Context {S : Type} `{!sst_core_ops S}.
  Local Abbreviation OM := (M (sst_sys S) psa_sst_err_t).

Definition lift {A} (m : M S psa_sst_err_t A) : OM A := fun s =>
  let '(r, c) := m (sys_core s) in (r, SstSys c (sst_system_ready s) (g_sst_object s)).

Definition sst_global_lock : OM unit := ret tt.
Definition sst_global_unlock : OM unit := ret tt.

(** Store bytes in the object buffer, read a field of it. *)
Definition obj_store (off : Z) (bs : list byte) : OM unit :=
  in_bounds (off + zlen bs <=? SST_MAX_OBJECT_SIZE) ;;
  modify (fun s => SstSys (sys_core s) (sst_system_ready s) (splice off bs (g_sst_object s))).
Definition obj_field (off : Z) : OM Z :=
  gets (fun s => get32 (slice off 4 (g_sst_object s))).

Definition sst_object_init_object (uuid type size : Z) : OM unit :=
  obj <- gets g_sst_object ;;
  match sst_utils_memset obj SST_DEFAULT_EMPTY_BUFF_VAL SST_MAX_OBJECT_SIZE with
  | None => fault
  | Some obj =>
      obj_store 0 obj ;;
      obj_store OFFSETOF_uuid (put32 uuid) ;;
      obj_store OFFSETOF_version (put32 0) ;;
      obj_store OFFSETOF_info_size_max (put32 size) ;;
      obj_store OFFSETOF_info_type (put32 type)
  end.

Definition sst_system_prepare : OM unit :=
  sst_global_lock ;;
  r <- try_err (lift core_prepare) ;;
  match r with
  | inl _ =>
      modify (fun s => SstSys (sys_core s) SST_SYSTEM_READY (g_sst_object s)) ;;
      sst_global_unlock
  | inr err => sst_global_unlock ;; fail err
  end.

(** [if (sst_system_ready == SST_SYSTEM_READY) { ... } return err;] *)
Definition when_ready {A} (body : OM A) : OM A :=
  ready <- gets sst_system_ready ;;
  if ready =? SST_SYSTEM_READY then body else fail PSA_SST_ERR_SYSTEM_ERROR.

(** Read the object header, then the object data if any, into the buffer. *)
Definition read_header (uuid : Z) : OM unit :=
  bs <- lift (core_object_read uuid SST_OBJECT_START_POSITION SST_OBJECT_HEADER_SIZE) ;;
  obj_store 0 bs.

Definition read_object (uuid : Z) : OM unit :=
  read_header uuid ;;
  size_current <- obj_field OFFSETOF_info_size_current ;;
  if 0 <? size_current
  then bs <- lift (core_object_read uuid SST_OBJECT_HEADER_SIZE size_current) ;;
       obj_store OFFSETOF_data bs
  else ret tt.

(** [sst_utils_memcpy] from the object buffer to a buffer of the caller. *)
Definition obj_copy_out (off size : Z) : OM (list byte) :=
  obj <- gets g_sst_object ;;
  match sst_utils_memcpy (replicate (Z.to_nat size) Byte.x00) 0 obj off size with
  | Some out => ret out
  | None => fault
  end.

(** [sst_utils_memcpy] from a buffer of the caller to the object buffer. *)
Definition obj_copy_in (off : Z) (data : list byte) (size : Z) : OM unit :=
  obj <- gets g_sst_object ;;
  match sst_utils_memcpy obj off data 0 size with
  | Some obj => obj_store 0 obj
  | None => fault
  end.

Definition sst_object_read (uuid offset size : Z) : OM (list byte) :=
  when_ready (
    sst_global_lock ;;
    read_object uuid ;;
    size_current <- obj_field OFFSETOF_info_size_current ;;
    match sst_utils_check_contained_in SST_OBJECT_START_POSITION size_current offset size with
    | Some err => fail err
    | None =>
        data <- obj_copy_out (OFFSETOF_data + offset) size ;;
        sst_global_unlock ;;
        ret data
    end).

Definition sst_object_create (uuid type size : Z) : OM unit :=
  when_ready (
    sst_global_lock ;;
    r <- try_err (lift (core_object_exist uuid)) ;;
    match r with
    | inr PSA_SST_ERR_ASSET_NOT_FOUND =>
        sst_object_init_object uuid type size ;;
        lift (core_object_create uuid (SST_OBJECT_SIZE size)) ;;
        obj <- gets g_sst_object ;;
        r <- try_err (lift (core_object_write uuid obj SST_OBJECT_START_POSITION
                              SST_OBJECT_HEADER_SIZE)) ;;
        sst_global_unlock ;;
        match r with inl _ => ret tt | inr err => fail err end
    | inr err => sst_global_unlock ;; fail err
    | inl _ => sst_global_unlock
    end).

Definition sst_object_write (uuid : Z) (data : list byte) (offset size : Z) : OM unit :=
  when_ready (
    sst_global_lock ;;
    read_object uuid ;;
    size_current <- obj_field OFFSETOF_info_size_current ;;
    if size_current <? offset then fail PSA_SST_ERR_PARAM_ERROR
    else
      obj_copy_in (OFFSETOF_data + offset) data size ;;
      (if size_current <? u32 (offset + size)
       then obj_store OFFSETOF_info_size_current (put32 (u32 (offset + size)))
       else ret tt) ;;
      size_current <- obj_field OFFSETOF_info_size_current ;;
      obj <- gets g_sst_object ;;
      r <- try_err (lift (core_object_write uuid obj SST_OBJECT_START_POSITION
                            (SST_OBJECT_SIZE size_current))) ;;
      sst_global_unlock ;;
      match r with inl _ => ret tt | inr err => fail err end).

Definition sst_object_get_info (uuid : Z) : OM psa_sst_asset_info_t :=
  when_ready (
    sst_global_lock ;;
    read_header uuid ;;
    info <- obj_copy_out OFFSETOF_info PSA_SST_ASSET_INFO_SIZE ;;
    sst_global_unlock ;;
    ret (decode_info info)).

Definition sst_object_get_attributes (uuid : Z) : OM (list byte) :=
  when_ready (
    sst_global_lock ;;
    read_header uuid ;;
    attrs <- obj_copy_out OFFSETOF_attr PSA_SST_ASSET_ATTR_SIZE ;;
    sst_global_unlock ;;
    ret attrs).

Definition sst_object_set_attributes (uuid : Z) (attrs : list byte) : OM unit :=
  when_ready (
    sst_global_lock ;;
    read_header uuid ;;
    obj_copy_in OFFSETOF_attr attrs PSA_SST_ASSET_ATTR_SIZE ;;
    obj <- gets g_sst_object ;;
    r <- try_err (lift (core_object_write uuid obj SST_OBJECT_START_POSITION
                          SST_OBJECT_HEADER_SIZE)) ;;
    sst_global_unlock ;;
    match r with inl _ => ret tt | inr err => fail err end).

Definition sst_object_delete (uuid : Z) : OM unit :=
  when_ready (
    sst_global_lock ;;
    r <- try_err (lift (core_object_delete uuid)) ;;
    sst_global_unlock ;;
    match r with inl _ => ret tt | inr err => fail err end).

Definition sst_system_wipe_all : OM unit := lift core_wipe_all.
End object_system.
