(* ===== verification/SstObjectSpec.v ===== *)
(** * Secure storage: the object system implements a map of assets

    The assets as a finite map, its operations, and the proof that the
    functions of [sst_object_system.c] implement them over any core that
    keeps the promises of [SstInterface]. *)

From stdpp Require Import sets gmap.
From S2P Require Import Prelude FlashDriver SstDefs SstFlash SstCore SstCoreInv SstInterface SstObject SstBoard.

(** ** Assets *)

Record asset := Asset {
  a_type : Z;
  a_max : Z;
  a_attr : list byte;
  a_data : list byte;
}.
Abbreviation assets := (gmap Z asset).

Definition zeros (n : Z) : list byte := replicate (Z.to_nat n) Byte.x00.

(** How an asset is stored: the memory image of the header, then the data. *)
Definition asset_header (u : Z) (a : asset) : list byte :=
  put32 u ++ put32 0 ++ put32 (a_type a) ++ put32 (zlen (a_data a)) ++ put32 (a_max a) ++
  zeros 4 ++ a_attr a.

Definition stored_asset (u : Z) (a : asset) : sst_object :=
  SstObject (SST_OBJECT_HEADER_SIZE + a_max a) (asset_header u a ++ a_data a).

Definition asset_ok (u : Z) (a : asset) : Prop :=
  is_u32 u /\ u <> 0 /\ is_u32 (a_type a) /\ a_max a <= SST_MAX_ASSET_SIZE /\
  zlen (a_data a) <= a_max a /\ zlen (a_attr a) = PSA_SST_ASSET_ATTR_SIZE.

(** ** Operations *)

Inductive asset_op :=
| AopCreate (u type size : Z)
| AopRead (u off n : Z)
| AopWrite (u : Z) (data : list byte) (off : Z)
| AopGetInfo (u : Z)
| AopGetAttributes (u : Z)
| AopSetAttributes (u : Z) (attrs : list byte)
| AopDelete (u : Z).

Inductive asset_value :=
| AVUnit
| AVInfo (i : psa_sst_asset_info_t)
| AVData (bs : list byte).

Abbreviation asset_result := (outcome psa_sst_err_t asset_value).

(** An operation on an asset that must exist. *)
Definition on_asset (u : Z) (α : assets) (f : asset -> asset_result * assets)
  : asset_result * assets :=
  match α !! u with
  | Some a => f a
  | None => (Err PSA_SST_ERR_ASSET_NOT_FOUND, α)
  end.

Definition abs_asset (op : asset_op) (α : assets) : asset_result * assets :=
  match op with
  | AopCreate u type size =>
      match α !! u with
      | Some _ => (Ok AVUnit, α)
      | None => if decide (base.size α < 10)%nat
                then (Ok AVUnit, <[u := Asset type size (zeros 24) []]> α)
                else (Err PSA_SST_ERR_STORAGE_SYSTEM_FULL, α)
      end
  | AopRead u off n => on_asset u α (fun a =>
      (if decide (off + n <= zlen (a_data a)) then Ok (AVData (slice off n (a_data a)))
       else Err PSA_SST_ERR_PARAM_ERROR, α))
  | AopWrite u data off => on_asset u α (fun a =>
      if decide (off <= zlen (a_data a))
      then (Ok AVUnit, <[u := Asset (a_type a) (a_max a) (a_attr a) (splice off data (a_data a))]> α)
      else (Err PSA_SST_ERR_PARAM_ERROR, α))
  | AopGetInfo u => on_asset u α (fun a =>
      (Ok (AVInfo {| info_type := a_type a; info_size_current := zlen (a_data a);
                     info_size_max := a_max a |}), α))
  | AopGetAttributes u => on_asset u α (fun a => (Ok (AVData (a_attr a)), α))
  | AopSetAttributes u attrs => on_asset u α (fun a =>
      (Ok AVUnit, <[u := Asset (a_type a) (a_max a) attrs (a_data a)]> α))
  | AopDelete u => on_asset u α (fun _ => (Ok AVUnit, delete u α))
  end.

(** What the asset manager guarantees. *)
Definition asset_op_ok (op : asset_op) (α : assets) : Prop :=
  match op with
  | AopCreate u type size => is_u32 u /\ u <> 0 /\ is_u32 type /\ 0 <= size <= SST_MAX_ASSET_SIZE
  | AopRead u off n => u <> 0 /\ is_u32 off /\ is_u32 n
  | AopWrite u data off =>
      u <> 0 /\ 0 <= off /\ forall a, α !! u = Some a -> off + zlen data <= a_max a
  | AopGetInfo u | AopGetAttributes u | AopDelete u => u <> 0
  | AopSetAttributes u attrs => u <> 0 /\ zlen attrs = PSA_SST_ASSET_ATTR_SIZE
  end.

(** ** The code as a machine *)

Section object_machine.
  Context {S : Type} `{!sst_core_ops S}.

Definition as_asset_value {A} (f : A -> asset_value) (r : outcome psa_sst_err_t A * sst_sys S)
  : asset_result * sst_sys S :=
  (match r.1 with Ok a => Ok (f a) | Err e => Err e | Fault => Fault end, r.2).

Definition object_op (op : asset_op) (s : sst_sys S) : asset_result * sst_sys S :=
  match op with
  | AopCreate u type size => as_asset_value (fun _ => AVUnit) (sst_object_create u type size s)
  | AopRead u off n => as_asset_value AVData (sst_object_read u off n s)
  | AopWrite u data off =>
      as_asset_value (fun _ => AVUnit) (sst_object_write u data off (zlen data) s)
  | AopGetInfo u => as_asset_value AVInfo (sst_object_get_info u s)
  | AopGetAttributes u => as_asset_value AVData (sst_object_get_attributes u s)
  | AopSetAttributes u attrs =>
      as_asset_value (fun _ => AVUnit) (sst_object_set_attributes u attrs s)
  | AopDelete u => as_asset_value (fun _ => AVUnit) (sst_object_delete u s)
  end.
End object_machine.

(** ** Buffers as concatenations *)

Lemma splice_app {A} off (new p m k : list A) :
  off = zlen p -> zlen new = zlen m -> splice off new (p ++ m ++ k) = p ++ new ++ k.
Proof.
  intros -> Hm. unfold splice, ztake, zdrop. rewrite Nat2Z.id, take_app_length.
  rewrite Z2Nat.inj_add, !Nat2Z.id by lia. do 2 f_equal.
  rewrite app_assoc, drop_app_ge by (rewrite length_app; lia).
  rewrite length_app. replace (_ - _)%nat with 0%nat by lia. done.
Qed.

Lemma slice_app {A} off n (p m k : list A) :
  off = zlen p -> n = zlen m -> slice off n (p ++ m ++ k) = m.
Proof.
  intros -> ->. rewrite slice_app_skip by lia. rewrite Z.sub_diag. by apply slice_app_head.
Qed.

Lemma splice_prefix {A} (new l : list A) :
  zlen l <= zlen new -> splice 0 new l = new.
Proof.
  intros. unfold splice, ztake, zdrop. cbn [Z.to_nat take app]. rewrite drop_ge by lia. by rewrite app_nil_r.
Qed.

(** Overwriting and extending the front of a list, with something behind it. *)
Lemma splice_behind {A} off (new l k : list A) :
  0 <= off <= zlen l -> exists k', splice off new (l ++ k) = splice off new l ++ k' .
Proof.
  intros Ho. exists (drop (Z.to_nat (off + zlen new) - length l) k).
  unfold splice, ztake, zdrop. rewrite take_app_le by lia. rewrite drop_app.
  by rewrite <- !app_assoc.
Qed.

Lemma zlen_splice_ext {A} off (new l : list A) :
  0 <= off <= zlen l -> zlen (splice off new l) = Z.max (zlen l) (off + zlen new).
Proof. intros. unfold splice. rewrite !zlen_app, zlen_ztake, zlen_zdrop by lia. lia. Qed.

Lemma ztake_app {A} n (l k : list A) : n = zlen l -> ztake n (l ++ k) = l.
Proof. intros ->. unfold ztake. rewrite Nat2Z.id. apply take_app_length. Qed.

Lemma ztake_full {A} (l : list A) n : zlen l <= n -> ztake n l = l.
Proof. intros. unfold ztake. apply take_ge. lia. Qed.

Lemma zlen_zeros n : 0 <= n -> zlen (zeros n) = n.
Proof. intros. unfold zeros. rewrite length_replicate. lia. Qed.

Lemma zeros_split n k : 0 <= k <= n -> zeros n = zeros k ++ zeros (n - k).
Proof. intros. unfold zeros. rewrite <- replicate_add. f_equal. lia. Qed.

Lemma zlen_put32 x : zlen (put32 x) = 4.
Proof. by rewrite length_put32. Qed.

(** ** The header image *)

Section header.
  Context (u : Z) (a : asset) (Ha : asset_ok u a).

Lemma zlen_header : zlen (asset_header u a) = 48.
Proof using Ha.
  destruct Ha as (_ & _ & _ & _ & _ & E). unfold asset_header. rewrite !zlen_app, !zlen_put32, zlen_zeros, E by lia.
  reflexivity.
Qed.

Lemma header_size_current k : get32 (slice 12 4 (asset_header u a ++ k)) = zlen (a_data a).
Proof using Ha.
  destruct Ha as (_ & _ & _ & H1 & H2 & _). unfold SST_MAX_ASSET_SIZE in *.
  assert (asset_header u a ++ k =
    (put32 u ++ put32 0 ++ put32 (a_type a)) ++ put32 (zlen (a_data a)) ++
    (put32 (a_max a) ++ zeros 4 ++ a_attr a) ++ k) as -> by (unfold asset_header; by rewrite <- !app_assoc).
  rewrite slice_app by (by rewrite !zlen_app, !zlen_put32 || by rewrite zlen_put32). apply get_put32. lia.
Qed.

Lemma header_info k :
  decode_info (slice 8 12 (asset_header u a ++ k)) =
    {| info_type := a_type a; info_size_current := zlen (a_data a); info_size_max := a_max a |}.
Proof using Ha.
  destruct Ha as (_ & _ & H0' & H1 & H2 & _). unfold SST_MAX_ASSET_SIZE, is_u32 in *.
  assert (asset_header u a ++ k =
    (put32 u ++ put32 0) ++ (put32 (a_type a) ++ put32 (zlen (a_data a)) ++ put32 (a_max a)) ++
    (zeros 4 ++ a_attr a) ++ k) as -> by (unfold asset_header; by rewrite <- !app_assoc).
  rewrite slice_app by (by rewrite !zlen_app, !zlen_put32).
  unfold decode_info. f_equal; slice_fields; apply get_put32; lia.
Qed.

Lemma header_attr k : slice 24 24 (asset_header u a ++ k) = a_attr a.
Proof using Ha.
  destruct Ha as (_ & _ & _ & _ & _ & E).
  assert (asset_header u a ++ k =
    (put32 u ++ put32 0 ++ put32 (a_type a) ++ put32 (zlen (a_data a)) ++ put32 (a_max a) ++ zeros 4) ++
    a_attr a ++ k) as -> by (unfold asset_header; by rewrite <- !app_assoc).
  apply slice_app; [|done]. rewrite !zlen_app, !zlen_put32, zlen_zeros by lia. reflexivity.
Qed.

Lemma set_header_attr attrs k :
  zlen attrs = 24 ->
  splice 24 attrs (asset_header u a ++ k) =
    asset_header u (Asset (a_type a) (a_max a) attrs (a_data a)) ++ k.
Proof using Ha.
  intros E'. destruct Ha as (_ & _ & _ & _ & _ & E).
  assert (asset_header u a ++ k =
    (put32 u ++ put32 0 ++ put32 (a_type a) ++ put32 (zlen (a_data a)) ++ put32 (a_max a) ++ zeros 4) ++
    a_attr a ++ k) as -> by (unfold asset_header; by rewrite <- !app_assoc).
  rewrite splice_app; [unfold asset_header; cbn [a_type a_data a_max a_attr]; by rewrite <- !app_assoc| |].
  - rewrite !zlen_app, !zlen_put32, zlen_zeros by lia. reflexivity.
  - unfold PSA_SST_ASSET_ATTR_SIZE in E. lia.
Qed.

Lemma set_header_size data k :
  splice 12 (put32 (zlen data)) (asset_header u a ++ k) =
    asset_header u (Asset (a_type a) (a_max a) (a_attr a) data) ++ k.
Proof using Ha.
  assert (asset_header u a ++ k =
    (put32 u ++ put32 0 ++ put32 (a_type a)) ++ put32 (zlen (a_data a)) ++
    (put32 (a_max a) ++ zeros 4 ++ a_attr a) ++ k) as -> by (unfold asset_header; by rewrite <- !app_assoc).
  rewrite splice_app; [unfold asset_header; cbn [a_type a_data a_max a_attr]; by rewrite <- !app_assoc| |].
  - by rewrite !zlen_app, !zlen_put32.
  - by rewrite !zlen_put32.
Qed.
End header.

Section object_spec.
  Context {S : Type} `{!sst_core_ops S, !sst_core_laws S}.
  Implicit Types (s : sst_sys S) (c : S) (σ : store) (α : assets).

(** The core store of a map of assets. *)
Definition holds σ α : Prop :=
  (forall u, σ !! u = stored_asset u <$> α !! u) /\
  (forall u a, α !! u = Some a -> asset_ok u a).

(** The object system is ready and represents [α]. *)
Definition sys_rep s α : Prop :=
  exists σ, core_rep (sys_core s) σ /\ holds σ α /\
    sst_system_ready s = SST_SYSTEM_READY /\ zlen (g_sst_object s) = SST_MAX_OBJECT_SIZE.

Lemma holds_size σ α : holds σ α -> base.size σ = base.size α.
Proof using Type.
  intros [H1 _]. rewrite <- !size_dom. f_equal. apply set_eq. intros u.
  rewrite !elem_of_dom, H1. destruct (α !! u); simpl; split; intros []; eauto; done.
Qed.

Lemma holds_insert σ α u a :
  holds σ α -> asset_ok u a -> holds (<[u := stored_asset u a]> σ) (<[u := a]> α).
Proof using Type.
  intros [H1 H2] Ha. split.
  - intros v. destruct (decide (v = u)) as [->|Hv]; [by rewrite !lookup_insert_eq|].
    by rewrite !lookup_insert_ne.
  - intros v b [[<- <-]|[? Hb]]%lookup_insert_Some; auto.
Qed.

Lemma holds_delete σ α u : holds σ α -> holds (delete u σ) (delete u α).
Proof using Type.
  intros [H1 H2]. split.
  - intros v. destruct (decide (v = u)) as [->|Hv]; [by rewrite !lookup_delete_eq|].
    by rewrite !lookup_delete_ne.
  - intros v b [_ Hb]%lookup_delete_Some. auto.
Qed.

Lemma holds_empty : holds ∅ ∅.
Proof using Type. split; [intros u; by rewrite !lookup_empty|]. intros u a E. by rewrite lookup_empty in E. Qed.

(** ** Running the pieces *)

Lemma lift_eq {A} (m : M S psa_sst_err_t A) s r c :
  m (sys_core s) = (r, c) -> lift m s = (r, SstSys c (sst_system_ready s) (g_sst_object s)).
Proof using Type. intros E. unfold lift. by rewrite E. Qed.

Lemma runs_lift {A} (m : M S psa_sst_err_t A) c rd g Q :
  runs m c (fun a c' => Q a (SstSys c' rd g)) -> runs (lift m) (SstSys c rd g) Q.
Proof using Type.
  intros (a & c' & E & HQ). exists a, (SstSys c' rd g). split; [by apply (lift_eq m (SstSys c rd g))|done].
Qed.

Lemma runs_obj_store off bs c rd g Q :
  off + zlen bs <= SST_MAX_OBJECT_SIZE -> Q tt (SstSys c rd (splice off bs g)) ->
  runs (obj_store off bs) (SstSys c rd g) Q.
Proof using Type.
  intros Hb HQ. apply runs_bind, runs_in_bounds; [by apply Z.leb_le|]. by apply runs_modify.
Qed.

Lemma runs_obj_field off s Q :
  Q (get32 (slice off 4 (g_sst_object s))) s -> runs (obj_field off) s Q.
Proof using Type. intros HQ. by apply runs_gets. Qed.

Lemma runs_copy_out off n s Q :
  0 <= off -> 0 <= n -> off + n <= zlen (g_sst_object s) -> Q (slice off n (g_sst_object s)) s ->
  runs (obj_copy_out off n) s Q.
Proof using Type.
  intros Ho Hn He HQ. apply runs_bind, runs_gets. rewrite sst_utils_memcpy_spec by
    (rewrite ?length_replicate; lia).
  apply runs_ret. rewrite splice_prefix; [done|]. rewrite zlen_slice, length_replicate by lia. lia.
Qed.

Lemma runs_copy_in off data n c rd g Q :
  0 <= off -> 0 <= n <= zlen data -> off + n <= zlen g -> zlen g = SST_MAX_OBJECT_SIZE ->
  Q tt (SstSys c rd (splice off (ztake n data) g)) ->
  runs (obj_copy_in off data n) (SstSys c rd g) Q.
Proof using Type.
  intros Ho Hn He Hg HQ. apply runs_bind, runs_gets. cbn [g_sst_object].
  rewrite sst_utils_memcpy_spec by lia.
  assert (slice 0 n data = ztake n data) as -> by (unfold slice, zdrop; by rewrite drop_0).
  assert (zlen (splice off (ztake n data) g) = zlen g) as E by (apply zlen_splice; rewrite ?zlen_ztake; lia).
  apply runs_obj_store; [lia|]. rewrite splice_prefix by lia. done.
Qed.

(** ** Reading an object *)

Section present.
  Context (c : S) (σ : store) (α : assets) (u : Z) (a : asset) (g : list byte).
  Context (Hc : core_rep c σ) (Hα : holds σ α) (Hu : α !! u = Some a).
  Context (Hg : zlen g = SST_MAX_OBJECT_SIZE).
  Local Abbreviation rd := SST_SYSTEM_READY.

Lemma present_ok : asset_ok u a.
Proof using Hα Hu. by apply Hα. Qed.

Lemma present_core : σ !! u = Some (stored_asset u a).
Proof using Hα Hu. destruct Hα as [H1 _]. by rewrite H1, Hu. Qed.

Lemma runs_read_header Q :
  Q tt (SstSys c rd (asset_header u a ++ zdrop 48 g)) -> runs (read_header u) (SstSys c rd g) Q.
Proof using All.
  intros HQ. pose proof present_ok as Ha. pose proof (zlen_header u a Ha) as Hl. destruct Ha as (_ & Hne & _).
  apply runs_bind. eapply runs_val.
  - apply lift_eq. cbn [sys_core]. rewrite (core_read_law _ σ) by (done || unfold is_u32; done).
    rewrite present_core. cbn [stored_asset o_data]. rewrite decide_True; [done|].
    rewrite zlen_app, Hl. unfold SST_OBJECT_START_POSITION, SST_OBJECT_HEADER_SIZE. lia.
  - cbn [sst_system_ready g_sst_object]. unfold SST_OBJECT_START_POSITION.
    rewrite slice_app_head by done. apply runs_obj_store; [rewrite Hl; done|].
    unfold splice. rewrite Hl. done.
Qed.

Lemma runs_read_object Q :
  (forall rest, zlen rest = 256 - zlen (a_data a) ->
     Q tt (SstSys c rd (asset_header u a ++ a_data a ++ rest))) ->
  runs (read_object u) (SstSys c rd g) Q.
Proof using All.
  intros HQ. pose proof present_ok as Ha. pose proof (zlen_header u a Ha) as Hl.
  pose proof (header_size_current u a Ha) as Hsz. destruct Ha as (_ & Hne & _ & H1 & H2 & _).
  change SST_MAX_OBJECT_SIZE with 304 in *. unfold SST_MAX_ASSET_SIZE in *.
  assert (zlen (zdrop 48 g) = 256) as Hd by (rewrite zlen_zdrop; lia).
  apply runs_bind, runs_read_header, runs_bind, runs_obj_field. cbn [g_sst_object].
  unfold OFFSETOF_info_size_current. rewrite Hsz. destruct (Z.ltb_spec 0 (zlen (a_data a))) as [Hp|Hp].
  - apply runs_bind. eapply runs_val.
    + apply lift_eq. cbn [sys_core]. rewrite (core_read_law _ σ) by (done || unfold is_u32; lia).
      rewrite present_core. cbn [stored_asset o_data]. rewrite decide_True; [done|].
      rewrite zlen_app, Hl. unfold SST_OBJECT_HEADER_SIZE. lia.
    + cbn [sst_system_ready g_sst_object]. unfold SST_OBJECT_HEADER_SIZE, OFFSETOF_data.
      rewrite slice_app_skip, Hl, Z.sub_diag, slice_full by (done || lia).
      apply runs_obj_store; [change SST_MAX_OBJECT_SIZE with 304; lia|].
      rewrite <- (take_drop (length (a_data a)) (zdrop 48 g)).
      rewrite splice_app by (rewrite ?length_take; lia). apply HQ. rewrite length_drop. lia.
  - apply runs_ret. assert (a_data a = []) as Hnil by (apply nil_length_inv; lia).
    specialize (HQ (zdrop 48 g)). rewrite Hnil in HQ. cbn [app length] in HQ. apply HQ. lia.
Qed.
End present.

(** An asset that is not stored. *)
Lemma read_header_absent c σ α u g :
  core_rep c σ -> holds σ α -> u <> 0 -> α !! u = None ->
  read_header u (SstSys c SST_SYSTEM_READY g) = (Err PSA_SST_ERR_ASSET_NOT_FOUND, SstSys c SST_SYSTEM_READY g).
Proof using Type.
  intros Hc [H1 _] Hne Hu. unfold read_header. apply bind_Err.
  rewrite (lift_eq _ _ (Err PSA_SST_ERR_ASSET_NOT_FOUND) c); [done|]. cbn [sys_core].
  rewrite (core_read_law _ σ) by (done || unfold is_u32; done). by rewrite H1, Hu.
Qed.

(** ** The operations *)

Lemma runs_ready {A} (m : M (sst_sys S) psa_sst_err_t A) s Q :
  sst_system_ready s = SST_SYSTEM_READY -> runs m s Q -> runs (when_ready m) s Q.
Proof using Type. intros Hr Hm. apply runs_bind, runs_gets. by rewrite Hr. Qed.

Lemma ready_eq {A} (m : M (sst_sys S) psa_sst_err_t A) c g :
  when_ready m (SstSys c SST_SYSTEM_READY g) = m (SstSys c SST_SYSTEM_READY g).
Proof using Type. done. Qed.

(** The result of a write to the core. *)
Lemma runs_core_write c σ α u a a' obj n :
  core_rep c σ -> holds σ α -> α !! u = Some a -> asset_ok u a' -> a_max a' = a_max a ->
  zlen obj = SST_MAX_OBJECT_SIZE -> 0 <= n <= SST_OBJECT_HEADER_SIZE + a_max a -> n <= SST_MAX_OBJECT_SIZE ->
  splice 0 (ztake n obj) (asset_header u a ++ a_data a) = asset_header u a' ++ a_data a' ->
  runs (r <- try_err (lift (core_object_write u obj SST_OBJECT_START_POSITION n)) ;;
        sst_global_unlock ;;
        match r with inl _ => ret tt | inr err => fail err end) (SstSys c SST_SYSTEM_READY obj)
    (fun _ s' => sys_rep s' (<[u := a']> α)).
Proof using Type.
  intros Hc Hα Hu Ha' Em Hz Hn Hn' Es. pose proof (present_core σ α u a Hα Hu) as Hσ.
  apply runs_bind, runs_try_err, runs_lift.
  eapply runs_mono; [apply (core_write_law c σ u (stored_asset u a)); try done|].
  1-2: cbn [stored_asset o_max o_data]; unfold SST_OBJECT_START_POSITION; lia.
  intros [] c' Hc'. apply runs_bind, runs_ret, runs_ret.
  exists (<[u := stored_asset u a']> σ). cbn [sys_core sst_system_ready g_sst_object].
  split_and!; [|by apply holds_insert|done|done]. unfold stored_asset at 1. rewrite Em, <- Es. exact Hc'.
Qed.

Lemma op_runs {A} (f : A -> asset_value) (m : M (sst_sys S) psa_sst_err_t A) s v α :
  runs m s (fun a s' => f a = v /\ sys_rep s' α) ->
  exists s', as_asset_value f (m s) = (Ok v, s') /\ sys_rep s' α.
Proof using Type. intros (a & s' & E & <- & Hr). exists s'. by rewrite E. Qed.

Lemma op_fails {A} (f : A -> asset_value) (m : M (sst_sys S) psa_sst_err_t A) s s' e α :
  m s = (Err e, s') -> sys_rep s' α ->
  exists s', as_asset_value f (m s) = (Err e, s') /\ sys_rep s' α.
Proof using Type. intros E Hr. exists s'. by rewrite E. Qed.

(** Every operation but create and delete starts by reading the header. *)
Lemma op_absent {A} (f : A -> asset_value) (k : unit -> M (sst_sys S) psa_sst_err_t A) c σ α u g :
  core_rep c σ -> holds σ α -> u <> 0 -> α !! u = None -> zlen g = SST_MAX_OBJECT_SIZE ->
  exists s', as_asset_value f (when_ready (bind sst_global_lock (fun _ => bind (read_header u) k))
                                 (SstSys c SST_SYSTEM_READY g)) =
               (Err PSA_SST_ERR_ASSET_NOT_FOUND, s') /\ sys_rep s' α.
Proof using Type.
  intros Hc Hα Hne Hu Hg. rewrite ready_eq. apply (op_fails _ _ _ (SstSys c SST_SYSTEM_READY g)); [|by exists σ].
  rewrite (bind_Ok sst_global_lock _ _ tt _ eq_refl). apply bind_Err. by apply (read_header_absent c σ α).
Qed.

Lemma op_absent' {A} (f : A -> asset_value) (k : unit -> M (sst_sys S) psa_sst_err_t A) c σ α u g :
  core_rep c σ -> holds σ α -> u <> 0 -> α !! u = None -> zlen g = SST_MAX_OBJECT_SIZE ->
  exists s', as_asset_value f (when_ready (bind sst_global_lock (fun _ => bind (read_object u) k))
                                 (SstSys c SST_SYSTEM_READY g)) =
               (Err PSA_SST_ERR_ASSET_NOT_FOUND, s') /\ sys_rep s' α.
Proof using Type.
  intros Hc Hα Hne Hu Hg. rewrite ready_eq. apply (op_fails _ _ _ (SstSys c SST_SYSTEM_READY g)); [|by exists σ].
  rewrite (bind_Ok sst_global_lock _ _ tt _ eq_refl). apply bind_Err, bind_Err. by apply (read_header_absent c σ α).
Qed.

Lemma zlen_header_buffer u a g :
  asset_ok u a -> zlen g = SST_MAX_OBJECT_SIZE -> zlen (asset_header u a ++ zdrop 48 g) = SST_MAX_OBJECT_SIZE.
Proof using Type.
  intros Ha Hg. change SST_MAX_OBJECT_SIZE with 304 in *. rewrite zlen_app, zlen_header, zlen_zdrop by (done || lia). lia.
Qed.

Lemma spec_get_info s α u :
  sys_rep s α -> u <> 0 ->
  exists s', object_op (AopGetInfo u) s = ((abs_asset (AopGetInfo u) α).1, s') /\ sys_rep s' α.
Proof using Type.
  destruct s as [c rd g]. intros (σ & Hc & Hα & Hrd & Hg) Hne.
  cbn [sys_core g_sst_object sst_system_ready object_op abs_asset] in *. subst rd.
  unfold on_asset. destruct (α !! u) as [a|] eqn:Hu; [|by apply (op_absent _ _ c σ)].
  pose proof (present_ok σ α u a Hα Hu) as Ha. pose proof (zlen_header_buffer u a g Ha Hg) as Hz.
  apply op_runs, runs_ready; [done|]. apply runs_bind, runs_ret, runs_bind, (runs_read_header c σ α u a g); try done.
  apply runs_bind, runs_copy_out; cbn [g_sst_object]; try (rewrite ?Hz; done).
  apply runs_bind, runs_ret, runs_ret. unfold OFFSETOF_info, PSA_SST_ASSET_INFO_SIZE.
  rewrite header_info by done. split; [done|]. by exists σ.
Qed.

Lemma spec_get_attributes s α u :
  sys_rep s α -> u <> 0 ->
  exists s', object_op (AopGetAttributes u) s = ((abs_asset (AopGetAttributes u) α).1, s') /\ sys_rep s' α.
Proof using Type.
  destruct s as [c rd g]. intros (σ & Hc & Hα & Hrd & Hg) Hne.
  cbn [sys_core g_sst_object sst_system_ready object_op abs_asset] in *. subst rd.
  unfold on_asset. destruct (α !! u) as [a|] eqn:Hu; [|by apply (op_absent _ _ c σ)].
  pose proof (present_ok σ α u a Hα Hu) as Ha. pose proof (zlen_header_buffer u a g Ha Hg) as Hz.
  apply op_runs, runs_ready; [done|]. apply runs_bind, runs_ret, runs_bind, (runs_read_header c σ α u a g); try done.
  apply runs_bind, runs_copy_out; cbn [g_sst_object]; try (rewrite ?Hz; done).
  apply runs_bind, runs_ret, runs_ret. unfold OFFSETOF_attr, PSA_SST_ASSET_ATTR_SIZE.
  rewrite header_attr by done. split; [done|]. by exists σ.
Qed.

Lemma spec_set_attributes s α u attrs :
  sys_rep s α -> u <> 0 -> zlen attrs = PSA_SST_ASSET_ATTR_SIZE ->
  exists s', object_op (AopSetAttributes u attrs) s = ((abs_asset (AopSetAttributes u attrs) α).1, s') /\
             sys_rep s' (abs_asset (AopSetAttributes u attrs) α).2.
Proof using Type.
  destruct s as [c rd g]. intros (σ & Hc & Hα & Hrd & Hg) Hne Hat.
  cbn [sys_core g_sst_object sst_system_ready object_op abs_asset] in *. subst rd.
  unfold on_asset. destruct (α !! u) as [a|] eqn:Hu; [|by apply (op_absent _ _ c σ)].
  pose proof (present_ok σ α u a Hα Hu) as Ha. pose proof (zlen_header_buffer u a g Ha Hg) as Hz.
  set (a' := Asset (a_type a) (a_max a) attrs (a_data a)).
  assert (asset_ok u a') as Ha' by (destruct Ha as (? & ? & ? & ? & ? & ?); by split_and!).
  apply op_runs, runs_ready; [done|]. apply runs_bind, runs_ret, runs_bind, (runs_read_header c σ α u a g); try done.
  apply runs_bind, runs_copy_in; rewrite ?Hz, ?Hat; try done. cbn [fst snd].
  rewrite ztake_full by (by rewrite Hat). unfold OFFSETOF_attr. rewrite set_header_attr by done. fold a'.
  apply runs_bind, runs_gets. cbn [g_sst_object].
  eapply runs_mono; [eapply (runs_core_write c σ α u a a'); try done|by intros ? ? ?].
  - by apply zlen_header_buffer.
  - destruct Ha as (_ & _ & _ & ? & ? & _). unfold SST_OBJECT_HEADER_SIZE. lia.
  - rewrite ztake_app by (by rewrite zlen_header). pose proof (zlen_header u a Ha) as Hl.
    change (asset_header u a ++ a_data a) with ([] ++ asset_header u a ++ a_data a).
    rewrite splice_app; [done|done|]. by rewrite !zlen_header.
Qed.

Lemma spec_read s α u off n :
  sys_rep s α -> u <> 0 -> is_u32 off -> is_u32 n ->
  exists s', object_op (AopRead u off n) s = ((abs_asset (AopRead u off n) α).1, s') /\ sys_rep s' α.
Proof using Type.
  destruct s as [c rd g]. intros (σ & Hc & Hα & Hrd & Hg) Hne Ho Hn.
  cbn [sys_core g_sst_object sst_system_ready object_op abs_asset] in *. subst rd.
  unfold on_asset. destruct (α !! u) as [a|] eqn:Hu; [|by apply (op_absent' _ _ c σ)].
  pose proof (present_ok σ α u a Hα Hu) as Ha. pose proof (zlen_header u a Ha) as Hl.
  pose proof (header_size_current u a Ha) as Hsz. destruct Ha as (_ & _ & _ & H1 & H2 & _).
  unfold SST_MAX_ASSET_SIZE in H1. unfold is_u32 in *.
  assert (runs (bind sst_global_lock (fun _ => read_object u)) (SstSys c SST_SYSTEM_READY g) (fun _ s' =>
    exists rest, s' = SstSys c SST_SYSTEM_READY (asset_header u a ++ a_data a ++ rest) /\
                 zlen rest = 256 - zlen (a_data a))) as ([] & s1 & E1 & rest & -> & Hrest).
  { apply runs_bind, runs_ret, (runs_read_object c σ α u a g); try done. eauto. }
  assert (sys_rep (SstSys c SST_SYSTEM_READY (asset_header u a ++ a_data a ++ rest)) α) as Hrep.
  { exists σ. cbn [sys_core g_sst_object]. split_and!; try done. rewrite !zlen_app, Hl, Hrest.
    change SST_MAX_OBJECT_SIZE with 304. lia. }
  unfold sst_object_read. rewrite ready_eq, bind_assoc, (bind_Ok _ _ _ _ _ E1).
  rewrite (bind_Ok (obj_field _) _ _ (zlen (a_data a)) (SstSys c SST_SYSTEM_READY (asset_header u a ++ a_data a ++ rest)))
    by (unfold obj_field, gets, OFFSETOF_info_size_current; cbn [g_sst_object]; by rewrite Hsz).
  unfold SST_OBJECT_START_POSITION. rewrite sst_utils_check_contained_in_spec by (unfold is_u32; lia).
  cbn [fst]. rewrite !Z.add_0_l. destruct (decide (off + n <= zlen (a_data a))) as [Hd|Hd].
  - rewrite decide_True by lia. apply op_runs, runs_bind, runs_copy_out; cbn [g_sst_object]; unfold OFFSETOF_data.
    1-3: rewrite ?zlen_app, ?Hl; lia.
    apply runs_bind, runs_ret, runs_ret. split; [|done]. f_equal.
    rewrite slice_app_skip by lia. replace (48 + off - zlen (asset_header u a)) with off by lia.
    rewrite <- (ztake_app (zlen (a_data a)) (a_data a) rest) at 2 by done.
    apply zlist_ext; rewrite !zlen_slice by (rewrite ?zlen_ztake, ?zlen_app; lia); [done|].
    intros i Hi. rewrite !znth_slice by lia. rewrite znth_ztake by lia. done.
  - rewrite decide_False by lia. by eapply op_fails.
Qed.

Lemma spec_write s α u data off :
  sys_rep s α -> asset_op_ok (AopWrite u data off) α ->
  exists s', object_op (AopWrite u data off) s = ((abs_asset (AopWrite u data off) α).1, s') /\
             sys_rep s' (abs_asset (AopWrite u data off) α).2.
Proof using Type.
  destruct s as [c rd g]. intros (σ & Hc & Hα & Hrd & Hg) (Hne & Ho & Hmax).
  cbn [sys_core g_sst_object sst_system_ready object_op abs_asset] in *. subst rd.
  unfold on_asset. destruct (α !! u) as [a|] eqn:Hu; [|by apply (op_absent' _ _ c σ)].
  specialize (Hmax a eq_refl). pose proof (present_ok σ α u a Hα Hu) as Ha. pose proof (zlen_header u a Ha) as Hl.
  pose proof (header_size_current u a Ha) as Hsz. pose proof Ha as (A1 & A2 & A3 & H1 & H2 & A6).
  unfold SST_MAX_ASSET_SIZE in H1.
  assert (runs (bind sst_global_lock (fun _ => read_object u)) (SstSys c SST_SYSTEM_READY g) (fun _ s' =>
    exists rest, s' = SstSys c SST_SYSTEM_READY (asset_header u a ++ a_data a ++ rest) /\
                 zlen rest = 256 - zlen (a_data a))) as ([] & s1 & E1 & rest & -> & Hrest).
  { apply runs_bind, runs_ret, (runs_read_object c σ α u a g); try done. eauto. }
  assert (zlen (asset_header u a ++ a_data a ++ rest) = 304) as Hz by (rewrite !zlen_app, Hl, Hrest; lia).
  unfold sst_object_write. rewrite ready_eq, bind_assoc, (bind_Ok _ _ _ _ _ E1).
  rewrite (bind_Ok (obj_field _) _ _ (zlen (a_data a)) (SstSys c SST_SYSTEM_READY (asset_header u a ++ a_data a ++ rest)))
    by (unfold obj_field, gets, OFFSETOF_info_size_current; cbn [g_sst_object]; by rewrite Hsz).
  destruct (Z.ltb_spec (zlen (a_data a)) off) as [Hlt|Hle].
  { rewrite decide_False by lia. eapply op_fails; [done|]. by exists σ. }
  rewrite decide_True by lia. cbn [fst snd]. apply op_runs.
  set (data' := splice off data (a_data a)). set (a' := Asset (a_type a) (a_max a) (a_attr a) data').
  assert (zlen data' = Z.max (zlen (a_data a)) (off + zlen data)) as Hd' by (apply zlen_splice_ext; lia).
  assert (asset_ok u a') as Ha' by (split_and!; cbn [a' a_type a_max a_data a_attr]; done || (unfold SST_MAX_ASSET_SIZE; lia)).
  apply runs_bind, runs_copy_in; unfold OFFSETOF_data; rewrite ?Hz; try lia; [done|].
  rewrite ztake_full by lia.
  destruct (splice_behind off data (a_data a) rest) as [rest' Er]; [lia|].
  assert (splice (48 + off) data (asset_header u a ++ a_data a ++ rest) = asset_header u a ++ data' ++ rest') as ->.
  { fold data' in Er. rewrite <- Er. unfold splice, ztake, zdrop.
    rewrite take_app_ge, drop_app_ge by lia. rewrite <- app_assoc. do 4 f_equal; lia. }
  assert (zlen rest' = 256 - zlen data') as Hr'.
  { fold data' in Er. apply (f_equal length) in Er. revert Er. rewrite length_app. 
    pose proof (zlen_splice off data (a_data a ++ rest)) as Ez. rewrite zlen_app in Ez. lia. }
  apply runs_bind.
  assert (forall Q : unit -> sst_sys S -> Prop,
    Q tt (SstSys c SST_SYSTEM_READY (asset_header u a' ++ data' ++ rest')) ->
    runs (if zlen (a_data a) <? u32 (off + zlen data)
          then obj_store OFFSETOF_info_size_current (put32 (u32 (off + zlen data))) else ret tt)
      (SstSys c SST_SYSTEM_READY (asset_header u a ++ data' ++ rest')) Q) as Hst.
  { intros Q HQ. rewrite u32_small by lia. destruct (Z.ltb_spec (zlen (a_data a)) (off + zlen data)).
    - apply runs_obj_store; [rewrite zlen_put32; done|]. unfold OFFSETOF_info_size_current.
      replace (off + zlen data) with (zlen data') by lia. by rewrite set_header_size.
    - apply runs_ret. replace (asset_header u a) with (asset_header u a'); [done|].
      unfold asset_header, a'; cbn [a_type a_max a_attr a_data]. do 4 f_equal. f_equal. lia. }
  apply Hst, runs_bind, runs_obj_field. cbn [g_sst_object]. unfold OFFSETOF_info_size_current.
  rewrite header_size_current by done. change (a_data a') with data'.
  apply runs_bind, runs_gets. cbn [g_sst_object]. unfold SST_OBJECT_SIZE.
  rewrite u32_small by (unfold SST_OBJECT_HEADER_SIZE; lia). pose proof (zlen_header u a' Ha') as Hl'.
  unfold SST_OBJECT_HEADER_SIZE.
  eapply runs_mono; [eapply (runs_core_write c σ α u a a'); try done|by intros ? ? ?].
  - rewrite !zlen_app, Hl', Hr'. change SST_MAX_OBJECT_SIZE with 304. lia.
  - unfold SST_OBJECT_HEADER_SIZE. lia.
  - change SST_MAX_OBJECT_SIZE with 304. lia.
  - rewrite app_assoc, ztake_app by (rewrite zlen_app; lia). change (a_data a') with data'. apply splice_prefix. rewrite !zlen_app, Hl, Hl'. lia.
Qed.

Lemma spec_delete s α u :
  sys_rep s α -> u <> 0 ->
  exists s', object_op (AopDelete u) s = ((abs_asset (AopDelete u) α).1, s') /\
             sys_rep s' (abs_asset (AopDelete u) α).2.
Proof using Type.
  destruct s as [c rd g]. intros (σ & Hc & Hα & Hrd & Hg) Hne.
  cbn [sys_core g_sst_object sst_system_ready object_op abs_asset] in *. subst rd.
  pose proof (core_delete_law c σ u Hc Hne) as Hd. rewrite (proj1 Hα) in Hd. unfold on_asset.
  destruct (α !! u) as [a|] eqn:Hu; cbn [fmap option_fmap option_map fst snd] in *.
  - apply op_runs, runs_ready; [done|]. apply runs_bind, runs_ret, runs_bind, runs_try_err, runs_lift.
    eapply runs_mono; [exact Hd|]. intros [] c' Hc'. apply runs_bind, runs_ret, runs_ret. split; [done|].
    exists (delete u σ). split_and!; try done. by apply holds_delete.
  - apply (op_fails _ _ _ (SstSys c SST_SYSTEM_READY g)); [|by exists σ]. unfold sst_object_delete. rewrite ready_eq.
    unfold bind, sst_global_lock, ret, try_err, lift. cbn [sys_core]. by rewrite Hd.
Qed.

(** The object buffer after [sst_object_init_object]. *)
Lemma runs_init_object c rd g u type size Q :
  zlen g = SST_MAX_OBJECT_SIZE ->
  Q tt (SstSys c rd (asset_header u (Asset type size (zeros 24) []) ++ zeros 256)) ->
  runs (sst_object_init_object u type size) (SstSys c rd g) Q.
Proof using Type.
  intros Hg HQ. change SST_MAX_OBJECT_SIZE with 304 in *. apply runs_bind, runs_gets. cbn [g_sst_object].
  rewrite sst_utils_memset_spec by (change SST_MAX_OBJECT_SIZE with 304; lia).
  change SST_MAX_OBJECT_SIZE with 304. unfold zdrop, SST_DEFAULT_EMPTY_BUFF_VAL.
  rewrite drop_ge, app_nil_r by lia. fold (zeros 304).
  apply runs_bind, runs_obj_store; [by rewrite zlen_zeros|]. rewrite splice_prefix by (rewrite zlen_zeros; lia).
  assert (zeros 304 = [] ++ zeros 4 ++ zeros 4 ++ zeros 4 ++ zeros 4 ++ zeros 4 ++ zeros 4 ++ zeros 24 ++ zeros 256) as ->
    by reflexivity.
  apply runs_bind, runs_obj_store; [by rewrite zlen_put32|].
  rewrite splice_app by (rewrite ?zlen_put32, ?zlen_zeros; done).
  apply runs_bind, runs_obj_store; [by rewrite zlen_put32|]. cbn [app].
  rewrite (splice_app 4) by (rewrite ?zlen_put32, ?zlen_zeros; done).
  apply runs_bind, runs_obj_store; [by rewrite zlen_put32|]. unfold OFFSETOF_info_size_max, OFFSETOF_info_type.
  rewrite (app_assoc (put32 u)), (app_assoc (put32 u ++ _)), (app_assoc ((put32 u ++ _) ++ _)).
  rewrite splice_app by (rewrite ?zlen_app, ?zlen_put32, ?zlen_zeros by lia; reflexivity).
  apply runs_obj_store; [by rewrite zlen_put32|]. rewrite <- !app_assoc, (app_assoc (put32 u)).
  rewrite splice_app by (rewrite ?zlen_app, ?zlen_put32, ?zlen_zeros by lia; reflexivity).
  revert HQ. unfold asset_header. cbn [a_type a_data a_max a_attr length]. rewrite <- !app_assoc. done.
Qed.

Lemma spec_create s α u type size :
  sys_rep s α -> asset_op_ok (AopCreate u type size) α ->
  exists s', object_op (AopCreate u type size) s = ((abs_asset (AopCreate u type size) α).1, s') /\
             sys_rep s' (abs_asset (AopCreate u type size) α).2.
Proof using Type.
  destruct s as [c rd g]. intros (σ & Hc & Hα & Hrd & Hg) (Hu32 & Hne & Ht & Hsz).
  cbn [sys_core g_sst_object sst_system_ready object_op abs_asset] in *. subst rd.
  pose proof (core_exist_law c σ u Hc Hne) as He. rewrite (proj1 Hα) in He.
  unfold sst_object_create. rewrite ready_eq, (bind_Ok sst_global_lock _ _ tt _ eq_refl).
  destruct (α !! u) as [a|] eqn:Hu; cbn [fmap option_fmap option_map] in He.
  { apply op_runs, runs_bind, runs_try_err, runs_lift. eapply runs_val; [exact He|]. apply runs_ret.
    split; [done|]. by exists σ. }
  rewrite (bind_Ok (try_err _) _ _ (inr PSA_SST_ERR_ASSET_NOT_FOUND) (SstSys c SST_SYSTEM_READY g))
    by (unfold try_err, lift; cbn [sys_core]; by rewrite He).
  set (a := Asset type size (zeros 24) []).
  assert (asset_ok u a) as Ha by (split_and!; cbn [a a_type a_max a_data a_attr length]; done || lia).
  pose proof (zlen_header u a Ha) as Hl. unfold SST_MAX_ASSET_SIZE in Hsz.
  assert (σ !! u = None) as Hσ by (by rewrite (proj1 Hα), Hu).
  assert (SST_OBJECT_SIZE size = 48 + size) as Eo by (unfold SST_OBJECT_SIZE, SST_OBJECT_HEADER_SIZE; apply u32_small; lia).
  pose proof (core_create_law c σ u (48 + size) Hc Hu32 Hne Hσ) as Hcr.
  change SST_MAX_OBJECT_SIZE with 304 in *. rewrite (holds_size σ α Hα) in Hcr. rewrite Eo.
  destruct (decide (base.size α < 10)%nat) as [Hfull|Hfull]; cbn [fst snd].
  - apply op_runs, runs_bind, runs_init_object; [done|]. fold a. apply runs_bind, runs_lift.
    eapply runs_mono; [apply Hcr; lia|]. intros [] c' Hc'. apply runs_bind, runs_gets. cbn [g_sst_object].
    apply runs_bind, runs_try_err, runs_lift.
    eapply runs_mono; [eapply (core_write_law c' _ u (SstObject (48 + size) [])); [exact Hc'|apply lookup_insert_eq|..]|].
    1-3: cbn [o_data o_max length]; rewrite ?zlen_app, ?Hl, ?zlen_zeros by lia;
         unfold SST_OBJECT_START_POSITION, SST_OBJECT_HEADER_SIZE; lia.
    cbn [o_max o_data]. intros [] c'' Hc''. apply runs_bind, runs_ret, runs_ret. split; [done|].
    exists (<[u := stored_asset u a]> σ). cbn [sys_core g_sst_object].
    split_and!; [|by apply holds_insert|done|rewrite zlen_app, Hl, zlen_zeros by lia; done].
    rewrite insert_insert_eq in Hc''. unfold SST_OBJECT_START_POSITION, SST_OBJECT_HEADER_SIZE in Hc''.
    rewrite ztake_app, splice_prefix in Hc'' by (rewrite ?Hl; done || (simpl; lia)).
    unfold stored_asset. cbn [a a_max a_data]. rewrite app_nil_r. exact Hc''.
  - destruct (runs_init_object c SST_SYSTEM_READY g u type size (fun _ s' =>
      s' = SstSys c SST_SYSTEM_READY (asset_header u a ++ zeros 256)) Hg eq_refl) as ([] & s1 & E1 & ->).
    rewrite (bind_Ok _ _ _ _ _ E1).
    apply (op_fails _ _ _ (SstSys c SST_SYSTEM_READY (asset_header u a ++ zeros 256))).
    + apply bind_Err. unfold lift. cbn [sys_core]. by rewrite Hcr by lia.
    + exists σ. cbn [sys_core g_sst_object]. split_and!; try done.
Qed.

(** One call of the object system is the step of the map of assets. *)
Lemma object_step op s α :
  sys_rep s α -> asset_op_ok op α ->
  exists s', object_op op s = ((abs_asset op α).1, s') /\ sys_rep s' (abs_asset op α).2.
Proof using Type.
  intros Hr Hok. destruct op; [by apply spec_create| |by apply spec_write| | | |by apply spec_delete].
  - destruct Hok as (? & ? & ?). destruct (spec_read s α u off n) as (s' & E & Hr'); try done.
    exists s'. split; [done|]. cbn [abs_asset]. unfold on_asset. by destruct (α !! u).
  - destruct (spec_get_info s α u) as (s' & E & Hr'); try done.
    exists s'. split; [done|]. cbn [abs_asset]. unfold on_asset. by destruct (α !! u).
  - destruct (spec_get_attributes s α u) as (s' & E & Hr'); try done.
    exists s'. split; [done|]. cbn [abs_asset]. unfold on_asset. by destruct (α !! u).
  - destruct Hok. by apply spec_set_attributes.
Qed.

(** ** Sequences and start-up *)

Lemma prepare_ready s σ α :
  core_rep (sys_core s) σ -> holds σ α -> zlen (g_sst_object s) = SST_MAX_OBJECT_SIZE ->
  runs sst_system_prepare s (fun _ s' => sys_rep s' α).
Proof using Type.
  destruct s as [c rd g]. cbn [sys_core g_sst_object]. intros Hc Hα Hg.
  apply runs_bind, runs_ret, runs_bind, runs_try_err, runs_lift.
  eapply runs_mono; [by apply (core_prepare_law c σ)|]. intros [] c' Hc'.
  apply runs_bind, runs_modify, runs_ret. by exists σ.
Qed.

Lemma wipe_prepare s :
  core_usable (sys_core s) -> zlen (g_sst_object s) = SST_MAX_OBJECT_SIZE ->
  runs (sst_system_wipe_all ;; sst_system_prepare) s (fun _ s' => sys_rep s' ∅).
Proof using Type.
  destruct s as [c rd g]. cbn [sys_core g_sst_object]. intros Hc Hg.
  apply runs_bind, runs_lift. eapply runs_mono; [by apply core_wipe_law|]. intros [] c' Hc'.
  apply (prepare_ready _ ∅ ∅); [done|apply holds_empty|done].
Qed.
End object_spec.

Fixpoint abs_asset_run (ops : list asset_op) (α : assets) : list asset_result * assets :=
  match ops with
  | [] => ([], α)
  | op :: ops =>
      let '(r, α1) := abs_asset op α in
      let '(rs, α2) := abs_asset_run ops α1 in (r :: rs, α2)
  end.

Fixpoint asset_ops_ok (ops : list asset_op) (α : assets) : Prop :=
  match ops with
  | [] => True
  | op :: ops => asset_op_ok op α /\ asset_ops_ok ops (abs_asset op α).2
  end.

Fixpoint object_run {S : Type} `{!sst_core_ops S} (ops : list asset_op) (s : sst_sys S)
  : list asset_result * sst_sys S :=
  match ops with
  | [] => ([], s)
  | op :: ops =>
      let '(r, s1) := object_op op s in
      let '(rs, s2) := object_run ops s1 in (r :: rs, s2)
  end.

Section object_claims.
  Context {S : Type} `{!sst_core_ops S, !sst_core_laws S}.
  Implicit Types (s : sst_sys S) (α : assets).

Lemma object_run_step ops s α :
  sys_rep s α -> asset_ops_ok ops α ->
  exists s', object_run ops s = ((abs_asset_run ops α).1, s') /\ sys_rep s' (abs_asset_run ops α).2.
Proof using Type.
  revert s α. induction ops as [|op ops IH]; intros s α Hr Hok; [by exists s|].
  destruct Hok as [Hop Hok]. destruct (object_step op s α Hr Hop) as (s1 & E1 & Hr1).
  destruct (IH s1 _ Hr1 Hok) as (s2 & E2 & Hr2). cbn [object_run abs_asset_run].
  rewrite E1, E2. destruct (abs_asset op α) as [r α1], (abs_asset_run ops _) as [rs α2]. eauto.
Qed.

(** C8: The object system implements a map from identifiers to assets (type,
    maximum size, attributes, content) over every core that keeps the promises
    of [sst_core.h]: after a wipe and start-up, every sequence of calls that
    meets the asset manager's obligations returns exactly the results of the
    map, call by call, and no access leaves the static object buffer. *)
Theorem object_system_refines_assets s ops :
  core_usable (sys_core s) -> zlen (g_sst_object s) = SST_MAX_OBJECT_SIZE -> asset_ops_ok ops ∅ ->
  exists s1 s2, (sst_system_wipe_all ;; sst_system_prepare) s = (Ok tt, s1) /\
    object_run ops s1 = ((abs_asset_run ops ∅).1, s2) /\ sys_rep s2 (abs_asset_run ops ∅).2.
Proof using Type.
  intros Hu Hg Hok. destruct (wipe_prepare s Hu Hg) as ([] & s1 & E1 & Hr1).
  destruct (object_run_step ops s1 ∅ Hr1 Hok) as (s2 & E2 & Hr2). by exists s1, s2.
Qed.

(** Before start-up has succeeded, every call of the object system fails
    with a system error and changes neither the buffer nor the storage. *)
Theorem object_system_needs_prepare s op :
  sst_system_ready s <> SST_SYSTEM_READY ->
  object_op op s = (Err PSA_SST_ERR_SYSTEM_ERROR, s).
Proof using Type.
  intros Hr. destruct op; cbn [object_op]; unfold sst_object_create, sst_object_read, sst_object_write,
    sst_object_get_info, sst_object_get_attributes, sst_object_set_attributes, sst_object_delete,
    when_ready, bind, gets; by rewrite (proj2 (Z.eqb_neq _ _) Hr).
Qed.
End object_claims.

(** ** The claims at the AN521 *)

Module AssetsOnAn521.
Local Existing Instances an521_layout an521_area_ok an521_build_ok.
Local Instance an521_laws : sst_core_laws (sst_state an521_flash) := sst_core_c_laws An521.an521_roomy.

Definition boot : sst_sys (sst_state an521_flash) :=
  SstSys (SstState An521.blank An521.ram) SST_SYSTEM_NOT_READY (zeros 304).

Definition session : list asset_op :=
  [AopCreate 3 7 16; AopWrite 3 [Byte.x01; Byte.x02] 0; AopCreate 5 8 32; AopCreate 3 7 16;
   AopWrite 3 [Byte.x0a; Byte.x0b] 1; AopGetInfo 3; AopSetAttributes 3 (replicate 24 Byte.x05);
   AopRead 3 0 3; AopGetAttributes 3; AopRead 3 2 2; AopDelete 3; AopGetInfo 3; AopWrite 5 [Byte.x01] 1].

Lemma asset_session_ok : asset_ops_ok session ∅.
Proof. vm_compute. repeat (split || discriminate || intros ? [= <-]). Qed.

Lemma boot_usable : core_usable (sys_core boot).
Proof. split; [|reflexivity]. exists (fun _ _ => Byte.xff). exact An521.blank_rep. Qed.

Lemma object_system_refines_assets_witness :
  (exists s1 s2, (sst_system_wipe_all ;; sst_system_prepare) boot = (Ok tt, s1) /\
    object_run session s1 = ((abs_asset_run session ∅).1, s2) /\ sys_rep s2 (abs_asset_run session ∅).2) /\
  (abs_asset_run session ∅).1 =
    [Ok AVUnit; Ok AVUnit; Ok AVUnit; Ok AVUnit; Ok AVUnit;
     Ok (AVInfo {| info_type := 7; info_size_current := 3; info_size_max := 16 |}); Ok AVUnit;
     Ok (AVData [Byte.x01; Byte.x0a; Byte.x0b]); Ok (AVData (replicate 24 Byte.x05));
     Err PSA_SST_ERR_PARAM_ERROR; Ok AVUnit; Err PSA_SST_ERR_ASSET_NOT_FOUND;
     Err PSA_SST_ERR_PARAM_ERROR].
Proof.
  split; [|vm_compute; reflexivity].
  apply (object_system_refines_assets boot session boot_usable eq_refl asset_session_ok).
Defined.

Lemma object_system_needs_prepare_witness :
  object_op (AopCreate 3 7 16) boot = (Err PSA_SST_ERR_SYSTEM_ERROR, boot).
Proof. apply object_system_needs_prepare. discriminate. Defined.
End AssetsOnAn521.
