(* ===== verification/FlashMusca.v ===== *)
(** * The flash driver of Musca-A

    [platform/ext/target/musca_a/CMSIS_Driver/Driver_Flash.c]: the checks are
    those of the MPS2 driver, the programming unit is four bytes, and accesses
    to the secure storage area are redirected to code SRAM.  The storage core
    programs a header of 33 bytes and a counter of one byte, so no update can
    be committed on this board. *)

From S2P Require Import Prelude FlashDriver SstDefs SstFlash SstCore.

(** [flash_layout.h] and [region_defs.h], with the boot loader present. *)
Definition FLASH_AREA_BL2_SIZE : Z := 0x10000.
Definition FLASH_AREA_IMAGE_SIZE : Z := 2 * 0x20000 - FLASH_AREA_BL2_SIZE.
Definition FLASH_AREA_IMAGE_0_OFFSET : Z := 0 + FLASH_AREA_BL2_SIZE.
Definition FLASH_AREA_IMAGE_1_OFFSET : Z := FLASH_AREA_IMAGE_0_OFFSET + FLASH_AREA_IMAGE_SIZE.
Definition FLASH_AREA_IMAGE_SCRATCH_OFFSET : Z := FLASH_AREA_IMAGE_1_OFFSET + FLASH_AREA_IMAGE_SIZE.
Definition FLASH_SST_AREA_OFFSET : Z := FLASH_AREA_IMAGE_SCRATCH_OFFSET + FLASH_AREA_IMAGE_SIZE.
Definition FLASH_SST_AREA_SIZE : Z := 0x5000.
Definition S_CODE_SRAM_ALIAS_BASE : Z := 0x10000000.

Definition musca_layout : sst_layout := {|
  SST_FLASH_AREA_ADDR := FLASH_SST_AREA_OFFSET;
  SST_BLOCK_SIZE := 0x1000;
  SST_TOTAL_NUM_OF_BLOCKS := FLASH_SST_AREA_SIZE / 0x1000;
  SST_FLASH_PROGRAM_UNIT := 4 |}.

Definition ARM_FLASH0_DEV_musca : arm_flash_dev_t := {|
  memory_base := 0x10200000;
  data := {| sector_count := 0x00800000 / 0x1000; sector_size := 0x1000;
             program_unit := 4; erased_value := Byte.xff |} |}.

(** The redirection of the storage area; both ends of the test are inclusive. *)
Definition in_sst_area (addr : Z) : bool :=
  (FLASH_SST_AREA_OFFSET <=? addr) && (addr <=? FLASH_SST_AREA_OFFSET + FLASH_SST_AREA_SIZE).

Definition musca_address (addr : Z) : Z :=
  if in_sst_area addr then u32 (S_CODE_SRAM_ALIAS_BASE + addr)
  else u32 (memory_base ARM_FLASH0_DEV_musca + addr).

Definition musca_Flash_ReadData (addr cnt : Z) (ram : mem) : Z * list byte :=
  let rc := is_range_valid ARM_FLASH0_DEV_musca (u32 (addr + cnt)) in
  if negb (rc =? 0) then (ARM_DRIVER_ERROR_PARAMETER, [])
  else (ARM_DRIVER_OK, mread ram (musca_address addr) cnt).

Definition musca_Flash_ProgramData (addr : Z) (bs : list byte) (ram : mem) : Z * mem :=
  let cnt := zlen bs in
  let rc := is_range_valid ARM_FLASH0_DEV_musca (u32 (addr + cnt)) in
  let rc := Z.lor rc (is_write_aligned ARM_FLASH0_DEV_musca addr) in
  let rc := Z.lor rc (is_write_aligned ARM_FLASH0_DEV_musca cnt) in
  if negb (rc =? 0) then (ARM_DRIVER_ERROR_PARAMETER, ram)
  else (ARM_DRIVER_OK, mwrite ram (musca_address addr) bs).

Definition musca_Flash_EraseSector (addr : Z) (ram : mem) : Z * mem :=
  let rc := is_range_valid ARM_FLASH0_DEV_musca addr in
  let rc := Z.lor rc (is_sector_aligned ARM_FLASH0_DEV_musca addr) in
  if negb (rc =? 0) then (ARM_DRIVER_ERROR_PARAMETER, ram)
  else (ARM_DRIVER_OK, mset ram (musca_address addr) 0x1000 Byte.xff).

(** The loop of [ARM_Flash_EraseChip]; [addr] is an absolute address here, but
    it is compared with the offset of the storage area. *)
Fixpoint musca_erase_chip_loop (n : nat) (addr : Z) (rc : Z) (ram : mem) : Z * mem :=
  match n with
  | O => (rc, ram)
  | S n =>
      let start := if in_sst_area addr
                   then u32 (addr - memory_base ARM_FLASH0_DEV_musca + S_CODE_SRAM_ALIAS_BASE)
                   else addr in
      musca_erase_chip_loop n (u32 (addr + 0x1000)) ARM_DRIVER_OK (mset ram start 0x1000 Byte.xff)
  end.

Definition musca_Flash_EraseChip (ram : mem) : Z * mem :=
  musca_erase_chip_loop (Z.to_nat (sector_count (data ARM_FLASH0_DEV_musca)))
    (memory_base ARM_FLASH0_DEV_musca) ARM_DRIVER_ERROR_UNSUPPORTED ram.

Record musca_flash := MuscaFlash { musca_ram : mem }.

#[export] Instance Driver_FLASH0_musca : ARM_DRIVER_FLASH musca_flash := {
  ReadData addr cnt d := musca_Flash_ReadData addr cnt (musca_ram d);
  ProgramData addr bs d :=
    let '(rc, m) := musca_Flash_ProgramData addr bs (musca_ram d) in (rc, MuscaFlash m);
  EraseSector addr d :=
    let '(rc, m) := musca_Flash_EraseSector addr (musca_ram d) in (rc, MuscaFlash m);
}.

(** ** The programming unit *)

(** A transfer whose length is not a multiple of four is refused. *)
Lemma musca_program_unit addr bs ram :
  zlen bs mod 4 <> 0 ->
  musca_Flash_ProgramData addr bs ram = (ARM_DRIVER_ERROR_PARAMETER, ram).
Proof.
  intros Hm. unfold musca_Flash_ProgramData, is_write_aligned at 2.
  cbn [ARM_FLASH0_DEV_musca data program_unit].
  destruct (Z.eqb_spec (zlen bs mod 4) 0); [done|]. cbn [negb].
  by rewrite Z.lor_m1_r.
Qed.

Section musca_commit.
  Local Existing Instance musca_layout.

(** C37: On Musca-A the metadata header can never be programmed: without
    encryption the core writes its 33 bytes in one transfer, which the driver
    refuses because its programming unit is four bytes.  Since every update
    ends with this write, none is ever committed. *)
Theorem musca_header_never_written (s : sst_state musca_flash) :
  zlen (crypto (meta_block_header (sst_system_ctx s))) = 28 ->
  (sst_meta_write_scratch_meta_header s).1 = Err PSA_SST_ERR_SYSTEM_ERROR /\
  (sst_meta_update_finalize s).1 = Err PSA_SST_ERR_SYSTEM_ERROR.
Proof.
  intros Hcr.
  assert ((sst_meta_write_scratch_meta_header s).1 = Err PSA_SST_ERR_SYSTEM_ERROR) as E.
  { destruct s as [d c]. cbn [sst_system_ctx] in *.
    unfold sst_meta_write_scratch_meta_header, bind, sst_meta_cur_meta_scratch, gets, modify,
      with_ctx. cbn [sst_system_ctx sst_dev].
    destruct (sst_meta_validate_swap_count _); cbn [sst_system_ctx sst_dev];
      unfold sst_flash_write, flash_write; cbn [ProgramData Driver_FLASH0_musca sst_dev];
      (rewrite musca_program_unit; [reflexivity|]);
      unfold encode_header_prefix; rewrite !zlen_app, length_put32;
      cbn [set_header set_swap_count meta_block_header crypto]; rewrite Hcr; done. }
  split; [done|]. unfold sst_meta_update_finalize, bind.
  by destruct (sst_meta_write_scratch_meta_header s) as [[]]; simplify_eq/=.
Qed.

Definition musca_blank : sst_state musca_flash :=
  SstState (MuscaFlash (fun _ => Byte.xff))
    {| meta_block_header := {| crypto := replicate 28 Byte.x00; scratch_idx := 0;
                               fs_version := 0; active_swap_count := 0 |};
       active_metablock := 0; scratch_metablock := 0 |}.

(** The first wipe of the board fails as well. *)
Lemma musca_header_never_written_witness :
  (sst_meta_update_finalize musca_blank).1 = Err PSA_SST_ERR_SYSTEM_ERROR /\
  (sst_core_wipe_all musca_blank).1 = Err PSA_SST_ERR_SYSTEM_ERROR.
Proof.
  split; [apply (musca_header_never_written musca_blank); reflexivity|].
  vm_compute. reflexivity.
Defined.
End musca_commit.
