(* ===== verification/Mpu.v ===== *)
(** * Memory protection unit driver

    [platform/ext/target/mps2/an521/native_drivers/mpu_armv8m_drv.c] over the
    registers of the secure MPU, the meaning of a programmed region, and the
    accesses an unprivileged program is allowed.  [RBAR] and [RLAR] are banked
    by [RNR], so they are tables indexed by the region number. *)

From S2P Require Import Prelude.

(** ** Registers *)

Record mpu_t := {
  CTRL : Z;
  RNR : Z;
  RBAR : Z -> Z;
  RLAR : Z -> Z;
}.

Definition MPU_CTRL_ENABLE_Msk : Z := 1.
Definition MPU_CTRL_HFNMIENA_Msk : Z := 2.
Definition MPU_CTRL_PRIVDEFENA_Msk : Z := 4.
Definition MPU_RNR_REGION_Msk : Z := 0xFF.
Definition MPU_RBAR_ADDR_Msk : Z := 0xFFFFFFE0.
Definition MPU_RBAR_SH_Pos : Z := 3.
Definition MPU_RBAR_SH_Msk : Z := 0x18.
Definition MPU_RBAR_AP_Pos : Z := 1.
Definition MPU_RBAR_AP_Msk : Z := 0x6.
Definition MPU_RBAR_XN_Pos : Z := 0.
Definition MPU_RBAR_XN_Msk : Z := 1.
Definition MPU_RLAR_LIMIT_Msk : Z := 0xFFFFFFE0.
Definition MPU_RLAR_EN_Msk : Z := 1.

Definition MPU_ARMV8M_OK : Z := 0.
Definition MPU_ARMV8M_ERROR : Z := 1.

Inductive mpu_armv8m_attr_exec_t := MPU_ARMV8M_XN_EXEC_OK | MPU_ARMV8M_XN_EXEC_NEVER.
Inductive mpu_armv8m_attr_access_t :=
  | MPU_ARMV8M_AP_RW_PRIV_ONLY | MPU_ARMV8M_AP_RW_PRIV_UNPRIV
  | MPU_ARMV8M_AP_RO_PRIV_ONLY | MPU_ARMV8M_AP_RO_PRIV_UNPRIV.
Inductive mpu_armv8m_attr_shared_t :=
  | MPU_ARMV8M_SH_NONE | MPU_ARMV8M_SH_UNUSED | MPU_ARMV8M_SH_OUTER | MPU_ARMV8M_SH_INNER.

(** The values the C enumerations have. *)
Definition exec_Z (x : mpu_armv8m_attr_exec_t) : Z :=
  match x with MPU_ARMV8M_XN_EXEC_OK => 0 | MPU_ARMV8M_XN_EXEC_NEVER => 1 end.
Definition access_Z (x : mpu_armv8m_attr_access_t) : Z :=
  match x with
  | MPU_ARMV8M_AP_RW_PRIV_ONLY => 0 | MPU_ARMV8M_AP_RW_PRIV_UNPRIV => 1
  | MPU_ARMV8M_AP_RO_PRIV_ONLY => 2 | MPU_ARMV8M_AP_RO_PRIV_UNPRIV => 3
  end.
Definition shared_Z (x : mpu_armv8m_attr_shared_t) : Z :=
  match x with
  | MPU_ARMV8M_SH_NONE => 0 | MPU_ARMV8M_SH_UNUSED => 1
  | MPU_ARMV8M_SH_OUTER => 2 | MPU_ARMV8M_SH_INNER => 3
  end.

Record mpu_armv8m_region_cfg_t := {
  region_nr : Z;
  region_base : Z;
  region_limit : Z;
  attr_exec : mpu_armv8m_attr_exec_t;
  attr_access : mpu_armv8m_attr_access_t;
  attr_sh : mpu_armv8m_attr_shared_t;
}.

Definition set_CTRL (v : Z) (m : mpu_t) : mpu_t :=
  {| CTRL := v; RNR := RNR m; RBAR := RBAR m; RLAR := RLAR m |}.
Definition set_RNR (v : Z) (m : mpu_t) : mpu_t :=
  {| CTRL := CTRL m; RNR := v; RBAR := RBAR m; RLAR := RLAR m |}.
(** A write to [RBAR] or [RLAR] goes to the region [RNR] selects. *)
Definition set_RBAR (v : Z) (m : mpu_t) : mpu_t :=
  {| CTRL := CTRL m; RNR := RNR m; RBAR := upd (RBAR m) (RNR m) v; RLAR := RLAR m |}.
Definition set_RLAR (v : Z) (m : mpu_t) : mpu_t :=
  {| CTRL := CTRL m; RNR := RNR m; RBAR := RBAR m; RLAR := upd (RLAR m) (RNR m) v |}.

(** ** Driver functions *)

Definition mpu_armv8m_enable (privdef_en hfnmi_en : bool) (m : mpu_t) : Z * mpu_t :=
  let m := set_CTRL (Z.lor (if privdef_en then MPU_CTRL_PRIVDEFENA_Msk else 0)
                           (if hfnmi_en then MPU_CTRL_HFNMIENA_Msk else 0)) m in
  let m := set_CTRL (Z.lor (CTRL m) MPU_CTRL_ENABLE_Msk) m in
  (MPU_ARMV8M_OK, m).

Definition mpu_armv8m_disable (m : mpu_t) : Z * mpu_t := (MPU_ARMV8M_OK, set_CTRL 0 m).

Definition base_cfg (cfg : mpu_armv8m_region_cfg_t) : Z :=
  let b := Z.land (region_base cfg) MPU_RBAR_ADDR_Msk in
  let b := Z.lor b (Z.land (Z.shiftl (shared_Z (attr_sh cfg)) MPU_RBAR_SH_Pos) MPU_RBAR_SH_Msk) in
  let b := Z.lor b (Z.land (Z.shiftl (access_Z (attr_access cfg)) MPU_RBAR_AP_Pos) MPU_RBAR_AP_Msk) in
  Z.lor b (Z.land (Z.shiftl (exec_Z (attr_exec cfg)) MPU_RBAR_XN_Pos) MPU_RBAR_XN_Msk).

Definition limit_cfg (cfg : mpu_armv8m_region_cfg_t) : Z :=
  Z.lor (Z.land (u32 (region_limit cfg - 1)) MPU_RLAR_LIMIT_Msk) MPU_RLAR_EN_Msk.

Definition mpu_armv8m_region_enable (cfg : mpu_armv8m_region_cfg_t) (m : mpu_t) : Z * mpu_t :=
  if negb (Z.land (region_base cfg) (u32 (Z.lnot MPU_RBAR_ADDR_Msk)) =? 0)
  then (MPU_ARMV8M_ERROR, m)
  else
    let ctrl_before := CTRL m in
    let m := set_CTRL 0 m in
    let m := set_RNR (Z.land (region_nr cfg) MPU_RNR_REGION_Msk) m in
    let m := set_RBAR (base_cfg cfg) m in
    let m := set_RLAR (limit_cfg cfg) m in
    (MPU_ARMV8M_OK, set_CTRL ctrl_before m).

Definition mpu_armv8m_region_disable (nr : Z) (m : mpu_t) : Z * mpu_t :=
  let ctrl_before := CTRL m in
  let m := set_CTRL 0 m in
  let m := set_RNR (Z.land nr MPU_RNR_REGION_Msk) m in
  let m := set_RBAR 0 m in
  let m := set_RLAR 0 m in
  (MPU_ARMV8M_OK, set_CTRL ctrl_before m).

(** The loop counts the regions the [TYPE] register announces down to 0. *)
Fixpoint mpu_armv8m_clean (dregion : nat) (m : mpu_t) : Z * mpu_t :=
  match dregion with
  | O => (MPU_ARMV8M_OK, m)
  | S i => mpu_armv8m_clean i (snd (mpu_armv8m_region_disable (Z.of_nat i) m))
  end.

(** ** What the registers mean

    Region [n] is enabled by bit 0 of its [RLAR]; the low five bits of the base
    are 0 and those of the limit 1.  An address in no region, or in several,
    faults for unprivileged code; with the unit off it is in the default map. *)

Record region := {
  r_base : Z;
  r_last : Z;
  r_access : Z;
  r_xn : bool;
}.

Definition mpu_region (m : mpu_t) (n : Z) : option region :=
  if Z.testbit (RLAR m n) 0
  then Some {| r_base := Z.land (RBAR m n) MPU_RBAR_ADDR_Msk;
               r_last := Z.lor (Z.land (RLAR m n) MPU_RLAR_LIMIT_Msk) 0x1F;
               r_access := Z.shiftr (Z.land (RBAR m n) MPU_RBAR_AP_Msk) MPU_RBAR_AP_Pos;
               r_xn := Z.testbit (RBAR m n) 0 |}
  else None.

Definition in_region (a : Z) (r : region) : bool := (r_base r <=? a) && (a <=? r_last r).

Definition regions_at (n : nat) (m : mpu_t) (a : Z) : list region :=
  filter (fun r => in_region a r = true) (omap (fun i => mpu_region m (Z.of_nat i)) (seq 0 n)).

Inductive access_kind := Read | Write | Exec.

Definition region_allows (k : access_kind) (r : region) : bool :=
  match k with
  | Read => Z.testbit (r_access r) 0
  | Write => r_access r =? 1
  | Exec => Z.testbit (r_access r) 0 && negb (r_xn r)
  end.

Definition unpriv_allowed (n : nat) (m : mpu_t) (k : access_kind) (a : Z) : bool :=
  if Z.testbit (CTRL m) 0
  then match regions_at n m a with
       | [r] => region_allows k r
       | _ => false
       end
  else true.

(** ** The driver programs what it is asked to *)

(** The region a configuration asks for. *)
Definition cfg_region (cfg : mpu_armv8m_region_cfg_t) : region :=
  {| r_base := region_base cfg;
     r_last := Z.lor (region_limit cfg - 1) 0x1F;
     r_access := access_Z (attr_access cfg);
     r_xn := match attr_exec cfg with MPU_ARMV8M_XN_EXEC_OK => false | _ => true end |}.

(** A configuration the driver accepts, with a region number of the unit. *)
Definition cfg_ok (cfg : mpu_armv8m_region_cfg_t) : Prop :=
  0 <= region_nr cfg < 256 /\ 0 <= region_base cfg < 2 ^ 32 /\ region_base cfg mod 32 = 0 /\
  0 < region_limit cfg <= 2 ^ 32.

Lemma nr_mask n : 0 <= n < 256 -> Z.land n MPU_RNR_REGION_Msk = n.
Proof.
  intros. change MPU_RNR_REGION_Msk with (Z.ones 8).
  rewrite Z.land_ones by lia. by apply Z.mod_small.
Qed.

Lemma aligned_low_bits b i : b mod 32 = 0 -> 0 <= i < 5 -> Z.testbit b i = false.
Proof.
  intros Hb Hi. rewrite <- (Z.mod_pow2_bits_low b 5 i) by lia.
  change (2 ^ 5) with 32. rewrite Hb. apply Z.bits_0.
Qed.

Lemma mask_bits i : 0 <= i -> Z.testbit 0xFFFFFFE0 i = ((5 <=? i) && (i <? 32)).
Proof.
  intros Hi. change 0xFFFFFFE0 with (Z.shiftl (Z.ones 27) 5).
  rewrite Z.shiftl_spec, Z.testbit_ones by lia.
  destruct (Z.leb_spec 5 i), (Z.ltb_spec i 32), (Z.leb_spec 0 (i - 5)), (Z.ltb_spec (i - 5) 27);
    simpl; lia || done.
Qed.

Lemma high_bits x i : 0 <= x < 2 ^ 32 -> 32 <= i -> Z.testbit x i = false.
Proof.
  intros Hx Hi. rewrite <- (Z.mod_small x (2 ^ 32)) by lia.
  by apply Z.mod_pow2_bits_high; lia.
Qed.

Lemma land_base b : 0 <= b < 2 ^ 32 -> b mod 32 = 0 -> Z.land b MPU_RBAR_ADDR_Msk = b.
Proof.
  intros Hb Ha. apply Z.bits_inj'. intros i Hi.
  rewrite Z.land_spec. unfold MPU_RBAR_ADDR_Msk. rewrite mask_bits by done.
  destruct (Z.leb_spec 5 i), (Z.ltb_spec i 32); simpl; rewrite ?andb_true_r, ?andb_false_r; try done.
  - symmetry. by apply high_bits.
  - symmetry. apply aligned_low_bits; lia.
  - symmetry. apply aligned_low_bits; lia.
Qed.

Lemma base_unaligned_test b : b mod 32 = 0 ->
  (Z.land b (u32 (Z.lnot MPU_RBAR_ADDR_Msk)) =? 0) = true.
Proof.
  intros Hb. apply Z.eqb_eq. change (u32 (Z.lnot MPU_RBAR_ADDR_Msk)) with (Z.ones 5).
  rewrite Z.land_ones by lia. done.
Qed.

Lemma base_cfg_attrs cfg :
  region_base cfg mod 32 = 0 -> 0 <= region_base cfg < 2 ^ 32 ->
  base_cfg cfg = region_base cfg +
    (8 * shared_Z (attr_sh cfg) + 2 * access_Z (attr_access cfg) + exec_Z (attr_exec cfg)).
Proof.
  intros Ha Hb. unfold base_cfg. cbv zeta. rewrite land_base by done.
  rewrite <- !Z.lor_assoc.
  set (low := Z.lor (Z.land _ _) _).
  assert (low = 8 * shared_Z (attr_sh cfg) + 2 * access_Z (attr_access cfg) + exec_Z (attr_exec cfg) /\
          0 <= low < 32) as [Hl Hr].
  { subst low. destruct (attr_sh cfg), (attr_access cfg), (attr_exec cfg); vm_compute; repeat split; done. }
  rewrite <- Hl. rewrite Z.add_nocarry_lor; [done|].
  apply Z.bits_inj'. intros i Hi. rewrite Z.land_spec, Z.bits_0.
  destruct (decide (i < 5)).
  - rewrite (aligned_low_bits (region_base cfg)) by lia. done.
  - rewrite <- (Z.mod_small low 32), andb_comm by lia. change 32 with (2 ^ 5).
    rewrite Z.mod_pow2_bits_high by lia. done.
Qed.

(** The five low bits and the others of [32 * q + k]. *)
Lemma low5_bits q k i : 0 <= k < 32 -> 0 <= i ->
  Z.testbit (32 * q + k) i = if decide (i < 5) then Z.testbit k i else Z.testbit (32 * q) i.
Proof.
  intros Hk Hi. case_decide.
  - rewrite <- (Z.mod_pow2_bits_low (32 * q + k) 5 i) by lia. change (2 ^ 5) with 32.
    rewrite Z.add_comm, Z.mul_comm, Z_mod_plus_full, Z.mod_small by lia. done.
  - replace i with ((i - 5) + 5) by lia.
    rewrite <- !Z.div_pow2_bits by lia. change (2 ^ 5) with 32.
    f_equal. rewrite !(Z.mul_comm 32), Z.div_add_l, Z.div_mul by lia.
    rewrite (Z.div_small k) by lia. lia.
Qed.

Lemma land_low5 q k : 0 <= k < 32 -> 0 <= 32 * q < 2 ^ 32 ->
  Z.land (32 * q + k) MPU_RBAR_ADDR_Msk = 32 * q.
Proof.
  intros Hk Hq. rewrite <- (land_base (32 * q)) at 2; [|lia|rewrite Z.mul_comm; apply Z_mod_mult].
  apply Z.bits_inj'. intros i Hi. rewrite !Z.land_spec. unfold MPU_RBAR_ADDR_Msk.
  rewrite mask_bits, low5_bits by done. case_decide; [|done].
  destruct (Z.leb_spec 5 i); [lia|]. simpl. by rewrite !andb_false_r.
Qed.

Lemma attr_fields (b sh ac ex : Z) :
  b mod 32 = 0 -> 0 <= b < 2 ^ 32 -> 0 <= sh < 4 -> 0 <= ac < 4 -> 0 <= ex < 2 ->
  let r := b + (8 * sh + 2 * ac + ex) in
  Z.land r MPU_RBAR_ADDR_Msk = b /\
  Z.shiftr (Z.land r MPU_RBAR_AP_Msk) MPU_RBAR_AP_Pos = ac /\ Z.testbit r 0 = (ex =? 1).
Proof.
  intros Ha Hb Hs Hc He r.
  pose proof (Z.div_mod b 32 ltac:(lia)) as Hd. rewrite Ha, Z.add_0_r in Hd.
  set (q := b / 32) in *. subst r. rewrite Hd.
  split; [apply land_low5; lia|].
  assert (Z.land (32 * q + (8 * sh + 2 * ac + ex)) MPU_RBAR_AP_Msk =
          Z.land (8 * sh + 2 * ac + ex) MPU_RBAR_AP_Msk) as ->.
  { apply Z.bits_inj'. intros i Hi. rewrite !Z.land_spec, low5_bits by lia. case_decide; [done|].
    replace (Z.testbit MPU_RBAR_AP_Msk i) with false; [by rewrite !andb_false_r|].
    symmetry. change MPU_RBAR_AP_Msk with (6 mod 2 ^ 5). apply Z.mod_pow2_bits_high. lia. }
  rewrite low5_bits, decide_True by lia.
  assert (sh = 0 \/ sh = 1 \/ sh = 2 \/ sh = 3) as Hs' by lia.
  assert (ac = 0 \/ ac = 1 \/ ac = 2 \/ ac = 3) as Hc' by lia.
  assert (ex = 0 \/ ex = 1) as He' by lia.
  by destruct Hs' as [-> | [-> | [-> | ->]]], Hc' as [-> | [-> | [-> | ->]]], He' as [-> | ->].
Qed.

Lemma limit_cfg_fields cfg : 0 < region_limit cfg <= 2 ^ 32 ->
  Z.testbit (limit_cfg cfg) 0 = true /\
  Z.lor (Z.land (limit_cfg cfg) MPU_RLAR_LIMIT_Msk) 0x1F = Z.lor (region_limit cfg - 1) 0x1F.
Proof.
  intros Hl. unfold limit_cfg. rewrite u32_small by lia. split.
  - rewrite Z.lor_spec. by rewrite orb_true_r.
  - apply Z.bits_inj'. intros i Hi. rewrite !Z.lor_spec, !Z.land_spec, !Z.lor_spec, !Z.land_spec.
    change 0x1F with (Z.ones 5). unfold MPU_RLAR_LIMIT_Msk. rewrite mask_bits, Z.testbit_ones by lia.
    destruct (Z.leb_spec 5 i), (Z.ltb_spec i 32), (Z.leb_spec 0 i), (Z.ltb_spec i 5); try lia; simpl;
      rewrite ?orb_true_r, ?orb_false_r, ?andb_true_r, ?andb_false_r; try done.
    + change MPU_RLAR_EN_Msk with (1 mod 2 ^ 5). rewrite Z.mod_pow2_bits_high by lia.
      by rewrite orb_false_r.
    + symmetry. apply high_bits; lia.
Qed.

(** A write of a region changes that region and no other. *)
Lemma region_enable_region cfg m n :
  cfg_ok cfg ->
  mpu_armv8m_region_enable cfg m = (MPU_ARMV8M_OK, snd (mpu_armv8m_region_enable cfg m)) /\
  CTRL (snd (mpu_armv8m_region_enable cfg m)) = CTRL m /\
  mpu_region (snd (mpu_armv8m_region_enable cfg m)) n =
    if decide (n = region_nr cfg) then Some (cfg_region cfg) else mpu_region m n.
Proof.
  intros (Hn & Hb & Ha & Hl). unfold mpu_armv8m_region_enable.
  rewrite base_unaligned_test by done. simpl negb. cbv iota zeta. cbn [snd].
  split_and!; [done..|].
  unfold mpu_region. cbn [RLAR RBAR set_CTRL set_RLAR set_RBAR set_RNR RNR].
  rewrite nr_mask by done. case_decide as E.
  - subst n. rewrite !upd_eq. destruct (limit_cfg_fields cfg Hl) as [-> ->].
    rewrite base_cfg_attrs by done.
    destruct (attr_fields (region_base cfg) (shared_Z (attr_sh cfg)) (access_Z (attr_access cfg))
                (exec_Z (attr_exec cfg))) as (-> & -> & ->);
      [done|done|destruct (attr_sh cfg); simpl; lia|destruct (attr_access cfg); simpl; lia
      |destruct (attr_exec cfg); simpl; lia|].
    unfold cfg_region. by destruct (attr_exec cfg).
  - by rewrite !upd_ne by done.
Qed.

Lemma region_disable_region nr m n :
  0 <= nr < 256 ->
  CTRL (snd (mpu_armv8m_region_disable nr m)) = CTRL m /\
  mpu_region (snd (mpu_armv8m_region_disable nr m)) n =
    if decide (n = nr) then None else mpu_region m n.
Proof.
  intros Hn. unfold mpu_armv8m_region_disable. cbv zeta. cbn [snd]. split; [done|].
  unfold mpu_region. cbn [RLAR RBAR set_CTRL set_RLAR set_RBAR set_RNR RNR].
  rewrite nr_mask by done. case_decide as E.
  - subst n. by rewrite !upd_eq.
  - by rewrite !upd_ne by done.
Qed.

Lemma clean_region k m n : (k <= 256)%nat ->
  CTRL (snd (mpu_armv8m_clean k m)) = CTRL m /\
  mpu_region (snd (mpu_armv8m_clean k m)) n =
    if decide (0 <= n < Z.of_nat k) then None else mpu_region m n.
Proof.
  revert m. induction k as [|k IH]; intros m Hk; cbn [mpu_armv8m_clean].
  - split; [done|]. case_decide; [lia|done].
  - destruct (IH (snd (mpu_armv8m_region_disable (Z.of_nat k) m))) as [-> ->]; [lia|].
    destruct (region_disable_region (Z.of_nat k) m n) as [-> ->]; [lia|]. split; [done|].
    repeat case_decide; done || lia.
Qed.

Lemma enable_region p h m n : mpu_region (snd (mpu_armv8m_enable p h m)) n = mpu_region m n.
Proof. done. Qed.

Lemma disable_region m n : mpu_region (snd (mpu_armv8m_disable m)) n = mpu_region m n.
Proof. done. Qed.

(** With the unit on, unprivileged code reaches only what some region allows. *)
Lemma unpriv_allowed_inv n m k a :
  Z.testbit (CTRL m) 0 = true -> unpriv_allowed n m k a = true ->
  exists i r, (i < n)%nat /\ mpu_region m (Z.of_nat i) = Some r /\
    in_region a r = true /\ region_allows k r = true.
Proof.
  intros Hc. unfold unpriv_allowed. rewrite Hc.
  destruct (regions_at n m a) as [|r [|]] eqn:E; [done| |done]. intros Ha.
  assert (r ∈ regions_at n m a) as Hin by (rewrite E; left).
  unfold regions_at in Hin. apply list_elem_of_filter in Hin as [Hr Hin].
  apply list_elem_of_omap in Hin as (i & Hi & Hm). apply elem_of_seq in Hi.
  exists i, r. split_and!; [lia|done..].
Qed.
