(* ===== verification/SpmHal.v ===== *)
(** * Platform layer of the partition manager

    [platform/ext/target/mps2/an521/spm_hal.c] and the peripheral protection
    functions of [target_cfg.c]: the memory protection unit and the secure
    privilege control registers as one hardware state, the functions the
    partition manager calls, and what they leave programmed. *)

From S2P Require Import Prelude Mpu.

(** ** Build parameters: the isolation level, the addresses of [region_defs.h]
    and the symbols of the linker script *)

Class tfm_layout := {
  TFM_LVL : Z;
  TFM_CORE_DEBUG : bool;
  CMSE_VENEER_REGION_START : Z;
  CMSE_VENEER_REGION_LIMIT : Z;
  NS_CODE_START : Z;
  NS_CODE_LIMIT : Z;
  NS_DATA_START : Z;
  NS_DATA_LIMIT : Z;
  S_DATA_START : Z;
  S_DATA_SIZE : Z;
  TFM_UNPRIV_CODE_Base : Z;
  TFM_UNPRIV_CODE_Limit : Z;
  TFM_UNPRIV_RO_DATA_Base : Z;
  TFM_UNPRIV_RO_DATA_Limit : Z;
  TFM_UNPRIV_SCRATCH_Base : Z;
  TFM_UNPRIV_SCRATCH_Limit : Z;
  TFM_SECURE_STACK_Base : Z;
  TFM_SECURE_STACK_Limit : Z;
  Stack_Mem : Z;
  Stack_top : Z;
  tfm_core_partition_return_svc : Z;
  return_from_sfn : Z;
}.

Definition SPM_ERR_OK : Z := 0.
Definition SPM_ERR_PARTITION_DB_NOT_INIT : Z := 1.
Definition SPM_ERR_PARTITION_NOT_AVAILABLE : Z := 3.
Definition SPM_ERR_INVALID_CONFIG : Z := 4.

Definition TFM_BUFFER_SHARE_DISABLE : Z := 0.
Definition TFM_BUFFER_SHARE_NS_CODE : Z := 1.
Definition TFM_BUFFER_SHARE_SCRATCH : Z := 2.
Definition TFM_BUFFER_SHARE_PRIV : Z := 3.
Definition TFM_BUFFER_SHARE_DEFAULT : Z := 4.

(** ** Data *)

Record tfm_spm_partition_memory_data_t := {
  code_start : Z;
  code_limit : Z;
  ro_start : Z;
  ro_limit : Z;
  rw_start : Z;
  rw_limit : Z;
  zi_start : Z;
  zi_limit : Z;
  stack_bottom : Z;
  stack_top : Z;
}.

Record tfm_spm_partition_platform_data_t := {
  periph_start : Z;
  periph_limit : Z;
  periph_ppc_bank : Z;
  periph_ppc_loc : Z;
}.

(** The protection hardware: the MPU and the two banks of peripheral control
    registers that start at [ahbnsppc0] and [ahbspppc0]. *)
Record hw_t := {
  mpu : mpu_t;
  nsppc : Z -> Z;
  spppc : Z -> Z;
}.

Definition set_mpu (f : mpu_t -> mpu_t) (h : hw_t) : hw_t :=
  {| mpu := f (mpu h); nsppc := nsppc h; spppc := spppc h |}.

(** ** [target_cfg.c] *)

Definition bit (pos : Z) : Z := u32 (Z.shiftl 1 pos).

Definition ppc_configure_to_non_secure (bank pos : Z) (h : hw_t) : hw_t :=
  {| mpu := mpu h; nsppc := upd (nsppc h) bank (Z.lor (nsppc h bank) (bit pos)); spppc := spppc h |}.

Definition ppc_configure_to_secure (bank pos : Z) (h : hw_t) : hw_t :=
  {| mpu := mpu h; nsppc := upd (nsppc h) bank (Z.land (nsppc h bank) (u32 (Z.lnot (bit pos))));
     spppc := spppc h |}.

Definition ppc_en_secure_unpriv (bank pos : Z) (h : hw_t) : hw_t :=
  {| mpu := mpu h; nsppc := nsppc h; spppc := upd (spppc h) bank (Z.lor (spppc h bank) (bit pos)) |}.

Definition ppc_clr_secure_unpriv (bank pos : Z) (h : hw_t) : hw_t :=
  {| mpu := mpu h; nsppc := nsppc h;
     spppc := upd (spppc h) bank (Z.land (spppc h bank) (u32 (Z.lnot (bit pos)))) |}.

(** ** [spm_hal.c] *)

Definition MPU_REGION_VENEERS : Z := 0.
Definition MPU_REGION_TFM_UNPRIV_CODE : Z := 1.
Definition MPU_REGION_TFM_UNPRIV_DATA : Z := 2.
Definition MPU_REGION_NS_DATA : Z := 3.
Definition PARTITION_REGION_RO : Z := 4.
Definition PARTITION_REGION_RW_STACK : Z := 5.
Definition PARTITION_REGION_PERIPH : Z := 6.
Definition PARTITION_REGION_SHARE : Z := 7.

(** The unit has eight regions. *)
Definition MPU_DREGION : nat := 8.

(** A hardware function that returns a status. *)
Definition HW : Type := hw_t -> Z * hw_t.

Definition hw_mpu (f : mpu_t -> Z * mpu_t) : HW := fun h =>
  (fst (f (mpu h)), set_mpu (fun m => snd (f m)) h).

(** [if (f() != MPU_ARMV8M_OK) return SPM_ERR_INVALID_CONFIG;] then [k]. *)
Definition or_invalid (f k : HW) : HW := fun h =>
  let '(r, h) := f h in if r =? MPU_ARMV8M_OK then k h else (SPM_ERR_INVALID_CONFIG, h).

(** The status of [f] is dropped. *)
Definition and_then (f k : HW) : HW := fun h => k (snd (f h)).

Definition hw_return (r : Z) : HW := fun h => (r, h).

Section spm_hal.
  Context {Layout : tfm_layout}.

Definition tfm_spm_hal_configure_default_isolation
  (platform_data : option tfm_spm_partition_platform_data_t) (h : hw_t) : hw_t :=
  match platform_data with
  | Some pd => ppc_configure_to_secure (periph_ppc_bank pd) (periph_ppc_loc pd) h
  | None => h
  end.

Definition veneer_cfg : mpu_armv8m_region_cfg_t := {|
  region_nr := MPU_REGION_VENEERS;
  region_base := CMSE_VENEER_REGION_START; region_limit := CMSE_VENEER_REGION_LIMIT;
  attr_access := MPU_ARMV8M_AP_RO_PRIV_UNPRIV; attr_sh := MPU_ARMV8M_SH_NONE;
  attr_exec := MPU_ARMV8M_XN_EXEC_OK |}.

Definition unpriv_code_cfg : mpu_armv8m_region_cfg_t := {|
  region_nr := MPU_REGION_TFM_UNPRIV_CODE;
  region_base := TFM_UNPRIV_CODE_Base; region_limit := TFM_UNPRIV_CODE_Limit;
  attr_access := MPU_ARMV8M_AP_RO_PRIV_UNPRIV; attr_sh := MPU_ARMV8M_SH_NONE;
  attr_exec := MPU_ARMV8M_XN_EXEC_OK |}.

Definition unpriv_data_cfg : mpu_armv8m_region_cfg_t := {|
  region_nr := MPU_REGION_TFM_UNPRIV_DATA;
  region_base := TFM_UNPRIV_RO_DATA_Base; region_limit := TFM_UNPRIV_RO_DATA_Limit;
  attr_access := MPU_ARMV8M_AP_RO_PRIV_UNPRIV; attr_sh := MPU_ARMV8M_SH_NONE;
  attr_exec := MPU_ARMV8M_XN_EXEC_NEVER |}.

Definition ns_data_cfg : mpu_armv8m_region_cfg_t := {|
  region_nr := MPU_REGION_NS_DATA;
  region_base := NS_DATA_START; region_limit := NS_DATA_LIMIT;
  attr_access := MPU_ARMV8M_AP_RW_PRIV_UNPRIV; attr_sh := MPU_ARMV8M_SH_NONE;
  attr_exec := MPU_ARMV8M_XN_EXEC_NEVER |}.

Definition hw_enable : HW := hw_mpu (mpu_armv8m_enable true true).
Definition hw_region (cfg : mpu_armv8m_region_cfg_t) : HW := hw_mpu (mpu_armv8m_region_enable cfg).
Definition hw_region_off (nr : Z) : HW := hw_mpu (mpu_armv8m_region_disable nr).

Definition tfm_spm_mpu_init : HW :=
  and_then (hw_mpu (mpu_armv8m_clean MPU_DREGION)) (
  or_invalid (hw_region veneer_cfg) (
  or_invalid (hw_region unpriv_code_cfg) (
  or_invalid (hw_region unpriv_data_cfg) (
  or_invalid (hw_region ns_data_cfg) (
  and_then hw_enable (
  hw_return SPM_ERR_OK)))))).

Definition ro_cfg (memory_data : tfm_spm_partition_memory_data_t) : mpu_armv8m_region_cfg_t := {|
  region_nr := PARTITION_REGION_RO;
  region_base := ro_start memory_data; region_limit := ro_limit memory_data;
  attr_access := MPU_ARMV8M_AP_RO_PRIV_UNPRIV; attr_sh := MPU_ARMV8M_SH_NONE;
  attr_exec := MPU_ARMV8M_XN_EXEC_OK |}.

Definition rw_stack_cfg (memory_data : tfm_spm_partition_memory_data_t) : mpu_armv8m_region_cfg_t := {|
  region_nr := PARTITION_REGION_RW_STACK;
  region_base := rw_start memory_data; region_limit := stack_top memory_data;
  attr_access := MPU_ARMV8M_AP_RW_PRIV_UNPRIV; attr_sh := MPU_ARMV8M_SH_NONE;
  attr_exec := MPU_ARMV8M_XN_EXEC_NEVER |}.

Definition periph_cfg (pd : tfm_spm_partition_platform_data_t) : mpu_armv8m_region_cfg_t := {|
  region_nr := PARTITION_REGION_PERIPH;
  region_base := periph_start pd; region_limit := periph_limit pd;
  attr_access := MPU_ARMV8M_AP_RW_PRIV_UNPRIV; attr_sh := MPU_ARMV8M_SH_NONE;
  attr_exec := MPU_ARMV8M_XN_EXEC_NEVER |}.

Definition tfm_spm_hal_partition_sandbox_config
  (memory_data : tfm_spm_partition_memory_data_t)
  (platform_data : option tfm_spm_partition_platform_data_t) : HW :=
  and_then (hw_mpu mpu_armv8m_disable) (
  or_invalid (if negb (ro_start memory_data =? 0) then hw_region (ro_cfg memory_data)
              else hw_return MPU_ARMV8M_OK) (
  or_invalid (hw_region (rw_stack_cfg memory_data)) (
  or_invalid (match platform_data with
              | Some pd =>
                  or_invalid (hw_region (periph_cfg pd)) (fun h =>
                  (MPU_ARMV8M_OK, ppc_en_secure_unpriv (periph_ppc_bank pd) (periph_ppc_loc pd) h))
              | None => hw_return MPU_ARMV8M_OK
              end) (
  and_then hw_enable (
  hw_return SPM_ERR_OK))))).

Definition tfm_spm_hal_partition_sandbox_deconfig
  (platform_data : option tfm_spm_partition_platform_data_t) : HW :=
  and_then (fun h => (0, match platform_data with
                         | Some pd => ppc_clr_secure_unpriv (periph_ppc_bank pd) (periph_ppc_loc pd) h
                         | None => h
                         end)) (
  and_then (hw_mpu mpu_armv8m_disable) (
  and_then (hw_region_off PARTITION_REGION_RO) (
  and_then (hw_region_off PARTITION_REGION_RW_STACK) (
  and_then (hw_region_off PARTITION_REGION_PERIPH) (
  and_then (hw_region_off PARTITION_REGION_SHARE) (
  and_then hw_enable (
  hw_return SPM_ERR_OK))))))).

Definition scratch_share_cfg : mpu_armv8m_region_cfg_t := {|
  region_nr := PARTITION_REGION_SHARE;
  region_base := TFM_UNPRIV_SCRATCH_Base; region_limit := TFM_UNPRIV_SCRATCH_Limit;
  attr_access := MPU_ARMV8M_AP_RW_PRIV_UNPRIV; attr_sh := MPU_ARMV8M_SH_NONE;
  attr_exec := MPU_ARMV8M_XN_EXEC_NEVER |}.

Definition ns_code_share_cfg : mpu_armv8m_region_cfg_t := {|
  region_nr := PARTITION_REGION_SHARE;
  region_base := NS_CODE_START; region_limit := NS_CODE_LIMIT;
  attr_access := MPU_ARMV8M_AP_RO_PRIV_UNPRIV; attr_sh := MPU_ARMV8M_SH_NONE;
  attr_exec := MPU_ARMV8M_XN_EXEC_NEVER |}.

(** [TFM_BUFFER_SHARE_DISABLE] disables the region and returns the error the
    result was initialised with. *)
Definition tfm_spm_hal_set_share_region (share : Z) : HW :=
  and_then (hw_mpu mpu_armv8m_disable) (fun h =>
  let '(res, h) :=
    if share =? TFM_BUFFER_SHARE_DISABLE
    then (SPM_ERR_INVALID_CONFIG, snd (hw_region_off PARTITION_REGION_SHARE h))
    else if share =? TFM_BUFFER_SHARE_SCRATCH
    then (SPM_ERR_OK, snd (hw_region scratch_share_cfg h))
    else if share =? TFM_BUFFER_SHARE_NS_CODE
    then (SPM_ERR_OK, snd (hw_region ns_code_share_cfg h))
    else (SPM_ERR_INVALID_CONFIG, h) in
  (res, snd (hw_enable h))).

(** ** What the functions leave programmed *)

Definition hw_region_at (h : hw_t) (n : Z) : option region := mpu_region (mpu h) n.

(** The memory and peripheral of a partition can be programmed. *)
Definition sandbox_ok (md : tfm_spm_partition_memory_data_t)
  (pd : option tfm_spm_partition_platform_data_t) : Prop :=
  (ro_start md <> 0 -> cfg_ok (ro_cfg md)) /\ cfg_ok (rw_stack_cfg md) /\
  (forall p, pd = Some p -> cfg_ok (periph_cfg p)).

(** The regions the sandbox of a partition consists of. *)
Definition sandbox_region (md : tfm_spm_partition_memory_data_t)
  (pd : option tfm_spm_partition_platform_data_t) (n : Z) : option region :=
  if decide (n = PARTITION_REGION_RO)
  then if ro_start md =? 0 then None else Some (cfg_region (ro_cfg md))
  else if decide (n = PARTITION_REGION_RW_STACK) then Some (cfg_region (rw_stack_cfg md))
  else if decide (n = PARTITION_REGION_PERIPH) then (fun p => cfg_region (periph_cfg p)) <$> pd
  else None.

Definition share_region (share : Z) : option region :=
  if share =? TFM_BUFFER_SHARE_SCRATCH then Some (cfg_region scratch_share_cfg)
  else if share =? TFM_BUFFER_SHARE_NS_CODE then Some (cfg_region ns_code_share_cfg)
  else None.

Lemma hw_region_spec cfg h : cfg_ok cfg ->
  exists h', hw_region cfg h = (MPU_ARMV8M_OK, h') /\ nsppc h' = nsppc h /\ spppc h' = spppc h /\
    CTRL (mpu h') = CTRL (mpu h) /\
    forall n, hw_region_at h' n =
      if decide (n = region_nr cfg) then Some (cfg_region cfg) else hw_region_at h n.
Proof.
  intros Hok. eexists (snd (hw_region cfg h)). split_and!; try done.
  - unfold hw_region, hw_mpu. cbn [snd]. by rewrite (proj1 (region_enable_region cfg (mpu h) 0 Hok)).
  - apply (region_enable_region cfg (mpu h) 0 Hok).
  - intros n. apply (region_enable_region cfg (mpu h) n Hok).
Qed.

Lemma hw_region_off_spec nr h n : 0 <= nr < 256 ->
  hw_region_at (snd (hw_region_off nr h)) n = if decide (n = nr) then None else hw_region_at h n.
Proof. intros Hn. apply (region_disable_region nr (mpu h) n Hn). Qed.

Lemma hw_enable_region h n : hw_region_at (snd (hw_enable h)) n = hw_region_at h n.
Proof. done. Qed.

Lemma or_invalid_Ok f k h h' : f h = (MPU_ARMV8M_OK, h') -> or_invalid f k h = k h'.
Proof. intros H. unfold or_invalid. by rewrite H. Qed.

(** Over free partition regions, the sandbox of the partition is programmed
    and the unit is on. *)
Lemma sandbox_config_spec md pd h :
  sandbox_ok md pd ->
  hw_region_at h PARTITION_REGION_RO = None -> hw_region_at h PARTITION_REGION_PERIPH = None ->
  exists h', tfm_spm_hal_partition_sandbox_config md pd h = (SPM_ERR_OK, h') /\
    CTRL (mpu h') = 7 /\ nsppc h' = nsppc h /\
    forall n, hw_region_at h' n =
      if decide (PARTITION_REGION_RO <= n <= PARTITION_REGION_PERIPH) then sandbox_region md pd n
      else hw_region_at h n.
Proof.
  intros (Hro & Hrw & Hp) H4 H6. unfold tfm_spm_hal_partition_sandbox_config, and_then at 1.
  set (h0 := snd (hw_mpu mpu_armv8m_disable h)).
  assert (forall n, hw_region_at h0 n = hw_region_at h n) as H0 by done.
  assert (exists h1, (if negb (ro_start md =? 0) then hw_region (ro_cfg md) else hw_return MPU_ARMV8M_OK) h0
            = (MPU_ARMV8M_OK, h1) /\ nsppc h1 = nsppc h /\
            forall n, hw_region_at h1 n = if decide (n = PARTITION_REGION_RO)
              then sandbox_region md pd n else hw_region_at h n) as (h1 & E1 & N1 & R1).
  { destruct (Z.eqb_spec (ro_start md) 0) as [E|E]; cbn [negb].
    - exists h0. split_and!; [done..|]. intros n. rewrite H0. case_decide; [|done]. subst n.
      unfold sandbox_region. rewrite decide_True, H4, E by done. done.
    - destruct (hw_region_spec (ro_cfg md) h0 (Hro E)) as (h1 & E1 & N1 & _ & _ & R1).
      exists h1. split_and!; [done..|]. intros n. rewrite R1, H0. unfold sandbox_region.
      change (region_nr (ro_cfg md)) with PARTITION_REGION_RO. case_decide; [|done].
      by rewrite (proj2 (Z.eqb_neq _ _) E). }
  rewrite (or_invalid_Ok _ _ _ _ E1).
  destruct (hw_region_spec (rw_stack_cfg md) h1 Hrw) as (h2 & E2 & N2 & _ & _ & R2).
  rewrite (or_invalid_Ok _ _ _ _ E2).
  assert (forall n, hw_region_at h2 n = if decide (n = PARTITION_REGION_RO \/ n = PARTITION_REGION_RW_STACK)
              then sandbox_region md pd n else hw_region_at h n) as R2'.
  { intros n. rewrite R2, R1. change (region_nr (rw_stack_cfg md)) with 5.
    unfold sandbox_region, PARTITION_REGION_RO, PARTITION_REGION_RW_STACK in *.
    repeat case_decide; done || lia. }
  destruct pd as [p|].
  - destruct (hw_region_spec (periph_cfg p) h2 (Hp p eq_refl)) as (h3 & E3 & N3 & _ & _ & R3).
    erewrite or_invalid_Ok by by rewrite (or_invalid_Ok _ _ _ _ E3).
    eexists. split; [reflexivity|]. split; [done|]. split; [cbn; congruence|].
    intros n. transitivity (hw_region_at h3 n); [done|]. rewrite R3, R2'.
    change (region_nr (periph_cfg p)) with 6.
    unfold sandbox_region, PARTITION_REGION_RO, PARTITION_REGION_RW_STACK, PARTITION_REGION_PERIPH in *.
    repeat case_decide; done || lia.
  - erewrite or_invalid_Ok by done.
    eexists. split; [reflexivity|]. split; [done|]. split; [cbn; congruence|].
    intros n. transitivity (hw_region_at h2 n); [done|]. rewrite R2'.
    unfold sandbox_region, PARTITION_REGION_RO, PARTITION_REGION_RW_STACK, PARTITION_REGION_PERIPH in *.
    repeat case_decide; subst; done || lia.
Qed.

Lemma sandbox_deconfig_spec pd h :
  exists h', tfm_spm_hal_partition_sandbox_deconfig pd h = (SPM_ERR_OK, h') /\
    CTRL (mpu h') = 7 /\ nsppc h' = nsppc h /\
    forall n, hw_region_at h' n =
      if decide (PARTITION_REGION_RO <= n <= PARTITION_REGION_SHARE) then None else hw_region_at h n.
Proof.
  unfold tfm_spm_hal_partition_sandbox_deconfig, and_then, hw_return.
  eexists. split; [reflexivity|]. cbn [snd].
  split; [done|]. split; [by destruct pd|]. intros n. rewrite hw_enable_region.
  rewrite !hw_region_off_spec by (vm_compute; done).
  replace (hw_region_at (snd (hw_mpu mpu_armv8m_disable _)) n) with (hw_region_at h n) by by destruct pd.
  unfold PARTITION_REGION_RO, PARTITION_REGION_RW_STACK, PARTITION_REGION_PERIPH, PARTITION_REGION_SHARE.
  repeat case_decide; done || lia.
Qed.

Lemma set_share_region_spec share h :
  cfg_ok scratch_share_cfg -> cfg_ok ns_code_share_cfg ->
  share = TFM_BUFFER_SHARE_SCRATCH \/ share = TFM_BUFFER_SHARE_NS_CODE ->
  exists h', tfm_spm_hal_set_share_region share h = (SPM_ERR_OK, h') /\
    CTRL (mpu h') = 7 /\ nsppc h' = nsppc h /\ spppc h' = spppc h /\
    forall n, hw_region_at h' n =
      if decide (n = PARTITION_REGION_SHARE) then share_region share else hw_region_at h n.
Proof.
  intros Hs Hn Hshare. set (h0 := snd (hw_mpu mpu_armv8m_disable h)).
  destruct Hshare as [-> | ->].
  - destruct (hw_region_spec scratch_share_cfg h0 Hs) as (h1 & E1 & N1 & S1 & _ & R1).
    exists (snd (hw_enable h1)). split_and!; try done.
    unfold tfm_spm_hal_set_share_region, and_then. cbn [Z.eqb TFM_BUFFER_SHARE_SCRATCH TFM_BUFFER_SHARE_DISABLE Pos.eqb].
    cbv beta iota zeta. fold h0. by rewrite E1.
  - destruct (hw_region_spec ns_code_share_cfg h0 Hn) as (h1 & E1 & N1 & S1 & _ & R1).
    exists (snd (hw_enable h1)). split_and!; try done.
    unfold tfm_spm_hal_set_share_region, and_then.
    cbn [Z.eqb TFM_BUFFER_SHARE_NS_CODE TFM_BUFFER_SHARE_SCRATCH TFM_BUFFER_SHARE_DISABLE Pos.eqb].
    cbv beta iota zeta. fold h0. by rewrite E1.
Qed.

(** The regions [tfm_spm_mpu_init] sets up once. *)
Definition static_region (n : Z) : option region :=
  if decide (n = MPU_REGION_VENEERS) then Some (cfg_region veneer_cfg)
  else if decide (n = MPU_REGION_TFM_UNPRIV_CODE) then Some (cfg_region unpriv_code_cfg)
  else if decide (n = MPU_REGION_TFM_UNPRIV_DATA) then Some (cfg_region unpriv_data_cfg)
  else if decide (n = MPU_REGION_NS_DATA) then Some (cfg_region ns_data_cfg)
  else None.

Definition layout_ok : Prop :=
  cfg_ok veneer_cfg /\ cfg_ok unpriv_code_cfg /\ cfg_ok unpriv_data_cfg /\ cfg_ok ns_data_cfg /\
  cfg_ok scratch_share_cfg /\ cfg_ok ns_code_share_cfg.

Lemma mpu_init_spec h : layout_ok ->
  exists h', tfm_spm_mpu_init h = (SPM_ERR_OK, h') /\ CTRL (mpu h') = 7 /\
    forall n, 0 <= n < Z.of_nat MPU_DREGION -> hw_region_at h' n = static_region n.
Proof.
  intros (H0 & H1 & H2 & H3 & _). unfold tfm_spm_mpu_init, and_then at 1.
  set (h0 := snd (hw_mpu (mpu_armv8m_clean MPU_DREGION) h)).
  assert (forall n, 0 <= n < 8 -> hw_region_at h0 n = None) as R0.
  { intros n Hn. destruct (clean_region MPU_DREGION (mpu h) n) as [_ E]; [unfold MPU_DREGION; lia|].
    change (hw_region_at h0 n) with (mpu_region (snd (mpu_armv8m_clean MPU_DREGION (mpu h))) n).
    rewrite E, decide_True; [done|]. unfold MPU_DREGION. lia. }
  destruct (hw_region_spec _ h0 H0) as (h1 & E1 & _ & _ & _ & R1). rewrite (or_invalid_Ok _ _ _ _ E1).
  destruct (hw_region_spec _ h1 H1) as (h2 & E2 & _ & _ & _ & R2). rewrite (or_invalid_Ok _ _ _ _ E2).
  destruct (hw_region_spec _ h2 H2) as (h3 & E3 & _ & _ & _ & R3). rewrite (or_invalid_Ok _ _ _ _ E3).
  destruct (hw_region_spec _ h3 H3) as (h4 & E4 & _ & _ & _ & R4). rewrite (or_invalid_Ok _ _ _ _ E4).
  eexists. split; [reflexivity|]. split; [done|]. intros n Hn.
  transitivity (hw_region_at h4 n); [done|]. rewrite R4, R3, R2, R1.
  unfold static_region. cbn [region_nr veneer_cfg unpriv_code_cfg unpriv_data_cfg ns_data_cfg].
  unfold MPU_REGION_VENEERS, MPU_REGION_TFM_UNPRIV_CODE, MPU_REGION_TFM_UNPRIV_DATA, MPU_REGION_NS_DATA.
  unfold MPU_DREGION in Hn. repeat case_decide; try done; try lia. apply R0. lia.
Qed.
End spm_hal.
