(* ===== verification/Spm.v ===== *)
(** * Secure partition manager

    [secure_fw/spm/spm_api.c] with the partition database of [spm_db.h] and
    [spm_db_setup.h], and the machine state the core works on.  The isolation
    level [TFM_LVL] (1 or 3) is a build parameter; where the source selects
    code with the preprocessor, the definitions test it.
    [tfm_spm_partition_init] is in [SecureApi], with the requests it makes. *)

From S2P Require Import Prelude Mpu SpmHal.

(** ** Constants *)

Definition SPM_INVALID_PARTITION_IDX : Z := 0xFFFFFFFF.
Definition INVALID_PARTITION_ID : Z := 0xFFFFFFFF.

Definition SPM_PARTITION_STATE_UNINIT : Z := 0.
Definition SPM_PARTITION_STATE_IDLE : Z := 1.
Definition SPM_PARTITION_STATE_RUNNING : Z := 2.
Definition SPM_PARTITION_STATE_SUSPENDED : Z := 3.
Definition SPM_PARTITION_STATE_BLOCKED : Z := 4.
Definition SPM_PARTITION_STATE_CLOSED : Z := 5.

Definition SPM_PART_FLAG_SECURE : Z := 0x01.
Definition SPM_PART_FLAG_TRUSTED : Z := 0x02.

Definition TFM_SP_NON_SECURE_ID : Z := 0.
Definition TFM_SP_CORE_ID : Z := 1.
Definition TFM_SP_BASE : Z := 256.
Definition TFM_SP_STORAGE_ID : Z := TFM_SP_BASE + 0.

Definition TFM_MAX_USER_PARTITIONS : Z := 6.
Definition TFM_INTERNAL_PARTITIONS : Z := 2.
Definition SPM_MAX_PARTITIONS : Z := TFM_MAX_USER_PARTITIONS + TFM_INTERNAL_PARTITIONS.

(** ** Data *)

Record spm_partition_static_data_t := {
  partition_id : Z;
  partition_flags : Z;
  partition_init : Z;
}.

Record spm_partition_runtime_data_t := {
  partition_state : Z;
  caller_partition_idx : Z;
  orig_psp : Z;
  orig_psplim : Z;
  orig_lr : Z;
  share : Z;
  stack_ptr : Z;
}.

Record spm_partition_desc_t := {
  static_data : spm_partition_static_data_t;
  runtime_data : spm_partition_runtime_data_t;
  platform_data : option tfm_spm_partition_platform_data_t;
  memory_data : tfm_spm_partition_memory_data_t;
}.

Record spm_partition_db_t := {
  is_init : Z;
  partition_count : Z;
  running_partition_idx : Z;
  partitions : list spm_partition_desc_t;
}.

(** The processor registers the core reads and writes.  [IPSR] is the active
    exception, 0 in thread mode; [AIRCR_low] the lower half of [AIRCR], whose
    upper half holds a key. *)
Record cpu_t := {
  PSP : Z;
  PSPLIM : Z;
  CONTROL_nPRIV : Z;
  CONTROL_SPSEL : Z;
  IPSR : Z;
  PRIMASK : Z;
  SHCSR : Z;
  AIRCR_low : Z;
}.

(** File-scope state of [spm_api.c] and [tfm_secure_api.c], the processor, the
    words of the stacks in memory and the protection hardware. *)
Record tfm_state := {
  g_spm_partition_db : spm_partition_db_t;
  tfm_secure_lock : Z;
  tfm_secure_api_init : Z;
  ns_state_AIRCR : Z;
  cpu : cpu_t;
  stack_word : Z -> Z;
  hw : hw_t;
}.

(** [tfm_secure_api_error_handler] never returns; a run of the model that nests
    secure calls deeper than its fuel stops with [TFM_NESTING]. *)
Inductive tfm_halt := TFM_HALTED | TFM_NESTING.

Definition TM (A : Type) : Type := M tfm_state tfm_halt A.

(** ** Updates of nested records *)

Definition set_db (f : spm_partition_db_t -> spm_partition_db_t) (s : tfm_state) : tfm_state := {|
  g_spm_partition_db := f (g_spm_partition_db s);
  tfm_secure_lock := tfm_secure_lock s;
  tfm_secure_api_init := tfm_secure_api_init s;
  ns_state_AIRCR := ns_state_AIRCR s;
  cpu := cpu s;
  stack_word := stack_word s;
  hw := hw s |}.
Definition set_lock (f : Z -> Z) (s : tfm_state) : tfm_state := {|
  g_spm_partition_db := g_spm_partition_db s;
  tfm_secure_lock := f (tfm_secure_lock s);
  tfm_secure_api_init := tfm_secure_api_init s;
  ns_state_AIRCR := ns_state_AIRCR s;
  cpu := cpu s;
  stack_word := stack_word s;
  hw := hw s |}.
Definition set_api_init (f : Z -> Z) (s : tfm_state) : tfm_state := {|
  g_spm_partition_db := g_spm_partition_db s;
  tfm_secure_lock := tfm_secure_lock s;
  tfm_secure_api_init := f (tfm_secure_api_init s);
  ns_state_AIRCR := ns_state_AIRCR s;
  cpu := cpu s;
  stack_word := stack_word s;
  hw := hw s |}.
Definition set_ns_AIRCR (f : Z -> Z) (s : tfm_state) : tfm_state := {|
  g_spm_partition_db := g_spm_partition_db s;
  tfm_secure_lock := tfm_secure_lock s;
  tfm_secure_api_init := tfm_secure_api_init s;
  ns_state_AIRCR := f (ns_state_AIRCR s);
  cpu := cpu s;
  stack_word := stack_word s;
  hw := hw s |}.
Definition set_cpu (f : cpu_t -> cpu_t) (s : tfm_state) : tfm_state := {|
  g_spm_partition_db := g_spm_partition_db s;
  tfm_secure_lock := tfm_secure_lock s;
  tfm_secure_api_init := tfm_secure_api_init s;
  ns_state_AIRCR := ns_state_AIRCR s;
  cpu := f (cpu s);
  stack_word := stack_word s;
  hw := hw s |}.
Definition set_words (f : (Z -> Z) -> (Z -> Z)) (s : tfm_state) : tfm_state := {|
  g_spm_partition_db := g_spm_partition_db s;
  tfm_secure_lock := tfm_secure_lock s;
  tfm_secure_api_init := tfm_secure_api_init s;
  ns_state_AIRCR := ns_state_AIRCR s;
  cpu := cpu s;
  stack_word := f (stack_word s);
  hw := hw s |}.
Definition set_hw (f : hw_t -> hw_t) (s : tfm_state) : tfm_state := {|
  g_spm_partition_db := g_spm_partition_db s;
  tfm_secure_lock := tfm_secure_lock s;
  tfm_secure_api_init := tfm_secure_api_init s;
  ns_state_AIRCR := ns_state_AIRCR s;
  cpu := cpu s;
  stack_word := stack_word s;
  hw := f (hw s) |}.

Definition set_partitions (l : list spm_partition_desc_t) (db : spm_partition_db_t) : spm_partition_db_t :=
  {| is_init := is_init db; partition_count := partition_count db;
     running_partition_idx := running_partition_idx db; partitions := l |}.
Definition set_running (i : Z) (db : spm_partition_db_t) : spm_partition_db_t :=
  {| is_init := is_init db; partition_count := partition_count db;
     running_partition_idx := i; partitions := partitions db |}.

Definition set_runtime (f : spm_partition_runtime_data_t -> spm_partition_runtime_data_t)
  (p : spm_partition_desc_t) : spm_partition_desc_t :=
  {| static_data := static_data p; runtime_data := f (runtime_data p);
     platform_data := platform_data p; memory_data := memory_data p |}.

(** ** Access to the partition table; an index outside the table is undefined
    behaviour. *)
Definition part_at (idx : Z) : TM spm_partition_desc_t := fun s =>
  match partitions (g_spm_partition_db s) !! Z.to_nat idx with
  | Some p => if 0 <=? idx then (Ok p, s) else (Fault, s)
  | None => (Fault, s)
  end.

Definition part_update (idx : Z) (f : spm_partition_desc_t -> spm_partition_desc_t) : TM unit :=
  p <- part_at idx ;;
  modify (set_db (fun db => set_partitions (<[Z.to_nat idx := f p]> (partitions db)) db)).

(** A call of a platform function. *)
Definition lift_hw (f : HW) : TM Z := fun s => (Ok (fst (f (hw s))), set_hw (fun h => snd (f h)) s).

Section spm_api.
  Context {Layout : tfm_layout}.

(** The search loop, [n] partitions left. *)
Fixpoint get_partition_idx_loop (n : nat) (i partition_id_ : Z) : TM Z :=
  match n with
  | O => ret SPM_INVALID_PARTITION_IDX
  | S n =>
      p <- part_at i ;;
      if partition_id (static_data p) =? partition_id_ then ret i
      else get_partition_idx_loop n (i + 1) partition_id_
  end.

Definition get_partition_idx (partition_id_ : Z) : TM Z :=
  if partition_id_ =? INVALID_PARTITION_ID then ret SPM_INVALID_PARTITION_IDX
  else
    count <- gets (fun s => partition_count (g_spm_partition_db s)) ;;
    get_partition_idx_loop (Z.to_nat count) 0 partition_id_.

(** A database entry of all zeroes. *)
Definition zero_desc : spm_partition_desc_t := {|
  static_data := {| partition_id := 0; partition_flags := 0; partition_init := 0 |};
  runtime_data := {| partition_state := 0; caller_partition_idx := 0; orig_psp := 0;
                     orig_psplim := 0; orig_lr := 0; share := 0; stack_ptr := 0 |};
  platform_data := None;
  memory_data := {| code_start := 0; code_limit := 0; ro_start := 0; ro_limit := 0; rw_start := 0;
                    rw_limit := 0; zi_start := 0; zi_limit := 0; stack_bottom := 0; stack_top := 0 |} |}.

(** Append an entry to the table: [false] when it is full, where the caller
    returns [SPM_ERR_INVALID_CONFIG]. *)
Definition add_partition (f : spm_partition_desc_t -> spm_partition_desc_t) : TM bool :=
  count <- gets (fun s => partition_count (g_spm_partition_db s)) ;;
  if SPM_MAX_PARTITIONS <=? count then ret false
  else
    part_update count f ;;
    modify (set_db (fun db => {| is_init := is_init db; partition_count := u32 (partition_count db + 1);
                                 running_partition_idx := running_partition_idx db;
                                 partitions := partitions db |})) ;;
    ret true.

Definition set_part_state (state : Z) (r : spm_partition_runtime_data_t) : spm_partition_runtime_data_t :=
  {| partition_state := state; caller_partition_idx := caller_partition_idx r; orig_psp := orig_psp r;
     orig_psplim := orig_psplim r; orig_lr := orig_lr r; share := share r; stack_ptr := stack_ptr r |}.
Definition set_stack_ptr (v : Z) (r : spm_partition_runtime_data_t) : spm_partition_runtime_data_t :=
  {| partition_state := partition_state r; caller_partition_idx := caller_partition_idx r; orig_psp := orig_psp r;
     orig_psplim := orig_psplim r; orig_lr := orig_lr r; share := share r; stack_ptr := v |}.

(** [PARTITION_INIT_STATIC_DATA]; the init function is added later. *)
Definition init_static (id flags : Z) (d : spm_partition_static_data_t) : spm_partition_static_data_t :=
  {| partition_id := id; partition_flags := flags; partition_init := partition_init d |}.

Definition declare_non_secure : TM bool :=
  add_partition (fun p => {|
    static_data := init_static TFM_SP_NON_SECURE_ID 0 (static_data p);
    runtime_data := set_part_state SPM_PARTITION_STATE_UNINIT (runtime_data p);
    platform_data := platform_data p;
    memory_data :=
      if TFM_LVL =? 1 then memory_data p
      else {| code_start := code_start (memory_data p); code_limit := code_limit (memory_data p);
              ro_start := ro_start (memory_data p); ro_limit := ro_limit (memory_data p);
              rw_start := Stack_Mem; rw_limit := rw_limit (memory_data p);
              zi_start := zi_start (memory_data p); zi_limit := zi_limit (memory_data p);
              stack_bottom := Stack_Mem; stack_top := Stack_top |} |}).

Definition declare_core : TM bool :=
  add_partition (fun p => {|
    static_data := init_static TFM_SP_CORE_ID (Z.lor SPM_PART_FLAG_SECURE SPM_PART_FLAG_TRUSTED)
                     (static_data p);
    runtime_data := set_part_state SPM_PARTITION_STATE_UNINIT (runtime_data p);
    platform_data := platform_data p;
    memory_data := memory_data p |}).

(** [PARTITION_DECLARE] *)
Definition partition_declare (id flags : Z) (md : tfm_spm_partition_memory_data_t) : TM bool :=
  add_partition (fun p => {|
    static_data := init_static id flags (static_data p);
    runtime_data :=
      let r := set_part_state SPM_PARTITION_STATE_UNINIT (runtime_data p) in
      if TFM_LVL =? 1 then r else set_stack_ptr (stack_top md) r;
    platform_data := platform_data p;
    memory_data := if TFM_LVL =? 1 then memory_data p else md |}).

(** [PARTITION_ADD_INIT_FUNC] *)
Definition partition_add_init_func (id init_func : Z) : TM unit :=
  idx <- get_partition_idx id ;;
  part_update idx (fun p => {|
    static_data := {| partition_id := partition_id (static_data p);
                      partition_flags := partition_flags (static_data p);
                      partition_init := init_func |};
    runtime_data := runtime_data p; platform_data := platform_data p; memory_data := memory_data p |}).

(** [PARTITION_ADD_PERIPHERAL] *)
Definition partition_add_peripheral (id : Z) (peripheral : tfm_spm_partition_platform_data_t) : TM unit :=
  idx <- get_partition_idx id ;;
  part_update idx (fun p => {|
    static_data := static_data p; runtime_data := runtime_data p;
    platform_data := Some peripheral; memory_data := memory_data p |}).

(** A user partition of [tfm_partition_list.inc]: the arguments of the macros
    that declare it. *)
Record partition_decl := {
  decl_id : Z;
  decl_flags : Z;
  decl_init : Z;
  decl_periph : option tfm_spm_partition_platform_data_t;
  decl_mem : tfm_spm_partition_memory_data_t;
}.

Fixpoint declare_user_partitions (l : list partition_decl) : TM bool :=
  match l with
  | [] => ret true
  | d :: l =>
      ok <- partition_declare (decl_id d) (decl_flags d) (decl_mem d) ;;
      if (ok : bool)
      then
        partition_add_init_func (decl_id d) (decl_init d) ;;
        match decl_periph d with
        | Some pd => partition_add_peripheral (decl_id d) pd
        | None => ret tt
        end ;;
        declare_user_partitions l
      else ret false
  end.

Definition tfm_spm_db_init (user_partitions : list partition_decl) : TM Z :=
  modify (set_db (fun _ => {| is_init := 0; partition_count := 0;
                              running_partition_idx := SPM_INVALID_PARTITION_IDX;
                              partitions := replicate (Z.to_nat SPM_MAX_PARTITIONS) zero_desc |})) ;;
  ok <- declare_non_secure ;;
  if negb ok then ret SPM_ERR_INVALID_CONFIG
  else
    ok <- declare_core ;;
    if negb ok then ret SPM_ERR_INVALID_CONFIG
    else
      ok <- declare_user_partitions user_partitions ;;
      if negb ok then ret SPM_ERR_INVALID_CONFIG
      else
        modify (set_db (fun db => {| is_init := 1; partition_count := partition_count db;
                                     running_partition_idx := running_partition_idx db;
                                     partitions := partitions db |})) ;;
        ret SPM_ERR_OK.

(** ** Getters and setters *)

Definition tfm_spm_partition_sandbox_config (partition_idx : Z) : TM Z :=
  init <- gets (fun s => is_init (g_spm_partition_db s)) ;;
  if init =? 0 then ret SPM_ERR_PARTITION_DB_NOT_INIT
  else
    part <- part_at partition_idx ;;
    lift_hw (tfm_spm_hal_partition_sandbox_config (memory_data part) (platform_data part)).

Definition tfm_spm_partition_sandbox_deconfig (partition_idx : Z) : TM Z :=
  part <- part_at partition_idx ;;
  lift_hw (tfm_spm_hal_partition_sandbox_deconfig (platform_data part)).

Definition tfm_spm_partition_get_stack_bottom (partition_idx : Z) : TM Z :=
  p <- part_at partition_idx ;; ret (stack_bottom (memory_data p)).

Definition tfm_spm_partition_get_stack_top (partition_idx : Z) : TM Z :=
  p <- part_at partition_idx ;; ret (stack_top (memory_data p)).

Definition tfm_spm_partition_set_stack (partition_idx stack_ptr_ : Z) : TM unit :=
  part_update partition_idx (set_runtime (set_stack_ptr stack_ptr_)).

Definition tfm_spm_partition_get_partition_id (partition_idx : Z) : TM Z :=
  p <- part_at partition_idx ;; ret (partition_id (static_data p)).

Definition tfm_spm_partition_get_flags (partition_idx : Z) : TM Z :=
  p <- part_at partition_idx ;; ret (partition_flags (static_data p)).

(** The result is a pointer into the table; callers read it at once or after
    calls that do not change the entry. *)
Definition tfm_spm_partition_get_runtime_data (partition_idx : Z) : TM spm_partition_runtime_data_t :=
  p <- part_at partition_idx ;; ret (runtime_data p).

Definition tfm_spm_partition_set_state (partition_idx state : Z) : TM unit :=
  part_update partition_idx (set_runtime (set_part_state state)) ;;
  if state =? SPM_PARTITION_STATE_RUNNING
  then modify (set_db (set_running partition_idx))
  else ret tt.

Definition tfm_spm_partition_set_caller_partition_idx (partition_idx caller : Z) : TM unit :=
  part_update partition_idx (set_runtime (fun r => {|
    partition_state := partition_state r; caller_partition_idx := caller; orig_psp := orig_psp r;
    orig_psplim := orig_psplim r; orig_lr := orig_lr r; share := share r; stack_ptr := stack_ptr r |})).

Definition tfm_spm_partition_set_orig_psp (partition_idx v : Z) : TM unit :=
  part_update partition_idx (set_runtime (fun r => {|
    partition_state := partition_state r; caller_partition_idx := caller_partition_idx r; orig_psp := v;
    orig_psplim := orig_psplim r; orig_lr := orig_lr r; share := share r; stack_ptr := stack_ptr r |})).

Definition tfm_spm_partition_set_orig_psplim (partition_idx v : Z) : TM unit :=
  part_update partition_idx (set_runtime (fun r => {|
    partition_state := partition_state r; caller_partition_idx := caller_partition_idx r; orig_psp := orig_psp r;
    orig_psplim := v; orig_lr := orig_lr r; share := share r; stack_ptr := stack_ptr r |})).

Definition tfm_spm_partition_set_orig_lr (partition_idx v : Z) : TM unit :=
  part_update partition_idx (set_runtime (fun r => {|
    partition_state := partition_state r; caller_partition_idx := caller_partition_idx r; orig_psp := orig_psp r;
    orig_psplim := orig_psplim r; orig_lr := v; share := share r; stack_ptr := stack_ptr r |})).

Definition tfm_spm_partition_set_share (partition_idx share_ : Z) : TM Z :=
  ret_ <- (if TFM_LVL =? 1 then ret SPM_ERR_OK else lift_hw (tfm_spm_hal_set_share_region share_)) ;;
  (if ret_ =? SPM_ERR_OK
   then part_update partition_idx (set_runtime (fun r => {|
          partition_state := partition_state r; caller_partition_idx := caller_partition_idx r;
          orig_psp := orig_psp r; orig_psplim := orig_psplim r; orig_lr := orig_lr r;
          share := share_; stack_ptr := stack_ptr r |}))
   else ret tt) ;;
  ret ret_.

Definition tfm_spm_partition_get_running_partition_idx : TM Z :=
  gets (fun s => running_partition_idx (g_spm_partition_db s)).

Definition tfm_spm_partition_cleanup_context (partition_idx : Z) : TM unit :=
  part_update partition_idx (set_runtime (fun r => {|
    partition_state := partition_state r; caller_partition_idx := SPM_INVALID_PARTITION_IDX;
    orig_psp := 0; orig_psplim := 0; orig_lr := 0; share := 0; stack_ptr := stack_ptr r |})).

(** It passes the identifier of the partition where an index is expected. *)
Definition tfm_spm_partition_err_handler (partition : spm_partition_desc_t) : TM unit :=
  tfm_spm_partition_set_state (partition_id (static_data partition)) SPM_PARTITION_STATE_CLOSED.
End spm_api.
