(* ===== verification/SecureApi.v ===== *)
(** * Secure calls

    [secure_fw/core/tfm_secure_api.c], the veneer of [tfm_secure_api.h], the
    dispatch of [tfm_handler.c], the partition initialisation of [spm_api.c] and
    [main] of [tfm_core.c].

    A secure function is a program that makes secure calls and core requests and
    returns a value ([sfn_prog]); its own computation is of no interest here.
    The table [sfn_body] gives the program at each entry address.  Exception
    entry and return, which the source leaves to the processor, are written out:
    the stacking on the process stack, the active exception and the stack
    selection. *)

From S2P Require Import Prelude Mpu SpmHal Spm.

(** ** Constants *)

Definition TFM_SUCCESS : Z := 0.
Definition TFM_PARTITION_BUSY : Z := 2.
Definition TFM_ERROR_SECURE_DOMAIN_LOCKED : Z := 4.
Definition TFM_ERROR_INVALID_PARAMETER : Z := 5.
Definition TFM_ERROR_PARTITION_NON_REENTRANT : Z := 6.
Definition TFM_ERROR_NS_THREAD_MODE_CALL : Z := 7.
Definition TFM_ERROR_INVALID_EXC_MODE : Z := 8.
Definition TFM_SECURE_LOCK_FAILED : Z := 9.
Definition TFM_SECURE_UNLOCK_FAILED : Z := 10.
Definition TFM_ERROR_GENERIC : Z := 0x1F.
Definition TFM_PARTITION_SPECIFIC_ERROR_MIN : Z := 0x20.

Definition EXC_NUM_THREAD_MODE : Z := 0.
Definition EXC_NUM_SVCALL : Z := 11.
Definition EXC_RETURN_SECURE_STACK : Z := Z.shiftl 1 6.
Definition EXC_RETURN_STACK_PROCESS : Z := Z.shiftl 1 2.
Definition SVC_STACK_FRAME_SIZE : Z := 0x20.

Definition TFM_SVC_SFN_REQUEST : Z := 0.
Definition TFM_SVC_SFN_RETURN : Z := 1.
Definition TFM_SVC_VALIDATE_SECURE_CALLER : Z := 2.
Definition TFM_SVC_MEMORY_CHECK : Z := 3.
Definition TFM_SVC_SET_SHARE_AREA : Z := 4.
Definition TFM_SVC_PRINT : Z := 5.

Definition TFM_MEMORY_ACCESS_RW : Z := 2.
Definition TFM_NS_REGION_CODE : Z := 0.
Definition TFM_NS_REGION_DATA : Z := 1.

Definition SCB_AIRCR_VECTKEY_Msk : Z := 0xFFFF0000.
Definition SCB_AIRCR_VECTKEYSTAT_Msk : Z := 0xFFFF0000.
Definition SCB_AIRCR_PRIS_Msk : Z := Z.shiftl 1 14.
Definition SCB_SHCSR_SVCALLACT_Msk : Z := Z.shiftl 1 7.

Definition CMSE_MPU_UNPRIV : Z := 4.
Definition CMSE_MPU_READWRITE : Z := 1.
Definition CMSE_MPU_READ : Z := 8.

(** ** Data *)

Record tfm_sfn_req_s := {
  sp_id : Z;
  sfn : Z;
  args : Z * Z * Z * Z;
  exc_num : Z;
  ns_caller : bool;
}.

(** What the test target instruction says of an address. *)
Record cmse_address_info_t := {
  secure : bool;
  sau_region_valid : bool;
  sau_region : Z;
}.

(** The compiler's intrinsics that query the protection hardware. *)
Class cmse := {
  (** [cmse_check_address_range(p, size, flags) != NULL] *)
  cmse_check_address_range : hw_t -> Z -> Z -> Z -> bool;
  cmse_TT : hw_t -> Z -> cmse_address_info_t;
}.

(** What a secure function does: calls of other partitions through their
    veneers, requests to the core, and its return value. *)
Inductive sfn_prog :=
  | SfnReturn (v : Z)
  | SfnCall (id fn : Z) (a : Z * Z * Z * Z) (k : Z -> sfn_prog)
  | SfnValidateCaller (k : Z -> sfn_prog)
  | SfnMemoryCheck (ptr size access : Z) (k : Z -> sfn_prog)
  | SfnSetBufferArea (share : Z) (k : Z -> sfn_prog).

(** The stacked registers an SVC handler sees: [r0] to [r2], the descriptor
    [r0] points to ([None] for NULL), and the immediate of the SVC instruction
    before the stacked return address. *)
Record svc_frame := {
  svc_r0 : Z;
  svc_r1 : Z;
  svc_r2 : Z;
  svc_desc : option tfm_sfn_req_s;
  svc_imm : Z;
}.

(** A 32-bit word read as a signed integer. *)
Definition s32 (x : Z) : Z := (x + 2 ^ 31) mod 2 ^ 32 - 2 ^ 31.

(** ** Processor registers *)

Definition set_PSP (v : Z) : TM unit :=
  modify (set_cpu (fun c => {| PSP := v; PSPLIM := PSPLIM c; CONTROL_nPRIV := CONTROL_nPRIV c;
    CONTROL_SPSEL := CONTROL_SPSEL c; IPSR := IPSR c; PRIMASK := PRIMASK c; SHCSR := SHCSR c;
    AIRCR_low := AIRCR_low c |})).
Definition set_PSPLIM (v : Z) : TM unit :=
  modify (set_cpu (fun c => {| PSP := PSP c; PSPLIM := v; CONTROL_nPRIV := CONTROL_nPRIV c;
    CONTROL_SPSEL := CONTROL_SPSEL c; IPSR := IPSR c; PRIMASK := PRIMASK c; SHCSR := SHCSR c;
    AIRCR_low := AIRCR_low c |})).
Definition set_nPRIV (v : Z) : TM unit :=
  modify (set_cpu (fun c => {| PSP := PSP c; PSPLIM := PSPLIM c; CONTROL_nPRIV := v;
    CONTROL_SPSEL := CONTROL_SPSEL c; IPSR := IPSR c; PRIMASK := PRIMASK c; SHCSR := SHCSR c;
    AIRCR_low := AIRCR_low c |})).
Definition set_SPSEL (v : Z) : TM unit :=
  modify (set_cpu (fun c => {| PSP := PSP c; PSPLIM := PSPLIM c; CONTROL_nPRIV := CONTROL_nPRIV c;
    CONTROL_SPSEL := v; IPSR := IPSR c; PRIMASK := PRIMASK c; SHCSR := SHCSR c;
    AIRCR_low := AIRCR_low c |})).
Definition set_IPSR (v : Z) : TM unit :=
  modify (set_cpu (fun c => {| PSP := PSP c; PSPLIM := PSPLIM c; CONTROL_nPRIV := CONTROL_nPRIV c;
    CONTROL_SPSEL := CONTROL_SPSEL c; IPSR := v; PRIMASK := PRIMASK c; SHCSR := SHCSR c;
    AIRCR_low := AIRCR_low c |})).
Definition set_PRIMASK (v : Z) : TM unit :=
  modify (set_cpu (fun c => {| PSP := PSP c; PSPLIM := PSPLIM c; CONTROL_nPRIV := CONTROL_nPRIV c;
    CONTROL_SPSEL := CONTROL_SPSEL c; IPSR := IPSR c; PRIMASK := v; SHCSR := SHCSR c;
    AIRCR_low := AIRCR_low c |})).
Definition set_SHCSR (v : Z) : TM unit :=
  modify (set_cpu (fun c => {| PSP := PSP c; PSPLIM := PSPLIM c; CONTROL_nPRIV := CONTROL_nPRIV c;
    CONTROL_SPSEL := CONTROL_SPSEL c; IPSR := IPSR c; PRIMASK := PRIMASK c; SHCSR := v;
    AIRCR_low := AIRCR_low c |})).

(** [AIRCR] reads with the key status in its upper half and ignores a write
    without the key. *)
Definition get_AIRCR : TM Z :=
  gets (fun s => Z.lor 0xFA050000 (AIRCR_low (cpu s))).
Definition set_AIRCR (v : Z) : TM unit :=
  if Z.shiftr v 16 =? 0x05FA
  then modify (set_cpu (fun c => {| PSP := PSP c; PSPLIM := PSPLIM c; CONTROL_nPRIV := CONTROL_nPRIV c;
         CONTROL_SPSEL := CONTROL_SPSEL c; IPSR := IPSR c; PRIMASK := PRIMASK c; SHCSR := SHCSR c;
         AIRCR_low := Z.land v 0xFFFF |}))
  else ret tt.

Definition disable_irq : TM unit := set_PRIMASK 1.
Definition enable_irq : TM unit := set_PRIMASK 0.

Definition get_PSP : TM Z := gets (fun s => PSP (cpu s)).
Definition read_word (a : Z) : TM Z := gets (fun s => stack_word s a).
Definition write_word (a v : Z) : TM unit := modify (set_words (fun w => upd w a v)).

Section secure_api.
  Context {Layout : tfm_layout} {Cmse : cmse}.

Definition TFM_ERROR_STATUS (status : Z) : Z :=
  if TFM_CORE_DEBUG then status else TFM_PARTITION_BUSY.

(** It loops forever. *)
Definition tfm_secure_api_error_handler {A} : TM A := fail TFM_HALTED.

Definition has_flag (flags flag : Z) : bool := negb (Z.land flags flag =? 0).

Definition prepare_partition_ctx (desc : tfm_sfn_req_s) (dst : Z) : TM Z :=
  let '(a0, a1, a2, a3) := args desc in
  write_word (u32 (dst - 4)) 0x01000000 ;;
  write_word (u32 (dst - 8)) (sfn desc) ;;
  write_word (u32 (dst - 12)) tfm_core_partition_return_svc ;;
  write_word (u32 (dst - 16)) 0 ;;
  write_word (u32 (dst - 20)) (u32 a3) ;;
  write_word (u32 (dst - 24)) (u32 a2) ;;
  write_word (u32 (dst - 28)) (u32 a1) ;;
  write_word (u32 (dst - 32)) (u32 a0) ;;
  ret (u32 (dst - 32)).

(** The checks on the state of the called partition: [None] when the call goes
    on, with thread mode made unprivileged for an untrusted partition. *)
Definition push_lock_state_check (caller_partition_idx partition_state_ partition_flags_ : Z) : TM (option Z) :=
  init <- gets tfm_secure_api_init ;;
  caller_id <- tfm_spm_partition_get_partition_id caller_partition_idx ;;
  if negb (init =? 0) && (caller_id =? TFM_SP_CORE_ID)
     && (partition_state_ =? SPM_PARTITION_STATE_UNINIT)
  then
    (if negb (TFM_LVL =? 1) && negb (has_flag partition_flags_ SPM_PART_FLAG_TRUSTED)
     then set_nPRIV 1 else ret tt) ;;
    ret None
  else if (partition_state_ =? SPM_PARTITION_STATE_RUNNING)
       || (partition_state_ =? SPM_PARTITION_STATE_SUSPENDED)
       || (partition_state_ =? SPM_PARTITION_STATE_BLOCKED)
  then ret (Some TFM_ERROR_PARTITION_NON_REENTRANT)
  else if negb (partition_state_ =? SPM_PARTITION_STATE_IDLE)
  then ret (Some TFM_SECURE_LOCK_FAILED)
  else ret None.

Definition tfm_push_lock (desc : tfm_sfn_req_s) (lr : Z) : TM Z :=
  caller_partition_idx <- tfm_spm_partition_get_running_partition_idx ;;
  if caller_partition_idx =? SPM_INVALID_PARTITION_IDX then ret TFM_SECURE_LOCK_FAILED else
  caller_flags <- tfm_spm_partition_get_flags caller_partition_idx ;;
  if negb (Bool.eqb (has_flag caller_flags SPM_PART_FLAG_SECURE) (negb (ns_caller desc)))
  then ret TFM_SECURE_LOCK_FAILED else
  partition_idx <- get_partition_idx (sp_id desc) ;;
  psp <- get_PSP ;;
  curr_part_data <- tfm_spm_partition_get_runtime_data partition_idx ;;
  partition_flags_ <- tfm_spm_partition_get_flags partition_idx ;;
  refused <- push_lock_state_check caller_partition_idx (partition_state curr_part_data) partition_flags_ ;;
  match refused with
  | Some res => ret res
  | None =>
  (if negb (TFM_LVL =? 1) && has_flag caller_flags SPM_PART_FLAG_SECURE
   then tfm_spm_partition_set_stack caller_partition_idx psp else ret tt) ;;
  curr_part_data <- tfm_spm_partition_get_runtime_data partition_idx ;;
  stack_bottom_ <- tfm_spm_partition_get_stack_bottom partition_idx ;;
  let partition_psp := if TFM_LVL =? 1 then TFM_SECURE_STACK_Limit else stack_ptr curr_part_data in
  let partition_psplim := if TFM_LVL =? 1 then TFM_SECURE_STACK_Base else stack_bottom_ in
  tfm_spm_partition_set_orig_psp partition_idx psp ;;
  psplim <- gets (fun s => PSPLIM (cpu s)) ;;
  tfm_spm_partition_set_orig_psplim partition_idx psplim ;;
  tfm_spm_partition_set_orig_lr partition_idx lr ;;
  tfm_spm_partition_set_caller_partition_idx partition_idx caller_partition_idx ;;
  (if negb (TFM_LVL =? 1) && negb (TFM_LVL =? 2)
   then
     tfm_spm_partition_sandbox_deconfig caller_partition_idx ;;
     r <- tfm_spm_partition_sandbox_config partition_idx ;;
     if negb (r =? SPM_ERR_OK) then tfm_secure_api_error_handler else ret tt
   else ret tt) ;;
  tfm_spm_partition_set_share partition_idx
    (if ns_caller desc then TFM_BUFFER_SHARE_NS_CODE else TFM_BUFFER_SHARE_SCRATCH) ;;
  init <- gets tfm_secure_api_init ;;
  (if negb (TFM_LVL =? 1) || negb (exc_num desc =? EXC_NUM_THREAD_MODE) || negb (init =? 0)
   then
     psp <- prepare_partition_ctx desc partition_psp ;;
     set_PSP psp ;;
     set_PSPLIM partition_psplim
   else ret tt) ;;
  tfm_spm_partition_set_state caller_partition_idx SPM_PARTITION_STATE_BLOCKED ;;
  tfm_spm_partition_set_state partition_idx SPM_PARTITION_STATE_RUNNING ;;
  modify (set_lock (fun n => s32 (n + 1))) ;;
  ret TFM_SUCCESS
  end.

(** The word [lr_ptr] points to is passed and returned; [None] is NULL, which
    must not be written. *)
Definition tfm_pop_lock (lr_ptr : option Z) : TM (Z * option Z) :=
  current_partition_idx <- tfm_spm_partition_get_running_partition_idx ;;
  if current_partition_idx =? SPM_INVALID_PARTITION_IDX then ret (TFM_SECURE_UNLOCK_FAILED, lr_ptr) else
  curr_part_data <- tfm_spm_partition_get_runtime_data current_partition_idx ;;
  let return_partition_idx := caller_partition_idx curr_part_data in
  if return_partition_idx =? SPM_INVALID_PARTITION_IDX then ret (TFM_SECURE_UNLOCK_FAILED, lr_ptr) else
  return_partition_flags <- tfm_spm_partition_get_flags return_partition_idx ;;
  current_partition_flags <- tfm_spm_partition_get_flags current_partition_idx ;;
  modify (set_lock (fun n => s32 (n - 1))) ;;
  init <- gets tfm_secure_api_init ;;
  (if negb (TFM_LVL =? 1) && negb (TFM_LVL =? 2)
   then
     tfm_spm_partition_sandbox_deconfig current_partition_idx ;;
     if negb (init =? 0)
     then
       if negb (has_flag current_partition_flags SPM_PART_FLAG_TRUSTED) then set_nPRIV 0 else ret tt
     else
       r <- tfm_spm_partition_sandbox_config return_partition_idx ;;
       if negb (r =? SPM_ERR_OK) then tfm_secure_api_error_handler
       else if has_flag return_partition_flags SPM_PART_FLAG_SECURE
       then
         rd <- tfm_spm_partition_get_runtime_data return_partition_idx ;;
         tfm_spm_partition_set_share return_partition_idx (share rd) ;; ret tt
       else ret tt
   else ret tt) ;;
  lr' <-
    (if TFM_LVL =? 1
     then
       if negb (has_flag return_partition_flags SPM_PART_FLAG_SECURE) || negb (init =? 0)
       then
         rd <- tfm_spm_partition_get_runtime_data current_partition_idx ;;
         set_PSP (orig_psp rd) ;;
         set_PSPLIM (orig_psplim rd) ;;
         match lr_ptr with Some _ => ret (Some (orig_lr rd)) | None => fault end
       else ret lr_ptr
     else
       psp <- get_PSP ;;
       tfm_spm_partition_set_stack current_partition_idx (u32 (psp + SVC_STACK_FRAME_SIZE)) ;;
       rd <- tfm_spm_partition_get_runtime_data current_partition_idx ;;
       set_PSP (orig_psp rd) ;;
       set_PSPLIM (orig_psplim rd) ;;
       match lr_ptr with Some _ => ret (Some (orig_lr rd)) | None => fault end) ;;
  tfm_spm_partition_cleanup_context current_partition_idx ;;
  tfm_spm_partition_set_state current_partition_idx SPM_PARTITION_STATE_IDLE ;;
  tfm_spm_partition_set_caller_partition_idx current_partition_idx SPM_INVALID_PARTITION_IDX ;;
  tfm_spm_partition_set_state return_partition_idx SPM_PARTITION_STATE_RUNNING ;;
  ret (TFM_SUCCESS, lr').

Definition tfm_check_sfn_req_integrity (desc_ptr : option tfm_sfn_req_s) : Z :=
  match desc_ptr with
  | None => TFM_ERROR_INVALID_PARAMETER
  | Some desc =>
      if (sp_id desc =? 0) || (sfn desc =? 0) then TFM_ERROR_INVALID_PARAMETER else TFM_SUCCESS
  end.

Definition tfm_core_check_sfn_req_rules (desc : tfm_sfn_req_s) : TM Z :=
  if negb (exc_num desc =? EXC_NUM_THREAD_MODE) && negb (exc_num desc =? EXC_NUM_SVCALL)
  then ret TFM_ERROR_INVALID_EXC_MODE
  else if ns_caller desc
  then
    if exc_num desc =? EXC_NUM_THREAD_MODE then ret TFM_ERROR_NS_THREAD_MODE_CALL
    else
      lock <- gets tfm_secure_lock ;;
      if negb (lock =? 0) then ret TFM_ERROR_SECURE_DOMAIN_LOCKED else ret TFM_SUCCESS
  else
    if negb (exc_num desc =? EXC_NUM_THREAD_MODE) then ret TFM_ERROR_INVALID_EXC_MODE
    else ret TFM_SUCCESS.

(** Built with [TFM_API_DEPRIORITIZE]. *)
Definition tfm_core_configure_secure_exception : TM Z :=
  aircr <- get_AIRCR ;;
  modify (set_ns_AIRCR (fun _ => aircr)) ;;
  let VECTKEY := Z.land (u32 (Z.lnot aircr)) SCB_AIRCR_VECTKEYSTAT_Msk in
  shcsr <- gets (fun s => SHCSR (cpu s)) ;;
  set_SHCSR (Z.lor shcsr SCB_SHCSR_SVCALLACT_Msk) ;;
  set_AIRCR (Z.lor (Z.lor SCB_AIRCR_PRIS_Msk VECTKEY)
                   (Z.land aircr (u32 (Z.lnot SCB_AIRCR_VECTKEY_Msk)))) ;;
  ret TFM_SUCCESS.

Definition tfm_core_deconfigure_secure_exception : TM Z :=
  aircr <- gets ns_state_AIRCR ;;
  let VECTKEY := Z.land (u32 (Z.lnot aircr)) SCB_AIRCR_VECTKEYSTAT_Msk in
  set_AIRCR (Z.land (u32 (Z.lnot SCB_AIRCR_PRIS_Msk))
                    (Z.lor VECTKEY (Z.land aircr (u32 (Z.lnot SCB_AIRCR_VECTKEY_Msk))))) ;;
  shcsr <- gets (fun s => SHCSR (cpu s)) ;;
  set_SHCSR (Z.land shcsr (u32 (Z.lnot SCB_SHCSR_SVCALLACT_Msk))) ;;
  set_SPSEL 1 ;;
  ret TFM_SUCCESS.

Definition tfm_secure_api_init_done : TM unit :=
  modify (set_api_init (fun _ => 0)) ;;
  if negb (TFM_LVL =? 1)
  then
    r <- tfm_spm_partition_sandbox_config TFM_SP_NON_SECURE_ID ;;
    if negb (r =? SPM_ERR_OK) then tfm_secure_api_error_handler else ret tt
  else ret tt.

(** ** Handlers of the core requests *)

Definition tfm_core_validate_secure_caller_handler (f : svc_frame) : TM Z :=
  running_partition_idx_ <- tfm_spm_partition_get_running_partition_idx ;;
  curr_part_data <- tfm_spm_partition_get_runtime_data running_partition_idx_ ;;
  running_partition_flags <- tfm_spm_partition_get_flags running_partition_idx_ ;;
  caller_partition_flags <- tfm_spm_partition_get_flags (caller_partition_idx curr_part_data) ;;
  if negb (has_flag running_partition_flags SPM_PART_FLAG_SECURE)
  then ret TFM_ERROR_INVALID_PARAMETER
  else if has_flag caller_partition_flags SPM_PART_FLAG_SECURE
  then ret TFM_SUCCESS
  else ret TFM_ERROR_GENERIC.

(** The buffer range secure memory is limited to, in [range_check]. *)
Definition secure_range_ok (ptr size : Z) : bool :=
  let max_buf_size := if TFM_LVL =? 1 then S_DATA_SIZE
                      else u32 (TFM_UNPRIV_SCRATCH_Limit - TFM_UNPRIV_SCRATCH_Base) in
  let ptr_start := if TFM_LVL =? 1 then S_DATA_START else TFM_UNPRIV_SCRATCH_Base in
  let range_limit := if TFM_LVL =? 1 then u32 (S_DATA_START + S_DATA_SIZE - 1)
                     else u32 (TFM_UNPRIV_SCRATCH_Base
                               + u32 (TFM_UNPRIV_SCRATCH_Limit - TFM_UNPRIV_SCRATCH_Base) - 1) in
  (size <=? max_buf_size) && (ptr_start <=? ptr) && (ptr <=? u32 (range_limit + 1 - size)).

Definition tfm_core_memory_permission_check_handler (f : svc_frame) : TM Z :=
  let ptr := svc_r0 f in
  let size := svc_r1 f in
  let access := svc_r2 f in
  running_partition_idx_ <- tfm_spm_partition_get_running_partition_idx ;;
  curr_part_data <- tfm_spm_partition_get_runtime_data running_partition_idx_ ;;
  running_partition_flags <- tfm_spm_partition_get_flags running_partition_idx_ ;;
  if negb (has_flag running_partition_flags SPM_PART_FLAG_SECURE) || (size =? 0)
  then ret TFM_ERROR_INVALID_PARAMETER
  else
  let flags := Z.lor (if negb (share curr_part_data =? TFM_BUFFER_SHARE_PRIV) then CMSE_MPU_UNPRIV else 0)
                     (if access =? TFM_MEMORY_ACCESS_RW then CMSE_MPU_READWRITE else CMSE_MPU_READ) in
  rangeptr <- gets (fun s => cmse_check_address_range (hw s) ptr size flags) ;;
  addr_info <- gets (fun s => cmse_TT (hw s) ptr) ;;
  if negb rangeptr then ret TFM_ERROR_INVALID_PARAMETER
  else if secure addr_info
  then if secure_range_ok ptr size then ret TFM_SUCCESS else ret TFM_ERROR_INVALID_PARAMETER
  else if negb (sau_region_valid addr_info) then ret TFM_ERROR_INVALID_PARAMETER
  else if sau_region addr_info =? TFM_NS_REGION_CODE
  then if access =? TFM_MEMORY_ACCESS_RW then ret TFM_ERROR_INVALID_PARAMETER else ret TFM_SUCCESS
  else if sau_region addr_info =? TFM_NS_REGION_DATA then ret TFM_SUCCESS
  else ret TFM_ERROR_INVALID_PARAMETER.

Definition tfm_core_set_buffer_area_handler (f : svc_frame) : TM Z :=
  running_partition_idx_ <- tfm_spm_partition_get_running_partition_idx ;;
  curr_part_data <- tfm_spm_partition_get_runtime_data running_partition_idx_ ;;
  running_partition_flags <- tfm_spm_partition_get_flags running_partition_idx_ ;;
  caller_partition_flags <- tfm_spm_partition_get_flags (caller_partition_idx curr_part_data) ;;
  if negb (has_flag running_partition_flags SPM_PART_FLAG_SECURE)
  then ret TFM_ERROR_INVALID_PARAMETER
  else
  let share_ :=
    if svc_r0 f =? TFM_BUFFER_SHARE_DEFAULT
    then Some (if negb (has_flag caller_partition_flags SPM_PART_FLAG_SECURE)
               then TFM_BUFFER_SHARE_NS_CODE else TFM_BUFFER_SHARE_SCRATCH)
    else if (svc_r0 f =? TFM_BUFFER_SHARE_SCRATCH) || (svc_r0 f =? TFM_BUFFER_SHARE_NS_CODE)
    then Some (svc_r0 f)
    else None in
  match share_ with
  | None => ret TFM_ERROR_INVALID_PARAMETER
  | Some sh =>
      r <- tfm_spm_partition_set_share running_partition_idx_ sh ;;
      if r =? SPM_ERR_OK then ret TFM_SUCCESS else ret TFM_ERROR_INVALID_PARAMETER
  end.

(** The link register on entry to a handler from secure thread mode. *)
Definition exc_return_value (spsel : Z) : Z := if spsel =? 0 then 0xFFFFFFF9 else 0xFFFFFFFD.

Definition tfm_core_partition_return_handler (lr : Z) : TM (Z * Z) :=
  disable_irq ;;
  if Z.land lr EXC_RETURN_STACK_PROCESS =? 0 then tfm_secure_api_error_handler else
  psp <- get_PSP ;;
  w <- read_word psp ;;
  let retVal := s32 w in
  if negb ((retVal =? TFM_SUCCESS) || (retVal =? TFM_PARTITION_BUSY))
     && ((TFM_SUCCESS <? retVal) && (retVal <? TFM_PARTITION_SPECIFIC_ERROR_MIN))
  then tfm_secure_api_error_handler else
  r <- tfm_pop_lock (Some lr) ;;
  let '(res, lr') := r in
  if negb (res =? TFM_SUCCESS) then tfm_secure_api_error_handler else
  let lr' := default lr lr' in
  if negb (lr' =? Z.lor return_from_sfn 1) then tfm_secure_api_error_handler else
  enable_irq ;;
  ret (retVal, lr').

(** ** Secure calls, over the execution of secure functions

    [run_sfn a args] runs the secure function at address [a] in thread mode up
    to its return and gives the value returned. *)
Section calls.
  Context (run_sfn : Z -> Z * Z * Z * Z -> TM Z).

(** The processor returns from the exception with [0xFFFFFFFD]: it unstacks the
    frame of the partition and runs the secure function in thread mode; the
    function returns to [tfm_core_partition_return_svc], whose SVC stacks a
    frame with the returned value in [r0] and enters the return handler, which
    comes back to the label [return_from_sfn], in handler mode.  In thread mode
    the branch to [0xFFFFFFFD] is a fault. *)
Definition tfm_core_exc_return_to_sfn : TM Z :=
  ipsr <- gets (fun s => IPSR (cpu s)) ;;
  if ipsr =? 0 then fault else
  psp <- get_PSP ;;
  a0 <- read_word psp ;;
  a1 <- read_word (u32 (psp + 4)) ;;
  a2 <- read_word (u32 (psp + 8)) ;;
  a3 <- read_word (u32 (psp + 12)) ;;
  pc <- read_word (u32 (psp + 24)) ;;
  set_PSP (u32 (psp + SVC_STACK_FRAME_SIZE)) ;;
  set_SPSEL 1 ;;
  set_IPSR 0 ;;
  v <- run_sfn pc (s32 a0, s32 a1, s32 a2, s32 a3) ;;
  psp <- get_PSP ;;
  spsel <- gets (fun s => CONTROL_SPSEL (cpu s)) ;;
  let psp := u32 (psp - SVC_STACK_FRAME_SIZE) in
  set_PSP psp ;;
  write_word psp (u32 v) ;;
  set_SPSEL 0 ;;
  set_IPSR EXC_NUM_SVCALL ;;
  r <- tfm_core_partition_return_handler (exc_return_value spsel) ;;
  ret (fst r).

Definition tfm_core_call_sfn (desc : tfm_sfn_req_s) : TM Z :=
  init <- gets tfm_secure_api_init ;;
  if (TFM_LVL =? 1) && (exc_num desc =? EXC_NUM_THREAD_MODE) && (init =? 0)
  then
    retVal <- run_sfn (sfn desc) (args desc) ;;
    r <- tfm_pop_lock None ;;
    if fst r =? TFM_SUCCESS then ret retVal else tfm_secure_api_error_handler
  else tfm_core_exc_return_to_sfn.

Definition tfm_core_sfn_request_function (desc_ptr : option tfm_sfn_req_s) : TM Z :=
  let res := tfm_check_sfn_req_integrity desc_ptr in
  match desc_ptr with
  | None => ret (TFM_ERROR_STATUS res)
  | Some desc =>
  if negb (res =? TFM_SUCCESS) then ret (TFM_ERROR_STATUS res) else
  disable_irq ;;
  res <- tfm_core_check_sfn_req_rules desc ;;
  if negb (res =? TFM_SUCCESS) then enable_irq ;; ret (TFM_ERROR_STATUS res) else
  res <- tfm_push_lock desc (Z.lor return_from_sfn 1) ;;
  if negb (res =? TFM_SUCCESS) then enable_irq ;; ret (TFM_ERROR_STATUS res) else
  (if ns_caller desc then tfm_core_configure_secure_exception ;; ret tt else ret tt) ;;
  enable_irq ;;
  res <- tfm_core_call_sfn desc ;;
  (if ns_caller desc
   then disable_irq ;; tfm_core_deconfigure_secure_exception ;; enable_irq
   else ret tt) ;;
  ret res
  end.

Definition tfm_core_partition_request_svc_handler (f : svc_frame) (lr : Z) : TM Z :=
  if Z.land lr EXC_RETURN_STACK_PROCESS =? 0 then tfm_secure_api_error_handler else
  let desc_ptr := svc_desc f in
  let res := tfm_check_sfn_req_integrity desc_ptr in
  match desc_ptr with
  | None => ret (TFM_ERROR_STATUS res)
  | Some desc =>
      if negb (res =? TFM_SUCCESS) then ret (TFM_ERROR_STATUS res)
      else if negb (exc_num desc =? EXC_NUM_THREAD_MODE)
      then ret (TFM_ERROR_STATUS TFM_ERROR_INVALID_PARAMETER)
      else tfm_core_sfn_request_function desc_ptr
  end.

(** The result, the word written to [svc_args[0]] if any, and the link register
    the exception returns to. *)
Definition SVCHandler_main (f : svc_frame) (lr : Z) : TM (Z * option Z * Z) :=
  if Z.land lr EXC_RETURN_SECURE_STACK =? 0 then ret (TFM_ERROR_GENERIC, None, lr)
  else if svc_imm f =? TFM_SVC_SFN_REQUEST
  then r <- tfm_core_partition_request_svc_handler f lr ;; ret (TFM_SUCCESS, Some r, lr)
  else if svc_imm f =? TFM_SVC_SFN_RETURN
  then r <- tfm_core_partition_return_handler lr ;; ret (fst r, None, snd r)
  else if svc_imm f =? TFM_SVC_VALIDATE_SECURE_CALLER
  then r <- tfm_core_validate_secure_caller_handler f ;; ret (TFM_SUCCESS, Some r, lr)
  else if svc_imm f =? TFM_SVC_MEMORY_CHECK
  then r <- tfm_core_memory_permission_check_handler f ;; ret (TFM_SUCCESS, Some r, lr)
  else if svc_imm f =? TFM_SVC_SET_SHARE_AREA
  then r <- tfm_core_set_buffer_area_handler f ;; ret (TFM_SUCCESS, Some r, lr)
  else if svc_imm f =? TFM_SVC_PRINT then ret (TFM_SUCCESS, None, lr)
  else ret (TFM_ERROR_GENERIC, None, lr).

(** An SVC instruction in secure thread mode: the processor stacks the
    registers on the stack in use, the handler runs, and the exception return
    unstacks them; the value of [r0] afterwards is the result. *)
Definition svc (f : svc_frame) : TM Z :=
  psp <- get_PSP ;;
  spsel <- gets (fun s => CONTROL_SPSEL (cpu s)) ;;
  (if spsel =? 0 then ret tt else set_PSP (u32 (psp - SVC_STACK_FRAME_SIZE))) ;;
  set_SPSEL 0 ;;
  set_IPSR EXC_NUM_SVCALL ;;
  r <- SVCHandler_main f (exc_return_value spsel) ;;
  let '(_, w, lr) := r in
  if negb (lr =? exc_return_value spsel) then fault else
  psp <- get_PSP ;;
  (if spsel =? 0 then ret tt else set_PSP (u32 (psp + SVC_STACK_FRAME_SIZE))) ;;
  set_SPSEL spsel ;;
  set_IPSR 0 ;;
  ret (s32 (default (svc_r0 f) w)).

(** The veneer of a secure function, [ns] when non-secure code called it. *)
Definition tfm_core_partition_request (ns : bool) (id fn : Z) (a : Z * Z * Z * Z) : TM Z :=
  exc <- gets (fun s => IPSR (cpu s)) ;;
  let desc := {| sp_id := id; sfn := fn; args := a; ns_caller := ns; exc_num := exc |} in
  if negb (TFM_LVL =? 1) && (exc =? EXC_NUM_THREAD_MODE)
  then svc {| svc_r0 := 0; svc_r1 := 0; svc_r2 := 0; svc_desc := Some desc;
              svc_imm := TFM_SVC_SFN_REQUEST |}
  else tfm_core_sfn_request_function (Some desc).

(** The core requests of [tfm_unpriv_api.c]. *)
Definition core_svc (imm r0 r1 r2 : Z) : TM Z :=
  svc {| svc_r0 := r0; svc_r1 := r1; svc_r2 := r2; svc_desc := None; svc_imm := imm |}.
Definition tfm_core_memory_permission_check (ptr len access : Z) : TM Z :=
  core_svc TFM_SVC_MEMORY_CHECK ptr len access.
Definition tfm_core_validate_secure_caller : TM Z :=
  core_svc TFM_SVC_VALIDATE_SECURE_CALLER 0 0 0.
Definition tfm_core_set_buffer_area (share_ : Z) : TM Z :=
  core_svc TFM_SVC_SET_SHARE_AREA share_ 0 0.

(** The body of a secure function. *)
Fixpoint run_prog (p : sfn_prog) : TM Z :=
  match p with
  | SfnReturn v => ret v
  | SfnCall id fn a k => v <- tfm_core_partition_request false id fn a ;; run_prog (k v)
  | SfnValidateCaller k => v <- tfm_core_validate_secure_caller ;; run_prog (k v)
  | SfnMemoryCheck ptr size access k =>
      v <- tfm_core_memory_permission_check ptr size access ;; run_prog (k v)
  | SfnSetBufferArea sh k => v <- tfm_core_set_buffer_area sh ;; run_prog (k v)
  end.

(** ** Start of the system *)

(** The loop of [tfm_spm_partition_init], [n] partitions left; the count of
    failures is returned. *)
Fixpoint partition_init_loop (n : nat) (idx fail_cnt : Z) : TM Z :=
  match n with
  | O => ret fail_cnt
  | S n =>
      part <- part_at idx ;;
      modify (set_hw (tfm_spm_hal_configure_default_isolation (platform_data part))) ;;
      if partition_init (static_data part) =? 0
      then
        tfm_spm_partition_set_state idx SPM_PARTITION_STATE_IDLE ;;
        tfm_spm_partition_set_caller_partition_idx idx SPM_INVALID_PARTITION_IDX ;;
        partition_init_loop n (idx + 1) fail_cnt
      else
        let desc := {| args := (0, 0, 0, 0); exc_num := EXC_NUM_THREAD_MODE; ns_caller := false;
                       sfn := partition_init (static_data part);
                       sp_id := partition_id (static_data part) |} in
        r <- svc {| svc_r0 := 0; svc_r1 := 0; svc_r2 := 0; svc_desc := Some desc;
                    svc_imm := TFM_SVC_SFN_REQUEST |} ;;
        if r =? TFM_SUCCESS
        then
          tfm_spm_partition_set_state idx SPM_PARTITION_STATE_IDLE ;;
          partition_init_loop n (idx + 1) fail_cnt
        else
          part <- part_at idx ;;
          tfm_spm_partition_err_handler part ;;
          partition_init_loop n (idx + 1) (fail_cnt + 1)
  end.

Definition tfm_spm_partition_init : TM Z :=
  count <- gets (fun s => partition_count (g_spm_partition_db s)) ;;
  fail_cnt <- partition_init_loop (Z.to_nat count) 0 0 ;;
  tfm_secure_api_init_done ;;
  ret (if fail_cnt =? 0 then SPM_ERR_OK else SPM_ERR_PARTITION_NOT_AVAILABLE).

Definition tfm_spm_hal_setup_isolation_hw : TM unit :=
  if TFM_LVL =? 1 then ret tt
  else
    r <- lift_hw tfm_spm_mpu_init ;;
    if r =? SPM_ERR_OK then ret tt else tfm_secure_api_error_handler.

Definition jump_to_ns_code : TM unit :=
  if TFM_LVL =? 1 then ret tt else set_nPRIV 1.

(** [main], from the set-up of the partition database to the jump. *)
Definition main (user_partitions : list partition_decl) : TM unit :=
  tfm_spm_db_init user_partitions ;;
  tfm_spm_hal_setup_isolation_hw ;;
  tfm_spm_partition_set_state TFM_SP_CORE_ID SPM_PARTITION_STATE_RUNNING ;;
  set_PSPLIM Stack_Mem ;;
  tfm_spm_partition_init ;;
  tfm_spm_partition_set_state TFM_SP_CORE_ID SPM_PARTITION_STATE_CLOSED ;;
  tfm_spm_partition_set_state TFM_SP_NON_SECURE_ID SPM_PARTITION_STATE_RUNNING ;;
  jump_to_ns_code.
End calls.

(** Secure functions call each other: [fuel] bounds the nesting. *)
Fixpoint sfn_exec (sfn_body : Z -> Z * Z * Z * Z -> sfn_prog) (fuel : nat)
  (a : Z) (args_ : Z * Z * Z * Z) : TM Z :=
  match fuel with
  | O => fail TFM_NESTING
  | S n => run_prog (sfn_exec sfn_body n) (sfn_body a args_)
  end.
End secure_api.
