(* ===== verification/SecureApiSpec.v ===== *)
(** * Secure calls: the call chain and its invariant

    The partitions with a call in progress form a chain: the running partition,
    the partition that called it, and so on down to the non-secure side.  The
    invariant [chain_ok] says the database, the lock and the protection hardware
    agree with that chain; [tfm_push_lock] extends the chain by the called
    partition and [tfm_pop_lock] removes the running one. *)

From S2P Require Import Prelude Mpu SpmHal Spm SecureApi.

(** ** Runs of the table functions *)

Section table.
Abbreviation parts s := (partitions (g_spm_partition_db s)).

Lemma runs_part_at idx s p (Q : spm_partition_desc_t -> tfm_state -> Prop) :
  0 <= idx -> parts s !! Z.to_nat idx = Some p -> Q p s -> runs (part_at idx) s Q.
Proof.
  intros Hi Hp HQ. exists p, s. split; [|done]. unfold part_at. rewrite Hp.
  by rewrite (proj2 (Z.leb_le 0 idx) Hi).
Qed.

(** The table with entry [idx] changed. *)
Definition alter_part (idx : Z) (f : spm_partition_desc_t -> spm_partition_desc_t) (s : tfm_state) : tfm_state :=
  set_db (fun db => set_partitions (alter f (Z.to_nat idx) (partitions db)) db) s.

Lemma runs_part_update idx f s (Q : unit -> tfm_state -> Prop) :
  0 <= idx -> is_Some (parts s !! Z.to_nat idx) -> Q tt (alter_part idx f s) ->
  runs (part_update idx f) s Q.
Proof.
  intros Hi [p Hp] HQ. unfold part_update. apply runs_bind. eapply runs_part_at; [done..|].
  apply runs_modify. unfold alter_part in HQ.
  assert (alter f (Z.to_nat idx) (parts s) = <[Z.to_nat idx := f p]> (parts s)) as E.
  { apply list_eq. intros j. destruct (decide (j = Z.to_nat idx)) as [->|Hj].
    - rewrite list_lookup_alter_eq, Hp. simpl. rewrite list_lookup_insert_eq; [done|].
      by eapply lookup_lt_Some.
    - by rewrite list_lookup_alter_ne, list_lookup_insert_ne by congruence. }
  unfold set_db in *. by rewrite <- E.
Qed.
End table.

Abbreviation parts s := (partitions (g_spm_partition_db s)).

(** Entry [i] of the table. *)
Definition entry (s : tfm_state) (i : Z) : option spm_partition_desc_t :=
  if decide (0 <= i) then parts s !! Z.to_nat i else None.

Lemma entry_alter f idx s i : 0 <= idx ->
  entry (alter_part idx f s) i = if decide (i = idx) then f <$> entry s i else entry s i.
Proof.
  intros Hi. unfold entry, alter_part. simpl. case_decide; [|by case_decide].
  case_decide as E.
  - subst i. by rewrite list_lookup_alter_eq.
  - rewrite list_lookup_alter_ne; [done|lia].
Qed.

Lemma runs_part_at_entry idx s p (Q : spm_partition_desc_t -> tfm_state -> Prop) :
  entry s idx = Some p -> Q p s -> runs (part_at idx) s Q.
Proof.
  unfold entry. case_decide; [|done]. intros. by eapply runs_part_at.
Qed.

Lemma runs_part_update_entry idx f s (Q : unit -> tfm_state -> Prop) :
  is_Some (entry s idx) -> Q tt (alter_part idx f s) -> runs (part_update idx f) s Q.
Proof.
  unfold entry. case_decide; [|by intros [? [=]]]. intros. by apply runs_part_update.
Qed.

(** ** The database *)

Definition part_ids (s : tfm_state) : list Z :=
  (fun p => partition_id (static_data p)) <$>
    take (Z.to_nat (partition_count (g_spm_partition_db s))) (parts s).

Definition is_secure (p : spm_partition_desc_t) : bool :=
  has_flag (partition_flags (static_data p)) SPM_PART_FLAG_SECURE.

Section spec.
  Context {Layout : tfm_layout} {Cmse : cmse}.

(** The table is complete, the identifiers are distinct, and entry 0 is the
    only one that is not secure. *)
Record db_ok (s : tfm_state) : Prop := {
  db_is_init : is_init (g_spm_partition_db s) = 1;
  db_len : length (parts s) = Z.to_nat SPM_MAX_PARTITIONS;
  db_count : 2 <= partition_count (g_spm_partition_db s) <= SPM_MAX_PARTITIONS;
  db_ids : NoDup (part_ids s);
  db_valid_ids : INVALID_PARTITION_ID ∉ part_ids s;
  db_secure : forall i p, i < partition_count (g_spm_partition_db s) -> entry s i = Some p ->
    is_secure p = negb (i =? 0);
  db_sandbox : TFM_LVL = 3 -> forall i p, i < partition_count (g_spm_partition_db s) -> i <> TFM_SP_CORE_ID ->
    entry s i = Some p -> sandbox_ok (memory_data p) (platform_data p);
}.

Lemma entry_lt s i p : db_ok s -> entry s i = Some p -> 0 <= i < SPM_MAX_PARTITIONS.
Proof.
  intros Hdb. unfold entry. case_decide; [|done]. intros Hl. apply lookup_lt_Some in Hl.
  rewrite (db_len s Hdb) in Hl. lia.
Qed.

Lemma entry_is_Some s i : db_ok s -> 0 <= i < partition_count (g_spm_partition_db s) -> is_Some (entry s i).
Proof.
  intros Hdb Hi. unfold entry. rewrite decide_True by lia.
  apply lookup_lt_is_Some. rewrite (db_len s Hdb). pose proof (db_count s Hdb). lia.
Qed.

Lemma part_ids_lookup s i p :
  0 <= i < partition_count (g_spm_partition_db s) -> entry s i = Some p ->
  part_ids s !! Z.to_nat i = Some (partition_id (static_data p)).
Proof.
  intros Hi. unfold entry. rewrite decide_True by lia. intros Hp.
  unfold part_ids. rewrite list_lookup_fmap, lookup_take_lt, Hp by lia. done.
Qed.

(** The search loop finds the partition with the identifier. *)
Lemma get_partition_idx_loop_spec n i id s t p :
  (forall j, i <= j <= t -> is_Some (entry s j)) ->
  (forall j q, i <= j < t -> entry s j = Some q -> partition_id (static_data q) <> id) ->
  entry s t = Some p -> partition_id (static_data p) = id ->
  i <= t < i + Z.of_nat n ->
  get_partition_idx_loop n i id s = (Ok t, s).
Proof.
  revert i. induction n as [|n IH]; intros i Hs Hne Ht Hid Hr; [lia|].
  cbn [get_partition_idx_loop]. destruct (Hs i ltac:(lia)) as [q Hq].
  apply runs_eq. apply runs_bind. eapply runs_part_at_entry; [done|].
  destruct (Z.eqb_spec (partition_id (static_data q)) id) as [E|E].
  - assert (i = t) as ->. { destruct (decide (i = t)); [done|]. by destruct (Hne i q ltac:(lia) Hq). }
    by apply runs_ret.
  - assert (i <> t) by congruence. eapply runs_val; [|done]. apply IH; try done; try lia.
    + intros j Hj. apply Hs. lia.
    + intros j q' Hj. apply Hne. lia.
Qed.

Lemma get_partition_idx_spec s t p :
  db_ok s -> 0 <= t < partition_count (g_spm_partition_db s) -> entry s t = Some p ->
  get_partition_idx (partition_id (static_data p)) s = (Ok t, s).
Proof.
  intros Hdb Ht Hp. pose proof (part_ids_lookup s t p Ht Hp) as Hl.
  unfold get_partition_idx. destruct (Z.eqb_spec (partition_id (static_data p)) INVALID_PARTITION_ID) as [E|E].
  { destruct (db_valid_ids s Hdb). rewrite <- E. by eapply list_elem_of_lookup_2. }
  apply runs_eq. apply runs_bind, runs_gets. eapply runs_val; [|done].
  eapply get_partition_idx_loop_spec; [| |done|done|lia].
  - intros j Hj. apply entry_is_Some; [done|lia].
  - intros j q Hj Hq E'. assert (Z.to_nat j = Z.to_nat t); [|lia].
    eapply NoDup_lookup; [apply (db_ids s Hdb)| |exact Hl].
    rewrite <- E'. apply part_ids_lookup; [lia|done].
Qed.

(** An identifier no entry has is not found. *)
Lemma get_partition_idx_loop_none n i id s :
  (forall j, i <= j < i + Z.of_nat n -> exists q, entry s j = Some q /\ partition_id (static_data q) <> id) ->
  get_partition_idx_loop n i id s = (Ok SPM_INVALID_PARTITION_IDX, s).
Proof.
  revert i. induction n as [|n IH]; intros i Hs; [done|]. cbn [get_partition_idx_loop].
  destruct (Hs i ltac:(lia)) as (q & Hq & Hne). apply runs_eq, runs_bind.
  eapply runs_part_at_entry; [done|]. rewrite (proj2 (Z.eqb_neq _ _) Hne).
  eapply runs_val; [|done]. apply IH. intros j Hj. apply Hs. lia.
Qed.

Lemma get_partition_idx_unknown s id :
  db_ok s -> id ∉ part_ids s -> get_partition_idx id s = (Ok SPM_INVALID_PARTITION_IDX, s).
Proof.
  intros Hdb Hid. unfold get_partition_idx. destruct (id =? INVALID_PARTITION_ID); [done|].
  apply runs_eq, runs_bind, runs_gets. eapply runs_val; [|done].
  apply get_partition_idx_loop_none. intros j Hj.
  destruct (entry_is_Some s j Hdb ltac:(lia)) as [q Hq]. exists q. split; [done|]. intros E.
  apply Hid. rewrite <- E. eapply list_elem_of_lookup_2, part_ids_lookup; [|exact Hq]. lia.
Qed.

(** A declared identifier is that of some entry. *)
Lemma part_ids_elem s id : db_ok s -> id ∈ part_ids s ->
  exists t p, 0 <= t < partition_count (g_spm_partition_db s) /\ entry s t = Some p /\
    partition_id (static_data p) = id.
Proof.
  intros Hdb Hin. apply list_elem_of_lookup in Hin as [i Hi].
  pose proof Hi as Hl. unfold part_ids in Hl. rewrite list_lookup_fmap in Hl.
  apply fmap_Some in Hl as (p & Hp & ->).
  pose proof (lookup_lt_Some _ _ _ Hp) as Hlt. rewrite length_take in Hlt.
  rewrite lookup_take_lt in Hp by lia. exists (Z.of_nat i), p.
  split; [lia|]. split; [|done]. unfold entry. rewrite decide_True, Nat2Z.id by lia. done.
Qed.
(** ** Symbolic execution of the handlers *)

Lemma entry_set_cpu f s i : entry (set_cpu f s) i = entry s i.
Proof. done. Qed.
Lemma entry_set_hw f s i : entry (set_hw f s) i = entry s i.
Proof. done. Qed.
Lemma entry_set_words f s i : entry (set_words f s) i = entry s i.
Proof. done. Qed.
Lemma entry_set_lock f s i : entry (set_lock f s) i = entry s i.
Proof. done. Qed.
Lemma entry_set_ns_AIRCR f s i : entry (set_ns_AIRCR f s) i = entry s i.
Proof. done. Qed.
Lemma entry_set_running t s i : entry (set_db (set_running t) s) i = entry s i.
Proof. done. Qed.

Lemma runs_lift_hw f s r h (Q : Z -> tfm_state -> Prop) :
  f (hw s) = (r, h) -> Q r (set_hw (fun _ => h) s) -> runs (lift_hw f) s Q.
Proof. intros E HQ. exists r, (set_hw (fun _ => h) s). split; [|done]. unfold lift_hw, set_hw. by rewrite E. Qed.

Lemma runs_get_flags idx s p (Q : Z -> tfm_state -> Prop) :
  entry s idx = Some p -> Q (partition_flags (static_data p)) s ->
  runs (tfm_spm_partition_get_flags idx) s Q.
Proof. intros. apply runs_bind. eapply runs_part_at_entry; [done|]. by apply runs_ret. Qed.

Lemma runs_get_runtime_data idx s p (Q : spm_partition_runtime_data_t -> tfm_state -> Prop) :
  entry s idx = Some p -> Q (runtime_data p) s ->
  runs (tfm_spm_partition_get_runtime_data idx) s Q.
Proof. intros. apply runs_bind. eapply runs_part_at_entry; [done|]. by apply runs_ret. Qed.

Lemma runs_get_partition_id idx s p (Q : Z -> tfm_state -> Prop) :
  entry s idx = Some p -> Q (partition_id (static_data p)) s ->
  runs (tfm_spm_partition_get_partition_id idx) s Q.
Proof. intros. apply runs_bind. eapply runs_part_at_entry; [done|]. by apply runs_ret. Qed.

Lemma runs_get_stack_bottom idx s p (Q : Z -> tfm_state -> Prop) :
  entry s idx = Some p -> Q (stack_bottom (memory_data p)) s ->
  runs (tfm_spm_partition_get_stack_bottom idx) s Q.
Proof. intros. apply runs_bind. eapply runs_part_at_entry; [done|]. by apply runs_ret. Qed.

Lemma runs_set_running idx s (Q : unit -> tfm_state -> Prop) :
  is_Some (entry s idx) ->
  Q tt (set_db (set_running idx)
          (alter_part idx (set_runtime (set_part_state SPM_PARTITION_STATE_RUNNING)) s)) ->
  runs (tfm_spm_partition_set_state idx SPM_PARTITION_STATE_RUNNING) s Q.
Proof. intros Hs HQ. apply runs_bind, runs_part_update_entry; [done|]. by apply runs_modify. Qed.

Lemma runs_set_state idx st s (Q : unit -> tfm_state -> Prop) :
  is_Some (entry s idx) -> (st =? SPM_PARTITION_STATE_RUNNING) = false ->
  Q tt (alter_part idx (set_runtime (set_part_state st)) s) ->
  runs (tfm_spm_partition_set_state idx st) s Q.
Proof.
  intros Hs Hst HQ. apply runs_bind, runs_part_update_entry; [done|]. rewrite Hst. by apply runs_ret.
Qed.

(** The entries after a sequence of updates, simplified. *)
Lemma entry_alter_eq f idx s p : entry s idx = Some p ->
  entry (alter_part idx f s) idx = Some (f p).
Proof.
  intros Hp. rewrite entry_alter by (unfold entry in Hp; by case_decide).
  by rewrite decide_True, Hp.
Qed.

Lemma entry_alter_ne f idx s i : 0 <= idx -> i <> idx ->
  entry (alter_part idx f s) i = entry s i.
Proof. intros. by rewrite entry_alter, decide_False. Qed.

End spec.

Ltac entries :=
  lazymatch goal with
  | |- entry (alter_part ?i _ _) ?i = _ => eapply entry_alter_eq; entries
  | |- entry (alter_part ?i _ _) ?j = _ => rewrite entry_alter_ne by lia; entries
  | |- entry (set_cpu _ _) _ = _ => rewrite entry_set_cpu; entries
  | |- entry (set_hw _ _) _ = _ => rewrite entry_set_hw; entries
  | |- entry (set_words _ _) _ = _ => rewrite entry_set_words; entries
  | |- entry (set_lock _ _) _ = _ => rewrite entry_set_lock; entries
  | |- entry (set_ns_AIRCR _ _) _ = _ => rewrite entry_set_ns_AIRCR; entries
  | |- entry (set_db (set_running _) _) _ = _ => rewrite entry_set_running; entries
  | |- _ => eassumption
  end.

(** Symbolic execution of the table functions. *)
Ltac run_getter :=
  lazymatch goal with
  | |- runs (bind _ _) _ _ => apply runs_bind
  | |- runs (gets _) _ _ => apply runs_gets
  | |- runs (modify _) _ _ => apply runs_modify
  | |- runs (ret _) _ _ => apply runs_ret
  | |- runs get_PSP _ _ => apply runs_gets
  | |- runs tfm_spm_partition_get_running_partition_idx _ _ => apply runs_gets
  | |- runs (tfm_spm_partition_get_flags _) _ _ => eapply runs_get_flags; [entries|]
  | |- runs (tfm_spm_partition_get_runtime_data _) _ _ => eapply runs_get_runtime_data; [entries|]
  | |- runs (tfm_spm_partition_get_partition_id _) _ _ => eapply runs_get_partition_id; [entries|]
  | |- runs (tfm_spm_partition_get_stack_bottom _) _ _ => eapply runs_get_stack_bottom; [entries|]
  | |- runs (tfm_spm_partition_set_stack _ _) _ _ => apply runs_part_update_entry; [eexists; entries|]
  | |- runs (tfm_spm_partition_set_orig_psp _ _) _ _ => apply runs_part_update_entry; [eexists; entries|]
  | |- runs (tfm_spm_partition_set_orig_psplim _ _) _ _ => apply runs_part_update_entry; [eexists; entries|]
  | |- runs (tfm_spm_partition_set_orig_lr _ _) _ _ => apply runs_part_update_entry; [eexists; entries|]
  | |- runs (tfm_spm_partition_set_caller_partition_idx _ _) _ _ =>
      apply runs_part_update_entry; [eexists; entries|]
  | |- runs (tfm_spm_partition_cleanup_context _) _ _ => apply runs_part_update_entry; [eexists; entries|]
  | |- runs (tfm_spm_partition_set_state _ SPM_PARTITION_STATE_RUNNING) _ _ =>
      apply runs_set_running; [eexists; entries|]
  | |- runs (tfm_spm_partition_set_state _ _) _ _ => apply runs_set_state; [eexists; entries|reflexivity|]
  end.
Ltac run_getters := repeat run_getter.


Section calls_spec.
  Context {Layout : tfm_layout} {Cmse : cmse}.

(** ** Protection hardware *)

(** The unit is on, with the fixed regions, the sandbox of partition [p] and
    the region [sh] shared with it. *)
Definition mpu_for (h : hw_t) (p : spm_partition_desc_t) (sh : option region) : Prop :=
  CTRL (mpu h) = 7 /\
  forall n, 0 <= n < Z.of_nat MPU_DREGION -> hw_region_at h n =
    if decide (n < PARTITION_REGION_RO) then static_region n
    else if decide (n < PARTITION_REGION_SHARE) then sandbox_region (memory_data p) (platform_data p) n
    else sh.

Lemma mpu_switch h p q sh :
  mpu_for h p sh -> sandbox_ok (memory_data q) (platform_data q) ->
  exists h1 h2, tfm_spm_hal_partition_sandbox_deconfig (platform_data p) h = (SPM_ERR_OK, h1) /\
    tfm_spm_hal_partition_sandbox_config (memory_data q) (platform_data q) h1 = (SPM_ERR_OK, h2) /\
    mpu_for h2 q None.
Proof.
  intros [_ Hr] Hq.
  destruct (sandbox_deconfig_spec (platform_data p) h) as (h1 & E1 & _ & _ & R1).
  destruct (sandbox_config_spec (memory_data q) (platform_data q) h1 Hq) as (h2 & E2 & C2 & _ & R2);
    [by rewrite R1..|].
  exists h1, h2. split_and!; [done..|]. split; [done|]. intros n Hn.
  rewrite R2, R1, Hr by done.
  unfold PARTITION_REGION_RO, PARTITION_REGION_PERIPH, PARTITION_REGION_SHARE, MPU_DREGION in *.
  repeat case_decide; done || lia.
Qed.

Lemma mpu_share h p sh share_ :
  layout_ok -> mpu_for h p sh ->
  share_ = TFM_BUFFER_SHARE_SCRATCH \/ share_ = TFM_BUFFER_SHARE_NS_CODE ->
  exists h', tfm_spm_hal_set_share_region share_ h = (SPM_ERR_OK, h') /\
    mpu_for h' p (share_region share_).
Proof.
  intros (_ & _ & _ & _ & H1 & H2) [_ Hr] Hs.
  destruct (set_share_region_spec share_ h H1 H2 Hs) as (h' & E & C & _ & _ & R).
  exists h'. split; [done|]. split; [done|]. intros n Hn. rewrite R, Hr by done.
  unfold PARTITION_REGION_RO, PARTITION_REGION_SHARE, MPU_DREGION in *.
  repeat case_decide; done || lia.
Qed.

(** ** The call chain *)

Inductive linked (s : tfm_state) : list Z -> Prop :=
  | linked_ns : linked s [TFM_SP_NON_SECURE_ID]
  | linked_call x y c p :
      entry s x = Some p -> caller_partition_idx (runtime_data p) = y ->
      linked s (y :: c) -> linked s (x :: y :: c).

(** The region shared with a running partition. *)
Definition shared_with (x : Z) (p : spm_partition_desc_t) : option region :=
  if x =? 0 then None else share_region (share (runtime_data p)).

Definition word_ok (v : Z) : Prop := 0 <= v < 2 ^ 32.

(** What [chain_ok] says of entry [i] while [x] runs and [c] waits. *)
Record entry_ok (x : Z) (c : list Z) (i : Z) (p : spm_partition_desc_t) : Prop := {
  ent_running : i = x -> partition_state (runtime_data p) = SPM_PARTITION_STATE_RUNNING;
  ent_blocked : i ∈ c -> partition_state (runtime_data p) = SPM_PARTITION_STATE_BLOCKED;
  ent_idle : i ∉ x :: c -> partition_state (runtime_data p) = SPM_PARTITION_STATE_IDLE \/
                          partition_state (runtime_data p) = SPM_PARTITION_STATE_CLOSED;
  ent_core : i = TFM_SP_CORE_ID -> partition_state (runtime_data p) = SPM_PARTITION_STATE_CLOSED;
  ent_share : i ∈ x :: c -> i <> 0 -> share (runtime_data p) = TFM_BUFFER_SHARE_SCRATCH \/
                                      share (runtime_data p) = TFM_BUFFER_SHARE_NS_CODE;
  ent_ns : i = TFM_SP_NON_SECURE_ID -> caller_partition_idx (runtime_data p) = SPM_INVALID_PARTITION_IDX;
  ent_words : word_ok (stack_ptr (runtime_data p)) /\ word_ok (orig_psp (runtime_data p));
}.

Record chain_ok (x : Z) (c : list Z) (s : tfm_state) : Prop := {
  ch_db : db_ok s;
  ch_init : tfm_secure_api_init s = 0;
  ch_running : running_partition_idx (g_spm_partition_db s) = x;
  ch_linked : linked s (x :: c);
  ch_nodup : NoDup (x :: c);
  ch_range : forall i, i ∈ x :: c -> 0 <= i < partition_count (g_spm_partition_db s);
  ch_entry : forall i p, i < partition_count (g_spm_partition_db s) -> entry s i = Some p ->
    entry_ok x c i p;
  ch_lock : tfm_secure_lock s = Z.of_nat (length c);
  ch_psp : word_ok (PSP (cpu s));
  ch_mpu : TFM_LVL = 3 -> forall p, entry s x = Some p -> mpu_for (hw s) p (shared_with x p);
}.
(** ** Stacking of a partition context *)

(** The exception frame at [a] starts [desc]'s function with its arguments. *)
Definition frame_at (w : Z -> Z) (a : Z) (desc : tfm_sfn_req_s) : Prop :=
  let '(a0, a1, a2, a3) := args desc in
  w a = u32 a0 /\ w (u32 (a + 4)) = u32 a1 /\ w (u32 (a + 8)) = u32 a2 /\ w (u32 (a + 12)) = u32 a3 /\
  w (u32 (a + 24)) = sfn desc.

Lemma u32_sub_inj d a b : 0 <= a < 2 ^ 32 -> 0 <= b < 2 ^ 32 -> a <> b -> u32 (d - a) <> u32 (d - b).
Proof.
  intros Ha Hb Hne E. unfold u32 in E.
  pose proof (Z.div_mod (d - a) (2 ^ 32) ltac:(lia)). pose proof (Z.div_mod (d - b) (2 ^ 32) ltac:(lia)).
  rewrite E in *. nia.
Qed.

Lemma u32_add_sub d a b : u32 (u32 (d - a) + b) = u32 (d - (a - b)).
Proof. unfold u32. rewrite Zplus_mod_idemp_l. f_equal. lia. Qed.

Lemma runs_prepare_partition_ctx desc dst s (Q : Z -> tfm_state -> Prop) :
  (forall w, frame_at w (u32 (dst - 32)) desc -> Q (u32 (dst - 32)) (set_words (fun _ => w) s)) ->
  runs (prepare_partition_ctx desc dst) s Q.
Proof.
  intros HQ. unfold prepare_partition_ctx. unfold frame_at in HQ.
  destruct (args desc) as [[[a0 a1] a2] a3].
  do 8 apply runs_bind, runs_modify. apply runs_ret. apply HQ.
  rewrite !u32_add_sub. cbn [stack_word set_words Z.sub].
  repeat split; repeat first [rewrite upd_eq; done | rewrite upd_ne by (apply u32_sub_inj; lia)].
Qed.

(** ** Pushing a call *)

Context (Hlvl : TFM_LVL = 1 \/ TFM_LVL = 3) (Hlayout : TFM_LVL = 3 -> layout_ok).

(** A call by exception return, which switches stacks. *)
Definition switches (desc : tfm_sfn_req_s) : bool :=
  negb (TFM_LVL =? 1) || negb (exc_num desc =? EXC_NUM_THREAD_MODE).

Definition initial_share (desc : tfm_sfn_req_s) : Z :=
  if ns_caller desc then TFM_BUFFER_SHARE_NS_CODE else TFM_BUFFER_SHARE_SCRATCH.

Definition called_runtime (desc : tfm_sfn_req_s) (lr x : Z) (s : tfm_state)
  (r : spm_partition_runtime_data_t) : spm_partition_runtime_data_t := {|
  partition_state := SPM_PARTITION_STATE_RUNNING; caller_partition_idx := x;
  orig_psp := PSP (cpu s); orig_psplim := PSPLIM (cpu s); orig_lr := lr;
  share := initial_share desc; stack_ptr := stack_ptr r |}.

Definition caller_runtime (x : Z) (s : tfm_state)
  (r : spm_partition_runtime_data_t) : spm_partition_runtime_data_t :=
  set_part_state SPM_PARTITION_STATE_BLOCKED
    (if negb (TFM_LVL =? 1) && negb (x =? 0) then set_stack_ptr (PSP (cpu s)) r else r).

Definition partition_stack (p : spm_partition_desc_t) : Z * Z :=
  if TFM_LVL =? 1 then (TFM_SECURE_STACK_Limit, TFM_SECURE_STACK_Base)
  else (stack_ptr (runtime_data p), stack_bottom (memory_data p)).

Definition with_stack (psp psplim : Z) (c : cpu_t) : cpu_t := {|
  PSP := psp; PSPLIM := psplim; CONTROL_nPRIV := CONTROL_nPRIV c; CONTROL_SPSEL := CONTROL_SPSEL c;
  IPSR := IPSR c; PRIMASK := PRIMASK c; SHCSR := SHCSR c; AIRCR_low := AIRCR_low c |}.

(** What a push changes: the entries of the caller [x] and of the partition
    [t], the running index, the lock, the stack registers, the frame and the
    protection hardware. *)
Record pushed (desc : tfm_sfn_req_s) (lr x t : Z) (px pt : spm_partition_desc_t)
  (s s' : tfm_state) : Prop := {
  pu_entry : forall i, entry s' i =
    if decide (i = t) then Some (set_runtime (called_runtime desc lr x s) pt)
    else if decide (i = x) then Some (set_runtime (caller_runtime x s) px)
    else entry s i;
  pu_count : is_init (g_spm_partition_db s') = is_init (g_spm_partition_db s) /\
    partition_count (g_spm_partition_db s') = partition_count (g_spm_partition_db s) /\
    length (parts s') = length (parts s);
  pu_running : running_partition_idx (g_spm_partition_db s') = t;
  pu_lock : tfm_secure_lock s' = s32 (tfm_secure_lock s + 1);
  pu_rest : tfm_secure_api_init s' = tfm_secure_api_init s /\ ns_state_AIRCR s' = ns_state_AIRCR s;
  pu_cpu : cpu s' = if switches desc
    then with_stack (u32 (fst (partition_stack pt) - 32)) (snd (partition_stack pt)) (cpu s)
    else cpu s;
  pu_frame : switches desc = true -> frame_at (stack_word s') (PSP (cpu s')) desc;
  pu_hw1 : TFM_LVL = 1 -> hw s' = hw s;
  pu_hw3 : TFM_LVL = 3 -> mpu_for (hw s') pt (share_region (initial_share desc));
}.

(** The identifiers are those of the static data. *)
Lemma part_ids_static s s' :
  partition_count (g_spm_partition_db s') = partition_count (g_spm_partition_db s) ->
  (forall i, static_data <$> entry s' i = static_data <$> entry s i) -> part_ids s' = part_ids s.
Proof.
  intros Hc He. unfold part_ids. rewrite Hc.
  apply list_eq. intros i. rewrite !list_lookup_fmap.
  destruct (decide (i < Z.to_nat (partition_count (g_spm_partition_db s)))%nat) as [Hi|Hi].
  - rewrite !lookup_take_lt by done. specialize (He (Z.of_nat i)). unfold entry in He.
    rewrite !decide_True, Nat2Z.id in He by lia.
    destruct (parts s' !! i), (parts s !! i); cbn in He |- *; congruence.
  - by rewrite !lookup_take_ge by lia.
Qed.

Lemma length_alter_part idx f s : length (parts (alter_part idx f s)) = length (parts s).
Proof. unfold alter_part. cbn. apply length_alter. Qed.
Lemma invalid_idx_ne s x c : chain_ok x c s -> (x =? SPM_INVALID_PARTITION_IDX) = false.
Proof.
  intros Hch. destruct (ch_range x c s Hch x) as [? Hx]; [left|].
  pose proof (db_count s (ch_db _ _ _ Hch)). apply Z.eqb_neq.
  unfold SPM_INVALID_PARTITION_IDX, SPM_MAX_PARTITIONS, TFM_MAX_USER_PARTITIONS, TFM_INTERNAL_PARTITIONS in *. lia.
Qed.

(** The sandbox switch from [x] to [y] at level 3. *)
Lemma runs_sandbox_switch {A} x y px py sh s (K : Z -> TM A) (Q : A -> tfm_state -> Prop) :
  is_init (g_spm_partition_db s) = 1 -> entry s x = Some px -> entry s y = Some py ->
  mpu_for (hw s) px sh -> sandbox_ok (memory_data py) (platform_data py) ->
  (forall h, mpu_for h py None -> runs (K SPM_ERR_OK) (set_hw (fun _ => h) s) Q) ->
  runs (tfm_spm_partition_sandbox_deconfig x) s (fun _ s1 =>
    runs (bind (tfm_spm_partition_sandbox_config y) K) s1 Q).
Proof.
  intros Hi Hx Hy Hm Hs HQ.
  destruct (mpu_switch (hw s) px py sh Hm Hs) as (h1 & h2 & E1 & E2 & Hm2).
  unfold tfm_spm_partition_sandbox_deconfig, tfm_spm_partition_sandbox_config.
  apply runs_bind. eapply runs_part_at_entry; [done|].
  eapply runs_lift_hw; [done|]. apply runs_bind, runs_bind, runs_gets. cbn [g_spm_partition_db set_hw].
  rewrite Hi. cbn [Z.eqb]. apply runs_bind. eapply runs_part_at_entry; [entries|].
  eapply runs_lift_hw; [done|]. by apply (HQ h2).
Qed.

Definition set_share_field (v : Z) (r : spm_partition_runtime_data_t) : spm_partition_runtime_data_t := {|
  partition_state := partition_state r; caller_partition_idx := caller_partition_idx r;
  orig_psp := orig_psp r; orig_psplim := orig_psplim r; orig_lr := orig_lr r; share := v;
  stack_ptr := stack_ptr r |}.

(** Setting the share of the partition whose sandbox is programmed. *)
Lemma runs_set_share t pt sh v s (Q : Z -> tfm_state -> Prop) :
  entry s t = Some pt -> (TFM_LVL = 3 -> mpu_for (hw s) pt sh) ->
  v = TFM_BUFFER_SHARE_SCRATCH \/ v = TFM_BUFFER_SHARE_NS_CODE ->
  (forall h, (TFM_LVL = 1 -> h = hw s) -> (TFM_LVL = 3 -> mpu_for h pt (share_region v)) ->
     Q SPM_ERR_OK (alter_part t (set_runtime (set_share_field v)) (set_hw (fun _ => h) s))) ->
  runs (tfm_spm_partition_set_share t v) s Q.
Proof.
  intros Ht Hm Hv HQ. unfold tfm_spm_partition_set_share. destruct Hlvl as [E|E]; rewrite E; cbn [Z.eqb Pos.eqb].
  - apply runs_bind, runs_ret. cbn [Z.eqb]. apply runs_bind. apply runs_part_update_entry; [by exists pt|].
    apply runs_ret. specialize (HQ (hw s) ltac:(done) ltac:(congruence)). by destruct s.
  - destruct (mpu_share (hw s) pt sh v (Hlayout E) (Hm E) Hv) as (h & E' & Hm').
    apply runs_bind. eapply runs_lift_hw; [done|]. cbn [Z.eqb]. apply runs_bind.
    apply runs_part_update_entry; [exists pt; entries|]. apply runs_ret.
    apply HQ; [congruence|done].
Qed.

(** The description of a push, read off the final state. *)
Ltac push_final Hns E Esw :=
  constructor;
  [ let i := fresh "i" in intros i; case_decide; [subst i|case_decide; [subst i|]];
    [ etrans; [entries|]; unfold called_runtime, initial_share; rewrite ?Hns; reflexivity
    | etrans; [entries|]; unfold caller_runtime; rewrite ?E, ?Esw; reflexivity
    | rewrite !entry_set_lock; repeat first [rewrite entry_set_running | rewrite entry_alter_ne by lia
        | rewrite entry_set_cpu | rewrite entry_set_words | rewrite entry_set_hw]; reflexivity ]
  | split_and!; [reflexivity|reflexivity|cbn; rewrite ?length_alter; reflexivity]
  | reflexivity | reflexivity | split; reflexivity
  | unfold switches, partition_stack; rewrite ?E, ?Esw; reflexivity
  | unfold switches; rewrite ?E, ?Esw; cbn [Z.eqb Pos.eqb negb orb]; intros ?; try discriminate
  | intros ?; first [congruence | reflexivity] | intros ?; first [congruence | unfold initial_share; rewrite Hns; assumption] ].

(** The first half of [tfm_push_lock]: the checks succeed. *)
Lemma runs_push_checks x c s px pt (Q : option Z -> tfm_state -> Prop) :
  chain_ok x c s -> entry s x = Some px -> entry s (running_partition_idx (g_spm_partition_db s)) = Some px ->
  partition_state (runtime_data pt) = SPM_PARTITION_STATE_IDLE -> Q None s ->
  runs (push_lock_state_check x (partition_state (runtime_data pt)) (partition_flags (static_data pt))) s Q.
Proof.
  intros Hch Hx _ Hst HQ. unfold push_lock_state_check. run_getters.
  rewrite (ch_init _ _ _ Hch), Hst. cbn. by apply runs_ret.
Qed.

Lemma push_lock_runs desc lr x c s t px pt :
  chain_ok x c s -> ns_caller desc = (x =? 0) ->
  entry s x = Some px -> entry s t = Some pt ->
  0 <= t < partition_count (g_spm_partition_db s) ->
  sp_id desc = partition_id (static_data pt) ->
  partition_state (runtime_data pt) = SPM_PARTITION_STATE_IDLE ->
  runs (tfm_push_lock desc lr) s (fun r s' => r = TFM_SUCCESS /\ pushed desc lr x t px pt s s').
Proof.
  intros Hch Hns Hx Ht Htr Hid Hst.
  pose proof (ch_db _ _ _ Hch) as Hdb. pose proof (ch_running _ _ _ Hch) as Hrun.
  destruct (ch_range _ _ _ Hch x) as [Hx0 Hxc]; [left|].
  assert (x <> t) as Hxt.
  { intros ->. pose proof (ent_running _ _ _ _ (ch_entry _ _ _ Hch t pt ltac:(lia) Ht) eq_refl) as E. by rewrite Hst in E. }
  assert (is_secure px = negb (x =? 0)) as Hsec by (apply (db_secure s Hdb x px); [lia|done]).
  unfold tfm_push_lock. run_getters. rewrite Hrun, (invalid_idx_ne s x c Hch). run_getters.
  fold (is_secure px). rewrite Hsec, Hns. rewrite eqb_reflx. cbn [negb].
  apply runs_bind. eapply runs_val; [rewrite Hid; by apply get_partition_idx_spec|].
  run_getters. eapply runs_push_checks; [done|done|by rewrite Hrun|done|].
  cbv beta iota. run_getters.
  destruct Hlvl as [E1|E3].
  - rewrite E1. cbn [Z.eqb Pos.eqb negb andb]. run_getters.
    eapply (runs_set_share _ _ None); [entries|congruence|by destruct (x =? 0); auto|].
    intros h Hh _. specialize (Hh E1). cbn [hw alter_part set_db] in Hh. subst h.
    run_getters. change (tfm_secure_api_init (alter_part _ _ _)) with (tfm_secure_api_init s).
    rewrite (ch_init _ _ _ Hch). cbn [negb orb Z.eqb]. rewrite orb_false_r.
    destruct (negb (exc_num desc =? EXC_NUM_THREAD_MODE)) eqn:Esw.
    + apply runs_bind, runs_prepare_partition_ctx. intros w Hw. unfold set_PSP, set_PSPLIM. cbv beta. run_getters.
      split; [done|].
      push_final Hns E1 Esw. exact Hw.
    + run_getters. split; [done|]. push_final Hns E1 Esw.
  - rewrite E3. cbn [Z.eqb Pos.eqb negb andb orb]. pose proof (ch_mpu _ _ _ Hch E3 px Hx) as Hm.
    assert (t <> TFM_SP_CORE_ID) as Hcore.
    { intros Et. pose proof (ent_core _ _ _ _ (ch_entry _ _ _ Hch t pt ltac:(lia) Ht) Et) as E.
      by rewrite Hst in E. }
    pose proof (db_sandbox s Hdb E3 t pt ltac:(lia) Hcore Ht) as Hsb.
    destruct (negb (x =? 0)) eqn:Ex; run_getters;
      (eapply runs_sandbox_switch; [apply (db_is_init s Hdb)|entries|entries|exact Hm|exact Hsb|]);
      intros h Hh; cbn [Z.eqb negb SPM_ERR_OK]; run_getters;
      (eapply runs_set_share; [entries|intros _; exact Hh|by destruct (x =? 0); auto|]);
      intros h' _ Hh'; specialize (Hh' E3); run_getters;
      apply runs_prepare_partition_ctx; intros w Hw; unfold set_PSP, set_PSPLIM; cbv beta; run_getters;
      (split; [done|]); push_final Hns E3 Ex; exact Hw.
Qed.
(** ** Popping a call *)

(** A return restores the caller's stack registers. *)
Definition restores (y : Z) : bool := negb (TFM_LVL =? 1) || (y =? 0).

Definition finished_runtime (s : tfm_state) (r : spm_partition_runtime_data_t) : spm_partition_runtime_data_t := {|
  partition_state := SPM_PARTITION_STATE_IDLE; caller_partition_idx := SPM_INVALID_PARTITION_IDX;
  orig_psp := 0; orig_psplim := 0; orig_lr := 0; share := 0;
  stack_ptr := if TFM_LVL =? 1 then stack_ptr r else u32 (PSP (cpu s) + SVC_STACK_FRAME_SIZE) |}.

Record popped (x y : Z) (px py : spm_partition_desc_t) (s s' : tfm_state) : Prop := {
  po_entry : forall i, entry s' i =
    if decide (i = x) then Some (set_runtime (finished_runtime s) px)
    else if decide (i = y) then Some (set_runtime (set_part_state SPM_PARTITION_STATE_RUNNING) py)
    else entry s i;
  po_count : is_init (g_spm_partition_db s') = is_init (g_spm_partition_db s) /\
    partition_count (g_spm_partition_db s') = partition_count (g_spm_partition_db s) /\
    length (parts s') = length (parts s);
  po_running : running_partition_idx (g_spm_partition_db s') = y;
  po_lock : tfm_secure_lock s' = s32 (tfm_secure_lock s - 1);
  po_rest : tfm_secure_api_init s' = tfm_secure_api_init s /\ ns_state_AIRCR s' = ns_state_AIRCR s;
  po_cpu : cpu s' = if restores y
    then with_stack (orig_psp (runtime_data px)) (orig_psplim (runtime_data px)) (cpu s)
    else cpu s;
  po_hw1 : TFM_LVL = 1 -> hw s' = hw s;
  po_hw3 : TFM_LVL = 3 -> mpu_for (hw s') py (shared_with y py);
}.

Lemma set_share_same f p :
  set_runtime f (set_runtime (set_share_field (share (runtime_data p))) p) = set_runtime f p.
Proof. by destruct p as [? [] ? ?]. Qed.

Ltac pop_final E Ey :=
  constructor;
  [ let i := fresh "i" in intros i; case_decide; [subst i|case_decide; [subst i|]];
    [ etrans; [entries|]; unfold finished_runtime; rewrite ?E; reflexivity
    | etrans; [entries|]; first [reflexivity | f_equal; apply set_share_same]
    | repeat first [rewrite entry_set_running | rewrite entry_alter_ne by lia
        | rewrite entry_set_cpu | rewrite entry_set_lock | rewrite entry_set_hw]; reflexivity ]
  | split_and!; [reflexivity|reflexivity|cbn; rewrite ?length_alter; reflexivity]
  | reflexivity | reflexivity | split; reflexivity
  | unfold restores; rewrite ?E, ?Ey; reflexivity
  | intros ?; first [congruence | reflexivity]
  | intros ?; first [congruence | unfold shared_with; rewrite ?Ey; assumption] ].

Lemma pop_lock_runs lr x y c s px py :
  chain_ok x (y :: c) s -> entry s x = Some px -> entry s y = Some py ->
  (restores y = true -> is_Some lr) ->
  runs (tfm_pop_lock lr) s (fun r s' =>
    r = (TFM_SUCCESS, if restores y then Some (orig_lr (runtime_data px)) else lr) /\
    popped x y px py s s').
Proof.
  intros Hch Hx Hy Hlr.
  pose proof (ch_db _ _ _ Hch) as Hdb. pose proof (ch_running _ _ _ Hch) as Hrun.
  destruct (ch_range _ _ _ Hch x) as [Hx0 Hxc]; [left|].
  destruct (ch_range _ _ _ Hch y) as [Hy0 Hyc]; [right; left|].
  assert (caller_partition_idx (runtime_data px) = y) as Hcaller.
  { pose proof (ch_linked _ _ _ Hch) as Hl. inversion Hl as [|? ? ? p Hp]; subst. congruence. }
  assert (x <> y) as Hxy.
  { intros ->. pose proof (ch_nodup _ _ _ Hch) as Hn. inversion Hn as [|? ? Hn']. apply Hn'. left. }
  assert (is_secure px = negb (x =? 0)) as Hsx by (apply (db_secure s Hdb x px); [lia|done]).
  assert (is_secure py = negb (y =? 0)) as Hsy by (apply (db_secure s Hdb y py); [lia|done]).
  assert ((y =? SPM_INVALID_PARTITION_IDX) = false) as Hyi.
  { pose proof (db_count s Hdb). apply Z.eqb_neq.
    unfold SPM_INVALID_PARTITION_IDX, SPM_MAX_PARTITIONS, TFM_MAX_USER_PARTITIONS, TFM_INTERNAL_PARTITIONS in *. lia. }
  unfold tfm_pop_lock. run_getters. rewrite Hrun, (invalid_idx_ne s x _ Hch). run_getters.
  rewrite Hcaller, Hyi. run_getters. fold (is_secure py). rewrite Hsy.
  change (tfm_secure_api_init (set_lock _ s)) with (tfm_secure_api_init s). rewrite (ch_init _ _ _ Hch).
  unfold restores in *.
  destruct Hlvl as [E1|E3].
  - rewrite E1 in Hlr |- *. cbn [Z.eqb Pos.eqb negb andb orb] in Hlr |- *. run_getters. rewrite orb_false_r, negb_involutive.
    destruct (y =? 0) eqn:Ey.
    + destruct (Hlr eq_refl) as [l ->]. unfold set_PSP, set_PSPLIM. run_getters.
      split; [done|]. pop_final E1 Ey.
    + run_getters. split; [done|]. pop_final E1 Ey.
  - rewrite E3 in Hlr |- *. cbn [Z.eqb Pos.eqb negb andb orb] in Hlr |- *. destruct (Hlr eq_refl) as [l ->].
    pose proof (ch_mpu _ _ _ Hch E3 px Hx) as Hm.
    assert (y <> TFM_SP_CORE_ID) as Hcore.
    { intros Et. pose proof (ch_entry _ _ _ Hch y py ltac:(lia) Hy) as He.
      pose proof (ent_core _ _ _ _ He Et) as E. pose proof (ent_blocked _ _ _ _ He ltac:(left)) as E'.
      rewrite E in E'. done. }
    pose proof (db_sandbox s Hdb E3 y py ltac:(lia) Hcore Hy) as Hsb.
    run_getters. eapply runs_sandbox_switch; [apply (db_is_init s Hdb)|entries|entries|exact Hm|exact Hsb|].
    intros h Hh. cbn [Z.eqb negb SPM_ERR_OK].
    destruct (y =? 0) eqn:Ey; cbn [negb]; run_getters.
    + unfold set_PSP, set_PSPLIM. run_getters. split; [done|]. pop_final E3 Ey.
    + eapply runs_set_share; [entries|intros _; exact Hh| |].
      { pose proof (ch_entry _ _ _ Hch y py ltac:(lia) Hy) as He. apply (ent_share _ _ _ _ He); [right; left|].
        by apply Z.eqb_neq. }
      intros h' _ Hh'. specialize (Hh' E3). unfold set_PSP, set_PSPLIM. run_getters. split; [done|].
      pop_final E3 Ey.
Qed.
End calls_spec.
