(* ===== verification/SecureApiChain.v ===== *)
(** * Secure calls keep the call chain

    A push extends the chain of calls in progress and a pop shortens it; both
    keep the invariant.  A secure call is then balanced: whatever the called
    functions do, the caller finds its stack, its context and the lock as they
    were, and nesting is bounded by the number of partitions. *)

From stdpp Require Import sets.
From S2P Require Import Prelude Mpu SpmHal Spm SecureApi SecureApiSpec.

Section chain.
  Context {Layout : tfm_layout} {Cmse : cmse}.
  Context (Hlvl : TFM_LVL = 1 \/ TFM_LVL = 3) (Hlayout : TFM_LVL = 3 -> layout_ok).

(** What the database keeps for ever of a partition. *)
Definition fixed_part (p : spm_partition_desc_t) :=
  (static_data p, platform_data p, memory_data p).

(** Nothing but runtime data changes between [s] and [s']. *)
Record same_parts (s s' : tfm_state) : Prop := {
  same_init : is_init (g_spm_partition_db s') = is_init (g_spm_partition_db s);
  same_count : partition_count (g_spm_partition_db s') = partition_count (g_spm_partition_db s);
  same_length : length (parts s') = length (parts s);
  same_fixed : forall i, fixed_part <$> entry s' i = fixed_part <$> entry s i;
}.

#[global] Instance same_parts_refl : Reflexive same_parts.
Proof. by constructor. Qed.

#[global] Instance same_parts_trans : Transitive same_parts.
Proof.
  intros s1 s2 s3 H12 H23. constructor.
  - by rewrite (same_init _ _ H23), (same_init _ _ H12).
  - by rewrite (same_count _ _ H23), (same_count _ _ H12).
  - by rewrite (same_length _ _ H23), (same_length _ _ H12).
  - intros i. by rewrite (same_fixed _ _ H23), (same_fixed _ _ H12).
Qed.

Lemma same_parts_ids s s' : same_parts s s' -> part_ids s' = part_ids s.
Proof.
  intros H. apply part_ids_static; [apply (same_count _ _ H)|]. intros i.
  pose proof (same_fixed _ _ H i) as Hi. destruct (entry s' i), (entry s i); cbn in *; try done.
  unfold fixed_part in Hi. congruence.
Qed.

Lemma same_parts_entry s s' i p' : same_parts s s' -> entry s' i = Some p' ->
  exists p, entry s i = Some p /\ fixed_part p = fixed_part p'.
Proof.
  intros H Hp. pose proof (same_fixed _ _ H i) as Hi. rewrite Hp in Hi.
  destruct (entry s i) as [p|]; cbn in Hi; [|done]. exists p. split; [done|congruence].
Qed.

Lemma db_ok_same s s' : same_parts s s' -> db_ok s -> db_ok s'.
Proof.
  intros H Hdb. constructor.
  - by rewrite (same_init _ _ H), (db_is_init s Hdb).
  - by rewrite (same_length _ _ H), (db_len s Hdb).
  - rewrite (same_count _ _ H). apply (db_count s Hdb).
  - rewrite (same_parts_ids s s' H). apply (db_ids s Hdb).
  - rewrite (same_parts_ids s s' H). apply (db_valid_ids s Hdb).
  - intros i p' Hi Hp'. rewrite (same_count _ _ H) in Hi.
    destruct (same_parts_entry s s' i p' H Hp') as (p & Hp & E). unfold fixed_part in E.
    rewrite <- (db_secure s Hdb i p Hi Hp). unfold is_secure. congruence.
  - intros E3 i p' Hi Hc Hp'. rewrite (same_count _ _ H) in Hi.
    destruct (same_parts_entry s s' i p' H Hp') as (p & Hp & E). unfold fixed_part in E.
    pose proof (db_sandbox s Hdb E3 i p Hi Hc Hp). congruence.
Qed.

(** A chain stays linked when its members keep their callers. *)
Lemma linked_keep s s' c :
  (forall i p, i ∈ c -> entry s i = Some p ->
     exists p', entry s' i = Some p' /\
       caller_partition_idx (runtime_data p') = caller_partition_idx (runtime_data p)) ->
  linked s c -> linked s' c.
Proof.
  intros H Hl. induction Hl as [|x y c p Hx Hy Hl IH]; [constructor|].
  destruct (H x p) as (p' & Hx' & Hc); [left|done|].
  econstructor; [exact Hx'|congruence|]. apply IH. intros i q Hi. apply H. by right.
Qed.

Lemma linked_has_ns s l : linked s l -> 0 ∈ l.
Proof. intros Hl. induction Hl; [left|by right]. Qed.

Lemma mpu_for_fixed h p p' sh : fixed_part p = fixed_part p' -> mpu_for h p sh -> mpu_for h p' sh.
Proof. unfold fixed_part, mpu_for. intros E H. by replace (memory_data p') with (memory_data p) by congruence;
  replace (platform_data p') with (platform_data p) by congruence. Qed.

Lemma chain_short x c s : chain_ok x c s -> (length c < Z.to_nat SPM_MAX_PARTITIONS)%nat.
Proof.
  intros Hch. pose proof (db_count s (ch_db _ _ _ Hch)).
  assert (length (x :: c) <= length (seqZ 0 SPM_MAX_PARTITIONS))%nat as Hl.
  { apply submseteq_length, NoDup_submseteq; [apply (ch_nodup _ _ _ Hch)|].
    intros i Hi. apply elem_of_seqZ. pose proof (ch_range _ _ _ Hch i Hi). lia. }
  rewrite length_seqZ in Hl. cbn in Hl. lia.
Qed.

Lemma s32_small x : - 2 ^ 31 <= x < 2 ^ 31 -> s32 x = x.
Proof. intros. unfold s32. rewrite Z.mod_small; lia. Qed.

Lemma u32_ok x : word_ok (u32 x).
Proof. apply u32_bound. Qed.

Section push.
  Context (desc : tfm_sfn_req_s) (lr x t : Z) (px pt : spm_partition_desc_t) (c : list Z) (s s' : tfm_state).
  Context (Hch : chain_ok x c s) (Hx : entry s x = Some px) (Ht : entry s t = Some pt).
  Context (Htr : 0 <= t < partition_count (g_spm_partition_db s)).
  Context (Hst : partition_state (runtime_data pt) = SPM_PARTITION_STATE_IDLE).
  Context (Hp : pushed desc lr x t px pt s s').

Lemma pushed_same : same_parts s s'.
Proof using Hp Hx Ht.
  destruct (pu_count _ _ _ _ _ _ _ _ Hp) as (? & ? & ?). constructor; try done.
  intros i. rewrite (pu_entry _ _ _ _ _ _ _ _ Hp). case_decide; [subst; by rewrite Ht|].
  case_decide; [subst; by rewrite Hx|done].
Qed.

Lemma callee_not_in_chain : t ∉ x :: c.
Proof using Hch Ht Htr Hst.
  intros Hin. pose proof (ch_entry _ _ _ Hch t pt ltac:(lia) Ht) as He.
  apply elem_of_cons in Hin as [E|Hin].
  - pose proof (ent_running _ _ _ _ He E) as E'. by rewrite Hst in E'.
  - pose proof (ent_blocked _ _ _ _ He Hin) as E'. by rewrite Hst in E'.
Qed.

Lemma initial_share_ok : initial_share desc = TFM_BUFFER_SHARE_SCRATCH \/ initial_share desc = TFM_BUFFER_SHARE_NS_CODE.
Proof. unfold initial_share. destruct (ns_caller desc); auto. Qed.

Lemma pushed_entry_ok i p : i < partition_count (g_spm_partition_db s) -> entry s' i = Some p ->
  entry_ok t (x :: c) i p.
Proof using All.
  intros Hi He. rewrite (pu_entry _ _ _ _ _ _ _ _ Hp) in He.
  pose proof callee_not_in_chain as Hnt.
  assert (word_ok (PSP (cpu s))) as Hpsp by apply (ch_psp _ _ _ Hch).
  case_decide as E1; [|case_decide as E2]; simplify_eq.
  - pose proof (ch_entry _ _ _ Hch t pt ltac:(lia) Ht) as Ho. constructor; cbn.
    + done.
    + by intros Hin%Hnt.
    + set_solver.
    + intros Et. pose proof (ent_core _ _ _ _ Ho Et) as E'. by rewrite Hst in E'.
    + intros _ _. apply initial_share_ok.
    + intros ->. destruct Hnt. by eapply linked_has_ns, (ch_linked _ _ _ Hch).
    + split; [apply (ent_words _ _ _ _ Ho)|done].
  - pose proof (ch_entry _ _ _ Hch x px ltac:(lia) Hx) as Ho. constructor; cbn.
    + done.
    + done.
    + set_solver.
    + intros Et. pose proof (ent_core _ _ _ _ Ho Et) as E'. by rewrite (ent_running _ _ _ _ Ho eq_refl) in E'.
    + intros _ Hx0. destruct (_ && _); apply (ent_share _ _ _ _ Ho); (left || done).
    + intros E. destruct (_ && _); by apply (ent_ns _ _ _ _ Ho).
    + destruct (_ && _); cbn; [split; [done|]|]; apply (ent_words _ _ _ _ Ho).
  - pose proof (ch_entry _ _ _ Hch i p Hi He) as Ho. constructor.
    + done.
    + intros Hin. apply elem_of_cons in Hin as [?|Hin]; [done|]. by apply (ent_blocked _ _ _ _ Ho).
    + intros Hni. apply (ent_idle _ _ _ _ Ho). set_solver.
    + apply (ent_core _ _ _ _ Ho).
    + intros Hin Hi0. apply (ent_share _ _ _ _ Ho); [set_solver|done].
    + apply (ent_ns _ _ _ _ Ho).
    + apply (ent_words _ _ _ _ Ho).
Qed.

(** The called partition becomes the head of the chain. *)
Lemma pushed_chain : chain_ok t (x :: c) s'.
Proof using All.
  pose proof callee_not_in_chain as Hnt. pose proof pushed_same as Hsame.
  pose proof (chain_short _ _ _ Hch) as Hlen.
  constructor.
  - apply (db_ok_same s s' Hsame), (ch_db _ _ _ Hch).
  - destruct (pu_rest _ _ _ _ _ _ _ _ Hp) as [-> _]. apply (ch_init _ _ _ Hch).
  - apply (pu_running _ _ _ _ _ _ _ _ Hp).
  - econstructor; [by rewrite (pu_entry _ _ _ _ _ _ _ _ Hp), decide_True by done|done|].
    apply (linked_keep s); [|apply (ch_linked _ _ _ Hch)]. intros i p Hi Hpi.
    rewrite (pu_entry _ _ _ _ _ _ _ _ Hp), decide_False by set_solver. case_decide; [|eauto].
    simplify_eq. eexists. split; [done|]. unfold caller_runtime. cbn. by destruct (_ && _).
  - constructor; [done|apply (ch_nodup _ _ _ Hch)].
  - intros i Hi. rewrite (same_count _ _ Hsame). apply elem_of_cons in Hi as [->|Hi]; [done|].
    by apply (ch_range _ _ _ Hch).
  - intros i p. rewrite (same_count _ _ Hsame). apply pushed_entry_ok.
  - rewrite (pu_lock _ _ _ _ _ _ _ _ Hp), (ch_lock _ _ _ Hch), s32_small; cbn [length]; [lia|].
    unfold SPM_MAX_PARTITIONS, TFM_MAX_USER_PARTITIONS, TFM_INTERNAL_PARTITIONS in Hlen. lia.
  - rewrite (pu_cpu _ _ _ _ _ _ _ _ Hp). destruct (switches desc); [apply u32_ok|apply (ch_psp _ _ _ Hch)].
  - intros E3 p He. rewrite (pu_entry _ _ _ _ _ _ _ _ Hp), decide_True in He by done. simplify_eq.
    unfold shared_with. destruct (Z.eqb_spec t 0) as [->|_].
    { destruct Hnt. by eapply linked_has_ns, (ch_linked _ _ _ Hch). }
    eapply mpu_for_fixed; [|apply (pu_hw3 _ _ _ _ _ _ _ _ Hp E3)]. done.
Qed.
End push.

Section pop.
  Context (x y : Z) (px py : spm_partition_desc_t) (c : list Z) (s s' : tfm_state).
  Context (Hch : chain_ok x (y :: c) s) (Hx : entry s x = Some px) (Hy : entry s y = Some py).
  Context (Hp : popped x y px py s s').

Lemma popped_same : same_parts s s'.
Proof using Hp Hx Hy.
  destruct (po_count _ _ _ _ _ _ Hp) as (? & ? & ?). constructor; try done.
  intros i. rewrite (po_entry _ _ _ _ _ _ Hp). case_decide; [subst; by rewrite Hx|].
  case_decide; [subst; by rewrite Hy|done].
Qed.

Lemma running_not_in_rest : x ∉ y :: c /\ y ∉ c /\ NoDup (y :: c).
Proof using Hch.
  pose proof (ch_nodup _ _ _ Hch) as Hn. inversion Hn as [|? ? Hx1 Hn1]; subst.
  inversion Hn1; subst. done.
Qed.

Lemma popped_entry_ok i p : i < partition_count (g_spm_partition_db s) -> entry s' i = Some p ->
  entry_ok y c i p.
Proof using All.
  intros Hi He. rewrite (po_entry _ _ _ _ _ _ Hp) in He.
  destruct running_not_in_rest as (Hnx & Hny & _).
  case_decide as E1; [|case_decide as E2]; simplify_eq.
  - pose proof (ch_entry _ _ _ Hch x px ltac:(lia) Hx) as Ho. constructor; cbn.
    + intros ->. destruct Hnx. left.
    + intros Hin. destruct Hnx. by right.
    + by left.
    + intros Et. pose proof (ent_core _ _ _ _ Ho Et) as E'. by rewrite (ent_running _ _ _ _ Ho eq_refl) in E'.
    + done.
    + done.
    + split; [|done]. destruct (_ =? _); [apply (ent_words _ _ _ _ Ho)|apply u32_ok].
  - pose proof (ch_entry _ _ _ Hch y py ltac:(lia) Hy) as Ho. constructor; cbn.
    + done.
    + done.
    + set_solver.
    + intros Et. pose proof (ent_core _ _ _ _ Ho Et) as E'. rewrite (ent_blocked _ _ _ _ Ho ltac:(left)) in E'. done.
    + intros _ Hy0. apply (ent_share _ _ _ _ Ho); [right; left|done].
    + apply (ent_ns _ _ _ _ Ho).
    + apply (ent_words _ _ _ _ Ho).
  - pose proof (ch_entry _ _ _ Hch i p Hi He) as Ho. constructor.
    + done.
    + intros Hin. apply (ent_blocked _ _ _ _ Ho). by right.
    + intros Hni. apply (ent_idle _ _ _ _ Ho). set_solver.
    + apply (ent_core _ _ _ _ Ho).
    + intros Hin Hi0. apply (ent_share _ _ _ _ Ho); [by right|done].
    + apply (ent_ns _ _ _ _ Ho).
    + apply (ent_words _ _ _ _ Ho).
Qed.

(** The caller becomes the head of the chain again. *)
Lemma popped_chain : chain_ok y c s'.
Proof using All.
  destruct running_not_in_rest as (Hnx & Hny & Hnd). pose proof popped_same as Hsame.
  pose proof (chain_short _ _ _ Hch) as Hlen.
  constructor.
  - apply (db_ok_same s s' Hsame), (ch_db _ _ _ Hch).
  - destruct (po_rest _ _ _ _ _ _ Hp) as [-> _]. apply (ch_init _ _ _ Hch).
  - apply (po_running _ _ _ _ _ _ Hp).
  - pose proof (ch_linked _ _ _ Hch) as Hl. inversion Hl as [|? ? ? p ? ? Hl']; subst.
    apply (linked_keep s); [|done]. intros i q Hi Hq.
    rewrite (po_entry _ _ _ _ _ _ Hp), decide_False by set_solver. case_decide; [|eauto].
    simplify_eq. by eexists.
  - done.
  - intros i Hi. rewrite (same_count _ _ Hsame). apply (ch_range _ _ _ Hch). by right.
  - intros i p. rewrite (same_count _ _ Hsame). apply popped_entry_ok.
  - rewrite (po_lock _ _ _ _ _ _ Hp), (ch_lock _ _ _ Hch), s32_small; cbn [length] in *; [lia|].
    unfold SPM_MAX_PARTITIONS, TFM_MAX_USER_PARTITIONS, TFM_INTERNAL_PARTITIONS in Hlen. lia.
  - rewrite (po_cpu _ _ _ _ _ _ Hp). destruct (restores y); [|apply (ch_psp _ _ _ Hch)].
    destruct (ch_range _ _ _ Hch x ltac:(left)) as [_ Hxc].
    apply (ent_words _ _ _ _ (ch_entry _ _ _ Hch x px Hxc Hx)).
  - intros E3 p He. rewrite (po_entry _ _ _ _ _ _ Hp), decide_False, decide_True in He by set_solver. simplify_eq.
    eapply mpu_for_fixed; [|apply (po_hw3 _ _ _ _ _ _ Hp E3)]. done.
Qed.
End pop.

(** ** Balanced execution *)

(** What a partition finds again when the code it called has returned: of a
    waiting caller everything, of the running partition its saved context, of
    the others their state and stack. *)
Record entry_kept (x : Z) (c : list Z) (i : Z) (r r' : spm_partition_runtime_data_t) : Prop := {
  kept_waiting : i ∈ c -> r' = r;
  kept_running : i = x ->
    partition_state r' = partition_state r /\ caller_partition_idx r' = caller_partition_idx r /\
    orig_psp r' = orig_psp r /\ orig_psplim r' = orig_psplim r /\ orig_lr r' = orig_lr r /\
    (TFM_LVL = 1 -> stack_ptr r' = stack_ptr r);
  kept_idle : i ∉ x :: c -> partition_state r' = partition_state r /\ stack_ptr r' = stack_ptr r;
}.

Definition entries_kept (x : Z) (c : list Z) (s s' : tfm_state) : Prop :=
  forall i p p', i < partition_count (g_spm_partition_db s) ->
    entry s i = Some p -> entry s' i = Some p' ->
    entry_kept x c i (runtime_data p) (runtime_data p').

(** The registers but the interrupt mask, which a secure call leaves open. *)
Definition regs (c : cpu_t) : cpu_t := {|
  PSP := PSP c; PSPLIM := PSPLIM c; CONTROL_nPRIV := CONTROL_nPRIV c; CONTROL_SPSEL := CONTROL_SPSEL c;
  IPSR := IPSR c; PRIMASK := 0; SHCSR := SHCSR c; AIRCR_low := AIRCR_low c |}.

Record balanced (x : Z) (c : list Z) (s s' : tfm_state) : Prop := {
  ba_chain : chain_ok x c s';
  ba_parts : same_parts s s';
  ba_entries : entries_kept x c s s';
  ba_regs : regs (cpu s') = regs (cpu s);
  ba_ns : ns_state_AIRCR s' = ns_state_AIRCR s;
}.

#[global] Instance same_parts_sym : Symmetric same_parts.
Proof.
  intros s1 s2 H12. constructor; [| | |intros i]; symmetry; apply H12.
Qed.

Lemma entry_kept_refl x c i r : entry_kept x c i r r.
Proof. by constructor. Qed.

Lemma entry_kept_trans x c i r1 r2 r3 :
  entry_kept x c i r1 r2 -> entry_kept x c i r2 r3 -> entry_kept x c i r1 r3.
Proof.
  intros H1 H2. constructor.
  - intros Hi. by rewrite (kept_waiting _ _ _ _ _ H2 Hi), (kept_waiting _ _ _ _ _ H1 Hi).
  - intros Hi. destruct (kept_running _ _ _ _ _ H1 Hi) as (?&?&?&?&?&L1).
    destruct (kept_running _ _ _ _ _ H2 Hi) as (?&?&?&?&?&L2).
    split_and!; try congruence. intros E. by rewrite L2, L1.
  - intros Hi. destruct (kept_idle _ _ _ _ _ H1 Hi), (kept_idle _ _ _ _ _ H2 Hi). split; congruence.
Qed.

Lemma balanced_trans x c s1 s2 s3 : balanced x c s1 s2 -> balanced x c s2 s3 -> balanced x c s1 s3.
Proof.
  intros H1 H2. constructor.
  - apply (ba_chain _ _ _ _ H2).
  - etrans; [apply (ba_parts _ _ _ _ H1)|apply (ba_parts _ _ _ _ H2)].
  - intros i p p'' Hi Hp Hp''. destruct (same_parts_entry _ _ _ _ (ba_parts _ _ _ _ H2) Hp'') as (p' & Hp' & _).
    eapply entry_kept_trans; [by eapply (ba_entries _ _ _ _ H1)|].
    eapply (ba_entries _ _ _ _ H2); [|done..]. by rewrite (same_count _ _ (ba_parts _ _ _ _ H1)).
  - by rewrite (ba_regs _ _ _ _ H2), (ba_regs _ _ _ _ H1).
  - by rewrite (ba_ns _ _ _ _ H2), (ba_ns _ _ _ _ H1).
Qed.

(** The invariant does not depend on the registers but for the range of the
    stack pointer. *)
Lemma chain_ok_set_cpu x c f s :
  word_ok (PSP (f (cpu s))) -> chain_ok x c s -> chain_ok x c (set_cpu f s).
Proof.
  intros Hpsp Hch. destruct Hch as [Hdb H1 H2 Hl H3 H4 H5 H6 H7 H8]. constructor; try done.
  - by eapply db_ok_same; [|exact Hdb].
  - apply (linked_keep s); [|done]. intros i p _ Hi. by exists p.
Qed.

Lemma chain_ok_set_words x c f s : chain_ok x c s -> chain_ok x c (set_words f s).
Proof.
  intros Hch. destruct Hch as [Hdb H1 H2 Hl H3 H4 H5 H6 H7 H8]. constructor; try done.
  - by eapply db_ok_same; [|exact Hdb].
  - apply (linked_keep s); [|done]. intros i p _ Hi. by exists p.
Qed.

Lemma chain_ok_set_ns_AIRCR x c f s : chain_ok x c s -> chain_ok x c (set_ns_AIRCR f s).
Proof.
  intros Hch. destruct Hch as [Hdb H1 H2 Hl H3 H4 H5 H6 H7 H8]. constructor; try done.
  - by eapply db_ok_same; [|exact Hdb].
  - apply (linked_keep s); [|done]. intros i p _ Hi. by exists p.
Qed.

Lemma balanced_refl x c s : chain_ok x c s -> balanced x c s s.
Proof. intros. constructor; try done. intros i p p' _ Hp Hp'. simplify_eq. apply entry_kept_refl. Qed.

Lemma balanced_irq x c v s : chain_ok x c s ->
  balanced x c s (set_cpu (fun c => {| PSP := PSP c; PSPLIM := PSPLIM c; CONTROL_nPRIV := CONTROL_nPRIV c;
    CONTROL_SPSEL := CONTROL_SPSEL c; IPSR := IPSR c; PRIMASK := v; SHCSR := SHCSR c;
    AIRCR_low := AIRCR_low c |}) s).
Proof.
  intros Hch. constructor; try done.
  - apply chain_ok_set_cpu; [apply (ch_psp _ _ _ Hch)|done].
  - intros i p p' _ Hp Hp'. rewrite entry_set_cpu in Hp'. simplify_eq. apply entry_kept_refl.
Qed.
End chain.
