(* ===== verification/SecureApiBalance.v ===== *)
(** * Secure calls return

    By induction on the nesting of calls: a secure function whose body only
    calls declared partitions and returns allowed values runs to its end from
    any state of the invariant, and leaves the caller's side as it was. *)

From stdpp Require Import sets.
From S2P Require Import Prelude Mpu SpmHal Spm SecureApi SecureApiSpec SecureApiChain.

Section balance.
  Context {Layout : tfm_layout} {Cmse : cmse}.
  Context (Hlvl : TFM_LVL = 1 \/ TFM_LVL = 3) (Hlayout : TFM_LVL = 3 -> layout_ok).

(** A value a secure function may return: the core reserves 1 and 3 to 31. *)
Definition allowed_return (v : Z) : Prop :=
  - 2 ^ 31 <= v < 2 ^ 31 /\ (v <= 0 \/ v = TFM_PARTITION_BUSY \/ TFM_PARTITION_SPECIFIC_ERROR_MIN <= v).

(** A function body that calls partitions of [ids] only and returns allowed
    values. *)
Inductive prog_ok (ids : list Z) : sfn_prog -> Prop :=
  | ok_return v : allowed_return v -> prog_ok ids (SfnReturn v)
  | ok_call id fn a k : id ∈ ids -> (forall v, prog_ok ids (k v)) -> prog_ok ids (SfnCall id fn a k)
  | ok_validate k : (forall v, prog_ok ids (k v)) -> prog_ok ids (SfnValidateCaller k)
  | ok_memory_check p n acc k : (forall v, prog_ok ids (k v)) -> prog_ok ids (SfnMemoryCheck p n acc k)
  | ok_buffer_area sh k : (forall v, prog_ok ids (k v)) -> prog_ok ids (SfnSetBufferArea sh k).

(** Partitions that can still be called. *)
Definition callable (x : Z) (c : list Z) (s : tfm_state) : Z :=
  partition_count (g_spm_partition_db s) - Z.of_nat (length (x :: c)).

(** [run_sfn] runs secure functions to their end while fewer than [n]
    partitions can still be called. *)
Definition sfn_ok (run_sfn : Z -> Z * Z * Z * Z -> TM Z) (ids : list Z) (n : nat) : Prop :=
  forall a ar x c s,
    chain_ok x c s -> x <> 0 -> part_ids s = ids -> callable x c s < Z.of_nat n ->
    IPSR (cpu s) = EXC_NUM_THREAD_MODE -> CONTROL_SPSEL (cpu s) = 1 ->
    runs (run_sfn a ar) s (fun v s' => allowed_return v /\ balanced x c s s').

(** As [sfn_ok], and the function called at [a] with [ar] in the state [s]
    returns a value [v] with [V a ar s v]. *)
Definition sfn_meets (V : Z -> Z * Z * Z * Z -> tfm_state -> Z -> Prop) (run_sfn : Z -> Z * Z * Z * Z -> TM Z)
    (ids : list Z) (n : nat) : Prop :=
  forall a ar x c s,
    chain_ok x c s -> x <> 0 -> part_ids s = ids -> callable x c s < Z.of_nat n ->
    IPSR (cpu s) = EXC_NUM_THREAD_MODE -> CONTROL_SPSEL (cpu s) = 1 ->
    runs (run_sfn a ar) s (fun v s' => V a ar s v /\ allowed_return v /\ balanced x c s s').

Lemma sfn_ok_meets run_sfn ids n : sfn_ok run_sfn ids n -> sfn_meets (fun _ _ _ _ => True) run_sfn ids n.
Proof. intros H a ar x c s H1 H2 H3 H4 H5 H6. eapply runs_mono; [by eapply (H a ar x c s)|]. auto. Qed.

(** A chain of a secure partition has a caller, and the partition is not 0. *)
Lemma chain_nonzero x y c s : chain_ok x (y :: c) s -> x <> 0.
Proof.
  intros Hch ->. pose proof (ch_linked _ _ _ Hch) as Hl. pose proof (ch_nodup _ _ _ Hch) as Hn.
  inversion Hn as [|? ? Hn0 _]; subst. apply Hn0.
  inversion Hl as [|? ? ? ? _ _ Hl' E]; subst. by eapply linked_has_ns.
Qed.

Lemma same_parts_callable x c s s' : same_parts s s' -> callable x c s' = callable x c s.
Proof. intros H. unfold callable. by rewrite (same_count _ _ H). Qed.

Lemma entry_exists x c s i : chain_ok x c s -> i ∈ x :: c -> exists p, entry s i = Some p.
Proof.
  intros Hch Hi. apply entry_is_Some; [apply (ch_db _ _ _ Hch)|apply (ch_range _ _ _ Hch i Hi)].
Qed.

(** A call, from the push to the pop: [s1] to [s2] and [s3] to [s4] change no
    entry. *)
Section one_call.
  Context (desc : tfm_sfn_req_s) (lr x t : Z) (px pt qx qt : spm_partition_desc_t) (c : list Z).
  Context (s s1 s2 s3 s4 s5 : tfm_state).
  Context (Hch : chain_ok x c s) (Hx : entry s x = Some px) (Ht : entry s t = Some pt).
  Context (Htr : 0 <= t < partition_count (g_spm_partition_db s)).
  Context (Hst : partition_state (runtime_data pt) = SPM_PARTITION_STATE_IDLE).
  Context (Hpush : pushed desc lr x t px pt s s1).
  Context (E12 : forall i, entry s2 i = entry s1 i).
  Context (Hrun : entries_kept t (x :: c) s2 s3).
  Context (Hcount : partition_count (g_spm_partition_db s2) = partition_count (g_spm_partition_db s)).
  Context (E34 : forall i, entry s4 i = entry s3 i).
  Context (Hqx : entry s4 x = Some qx) (Hqt : entry s4 t = Some qt).
  Context (Hpop : popped t x qt qx s4 s5).
  Context (Hpsp : TFM_LVL = 3 -> u32 (PSP (cpu s4) + SVC_STACK_FRAME_SIZE) = stack_ptr (runtime_data pt)).

Lemma call_caller_runtime : runtime_data qx = caller_runtime x s (runtime_data px).
Proof using All.
  pose proof (callee_not_in_chain x t pt c s Hch Ht Htr Hst) as Hnt.
  destruct (ch_range _ _ _ Hch x ltac:(left)) as [_ Hxc].
  rewrite E34 in Hqx. assert (x <> t) by set_solver.
  assert (entry s2 x = Some (set_runtime (caller_runtime x s) px)) as H2.
  { by rewrite E12, (pu_entry _ _ _ _ _ _ _ _ Hpush), decide_False, decide_True. }
  apply (kept_waiting _ _ _ _ _ (Hrun x _ _ ltac:(lia) H2 Hqx)). left.
Qed.

Lemma call_callee_runtime :
  caller_partition_idx (runtime_data qt) = x /\ orig_psp (runtime_data qt) = PSP (cpu s) /\
  orig_psplim (runtime_data qt) = PSPLIM (cpu s) /\ orig_lr (runtime_data qt) = lr /\
  (TFM_LVL = 1 -> stack_ptr (runtime_data qt) = stack_ptr (runtime_data pt)).
Proof using All.
  rewrite E34 in Hqt.
  assert (entry s2 t = Some (set_runtime (called_runtime desc lr x s) pt)) as H2.
  { by rewrite E12, (pu_entry _ _ _ _ _ _ _ _ Hpush), decide_True. }
  destruct (kept_running _ _ _ _ _ (Hrun t _ _ ltac:(lia) H2 Hqt) eq_refl) as (_&?&?&?&?&?). done.
Qed.

Lemma call_entries_kept : entries_kept x c s s5.
Proof using All.
  pose proof (callee_not_in_chain x t pt c s Hch Ht Htr Hst) as Hnt.
  pose proof call_caller_runtime as Hcr. pose proof call_callee_runtime as Htr'.
  assert (x <> t) as Hxt by set_solver.
  intros i p p' Hi Hp Hp'. rewrite (po_entry _ _ _ _ _ _ Hpop) in Hp'.
  destruct (decide (i = t)) as [->|Hit]; [|destruct (decide (i = x)) as [->|Hix]]; simplify_eq.
  - constructor; [set_solver..|]. intros _. cbn. split; [done|].
    destruct Hlvl as [E|E]; rewrite E; cbn [Z.eqb Pos.eqb]; [by apply Htr'|by apply Hpsp].
  - constructor.
    + pose proof (ch_nodup _ _ _ Hch) as Hn. inversion Hn; subst. done.
    + intros _. cbn. rewrite Hcr. unfold caller_runtime.
      pose proof (ent_running _ _ _ _ (ch_entry _ _ _ Hch x px Hi Hx) eq_refl) as ->.
      destruct Hlvl as [E|E]; rewrite E; cbn; [done|]. destruct (x =? 0); cbn; split_and!; done.
    + set_solver.
  - rewrite E34 in Hp'.
    assert (entry s2 i = Some p) as H2.
    { by rewrite E12, (pu_entry _ _ _ _ _ _ _ _ Hpush), !decide_False. }
    pose proof (Hrun i p p' ltac:(lia) H2 Hp') as Hk. constructor.
    + intros Hic. apply (kept_waiting _ _ _ _ _ Hk). by right.
    + done.
    + intros Hic. apply (kept_idle _ _ _ _ _ Hk). set_solver.
Qed.
End one_call.

(** The state with the interrupt mask set to [v]. *)
Definition irq (v : Z) (s : tfm_state) : tfm_state :=
  set_cpu (fun c => {| PSP := PSP c; PSPLIM := PSPLIM c; CONTROL_nPRIV := CONTROL_nPRIV c;
    CONTROL_SPSEL := CONTROL_SPSEL c; IPSR := IPSR c; PRIMASK := v; SHCSR := SHCSR c;
    AIRCR_low := AIRCR_low c |}) s.

Lemma chain_ok_irq x c v s : chain_ok x c s -> chain_ok x c (irq v s).
Proof. intros Hch. apply chain_ok_set_cpu; [apply (ch_psp _ _ _ Hch)|done]. Qed.

Lemma s32_u32 v : - 2 ^ 31 <= v < 2 ^ 31 -> s32 (u32 v) = v.
Proof.
  intros Hv. unfold s32, u32. rewrite Zplus_mod_idemp_l, Z.mod_small by lia. lia.
Qed.

Lemma allowed_not_reserved v : allowed_return v ->
  negb ((v =? TFM_SUCCESS) || (v =? TFM_PARTITION_BUSY)) &&
    ((TFM_SUCCESS <? v) && (v <? TFM_PARTITION_SPECIFIC_ERROR_MIN)) = false.
Proof.
  intros [_ Hv]. unfold TFM_SUCCESS, TFM_PARTITION_BUSY, TFM_PARTITION_SPECIFIC_ERROR_MIN in *.
  destruct (Z.eqb_spec v 0), (Z.eqb_spec v 2), (Z.ltb_spec 0 v), (Z.ltb_spec v 32); cbn; done || lia.
Qed.

(** The return handler pops the call and passes the value on. *)
Lemma return_handler_runs t x c s qt qx v :
  chain_ok t (x :: c) s -> entry s t = Some qt -> entry s x = Some qx ->
  stack_word s (PSP (cpu s)) = u32 v -> allowed_return v ->
  orig_lr (runtime_data qt) = Z.lor return_from_sfn 1 -> restores x = true ->
  runs (tfm_core_partition_return_handler 0xFFFFFFFD) s (fun r s' =>
    r = (v, Z.lor return_from_sfn 1) /\ exists s1, popped t x qt qx (irq 1 s) s1 /\ s' = irq 0 s1).
Proof using Hlvl Hlayout.
  intros Hch Hqt Hqx Hw Hv Hlr Hre. unfold tfm_core_partition_return_handler, disable_irq, enable_irq, set_PRIMASK.
  run_getters. change (Z.land 0xFFFFFFFD EXC_RETURN_STACK_PROCESS =? 0) with false. cbv iota.
  run_getters. unfold read_word. run_getters. fold (irq 1 s).
  change (stack_word (irq 1 s) (PSP (cpu (irq 1 s)))) with (stack_word s (PSP (cpu s))). rewrite Hw.
  cbv zeta. rewrite (s32_u32 v) by apply Hv. rewrite (allowed_not_reserved v Hv). apply runs_bind.
  eapply runs_mono; [apply (pop_lock_runs Hlvl Hlayout _ t x c (irq 1 s) qt qx);
    [by apply chain_ok_irq|done|done|by eexists]|].
  intros r s1 [-> Hpop]. rewrite Hre, Hlr. cbn [negb Z.eqb TFM_SUCCESS default]. rewrite Z.eqb_refl. cbn [negb].
  run_getters. split; [done|]. by exists s1.
Qed.

Definition handler_mode (c : cpu_t) : cpu_t := {|
  PSP := PSP c; PSPLIM := PSPLIM c; CONTROL_nPRIV := CONTROL_nPRIV c; CONTROL_SPSEL := 0;
  IPSR := EXC_NUM_SVCALL; PRIMASK := PRIMASK c; SHCSR := SHCSR c; AIRCR_low := AIRCR_low c |}.

Lemma entry_db s s' i : g_spm_partition_db s' = g_spm_partition_db s -> entry s' i = entry s i.
Proof. intros E. unfold entry. by rewrite E. Qed.

Lemma same_parts_db s s' : g_spm_partition_db s' = g_spm_partition_db s -> same_parts s s'.
Proof. intros E. constructor; [by rewrite E..|]. intros i. by rewrite (entry_db s s'). Qed.

(** The arguments as words of the frame. *)
Definition passed_args (a : Z * Z * Z * Z) : Z * Z * Z * Z :=
  let '(a0, a1, a2, a3) := a in (s32 (u32 a0), s32 (u32 a1), s32 (u32 a2), s32 (u32 a3)).

Section run.
  Context (V : Z -> Z * Z * Z * Z -> tfm_state -> Z -> Prop).
  Context (run_sfn : Z -> Z * Z * Z * Z -> TM Z) (ids : list Z) (n : nat).
  Context (Hsfn : sfn_meets V run_sfn ids n).

(** A call after its push, in the state [s2] the function is entered from. *)
Section entered.
  Context (desc : tfm_sfn_req_s) (x t : Z) (px pt : spm_partition_desc_t) (c : list Z).
  Context (s s1 s2 : tfm_state).
  Context (Hch : chain_ok x c s) (Hx : entry s x = Some px) (Ht : entry s t = Some pt).
  Context (Htr : 0 <= t < partition_count (g_spm_partition_db s)).
  Context (Hst : partition_state (runtime_data pt) = SPM_PARTITION_STATE_IDLE).
  Context (Hids : part_ids s = ids) (Hfuel : callable t (x :: c) s < Z.of_nat n).
  Context (Hpush : pushed desc (Z.lor return_from_sfn 1) x t px pt s s1).
  Context (E12 : g_spm_partition_db s2 = g_spm_partition_db s1) (Hch2 : chain_ok t (x :: c) s2).
  Context (Hcpu2 : PSP (cpu s2) = PSP (cpu s1)) (Hw2 : stack_word s2 = stack_word s1).

(** The function of the descriptor ran with its arguments, in a state of the
    called partition, and returned [v]. *)
Definition entered (v : Z) : Prop :=
  exists s', chain_ok t (x :: c) s' /\ part_ids s' = ids /\ IPSR (cpu s') = EXC_NUM_THREAD_MODE /\
    CONTROL_SPSEL (cpu s') = 1 /\ V (sfn desc) (passed_args (args desc)) s' v.

Definition call_done (v : Z) (s5 : tfm_state) : Prop :=
  allowed_return v /\ chain_ok x c s5 /\ same_parts s s5 /\ entries_kept x c s s5 /\
  ns_state_AIRCR s5 = ns_state_AIRCR s2.

Lemma entered_same : same_parts s s2.
Proof using Hx Ht Hpush E12.
  etrans; [apply (pushed_same _ _ _ _ _ _ _ _ Hx Ht Hpush)|]. by apply same_parts_db.
Qed.

Lemma entered_nonzero : t <> 0.
Proof using Hch2. by eapply chain_nonzero. Qed.

(** The pop and what it gives, once the function has run from [s2'] to [s3]. *)
Lemma call_finish s2' s3 s4 s5 qt qx v :
  g_spm_partition_db s2' = g_spm_partition_db s2 -> balanced t (x :: c) s2' s3 ->
  g_spm_partition_db s4 = g_spm_partition_db s3 -> chain_ok t (x :: c) s4 ->
  entry s4 t = Some qt -> entry s4 x = Some qx -> popped t x qt qx s4 s5 ->
  ns_state_AIRCR s2' = ns_state_AIRCR s2 -> ns_state_AIRCR s4 = ns_state_AIRCR s3 ->
  (TFM_LVL = 3 -> u32 (PSP (cpu s4) + SVC_STACK_FRAME_SIZE) = stack_ptr (runtime_data pt)) ->
  allowed_return v -> call_done v s5.
Proof using Cmse Hlvl Hlayout Hch Hx Ht Htr Hst Hpush E12.
  intros E2 Hb E4 Hch4 Hqt Hqx Hpop N2 N4 Hpsp Hv. unfold call_done. split; [done|].
  assert (same_parts s s2') as S2 by (etrans; [apply entered_same|by apply same_parts_db]).
  assert (same_parts s3 s4) as S4 by by apply same_parts_db.
  split_and!.
  - by eapply popped_chain.
  - etrans; [exact S2|]. etrans; [apply (ba_parts _ _ _ _ Hb)|]. etrans; [exact S4|]. by apply (popped_same t x qt qx).
  - eapply (call_entries_kept desc _ x t px pt qx qt c s s1 s2' s3 s4 s5); try done.
    + intros i. apply entry_db. by rewrite E2, E12.
    + apply (ba_entries _ _ _ _ Hb).
    + apply (same_count _ _ S2).
    + intros i. by apply entry_db.
  - destruct (po_rest _ _ _ _ _ _ Hpop) as [_ ->]. by rewrite N4, (ba_ns _ _ _ _ Hb), N2.
Qed.

Lemma call_callee s2' s3 s4 qt :
  g_spm_partition_db s2' = g_spm_partition_db s2 -> balanced t (x :: c) s2' s3 ->
  g_spm_partition_db s4 = g_spm_partition_db s3 -> entry s4 t = Some qt ->
  orig_psp (runtime_data qt) = PSP (cpu s) /\ orig_psplim (runtime_data qt) = PSPLIM (cpu s) /\
  orig_lr (runtime_data qt) = Z.lor return_from_sfn 1.
Proof using All.
  intros E2 Hb E4 Hqt.
  assert (entry s2' t = Some (set_runtime (called_runtime desc (Z.lor return_from_sfn 1) x s) pt)) as H2.
  { rewrite (entry_db s1) by by rewrite E2. by rewrite (pu_entry _ _ _ _ _ _ _ _ Hpush), decide_True. }
  rewrite (entry_db s3 s4 t E4) in Hqt.
  destruct entered_same as [_ Hc _ _].
  destruct (kept_running _ _ _ _ _ (ba_entries _ _ _ _ Hb t _ _ ltac:(rewrite E2, Hc; lia) H2 Hqt) eq_refl)
    as (_&_&?&?&?&_). done.
Qed.

(** The path by exception return. *)
Lemma exc_return_runs :
  switches desc = true -> restores x = true -> IPSR (cpu s2) <> 0 -> PSPLIM (cpu s2) = PSPLIM (cpu s1) ->
  runs (tfm_core_exc_return_to_sfn run_sfn) s2 (fun v s5 => call_done v s5 /\
    regs (cpu s5) = regs (with_stack (PSP (cpu s)) (PSPLIM (cpu s)) (handler_mode (cpu s2))) /\ entered v).
Proof using All.
  intros Hsw Hre Hipsr Hlim. unfold tfm_core_exc_return_to_sfn. run_getters.
  rewrite (proj2 (Z.eqb_neq _ _) Hipsr). unfold read_word, write_word, set_PSP, set_SPSEL, set_IPSR.
  run_getters.
  set (s2' := set_cpu _ (set_cpu _ (set_cpu _ s2))).
  assert (chain_ok t (x :: c) s2') as Hch2'.
  { do 3 (apply chain_ok_set_cpu; [try apply u32_ok|]); done. }
  assert (same_parts s s2') as S2 by (etrans; [apply entered_same|done]).
  assert (part_ids s2' = ids) as I2 by by rewrite (same_parts_ids _ _ S2).
  eapply runs_mono; [apply (Hsfn _ _ t (x :: c) s2'); try done|].
  { apply entered_nonzero. }
  { by rewrite (same_parts_callable _ _ _ _ S2). }
  intros v s3 (HV & Hv & Hb). run_getters.
  assert (V (sfn desc) (passed_args (args desc)) s2' v) as HV'.
  { pose proof (pu_frame _ _ _ _ _ _ _ _ Hpush Hsw) as Hf. unfold frame_at in Hf. rewrite <- Hw2, <- Hcpu2 in Hf.
    unfold passed_args. destruct (args desc) as [[[a0 a1] a2] a3]. destruct Hf as (<- & <- & <- & <- & <-). exact HV. }
  pose proof (ba_regs _ _ _ _ Hb) as Hregs. unfold regs in Hregs.
  injection Hregs as R1 R2 R3 R4 R5 R6 R7.
  rewrite R4. change (CONTROL_SPSEL (cpu s2')) with 1. cbv zeta. change (exc_return_value 1) with 0xFFFFFFFD.
  set (s4 := set_cpu _ (set_cpu _ (set_words _ (set_cpu _ s3)))).
  assert (chain_ok t (x :: c) s4) as Hch4.
  { do 2 (apply chain_ok_set_cpu; [apply u32_ok|]). apply chain_ok_set_words.
    apply chain_ok_set_cpu; [apply u32_ok|]. apply (ba_chain _ _ _ _ Hb). }
  destruct (entry_exists _ _ _ t Hch4 ltac:(left)) as [qt Hqt].
  destruct (entry_exists _ _ _ x Hch4 ltac:(right; left)) as [qx Hqx].
  destruct (call_callee s2' s3 s4 qt eq_refl Hb eq_refl Hqt) as (O1 & O2 & O3).
  eapply runs_mono; [eapply (return_handler_runs t x c s4 qt qx v); try done|].
  { cbn [stack_word s4 set_cpu set_words cpu PSP]. by rewrite upd_eq. }
  intros r s5 (-> & s5' & Hpop & ->). apply runs_ret. split.
  - enough (call_done v s5') as (?&?&[]&?&?).
    { split_and!; try done. by apply chain_ok_irq. }
    eapply (call_finish s2' s3 (irq 1 s4) s5'); try done; [by apply chain_ok_irq|].
    intros E3. change (PSP (cpu (irq 1 s4))) with (u32 (PSP (cpu s3) - 32)). rewrite R1.
    change (PSP (cpu s2')) with (u32 (PSP (cpu s2) + 32)). rewrite Hcpu2, (pu_cpu _ _ _ _ _ _ _ _ Hpush), Hsw.
    unfold partition_stack. rewrite E3. cbn [Z.eqb Pos.eqb fst with_stack PSP].
    destruct (ent_words _ _ _ _ (ch_entry _ _ _ Hch t pt ltac:(lia) Ht)) as [Hsp _].
    unfold u32, SVC_STACK_FRAME_SIZE. rewrite Zplus_mod_idemp_l, Z.sub_add, Z.mod_mod by lia.
    rewrite Zplus_mod_idemp_l, Z.sub_add. by apply Z.mod_small.
  - split; [|by exists s2'].
    cbn. rewrite (po_cpu _ _ _ _ _ _ Hpop), Hre, O1, O2. unfold regs, with_stack, handler_mode. cbn.
    rewrite R3, R6, R7. done.
Qed.
(** The direct call of level 1. *)
Lemma direct_call_runs :
  switches desc = false -> x <> 0 -> IPSR (cpu s2) = 0 -> CONTROL_SPSEL (cpu s2) = 1 ->
  runs (tfm_core_call_sfn run_sfn desc) s2 (fun v s5 => call_done v s5 /\ regs (cpu s5) = regs (cpu s2)).
Proof using All.
  intros Hsw Hx0 Hipsr Hspsel. unfold switches in Hsw. apply orb_false_iff in Hsw as [L1 Hexc].
  unfold tfm_core_call_sfn. run_getters. rewrite (ch_init _ _ _ Hch2).
  apply negb_false_iff in L1, Hexc. rewrite L1, Hexc. cbn [andb Z.eqb].
  pose proof entered_same as S2. run_getters.
  eapply runs_mono; [apply (Hsfn _ _ t (x :: c) s2); try done|].
  { apply entered_nonzero. }
  { by rewrite (same_parts_ids _ _ S2). }
  { by rewrite (same_parts_callable _ _ _ _ S2). }
  intros v s3 (_ & Hv & Hb). run_getters. pose proof (ba_chain _ _ _ _ Hb) as Hch3.
  destruct (entry_exists _ _ _ t Hch3 ltac:(left)) as [qt Hqt].
  destruct (entry_exists _ _ _ x Hch3 ltac:(right; left)) as [qx Hqx].
  assert (restores x = false) as Hre. { unfold restores. rewrite L1. cbn. by apply Z.eqb_neq. }
  eapply runs_mono; [apply (pop_lock_runs Hlvl Hlayout None t x c s3 qt qx); try done; congruence|].
  intros r s5 [-> Hpop]. cbn. apply runs_ret. split.
  - eapply (call_finish s2 s3 s3 s5); try done.
    intros E3. apply Z.eqb_eq in L1. lia.
  - rewrite (po_cpu _ _ _ _ _ _ Hpop), Hre. apply (ba_regs _ _ _ _ Hb).
Qed.

Lemma switched_call_runs :
  switches desc = true -> restores x = true -> IPSR (cpu s2) <> 0 -> PSPLIM (cpu s2) = PSPLIM (cpu s1) ->
  runs (tfm_core_call_sfn run_sfn desc) s2 (fun v s5 => call_done v s5 /\
    regs (cpu s5) = regs (with_stack (PSP (cpu s)) (PSPLIM (cpu s)) (handler_mode (cpu s2))) /\ entered v).
Proof using All.
  intros Hsw Hre Hipsr Hlim. unfold tfm_core_call_sfn. run_getters.
  assert ((TFM_LVL =? 1) && (exc_num desc =? EXC_NUM_THREAD_MODE) = false) as ->.
  { unfold switches in Hsw. rewrite <- negb_andb in Hsw. by apply negb_true_iff in Hsw. }
  by apply exc_return_runs.
Qed.
End entered.
End run.

(** A call of a partition that is not idle is refused and changes nothing. *)
Definition refusal (p : spm_partition_desc_t) : Z :=
  if (partition_state (runtime_data p) =? SPM_PARTITION_STATE_RUNNING)
     || (partition_state (runtime_data p) =? SPM_PARTITION_STATE_SUSPENDED)
     || (partition_state (runtime_data p) =? SPM_PARTITION_STATE_BLOCKED)
  then TFM_ERROR_PARTITION_NON_REENTRANT else TFM_SECURE_LOCK_FAILED.

Lemma push_refused desc lr x c s t px pt :
  chain_ok x c s -> ns_caller desc = (x =? 0) -> entry s x = Some px -> entry s t = Some pt ->
  0 <= t < partition_count (g_spm_partition_db s) -> sp_id desc = partition_id (static_data pt) ->
  partition_state (runtime_data pt) <> SPM_PARTITION_STATE_IDLE ->
  tfm_push_lock desc lr s = (Ok (refusal pt), s).
Proof.
  intros Hch Hns Hx Ht Htr Hid Hst.
  pose proof (ch_db _ _ _ Hch) as Hdb. pose proof (ch_running _ _ _ Hch) as Hrun.
  destruct (ch_range _ _ _ Hch x) as [Hx0 Hxc]; [left|].
  assert (is_secure px = negb (x =? 0)) as Hsec by (apply (db_secure s Hdb x px); [lia|done]).
  apply runs_eq. unfold tfm_push_lock. run_getters. rewrite Hrun, (invalid_idx_ne s x c Hch). run_getters.
  fold (is_secure px). rewrite Hsec, Hns. rewrite eqb_reflx. cbn [negb].
  apply runs_bind. eapply runs_val; [rewrite Hid; by apply get_partition_idx_spec|].
  run_getters. unfold push_lock_state_check. run_getters. rewrite (ch_init _ _ _ Hch). cbn [negb Z.eqb andb].
  unfold refusal. destruct (_ || _ || _); [by run_getters|].
  rewrite (proj2 (Z.eqb_neq _ _) Hst). cbn [negb]. by run_getters.
Qed.

Lemma refusal_error p : refusal p =? TFM_SUCCESS = false.
Proof. unfold refusal. by destruct (_ || _ || _). Qed.

Lemma error_status_range r : 0 <= r < 2 ^ 31 -> - 2 ^ 31 <= TFM_ERROR_STATUS r < 2 ^ 31.
Proof. unfold TFM_ERROR_STATUS, TFM_PARTITION_BUSY. destruct TFM_CORE_DEBUG; lia. Qed.

Lemma balanced_of_call x c s s2 s5 v :
  call_done x c s s2 v s5 -> regs (cpu s5) = regs (cpu s) -> ns_state_AIRCR s2 = ns_state_AIRCR s ->
  balanced x c s s5.
Proof. intros (_ & ? & ? & ? & E) R N. constructor; try done. by rewrite E. Qed.

Section request.
  Context (run_sfn : Z -> Z * Z * Z * Z -> TM Z) (ids : list Z) (n : nat).
  Context (Hsfn : sfn_ok run_sfn ids n).

(** A secure partition's request is served or refused, and leaves the
    partition's side as it was. *)
Lemma secure_request_runs desc x c s :
  chain_ok x c s -> x <> 0 -> part_ids s = ids -> callable x c s < Z.of_nat (S n) ->
  ns_caller desc = false -> exc_num desc = EXC_NUM_THREAD_MODE -> sp_id desc ∈ ids ->
  (TFM_LVL = 1 /\ IPSR (cpu s) = 0 /\ CONTROL_SPSEL (cpu s) = 1 \/
   TFM_LVL = 3 /\ IPSR (cpu s) = EXC_NUM_SVCALL /\ CONTROL_SPSEL (cpu s) = 0) ->
  runs (tfm_core_sfn_request_function run_sfn (Some desc)) s (fun v s' =>
    - 2 ^ 31 <= v < 2 ^ 31 /\ balanced x c s s').
Proof using All.
  intros Hch Hx0 Hids Hfuel Hns Hexc Hid Hmode. unfold tfm_core_sfn_request_function.
  unfold tfm_check_sfn_req_integrity. destruct (_ || _).
  { apply runs_ret. split; [by apply error_status_range|by apply balanced_refl]. }
  cbn [Z.eqb TFM_SUCCESS negb]. unfold disable_irq, enable_irq, set_PRIMASK. run_getters.
  unfold tfm_core_check_sfn_req_rules. rewrite Hns, Hexc. cbn [Z.eqb EXC_NUM_THREAD_MODE negb andb].
  run_getters. cbn [Z.eqb negb TFM_SUCCESS]. run_getters. fold (irq 1 s).
  pose proof (chain_ok_irq x c 1 s Hch) as Hch1.
  assert (same_parts s (irq 1 s)) as S1 by by apply same_parts_db.
  destruct (entry_exists _ _ _ x Hch1 ltac:(left)) as [px Hx].
  destruct (part_ids_elem (irq 1 s) (sp_id desc)) as (t & pt & Htr & Ht & Hpid).
  { apply (ch_db _ _ _ Hch1). } { by rewrite (same_parts_ids _ _ S1), Hids. }
  assert (ns_caller desc = (x =? 0)) as Hns' by (rewrite Hns; symmetry; by apply Z.eqb_neq).
  destruct (decide (partition_state (runtime_data pt) = SPM_PARTITION_STATE_IDLE)) as [Hst|Hst].
  2:{ eapply runs_val; [by eapply push_refused|]. rewrite refusal_error. cbn [negb]. run_getters.
      split; [apply error_status_range; unfold refusal; by destruct (_ || _ || _)|].
      eapply balanced_trans; [by apply (balanced_irq x c 1)|]. by apply balanced_irq. }
  eapply runs_mono; [by apply (push_lock_runs Hlvl Hlayout desc _ x c (irq 1 s) t px pt)|].
  intros r s1 [-> Hpush]. cbn [Z.eqb negb TFM_SUCCESS]. run_getters. fold (irq 0 s1).
  assert (chain_ok t (x :: c) s1) as Hch2 by by eapply pushed_chain.
  apply (chain_ok_irq _ _ 0) in Hch2.
  assert (callable t (x :: c) (irq 1 s) < Z.of_nat n) as Hf.
  { unfold callable in *. cbn [length] in *. rewrite (same_count _ _ S1). lia. }
  assert (regs (cpu (irq 0 s1)) = regs (cpu s1)) as R0 by done.
  assert (ns_state_AIRCR (irq 0 s1) = ns_state_AIRCR s) as N0.
  { destruct (pu_rest _ _ _ _ _ _ _ _ Hpush) as [_ E]. exact E. }
  assert (switches desc = negb (TFM_LVL =? 1)) as Hsw.
  { unfold switches. rewrite Hexc. cbn. by rewrite orb_false_r. }
  pose proof (pu_cpu _ _ _ _ _ _ _ _ Hpush) as Hcpu.
  destruct Hmode as [(E & Hi & Hsp)|(E & Hi & Hsp)].
  - rewrite E in Hsw. cbn in Hsw. rewrite Hsw in Hcpu.
    eapply runs_mono; [apply (direct_call_runs _ run_sfn ids n (sfn_ok_meets _ _ _ Hsfn) desc x t px pt c (irq 1 s) s1 (irq 0 s1)); try done;
      cbn; rewrite Hcpu; done|].
    intros v s5 [Hd Hr]. run_getters. split; [apply Hd|].
    eapply balanced_trans; [by apply (balanced_irq x c 1)|]. eapply balanced_of_call; [exact Hd|by rewrite Hr, R0, Hcpu|exact N0].
  - rewrite E in Hsw. cbn in Hsw. rewrite Hsw in Hcpu.
    assert (restores x = true) as Hre by (unfold restores; by rewrite E).
    eapply runs_mono; [apply (switched_call_runs _ run_sfn ids n (sfn_ok_meets _ _ _ Hsfn) desc x t px pt c (irq 1 s) s1 (irq 0 s1)); try done;
      cbn; rewrite Hcpu; cbn; rewrite Hi; done|].
    intros v s5 (Hd & Hr & _). run_getters. split; [apply Hd|].
    eapply balanced_trans; [by apply (balanced_irq x c 1)|]. eapply balanced_of_call; [exact Hd| |exact N0]. rewrite Hr. cbn. rewrite Hcpu.
    unfold regs, with_stack, handler_mode. cbn. by rewrite Hi, Hsp.
Qed.
End request.

(** ** Core requests of a running partition *)

Lemma s32_range x : - 2 ^ 31 <= s32 x < 2 ^ 31.
Proof. unfold s32. pose proof (Z.mod_pos_bound (x + 2 ^ 31) (2 ^ 32) ltac:(lia)). lia. Qed.

(** The entry of a running secure partition and of its caller. *)
Lemma running_caller x c s : chain_ok x c s -> x <> 0 ->
  exists y c' px py, c = y :: c' /\ entry s x = Some px /\ entry s y = Some py /\
    caller_partition_idx (runtime_data px) = y /\ is_secure px = true /\ is_secure py = negb (y =? 0).
Proof.
  intros Hch Hx0. pose proof (ch_linked _ _ _ Hch) as Hl.
  inversion Hl as [|? y c' px Hx Hy _]; subst; [done|].
  destruct (entry_exists _ _ _ (caller_partition_idx (runtime_data px)) Hch) as [py Hpy]; [right; left|].
  exists (caller_partition_idx (runtime_data px)), c', px, py. split_and!; try done.
  - rewrite (db_secure s (ch_db _ _ _ Hch) x px); [|apply (ch_range _ _ _ Hch); left|done].
    apply negb_true_iff. by apply Z.eqb_neq.
  - apply (db_secure s (ch_db _ _ _ Hch)); [|done]. apply (ch_range _ _ _ Hch). right. left.
Qed.

(** Changing the share of the running partition. *)
Lemma balanced_share x c s px v h :
  chain_ok x c s -> x <> 0 -> entry s x = Some px ->
  v = TFM_BUFFER_SHARE_SCRATCH \/ v = TFM_BUFFER_SHARE_NS_CODE ->
  (TFM_LVL = 3 -> mpu_for h px (share_region v)) ->
  balanced x c s (alter_part x (set_runtime (set_share_field v)) (set_hw (fun _ => h) s)).
Proof.
  intros Hch Hx0 Hx Hv Hm. set (s' := alter_part _ _ _).
  destruct (ch_range _ _ _ Hch x ltac:(left)) as [Hx1 Hxc].
  assert (entry s' x = Some (set_runtime (set_share_field v) px)) as Hx' by (unfold s'; entries).
  assert (forall i, i <> x -> entry s' i = entry s i) as Hi'.
  { intros i Hi. unfold s'. by rewrite entry_alter_ne. }
  assert (same_parts s s') as Hsame.
  { constructor; [done|done|cbn; by rewrite length_alter|]. intros i.
    destruct (decide (i = x)) as [->|]; [by rewrite Hx', Hx|by rewrite Hi']. }
  constructor; [|done| |done|done].
  - constructor; [apply (db_ok_same s s' Hsame), (ch_db _ _ _ Hch)|apply (ch_init _ _ _ Hch)
      |apply (ch_running _ _ _ Hch)| |apply (ch_nodup _ _ _ Hch)|apply (ch_range _ _ _ Hch)|
      |apply (ch_lock _ _ _ Hch)|apply (ch_psp _ _ _ Hch)|].
    + apply (linked_keep s); [|apply (ch_linked _ _ _ Hch)]. intros i p _ Hp.
      destruct (decide (i = x)) as [->|]; [|rewrite Hi' by done; eauto]. simplify_eq. eauto.
    + intros i p Hi Hp. destruct (decide (i = x)) as [->|Hix]; [|rewrite Hi' in Hp by done; by apply (ch_entry _ _ _ Hch)].
      simplify_eq. destruct (ch_entry _ _ _ Hch x px Hi Hx) as [H1 H2 H3 H4 H5 H6 H7]. constructor; done.
    + intros E p Hp. simplify_eq. unfold shared_with. rewrite (proj2 (Z.eqb_neq _ _) Hx0).
      eapply mpu_for_fixed; [|apply (Hm E)]. done.
  - intros i p p' Hi Hp Hp'. destruct (decide (i = x)) as [->|Hix].
    + simplify_eq. constructor; [|done|set_solver]. pose proof (ch_nodup _ _ _ Hch) as Hn.
      by inversion Hn.
    + rewrite Hi' in Hp' by done. simplify_eq. apply entry_kept_refl.
Qed.

Section svc.
  Context (run_sfn : Z -> Z * Z * Z * Z -> TM Z).

Definition svc_entry (s : tfm_state) : tfm_state :=
  set_cpu (fun c => {| PSP := u32 (PSP c - SVC_STACK_FRAME_SIZE); PSPLIM := PSPLIM c;
    CONTROL_nPRIV := CONTROL_nPRIV c; CONTROL_SPSEL := 0; IPSR := EXC_NUM_SVCALL;
    PRIMASK := PRIMASK c; SHCSR := SHCSR c; AIRCR_low := AIRCR_low c |}) s.

Lemma chain_ok_svc_entry x c s : chain_ok x c s -> chain_ok x c (svc_entry s).
Proof. intros. apply chain_ok_set_cpu; [apply u32_ok|done]. Qed.

(** An SVC from thread mode is balanced when its handler is. *)
Lemma svc_runs f x c s (P : Z -> Prop) :
  chain_ok x c s -> IPSR (cpu s) = 0 -> CONTROL_SPSEL (cpu s) = 1 ->
  runs (SVCHandler_main run_sfn f 0xFFFFFFFD) (svc_entry s) (fun r s' =>
    snd r = 0xFFFFFFFD /\ P (s32 (default (svc_r0 f) (snd (fst r)))) /\ balanced x c (svc_entry s) s') ->
  runs (svc run_sfn f) s (fun v s' => P v /\ balanced x c s s').
Proof.
  intros Hch Hi Hsp Hh. unfold svc. run_getters. rewrite Hsp. cbn [Z.eqb].
  unfold set_PSP, set_SPSEL, set_IPSR. run_getters. change (exc_return_value 1) with 0xFFFFFFFD.
  eapply runs_mono; [exact Hh|]. intros [[r w] lr] s2 (E & HP & Hb). cbn [fst snd] in E, HP. subst lr.
  cbn [Z.eqb Pos.eqb negb]. run_getters. split; [done|].
  destruct (ba_parts _ _ _ _ Hb) as [H1 H2 H3 H4]. pose proof (ba_regs _ _ _ _ Hb) as Hregs.
  unfold regs in Hregs. injection Hregs as R1 R2 R3 R4 R5 R6 R7.
  constructor.
  - do 2 (apply chain_ok_set_cpu; [apply u32_ok|]). apply chain_ok_set_cpu; [apply u32_ok|].
    apply (ba_chain _ _ _ _ Hb).
  - by constructor.
  - exact (ba_entries _ _ _ _ Hb).
  - unfold regs. cbn. rewrite R1, R2, R3, R6, R7. cbn. rewrite Hi, Hsp.
    unfold u32, SVC_STACK_FRAME_SIZE. rewrite Zplus_mod_idemp_l, Z.sub_add, Z.mod_small; [done|].
    apply (ch_psp _ _ _ Hch).
  - apply (ba_ns _ _ _ _ Hb).
Qed.
End svc.

(** The non-secure side ends the chain. *)
Lemma chain_end x y c s : chain_ok x (y :: c) s -> (y = 0 <-> c = []).
Proof.
  intros Hch. pose proof (ch_linked _ _ _ Hch) as Hl. pose proof (ch_nodup _ _ _ Hch) as Hn.
  inversion Hl as [|? ? ? ? _ _ Hl']; subst. inversion Hn as [|? ? _ Hn']; subst.
  inversion Hl' as [E|? z c' ? _ _ Hl'']; subst; [done|].
  inversion Hn' as [|? ? Hn'' _]; subst. split; [|done]. intros E. destruct Hn''. rewrite E.
  by eapply linked_has_ns.
Qed.

Section handlers.
  Context (x : Z) (c : list Z) (s : tfm_state) (Hch : chain_ok x c s) (Hx0 : x <> 0).

(** The caller is validated as secure exactly when it is not the non-secure side. *)
Lemma validate_handler_runs f :
  tfm_core_validate_secure_caller_handler f s =
    (Ok (if decide (c = [0]) then TFM_ERROR_GENERIC else TFM_SUCCESS), s).
Proof using Hch Hx0.
  destruct (running_caller x c s Hch Hx0) as (y & c' & px & py & -> & Hx & Hy & Hc & Sx & Sy).
  apply runs_eq. unfold tfm_core_validate_secure_caller_handler. run_getters.
  rewrite (ch_running _ _ _ Hch). run_getters. rewrite Hc. run_getters.
  fold (is_secure px) (is_secure py). rewrite Sx, Sy. cbn [negb].
  pose proof (chain_end x y c' s Hch) as He.
  destruct (Z.eqb_spec y 0) as [->|Hy0]; case_decide as E; cbn [negb]; run_getters; try done.
  - by destruct E; rewrite (proj1 He).
  - by injection E.
Qed.

Lemma memory_check_handler_runs f :
  runs (tfm_core_memory_permission_check_handler f) s (fun _ s' => s' = s).
Proof using Hch Hx0.
  destruct (running_caller x c s Hch Hx0) as (y & c' & px & py & -> & Hx & Hy & Hc & Sx & Sy).
  unfold tfm_core_memory_permission_check_handler. run_getters.
  rewrite (ch_running _ _ _ Hch). run_getters.
  destruct (_ || _); [by run_getters|]. run_getters.
  repeat (case_match; [by run_getters|]); repeat case_match; by run_getters.
Qed.

Lemma set_buffer_area_handler_runs f :
  runs (tfm_core_set_buffer_area_handler f) s (fun _ s' => balanced x c s s').
Proof using All.
  destruct (running_caller x c s Hch Hx0) as (y & c' & px & py & -> & Hx & Hy & Hc & Sx & Sy).
  unfold tfm_core_set_buffer_area_handler. run_getters.
  rewrite (ch_running _ _ _ Hch). run_getters. rewrite Hc. run_getters.
  fold (is_secure px) (is_secure py). rewrite Sx. cbn [negb].
  case_match eqn:E; [|run_getters; by apply balanced_refl].
  assert (z = TFM_BUFFER_SHARE_SCRATCH \/ z = TFM_BUFFER_SHARE_NS_CODE) as Hz.
  { destruct (svc_r0 f =? TFM_BUFFER_SHARE_DEFAULT).
    - destruct (negb (is_secure py)); simplify_eq; auto.
    - destruct (Z.eqb_spec (svc_r0 f) TFM_BUFFER_SHARE_SCRATCH); cbn in E; [simplify_eq; auto|].
      destruct (Z.eqb_spec (svc_r0 f) TFM_BUFFER_SHARE_NS_CODE); simplify_eq; auto. }
  run_getters. eapply (runs_set_share Hlvl Hlayout _ px (shared_with x px)); [done| |done|].
  { intros E3. by apply (ch_mpu _ _ _ Hch E3). }
  intros h _ Hm. cbn. run_getters. by apply (balanced_share x _ s px).
Qed.
End handlers.

(** ** Secure functions run to their end *)

Section bodies.
  Context (run_sfn : Z -> Z * Z * Z * Z -> TM Z) (ids : list Z) (n : nat).
  Context (Hsfn : sfn_ok run_sfn ids n).

(** A state in which the code of partition [x] runs in thread mode. *)
Record thread_ok (x : Z) (c : list Z) (s : tfm_state) : Prop := {
  th_chain : chain_ok x c s;
  th_nonzero : x <> 0;
  th_ids : part_ids s = ids;
  th_fuel : callable x c s < Z.of_nat (S n);
  th_ipsr : IPSR (cpu s) = EXC_NUM_THREAD_MODE;
  th_spsel : CONTROL_SPSEL (cpu s) = 1;
}.

Lemma thread_ok_balanced x c s s' : thread_ok x c s -> balanced x c s s' -> thread_ok x c s'.
Proof.
  intros [H1 H2 H3 H4 H5 H6] Hb. pose proof (ba_regs _ _ _ _ Hb) as Hregs.
  unfold regs in Hregs. injection Hregs as R1 R2 R3 R4 R5 R6 R7. constructor; try congruence.
  - apply (ba_chain _ _ _ _ Hb).
  - by rewrite (same_parts_ids _ _ (ba_parts _ _ _ _ Hb)).
  - by rewrite (same_parts_callable _ _ _ _ (ba_parts _ _ _ _ Hb)).
Qed.

Lemma partition_request_runs id fn a x c s :
  thread_ok x c s -> id ∈ ids ->
  runs (tfm_core_partition_request run_sfn false id fn a) s (fun _ s' => balanced x c s s').
Proof using All.
  intros [Hch Hx0 Hids Hfuel Hi Hsp] Hid. unfold tfm_core_partition_request. run_getters. rewrite Hi.
  destruct Hlvl as [E|E]; rewrite E; cbn [Z.eqb Pos.eqb negb andb EXC_NUM_THREAD_MODE].
  - eapply runs_mono; [eapply (secure_request_runs run_sfn ids n Hsfn _ x c s); try done; by left|].
    by intros v s' [].
  - eapply runs_mono; [eapply (svc_runs run_sfn _ x c s (fun _ => True)); try done|by intros v s' []].
    unfold SVCHandler_main, tfm_core_partition_request_svc_handler. cbn [svc_imm svc_desc].
    change (Z.land 0xFFFFFFFD EXC_RETURN_SECURE_STACK =? 0) with false.
    change (Z.land 0xFFFFFFFD EXC_RETURN_STACK_PROCESS =? 0) with false.
    change (TFM_SVC_SFN_REQUEST =? TFM_SVC_SFN_REQUEST) with true. cbv iota zeta. run_getters.
    case_match; [run_getters; split_and!; try done; by apply balanced_refl, chain_ok_svc_entry|].
    cbn [exc_num Z.eqb EXC_NUM_THREAD_MODE negb].
    eapply runs_mono; [eapply (secure_request_runs run_sfn ids n Hsfn _ x c (svc_entry s)); try done|].
    { by apply chain_ok_svc_entry. } { by right. }
    intros v s' [_ Hb]. by run_getters.
Qed.

(** The core requests leave the caller's side as it was. *)
Lemma core_svc_runs imm r0 r1 r2 x c s :
  imm = TFM_SVC_VALIDATE_SECURE_CALLER \/ imm = TFM_SVC_MEMORY_CHECK \/ imm = TFM_SVC_SET_SHARE_AREA ->
  thread_ok x c s ->
  runs (core_svc run_sfn imm r0 r1 r2) s (fun _ s' => balanced x c s s').
Proof using Hlvl Hlayout.
  intros Himm [Hch Hx0 Hids Hfuel Hi Hsp]. unfold core_svc.
  eapply runs_mono; [eapply (svc_runs run_sfn _ x c s (fun _ => True)); try done|by intros v s' []].
  pose proof (chain_ok_svc_entry x c s Hch) as Hch'. unfold SVCHandler_main. cbn [svc_imm].
  change (Z.land 0xFFFFFFFD EXC_RETURN_SECURE_STACK =? 0) with false. cbv iota.
  destruct Himm as [-> | [-> | ->]]; cbn [Z.eqb Pos.eqb TFM_SVC_SFN_REQUEST TFM_SVC_SFN_RETURN
    TFM_SVC_VALIDATE_SECURE_CALLER TFM_SVC_MEMORY_CHECK TFM_SVC_SET_SHARE_AREA]; run_getters.
  - eapply runs_val; [by apply (validate_handler_runs x c)|]. run_getters. split_and!; try done. by apply balanced_refl.
  - eapply runs_mono; [by apply (memory_check_handler_runs x c)|]. intros v s' ->. run_getters.
    split_and!; try done. by apply balanced_refl.
  - eapply runs_mono; [by apply (set_buffer_area_handler_runs x c)|]. intros v s' Hb. by run_getters.
Qed.

(** A balanced step followed by the rest of the body. *)
Lemma then_runs (m : TM Z) k x c s :
  thread_ok x c s -> runs m s (fun _ s' => balanced x c s s') ->
  (forall v s', thread_ok x c s' -> runs (k v) s' (fun v s'' => allowed_return v /\ balanced x c s' s'')) ->
  runs (bind m k) s (fun v s' => allowed_return v /\ balanced x c s s').
Proof.
  intros Hth Hm Hk. apply runs_bind. eapply runs_mono; [exact Hm|]. intros v s' Hb.
  eapply runs_mono; [apply (Hk v s'), (thread_ok_balanced x c s); done|].
  intros v' s'' [? Hb']. split; [done|]. exact (balanced_trans _ _ _ _ _ Hb Hb').
Qed.

Lemma run_prog_runs p x c s : prog_ok ids p -> thread_ok x c s ->
  runs (run_prog run_sfn p) s (fun v s' => allowed_return v /\ balanced x c s s').
Proof using All.
  intros Hp. revert s. induction Hp as [v Hv|id fn a k Hid _ IH|k _ IH|ptr sz acc k _ IH|sh k _ IH];
    intros s Hth; cbn [run_prog]; [|apply then_runs; [done| |intros; by apply IH]..].
  - apply runs_ret. split; [done|]. apply balanced_refl, Hth.
  - by apply partition_request_runs.
  - apply core_svc_runs; auto.
  - apply core_svc_runs; auto.
  - apply core_svc_runs; auto.
Qed.
End bodies.

(** With fuel for the partitions that can still be called, every secure
    function with a good body runs to its end. *)
Lemma sfn_exec_ok sfn_body ids n :
  (forall a ar, prog_ok ids (sfn_body a ar)) -> sfn_ok (sfn_exec sfn_body n) ids n.
Proof using Hlvl Hlayout.
  intros Hbody. induction n as [|n IH]; intros a ar x c s Hch Hx0 Hids Hfuel Hi Hsp.
  - exfalso. unfold callable in Hfuel. pose proof (db_count s (ch_db _ _ _ Hch)) as Hc.
    assert (length (x :: c) <= length (seqZ 0 (partition_count (g_spm_partition_db s))))%nat as Hl.
    { apply submseteq_length, NoDup_submseteq; [apply (ch_nodup _ _ _ Hch)|].
      intros i Hin. apply elem_of_seqZ. pose proof (ch_range _ _ _ Hch i Hin). lia. }
    rewrite length_seqZ in Hl. lia.
  - cbn [sfn_exec]. apply (run_prog_runs (sfn_exec sfn_body n) ids n IH); [apply Hbody|]. by constructor.
Qed.
End balance.
