(* ===== verification/SecureCalls.v ===== *)
(** * What the core promises

    Calls from the non-secure side and between partitions return with the
    caller's context restored; the memory an unprivileged partition can write
    at isolation level 3 is its own; the checks and refusals of the handlers. *)

From stdpp Require Import sets relations.
From S2P Require Import Prelude Mpu SpmHal Spm SecureApi SecureApiSpec SecureApiChain SecureApiBalance.

(** ** The priority of secure exceptions during a call *)

Definition configured_AIRCR (low : Z) : Z :=
  let aircr := Z.lor 0xFA050000 low in
  Z.lor (Z.lor SCB_AIRCR_PRIS_Msk (Z.land (u32 (Z.lnot aircr)) SCB_AIRCR_VECTKEYSTAT_Msk))
        (Z.land aircr (u32 (Z.lnot SCB_AIRCR_VECTKEY_Msk))).

Definition deconfigured_AIRCR (low : Z) : Z :=
  let aircr := Z.lor 0xFA050000 low in
  Z.land (u32 (Z.lnot SCB_AIRCR_PRIS_Msk))
    (Z.lor (Z.land (u32 (Z.lnot aircr)) SCB_AIRCR_VECTKEYSTAT_Msk)
           (Z.land aircr (u32 (Z.lnot SCB_AIRCR_VECTKEY_Msk)))).

(** The key the register wants is the complement of the one it shows. *)
Lemma aircr_key low : 0 <= low < 2 ^ 16 ->
  Z.land (u32 (Z.lnot (Z.lor 0xFA050000 low))) SCB_AIRCR_VECTKEYSTAT_Msk = 0x05FA0000 /\
  Z.land (Z.lor 0xFA050000 low) (u32 (Z.lnot SCB_AIRCR_VECTKEY_Msk)) = low.
Proof.
  intros Hl.
  assert (forall i, 16 <= i -> Z.testbit low i = false) as Hhi.
  { intros i Hi. rewrite <- (Z.mod_small low (2 ^ 16)) by lia. apply Z.mod_pow2_bits_high. lia. }
  split.
  - apply Z.bits_inj'. intros i Hi. rewrite Z.land_spec.
    destruct (decide (i < 32)) as [Hi2|Hi2].
    + unfold u32. rewrite Z.mod_pow2_bits_low, Z.lnot_spec, Z.lor_spec by lia.
      destruct (decide (i < 16)) as [Hi1|Hi1].
      * assert (Z.testbit SCB_AIRCR_VECTKEYSTAT_Msk i = false) as ->.
        { change SCB_AIRCR_VECTKEYSTAT_Msk with (Z.shiftl 0xFFFF 16). apply Z.shiftl_spec_low. lia. }
        rewrite andb_false_r. change 0x05FA0000 with (Z.shiftl 0x05FA 16). symmetry. apply Z.shiftl_spec_low. lia.
      * rewrite (Hhi i) by lia. rewrite orb_false_r. replace i with ((i - 16) + 16) by lia.
        set (j := i - 16). assert (0 <= j < 16) as Hj by lia. clearbody j. clear -Hj.
        assert (Z.of_nat (Z.to_nat j) = j) as <- by lia. set (k := Z.to_nat j).
        assert (k < 16)%nat as Hk by lia. clearbody k.
        do 16 (destruct k as [|k]; [reflexivity|]). lia.
    + rewrite (high_bits (u32 _) i) by (apply u32_bound || lia). symmetry. apply high_bits; lia.
  - change (u32 (Z.lnot SCB_AIRCR_VECTKEY_Msk)) with (Z.ones 16).
    rewrite Z.land_lor_distr_l, !Z.land_ones by lia. change (0xFA050000 mod 2 ^ 16) with 0.
    rewrite Z.lor_0_l. by apply Z.mod_small.
Qed.

(** Both writes carry the key; the first sets [PRIS], the second clears it. *)
Lemma aircr_spec low : 0 <= low < 2 ^ 16 ->
  Z.shiftr (configured_AIRCR low) 16 = 0x05FA /\ Z.shiftr (deconfigured_AIRCR low) 16 = 0x05FA /\
  Z.land (configured_AIRCR low) 0xFFFF = Z.lor SCB_AIRCR_PRIS_Msk low /\
  (Z.testbit low 14 = false -> Z.land (deconfigured_AIRCR low) 0xFFFF = low).
Proof.
  intros Hl. destruct (aircr_key low Hl) as [K L].
  unfold configured_AIRCR, deconfigured_AIRCR. cbv zeta. rewrite K, L.
  assert (Z.shiftr low 16 = 0) as S by (rewrite Z.shiftr_div_pow2 by lia; by apply Z.div_small).
  assert (Z.land low 0xFFFF = low) as M by (change 0xFFFF with (Z.ones 16); rewrite Z.land_ones by lia; by apply Z.mod_small).
  split_and!.
  - by rewrite !Z.shiftr_lor, S.
  - by rewrite Z.shiftr_land, Z.shiftr_lor, S.
  - by rewrite !Z.land_lor_distr_l, M.
  - intros Hb. rewrite <- Z.land_assoc, Z.land_lor_distr_l, M.
    change (Z.land 0x05FA0000 0xFFFF) with 0. rewrite Z.lor_0_l.
    apply Z.bits_inj'. intros i Hi. rewrite Z.land_spec.
    change (u32 (Z.lnot SCB_AIRCR_PRIS_Msk)) with (Z.lnot (2 ^ 14) mod 2 ^ 32).
    destruct (decide (i < 32)).
    + rewrite Z.mod_pow2_bits_low, Z.lnot_spec, Z.pow2_bits_eqb by lia.
      destruct (Z.eqb_spec 14 i) as [<-|]; [by rewrite Hb|done].
    + rewrite (high_bits low i) by lia. apply andb_false_r.
Qed.

Section calls.
  Context {Layout : tfm_layout} {Cmse : cmse}.
  Context (Hlvl : TFM_LVL = 1 \/ TFM_LVL = 3) (Hlayout : TFM_LVL = 3 -> layout_ok).

(** The state in which the non-secure side may call: its SVC handler runs, no
    call is in progress and the exceptions have their normal priority. *)
Record ns_ready (ids : list Z) (s : tfm_state) : Prop := {
  ns_chain : chain_ok TFM_SP_NON_SECURE_ID [] s;
  ns_ids : part_ids s = ids;
  ns_handler : IPSR (cpu s) = EXC_NUM_SVCALL;
  ns_aircr : 0 <= AIRCR_low (cpu s) < 2 ^ 16 /\ Z.testbit (AIRCR_low (cpu s)) 14 = false;
}.

(** What the non-secure side finds when its call has returned. *)
Record ns_returned (ids : list Z) (s s' : tfm_state) : Prop := {
  nr_ready : ns_ready ids s';
  nr_parts : same_parts s s';
  nr_entries : entries_kept TFM_SP_NON_SECURE_ID [] s s';
  nr_stack : PSP (cpu s') = PSP (cpu s) /\ PSPLIM (cpu s') = PSPLIM (cpu s);
  nr_priv : CONTROL_nPRIV (cpu s') = CONTROL_nPRIV (cpu s);
  nr_aircr : AIRCR_low (cpu s') = AIRCR_low (cpu s);
}.

Definition configure_cpu (s : tfm_state) : tfm_state :=
  set_cpu (fun c => {| PSP := PSP c; PSPLIM := PSPLIM c; CONTROL_nPRIV := CONTROL_nPRIV c;
    CONTROL_SPSEL := CONTROL_SPSEL c; IPSR := IPSR c; PRIMASK := PRIMASK c;
    SHCSR := Z.lor (SHCSR c) SCB_SHCSR_SVCALLACT_Msk;
    AIRCR_low := Z.lor SCB_AIRCR_PRIS_Msk (AIRCR_low c) |})
  (set_ns_AIRCR (fun _ => Z.lor 0xFA050000 (AIRCR_low (cpu s))) s).

Lemma configure_runs s (Q : Z -> tfm_state -> Prop) :
  0 <= AIRCR_low (cpu s) < 2 ^ 16 -> Q TFM_SUCCESS (configure_cpu s) ->
  runs tfm_core_configure_secure_exception s Q.
Proof.
  intros Hl HQ. destruct (aircr_spec _ Hl) as (K1 & _ & L1 & _).
  unfold tfm_core_configure_secure_exception, get_AIRCR, set_SHCSR, set_AIRCR. run_getters. cbv zeta.
  fold (configured_AIRCR (AIRCR_low (cpu s))). rewrite K1. cbn [Z.eqb Pos.eqb]. run_getters.
  rewrite L1. by destruct s as [? ? ? ? []].
Qed.

Definition deconfigure_cpu (s : tfm_state) (low : Z) : tfm_state :=
  set_cpu (fun c => {| PSP := PSP c; PSPLIM := PSPLIM c; CONTROL_nPRIV := CONTROL_nPRIV c;
    CONTROL_SPSEL := 1; IPSR := IPSR c; PRIMASK := PRIMASK c;
    SHCSR := Z.land (SHCSR c) (u32 (Z.lnot SCB_SHCSR_SVCALLACT_Msk)); AIRCR_low := low |}) s.

Lemma deconfigure_runs low s (Q : Z -> tfm_state -> Prop) :
  0 <= low < 2 ^ 16 -> Z.testbit low 14 = false -> ns_state_AIRCR s = Z.lor 0xFA050000 low ->
  Q TFM_SUCCESS (deconfigure_cpu s low) -> runs tfm_core_deconfigure_secure_exception s Q.
Proof.
  intros Hl Hb Hns HQ. destruct (aircr_spec _ Hl) as (_ & K2 & _ & L2). specialize (L2 Hb).
  unfold tfm_core_deconfigure_secure_exception, set_SHCSR, set_AIRCR, set_SPSEL. run_getters. cbv zeta.
  rewrite Hns. fold (deconfigured_AIRCR low). rewrite K2. cbn [Z.eqb Pos.eqb]. run_getters.
  rewrite L2. by destruct s as [? ? ? ? []].
Qed.

Lemma chain_ok_configure x c s : chain_ok x c s -> chain_ok x c (configure_cpu s).
Proof.
  intros Hch. apply chain_ok_set_cpu; [apply (ch_psp _ _ _ Hch)|]. by apply chain_ok_set_ns_AIRCR.
Qed.

Section ns.
  Context (V : Z -> Z * Z * Z * Z -> tfm_state -> Z -> Prop).
  Context (run_sfn : Z -> Z * Z * Z * Z -> TM Z) (ids : list Z) (n : nat).
  Context (Hsfn : sfn_meets V run_sfn ids n).

Lemma ns_returned_refused s v :
  ns_ready ids s -> ns_returned ids s (irq v (irq 1 s)).
Proof.
  intros [H1 H2 H3 H4]. constructor; try done.
  - constructor; try done. by apply chain_ok_irq, chain_ok_irq.
  - intros i p p' _ Hp Hp'. simplify_eq. change (entry s i = Some p') in Hp'. simplify_eq. apply entry_kept_refl.
Qed.

(** A call that names a function of an idle partition. *)
Definition accepted_call (desc : tfm_sfn_req_s) (s : tfm_state) : Prop :=
  sfn desc <> 0 /\ sp_id desc <> 0 /\
  forall t pt, 0 <= t < partition_count (g_spm_partition_db s) -> entry s t = Some pt ->
    sp_id desc = partition_id (static_data pt) -> partition_state (runtime_data pt) = SPM_PARTITION_STATE_IDLE.

(** A call by the non-secure side returns, the non-secure side finds its
    context and every partition as they were, and a call that is accepted runs
    its function. *)
Lemma ns_request_runs desc s :
  ns_ready ids s -> callable TFM_SP_NON_SECURE_ID [] s < Z.of_nat (S n) ->
  ns_caller desc = true -> exc_num desc = EXC_NUM_SVCALL -> sp_id desc ∈ ids ->
  runs (tfm_core_sfn_request_function run_sfn (Some desc)) s (fun v s' =>
    - 2 ^ 31 <= v < 2 ^ 31 /\ ns_returned ids s s' /\
    (accepted_call desc s -> exists t, entered V ids desc 0 t [] v)).
Proof using All.
  intros Hr Hfuel Hns Hexc Hid. destruct (Hr) as [Hch Hids Hipsr [Hl Hbit]].
  unfold tfm_core_sfn_request_function.
  unfold tfm_check_sfn_req_integrity. destruct (_ || _) eqn:Echk.
  { apply runs_ret. split; [by apply error_status_range|]. split.
    - constructor; try done. intros i p p' _ Hp Hp'. simplify_eq. apply entry_kept_refl.
    - intros (H1 & H2 & _). apply orb_true_iff in Echk as [?%Z.eqb_eq|?%Z.eqb_eq]; done. }
  cbn [Z.eqb TFM_SUCCESS negb]. unfold disable_irq, enable_irq, set_PRIMASK. run_getters.
  unfold tfm_core_check_sfn_req_rules. rewrite Hns, Hexc.
  change (EXC_NUM_SVCALL =? EXC_NUM_THREAD_MODE) with false.
  change (EXC_NUM_SVCALL =? EXC_NUM_SVCALL) with true. cbn [negb andb].
  run_getters. change (tfm_secure_lock (set_cpu _ s)) with (tfm_secure_lock s). rewrite (ch_lock _ _ _ Hch).
  change (Z.of_nat (length []) =? 0) with true. cbn [negb]. run_getters. cbn [Z.eqb negb TFM_SUCCESS]. run_getters. fold (irq 1 s).
  pose proof (chain_ok_irq _ _ 1 s Hch) as Hch1.
  assert (same_parts s (irq 1 s)) as S1 by by apply same_parts_db.
  destruct (entry_exists _ _ _ 0 Hch1 ltac:(left)) as [px Hx].
  destruct (part_ids_elem (irq 1 s) (sp_id desc)) as (t & pt & Htr & Ht & Hpid).
  { apply (ch_db _ _ _ Hch1). } { by rewrite (same_parts_ids _ _ S1), Hids. }
  destruct (decide (partition_state (runtime_data pt) = SPM_PARTITION_STATE_IDLE)) as [Hst|Hst].
  2:{ eapply runs_val; [by eapply push_refused|]. rewrite refusal_error. cbn [negb]. run_getters.
      split; [apply error_status_range; unfold refusal; by destruct (_ || _ || _)|].
      split; [by apply ns_returned_refused|]. intros (_ & _ & Hidle). by destruct Hst; apply (Hidle t pt). }
  eapply runs_mono; [by apply (push_lock_runs Hlvl Hlayout desc _ 0 [] (irq 1 s) t px pt)|].
  intros r s1 [-> Hpush]. cbn [Z.eqb negb TFM_SUCCESS].
  assert (chain_ok t [0] s1) as Hch2 by by eapply pushed_chain.
  assert (switches desc = true) as Hsw. { unfold switches. rewrite Hexc. apply orb_true_r. }
  pose proof (pu_cpu _ _ _ _ _ _ _ _ Hpush) as Hcpu. rewrite Hsw in Hcpu.
  run_getters. apply configure_runs; [by rewrite Hcpu|]. run_getters. fold (irq 0 (configure_cpu s1)).
  set (s2 := irq 0 (configure_cpu s1)).
  assert (callable t [0] (irq 1 s) < Z.of_nat n) as Hf.
  { unfold callable in *. cbn [length] in *. rewrite (same_count _ _ S1). lia. }
  eapply runs_mono; [eapply (switched_call_runs Hlvl Hlayout V run_sfn ids n Hsfn desc 0 t px pt [] (irq 1 s) s1 s2); try done|].
  { by apply chain_ok_irq, chain_ok_configure. }
  { unfold restores. apply orb_true_r. }
  { unfold s2. cbn. rewrite Hcpu. cbn. by rewrite Hipsr. }
  intros v s5 ((Hv & Hch5 & S5 & K5 & N5) & R5 & Hent). run_getters.
  unfold regs, with_stack, handler_mode, s2 in R5. cbn in R5. rewrite Hcpu in R5. cbn in R5.
  injection R5 as R51 R52 R53 R54 R55 R56 R57.
  apply (deconfigure_runs (AIRCR_low (cpu s))); [done|done|cbn; rewrite N5; cbn; by rewrite Hcpu|].
  run_getters. split; [apply Hv|]. split; [|intros _; by exists t].
  assert (same_parts s s5) as [P1 P2 P3 P4] by (etrans; [exact S1|exact S5]).
  constructor; [|by constructor|exact K5|done|done|done].
  constructor; [| |done|done].
  2:{ rewrite <- Hids. by apply same_parts_ids; constructor. }
  apply chain_ok_set_cpu; [apply (ch_psp _ _ _ Hch5)|].
  apply chain_ok_set_cpu; [apply (ch_psp _ _ _ Hch5)|].
  by apply chain_ok_set_cpu; [apply (ch_psp _ _ _ Hch5)|].
Qed.
End ns.

(** ** Every step of the core keeps the invariant *)

(** The steps that move between partitions: a call that is accepted, a return,
    and a change of the shared region. *)
Inductive core_step (s s' : tfm_state) : Prop :=
  | step_call desc lr :
      sp_id desc ∈ part_ids s -> tfm_push_lock desc lr s = (Ok TFM_SUCCESS, s') -> core_step s s'
  | step_return lr lr' :
      tfm_pop_lock (Some lr) s = (Ok (TFM_SUCCESS, lr'), s') -> core_step s s'
  | step_share f v :
      tfm_core_set_buffer_area_handler f s = (Ok v, s') -> core_step s s'.

Lemma runs_inv {A} (m : TM A) s (Q : A -> tfm_state -> Prop) a s' :
  runs m s Q -> m s = (Ok a, s') -> Q a s'.
Proof. intros (a' & s1 & E & HQ) E'. rewrite E in E'. by simplify_eq. Qed.

(** A caller whose security the descriptor misstates is refused. *)
Lemma push_wrong_caller desc lr x c s :
  chain_ok x c s -> ns_caller desc <> (x =? 0) ->
  tfm_push_lock desc lr s = (Ok TFM_SECURE_LOCK_FAILED, s).
Proof.
  intros Hch Hns. destruct (entry_exists _ _ _ x Hch ltac:(left)) as [px Hx].
  destruct (ch_range _ _ _ Hch x ltac:(left)) as [_ Hxc].
  pose proof (db_secure s (ch_db _ _ _ Hch) x px Hxc Hx) as Hsec.
  apply runs_eq. unfold tfm_push_lock. run_getters. rewrite (ch_running _ _ _ Hch), (invalid_idx_ne s x c Hch).
  run_getters. fold (is_secure px). rewrite Hsec.
  assert (Bool.eqb (negb (x =? 0)) (negb (ns_caller desc)) = false) as ->.
  { by destruct (x =? 0), (ns_caller desc). }
  cbn [negb]. by run_getters.
Qed.

Lemma ns_chain_alone c s : chain_ok 0 c s -> c = [].
Proof. intros Hch. destruct c as [|y c]; [done|]. by apply chain_nonzero in Hch. Qed.

(** The non-secure side has no caller. *)
Lemma ns_no_caller c s p : chain_ok 0 c s -> entry s 0 = Some p ->
  caller_partition_idx (runtime_data p) = SPM_INVALID_PARTITION_IDX.
Proof.
  intros Hch Hp. destruct (ch_range _ _ _ Hch 0 ltac:(left)) as [_ H0].
  apply (ent_ns _ _ _ _ (ch_entry _ _ _ Hch 0 p H0 Hp) eq_refl).
Qed.

Lemma step_call_chain x c s s' desc lr :
  chain_ok x c s -> sp_id desc ∈ part_ids s -> tfm_push_lock desc lr s = (Ok TFM_SUCCESS, s') ->
  exists t, chain_ok t (x :: c) s'.
Proof using Cmse Hlvl Hlayout.
  intros Hch Hid Hp. destruct (decide (ns_caller desc = (x =? 0))) as [Hns|Hns].
  2:{ rewrite (push_wrong_caller desc lr x c s Hch Hns) in Hp. by simplify_eq. }
  destruct (entry_exists _ _ _ x Hch ltac:(left)) as [px Hx].
  destruct (part_ids_elem s (sp_id desc) (ch_db _ _ _ Hch) Hid) as (t & pt & Htr & Ht & Hpid).
  destruct (decide (partition_state (runtime_data pt) = SPM_PARTITION_STATE_IDLE)) as [Hst|Hst].
  - assert (runs (tfm_push_lock desc lr) s (fun r s' => r = TFM_SUCCESS /\ pushed desc lr x t px pt s s')) as Hr
      by by apply (push_lock_runs Hlvl Hlayout desc lr x c).
    destruct (runs_inv _ _ _ _ _ Hr Hp) as [_ Hpush]. exists t. by eapply pushed_chain.
  - rewrite (push_refused desc lr x c s t px pt) in Hp by done.
    injection Hp as Hp. pose proof (refusal_error pt) as He. by rewrite Hp in He.
Qed.

Lemma step_return_chain x c s s' lr lr' :
  chain_ok x c s -> tfm_pop_lock (Some lr) s = (Ok (TFM_SUCCESS, lr'), s') ->
  exists y c', c = y :: c' /\ chain_ok y c' s'.
Proof using Cmse Hlvl Hlayout.
  intros Hch Hp. destruct (entry_exists _ _ _ x Hch ltac:(left)) as [px Hx]. destruct c as [|y c].
  - exfalso. assert (x = 0) as ->. { pose proof (ch_linked _ _ _ Hch) as Hl. by inversion Hl. }
    pose proof (ns_no_caller _ _ _ Hch Hx) as Hc.
    assert (runs (tfm_pop_lock (Some lr)) s (fun r _ => fst r = TFM_SECURE_UNLOCK_FAILED)) as Hr.
    { unfold tfm_pop_lock. run_getters. rewrite (ch_running _ _ _ Hch), (invalid_idx_ne s 0 [] Hch).
      run_getters. rewrite Hc, Z.eqb_refl. by run_getters. }
    pose proof (runs_inv _ _ _ _ _ Hr Hp) as E. done.
  - destruct (entry_exists _ _ _ y Hch ltac:(right; left)) as [py Hy].
    assert (restores y = true -> is_Some (Some lr)) as Hlr by by eexists.
    destruct (runs_inv _ _ _ _ _ (pop_lock_runs Hlvl Hlayout (Some lr) x y c s px py Hch Hx Hy Hlr) Hp) as [_ Hpop].
    exists y, c. split; [done|]. by eapply popped_chain.
Qed.

(** The handler reads the flags of the caller, which the non-secure side does
    not have. *)
Lemma ns_buffer_area_faults c f s : chain_ok 0 c s ->
  fst (tfm_core_set_buffer_area_handler f s) = Fault.
Proof.
  intros Hch. destruct (entry_exists _ _ _ 0 Hch ltac:(left)) as [px Hx].
  pose proof (ns_no_caller _ _ _ Hch Hx) as Hc.
  assert (part_at 0 s = (Ok px, s)) as E0 by (apply runs_eq; by eapply runs_part_at_entry).
  assert (part_at SPM_INVALID_PARTITION_IDX s = (Fault, s)) as EI.
  { unfold part_at. rewrite lookup_ge_None_2; [done|]. rewrite (db_len s (ch_db _ _ _ Hch)).
    unfold SPM_MAX_PARTITIONS, TFM_MAX_USER_PARTITIONS, TFM_INTERNAL_PARTITIONS, SPM_INVALID_PARTITION_IDX. lia. }
  unfold tfm_core_set_buffer_area_handler, tfm_spm_partition_get_running_partition_idx,
    tfm_spm_partition_get_runtime_data, tfm_spm_partition_get_flags, bind, gets, ret.
  rewrite (ch_running _ _ _ Hch), E0. cbv beta iota. rewrite E0. cbv beta iota. by rewrite Hc, EI.
Qed.

Lemma step_share_chain x c s s' f v :
  chain_ok x c s -> tfm_core_set_buffer_area_handler f s = (Ok v, s') -> chain_ok x c s'.
Proof using Cmse Hlvl Hlayout.
  intros Hch Hp. destruct (decide (x = 0)) as [->|Hx0].
  - pose proof (ns_buffer_area_faults c f s Hch) as E. by rewrite Hp in E.
  - apply (ba_chain x c s).
    exact (runs_inv _ _ _ _ _ (set_buffer_area_handler_runs Hlvl Hlayout x c s Hch Hx0 f) Hp).
Qed.

Lemma core_steps_chain s s' :
  rtc core_step s s' -> forall x c, chain_ok x c s -> exists x' c', chain_ok x' c' s'.
Proof using Cmse Hlvl Hlayout.
  induction 1 as [s|s s1 s2 Hstep _ IH]; intros x c Hch; [by exists x, c|].
  destruct Hstep as [desc lr Hid Hp|lr lr' Hp|f v Hp].
  - destruct (step_call_chain x c s s1 desc lr Hch Hid Hp) as [t Ht]. by eapply IH.
  - destruct (step_return_chain x c s s1 lr lr' Hch Hp) as (y & c' & _ & Hy). by eapply IH.
  - eapply IH. by eapply step_share_chain.
Qed.
End calls.

(** ** The claims *)

Section claims.
  Context {Layout : tfm_layout} {Cmse : cmse}.

(** The build is for an isolation level the core supports, with regions the
    protection unit can represent. *)
Definition build_ok : Prop := (TFM_LVL = 1 \/ TFM_LVL = 3) /\ (TFM_LVL = 3 -> layout_ok).

(** C10: A call of the non-secure side into a secure partition returns,
    whatever calls of other partitions and core requests the secure functions
    make, as long as they name declared partitions and return values the core
    does not reserve: the stack registers, the privilege, the exception
    priorities and the lock are restored, every partition is again idle or
    closed as before with its stack as before, and the core is ready for the
    next call.  Nesting up to the number of partitions is always enough. *)
Theorem ns_call_returns (sfn_body : Z -> Z * Z * Z * Z -> sfn_prog) (ids : list Z) (fuel : nat)
  (id fn : Z) (a : Z * Z * Z * Z) (s : tfm_state) :
  build_ok -> (forall a ar, prog_ok ids (sfn_body a ar)) -> (Z.to_nat SPM_MAX_PARTITIONS <= fuel)%nat ->
  ns_ready ids s -> id ∈ ids ->
  runs (tfm_core_partition_request (sfn_exec sfn_body fuel) true id fn a) s (fun v s' =>
    - 2 ^ 31 <= v < 2 ^ 31 /\ ns_returned ids s s').
Proof.
  intros [Hlvl Hlayout] Hbody Hfuel Hr Hid. unfold tfm_core_partition_request. run_getters.
  rewrite (ns_handler _ _ Hr). cbn [EXC_NUM_SVCALL EXC_NUM_THREAD_MODE Z.eqb]. rewrite andb_false_r.
  eapply runs_mono; [eapply (ns_request_runs Hlvl Hlayout (fun _ _ _ _ => True) _ ids fuel); try done|].
  - by apply sfn_ok_meets, sfn_exec_ok.
  - pose proof (db_count s (ch_db _ _ _ (ns_chain _ _ Hr))). unfold callable. cbn [length]. lia.
  - by intros v s' (Hv & Hret & _).
Qed.

(** C13: A secure partition's call of another partition returns with the
    caller's side as it was: its registers and saved context, the contexts of
    the partitions waiting behind it, the lock and, at level 3, the memory
    protection of the caller. *)
Theorem secure_call_balanced (sfn_body : Z -> Z * Z * Z * Z -> sfn_prog) (ids : list Z) (n : nat)
  (id fn : Z) (a : Z * Z * Z * Z) (x : Z) (c : list Z) (s : tfm_state) :
  build_ok -> (forall a ar, prog_ok ids (sfn_body a ar)) ->
  thread_ok ids n x c s -> id ∈ ids ->
  runs (tfm_core_partition_request (sfn_exec sfn_body n) false id fn a) s (fun _ s' => balanced x c s s').
Proof.
  intros [Hlvl Hlayout] Hbody Hth Hid.
  eapply (partition_request_runs Hlvl Hlayout _ ids n); try done. by apply sfn_exec_ok.
Qed.

(** C14: Calls, returns and changes of the shared region, in any order, keep the
    call chain consistent: the running partition is marked running, those
    waiting are blocked and linked by their callers down to the non-secure
    side without repetition, all others are idle or closed, and the lock counts
    the calls in progress. *)
Theorem core_invariant (s0 s : tfm_state) :
  build_ok -> chain_ok TFM_SP_NON_SECURE_ID [] s0 -> rtc core_step s0 s -> exists x c, chain_ok x c s.
Proof. intros [Hlvl Hlayout] H0 Hs. by eapply (core_steps_chain Hlvl Hlayout). Qed.

(** C11: At isolation level 3, in every state the core reaches, unprivileged
    code can write only the non-secure data, the data and stack of the running
    partition, its peripheral, and the scratch area while it is shared with
    the partition. *)
Theorem level3_isolation (s0 s : tfm_state) (x : Z) (p : spm_partition_desc_t) (addr : Z) :
  TFM_LVL = 3 -> layout_ok -> chain_ok TFM_SP_NON_SECURE_ID [] s0 -> rtc core_step s0 s ->
  running_partition_idx (g_spm_partition_db s) = x -> entry s x = Some p ->
  unpriv_allowed MPU_DREGION (mpu (hw s)) Write addr = true ->
  in_region addr (cfg_region ns_data_cfg) = true \/
  in_region addr (cfg_region (rw_stack_cfg (memory_data p))) = true \/
  (exists pd, platform_data p = Some pd /\ in_region addr (cfg_region (periph_cfg pd)) = true) \/
  (x <> 0 /\ share (runtime_data p) = TFM_BUFFER_SHARE_SCRATCH /\
   in_region addr (cfg_region scratch_share_cfg) = true).
Proof.
  intros E3 Hlay H0 Hs Hx Hp Hw.
  destruct (core_steps_chain (or_intror E3) (fun _ => Hlay) s0 s Hs _ _ H0) as (x' & c & Hch).
  assert (x' = x) as -> by (by rewrite <- (ch_running _ _ _ Hch)).
  destruct (ch_mpu _ _ _ Hch E3 p Hp) as [Hc Hr].
  apply unpriv_allowed_inv in Hw as (i & r & Hi & Hm & Hin & Hal); [|by rewrite Hc].
  change (mpu_region (mpu (hw s)) (Z.of_nat i)) with (hw_region_at (hw s) (Z.of_nat i)) in Hm.
  rewrite Hr in Hm by lia. unfold MPU_DREGION in Hi. unfold sandbox_region, static_region in Hm.
  unfold MPU_REGION_VENEERS, MPU_REGION_TFM_UNPRIV_CODE, MPU_REGION_TFM_UNPRIV_DATA, MPU_REGION_NS_DATA,
    PARTITION_REGION_RO, PARTITION_REGION_RW_STACK, PARTITION_REGION_PERIPH, PARTITION_REGION_SHARE in Hm.
  repeat case_decide; simplify_eq; try done; try lia.
  - by left.
  - destruct (ro_start (memory_data p) =? 0); by simplify_eq.
  - right. by left.
  - apply fmap_Some in Hm as (pd & Hpd & ->). right. right. left. eauto.
  - unfold shared_with in Hm. destruct (Z.eqb_spec (running_partition_idx (g_spm_partition_db s)) 0); [done|].
    unfold share_region in Hm.
    destruct (Z.eqb_spec (share (runtime_data p)) TFM_BUFFER_SHARE_SCRATCH); simplify_eq; [by right; right; right|].
    destruct (_ =? _); by simplify_eq.
Qed.

(** A partition with a call in progress is not entered again: a request
    for it by a secure partition is answered with the non-reentrancy error and
    changes nothing but the interrupt mask, which is open afterwards. *)
Theorem busy_partition_refused (run_sfn : Z -> Z * Z * Z * Z -> TM Z) (desc : tfm_sfn_req_s)
  (x t : Z) (c : list Z) (pt : spm_partition_desc_t) (s : tfm_state) :
  chain_ok x c s -> x <> 0 -> t ∈ x :: c -> entry s t = Some pt ->
  ns_caller desc = false -> exc_num desc = EXC_NUM_THREAD_MODE -> sfn desc <> 0 ->
  sp_id desc = partition_id (static_data pt) -> sp_id desc <> 0 ->
  tfm_core_sfn_request_function run_sfn (Some desc) s =
    (Ok (TFM_ERROR_STATUS TFM_ERROR_PARTITION_NON_REENTRANT), irq 0 s).
Proof.
  intros Hch Hx0 Hin Ht Hns Hexc Hsfn Hid Hid0. apply runs_eq.
  destruct (ch_range _ _ _ Hch t Hin) as [Ht0 Htc].
  assert (partition_state (runtime_data pt) = SPM_PARTITION_STATE_RUNNING \/
          partition_state (runtime_data pt) = SPM_PARTITION_STATE_BLOCKED) as Hst.
  { pose proof (ch_entry _ _ _ Hch t pt Htc Ht) as He. apply elem_of_cons in Hin as [->|Hin].
    - left. by apply (ent_running _ _ _ _ He).
    - right. by apply (ent_blocked _ _ _ _ He). }
  destruct (entry_exists _ _ _ x Hch ltac:(left)) as [px Hx].
  unfold tfm_core_sfn_request_function, tfm_check_sfn_req_integrity.
  rewrite (proj2 (Z.eqb_neq _ _) Hid0), (proj2 (Z.eqb_neq _ _) Hsfn). cbn [orb Z.eqb TFM_SUCCESS negb].
  unfold disable_irq, enable_irq, set_PRIMASK. run_getters.
  unfold tfm_core_check_sfn_req_rules. rewrite Hns, Hexc. cbn [Z.eqb EXC_NUM_THREAD_MODE negb andb].
  run_getters. cbn [Z.eqb negb TFM_SUCCESS]. run_getters. fold (irq 1 s).
  eapply runs_val.
  - eapply (push_refused desc _ x c (irq 1 s) t px pt); try done.
    + by apply chain_ok_irq.
    + rewrite Hns. symmetry. by apply Z.eqb_neq.
    + by destruct Hst as [-> | ->].
  - assert (refusal pt = TFM_ERROR_PARTITION_NON_REENTRANT) as ->.
    { unfold refusal. by destruct Hst as [-> | ->]. }
    cbn [Z.eqb TFM_ERROR_PARTITION_NON_REENTRANT TFM_SUCCESS negb]. run_getters. by destruct s.
Qed.

(** The non-secure side is locked out while a secure call is in progress:
    its request is refused and changes nothing but the interrupt mask. *)
Theorem ns_locked_out (run_sfn : Z -> Z * Z * Z * Z -> TM Z) (desc : tfm_sfn_req_s)
  (x y : Z) (c : list Z) (s : tfm_state) :
  chain_ok x (y :: c) s -> ns_caller desc = true -> exc_num desc = EXC_NUM_SVCALL ->
  sfn desc <> 0 -> sp_id desc <> 0 ->
  tfm_core_sfn_request_function run_sfn (Some desc) s =
    (Ok (TFM_ERROR_STATUS TFM_ERROR_SECURE_DOMAIN_LOCKED), irq 0 s).
Proof.
  intros Hch Hns Hexc Hsfn Hid0. apply runs_eq.
  unfold tfm_core_sfn_request_function, tfm_check_sfn_req_integrity.
  rewrite (proj2 (Z.eqb_neq _ _) Hid0), (proj2 (Z.eqb_neq _ _) Hsfn). cbn [orb Z.eqb TFM_SUCCESS negb].
  unfold disable_irq, enable_irq, set_PRIMASK. run_getters.
  unfold tfm_core_check_sfn_req_rules. rewrite Hns, Hexc.
  cbn [Z.eqb Pos.eqb EXC_NUM_THREAD_MODE EXC_NUM_SVCALL negb andb]. run_getters.
  change (tfm_secure_lock (set_cpu _ s)) with (tfm_secure_lock s).
  rewrite (ch_lock _ _ _ Hch). destruct (Z.eqb_spec (Z.of_nat (length (y :: c))) 0); [by cbn in *; lia|].
  cbn [negb]. run_getters. cbn [Z.eqb TFM_ERROR_SECURE_DOMAIN_LOCKED TFM_SUCCESS negb]. run_getters. by destruct s.
Qed.

(** A secure function that returns a value the core reserves stops the
    system: control never gets back to the caller. *)
Theorem reserved_return_halts (lr v : Z) (s : tfm_state) :
  Z.land lr EXC_RETURN_STACK_PROCESS <> 0 -> stack_word s (PSP (cpu s)) = u32 v ->
  - 2 ^ 31 <= v < 2 ^ 31 -> 0 < v < TFM_PARTITION_SPECIFIC_ERROR_MIN -> v <> TFM_PARTITION_BUSY ->
  fst (tfm_core_partition_return_handler lr s) = Err TFM_HALTED.
Proof.
  intros Hlr Hw Hr Hv Hb. unfold tfm_core_partition_return_handler, disable_irq, set_PRIMASK, get_PSP, read_word,
    bind, modify, gets, tfm_secure_api_error_handler, fail.
  rewrite (proj2 (Z.eqb_neq _ _) Hlr). cbv beta iota zeta.
  change (stack_word (set_cpu _ s) (PSP (cpu (set_cpu _ s)))) with (stack_word s (PSP (cpu s))).
  rewrite Hw, s32_u32 by done. unfold TFM_SUCCESS, TFM_PARTITION_BUSY, TFM_PARTITION_SPECIFIC_ERROR_MIN in *.
  destruct (Z.eqb_spec v 0), (Z.eqb_spec v 2), (Z.ltb_spec 0 v), (Z.ltb_spec v 32); try lia. done.
Qed.

(** The secure memory a partition may pass as a buffer. *)
Definition secure_start : Z := if TFM_LVL =? 1 then S_DATA_START else TFM_UNPRIV_SCRATCH_Base.
Definition secure_end : Z :=
  if TFM_LVL =? 1 then S_DATA_START + S_DATA_SIZE else TFM_UNPRIV_SCRATCH_Limit.

(** What the memory check is for. *)
Definition buffer_allowed (h : hw_t) (px : spm_partition_desc_t) (ptr size access : Z) : bool :=
  let flags := Z.lor (if negb (share (runtime_data px) =? TFM_BUFFER_SHARE_PRIV) then CMSE_MPU_UNPRIV else 0)
                     (if access =? TFM_MEMORY_ACCESS_RW then CMSE_MPU_READWRITE else CMSE_MPU_READ) in
  let info := cmse_TT h ptr in
  (0 <? size) && cmse_check_address_range h ptr size flags &&
  (if secure info
   then (secure_start <=? ptr) && (ptr + size <=? secure_end)
   else sau_region_valid info &&
        ((sau_region info =? TFM_NS_REGION_DATA) ||
         (sau_region info =? TFM_NS_REGION_CODE) && negb (access =? TFM_MEMORY_ACCESS_RW))).

Lemma secure_range_exact ptr size :
  0 <= secure_start < secure_end -> secure_end <= 2 ^ 32 - 1 -> word_ok ptr -> word_ok size -> 0 < size ->
  secure_range_ok ptr size = (secure_start <=? ptr) && (ptr + size <=? secure_end).
Proof.
  intros Hse He Hp Hs Hs0. unfold secure_range_ok, secure_start, secure_end, word_ok in *.
  destruct (TFM_LVL =? 1).
  - rewrite (u32_small (S_DATA_START + S_DATA_SIZE - 1)) by lia. destruct (Z.leb_spec size S_DATA_SIZE); cbn [andb].
    + rewrite u32_small by lia. f_equal. apply eq_true_iff_eq. rewrite !Z.leb_le. lia.
    + destruct (Z.leb_spec S_DATA_START ptr), (Z.leb_spec (ptr + size) (S_DATA_START + S_DATA_SIZE)); done || lia.
  - rewrite (u32_small (TFM_UNPRIV_SCRATCH_Limit - TFM_UNPRIV_SCRATCH_Base)) by lia.
    replace (TFM_UNPRIV_SCRATCH_Base + (TFM_UNPRIV_SCRATCH_Limit - TFM_UNPRIV_SCRATCH_Base) - 1)
      with (TFM_UNPRIV_SCRATCH_Limit - 1) by lia.
    rewrite (u32_small (TFM_UNPRIV_SCRATCH_Limit - 1)) by lia.
    destruct (Z.leb_spec size (TFM_UNPRIV_SCRATCH_Limit - TFM_UNPRIV_SCRATCH_Base)); cbn [andb].
    + rewrite u32_small by lia. f_equal. apply eq_true_iff_eq. rewrite !Z.leb_le. lia.
    + destruct (Z.leb_spec TFM_UNPRIV_SCRATCH_Base ptr), (Z.leb_spec (ptr + size) TFM_UNPRIV_SCRATCH_Limit); done || lia.
Qed.

Lemma memory_handler_exact (f : svc_frame) (x : Z) (c : list Z) (px : spm_partition_desc_t) (s : tfm_state) :
  chain_ok x c s -> x <> 0 -> entry s x = Some px ->
  0 <= secure_start < secure_end -> secure_end <= 2 ^ 32 - 1 -> word_ok (svc_r0 f) -> word_ok (svc_r1 f) ->
  tfm_core_memory_permission_check_handler f s =
    (Ok (if buffer_allowed (hw s) px (svc_r0 f) (svc_r1 f) (svc_r2 f) then TFM_SUCCESS
         else TFM_ERROR_INVALID_PARAMETER), s).
Proof.
  intros Hch Hx0 Hx Hse He Hp Hs. apply runs_eq.
  destruct (running_caller x c s Hch Hx0) as (y & c' & px' & py & -> & Hx' & _ & _ & Sx & _).
  assert (px' = px) as -> by congruence.
  unfold tfm_core_memory_permission_check_handler. run_getters.
  rewrite (ch_running _ _ _ Hch). run_getters. fold (is_secure px). rewrite Sx. cbn [negb orb].
  unfold buffer_allowed. destruct (Z.eqb_spec (svc_r1 f) 0) as [E|E].
  { run_getters. rewrite E. done. }
  destruct (Z.ltb_spec 0 (svc_r1 f)); [|unfold word_ok in Hs; lia]. run_getters. cbn [andb].
  destruct (cmse_check_address_range _ _ _ _); cbn [negb andb]; [|by run_getters].
  destruct (secure _).
  { rewrite secure_range_exact by done. destruct (_ && _); by run_getters. }
  destruct (sau_region_valid _); cbn [negb andb]; [|by run_getters].
  destruct (Z.eqb_spec (sau_region (cmse_TT (hw s) (svc_r0 f))) TFM_NS_REGION_CODE) as [E1|E1].
  - rewrite E1. cbn [Z.eqb TFM_NS_REGION_CODE TFM_NS_REGION_DATA orb andb].
    destruct (_ =? TFM_MEMORY_ACCESS_RW); by run_getters.
  - rewrite orb_false_r. destruct (_ =? TFM_NS_REGION_DATA); by run_getters.
Qed.

(** C33: The memory check of a running secure partition is exact: it succeeds
    when the range is not empty, the hardware grants the access, and the range
    lies wholly in the secure memory open to partitions, without wrapping
    around, or starts in the non-secure data, or in the non-secure code for
    reading; it fails otherwise and changes nothing. *)
Theorem memory_check_exact (f : svc_frame) (x : Z) (c : list Z) (px : spm_partition_desc_t) (s : tfm_state) :
  chain_ok x c s -> x <> 0 -> entry s x = Some px ->
  0 <= secure_start < secure_end -> secure_end <= 2 ^ 32 - 1 -> word_ok (svc_r0 f) -> word_ok (svc_r1 f) ->
  tfm_core_memory_permission_check_handler f s =
    (Ok (if buffer_allowed (hw s) px (svc_r0 f) (svc_r1 f) (svc_r2 f) then TFM_SUCCESS
         else TFM_ERROR_INVALID_PARAMETER), s).
Proof. apply memory_handler_exact. Qed.

(** [tfm_core_validate_secure_caller] tells a partition called by another
    partition from one called by the non-secure side. *)
Theorem validate_caller_exact (f : svc_frame) (x : Z) (c : list Z) (s : tfm_state) :
  chain_ok x c s -> x <> 0 ->
  tfm_core_validate_secure_caller_handler f s =
    (Ok (if decide (c = [TFM_SP_NON_SECURE_ID]) then TFM_ERROR_GENERIC else TFM_SUCCESS), s).
Proof. intros Hch Hx0. by apply (validate_handler_runs x). Qed.

(** [tfm_push_lock] does not look at the result of [get_partition_idx]: a
    request that names no declared partition reads outside the partition table. *)
Theorem unknown_partition_faults (desc : tfm_sfn_req_s) (lr x : Z) (c : list Z) (s : tfm_state) :
  chain_ok x c s -> ns_caller desc = (x =? 0) -> sp_id desc ∉ part_ids s ->
  fst (tfm_push_lock desc lr s) = Fault.
Proof.
  intros Hch Hns Hid. destruct (entry_exists _ _ _ x Hch ltac:(left)) as [px Hx].
  destruct (ch_range _ _ _ Hch x ltac:(left)) as [Hx0 Hxc].
  pose proof (ch_db _ _ _ Hch) as Hdb. pose proof (db_secure s Hdb x px Hxc Hx) as Hsec.
  assert (part_at x s = (Ok px, s)) as E0 by (apply runs_eq; by eapply runs_part_at_entry).
  assert (part_at SPM_INVALID_PARTITION_IDX s = (Fault, s)) as EI.
  { unfold part_at. rewrite lookup_ge_None_2; [done|]. rewrite (db_len s Hdb).
    unfold SPM_MAX_PARTITIONS, TFM_MAX_USER_PARTITIONS, TFM_INTERNAL_PARTITIONS, SPM_INVALID_PARTITION_IDX. lia. }
  unfold tfm_push_lock, tfm_spm_partition_get_running_partition_idx.
  rewrite (bind_Ok _ _ _ x s) by (unfold gets; by rewrite (ch_running _ _ _ Hch)).
  rewrite (invalid_idx_ne s x c Hch).
  rewrite (bind_Ok _ _ _ (partition_flags (static_data px)) s)
    by (unfold tfm_spm_partition_get_flags; by rewrite (bind_Ok _ _ _ _ _ E0)).
  fold (is_secure px). rewrite Hsec, Hns, eqb_reflx. cbn [negb].
  rewrite (bind_Ok _ _ _ _ _ (get_partition_idx_unknown s (sp_id desc) Hdb Hid)).
  rewrite (bind_Ok _ _ _ (PSP (cpu s)) s) by done.
  unfold tfm_spm_partition_get_runtime_data, bind at 1 2. by rewrite EI.
Qed.
End claims.
