(* ===== verification/SecureApiEntry.v ===== *)
(** * Where a secure function starts

    A call of the non-secure side that the core accepts runs the function it
    names once, with the arguments it was given, in a state the core prepares
    whatever the function is; what happens before and after does not look into
    the function. *)

From stdpp Require Import sets.
From S2P Require Import Prelude Mpu SpmHal Spm SecureApi SecureApiSpec SecureApiChain SecureApiBalance SecureCalls.

Section entry.
  Context {Layout : tfm_layout} {Cmse : cmse}.

(** From [s], [F] runs the function at [pc] with [ar] in a state of [P], and goes
    on with the value it returns. *)
Definition starts {A} (F : (Z -> Z * Z * Z * Z -> TM Z) -> TM A) (s : tfm_state) (pc : Z) (ar : Z * Z * Z * Z)
    (P : tfm_state -> Prop) : Prop :=
  exists s' (k : Z -> TM A), P s' /\ forall run_sfn, F run_sfn s = bind (run_sfn pc ar) k s'.

Lemma starts_run s pc ar (P : tfm_state -> Prop) : P s -> starts (fun run_sfn => run_sfn pc ar) s pc ar P.
Proof. intros HP. exists s, ret. split; [done|]. intros run. unfold bind. by destruct (run pc ar s) as [[]]. Qed.

Lemma starts_bind {A B} F (k : A -> TM B) s pc ar P :
  starts F s pc ar P -> starts (fun run_sfn => bind (F run_sfn) k) s pc ar P.
Proof.
  intros (s' & k' & HP & E). exists s', (fun a => bind (k' a) k). split; [done|]. intros run.
  transitivity (bind (bind (run pc ar) k') k s'); [|symmetry; apply bind_assoc]. unfold bind at 1. rewrite E. done.
Qed.

(** A step before the function. *)
Lemma starts_step {A B} (m : TM A) (F : (Z -> Z * Z * Z * Z -> TM Z) -> A -> TM B) s pc ar P :
  runs m s (fun a s1 => starts (fun run_sfn => F run_sfn a) s1 pc ar P) ->
  starts (fun run_sfn => bind m (F run_sfn)) s pc ar P.
Proof.
  intros (a & s1 & Em & s' & k & HP & E). exists s', k. split; [done|]. intros run.
  rewrite (bind_Ok _ _ _ _ _ Em). apply E.
Qed.

(** The function is entered by an exception return. *)
Definition thread_entry (s : tfm_state) : tfm_state :=
  set_cpu (fun c => {| PSP := u32 (PSP c + SVC_STACK_FRAME_SIZE); PSPLIM := PSPLIM c;
    CONTROL_nPRIV := CONTROL_nPRIV c; CONTROL_SPSEL := 1; IPSR := 0; PRIMASK := PRIMASK c;
    SHCSR := SHCSR c; AIRCR_low := AIRCR_low c |}) s.

Ltac starts_getters := run_getters; repeat (apply starts_step; run_getters).

Lemma exc_return_starts desc s :
  IPSR (cpu s) <> 0 -> frame_at (stack_word s) (PSP (cpu s)) desc ->
  starts tfm_core_exc_return_to_sfn s (sfn desc) (passed_args (args desc)) (eq (thread_entry s)).
Proof.
  intros Hi Hf. unfold tfm_core_exc_return_to_sfn. starts_getters.
  rewrite (proj2 (Z.eqb_neq _ _) Hi). unfold read_word, set_PSP, set_SPSEL, set_IPSR. starts_getters.
  unfold frame_at in Hf. unfold passed_args. destruct (args desc) as [[[a0 a1] a2] a3].
  destruct Hf as (<- & <- & <- & <- & <-). apply starts_bind, starts_run. by destruct s as [? ? ? ? []].
Qed.

Section ns.
  Context (Hlvl : TFM_LVL = 1 \/ TFM_LVL = 3) (Hlayout : TFM_LVL = 3 -> layout_ok) (ids : list Z).

(** A state in which a function of a partition called by the non-secure side runs. *)
Record ns_serving (s : tfm_state) : Prop := {
  nsv_chain : exists t, chain_ok t [TFM_SP_NON_SECURE_ID] s;
  nsv_ids : part_ids s = ids;
  nsv_thread : IPSR (cpu s) = EXC_NUM_THREAD_MODE;
  nsv_stack : CONTROL_SPSEL (cpu s) = 1;
}.

Lemma ns_request_starts desc s :
  ns_ready ids s -> ns_caller desc = true -> exc_num desc = EXC_NUM_SVCALL -> sp_id desc ∈ ids ->
  accepted_call desc s ->
  starts (fun run_sfn => tfm_core_sfn_request_function run_sfn (Some desc)) s (sfn desc) (passed_args (args desc))
    ns_serving.
Proof using All.
  intros Hr Hns Hexc Hid (Hfn & Hsp & Hidle). destruct (Hr) as [Hch Hids Hipsr [Hl Hbit]].
  unfold tfm_core_sfn_request_function, tfm_check_sfn_req_integrity.
  rewrite (proj2 (Z.eqb_neq _ _) Hfn), (proj2 (Z.eqb_neq _ _) Hsp). cbn [orb Z.eqb TFM_SUCCESS negb].
  unfold disable_irq, enable_irq, set_PRIMASK. starts_getters. fold (irq 1 s).
  unfold tfm_core_check_sfn_req_rules. rewrite Hns, Hexc.
  change (EXC_NUM_SVCALL =? EXC_NUM_THREAD_MODE) with false.
  change (EXC_NUM_SVCALL =? EXC_NUM_SVCALL) with true. cbn [negb andb].
  run_getters. change (tfm_secure_lock (irq 1 s)) with (tfm_secure_lock s). rewrite (ch_lock _ _ _ Hch).
  change (Z.of_nat (length []) =? 0) with true. cbn [negb]. run_getters. cbn [Z.eqb negb TFM_SUCCESS].
  pose proof (chain_ok_irq _ _ 1 s Hch) as Hch1.
  assert (same_parts s (irq 1 s)) as S1 by by apply same_parts_db.
  destruct (entry_exists _ _ _ 0 Hch1 ltac:(left)) as [px Hx].
  destruct (part_ids_elem (irq 1 s) (sp_id desc)) as (t & pt & Htr & Ht & Hpid).
  { apply (ch_db _ _ _ Hch1). } { by rewrite (same_parts_ids _ _ S1), Hids. }
  pose proof (Hidle t pt Htr Ht (eq_sym Hpid)) as Hst.
  apply starts_step. eapply runs_mono; [by apply (push_lock_runs Hlvl Hlayout desc _ 0 [] (irq 1 s) t px pt)|].
  intros r s1 [-> Hpush]. cbn [Z.eqb negb TFM_SUCCESS].
  assert (chain_ok t [0] s1) as Hch2 by by eapply pushed_chain.
  assert (switches desc = true) as Hsw by (unfold switches; rewrite Hexc; apply orb_true_r).
  pose proof (pu_cpu _ _ _ _ _ _ _ _ Hpush) as Hcpu. rewrite Hsw in Hcpu.
  starts_getters. apply configure_runs; [by rewrite Hcpu|]. starts_getters.
  unfold tfm_core_call_sfn. rewrite Hexc.
  change (EXC_NUM_SVCALL =? EXC_NUM_THREAD_MODE) with false. rewrite andb_false_r. starts_getters.
  apply starts_bind. starts_getters. cbn [andb]. fold (irq 0 (configure_cpu s1)).
  set (s2 := irq 0 (configure_cpu s1)).
  assert (chain_ok t [0] s2) as Hch3 by by apply chain_ok_irq, chain_ok_configure.
  destruct (exc_return_starts desc s2) as (s' & k & <- & E).
  - cbn. rewrite Hcpu. cbn. by rewrite Hipsr.
  - apply (pu_frame _ _ _ _ _ _ _ _ Hpush Hsw).
  - exists (thread_entry s2), k. split; [|done]. split; [| |done|done].
    + exists t. by apply chain_ok_set_cpu; [apply u32_ok|].
    + rewrite <- Hids, <- (same_parts_ids _ _ S1). apply same_parts_ids.
      etrans; [apply (pushed_same _ _ _ _ _ _ _ _ Hx Ht Hpush)|]. by apply same_parts_db.
Qed.
End ns.
End entry.
