(* ===== verification/SpmSpec.v ===== *)
(** * The partition database after initialisation

    [tfm_spm_db_init] fills the table with the non-secure side, the core and the
    user partitions in the order of the list, or reports that they do not fit;
    the error handler of the initialisation and its indexing mistake. *)

From S2P Require Import Prelude Mpu SpmHal Spm SecureApi SecureApiSpec.

Lemma runs_to {S E A} (m : M S E A) s a s' (Q : A -> S -> Prop) :
  m s = (Ok a, s') -> Q a s' -> runs m s Q.
Proof. intros. by exists a, s'. Qed.

Section db.
  Context {Layout : tfm_layout}.

(** A database under construction: [l] holds the entries declared so far. *)
Definition filling (s : tfm_state) (l : list spm_partition_desc_t) : tfm_state :=
  set_db (fun _ => {| is_init := 0; partition_count := zlen l;
                      running_partition_idx := SPM_INVALID_PARTITION_IDX;
                      partitions := l ++ replicate (Z.to_nat SPM_MAX_PARTITIONS - length l) zero_desc |}) s.

Definition with_runtime_state (sp : Z) : spm_partition_runtime_data_t := {|
  partition_state := SPM_PARTITION_STATE_UNINIT; caller_partition_idx := 0; orig_psp := 0;
  orig_psplim := 0; orig_lr := 0; share := 0; stack_ptr := sp |}.

Definition zero_mem : tfm_spm_partition_memory_data_t := memory_data zero_desc.

Definition ns_entry : spm_partition_desc_t := {|
  static_data := {| partition_id := TFM_SP_NON_SECURE_ID; partition_flags := 0; partition_init := 0 |};
  runtime_data := with_runtime_state 0; platform_data := None;
  memory_data := if TFM_LVL =? 1 then zero_mem
    else {| code_start := 0; code_limit := 0; ro_start := 0; ro_limit := 0; rw_start := Stack_Mem;
            rw_limit := 0; zi_start := 0; zi_limit := 0; stack_bottom := Stack_Mem; stack_top := Stack_top |} |}.

Definition core_entry : spm_partition_desc_t := {|
  static_data := {| partition_id := TFM_SP_CORE_ID; partition_flags := 3; partition_init := 0 |};
  runtime_data := with_runtime_state 0; platform_data := None; memory_data := zero_mem |}.

Definition declared_entry (d : partition_decl) : spm_partition_desc_t := {|
  static_data := {| partition_id := decl_id d; partition_flags := decl_flags d; partition_init := decl_init d |};
  runtime_data := with_runtime_state (if TFM_LVL =? 1 then 0 else stack_top (decl_mem d));
  platform_data := decl_periph d;
  memory_data := if TFM_LVL =? 1 then zero_mem else decl_mem d |}.

Abbreviation MAX := (Z.to_nat SPM_MAX_PARTITIONS).

Lemma MAX_8 : MAX = 8%nat.
Proof. done. Qed.

Lemma filling_entry s l i : (length l <= MAX)%nat -> 0 <= i ->
  entry (filling s l) i =
    if decide (i < zlen l) then l !! Z.to_nat i
    else if decide (i < SPM_MAX_PARTITIONS) then Some zero_desc else None.
Proof.
  intros Hl Hi. unfold entry, filling. cbn. rewrite decide_True by done.
  case_decide; [rewrite lookup_app_l by lia; done|]. rewrite lookup_app_r by lia.
  case_decide.
  - apply lookup_replicate_2. unfold SPM_MAX_PARTITIONS, TFM_MAX_USER_PARTITIONS, TFM_INTERNAL_PARTITIONS in *. lia.
  - apply lookup_replicate_None. unfold SPM_MAX_PARTITIONS, TFM_MAX_USER_PARTITIONS, TFM_INTERNAL_PARTITIONS in *. lia.
Qed.

(** Appending an entry. *)
Lemma add_partition_runs f s l :
  (length l < MAX)%nat -> add_partition f (filling s l) = (Ok true, filling s (l ++ [f zero_desc])).
Proof.
  intros Hl. apply runs_eq. unfold add_partition. apply runs_bind, runs_gets.
  change (partition_count (g_spm_partition_db (filling s l))) with (zlen l).
  destruct (Z.leb_spec SPM_MAX_PARTITIONS (zlen l)) as [|_]; [lia|].
  apply runs_bind, runs_part_update_entry.
  { rewrite filling_entry by lia. rewrite decide_False, decide_True by lia. by eexists. }
  apply runs_bind, runs_modify, runs_ret. split; [done|].
  unfold filling, alter_part, set_db. cbn. f_equal. f_equal.
  - rewrite u32_small; [rewrite length_app; cbn; lia|].
    unfold SPM_MAX_PARTITIONS, TFM_MAX_USER_PARTITIONS, TFM_INTERNAL_PARTITIONS in *. lia.
  - replace (MAX - length l)%nat with (S (MAX - length (l ++ [f zero_desc])))
      by (rewrite length_app; cbn; lia).
    cbn [replicate]. rewrite Nat2Z.id.
    replace (length l) with (length l + 0)%nat by lia.
    rewrite alter_app_r. cbn. by rewrite <- app_assoc.
Qed.

Lemma add_partition_full f s l :
  length l = MAX -> add_partition f (filling s l) = (Ok false, filling s l).
Proof.
  intros Hl. apply runs_eq. unfold add_partition. apply runs_bind, runs_gets.
  change (partition_count (g_spm_partition_db (filling s l))) with (zlen l).
  destruct (Z.leb_spec SPM_MAX_PARTITIONS (zlen l)) as [_|]; [by apply runs_ret|lia].
Qed.

(** The partition just declared is found by its identifier, which is new. *)
Lemma get_last_idx s l e :
  (length (l ++ [e]) <= MAX)%nat -> partition_id (static_data e) <> INVALID_PARTITION_ID ->
  (forall p, p ∈ l -> partition_id (static_data p) <> partition_id (static_data e)) ->
  get_partition_idx (partition_id (static_data e)) (filling s (l ++ [e])) =
    (Ok (zlen l), filling s (l ++ [e])).
Proof.
  intros Hl Hv Hnew. rewrite length_app in Hl. cbn in Hl.
  unfold get_partition_idx. rewrite (proj2 (Z.eqb_neq _ _) Hv).
  apply runs_eq, runs_bind, runs_gets. eapply runs_val; [|done].
  change (partition_count (g_spm_partition_db (filling s (l ++ [e])))) with (zlen (l ++ [e])).
  assert (length (l ++ [e]) = S (length l)) as Hlen by (rewrite length_app; cbn; lia).
  eapply (get_partition_idx_loop_spec _ 0 _ _ (zlen l) e); [| | |done|lia].
  - intros j Hj. rewrite filling_entry, decide_True by lia. apply lookup_lt_is_Some. lia.
  - intros j q Hj. rewrite filling_entry, decide_True by lia. rewrite lookup_app_l by lia.
    intros Hq. apply Hnew. by eapply list_elem_of_lookup_2.
  - rewrite filling_entry, decide_True by lia. rewrite Nat2Z.id, lookup_app_r, Nat.sub_diag by lia. done.
Qed.

Lemma update_last_runs s l e f :
  (length (l ++ [e]) <= MAX)%nat ->
  part_update (zlen l) f (filling s (l ++ [e])) = (Ok tt, filling s (l ++ [f e])).
Proof.
  intros Hl. rewrite length_app in Hl. cbn in Hl. apply runs_eq, runs_part_update_entry.
  { rewrite filling_entry by (rewrite ?length_app; cbn; lia).
    rewrite decide_True by (rewrite length_app; cbn; lia).
    apply lookup_lt_is_Some. rewrite length_app. cbn. lia. }
  split; [done|]. unfold filling, alter_part, set_db. cbn. rewrite !length_app. cbn. f_equal. f_equal.
  rewrite Nat2Z.id, <- !app_assoc. replace (length l) with (length l + 0)%nat at 1 by lia.
  by rewrite alter_app_r.
Qed.

(** The declarations name distinct partitions, none of them reserved. *)
Definition decls_ok (ds : list partition_decl) : Prop :=
  NoDup (decl_id <$> ds) /\
  Forall (fun d => decl_id d <> TFM_SP_NON_SECURE_ID /\ decl_id d <> TFM_SP_CORE_ID /\
                   decl_id d <> INVALID_PARTITION_ID) ds.

(** One declaration appends its entry. *)
Lemma declare_one_runs d ds s l :
  (length l < MAX)%nat -> decl_id d <> INVALID_PARTITION_ID ->
  (forall p, p ∈ l -> partition_id (static_data p) <> decl_id d) ->
  declare_user_partitions (d :: ds) (filling s l) =
    declare_user_partitions ds (filling s (l ++ [declared_entry d])).
Proof.
  intros Hl Hv Hd. cbn [declare_user_partitions]. unfold partition_declare.
  erewrite bind_Ok by by apply add_partition_runs. cbv beta iota.
  set (e1 := Build_spm_partition_desc_t _ _ _ _).
  assert (length (l ++ [e1]) <= MAX)%nat as Hl1 by (rewrite length_app; cbn; lia).
  unfold partition_add_init_func.
  erewrite bind_Ok; [|erewrite bind_Ok by apply (get_last_idx s l e1 Hl1 Hv Hd); by apply update_last_runs].
  cbv beta. set (e2 := Build_spm_partition_desc_t _ _ _ _).
  assert (length (l ++ [e2]) <= MAX)%nat as Hl2 by (rewrite length_app; cbn; lia).
  assert (declared_entry d = Build_spm_partition_desc_t (static_data e2) (runtime_data e2) (decl_periph d)
            (memory_data e2)) as ->.
  { unfold declared_entry, e2, e1. cbn. by destruct (TFM_LVL =? 1). }
  destruct (decl_periph d) as [pd|]; [|by erewrite bind_Ok].
  unfold partition_add_peripheral.
  by erewrite bind_Ok; [|erewrite bind_Ok by apply (get_last_idx s l e2 Hl2 Hv Hd); by apply update_last_runs].
Qed.

(** The identifiers still to be declared are new. *)
Definition decls_new (ds : list partition_decl) (l : list spm_partition_desc_t) : Prop :=
  NoDup (decl_id <$> ds) /\
  forall d, d ∈ ds -> decl_id d <> INVALID_PARTITION_ID /\
    forall p, p ∈ l -> partition_id (static_data p) <> decl_id d.

Lemma decls_new_cons d ds l : decls_new (d :: ds) l ->
  decls_new [d] l /\ decls_new ds (l ++ [declared_entry d]).
Proof.
  intros [Hnd Hnew]. cbn in Hnd. inversion Hnd as [|? ? Hnin Hnd']; subst. split.
  - split; [by apply NoDup_singleton|]. intros d' Hd'. apply list_elem_of_singleton in Hd' as ->.
    apply Hnew. left.
  - split; [done|]. intros d' Hd'. destruct (Hnew d') as [Hv Hp]; [by right|]. split; [done|].
    intros p Hp'. apply elem_of_app in Hp' as [Hp'|Hp']; [by apply Hp|].
    apply list_elem_of_singleton in Hp' as ->. cbn. intros E. apply Hnin. rewrite E.
    by apply list_elem_of_fmap_2.
Qed.

Lemma decls_new_head d ds l : decls_new (d :: ds) l ->
  decl_id d <> INVALID_PARTITION_ID /\ (forall p, p ∈ l -> partition_id (static_data p) <> decl_id d).
Proof. intros [_ Hnew]. apply Hnew. left. Qed.

Lemma declare_user_runs ds s l :
  (length l + length ds <= MAX)%nat -> decls_new ds l ->
  declare_user_partitions ds (filling s l) = (Ok true, filling s (l ++ (declared_entry <$> ds))).
Proof.
  revert l. induction ds as [|d ds IH]; intros l Hl Hnew; [cbn; by rewrite app_nil_r|].
  cbn [length] in Hl. destruct (decls_new_head _ _ _ Hnew). destruct (decls_new_cons _ _ _ Hnew).
  rewrite declare_one_runs by (done || lia). rewrite IH; [|rewrite length_app; cbn; lia|done].
  cbn [fmap list_fmap]. by rewrite <- app_assoc.
Qed.

Lemma declare_user_overflow ds s l :
  (length l <= MAX < length l + length ds)%nat -> decls_new ds l ->
  fst (declare_user_partitions ds (filling s l)) = Ok false.
Proof.
  revert l. induction ds as [|d ds IH]; intros l Hl Hnew; cbn [length] in Hl; [lia|].
  destruct (decls_new_head _ _ _ Hnew). destruct (decls_new_cons _ _ _ Hnew).
  destruct (decide (length l = MAX)) as [Hf|Hf].
  - cbn [declare_user_partitions]. unfold partition_declare.
    by erewrite bind_Ok by by apply add_partition_full.
  - rewrite declare_one_runs by (done || lia). apply IH; [rewrite length_app; cbn; lia|done].
Qed.

(** The database once it is complete. *)
Definition db_ready (ds : list partition_decl) (s : tfm_state) : tfm_state :=
  let l := ns_entry :: core_entry :: (declared_entry <$> ds) in
  set_db (fun _ => {| is_init := 1; partition_count := zlen l;
                      running_partition_idx := SPM_INVALID_PARTITION_IDX;
                      partitions := l ++ replicate (MAX - length l) zero_desc |}) s.

Lemma decls_ok_new ds : decls_ok ds -> decls_new ds [ns_entry; core_entry].
Proof.
  intros [Hnd Hr]. split; [done|]. intros d Hd.
  destruct (proj1 (list.Forall_forall _ _) Hr d Hd) as (? & ? & ?). split; [done|].
  intros p Hp. apply elem_of_cons in Hp as [->|Hp]; [done|]. by apply list_elem_of_singleton in Hp as ->.
Qed.

(** The first two entries. *)
Lemma internal_entries {A} s (k : TM A) :
  (modify (set_db (fun _ => {| is_init := 0; partition_count := 0;
                              running_partition_idx := SPM_INVALID_PARTITION_IDX;
                              partitions := replicate MAX zero_desc |})) ;;
   ok <- declare_non_secure ;; ok' <- declare_core ;; k) s = k (filling s [ns_entry; core_entry]).
Proof.
  rewrite (bind_Ok _ _ _ tt (filling s [])) by done.
  unfold declare_non_secure. erewrite bind_Ok by (apply add_partition_runs; apply Nat.ltb_lt; reflexivity).
  unfold declare_core. erewrite bind_Ok by (apply add_partition_runs; apply Nat.ltb_lt; reflexivity).
  done.
Qed.

(** [tfm_spm_db_init] builds the partition table: the non-secure side, the
    core, then the user partitions in the order of the list, each with the
    identifier, flags, initialisation function, peripheral, memory and stack of
    its declaration, in state uninitialised; more than six user partitions are
    an invalid configuration. *)
Theorem db_init_exact (ds : list partition_decl) (s : tfm_state) :
  decls_ok ds ->
  if decide (zlen ds <= TFM_MAX_USER_PARTITIONS)
  then tfm_spm_db_init ds s = (Ok SPM_ERR_OK, db_ready ds s)
  else fst (tfm_spm_db_init ds s) = Ok SPM_ERR_INVALID_CONFIG.
Proof.
  intros Hok%decls_ok_new.
  assert (tfm_spm_db_init ds s =
    (ok <- declare_user_partitions ds ;;
     if negb ok then ret SPM_ERR_INVALID_CONFIG
     else modify (set_db (fun db => {| is_init := 1; partition_count := partition_count db;
                                     running_partition_idx := running_partition_idx db;
                                     partitions := partitions db |})) ;;
          ret SPM_ERR_OK) (filling s [ns_entry; core_entry])) as ->.
  { rewrite <- internal_entries. unfold tfm_spm_db_init.
    rewrite !(bind_Ok (modify _) _ s tt (filling s [])) by done.
    unfold declare_non_secure. erewrite !bind_Ok by (apply add_partition_runs; apply Nat.ltb_lt; reflexivity). cbn [negb].
    unfold declare_core. by erewrite !bind_Ok by (apply add_partition_runs; apply Nat.ltb_lt; reflexivity). }
  unfold TFM_MAX_USER_PARTITIONS. case_decide.
  - by erewrite bind_Ok by (apply declare_user_runs; [rewrite MAX_8; cbn [length]; lia|done]).
  - pose proof (declare_user_overflow ds s [ns_entry; core_entry]) as Ho.
    unfold bind at 1. destruct (declare_user_partitions ds _) as [r s1]. cbn in Ho.
    rewrite Ho; [done| |done]. rewrite MAX_8. lia.
Qed.

(** The error handler of the initialisation passes the identifier of the
    partition where its index is wanted: for a user partition, whose identifier
    is at least 256, it writes outside the table. *)
Theorem init_failure_faults (p : spm_partition_desc_t) (s : tfm_state) :
  length (partitions (g_spm_partition_db s)) = MAX -> TFM_SP_BASE <= partition_id (static_data p) ->
  fst (tfm_spm_partition_err_handler p s) = Fault.
Proof.
  intros Hl Hid. unfold tfm_spm_partition_err_handler, tfm_spm_partition_set_state, part_update, bind, part_at.
  rewrite lookup_ge_None_2; [done|]. rewrite Hl.
  unfold SPM_MAX_PARTITIONS, TFM_MAX_USER_PARTITIONS, TFM_INTERNAL_PARTITIONS, TFM_SP_BASE in *. lia.
Qed.
End db.
