(* ===== verification/CoreBoard.v ===== *)
(** * The core on the AN521 board

    The addresses of [partition/region_defs.h] of the board, built without the
    bootloader at isolation level 3, two user partitions, and the state [main]
    leaves: instances of the claims about the core. *)

From stdpp Require Import sets relations.
From S2P Require Import Prelude Mpu SpmHal Spm SecureApi SecureApiSpec SecureApiChain SecureApiBalance SecureCalls SpmSpec.

Module An521Core.

(** Symbols of the linker script are addresses of the secure RAM. *)
#[local] Instance an521_core_layout : tfm_layout := {|
  TFM_LVL := 3;
  TFM_CORE_DEBUG := false;
  CMSE_VENEER_REGION_START := 0x1006FB40;
  CMSE_VENEER_REGION_LIMIT := 0x1006FBFF;
  NS_CODE_START := 0x00100000;
  NS_CODE_LIMIT := 0x0016FBFF;
  NS_DATA_START := 0x28100000;
  NS_DATA_LIMIT := 0x281FFFFF;
  S_DATA_START := 0x38000000;
  S_DATA_SIZE := 0x00100000;
  TFM_UNPRIV_CODE_Base := 0x10040000;
  TFM_UNPRIV_CODE_Limit := 0x10042000;
  TFM_UNPRIV_RO_DATA_Base := 0x38000400;
  TFM_UNPRIV_RO_DATA_Limit := 0x38000800;
  TFM_UNPRIV_SCRATCH_Base := 0x38000800;
  TFM_UNPRIV_SCRATCH_Limit := 0x38001000;
  TFM_SECURE_STACK_Base := 0x38002000;
  TFM_SECURE_STACK_Limit := 0x38003000;
  Stack_Mem := 0x38001000;
  Stack_top := 0x38001800;
  tfm_core_partition_return_svc := 0x10040100;
  return_from_sfn := 0x10010200;
|}.

(** The attribution of the board: the secure RAM is secure, the rest is in the
    region the attribution unit has for it; the range check passes. *)
#[local] Instance an521_cmse : cmse := {|
  cmse_check_address_range _ ptr size _ := ptr + size <=? 0x39000000;
  cmse_TT _ ptr := {| secure := 0x38000000 <=? ptr; sau_region_valid := true;
                      sau_region := if ptr <? 0x10000000 then 0 else 1 |};
|}.

Definition memory_at (code data : Z) : tfm_spm_partition_memory_data_t := {|
  code_start := code; code_limit := code + 0x1000; ro_start := code; ro_limit := code + 0x1000;
  rw_start := data; rw_limit := data + 0x100; zi_start := data + 0x100; zi_limit := data + 0x200;
  stack_bottom := data + 0x200; stack_top := data + 0x1000 |}.

Definition storage_id : Z := 256.
Definition test_id : Z := 258.

Definition user_partitions : list partition_decl := [
  {| decl_id := storage_id; decl_flags := 3; decl_init := 0x10050001; decl_periph := None;
     decl_mem := memory_at 0x10050000 0x38010000 |};
  {| decl_id := test_id; decl_flags := 1; decl_init := 0x10060001;
     decl_periph := Some {| periph_start := 0x50302000; periph_limit := 0x50302FFF;
                            periph_ppc_bank := 9; periph_ppc_loc := 2 |};
     decl_mem := memory_at 0x10060000 0x38020000 |}].

(** One secure function calls the storage partition and checks a buffer before
    it returns; the others return success. *)
Definition bodies (a : Z) (ar : Z * Z * Z * Z) : sfn_prog :=
  if a =? 0x10060101
  then SfnMemoryCheck 0x38000800 0x100 2 (fun _ =>
       SfnCall storage_id 0x10050101 ar (fun v => SfnReturn 0))
  else SfnReturn 0.

Definition reset_state : tfm_state := {|
  g_spm_partition_db := {| is_init := 0; partition_count := 0; running_partition_idx := 0; partitions := [] |};
  tfm_secure_lock := 0; tfm_secure_api_init := 1; ns_state_AIRCR := 0;
  cpu := {| PSP := 0x38001800; PSPLIM := 0; CONTROL_nPRIV := 0; CONTROL_SPSEL := 1; IPSR := 0;
            PRIMASK := 0; SHCSR := 0; AIRCR_low := 0 |};
  stack_word := fun _ => 0;
  hw := {| mpu := {| CTRL := 0; RNR := 0; RBAR := fun _ => 0; RLAR := fun _ => 0 |};
           nsppc := fun _ => 0; spppc := fun _ => 0 |} |}.

Definition boot : outcome tfm_halt unit * tfm_state := main (sfn_exec bodies 8) user_partitions reset_state.

(** [main] comes to its end. *)
Example boot_ok : fst boot = Ok tt.
Proof. vm_compute. reflexivity. Qed.

(** The board after [main], with the SVC handler of the non-secure side active. *)
Definition ready : tfm_state :=
  set_cpu (fun c => {| PSP := PSP c; PSPLIM := PSPLIM c; CONTROL_nPRIV := CONTROL_nPRIV c;
    CONTROL_SPSEL := CONTROL_SPSEL c; IPSR := EXC_NUM_SVCALL; PRIMASK := PRIMASK c; SHCSR := SHCSR c;
    AIRCR_low := AIRCR_low c |}) (snd boot).

Definition ids : list Z := [0; 1; storage_id; test_id].

Lemma layout_good : layout_ok.
Proof. repeat split; vm_compute; congruence. Qed.

Lemma build_good : build_ok.
Proof. split; [by right|]. intros _. apply layout_good. Qed.

(** The table [main] leaves. *)
Definition ready_table : list spm_partition_desc_t :=
  Eval vm_compute in partitions (g_spm_partition_db ready).

Lemma ready_db : g_spm_partition_db ready =
  {| is_init := 1; partition_count := 4; running_partition_idx := 0; partitions := ready_table |}.
Proof. vm_compute. reflexivity. Qed.

Lemma ready_entry i p : i < 4 -> entry ready i = Some p ->
  exists n : nat, (n < 4)%nat /\ i = Z.of_nat n /\ ready_table !! n = Some p.
Proof.
  unfold entry. rewrite ready_db. cbn [partitions]. case_decide; [|done]. intros Hi Hp.
  exists (Z.to_nat i). split_and!; [lia|lia|done].
Qed.

(** Enumerate the entries of the table. *)
Ltac each_entry i p Hi He :=
  destruct (ready_entry i p Hi He) as (n & Hn & -> & Hp); clear He;
  destruct n as [|[|[|[|n]]]]; [cbn in Hp; injection Hp as <-..|lia].

Lemma ready_ids : part_ids ready = ids.
Proof. unfold part_ids. rewrite ready_db. reflexivity. Qed.

Lemma ready_db_ok : db_ok ready.
Proof.
  constructor; rewrite ?ready_ids, ?ready_db; cbn [is_init partition_count partitions].
  - done.
  - done.
  - vm_compute. split; congruence.
  - unfold ids, storage_id, test_id. repeat constructor; set_solver.
  - unfold ids, storage_id, test_id, INVALID_PARTITION_ID. set_solver.
  - intros i p Hi He. by each_entry i p Hi He.
  - intros _ i p Hi Hc He. each_entry i p Hi He; [|done| |].
    all: unfold sandbox_ok, cfg_ok; cbn; repeat split; intros; simplify_eq; cbn; first [done | lia].
Qed.

Lemma ready_mpu p : entry ready 0 = Some p -> mpu_for (hw ready) p (shared_with 0 p).
Proof.
  intros Hp. destruct (ready_entry 0 p ltac:(lia) Hp) as (n & _ & E & Hn).
  assert (n = 0%nat) as -> by lia. cbn in Hn. injection Hn as <-. split; [vm_compute; reflexivity|].
  intros n Hn. assert (exists k : nat, (k < 8)%nat /\ n = Z.of_nat k) as (k & Hk & ->).
  { exists (Z.to_nat n). unfold MPU_DREGION in Hn. lia. }
  do 8 (destruct k as [|k]; [vm_compute; reflexivity|]). lia.
Qed.

Lemma ready_chain : chain_ok TFM_SP_NON_SECURE_ID [] ready.
Proof.
  constructor; rewrite ?ready_db; cbn [is_init partition_count partitions running_partition_idx].
  - apply ready_db_ok.
  - vm_compute. reflexivity.
  - reflexivity.
  - constructor.
  - repeat constructor. set_solver.
  - intros i Hi. apply list_elem_of_singleton in Hi as ->. unfold TFM_SP_NON_SECURE_ID. lia.
  - intros i p Hi He. each_entry i p Hi He; constructor; cbn; unfold TFM_SP_NON_SECURE_ID, TFM_SP_CORE_ID;
      try done; try set_solver; unfold word_ok; try lia; auto.
  - vm_compute. reflexivity.
  - vm_compute. split; congruence.
  - intros _. apply ready_mpu.
Qed.

Lemma bodies_ok a ar : prog_ok ids (bodies a ar).
Proof.
  assert (prog_ok ids (SfnReturn 0)) as H0 by (constructor; split; [lia|by left]).
  unfold bodies. destruct (a =? 0x10060101); [|done].
  constructor. intros _. constructor; [|by intros v]. unfold ids. set_solver.
Qed.

Lemma ready_ns : ns_ready ids ready.
Proof. constructor; [apply ready_chain|apply ready_ids|vm_compute; reflexivity|vm_compute; split; [split; congruence|done]]. Qed.

(** The test partition, called from the non-secure side. *)
Definition test_call : tfm_sfn_req_s :=
  {| sp_id := test_id; sfn := 0x10060101; args := (1, 2, 3, 4); exc_num := EXC_NUM_SVCALL; ns_caller := true |}.
Definition in_call : tfm_state := snd (tfm_push_lock test_call (Z.lor return_from_sfn 1) ready).

Lemma in_call_step : tfm_push_lock test_call (Z.lor return_from_sfn 1) ready = (Ok TFM_SUCCESS, in_call).
Proof. vm_compute. reflexivity. Qed.

Lemma test_declared : test_id ∈ part_ids ready.
Proof. rewrite ready_ids. unfold ids. set_solver. Qed.

Lemma in_call_chain : chain_ok 3 [0] in_call.
Proof.
  destruct (step_call_chain (proj1 build_good) (fun _ => layout_good) 0 [] ready in_call test_call
              (Z.lor return_from_sfn 1) ready_chain test_declared in_call_step) as [t Ht].
  assert (t = 3) as -> by (rewrite <- (ch_running _ _ _ Ht); vm_compute; reflexivity). done.
Qed.

Lemma in_call_reached : rtc core_step ready in_call.
Proof. apply rtc_once, (step_call _ _ test_call (Z.lor return_from_sfn 1)); [apply test_declared|apply in_call_step]. Qed.

(** Its code runs in thread mode. *)
Definition in_thread : tfm_state :=
  set_cpu (fun c => {| PSP := u32 (PSP c + SVC_STACK_FRAME_SIZE); PSPLIM := PSPLIM c;
    CONTROL_nPRIV := CONTROL_nPRIV c; CONTROL_SPSEL := 1; IPSR := 0; PRIMASK := PRIMASK c;
    SHCSR := SHCSR c; AIRCR_low := AIRCR_low c |}) in_call.

Lemma in_thread_ok : thread_ok ids 8 3 [0] in_thread.
Proof.
  constructor; [apply chain_ok_set_cpu; [apply u32_ok|apply in_call_chain]|done| | |done|done].
  - vm_compute. reflexivity.
  - vm_compute. reflexivity.
Qed.

Definition test_part : spm_partition_desc_t := Eval vm_compute in default zero_desc (entry in_call 3).

Lemma in_call_entry : entry in_call 3 = Some test_part.
Proof. vm_compute. reflexivity. Qed.

(** ** Instances of the claims *)

Lemma ns_call_returns_witness :
  runs (tfm_core_partition_request (sfn_exec bodies 8) true test_id 0x10060101 (1, 2, 3, 4)) ready
    (fun v s' => - 2 ^ 31 <= v < 2 ^ 31 /\ ns_returned ids ready s').
Proof.
  apply (ns_call_returns bodies ids 8 test_id 0x10060101 (1, 2, 3, 4) ready).
  - apply build_good.
  - apply bodies_ok.
  - vm_compute. lia.
  - apply ready_ns.
  - unfold ids. set_solver.
Defined.

Lemma secure_call_balanced_witness :
  runs (tfm_core_partition_request (sfn_exec bodies 8) false storage_id 0x10050101 (1, 2, 3, 4)) in_thread
    (fun _ s' => balanced 3 [0] in_thread s').
Proof.
  apply (secure_call_balanced bodies ids 8 storage_id 0x10050101 (1, 2, 3, 4) 3 [0] in_thread).
  - apply build_good.
  - apply bodies_ok.
  - apply in_thread_ok.
  - unfold ids. set_solver.
Defined.

Lemma core_invariant_witness : exists x c, chain_ok x c in_call.
Proof.
  apply (core_invariant ready in_call).
  - apply build_good.
  - apply ready_chain.
  - apply in_call_reached.
Defined.

(** The called partition can write its own data. *)
Lemma level3_isolation_witness :
  unpriv_allowed MPU_DREGION (mpu (hw in_call)) Write 0x38020010 = true /\
  (in_region 0x38020010 (cfg_region ns_data_cfg) = true \/
   in_region 0x38020010 (cfg_region (rw_stack_cfg (memory_data test_part))) = true \/
   (exists pd, platform_data test_part = Some pd /\ in_region 0x38020010 (cfg_region (periph_cfg pd)) = true) \/
   (3 <> 0 /\ share (runtime_data test_part) = TFM_BUFFER_SHARE_SCRATCH /\
    in_region 0x38020010 (cfg_region scratch_share_cfg) = true)).
Proof.
  split; [vm_compute; reflexivity|].
  apply (level3_isolation ready in_call 3 test_part 0x38020010).
  - reflexivity.
  - apply layout_good.
  - apply ready_chain.
  - apply in_call_reached.
  - vm_compute. reflexivity.
  - apply in_call_entry.
  - vm_compute. reflexivity.
Defined.

Definition self_call : tfm_sfn_req_s :=
  {| sp_id := test_id; sfn := 0x10060101; args := (0, 0, 0, 0); exc_num := EXC_NUM_THREAD_MODE; ns_caller := false |}.

Lemma busy_partition_refused_witness :
  tfm_core_sfn_request_function (sfn_exec bodies 8) (Some self_call) in_call =
    (Ok (TFM_ERROR_STATUS TFM_ERROR_PARTITION_NON_REENTRANT), irq 0 in_call).
Proof.
  apply (busy_partition_refused (sfn_exec bodies 8) self_call 3 3 [0] test_part in_call).
  - apply in_call_chain.
  - lia.
  - set_solver.
  - apply in_call_entry.
  - reflexivity.
  - reflexivity.
  - cbn. lia.
  - reflexivity.
  - cbn. unfold test_id. lia.
Defined.

Lemma ns_locked_out_witness :
  tfm_core_sfn_request_function (sfn_exec bodies 8) (Some test_call) in_call =
    (Ok (TFM_ERROR_STATUS TFM_ERROR_SECURE_DOMAIN_LOCKED), irq 0 in_call).
Proof.
  apply (ns_locked_out (sfn_exec bodies 8) test_call 3 0 [] in_call).
  - apply in_call_chain.
  - reflexivity.
  - reflexivity.
  - cbn. lia.
  - cbn. unfold test_id. lia.
Defined.

(** The test partition returns the reserved value 5. *)
Definition returns_five : tfm_state := set_words (fun w => upd w (PSP (cpu in_call)) 5) in_call.

Lemma reserved_return_halts_witness :
  fst (tfm_core_partition_return_handler 0xFFFFFFFD returns_five) = Err TFM_HALTED.
Proof.
  apply (reserved_return_halts 0xFFFFFFFD 5 returns_five).
  - vm_compute. congruence.
  - vm_compute. reflexivity.
  - lia.
  - vm_compute. split; congruence.
  - vm_compute. congruence.
Defined.

Definition check_frame : svc_frame :=
  {| svc_r0 := 0x38000800; svc_r1 := 0x100; svc_r2 := 2; svc_desc := None; svc_imm := TFM_SVC_MEMORY_CHECK |}.

Lemma memory_check_exact_witness :
  tfm_core_memory_permission_check_handler check_frame in_call =
    (Ok (if buffer_allowed (hw in_call) test_part 0x38000800 0x100 2 then TFM_SUCCESS
         else TFM_ERROR_INVALID_PARAMETER), in_call).
Proof.
  apply (memory_check_exact check_frame 3 [0] test_part in_call).
  - apply in_call_chain.
  - lia.
  - apply in_call_entry.
  - vm_compute. split; congruence.
  - vm_compute. congruence.
  - vm_compute. split; congruence.
  - vm_compute. split; congruence.
Defined.

Lemma validate_caller_exact_witness :
  tfm_core_validate_secure_caller_handler check_frame in_call = (Ok TFM_ERROR_GENERIC, in_call).
Proof.
  apply (validate_caller_exact check_frame 3 [0] in_call).
  - apply in_call_chain.
  - lia.
Defined.

Definition unknown_call : tfm_sfn_req_s :=
  {| sp_id := 999; sfn := 0x10060101; args := (0, 0, 0, 0); exc_num := EXC_NUM_SVCALL; ns_caller := true |}.

Lemma unknown_partition_faults_witness : fst (tfm_push_lock unknown_call 0 ready) = Fault.
Proof.
  apply (unknown_partition_faults unknown_call 0 0 [] ready).
  - apply ready_chain.
  - reflexivity.
  - rewrite ready_ids. unfold ids, storage_id, test_id. cbn. set_solver.
Defined.

Lemma db_init_exact_witness :
  tfm_spm_db_init user_partitions reset_state = (Ok SPM_ERR_OK, db_ready user_partitions reset_state).
Proof.
  apply (db_init_exact user_partitions reset_state). split.
  - cbn. unfold storage_id, test_id. repeat constructor; set_solver.
  - repeat constructor; vm_compute; congruence.
Defined.

Lemma init_failure_faults_witness : fst (tfm_spm_partition_err_handler test_part ready) = Fault.
Proof.
  apply (init_failure_faults test_part ready).
  - vm_compute. reflexivity.
  - vm_compute. congruence.
Defined.
End An521Core.
