(* ===== verification/CoreInterface.v ===== *)
(** * The requests of secure functions to the core

    The two checks the services ask the core for, as a class of operations with
    the core as its instance, and what the core promises a secure function while
    it runs. *)

From S2P Require Import Prelude SstDefs SpmHal Spm SecureApi.

Class tfm_core_ops (C : Type) := {
  core_memory_permission_check : Z -> Z -> Z -> M C tfm_halt Z;
  core_validate_secure_caller : M C tfm_halt Z;
}.

#[export] Instance tfm_core_c `{!tfm_layout, !cmse} (run_sfn : Z -> Z * Z * Z * Z -> TM Z)
  : tfm_core_ops tfm_state := {
  core_memory_permission_check := tfm_core_memory_permission_check run_sfn;
  core_validate_secure_caller := tfm_core_validate_secure_caller run_sfn;
}.

(** What the core promises to a secure function while it runs. *)
Class tfm_core_laws (C : Type) `{!tfm_core_ops C} := {
  core_serving : C -> Prop;
  caller_is_secure : C -> bool;
  mem_allowed : C -> Z -> Z -> Z -> bool;
  validate_caller_law c :
    core_serving c ->
    exists v, core_validate_secure_caller c = (Ok v, c) /\ (v =? 0) = caller_is_secure c;
  memory_check_law c p n a :
    core_serving c -> is_u32 p -> is_u32 n ->
    exists v, core_memory_permission_check p n a c = (Ok v, c) /\ (v =? 0) = mem_allowed c p n a;
  mem_allowed_range c p n a :
    core_serving c -> is_u32 p -> is_u32 n -> mem_allowed c p n a = true -> 0 < n /\ p + n <= 2 ^ 32;
}.
