(* ===== verification/CoreLaws.v ===== *)
(** * The core's promises to the services

    The checks a secure function asks the core for are SVC calls: they leave
    the core as it was and answer from the call chain, the partition table and
    the protection hardware.  This discharges the laws the services are
    verified against. *)

From stdpp Require Import sets.
From S2P Require Import Prelude SstDefs Mpu SpmHal Spm SecureApi SecureApiSpec SecureApiChain SecureApiBalance SecureCalls CoreInterface.

(** The protection hardware does not grant a range that wraps around. *)
Class cmse_no_wrap `{!cmse} : Prop :=
  check_address_range_wraps : forall h p n f,
    is_u32 p -> is_u32 n -> cmse_check_address_range h p n f = true -> p + n <= 2 ^ 32.

Section core_laws.
  Context {Layout : tfm_layout} {Cmse : cmse} {Hwrap : cmse_no_wrap}.
  Context (run_sfn : Z -> Z * Z * Z * Z -> TM Z).

(** A secure function runs in thread mode on the process stack. *)
Definition serving (s : tfm_state) : Prop :=
  (exists x c, chain_ok x c s /\ x <> 0) /\ IPSR (cpu s) = EXC_NUM_THREAD_MODE /\ CONTROL_SPSEL (cpu s) = 1.

Definition called_by_secure (s : tfm_state) : bool :=
  match entry s (running_partition_idx (g_spm_partition_db s)) with
  | Some px => negb (caller_partition_idx (runtime_data px) =? TFM_SP_NON_SECURE_ID)
  | None => false
  end.

Definition running_buffer_allowed (s : tfm_state) (p n a : Z) : bool :=
  match entry s (running_partition_idx (g_spm_partition_db s)) with
  | Some px => buffer_allowed (hw s) px p n a
  | None => false
  end.

(** An SVC whose handler only answers leaves the state as it was. *)
Lemma svc_answers f v s :
  word_ok (PSP (cpu s)) -> IPSR (cpu s) = EXC_NUM_THREAD_MODE -> CONTROL_SPSEL (cpu s) = 1 ->
  (forall cp, word_ok (PSP cp) ->
     SVCHandler_main run_sfn f 0xFFFFFFFD (set_cpu (fun _ => cp) s) =
       (Ok (TFM_SUCCESS, Some v, 0xFFFFFFFD), set_cpu (fun _ => cp) s)) ->
  svc run_sfn f s = (Ok (s32 v), s).
Proof using Type.
  destruct s as [db lk ini ns cp w h]. destruct cp. cbn. intros Hp -> -> Hh.
  specialize (Hh {| PSP := u32 (PSP - SVC_STACK_FRAME_SIZE); PSPLIM := PSPLIM; CONTROL_nPRIV := CONTROL_nPRIV;
    CONTROL_SPSEL := 0; IPSR := EXC_NUM_SVCALL; PRIMASK := PRIMASK; SHCSR := SHCSR; AIRCR_low := AIRCR_low |}
    (u32_bound _)).
  unfold svc. set (H := SVCHandler_main run_sfn f) in *. clearbody H.
  unfold set_cpu in Hh. cbn in Hh. unfold get_PSP, set_PSP, set_SPSEL, set_IPSR, bind, gets, modify, ret, set_cpu.
  cbn. rewrite Hh. cbn. do 4 f_equal.
  unfold u32. rewrite Zplus_mod_idemp_l, Z.sub_add. by apply Z.mod_small.
Qed.

Lemma serving_entry s x c :
  chain_ok x c s -> x <> 0 ->
  exists px, entry s x = Some px /\ called_by_secure s = negb (bool_decide (c = [TFM_SP_NON_SECURE_ID])) /\
    forall p n a, running_buffer_allowed s p n a = buffer_allowed (hw s) px p n a.
Proof using Type.
  intros Hch Hx0. destruct (running_caller x c s Hch Hx0) as (y & c' & px & py & -> & Hx & Hy & Hc & _).
  exists px. split; [done|]. unfold called_by_secure, running_buffer_allowed. rewrite (ch_running _ _ _ Hch), Hx.
  split; [|done]. rewrite Hc. f_equal. pose proof (chain_end x y c' s Hch) as He.
  destruct (Z.eqb_spec y TFM_SP_NON_SECURE_ID) as [->|Hne]; symmetry.
  - apply bool_decide_eq_true. by rewrite (proj1 He).
  - apply bool_decide_eq_false. by intros [= ->].
Qed.

Lemma validate_answers s : serving s ->
  core_validate_secure_caller (tfm_core_ops := tfm_core_c run_sfn) s =
    (Ok (if called_by_secure s then TFM_SUCCESS else TFM_ERROR_GENERIC), s).
Proof using Type.
  intros ((x & c & Hch & Hx0) & Hi & Hs). destruct (serving_entry s x c Hch Hx0) as (px & _ & -> & _).
  assert (forall v, v = (if negb (bool_decide (c = [TFM_SP_NON_SECURE_ID])) then TFM_SUCCESS else TFM_ERROR_GENERIC) ->
    core_validate_secure_caller (tfm_core_ops := tfm_core_c run_sfn) s = (Ok (s32 v), s)) as H.
  { intros v Hv. apply svc_answers; [apply (ch_psp _ _ _ Hch)|done..|]. intros cp Hcp. unfold SVCHandler_main.
    cbn -[bind tfm_core_validate_secure_caller_handler]. change (Z.land 4294967293 EXC_RETURN_SECURE_STACK =? 0) with false. cbv iota.
        erewrite bind_Ok by (eapply (validate_handler_runs x c); [by apply chain_ok_set_cpu|done]).
    unfold ret. rewrite Hv. do 4 f_equal. unfold TFM_SP_NON_SECURE_ID.
    destruct (decide (c = [0])); [by rewrite bool_decide_eq_true_2|by rewrite bool_decide_eq_false_2]. }
  rewrite (H _ eq_refl). by destruct (bool_decide _).
Qed.

Context (Hsec : 0 <= secure_start < secure_end) (Hend : secure_end <= 2 ^ 32 - 1).

Lemma memory_answers s p n a : serving s -> is_u32 p -> is_u32 n ->
  core_memory_permission_check (tfm_core_ops := tfm_core_c run_sfn) p n a s =
    (Ok (if running_buffer_allowed s p n a then TFM_SUCCESS else TFM_ERROR_INVALID_PARAMETER), s).
Proof using Hsec Hend.
  intros ((x & c & Hch & Hx0) & Hi & Hs) Hp Hn. destruct (serving_entry s x c Hch Hx0) as (px & Hx & _ & ->).
  assert (forall v, v = (if buffer_allowed (hw s) px p n a then TFM_SUCCESS else TFM_ERROR_INVALID_PARAMETER) ->
    core_memory_permission_check (tfm_core_ops := tfm_core_c run_sfn) p n a s = (Ok (s32 v), s)) as H.
  { intros v Hv. apply svc_answers; [apply (ch_psp _ _ _ Hch)|done..|]. intros cp Hcp. unfold SVCHandler_main.
    cbn -[bind tfm_core_memory_permission_check_handler]. change (Z.land 4294967293 EXC_RETURN_SECURE_STACK =? 0) with false. cbv iota.
    erewrite bind_Ok by (eapply (memory_handler_exact _ x c px); [by apply chain_ok_set_cpu|done..]).
    unfold ret. by rewrite Hv. }
  rewrite (H _ eq_refl). by destruct (buffer_allowed _ _ _ _ _).
Qed.

(** The laws hold of the core. *)
#[export, program] Instance tfm_core_c_laws : tfm_core_laws (tfm_core_ops0 := tfm_core_c run_sfn) tfm_state := {
  core_serving := serving;
  caller_is_secure := called_by_secure;
  mem_allowed := running_buffer_allowed;
}.
Next Obligation.
  intros s Hs. eexists. split; [by apply validate_answers|]. by destruct (called_by_secure s).
Qed.
Next Obligation.
  intros s p n a Hs Hp Hn. eexists. split; [by apply memory_answers|]. by destruct (running_buffer_allowed _ _ _ _).
Qed.
Next Obligation.
  intros s p n a ((x & c & Hch & Hx0) & _) Hp Hn Hb. destruct (serving_entry s x c Hch Hx0) as (px & _ & _ & Hpx).
  rewrite Hpx in Hb. unfold buffer_allowed in Hb. rewrite !andb_true_iff in Hb.
  destruct Hb as [[H0%Z.ltb_lt Hr] _]. split; [done|]. by eapply check_address_range_wraps.
Qed.
End core_laws.
