(* ===== verification/SstAsset.v ===== *)
(** * Secure storage: the asset manager

    [sst_asset_management.c] with the policy tables of [assets/sst_asset_defs.c]
    and the checks of [sst_utils.c]: the secure functions of the storage
    partition.  They decide by application and by the side of the caller who may
    do what with an asset, check every buffer of the caller with the core, and
    call the object system.  The state is that of the object system, that of
    the core, and the memory the callers' buffers are in. *)

From stdpp Require Import gmap.
From S2P Require Import Prelude SstDefs SstInterface SstObject SpmHal Spm SecureApi CoreInterface.

(** ** The policy database *)

Definition S_APP_ID : Z := 0xF0000000.

Definition SST_PERM_BYPASS : Z := Z.shiftl 1 3.
Definition SST_PERM_READ : Z := Z.shiftl 1 2.
Definition SST_PERM_WRITE : Z := Z.shiftl 1 1.
Definition SST_PERM_REFERENCE : Z := 1.
Definition SST_PERM_FORBIDDEN : Z := 0.

Record sst_asset_perm_t := Perm {
  app : Z;
  perm : Z;
}.

Record sst_asset_policy_t := Policy {
  type : Z;
  asset_uuid : Z;
  max_size : Z;
  perms_count : Z;
  perms_modes_start_idx : Z;
}.

Definition PSA_SST_ASSET_KEY_HMAC : Z := 0x02000001.
Definition PSA_SST_ASSET_KEY_AES : Z := 0x04000001.
Definition PSA_SST_ASSET_KEY_RSA_PUBLIC : Z := 0x06010000.
Definition PSA_SST_ASSET_KEY_RSA_PRIVATE : Z := 0x07010000.
Definition PSA_SST_ASSET_CERT_X_509 : Z := 0x08000001.

Definition SST_ASSET_ID_AES_KEY_128 : Z := 3.
Definition SST_ASSET_ID_AES_KEY_192 : Z := 4.
Definition SST_ASSET_ID_AES_KEY_256 : Z := 5.
Definition SST_ASSET_ID_RSA_KEY_1024 : Z := 6.
Definition SST_ASSET_ID_RSA_KEY_2048 : Z := 7.
Definition SST_ASSET_ID_RSA_KEY_4096 : Z := 8.
Definition SST_ASSET_ID_X509_CERT_SMALL : Z := 9.
Definition SST_ASSET_ID_X509_CERT_LARGE : Z := 10.
Definition SST_ASSET_ID_SHA224_HASH : Z := 11.
Definition SST_ASSET_ID_SHA384_HASH : Z := 12.

Definition SST_APP_ID_0 : Z := 9.
Definition SST_APP_ID_1 : Z := 10.
Definition SST_APP_ID_2 : Z := 11.
Definition SST_APP_ID_3 : Z := 12.

Definition SST_NUM_ASSETS : nat := 10.

Definition asset_perms : list sst_asset_policy_t := [
  Policy PSA_SST_ASSET_KEY_AES SST_ASSET_ID_AES_KEY_128 16 1 0;
  Policy PSA_SST_ASSET_KEY_AES SST_ASSET_ID_AES_KEY_256 32 1 2;
  Policy PSA_SST_ASSET_KEY_RSA_PUBLIC SST_ASSET_ID_RSA_KEY_1024 128 1 3;
  Policy PSA_SST_ASSET_KEY_RSA_PUBLIC SST_ASSET_ID_RSA_KEY_2048 256 1 4;
  Policy PSA_SST_ASSET_KEY_RSA_PRIVATE SST_ASSET_ID_RSA_KEY_4096 512 1 5;
  Policy PSA_SST_ASSET_CERT_X_509 SST_ASSET_ID_X509_CERT_SMALL 512 1 6;
  Policy PSA_SST_ASSET_CERT_X_509 SST_ASSET_ID_X509_CERT_LARGE 2048 3 7;
  Policy PSA_SST_ASSET_KEY_AES SST_ASSET_ID_AES_KEY_192 24 3 7;
  Policy PSA_SST_ASSET_KEY_HMAC SST_ASSET_ID_SHA224_HASH 28 1 10;
  Policy PSA_SST_ASSET_KEY_HMAC SST_ASSET_ID_SHA384_HASH 48 1 11].

Definition perm_rw : Z := Z.lor (Z.lor SST_PERM_REFERENCE SST_PERM_READ) SST_PERM_WRITE.

Definition asset_perms_modes : list sst_asset_perm_t := [
  Perm SST_APP_ID_3 SST_PERM_REFERENCE;
  Perm SST_APP_ID_3 perm_rw;
  Perm SST_APP_ID_3 perm_rw;
  Perm SST_APP_ID_3 perm_rw;
  Perm SST_APP_ID_3 perm_rw;
  Perm SST_APP_ID_3 perm_rw;
  Perm SST_APP_ID_3 perm_rw;
  Perm SST_APP_ID_0 SST_PERM_REFERENCE;
  Perm SST_APP_ID_1 (Z.lor SST_PERM_REFERENCE SST_PERM_READ);
  Perm SST_APP_ID_2 perm_rw;
  Perm SST_APP_ID_1 perm_rw;
  Perm SST_APP_ID_2 (Z.lor SST_PERM_REFERENCE SST_PERM_WRITE)].

Definition TFM_MEMORY_ACCESS_RO : Z := 1.

(** ** State and effects *)

Record am_state (C S : Type) := AmState {
  am_core : C;
  am_sys : sst_sys S;
  am_mem : mem;
}.
Arguments AmState {C S}.
Arguments am_core {C S}.
Arguments am_sys {C S}.
Arguments am_mem {C S}.

(** A function returns an error code, or never returns. *)
Inductive am_exit :=
  | AmErr (err : psa_sst_err_t)
  | AmHalt (h : tfm_halt).

Definition SIZEOF_tfm_sst_buf_t : Z := 12.
Record tfm_sst_buf_t := {
  buf_data : Z;
  buf_size : Z;
  buf_offset : Z;
}.
Definition decode_buf (bs : list byte) : tfm_sst_buf_t := {|
  buf_data := get32 (slice 0 4 bs);
  buf_size := get32 (slice 4 4 bs);
  buf_offset := get32 (slice 8 4 bs) |}.

Definition encode_info (i : psa_sst_asset_info_t) : list byte :=
  put32 (info_type i) ++ put32 (info_size_current i) ++ put32 (info_size_max i).

Section asset_manager.
  Context {C S : Type} `{!tfm_core_ops C, !sst_core_ops S}.
  Local Abbreviation AM := (M (am_state C S) am_exit).

Definition ask_core {A} (m : M C tfm_halt A) : AM A := fun s =>
  let '(r, c) := m (am_core s) in
  (match r with Ok a => Ok a | Err h => Err (AmHalt h) | Fault => Fault end,
   AmState c (am_sys s) (am_mem s)).

Definition call_sys {A} (m : M (sst_sys S) psa_sst_err_t A) : AM A := fun s =>
  let '(r, o) := m (am_sys s) in
  (match r with Ok a => Ok a | Err e => Err (AmErr e) | Fault => Fault end,
   AmState (am_core s) o (am_mem s)).

(** Accesses to the memory of the caller; the address space has 32 bits. *)
Definition mem_load (p n : Z) : AM (list byte) :=
  in_bounds (p + n <=? 2 ^ 32) ;; gets (fun s => mread (am_mem s) p n).
Definition mem_store (p : Z) (bs : list byte) : AM unit :=
  in_bounds (p + zlen bs <=? 2 ^ 32) ;;
  modify (fun s => AmState (am_core s) (am_sys s) (mwrite (am_mem s) p bs)).

(** ** [sst_utils.c]

    The checks hand on the code of the core as it is. *)

Definition sst_utils_memory_bound_check (addr size app_id access : Z) : AM Z :=
  ask_core (core_memory_permission_check addr size access).

Definition sst_utils_bound_check_and_copy (src size app_id : Z) : AM (Z * list byte) :=
  bound_check <- sst_utils_memory_bound_check src size app_id TFM_MEMORY_ACCESS_RO ;;
  if bound_check =? 0
  then dest <- mem_load src size ;; ret (bound_check, dest)
  else ret (bound_check, []).

Definition sst_utils_validate_secure_caller : AM Z := ask_core core_validate_secure_caller.

(** ** Access control *)

Fixpoint lookup_app_perms_loop (n : nat) (i start app_id : Z) : AM (option sst_asset_perm_t) :=
  match n with
  | O => ret None
  | Datatypes.S n =>
      match asset_perms_modes !! Z.to_nat (start + i) with
      | None => fault
      | Some perm_entry =>
          if app perm_entry =? app_id then ret (Some perm_entry)
          else lookup_app_perms_loop n (i + 1) start app_id
      end
  end.

Definition sst_am_lookup_app_perms (db_entry : sst_asset_policy_t) (app_id : Z)
  : AM (option sst_asset_perm_t) :=
  lookup_app_perms_loop (Z.to_nat (perms_count db_entry)) 0 (perms_modes_start_idx db_entry) app_id.

Fixpoint lookup_db_entry_loop (n : nat) (i uuid : Z) : AM (option sst_asset_policy_t) :=
  match n with
  | O => ret None
  | Datatypes.S n =>
      match asset_perms !! Z.to_nat i with
      | None => fault
      | Some db_entry =>
          if asset_uuid db_entry =? uuid then ret (Some db_entry)
          else lookup_db_entry_loop n (i + 1) uuid
      end
  end.

Definition sst_am_lookup_db_entry (uuid : Z) : AM (option sst_asset_policy_t) :=
  lookup_db_entry_loop SST_NUM_ASSETS 0 uuid.

Definition sst_am_check_s_ns_policy (app_id request_type : Z) : AM Z :=
  err <- sst_utils_validate_secure_caller ;;
  ret (if err =? 0 then
         if negb (app_id =? S_APP_ID) then
           if negb (Z.land request_type SST_PERM_READ =? 0) then SST_PERM_REFERENCE
           else SST_PERM_FORBIDDEN
         else SST_PERM_BYPASS
       else if app_id =? S_APP_ID then SST_PERM_FORBIDDEN
       else request_type).

Definition sst_am_get_db_entry (app_id uuid request_type : Z) : AM (option sst_asset_policy_t) :=
  request_type <- sst_am_check_s_ns_policy app_id request_type ;;
  if request_type =? SST_PERM_FORBIDDEN then ret None else
  db_entry <- sst_am_lookup_db_entry uuid ;;
  match db_entry with
  | None => ret None
  | Some db_entry =>
      if request_type =? SST_PERM_BYPASS then ret (Some db_entry) else
      perm_entry <- sst_am_lookup_app_perms db_entry app_id ;;
      match perm_entry with
      | None => ret None
      | Some perm_entry =>
          ret (if negb (Z.land (perm perm_entry) request_type =? 0) then Some db_entry else None)
      end
  end.

Definition validate_policy_db : AM unit := ret tt.

(** [SST_RAM_FS]: the storage is in RAM and is created at start-up. *)
Definition sst_am_prepare (SST_RAM_FS : bool) : AM unit :=
  or_return validate_policy_db (AmErr PSA_SST_ERR_SYSTEM_ERROR) ;;
  r <- try_err (call_sys sst_system_prepare) ;;
  match r with
  | inl _ => ret tt
  | inr err =>
      if SST_RAM_FS
      then ignore (call_sys sst_system_wipe_all) ;; call_sys sst_system_prepare
      else fail err
  end.

(** ** The secure functions *)

(** Returns the local copy of the structure. *)
Definition validate_copy_validate_iovec (src app_id access : Z) : AM (Z * tfm_sst_buf_t) :=
  r <- sst_utils_bound_check_and_copy src SIZEOF_tfm_sst_buf_t app_id ;;
  let '(bound_check, dest) := r in
  let dest := decode_buf dest in
  if bound_check =? 0
  then
    bound_check <- sst_utils_memory_bound_check (buf_data dest) (buf_size dest) app_id access ;;
    ret (bound_check, dest)
  else ret (bound_check, dest).

(** [if (db_entry == NULL) return PSA_SST_ERR_ASSET_NOT_FOUND;] *)
Definition require_entry (app_id uuid request_type : Z) : AM sst_asset_policy_t :=
  db_entry <- sst_am_get_db_entry app_id uuid request_type ;;
  match db_entry with
  | None => fail (AmErr PSA_SST_ERR_ASSET_NOT_FOUND)
  | Some db_entry => ret db_entry
  end.

Definition all_perms : Z := Z.lor (Z.lor SST_PERM_REFERENCE SST_PERM_READ) SST_PERM_WRITE.

Definition sst_am_get_info (app_id uuid info : Z) : AM unit :=
  bound_check <- sst_utils_memory_bound_check info PSA_SST_ASSET_INFO_SIZE app_id TFM_MEMORY_ACCESS_RW ;;
  if negb (bound_check =? 0) then fail (AmErr PSA_SST_ERR_PARAM_ERROR) else
  require_entry app_id uuid all_perms ;;
  tmp_info <- call_sys (sst_object_get_info uuid) ;;
  mem_store info (encode_info tmp_info).

Definition sst_am_get_attributes (app_id uuid attrs : Z) : AM unit :=
  bound_check <- sst_utils_memory_bound_check attrs PSA_SST_ASSET_ATTR_SIZE app_id TFM_MEMORY_ACCESS_RW ;;
  if negb (bound_check =? 0) then fail (AmErr PSA_SST_ERR_PARAM_ERROR) else
  require_entry app_id uuid all_perms ;;
  tmp_attrs <- call_sys (sst_object_get_attributes uuid) ;;
  mem_store attrs tmp_attrs.

Definition sst_am_set_attributes (app_id uuid attrs : Z) : AM unit :=
  bound_check <- sst_utils_memory_bound_check attrs PSA_SST_ASSET_ATTR_SIZE app_id TFM_MEMORY_ACCESS_RO ;;
  if negb (bound_check =? 0) then fail (AmErr PSA_SST_ERR_PARAM_ERROR) else
  require_entry app_id uuid all_perms ;;
  validity_start <- mem_load attrs 8 ;;
  validity_end <- mem_load (attrs + 8) 8 ;;
  if negb (le_combine validity_start =? 0) || negb (le_combine validity_end =? 0)
  then fail (AmErr PSA_SST_ERR_PARAM_ERROR)
  else
    new <- mem_load attrs PSA_SST_ASSET_ATTR_SIZE ;;
    call_sys (sst_object_set_attributes uuid new).

Definition sst_am_create (app_id uuid : Z) : AM unit :=
  db_entry <- require_entry app_id uuid SST_PERM_WRITE ;;
  call_sys (sst_object_create uuid (type db_entry) (max_size db_entry)).

Definition sst_am_read (app_id uuid data : Z) : AM unit :=
  require_entry app_id uuid SST_PERM_READ ;;
  r <- validate_copy_validate_iovec data app_id TFM_MEMORY_ACCESS_RW ;;
  let '(err, local_data) := r in
  if negb (err =? 0) then fail (AmErr PSA_SST_ERR_ASSET_NOT_FOUND) else
  bs <- call_sys (sst_object_read uuid (buf_offset local_data) (buf_size local_data)) ;;
  mem_store (buf_data local_data) bs.

Definition sst_am_write (app_id uuid data : Z) : AM unit :=
  db_entry <- require_entry app_id uuid SST_PERM_WRITE ;;
  r <- validate_copy_validate_iovec data app_id TFM_MEMORY_ACCESS_RO ;;
  let '(err, local_data) := r in
  if negb (err =? 0) then fail (AmErr PSA_SST_ERR_ASSET_NOT_FOUND) else
  match sst_utils_check_contained_in 0 (max_size db_entry) (buf_offset local_data) (buf_size local_data) with
  | Some err => fail (AmErr err)
  | None =>
      bs <- mem_load (buf_data local_data) (buf_size local_data) ;;
      call_sys (sst_object_write uuid bs (buf_offset local_data) (buf_size local_data))
  end.

Definition sst_am_delete (app_id uuid : Z) : AM unit :=
  require_entry app_id uuid SST_PERM_WRITE ;;
  call_sys (sst_object_delete uuid).

(** The address of the signing key is stored wherever the caller wants it. *)
Definition sst_jwt_get_address (simple_private_der app_id uuid address : Z) : AM unit :=
  mem_store address (put32 simple_private_der).
End asset_manager.
