(* ===== verification/SstAssetSpec.v ===== *)
(** * Secure storage: what the asset manager guarantees

    The promises of the core as a class of laws, access control as a function
    of the policy tables, and the asset manager as a guarded map of assets: the
    checks of [sst_asset_management.c] are what the object system needs. *)

From stdpp Require Import gmap.
From S2P Require Import Prelude SstDefs SstRefine SstInterface SstObject SstObjectSpec SpmHal Spm SecureApi CoreInterface SstAsset.

(** ** Access control *)

Definition policy_of (uuid : Z) : option sst_asset_policy_t :=
  List.find (fun e => asset_uuid e =? uuid) asset_perms.

(** The permissions of an application for an asset. *)
Definition app_perm (e : sst_asset_policy_t) (a : Z) : Z :=
  match List.find (fun p => app p =? a) (slice (perms_modes_start_idx e) (perms_count e) asset_perms_modes) with
  | Some p => perm p
  | None => 0
  end.

(** Who may do what: a secure caller everything in its own name and reading by
    reference in the name of an application, a non-secure caller what its
    application has one of the requested permissions for, and never in the name
    of the secure side. *)
Definition permitted (sec : bool) (app_id request_type : Z) (e : sst_asset_policy_t) : bool :=
  if sec
  then (app_id =? S_APP_ID) ||
       (negb (Z.land request_type SST_PERM_READ =? 0) && negb (Z.land (app_perm e app_id) SST_PERM_REFERENCE =? 0))
  else negb (app_id =? S_APP_ID) && negb (Z.land (app_perm e app_id) request_type =? 0).

Definition allowed (sec : bool) (app_id uuid request_type : Z) : option sst_asset_policy_t :=
  match policy_of uuid with
  | Some e => if permitted sec app_id request_type e then Some e else None
  | None => None
  end.

Definition is_request (r : Z) : Prop := r = SST_PERM_READ \/ r = SST_PERM_WRITE \/ r = all_perms.

Section lookups.
  Context {C S : Type}.
  Implicit Types s : am_state C S.

Lemma app_perms_loop_spec n i start a s :
  0 <= start + i -> (Z.to_nat (start + i) + n <= length asset_perms_modes)%nat ->
  lookup_app_perms_loop n i start a s =
    (Ok (List.find (fun p => app p =? a) (take n (drop (Z.to_nat (start + i)) asset_perms_modes))), s).
Proof.
  revert i. induction n as [|n IH]; intros i H0 Hn; [done|]. cbn [lookup_app_perms_loop].
  destruct (lookup_lt_is_Some_2 asset_perms_modes (Z.to_nat (start + i)) ltac:(lia)) as [p Hp].
  rewrite Hp, (drop_S _ _ _ Hp). cbn [take List.find]. destruct (app p =? a); [done|].
  rewrite IH by lia. replace (Z.to_nat (start + (i + 1))) with (Datatypes.S (Z.to_nat (start + i))) by lia. done.
Qed.

Lemma db_entry_loop_spec n i u s :
  0 <= i -> (Z.to_nat i + n <= length asset_perms)%nat ->
  lookup_db_entry_loop n i u s =
    (Ok (List.find (fun e => asset_uuid e =? u) (take n (drop (Z.to_nat i) asset_perms))), s).
Proof.
  revert i. induction n as [|n IH]; intros i H0 Hn; [done|]. cbn [lookup_db_entry_loop].
  destruct (lookup_lt_is_Some_2 asset_perms (Z.to_nat i) ltac:(lia)) as [p Hp].
  rewrite Hp, (drop_S _ _ _ Hp). cbn [take List.find]. destruct (asset_uuid p =? u); [done|].
  rewrite IH by lia. by replace (Z.to_nat (i + 1)) with (Datatypes.S (Z.to_nat i)) by lia.
Qed.

(** The tables are consistent: every entry's permissions are in the table. *)
Lemma policy_entry_ok u e :
  policy_of u = Some e ->
  asset_uuid e = u /\ is_u32 u /\ u <> 0 /\ is_u32 (type e) /\ 0 <= max_size e <= 2048 /\
  0 <= perms_modes_start_idx e /\ 0 <= perms_count e /\
  (Z.to_nat (perms_modes_start_idx e) + Z.to_nat (perms_count e) <= length asset_perms_modes)%nat.
Proof.
  intros [Hin Hu%Z.eqb_eq]%List.find_some. subst u. unfold asset_perms in Hin.
  repeat (destruct Hin as [<-|Hin]; [vm_compute; repeat split; discriminate || lia|]). done.
Qed.

Lemma lookup_db_entry_spec u s : sst_am_lookup_db_entry u s = (Ok (policy_of u), s).
Proof. unfold sst_am_lookup_db_entry. by rewrite db_entry_loop_spec by (vm_compute; lia || done). Qed.

Lemma lookup_app_perms_spec u e a s :
  policy_of u = Some e ->
  exists p, sst_am_lookup_app_perms e a s = (Ok p, s) /\
            app_perm e a = match p with Some p => perm p | None => 0 end.
Proof.
  intros (_ & _ & _ & _ & _ & H0 & _ & H1)%policy_entry_ok. eexists. split.
  - unfold sst_am_lookup_app_perms. rewrite app_perms_loop_spec by (rewrite Z.add_0_r; done). done.
  - by rewrite Z.add_0_r.
Qed.
End lookups.

Section access.
  Context {C S : Type} `{!tfm_core_ops C, !tfm_core_laws C, !sst_core_ops S}.
  Implicit Types s : am_state C S.

Lemma ask_core_same {A} (m : M C tfm_halt A) s a :
  m (am_core s) = (Ok a, am_core s) -> ask_core m s = (Ok a, s).
Proof. intros E. unfold ask_core. rewrite E. by destruct s. Qed.

Lemma s_ns_policy_spec a r s :
  core_serving (am_core s) ->
  sst_am_check_s_ns_policy a r s =
    (Ok (if caller_is_secure (am_core s)
         then if a =? S_APP_ID then SST_PERM_BYPASS
              else if Z.land r SST_PERM_READ =? 0 then SST_PERM_FORBIDDEN else SST_PERM_REFERENCE
         else if a =? S_APP_ID then SST_PERM_FORBIDDEN else r), s).
Proof.
  intros Hc. destruct (validate_caller_law _ Hc) as (v & E & Hv).
  unfold sst_am_check_s_ns_policy. rewrite (bind_Ok _ _ _ _ _ (ask_core_same _ s _ E)), Hv.
  unfold ret. destruct (caller_is_secure _), (a =? S_APP_ID), (Z.land r SST_PERM_READ =? 0); done.
Qed.

Lemma get_db_entry_spec a u r s :
  core_serving (am_core s) -> is_request r ->
  sst_am_get_db_entry a u r s = (Ok (allowed (caller_is_secure (am_core s)) a u r), s).
Proof.
  intros Hc Hr. unfold sst_am_get_db_entry, allowed, permitted.
  rewrite (bind_Ok _ _ _ _ _ (s_ns_policy_spec a r s Hc)).
  assert (r =? SST_PERM_FORBIDDEN = false /\ r =? SST_PERM_BYPASS = false) as [Rf Rb].
  { by destruct Hr as [->|[->| ->]]. }
  set (r' := if caller_is_secure _ then _ else _).
  destruct (r' =? SST_PERM_FORBIDDEN) eqn:Ef.
  { unfold ret. destruct (policy_of u); [|done]. subst r'.
    destruct (caller_is_secure _), (a =? S_APP_ID), (Z.land r SST_PERM_READ =? 0); try done; by rewrite Rf in Ef. }
  rewrite (bind_Ok _ _ _ _ _ (lookup_db_entry_spec u s)). destruct (policy_of u) as [e|] eqn:Eu; [|done].
  destruct (r' =? SST_PERM_BYPASS) eqn:Eb.
  { unfold ret. subst r'. destruct (caller_is_secure _), (a =? S_APP_ID), (Z.land r SST_PERM_READ =? 0);
      try done; by rewrite Rb in Eb. }
  destruct (lookup_app_perms_spec u e a s Eu) as (p & Ep & ->). rewrite (bind_Ok _ _ _ _ _ Ep). unfold ret.
  subst r'. destruct (caller_is_secure _), (a =? S_APP_ID), (Z.land r SST_PERM_READ =? 0); try done;
    destruct p; try done; by rewrite Z.land_0_l.
Qed.

Lemma require_entry_spec a u r s :
  core_serving (am_core s) -> is_request r ->
  require_entry a u r s =
    (match allowed (caller_is_secure (am_core s)) a u r with
     | Some e => Ok e
     | None => Err (AmErr PSA_SST_ERR_ASSET_NOT_FOUND)
     end, s).
Proof.
  intros Hc Hr. unfold require_entry. rewrite (bind_Ok _ _ _ _ _ (get_db_entry_spec a u r s Hc Hr)).
  by destruct (allowed _ _ _ _).
Qed.

(** ** Checks of the caller's buffers *)

Lemma bound_check_spec p n a acc s :
  core_serving (am_core s) -> is_u32 p -> is_u32 n ->
  exists v, sst_utils_memory_bound_check p n a acc s = (Ok v, s) /\ (v =? 0) = mem_allowed (am_core s) p n acc.
Proof.
  intros Hc Hp Hn. destruct (memory_check_law _ p n acc Hc Hp Hn) as (v & E & Hv).
  exists v. split; [by apply ask_core_same|done].
Qed.

Lemma mem_load_spec p n s : p + n <= 2 ^ 32 -> mem_load p n s = (Ok (mread (am_mem s) p n), s).
Proof. intros H. unfold mem_load. rewrite (proj2 (Z.leb_le _ _) H). done. Qed.

(** The structure at [p], and whether it and the buffer it names are the
    caller's to use. *)
Definition iovec (μ : mem) (p : Z) : tfm_sst_buf_t := decode_buf (mread μ p SIZEOF_tfm_sst_buf_t).

Definition iovec_allowed (c : C) (μ : mem) (p acc : Z) : bool :=
  mem_allowed c p SIZEOF_tfm_sst_buf_t TFM_MEMORY_ACCESS_RO &&
  mem_allowed c (buf_data (iovec μ p)) (buf_size (iovec μ p)) acc.

Lemma iovec_words μ p :
  is_u32 (buf_data (iovec μ p)) /\ is_u32 (buf_size (iovec μ p)) /\ is_u32 (buf_offset (iovec μ p)).
Proof.
  assert (forall off, 0 <= off <= 8 -> is_u32 (get32 (slice off 4 (mread μ p SIZEOF_tfm_sst_buf_t)))) as H.
  { intros off Ho. apply get32_bound. apply Nat2Z.inj. rewrite zlen_slice; rewrite ?zlen_mread; unfold SIZEOF_tfm_sst_buf_t; lia. }
  repeat split; apply H; lia.
Qed.

Lemma iovec_spec p a acc s :
  core_serving (am_core s) -> is_u32 p ->
  exists v b, validate_copy_validate_iovec p a acc s = (Ok (v, b), s) /\
    (v =? 0) = iovec_allowed (am_core s) (am_mem s) p acc /\ ((v =? 0) = true -> b = iovec (am_mem s) p).
Proof.
  intros Hc Hp. unfold validate_copy_validate_iovec, sst_utils_bound_check_and_copy, iovec_allowed.
  destruct (bound_check_spec p SIZEOF_tfm_sst_buf_t a TFM_MEMORY_ACCESS_RO s Hc Hp ltac:(done)) as (v & Ev & Hv).
  rewrite <- bind_assoc, (bind_Ok _ _ _ _ _ Ev). rewrite <- Hv. destruct (v =? 0) eqn:E0.
  - symmetry in Hv. destruct (mem_allowed_range (am_core s) p SIZEOF_tfm_sst_buf_t _ Hc Hp ltac:(done) Hv) as [_ Hr].
    erewrite bind_Ok by (rewrite (bind_Ok _ _ _ _ _ (mem_load_spec p _ s Hr)); reflexivity).
    cbv beta iota zeta. rewrite E0. fold (iovec (am_mem s) p).
    destruct (iovec_words (am_mem s) p) as (Hd & Hs & _).
    destruct (bound_check_spec _ _ a acc s Hc Hd Hs) as (v' & Ev' & Hv').
    erewrite bind_Ok by exact Ev'. by exists v', (iovec (am_mem s) p).
  - erewrite bind_Ok by reflexivity. cbv beta iota zeta. rewrite E0. exists v, (decode_buf []). by rewrite E0.
Qed.
End access.

(** ** The asset manager as a guarded map of assets *)

Inductive am_op :=
  | AmCreate (a u : Z)
  | AmRead (a u p : Z)
  | AmWrite (a u p : Z)
  | AmGetInfo (a u p : Z)
  | AmGetAttributes (a u p : Z)
  | AmSetAttributes (a u p : Z)
  | AmDelete (a u : Z).

Definition am_uuid (op : am_op) : Z :=
  match op with
  | AmCreate _ u | AmDelete _ u | AmRead _ u _ | AmWrite _ u _ | AmGetInfo _ u _
  | AmGetAttributes _ u _ | AmSetAttributes _ u _ => u
  end.
Definition am_app (op : am_op) : Z :=
  match op with
  | AmCreate a _ | AmDelete a _ | AmRead a _ _ | AmWrite a _ _ | AmGetInfo a _ _
  | AmGetAttributes a _ _ | AmSetAttributes a _ _ => a
  end.
Definition am_request (op : am_op) : Z :=
  match op with
  | AmCreate _ _ | AmWrite _ _ _ | AmDelete _ _ => SST_PERM_WRITE
  | AmRead _ _ _ => SST_PERM_READ
  | _ => all_perms
  end.
Definition am_pointer (op : am_op) : Z :=
  match op with
  | AmCreate _ _ | AmDelete _ _ => 0
  | AmRead _ _ p | AmWrite _ _ p | AmGetInfo _ _ p | AmGetAttributes _ _ p | AmSetAttributes _ _ p => p
  end.

Definition am_run {C S} `{!tfm_core_ops C, !sst_core_ops S} (op : am_op) : M (am_state C S) am_exit unit :=
  match op with
  | AmCreate a u => sst_am_create a u
  | AmRead a u p => sst_am_read a u p
  | AmWrite a u p => sst_am_write a u p
  | AmGetInfo a u p => sst_am_get_info a u p
  | AmGetAttributes a u p => sst_am_get_attributes a u p
  | AmSetAttributes a u p => sst_am_set_attributes a u p
  | AmDelete a u => sst_am_delete a u
  end.

Lemma am_request_ok op : is_request (am_request op).
Proof. destruct op; unfold is_request; cbn; auto. Qed.

(** A call ends with a code, and leaves the assets and the caller's memory. *)
Definition am_result : Type := outcome am_exit unit * (assets * mem).

Definition refuse (e : psa_sst_err_t) (α : assets) (μ : mem) : am_result := (Err (AmErr e), (α, μ)).

(** The result of the object system, its value stored by [f]. *)
Definition finish (r : asset_result * assets) (μ : mem) (f : asset_value -> mem) : am_result :=
  match r with
  | (Ok v, α) => (Ok tt, (α, f v))
  | (Err e, α) => (Err (AmErr e), (α, μ))
  | (Fault, α) => (Fault, (α, μ))
  end.

Section guarded.
  Context {C : Type} `{!tfm_core_ops C, !tfm_core_laws C}.

(** The request once it is permitted and the structures the caller passes by
    pointer are the caller's. *)
Definition abs_granted (c : C) (op : am_op) (e : sst_asset_policy_t) (α : assets) (μ : mem) : am_result :=
  match op with
  | AmCreate _ u => finish (abs_asset (AopCreate u (type e) (max_size e)) α) μ (fun _ => μ)
  | AmRead _ u p =>
      let b := iovec μ p in
      if iovec_allowed c μ p TFM_MEMORY_ACCESS_RW
      then finish (abs_asset (AopRead u (buf_offset b) (buf_size b)) α) μ
             (fun v => match v with AVData bs => mwrite μ (buf_data b) bs | _ => μ end)
      else refuse PSA_SST_ERR_ASSET_NOT_FOUND α μ
  | AmWrite _ u p =>
      let b := iovec μ p in
      if iovec_allowed c μ p TFM_MEMORY_ACCESS_RO
      then if decide (buf_offset b + buf_size b <= max_size e)
           then finish (abs_asset (AopWrite u (mread μ (buf_data b) (buf_size b)) (buf_offset b)) α) μ (fun _ => μ)
           else refuse PSA_SST_ERR_PARAM_ERROR α μ
      else refuse PSA_SST_ERR_ASSET_NOT_FOUND α μ
  | AmGetInfo _ u p =>
      finish (abs_asset (AopGetInfo u) α) μ
        (fun v => match v with AVInfo i => mwrite μ p (encode_info i) | _ => μ end)
  | AmGetAttributes _ u p =>
      finish (abs_asset (AopGetAttributes u) α) μ
        (fun v => match v with AVData bs => mwrite μ p bs | _ => μ end)
  | AmSetAttributes _ u p =>
      if decide (mread μ p 16 = zeros 16)
      then finish (abs_asset (AopSetAttributes u (mread μ p PSA_SST_ASSET_ATTR_SIZE)) α) μ (fun _ => μ)
      else refuse PSA_SST_ERR_PARAM_ERROR α μ
  | AmDelete _ u => finish (abs_asset (AopDelete u) α) μ (fun _ => μ)
  end.

(** The checks that come before the policy. *)
Definition pointer_allowed (c : C) (op : am_op) : bool :=
  match op with
  | AmGetInfo _ _ p => mem_allowed c p PSA_SST_ASSET_INFO_SIZE TFM_MEMORY_ACCESS_RW
  | AmGetAttributes _ _ p => mem_allowed c p PSA_SST_ASSET_ATTR_SIZE TFM_MEMORY_ACCESS_RW
  | AmSetAttributes _ _ p => mem_allowed c p PSA_SST_ASSET_ATTR_SIZE TFM_MEMORY_ACCESS_RO
  | _ => true
  end.

Definition abs_am (c : C) (op : am_op) (α : assets) (μ : mem) : am_result :=
  if pointer_allowed c op
  then match allowed (caller_is_secure c) (am_app op) (am_uuid op) (am_request op) with
       | Some e => abs_granted c op e α μ
       | None => refuse PSA_SST_ERR_ASSET_NOT_FOUND α μ
       end
  else refuse PSA_SST_ERR_PARAM_ERROR α μ.
End guarded.

(** An asset of the store was created by the asset manager. *)
Definition am_inv (α : assets) : Prop :=
  forall u a, α !! u = Some a -> exists e, policy_of u = Some e /\ a_max a = max_size e.

(** Pointers are 32-bit words, and an asset that is to be created has a size in the
    policy that fits the object buffer. *)
Definition am_op_ok (op : am_op) : Prop :=
  is_u32 (am_pointer op) /\
  match op with
  | AmCreate _ u => forall e, policy_of u = Some e -> max_size e <= SST_MAX_ASSET_SIZE
  | _ => True
  end.

Lemma zero_word bs n : length bs = n -> (le_combine bs =? 0) = bool_decide (bs = zeros (Z.of_nat n)).
Proof.
  intros Hl. destruct (Z.eqb_spec (le_combine bs) 0) as [E|E]; symmetry.
  - apply bool_decide_eq_true. rewrite <- (split_le_combine' bs n Hl), E. unfold zeros. rewrite Nat2Z.id.
    clear. induction n as [|n IH]; [done|]. cbn [replicate]. rewrite <- IH. reflexivity.
  - apply bool_decide_eq_false. intros ->. apply E. clear. unfold zeros. rewrite Nat2Z.id.
    induction n as [|n IH]; [done|]. change (Z.lor (byte.unsigned Byte.x00) (Z.shiftl (le_combine (replicate n Byte.x00)) 8) = 0).
    by rewrite IH.
Qed.

Lemma validity_zero μ p :
  (le_combine (mread μ p 8) =? 0) && (le_combine (mread μ (p + 8) 8) =? 0) = bool_decide (mread μ p 16 = zeros 16).
Proof.
  rewrite !(zero_word _ 8) by (apply Nat2Z.inj; by rewrite zlen_mread).
  rewrite <- bool_decide_and. apply bool_decide_ext.
  change 16 with (8 + 8) at 1. rewrite mread_app by lia. change (zeros 16) with (zeros 8 ++ zeros 8).
  change (Z.of_nat 8) with 8. split; [by intros [-> ->]|].
  intros [-> ->]%app_inj_1; [done|]. apply Nat2Z.inj. by rewrite zlen_mread, zlen_zeros by lia.
Qed.

Section steps.
  Context {C S : Type} `{!tfm_core_ops C, !tfm_core_laws C, !sst_core_ops S, !sst_core_laws S}.
  Implicit Types (c : C) (o : sst_sys S) (α : assets) (μ : mem).

Lemma mem_store_spec p bs c o μ :
  p + zlen bs <= 2 ^ 32 -> mem_store p bs (AmState c o μ) = (Ok tt, AmState c o (mwrite μ p bs)).
Proof using Type. intros H. unfold mem_store. rewrite (proj2 (Z.leb_le _ _) H). done. Qed.

(** A step of the object system as the last step of a request. *)
Lemma sys_step {A} aop (f : A -> asset_value) (m : M (sst_sys S) psa_sst_err_t A)
  (k : A -> M (am_state C S) am_exit unit) g c o α μ :
  sys_rep o α -> asset_op_ok aop α ->
  object_op aop o = as_asset_value f (m o) ->
  (forall a o', (abs_asset aop α).1 = Ok (f a) -> k a (AmState c o' μ) = (Ok tt, AmState c o' (g (f a)))) ->
  exists o', bind (call_sys m) k (AmState c o μ) =
      ((finish (abs_asset aop α) μ g).1, AmState c o' (finish (abs_asset aop α) μ g).2.2) /\
    sys_rep o' (abs_asset aop α).2.
Proof using Type.
  intros Hr Hok Hm Hk. destruct (object_step aop o α Hr Hok) as (o' & E & Hr'). exists o'. split; [|done].
  rewrite Hm in E. unfold as_asset_value in E. destruct (m o) as [r o1] eqn:Em. cbn [fst snd] in E.
  unfold bind, call_sys. cbn [am_sys am_core am_mem]. rewrite Em. unfold finish.
  destruct (abs_asset aop α) as [r' α'] eqn:Ea. cbn [fst] in E, Hk.
  destruct r; simplify_eq; try done. by apply Hk.
Qed.

Lemma finish_assets r μ g : (finish r μ g).2.1 = r.2.
Proof using Type. by destruct r as [[]]. Qed.

Lemma inv_insert α u a e : am_inv α -> policy_of u = Some e -> a_max a = max_size e -> am_inv (<[u := a]> α).
Proof using Type.
  intros Hi He Ha v b. rewrite lookup_insert_Some. intros [[<- <-]|[_ Hb]]; [by exists e|by apply Hi].
Qed.

Lemma inv_on_asset α u f :
  am_inv α -> (forall a, α !! u = Some a -> am_inv (f a).2) -> am_inv (on_asset u α f).2.
Proof using Type. intros Hi Hf. unfold on_asset. destruct (α !! u); auto. Qed.

Lemma abs_asset_inv aop α u e :
  am_inv α -> policy_of u = Some e ->
  match aop with
  | AopCreate v _ size => v = u /\ size = max_size e
  | AopRead v _ _ | AopWrite v _ _ | AopGetInfo v | AopGetAttributes v | AopSetAttributes v _ | AopDelete v => v = u
  end -> am_inv (abs_asset aop α).2.
Proof using Type.
  intros Hi He Hop.
  assert (forall a, α !! u = Some a -> a_max a = max_size e) as Hm.
  { intros a Ha. destruct (Hi _ _ Ha) as (e' & He' & ->). congruence. }
  destruct aop; cbn [abs_asset]; try destruct Hop as [-> ->]; subst; try (apply inv_on_asset; [done|]; intros a Ha).
  - destruct (α !! u); [done|]. case_decide; [|done]. by apply (inv_insert _ _ _ e).
  - done.
  - case_decide; [|done]. apply (inv_insert _ _ _ e); [done..|]. exact (Hm _ Ha).
  - done.
  - done.
  - apply (inv_insert _ _ _ e); [done..|]. exact (Hm _ Ha).
  - intros v b. cbn [snd]. rewrite lookup_delete_Some. intros [_ Hb]. by apply Hi.
Qed.

(** ** One request *)

Lemma bind_am_entry {A} a u r (k : sst_asset_policy_t -> M (am_state C S) am_exit A) c o μ :
  core_serving c -> is_request r ->
  bind (require_entry a u r) k (AmState c o μ) =
    match allowed (caller_is_secure c) a u r with
    | Some e => k e (AmState c o μ)
    | None => (Err (AmErr PSA_SST_ERR_ASSET_NOT_FOUND), AmState c o μ)
    end.
Proof using Type.
  intros Hc Hr. unfold bind. rewrite (require_entry_spec a u r (AmState c o μ) Hc Hr). cbn [am_core].
  by destruct (allowed _ _ _ _).
Qed.

Lemma allowed_policy sec a u r e : allowed sec a u r = Some e -> policy_of u = Some e.
Proof using Type. unfold allowed. destruct (policy_of u); [|done]. destruct (permitted _ _ _ _); congruence. Qed.

Lemma bind_ret_r {A} (m : M (am_state C S) am_exit A) s : bind m ret s = m s.
Proof using Type. unfold bind. by destruct (m s) as [[]]. Qed.

(** The conclusion for a request, and for a request the policy grants. *)
Definition ends_as (r : am_result) (m : M (am_state C S) am_exit unit) c o μ : Prop :=
  exists o', m (AmState c o μ) = (r.1, AmState c o' r.2.2) /\ sys_rep o' r.2.1 /\ am_inv r.2.1.

Section request.
  Context (c : C) (o : sst_sys S) (α : assets) (μ : mem).
  Context (Hc : core_serving c) (Hr : sys_rep o α) (Hi : am_inv α).
  Local Abbreviation s := (AmState c o μ).

Lemma ends_refused e m : m s = (Err (AmErr e), s) -> ends_as (refuse e α μ) m c o μ.
Proof using Hr Hi. intros E. by exists o. Qed.

Lemma ends_eq r m m' : m s = m' s -> ends_as r m' c o μ -> ends_as r m c o μ.
Proof using Type. intros E (o' & E' & H). exists o'. by rewrite E. Qed.

(** Every request passes the policy after the checks of its pointers. *)
Lemma ends_policy op k :
  am_run op s = (if pointer_allowed c op
                 then bind (require_entry (am_app op) (am_uuid op) (am_request op)) k s
                 else (Err (AmErr PSA_SST_ERR_PARAM_ERROR), s)) ->
  (forall e, pointer_allowed c op = true -> policy_of (am_uuid op) = Some e ->
     ends_as (abs_granted c op e α μ) (k e) c o μ) ->
  ends_as (abs_am c op α μ) (am_run op) c o μ.
Proof using All.
  intros E Hk. unfold abs_am. destruct (pointer_allowed c op); [|by apply ends_refused].
  rewrite (bind_am_entry _ _ _ _ c o μ Hc (am_request_ok op)) in E.
  destruct (allowed _ _ _ _) as [e|] eqn:Ea; [|by apply ends_refused].
  apply (ends_eq _ _ (k e)); [done|]. apply Hk; [done|]. by eapply allowed_policy.
Qed.

(** The object system does the rest. *)
Lemma ends_sys {A} u e aop (f : A -> asset_value) (m : M (sst_sys S) psa_sst_err_t A) k g :
  policy_of u = Some e -> asset_op_ok aop α ->
  match aop with
  | AopCreate v _ size => v = u /\ size = max_size e
  | AopRead v _ _ | AopWrite v _ _ | AopGetInfo v | AopGetAttributes v | AopSetAttributes v _ | AopDelete v => v = u
  end ->
  object_op aop o = as_asset_value f (m o) ->
  (forall a o', (abs_asset aop α).1 = Ok (f a) -> k a (AmState c o' μ) = (Ok tt, AmState c o' (g (f a)))) ->
  ends_as (finish (abs_asset aop α) μ g) (bind (call_sys m) k) c o μ.
Proof using Hr Hi.
  intros He Hok Hop Hm Hk. destruct (sys_step aop f m k g c o α μ Hr Hok Hm Hk) as (o' & E & Hs).
  exists o'. rewrite finish_assets. split; [done|]. split; [done|]. by eapply abs_asset_inv.
Qed.

Lemma ends_sys_last u e aop (m : M (sst_sys S) psa_sst_err_t unit) :
  policy_of u = Some e -> asset_op_ok aop α ->
  match aop with
  | AopCreate v _ size => v = u /\ size = max_size e
  | AopRead v _ _ | AopWrite v _ _ | AopGetInfo v | AopGetAttributes v | AopSetAttributes v _ | AopDelete v => v = u
  end ->
  object_op aop o = as_asset_value (fun _ => AVUnit) (m o) ->
  ends_as (finish (abs_asset aop α) μ (fun _ => μ)) (call_sys m) c o μ.
Proof using Hr Hi.
  intros. eapply ends_eq; [symmetry; apply bind_ret_r|]. eapply ends_sys; [done..|]. by intros [].
Qed.

(** A pointer checked first. *)
Lemma checked_run p n a acc e (k : M (am_state C S) am_exit unit) :
  is_u32 p -> is_u32 n ->
  bind (sst_utils_memory_bound_check p n a acc) (fun bound_check =>
    if negb (bound_check =? 0) then fail (AmErr e) else k) s =
  if mem_allowed c p n acc then k s else (Err (AmErr e), s).
Proof using Hc.
  intros Hp Hn. destruct (bound_check_spec p n a acc s Hc Hp Hn) as (v & Ev & Hv).
  rewrite (bind_Ok _ _ _ _ _ Ev), Hv. cbn [am_core]. by destruct (mem_allowed _ _ _ _).
Qed.

Lemma create_ends a u :
  am_op_ok (AmCreate a u) -> ends_as (abs_am c (AmCreate a u) α μ) (am_run (AmCreate a u)) c o μ.
Proof using All.
  intros [_ Hfit]. eapply ends_policy; [done|]. intros e _ He.
  destruct (policy_entry_ok u e He) as (_ & H1 & H2 & H3 & H4 & _). apply (ends_sys_last u e); [done| |done|done].
  repeat split; try apply H1; try apply H3; try apply H4; try done. by apply Hfit.
Qed.

Lemma delete_ends a u : ends_as (abs_am c (AmDelete a u) α μ) (am_run (AmDelete a u)) c o μ.
Proof using All.
  eapply ends_policy; [done|]. intros e _ He.
  destruct (policy_entry_ok u e He) as (_ & _ & H2 & _). by apply (ends_sys_last u e).
Qed.

Lemma zlen_encode_info i : zlen (encode_info i) = PSA_SST_ASSET_INFO_SIZE.
Proof using Type. unfold encode_info. by rewrite !zlen_app, !zlen_put32. Qed.

Lemma get_info_ends a u p :
  is_u32 p -> ends_as (abs_am c (AmGetInfo a u p) α μ) (am_run (AmGetInfo a u p)) c o μ.
Proof using All.
  intros Hp. eapply ends_policy; [by apply checked_run|]. intros e Em He.
  destruct (policy_entry_ok u e He) as (_ & _ & H2 & _). eapply (ends_sys u e _ AVInfo); [done..|].
  intros i o' _. destruct (mem_allowed_range c p PSA_SST_ASSET_INFO_SIZE _ Hc Hp ltac:(done) Em) as [_ Hrange].
  apply mem_store_spec. by rewrite zlen_encode_info.
Qed.

Lemma stored_attr_length u a : α !! u = Some a -> zlen (a_attr a) = PSA_SST_ASSET_ATTR_SIZE.
Proof using Hr. destruct Hr as (σ & _ & [_ Hok] & _). intros Ha. by apply (Hok u a Ha). Qed.

Lemma get_attributes_ends a u p :
  is_u32 p -> ends_as (abs_am c (AmGetAttributes a u p) α μ) (am_run (AmGetAttributes a u p)) c o μ.
Proof using All.
  intros Hp. eapply ends_policy; [by apply checked_run|]. intros e Em He.
  destruct (policy_entry_ok u e He) as (_ & _ & H2 & _). eapply (ends_sys u e _ AVData); [done..|].
  intros bs o' Hbs. destruct (mem_allowed_range c p PSA_SST_ASSET_ATTR_SIZE _ Hc Hp ltac:(done) Em) as [_ Hrange].
  apply mem_store_spec. cbn in Hbs. unfold on_asset in Hbs. destruct (α !! u) as [x|] eqn:Ex; [|done].
  cbn in Hbs. simplify_eq. by rewrite (stored_attr_length u x Ex).
Qed.

Lemma set_attributes_ends a u p :
  is_u32 p -> ends_as (abs_am c (AmSetAttributes a u p) α μ) (am_run (AmSetAttributes a u p)) c o μ.
Proof using All.
  intros Hp. eapply ends_policy; [by apply checked_run|]. intros e Em He.
  destruct (policy_entry_ok u e He) as (_ & _ & H2 & _).
  destruct (mem_allowed_range c p PSA_SST_ASSET_ATTR_SIZE _ Hc Hp ltac:(done) Em) as [_ Hrange].
  change PSA_SST_ASSET_ATTR_SIZE with 24 in Hrange. cbn [abs_granted].
  eapply ends_eq.
  { rewrite (bind_Ok _ _ _ _ _ (mem_load_spec p 8 s ltac:(lia))).
    rewrite (bind_Ok _ _ _ _ _ (mem_load_spec (p + 8) 8 s ltac:(lia))). rewrite <- negb_andb.
    cbn [am_mem]. rewrite validity_zero. reflexivity. }
  case_decide as Hz; [rewrite bool_decide_eq_true_2 by done|rewrite bool_decide_eq_false_2 by done; by apply ends_refused].
  cbn [negb]. eapply ends_eq.
  { rewrite (bind_Ok _ _ _ _ _ (mem_load_spec p PSA_SST_ASSET_ATTR_SIZE s Hrange)). reflexivity. }
  apply (ends_sys_last u e); [done| |done|done]. split; [done|]. by rewrite zlen_mread.
Qed.

(** A buffer structure checked and copied. *)
Lemma iovec_ends r p a acc (k : tfm_sst_buf_t -> M (am_state C S) am_exit unit) :
  is_u32 p ->
  (iovec_allowed c μ p acc = true -> ends_as r (k (iovec μ p)) c o μ) ->
  ends_as (if iovec_allowed c μ p acc then r else refuse PSA_SST_ERR_ASSET_NOT_FOUND α μ)
    (r <- validate_copy_validate_iovec p a acc ;;
     let '(err, local_data) := r in
     if negb (err =? 0) then fail (AmErr PSA_SST_ERR_ASSET_NOT_FOUND) else k local_data) c o μ.
Proof using Hc Hr Hi.
  intros Hp Hk. destruct (iovec_spec p a acc s Hc Hp) as (v & b & E & Hv & Hb). cbn [am_core am_mem] in Hv, Hb.
  eapply ends_eq; [by rewrite (bind_Ok _ _ _ _ _ E)|]. cbv beta iota.
  destruct (v =? 0); rewrite <- Hv; cbn [negb]; [rewrite Hb by done; by apply Hk|by apply ends_refused].
Qed.

Lemma iovec_range p acc :
  iovec_allowed c μ p acc = true ->
  is_u32 (buf_data (iovec μ p)) /\ is_u32 (buf_size (iovec μ p)) /\ is_u32 (buf_offset (iovec μ p)) /\
  buf_data (iovec μ p) + buf_size (iovec μ p) <= 2 ^ 32.
Proof using Hc.
  intros [_ Hm]%andb_true_iff. destruct (iovec_words μ p) as (H1 & H2 & H3).
  by destruct (mem_allowed_range c _ _ _ Hc H1 H2 Hm).
Qed.

Lemma read_ends a u p :
  is_u32 p -> ends_as (abs_am c (AmRead a u p) α μ) (am_run (AmRead a u p)) c o μ.
Proof using All.
  intros Hp. eapply ends_policy; [done|]. intros e _ He.
  destruct (policy_entry_ok u e He) as (_ & _ & H2 & _). cbn [abs_granted].
  apply (iovec_ends _ p a TFM_MEMORY_ACCESS_RW (fun b =>
    bs <- call_sys (sst_object_read u (buf_offset b) (buf_size b)) ;; mem_store (buf_data b) bs)); [done|].
  intros (_ & Hn & Ho & Hrange)%iovec_range. eapply (ends_sys u e _ AVData); [done|done|done|done|].
  intros bs o' Hbs. apply mem_store_spec. cbn [abs_asset] in Hbs. unfold on_asset in Hbs.
  destruct (α !! u) as [x|]; [|done]. cbn [fst] in Hbs. case_decide; [|done].
  assert (bs = slice (buf_offset (iovec μ p)) (buf_size (iovec μ p)) (a_data x)) as -> by congruence.
  unfold is_u32 in *. rewrite zlen_slice by lia. lia.
Qed.

Lemma write_ends a u p :
  is_u32 p -> ends_as (abs_am c (AmWrite a u p) α μ) (am_run (AmWrite a u p)) c o μ.
Proof using All.
  intros Hp. eapply ends_policy; [done|]. intros e _ He.
  destruct (policy_entry_ok u e He) as (_ & _ & H2 & _ & H4 & _). cbn [abs_granted].
  apply (iovec_ends _ p a TFM_MEMORY_ACCESS_RO (fun b =>
    match sst_utils_check_contained_in 0 (max_size e) (buf_offset b) (buf_size b) with
    | Some err => fail (AmErr err)
    | None => bs <- mem_load (buf_data b) (buf_size b) ;; call_sys (sst_object_write u bs (buf_offset b) (buf_size b))
    end)); [done|].
  intros (_ & Hn & Ho & Hrange)%iovec_range. unfold is_u32 in *.
  rewrite sst_utils_check_contained_in_spec by (unfold is_u32; lia).
  destruct (decide (buf_offset (iovec μ p) + buf_size (iovec μ p) <= max_size e)) as [Hs|Hs].
  - rewrite decide_True by lia. eapply ends_eq; [by rewrite (bind_Ok _ _ _ _ _ (mem_load_spec _ _ s Hrange))|].
    cbn [am_mem]. assert (zlen (mread μ (buf_data (iovec μ p)) (buf_size (iovec μ p))) = buf_size (iovec μ p)) as Hl
      by (apply zlen_mread; lia).
    apply (ends_sys_last u e); [done| |done|cbn [object_op]; by rewrite Hl].
    split; [done|]. split; [lia|]. intros x Hx. destruct (Hi u x Hx) as (e' & He' & ->).
    cbn [am_uuid] in He. assert (e' = e) as -> by congruence. lia.
  - rewrite decide_False by lia. by apply ends_refused.
Qed.

Lemma request_ends op : am_op_ok op -> ends_as (abs_am c op α μ) (am_run op) c o μ.
Proof using All.
  intros Hop. pose proof (proj1 Hop) as Hp. destruct op.
  - by apply create_ends.
  - by apply read_ends.
  - by apply write_ends.
  - by apply get_info_ends.
  - by apply get_attributes_ends.
  - by apply set_attributes_ends.
  - by apply delete_ends.
Qed.
End request.
End steps.
