(* ===== verification/SstAssetClaims.v ===== *)
(** * Secure storage: the claims about the asset manager

    Sessions of requests, each from its own caller with its own memory, against
    the guarded map of assets; access control; what a refused request does and
    which memory a granted one may write; the claims on the AN521 board, with
    the storage core and the TF-M core of the other files underneath. *)

From stdpp Require Import sets gmap.
From S2P Require Import Prelude FlashDriver SstDefs SstFlash SstCore SstRefine SstBoard SstInterface SstObject SstObjectSpec Mpu SpmHal Spm SecureApi SecureApiSpec SecureApiChain SecureApiBalance SecureCalls CoreBoard CoreInterface CoreLaws SstAsset SstAssetSpec.

(** A request arrives with the state of the core, which knows the caller, and
    the memory of the caller. *)
Record am_call (C : Type) := AmCall {
  call_core : C;
  call_mem : mem;
  call_op : am_op;
}.
Arguments AmCall {C}.
Arguments call_core {C}.
Arguments call_mem {C}.
Arguments call_op {C}.

Fixpoint am_session {C S} `{!tfm_core_ops C, !sst_core_ops S} (cs : list (am_call C)) (o : sst_sys S)
  : list (outcome am_exit unit * mem) * sst_sys S :=
  match cs with
  | [] => ([], o)
  | k :: cs =>
      let '(r, s) := am_run (call_op k) (AmState (call_core k) o (call_mem k)) in
      let '(rs, o') := am_session cs (am_sys s) in ((r, am_mem s) :: rs, o')
  end.

Fixpoint abs_session {C} `{!tfm_core_ops C, !tfm_core_laws C} (cs : list (am_call C)) (α : assets)
  : list (outcome am_exit unit * mem) * assets :=
  match cs with
  | [] => ([], α)
  | k :: cs =>
      let '(r, (α, μ)) := abs_am (call_core k) (call_op k) α (call_mem k) in
      let '(rs, α') := abs_session cs α in ((r, μ) :: rs, α')
  end.

Section claims.
  Context {C S : Type} `{!tfm_core_ops C, !tfm_core_laws C, !sst_core_ops S, !sst_core_laws S}.
  Implicit Types (c : C) (o : sst_sys S) (μ : mem).

Definition call_ok (k : am_call C) : Prop := core_serving (call_core k) /\ am_op_ok (call_op k).

Lemma session_step cs o α :
  Forall call_ok cs -> sys_rep o α -> am_inv α ->
  exists o', am_session cs o = ((abs_session cs α).1, o') /\ sys_rep o' (abs_session cs α).2.
Proof using Type.
  revert o α. induction cs as [|k cs IH]; intros o α Hcs Hr Hi; [by exists o|].
  inversion Hcs as [|? ? [Hc Hop] Hcs']; subst. cbn [am_session abs_session].
  destruct (request_ends (call_core k) o α (call_mem k) Hc Hr Hi (call_op k) Hop) as (o1 & E & Hr1 & Hi1).
  rewrite E. destruct (abs_am _ _ _ _) as [r [α1 μ1]]. cbn [fst snd am_sys am_mem] in *.
  destruct (IH o1 α1 Hcs' Hr1 Hi1) as (o2 & E2 & Hr2). exists o2. rewrite E2.
  by destruct (abs_session cs α1).
Qed.

(** Start-up of a storage in RAM creates an empty store. *)
Lemma am_prepare_creates c o μ e o0 :
  sst_system_prepare o = (Err e, o0) -> core_usable (sys_core o0) -> zlen (g_sst_object o0) = SST_MAX_OBJECT_SIZE ->
  exists o1, sst_am_prepare true (AmState c o μ) = (Ok tt, AmState c o1 μ) /\ sys_rep o1 ∅.
Proof using Type.
  intros Ep Hu Hg. destruct (wipe_prepare o0 Hu Hg) as ([] & o1 & E & Hr). exists o1. split; [|done].
  apply bind_inv_Ok in E as ([] & o' & Ew & Ep').
  assert (try_err (call_sys (C := C) sst_system_prepare) (AmState c o μ) = (Ok (inr (AmErr e)), AmState c o0 μ)) as E1.
  { unfold try_err, call_sys. cbn [am_sys am_core am_mem]. by rewrite Ep. }
  assert (ignore (call_sys (C := C) sst_system_wipe_all) (AmState c o0 μ) = (Ok tt, AmState c o' μ)) as E2.
  { apply (ignore_Ok _ _ tt). unfold call_sys. cbn [am_sys am_core am_mem]. by rewrite Ew. }
  unfold sst_am_prepare. erewrite bind_Ok by reflexivity. rewrite (bind_Ok _ _ _ _ _ E1). cbv iota.
  rewrite (bind_Ok _ _ _ _ _ E2). unfold call_sys. cbn [am_sys am_core am_mem]. by rewrite Ep'.
Qed.

(** C7: The asset manager implements a map of assets guarded by the policy
    tables: after the start-up that creates the storage, every sequence of
    requests of secure and non-secure callers, with 32-bit pointers, that does not
    ask to create one of the three assets whose size in the policy (512 or 2048
    bytes: the 4096-bit RSA key and the two X.509 certificates) exceeds the 256
    bytes of the object buffer returns, call by call, the codes of the guarded map
    and leaves in the caller's memory exactly what the map says; the manager's
    checks meet the obligations of the object system, so no such request leaves a
    buffer of the storage partition.  Any other request about the three assets is
    covered; their creation is not, since the storage core accepts an object of
    that size and then finds neither it nor any object behind it. *)
Theorem asset_manager_refines_policy c o μ e o0 (cs : list (am_call C)) :
  sst_system_prepare o = (Err e, o0) -> core_usable (sys_core o0) -> zlen (g_sst_object o0) = SST_MAX_OBJECT_SIZE ->
  Forall call_ok cs ->
  exists o1 o2, sst_am_prepare true (AmState c o μ) = (Ok tt, AmState c o1 μ) /\
    am_session cs o1 = ((abs_session cs ∅).1, o2) /\ sys_rep o2 (abs_session cs ∅).2.
Proof using Type.
  intros Hp Hu Hg Hcs. destruct (am_prepare_creates c o μ e o0 Hp Hu Hg) as (o1 & E & Hr).
  destruct (session_step cs o1 ∅ Hcs Hr) as (o2 & E2 & Hr2); [|by exists o1, o2].
  intros u a Ha. by rewrite lookup_empty in Ha.
Qed.

(** C16: Access control is exact: for every caller, application, asset and
    request the policy entry is returned when the tables permit the request,
    and none otherwise; the lookups stay inside the tables. *)
Theorem access_control_exact a u r (s : am_state C S) :
  core_serving (am_core s) -> is_request r ->
  sst_am_get_db_entry a u r s = (Ok (allowed (caller_is_secure (am_core s)) a u r), s).
Proof using Type. apply get_db_entry_spec. Qed.

(** C29: A request the policy does not permit, in particular any request of a
    non-secure caller in the name of the secure side, is refused and changes
    neither the storage, nor the core, nor the caller's memory. *)
Theorem denied_request_changes_nothing op (s : am_state C S) :
  core_serving (am_core s) -> is_u32 (am_pointer op) ->
  allowed (caller_is_secure (am_core s)) (am_app op) (am_uuid op) (am_request op) = None ->
  am_run op s = (Err (AmErr (if pointer_allowed (am_core s) op then PSA_SST_ERR_ASSET_NOT_FOUND
                             else PSA_SST_ERR_PARAM_ERROR)), s).
Proof using Type.
  destruct s as [c o μ]. cbn [am_core]. intros Hc Hp Hd.
  destruct op; cbn [am_run am_app am_uuid am_request am_pointer pointer_allowed] in *;
    unfold sst_am_create, sst_am_read, sst_am_write, sst_am_get_info, sst_am_get_attributes, sst_am_set_attributes,
      sst_am_delete; rewrite ?checked_run by done; try case_match; try done;
    rewrite bind_am_entry by (done || unfold is_request; auto); by rewrite Hd.
Qed.

(** ** The memory a request writes *)

Lemma memcpy_loop_length i dest pd src ps out : memcpy_loop i dest pd src ps = Some out -> length out = length dest.
Proof using Type.
  revert dest pd ps. induction i as [|i IH]; intros dest pd ps; cbn [memcpy_loop]; [by intros [= ->]|].
  destruct (src !! ps); [|done]. case_decide; [|done]. intros Hi. rewrite (IH _ _ _ Hi). apply length_insert.
Qed.

Lemma copy_out_length off n o bs o' : 0 <= n -> obj_copy_out off n o = (Ok bs, o') -> zlen bs = n.
Proof using Type.
  intros Hn (g & o1 & _ & E)%bind_inv_Ok. destruct (sst_utils_memcpy _ _ _ _ _) as [out|] eqn:Em; [|done].
  unfold ret in E. simplify_eq. apply memcpy_loop_length in Em. rewrite Em, length_replicate. lia.
Qed.

Lemma when_ready_inv {A} (m : M (sst_sys S) psa_sst_err_t A) o a o' :
  when_ready m o = (Ok a, o') -> m o = (Ok a, o').
Proof using Type.
  intros (rd & o1 & E1 & E2)%bind_inv_Ok. unfold gets in E1. simplify_eq. by destruct (_ =? _).
Qed.

Lemma read_length u off n o bs o' : 0 <= n -> sst_object_read u off n o = (Ok bs, o') -> zlen bs = n.
Proof using Type.
  intros Hn E%when_ready_inv. do 3 apply bind_inv_Ok in E as (? & ? & _ & E).
  destruct (sst_utils_check_contained_in _ _ _ _); [done|].
  apply bind_inv_Ok in E as (d & ? & Ed & E). apply bind_inv_Ok in E as (? & ? & _ & E). unfold ret in E. simplify_eq.
  by eapply copy_out_length.
Qed.

Lemma attributes_length u o bs o' : sst_object_get_attributes u o = (Ok bs, o') -> zlen bs = PSA_SST_ASSET_ATTR_SIZE.
Proof using Type.
  intros E%when_ready_inv. do 2 apply bind_inv_Ok in E as (? & ? & _ & E).
  apply bind_inv_Ok in E as (d & ? & Ed & E). apply bind_inv_Ok in E as (? & ? & _ & E). unfold ret in E. simplify_eq.
  by eapply copy_out_length.
Qed.

(** The last step stores the [n] bytes of a result at [p]. *)
Lemma store_writes {A} (m : M (sst_sys S) psa_sst_err_t A) f p n c o μ r (s' : am_state C S) x :
  bind (call_sys m) (fun a => mem_store p (f a)) (AmState c o μ) = (r, s') ->
  (forall a o', m o = (Ok a, o') -> zlen (f a) = n) -> am_mem s' x <> μ x -> p <= x < p + n.
Proof using Type.
  unfold bind, call_sys. cbn [am_sys am_core am_mem]. intros E Hn Hx.
  destruct (m o) as [[a|e|] o1] eqn:Em; try by simplify_eq.
  unfold mem_store, in_bounds in E. specialize (Hn a o1 eq_refl). subst n.
  destruct (_ <=? _) in E; unfold bind, ret, modify, fault in E; injection E as <- <-; [|done].
  cbn [am_mem] in Hx. rewrite mwrite_spec in Hx. by case_decide.
Qed.

(** A last step that stores nothing. *)
Lemma call_keeps {A} (m : M (sst_sys S) psa_sst_err_t A) c o μ r (s' : am_state C S) :
  call_sys m (AmState c o μ) = (r, s') -> am_mem s' = μ.
Proof using Type. unfold call_sys. cbn [am_sys am_core am_mem]. destruct (m o). by intros [= _ <-]. Qed.

Lemma entry_passes a u q (k : sst_asset_policy_t -> M (am_state C S) am_exit unit) c o μ r (s' : am_state C S) x :
  core_serving c -> is_request q -> bind (require_entry a u q) k (AmState c o μ) = (r, s') -> am_mem s' x <> μ x ->
  exists e, k e (AmState c o μ) = (r, s').
Proof using Type.
  intros Hc Hq E Hx. rewrite bind_am_entry in E by done. destruct (allowed _ _ _ _) as [e|]; [by exists e|by simplify_eq].
Qed.

Lemma iovec_passes p a acc (k : tfm_sst_buf_t -> M (am_state C S) am_exit unit) c o μ r (s' : am_state C S) x :
  core_serving c -> is_u32 p ->
  (v <- validate_copy_validate_iovec p a acc ;;
   let '(err, local_data) := v in
   if negb (err =? 0) then fail (AmErr PSA_SST_ERR_ASSET_NOT_FOUND) else k local_data) (AmState c o μ) = (r, s') ->
  am_mem s' x <> μ x ->
  iovec_allowed c μ p acc = true /\ k (iovec μ p) (AmState c o μ) = (r, s').
Proof using Type.
  intros Hc Hp E Hx. destruct (iovec_spec p a acc (AmState c o μ) Hc Hp) as (v & b & Ev & Hv & Hb).
  rewrite (bind_Ok _ _ _ _ _ Ev) in E. cbn [am_core am_mem] in *.
  destruct (v =? 0); cbn [negb] in E; [rewrite Hb in E by done; done|by unfold fail in E; simplify_eq].
Qed.

(** C30: Whatever the storage holds and whatever the caller passes, a request
    writes the caller's memory only inside a range the core has just allowed
    the storage partition to write. *)
Theorem requests_write_checked_memory op (s s' : am_state C S) r x :
  core_serving (am_core s) -> is_u32 (am_pointer op) -> am_run op s = (r, s') -> am_mem s' x <> am_mem s x ->
  exists p n, mem_allowed (am_core s) p n TFM_MEMORY_ACCESS_RW = true /\ p <= x < p + n.
Proof using Type.
  destruct s as [c o μ]. cbn [am_core am_mem]. intros Hc Hp E Hx. pose proof (am_request_ok op) as Hq.
  destruct op as [a u|a u p|a u p|a u p|a u p|a u p|a u]; cbn [am_run am_pointer am_request] in *.
  - apply entry_passes with (x := x) in E as [e E]; [|done..]. by rewrite (call_keeps _ _ _ _ _ _ E) in Hx.
  - apply entry_passes with (x := x) in E as [e E]; [|done..].
    eapply (iovec_passes p a TFM_MEMORY_ACCESS_RW (fun b => bs <- call_sys (sst_object_read u (buf_offset b) (buf_size b)) ;;
      mem_store (buf_data b) bs)) in E as [[_ Hm]%andb_true_iff E]; [|done..].
    exists (buf_data (iovec μ p)), (buf_size (iovec μ p)). split; [done|]. eapply store_writes; [exact E| |done].
    intros bs o'. apply read_length. apply (iovec_words μ p).
  - apply entry_passes with (x := x) in E as [e E]; [|done..].
    apply iovec_passes with (x := x) in E as [_ E]; [|done..].
    destruct (sst_utils_check_contained_in _ _ _ _); [unfold fail in E; by simplify_eq|].
    unfold mem_load, in_bounds in E. destruct (_ <=? _) in E; [|unfold bind, fault in E; by simplify_eq].
    change (call_sys (sst_object_write u (mread μ (buf_data (iovec μ p)) (buf_size (iovec μ p)))
      (buf_offset (iovec μ p)) (buf_size (iovec μ p))) (AmState c o μ) = (r, s')) in E.
    by rewrite (call_keeps _ _ _ _ _ _ E) in Hx.
  - unfold sst_am_get_info in E. rewrite checked_run in E by done. destruct (mem_allowed c p _ _) eqn:Em; [|by simplify_eq].
    apply entry_passes with (x := x) in E as [e E]; [|done..].
    exists p, PSA_SST_ASSET_INFO_SIZE. split; [done|]. eapply store_writes; [exact E| |done].
    intros. apply zlen_encode_info.
  - unfold sst_am_get_attributes in E. rewrite checked_run in E by done.
    destruct (mem_allowed c p _ _) eqn:Em; [|by simplify_eq].
    apply entry_passes with (x := x) in E as [e E]; [|done..].
    exists p, PSA_SST_ASSET_ATTR_SIZE. split; [done|]. eapply (store_writes _ (fun bs => bs)); [exact E| |done].
    intros bs o'. apply attributes_length.
  - unfold sst_am_set_attributes in E. rewrite checked_run in E by done.
    destruct (mem_allowed c p _ _) eqn:Em; [|by simplify_eq].
    destruct (mem_allowed_range c p PSA_SST_ASSET_ATTR_SIZE _ Hc Hp ltac:(done) Em) as [_ Hr].
    change PSA_SST_ASSET_ATTR_SIZE with 24 in Hr.
    apply entry_passes with (x := x) in E as [e E]; [|done..].
    rewrite (bind_Ok _ _ _ _ _ (mem_load_spec p 8 (AmState c o μ) ltac:(lia))) in E.
    rewrite (bind_Ok _ _ _ _ _ (mem_load_spec (p + 8) 8 (AmState c o μ) ltac:(lia))) in E.
    destruct (_ || _) in E; [unfold fail in E; by simplify_eq|].
    rewrite (bind_Ok _ _ _ _ _ (mem_load_spec p PSA_SST_ASSET_ATTR_SIZE (AmState c o μ) Hr)) in E.
    by rewrite (call_keeps _ _ _ _ _ _ E) in Hx.
  - apply entry_passes with (x := x) in E as [e E]; [|done..]. by rewrite (call_keeps _ _ _ _ _ _ E) in Hx.
Qed.

(** [sst_jwt_get_address] checks neither the caller nor the pointer: the
    storage partition stores the address of the signing key at any address
    whatever the core would say of it. *)
Theorem jwt_address_written_unchecked key a u p (s : am_state C S) :
  is_u32 key -> p + 4 <= 2 ^ 32 ->
  exists s', sst_jwt_get_address key a u p s = (Ok tt, s') /\ get32 (mread (am_mem s') p 4) = key /\
    am_core s' = am_core s /\ am_sys s' = am_sys s.
Proof using Type.
  intros Hk Hp. destruct s as [c o μ]. exists (AmState c o (mwrite μ p (put32 key))). split_and!; try done.
  - apply mem_store_spec. by rewrite zlen_put32.
  - cbn [am_mem]. rewrite <- (zlen_put32 key), mread_mwrite_eq. by apply get_put32.
Qed.
End claims.

(** ** The claims at the AN521 *)

Module AssetsAn521.
Import An521Core AssetsOnAn521.
Local Existing Instances an521_core_layout an521_cmse an521_layout an521_area_ok an521_build_ok.
Local Existing Instance an521_laws.

#[local] Instance an521_no_wrap : cmse_no_wrap.
Proof. intros h p n f _ _ H%Z.leb_le. lia. Qed.

(** The storage partition called by the non-secure side, and by the test
    partition; its functions run in thread mode. *)
Definition in_thread_mode (s : tfm_state) : tfm_state :=
  set_cpu (fun c => {| PSP := u32 (PSP c + SVC_STACK_FRAME_SIZE); PSPLIM := PSPLIM c;
    CONTROL_nPRIV := CONTROL_nPRIV c; CONTROL_SPSEL := 1; IPSR := 0; PRIMASK := PRIMASK c;
    SHCSR := SHCSR c; AIRCR_low := AIRCR_low c |}) s.

Definition storage_call (ns : bool) : tfm_sfn_req_s :=
  {| sp_id := storage_id; sfn := 0x10050101; args := (1, 2, 3, 4);
     exc_num := if ns then EXC_NUM_SVCALL else EXC_NUM_THREAD_MODE; ns_caller := ns |}.
Definition for_ns : tfm_state := snd (tfm_push_lock (storage_call true) (Z.lor return_from_sfn 1) ready).
Definition for_test : tfm_state := snd (tfm_push_lock (storage_call false) (Z.lor return_from_sfn 1) in_call).

Lemma for_ns_step : tfm_push_lock (storage_call true) (Z.lor return_from_sfn 1) ready = (Ok TFM_SUCCESS, for_ns).
Proof. vm_compute. reflexivity. Qed.
Lemma for_test_step : tfm_push_lock (storage_call false) (Z.lor return_from_sfn 1) in_call = (Ok TFM_SUCCESS, for_test).
Proof. vm_compute. reflexivity. Qed.

Lemma ready_declared : storage_id ∈ part_ids ready.
Proof. rewrite ready_ids. unfold ids. set_solver. Qed.

Lemma in_call_declared : storage_id ∈ part_ids in_call.
Proof. assert (part_ids in_call = ids) as -> by (vm_compute; reflexivity). unfold ids. set_solver. Qed.

Lemma serving_after x c s s' ns :
  chain_ok x c s -> storage_id ∈ part_ids s ->
  tfm_push_lock (storage_call ns) (Z.lor return_from_sfn 1) s = (Ok TFM_SUCCESS, s') ->
  running_partition_idx (g_spm_partition_db s') <> 0 -> serving (in_thread_mode s').
Proof.
  intros Hch Hid E Hx.
  destruct (step_call_chain (proj1 build_good) (fun _ => layout_good) x c s s' (storage_call ns)
              (Z.lor return_from_sfn 1) Hch Hid E) as [t Ht].
  split; [|done]. exists t, (x :: c). split; [|by rewrite <- (ch_running _ _ _ Ht)].
  apply chain_ok_set_cpu; [apply u32_ok|done].
Qed.

Lemma serving_ns : serving (in_thread_mode for_ns).
Proof.
  eapply serving_after; [apply ready_chain|apply ready_declared|apply for_ns_step|]. vm_compute. congruence.
Qed.
Lemma serving_test : serving (in_thread_mode for_test).
Proof.
  eapply serving_after; [apply in_call_chain|apply in_call_declared|apply for_test_step|]. vm_compute. congruence.
Qed.

#[local] Instance an521_core_ops : tfm_core_ops tfm_state := tfm_core_c (sfn_exec bodies 8).
#[local] Instance an521_core_laws : tfm_core_laws tfm_state.
Proof. apply tfm_core_c_laws; [vm_compute; split; congruence|vm_compute; congruence]. Defined.

(** The non-secure caller has a buffer structure and a buffer in its memory. *)
Definition vec : Z := 0x28100000.
Definition buf : Z := 0x28100100.
Definition caller_mem : mem :=
  mwrite (mwrite (fun _ => Byte.x00) vec (put32 buf ++ put32 3 ++ put32 0)) buf [Byte.x0a; Byte.x0b; Byte.x0c].

Definition ns_call (op : am_op) : am_call tfm_state := AmCall (in_thread_mode for_ns) caller_mem op.
Definition s_call (op : am_op) : am_call tfm_state := AmCall (in_thread_mode for_test) caller_mem op.

Definition requests : list (am_call tfm_state) := [
  ns_call (AmCreate SST_APP_ID_3 SST_ASSET_ID_AES_KEY_256);
  ns_call (AmWrite SST_APP_ID_3 SST_ASSET_ID_AES_KEY_256 vec);
  ns_call (AmRead SST_APP_ID_3 SST_ASSET_ID_AES_KEY_256 vec);
  ns_call (AmRead SST_APP_ID_1 SST_ASSET_ID_AES_KEY_256 vec);
  ns_call (AmDelete S_APP_ID SST_ASSET_ID_AES_KEY_256);
  ns_call (AmCreate SST_APP_ID_3 SST_ASSET_ID_AES_KEY_128);
  s_call (AmCreate S_APP_ID SST_ASSET_ID_AES_KEY_128);
  s_call (AmRead SST_APP_ID_3 SST_ASSET_ID_AES_KEY_256 vec);
  s_call (AmWrite SST_APP_ID_3 SST_ASSET_ID_AES_KEY_256 vec);
  s_call (AmDelete S_APP_ID SST_ASSET_ID_AES_KEY_256)].

Lemma requests_ok : Forall call_ok requests.
Proof.
  assert (forall op, am_op_ok op -> call_ok (ns_call op)) as Hn by (intros op H; split; [apply serving_ns|done]).
  assert (forall op, am_op_ok op -> call_ok (s_call op)) as Hs by (intros op H; split; [apply serving_test|done]).
  unfold requests. repeat constructor; try apply serving_ns; try apply serving_test; vm_compute; try congruence.
  all: intros e [= <-]; cbn; congruence.
Qed.

(** The storage is not formatted yet. *)
Definition unprepared : sst_sys (sst_state an521_flash) := snd (sst_system_prepare AssetsOnAn521.boot).

Lemma boot_prepare : sst_system_prepare AssetsOnAn521.boot = (Err PSA_SST_ERR_SYSTEM_ERROR, unprepared).
Proof.
  unfold unprepared. rewrite (surjective_pairing (sst_system_prepare AssetsOnAn521.boot)) at 1.
  by f_equal.
Qed.

Lemma unprepared_dev : sst_dev (sys_core unprepared) = An521.blank.
Proof. vm_compute. reflexivity. Qed.

Lemma unprepared_usable : core_usable (sys_core unprepared).
Proof.
  split; [|vm_compute; reflexivity]. exists (fun _ _ => Byte.xff).
  change (DRep (sst_dev (sys_core unprepared)) (fun _ _ => Byte.xff)). rewrite unprepared_dev. exact An521.blank_rep.
Qed.

Lemma asset_manager_refines_policy_witness :
  (exists o1 o2, sst_am_prepare true (AmState (in_thread_mode for_ns) AssetsOnAn521.boot caller_mem) =
      (Ok tt, AmState (in_thread_mode for_ns) o1 caller_mem) /\
    am_session requests o1 = ((abs_session requests ∅).1, o2) /\ sys_rep o2 (abs_session requests ∅).2) /\
  fst <$> (abs_session requests ∅).1 =
    [Ok tt; Ok tt; Ok tt; Err (AmErr PSA_SST_ERR_ASSET_NOT_FOUND); Err (AmErr PSA_SST_ERR_ASSET_NOT_FOUND);
     Err (AmErr PSA_SST_ERR_ASSET_NOT_FOUND); Ok tt; Ok tt; Err (AmErr PSA_SST_ERR_ASSET_NOT_FOUND); Ok tt].
Proof.
  split; [|vm_compute; reflexivity].
  apply (asset_manager_refines_policy (in_thread_mode for_ns) AssetsOnAn521.boot caller_mem
           PSA_SST_ERR_SYSTEM_ERROR unprepared requests).
  - apply boot_prepare.
  - apply unprepared_usable.
  - vm_compute. reflexivity.
  - apply requests_ok.
Defined.

Definition served : am_state tfm_state (sst_state an521_flash) :=
  AmState (in_thread_mode for_ns) AssetsOnAn521.boot caller_mem.

Lemma access_control_exact_witness :
  sst_am_get_db_entry SST_APP_ID_1 SST_ASSET_ID_AES_KEY_192 SST_PERM_READ served =
    (Ok (allowed (caller_is_secure (am_core served)) SST_APP_ID_1 SST_ASSET_ID_AES_KEY_192 SST_PERM_READ), served) /\
  allowed false SST_APP_ID_1 SST_ASSET_ID_AES_KEY_192 SST_PERM_READ =
    Some (Policy PSA_SST_ASSET_KEY_AES SST_ASSET_ID_AES_KEY_192 24 3 7) /\
  allowed false SST_APP_ID_1 SST_ASSET_ID_AES_KEY_192 SST_PERM_WRITE = None.
Proof.
  split; [|split; vm_compute; reflexivity].
  apply (access_control_exact SST_APP_ID_1 SST_ASSET_ID_AES_KEY_192 SST_PERM_READ served).
  - apply serving_ns.
  - by left.
Defined.

Lemma denied_request_changes_nothing_witness :
  am_run (AmGetInfo S_APP_ID SST_ASSET_ID_AES_KEY_192 buf) served =
    (Err (AmErr (if pointer_allowed (am_core served) (AmGetInfo S_APP_ID SST_ASSET_ID_AES_KEY_192 buf)
                 then PSA_SST_ERR_ASSET_NOT_FOUND else PSA_SST_ERR_PARAM_ERROR)), served).
Proof.
  apply (denied_request_changes_nothing (AmGetInfo S_APP_ID SST_ASSET_ID_AES_KEY_192 buf) served).
  - apply serving_ns.
  - vm_compute. split; congruence.
  - vm_compute. reflexivity.
Defined.

(** A storage with one asset. *)
Definition stocked : am_state tfm_state (sst_state an521_flash) :=
  snd (am_run (AmCreate SST_APP_ID_3 SST_ASSET_ID_AES_KEY_256) (snd (sst_am_prepare true served))).

Lemma requests_write_checked_memory_witness :
  exists p n, mem_allowed (am_core stocked) p n TFM_MEMORY_ACCESS_RW = true /\ p <= buf + 8 < p + n.
Proof.
  apply (requests_write_checked_memory (AmGetInfo SST_APP_ID_3 SST_ASSET_ID_AES_KEY_256 buf) stocked
    (snd (am_run (AmGetInfo SST_APP_ID_3 SST_ASSET_ID_AES_KEY_256 buf) stocked)) (Ok tt) (buf + 8)).
  - assert (am_core stocked = in_thread_mode for_ns) as -> by (vm_compute; reflexivity). apply serving_ns.
  - vm_compute. split; congruence.
  - rewrite (surjective_pairing (am_run _ stocked)) at 1. by f_equal.
  - vm_compute. congruence.
Defined.

(** The stack of the core is not the caller's to write. *)
Lemma jwt_address_written_unchecked_witness :
  mem_allowed (am_core served) 0x38001000 4 TFM_MEMORY_ACCESS_RW = false /\
  exists s', sst_jwt_get_address 0x38010400 SST_APP_ID_0 0 0x38001000 served = (Ok tt, s') /\
    get32 (mread (am_mem s') 0x38001000 4) = 0x38010400 /\ am_core s' = am_core served /\ am_sys s' = am_sys served.
Proof.
  split; [vm_compute; reflexivity|].
  apply (jwt_address_written_unchecked 0x38010400 SST_APP_ID_0 0 0x38001000 served).
  - vm_compute. split; congruence.
  - lia.
Defined.
End AssetsAn521.
