(* ===== verification/AuditLog.v ===== *)
(** * The audit log

    [log_core.c] of the audit logging service, built without the redirection to
    a UART: a circular buffer of log items, the oldest of which make room for
    new ones.  An item is a header (time stamp, counter, partition, size), the
    line of the client, and a dummy authentication code. *)

From S2P Require Import Prelude SstDefs Spm SecureApi CoreInterface.

Definition LOG_MAC_SIZE : Z := 4.
Definition LOG_FIXED_FIELD_SIZE : Z := 8 + 4 + 4 + 4.
Definition LOG_SIZE : Z := 1024.
Definition DUMMY_PARTITION_ID : Z := 1234.
Definition OFFSETOF_hdr_size : Z := 16.

Definition TFM_LOG_READ_RECENT : Z := -1.
Definition TFM_LOG_ERR_SUCCESS : Z := 0.
Definition TFM_LOG_ERR_FAILURE : Z := TFM_PARTITION_SPECIFIC_ERROR_MIN.

Record log_vars := LogVars {
  first_el_idx : Z;
  last_el_idx : Z;
  num_items : Z;
  stored_size : Z;
}.

Record tfm_log_info := LogInfo {
  info_size : Z;
  info_num_items : Z;
}.

(** The static data of the service and, below it, the core. *)
Record log_sys (C : Type) := LogSys {
  log_core : C;
  log_buffer : Z -> byte;
  scratch_buffer : list byte;
  log_state : log_vars;
  global_timestamp : Z;
}.
Arguments LogSys {C}.
Arguments log_core {C}.
Arguments log_buffer {C}.
Arguments scratch_buffer {C}.
Arguments log_state {C}.
Arguments global_timestamp {C}.

(** A function may never return: the core stops, or a loop goes on for ever. *)
Inductive log_exit :=
  | LogHalt (h : tfm_halt)
  | LogLoops.

Section audit_log.
  Context {C : Type} `{!tfm_core_ops C}.
  Local Abbreviation LM := (M (log_sys C) log_exit).

Definition log_ask_core {A} (m : M C tfm_halt A) : LM A := fun s =>
  let '(r, c) := m (log_core s) in
  (match r with Ok a => Ok a | Err h => Err (LogHalt h) | Fault => Fault end,
   LogSys c (log_buffer s) (scratch_buffer s) (log_state s) (global_timestamp s)).

Definition set_log_buffer (f : (Z -> byte) -> Z -> byte) (s : log_sys C) : log_sys C :=
  LogSys (log_core s) (f (log_buffer s)) (scratch_buffer s) (log_state s) (global_timestamp s).
Definition set_scratch (f : list byte -> list byte) (s : log_sys C) : log_sys C :=
  LogSys (log_core s) (log_buffer s) (f (scratch_buffer s)) (log_state s) (global_timestamp s).
Definition set_log_state (v : log_vars) (s : log_sys C) : log_sys C :=
  LogSys (log_core s) (log_buffer s) (scratch_buffer s) v (global_timestamp s).
Definition set_timestamp (t : Z) (s : log_sys C) : log_sys C :=
  LogSys (log_core s) (log_buffer s) (scratch_buffer s) (log_state s) t.

(** [*GET_SIZE_FIELD_POINTER(idx)]: a word of the buffer. *)
Definition GET_SIZE_FIELD (idx : Z) : LM Z :=
  let i := u32 (idx + OFFSETOF_hdr_size) mod LOG_SIZE in
  in_bounds (i + 4 <=? LOG_SIZE) ;;
  gets (fun s => get32 (mread (log_buffer s) i 4)).

Definition COMPUTE_LOG_ENTRY_SIZE (size : Z) : Z := u32 (LOG_FIXED_FIELD_SIZE + size + LOG_MAC_SIZE).

Definition GET_NEXT_LOG_INDEX (idx : Z) : LM Z :=
  size <- GET_SIZE_FIELD idx ;;
  ret (u32 (idx + COMPUTE_LOG_ENTRY_SIZE size) mod LOG_SIZE).

Definition log_update_state (first_el_idx last_el_idx stored_size num_items : Z) : LM unit :=
  modify (set_log_state (LogVars first_el_idx last_el_idx num_items stored_size)).

(** The loop of [log_replace_item]: [(first_el_idx, last_el_idx, num_items,
    stored_size)] when it ends. *)
Fixpoint replace_item_loop (fuel : nat) (size : Z) (v : log_vars) : LM log_vars :=
  if u32 (LOG_SIZE - stored_size v) <? size
  then
    if num_items v =? 0 then ret (LogVars 0 0 0 0)
    else
      match fuel with
      | O => fail LogLoops
      | S fuel =>
          n <- GET_SIZE_FIELD (first_el_idx v) ;;
          first <- GET_NEXT_LOG_INDEX (first_el_idx v) ;;
          replace_item_loop fuel size
            (LogVars first (last_el_idx v) (u32 (num_items v - 1))
               (u32 (stored_size v - COMPUTE_LOG_ENTRY_SIZE n)))
      end
  else ret v.

(** Returns [*begin] and [*end]. *)
Definition log_replace_item (size : Z) : LM (Z * Z) :=
  v <- gets log_state ;;
  v <- replace_item_loop (Z.to_nat (num_items v)) size v ;;
  start_pos <- (if num_items v =? 0 then ret (first_el_idx v) else GET_NEXT_LOG_INDEX (last_el_idx v)) ;;
  let stop_pos := u32 (start_pos + COMPUTE_LOG_ENTRY_SIZE size) mod LOG_SIZE in
  log_update_state (first_el_idx v) (last_el_idx v) (stored_size v) (num_items v) ;;
  ret (start_pos, stop_pos).

(** The loop of [log_buffer_copy], at [idx] with [n] bytes to go. *)
Fixpoint buffer_copy_loop (n : nat) (idx dest_idx : Z) (src : list byte) : LM unit :=
  match n with
  | O => ret tt
  | S n =>
      match src !! Z.to_nat idx with
      | None => fault
      | Some b =>
          modify (set_log_buffer (fun l => upd l (u32 (dest_idx + idx) mod LOG_SIZE) b)) ;;
          buffer_copy_loop n (idx + 1) dest_idx src
      end
  end.

Definition log_buffer_copy (dest_idx : Z) (src : list byte) (size : Z) : LM Z :=
  if (LOG_SIZE <=? dest_idx) || (LOG_SIZE <? size) then ret TFM_LOG_ERR_FAILURE
  else buffer_copy_loop (Z.to_nat size) 0 dest_idx src ;; ret TFM_LOG_ERR_SUCCESS.

(** [log_memcpy] into the scratch buffer at [off]. *)
Definition log_memcpy (off : Z) (src : list byte) (size : Z) : LM Z :=
  dest <- gets scratch_buffer ;;
  match memcpy_loop (Z.to_nat size) dest (Z.to_nat off) src 0 with
  | Some dest => modify (set_scratch (fun _ => dest)) ;; ret TFM_LOG_ERR_SUCCESS
  | None => fault
  end.

Definition scratch_store (off : Z) (bs : list byte) : LM unit :=
  dest <- gets scratch_buffer ;;
  in_bounds (off + zlen bs <=? zlen dest) ;;
  modify (set_scratch (splice off bs)).

(** [tlr->mac[idx] = idx] *)
Fixpoint format_mac_loop (n : nat) (idx off : Z) : LM unit :=
  match n with
  | O => ret tt
  | S n => scratch_store (off + idx) [z2b (u8 idx)] ;; format_mac_loop n (idx + 1) off
  end.

(** [line] is the memory of the client's structure, from its size field. *)
Definition log_format_buffer (line : list byte) : LM Z :=
  in_bounds (4 <=? zlen line) ;;
  let size := get32 (slice 0 4 line) in
  timestamp <- gets global_timestamp ;;
  scratch_store 0 (put64 timestamp) ;;
  modify (set_timestamp (u64 (timestamp + 1))) ;;
  scratch_store 8 (put32 0) ;;
  scratch_store 12 (put32 DUMMY_PARTITION_ID) ;;
  log_memcpy OFFSETOF_hdr_size line (u32 (size + 4)) ;;
  format_mac_loop (Z.to_nat LOG_MAC_SIZE) 0 (LOG_FIXED_FIELD_SIZE + size) ;;
  ret TFM_LOG_ERR_SUCCESS.

(** Without a UART nothing is streamed. *)
Definition log_uart_redirection (start_idx : Z) : LM unit := ret tt.

Definition log_core_init : LM Z :=
  log_update_state 0 0 0 0 ;; ret TFM_LOG_ERR_SUCCESS.

(** The walk over [n] items from an index, in deletion and in retrieval. *)
Fixpoint skip_items_loop (n : nat) (first_el_idx : Z) : LM Z :=
  match n with
  | O => ret first_el_idx
  | S n => first_el_idx <- GET_NEXT_LOG_INDEX first_el_idx ;; skip_items_loop n first_el_idx
  end.

(** Returns the code and the word stored in [*rem_items], if any. *)
Definition log_core_delete_items (n : Z) (rem_items_null : bool) : LM (Z * option Z) :=
  if rem_items_null then ret (TFM_LOG_ERR_FAILURE, None) else
  v <- gets log_state ;;
  if num_items v <=? n
  then log_update_state 0 0 0 0 ;; ret (TFM_LOG_ERR_SUCCESS, Some (num_items v))
  else
    first <- skip_items_loop (Z.to_nat n) (first_el_idx v) ;;
    modify (fun s => set_log_state (LogVars first (last_el_idx (log_state s))
      (u32 (num_items (log_state s) - n)) (stored_size (log_state s))) s) ;;
    ret (TFM_LOG_ERR_SUCCESS, Some n).

Definition log_core_get_info : LM tfm_log_info :=
  v <- gets log_state ;; ret (LogInfo (stored_size v) (num_items v)).

Definition log_core_add_line (line : list byte) : LM Z :=
  caller <- log_ask_core core_validate_secure_caller ;;
  if negb (caller =? TFM_SUCCESS) then ret TFM_LOG_ERR_FAILURE else
  in_bounds (4 <=? zlen line) ;;
  let size := get32 (slice 0 4 line) in
  if negb (size mod 4 =? 0) then ret TFM_LOG_ERR_FAILURE else
  if LOG_SIZE - (LOG_FIXED_FIELD_SIZE + LOG_MAC_SIZE) <? size then ret TFM_LOG_ERR_FAILURE else
  info <- log_core_get_info ;;
  pos <- (if info_num_items info =? 0
          then ret (0, COMPUTE_LOG_ENTRY_SIZE size - 1)
          else log_replace_item (COMPUTE_LOG_ENTRY_SIZE size)) ;;
  let start_pos := fst pos in
  log_format_buffer line ;;
  scratch <- gets scratch_buffer ;;
  log_buffer_copy start_pos scratch (COMPUTE_LOG_ENTRY_SIZE size) ;;
  v <- gets log_state ;;
  log_update_state (first_el_idx v) start_pos (u32 (stored_size v + COMPUTE_LOG_ENTRY_SIZE size))
    (u32 (num_items v + 1)) ;;
  log_uart_redirection start_pos ;;
  ret TFM_LOG_ERR_SUCCESS.

(** ** Retrieval *)

(** The loop for the most recent items: the start, the number of items, the
    size found and the size to return. *)
Fixpoint retrieve_recent_loop (fuel : nat) (index_first_empty_el start_idx n stored retrieved : Z)
  : LM (Z * Z * Z * Z) :=
  if retrieved <? stored
  then
    match fuel with
    | O => fail LogLoops
    | S fuel =>
        start_idx <- GET_NEXT_LOG_INDEX start_idx ;;
        let stored := if start_idx <=? index_first_empty_el then index_first_empty_el - start_idx
                      else (LOG_SIZE - start_idx) + index_first_empty_el in
        retrieve_recent_loop fuel index_first_empty_el start_idx (u32 (n - 1)) stored
          (if stored <? retrieved then stored else retrieved)
    end
  else ret (start_idx, n, stored, retrieved).

(** The loop that adds up items from a start: their size and number. *)
Fixpoint retrieve_from_loop (fuel : nat) (idx stored n retrieved : Z) : LM (Z * Z) :=
  size <- GET_SIZE_FIELD idx ;;
  if u32 (stored + COMPUTE_LOG_ENTRY_SIZE size) <=? retrieved
  then
    match fuel with
    | O => fail LogLoops
    | S fuel =>
        next <- GET_NEXT_LOG_INDEX idx ;;
        retrieve_from_loop fuel next (u32 (stored + COMPUTE_LOG_ENTRY_SIZE size)) (u32 (n + 1)) retrieved
    end
  else ret (stored, n).

(** The copy to the caller's buffer. *)
Definition retrieve_copy (start_idx size : Z) : LM (list byte) :=
  gets (fun s => (fun k => log_buffer s (u32 (start_idx + k) mod LOG_SIZE)) <$> seqZ 0 size).

(** Returns the code, [*info] and the bytes stored in the caller's buffer. *)
Definition log_core_retrieve (fuel : nat) (size start : Z) : LM (Z * tfm_log_info * list byte) :=
  if size =? 0 then ret (TFM_LOG_ERR_FAILURE, LogInfo 0 0, []) else
  info_stored <- log_core_get_info ;;
  let n := info_num_items info_stored in
  let stored := info_size info_stored in
  if n =? 0 then ret (TFM_LOG_ERR_SUCCESS, LogInfo 0 0, []) else
  let retrieved := if size <? stored then size else stored in
  v <- gets log_state ;;
  let start_idx := first_el_idx v in
  if start =? TFM_LOG_READ_RECENT
  then
    empty <- GET_NEXT_LOG_INDEX (last_el_idx v) ;;
    r <- retrieve_recent_loop fuel empty start_idx n stored retrieved ;;
    let '(start_idx, n, stored, retrieved) := r in
    if stored =? 0 then ret (TFM_LOG_ERR_SUCCESS, LogInfo 0 0, []) else
    bs <- retrieve_copy start_idx retrieved ;;
    ret (TFM_LOG_ERR_SUCCESS, LogInfo retrieved n, bs)
  else if u32 start <? n
  then
    start_idx <- skip_items_loop (Z.to_nat start) start_idx ;;
    first_size <- GET_SIZE_FIELD start_idx ;;
    let stored := COMPUTE_LOG_ENTRY_SIZE first_size in
    if retrieved <? stored then ret (TFM_LOG_ERR_SUCCESS, LogInfo 0 0, []) else
    idx <- GET_NEXT_LOG_INDEX start_idx ;;
    r <- retrieve_from_loop fuel idx stored 1 retrieved ;;
    let '(stored, n) := r in
    bs <- retrieve_copy start_idx stored ;;
    ret (TFM_LOG_ERR_SUCCESS, LogInfo stored n, bs)
  else ret (TFM_LOG_ERR_FAILURE, LogInfo 0 0, []).
End audit_log.
