(* ===== verification/AuditLogSpec.v ===== *)
(** * The audit log as a queue

    The buffer holds the items of a queue one after the other around the ring.
    The four operations are operations of the queue; the space of deleted items
    is not given back until the log is empty or full, which the queue records. *)

From S2P Require Import Prelude SstDefs SstObjectSpec Spm SecureApi CoreInterface AuditLog.

(** ** Items and their bytes around the ring *)

(** The [n] bytes of the buffer from index [i], around the ring. *)
Definition ring (l : Z -> byte) (i n : Z) : list byte := (fun k => l ((i + k) mod LOG_SIZE)) <$> seqZ 0 n.

Definition total (es : list (list byte)) : Z := zlen (List.concat es).

(** The size field says how long the item is. *)
Definition item_ok (e : list byte) : Prop :=
  zlen e = LOG_FIXED_FIELD_SIZE + get32 (slice OFFSETOF_hdr_size 4 e) + LOG_MAC_SIZE /\
  zlen e mod 4 = 0 /\ 24 <= zlen e <= LOG_SIZE.

Definition ring_index (i : Z) : Prop := 0 <= i < LOG_SIZE /\ i mod 4 = 0.

Lemma zlen_ring l i n : 0 <= n -> zlen (ring l i n) = n.
Proof. intros. unfold ring. rewrite length_fmap, length_seqZ. lia. Qed.

Lemma znth_ring l i n k : 0 <= k < n -> znth (ring l i n) k = l ((i + k) mod LOG_SIZE).
Proof.
  intros Hk. apply znth_lookup; [lia|]. unfold ring. rewrite list_lookup_fmap.
  rewrite (lookup_seqZ_lt 0 n (Z.to_nat k)) by lia. cbn. do 2 f_equal. f_equal. lia.
Qed.

Lemma ring_app l i n k : 0 <= n -> 0 <= k -> ring l i (n + k) = ring l i n ++ ring l ((i + n) mod LOG_SIZE) k.
Proof.
  intros Hn Hk. apply zlist_ext; [rewrite zlen_app, !zlen_ring; lia|]. intros j Hj. rewrite zlen_ring in Hj by lia.
  rewrite znth_ring by lia. destruct (decide (j < n)).
  - rewrite znth_app_l by (rewrite zlen_ring; lia). by rewrite znth_ring by lia.
  - rewrite znth_app_r by (rewrite zlen_ring; lia). rewrite zlen_ring by lia. rewrite znth_ring by lia.
    f_equal. rewrite Zplus_mod_idemp_l. f_equal. lia.
Qed.

Lemma ring_index_add i n : ring_index i -> n mod 4 = 0 -> ring_index ((i + n) mod LOG_SIZE).
Proof.
  intros [_ Hi] Hn. split; [apply Z.mod_pos_bound; unfold LOG_SIZE; lia|].
  rewrite <- Znumtheory.Zmod_div_mod; [|done..|by exists 256]. rewrite Z.add_mod, Hi, Hn by lia. done.
Qed.

Lemma total_app es fs : total (es ++ fs) = total es + total fs.
Proof. unfold total. rewrite List.concat_app, length_app. lia. Qed.

Lemma total_cons e es : total (e :: es) = zlen e + total es.
Proof. unfold total. cbn. rewrite length_app. lia. Qed.

Lemma log_total_nonneg es : 0 <= total es.
Proof. unfold total. lia. Qed.

Lemma total_mod es : Forall item_ok es -> total es mod 4 = 0.
Proof.
  induction 1 as [|e es [_ [He _]] _ IH]; [done|]. rewrite total_cons, Z.add_mod, He, IH by lia. done.
Qed.

(** Words of the ring do not wrap. *)
Lemma ring_word l i : ring_index i -> mread l i 4 = ring l i 4.
Proof.
  intros [Hi Hm]. apply zlist_ext; [by rewrite zlen_mread, zlen_ring by lia|]. intros k Hk.
  rewrite zlen_mread in Hk by lia. rewrite znth_mread, znth_ring by lia. f_equal. symmetry. apply Z.mod_small.
  pose proof (Z.div_mod i 4 ltac:(lia)). unfold LOG_SIZE in *. lia.
Qed.

(** ** The walk over the items *)

Section walk.
  Context {C : Type} `{!tfm_core_ops C}.
  Implicit Types s : log_sys C.

(** An item at [i]. *)
Lemma size_field_at s i e :
  ring_index i -> item_ok e -> ring (log_buffer s) i (zlen e) = e -> GET_SIZE_FIELD i s = (Ok (zlen e - 24), s).
Proof.
  intros Hi He Hr. destruct He as (He & Hm & Hb). unfold GET_SIZE_FIELD, OFFSETOF_hdr_size in *.
  pose proof Hi as [Hi1 _]. unfold LOG_SIZE in Hi1. rewrite u32_small by lia.
  pose proof (ring_index_add i 16 Hi eq_refl) as Hj. set (j := (i + 16) mod LOG_SIZE) in *.
  assert (j + 4 <= LOG_SIZE) as Hj4.
  { destruct Hj as [Hj1 Hj2]. pose proof (Z.div_mod j 4 ltac:(lia)). unfold LOG_SIZE in *. lia. }
  rewrite (proj2 (Z.leb_le _ _) Hj4). unfold in_bounds. rewrite (bind_Ok _ _ _ tt s) by done.
  unfold gets. rewrite (ring_word _ _ Hj).
  assert (ring (log_buffer s) j 4 = slice 16 4 e) as ->.
  { apply zlist_ext; [rewrite zlen_ring, zlen_slice; lia|]. intros q Hq. rewrite zlen_ring in Hq by lia.
    rewrite znth_ring, znth_slice by lia. rewrite <- Hr at 1. rewrite znth_ring by lia.
    f_equal. subst j. rewrite Zplus_mod_idemp_l. f_equal. lia. }
  do 2 f_equal. unfold LOG_FIXED_FIELD_SIZE, LOG_MAC_SIZE in He. lia.
Qed.

Lemma entry_size e : item_ok e -> COMPUTE_LOG_ENTRY_SIZE (zlen e - 24) = zlen e.
Proof.
  intros (_ & _ & Hb). unfold COMPUTE_LOG_ENTRY_SIZE, LOG_FIXED_FIELD_SIZE, LOG_MAC_SIZE, LOG_SIZE in *.
  rewrite u32_small by lia. lia.
Qed.

Lemma next_at s i e :
  ring_index i -> item_ok e -> ring (log_buffer s) i (zlen e) = e ->
  GET_NEXT_LOG_INDEX i s = (Ok ((i + zlen e) mod LOG_SIZE), s).
Proof.
  intros Hi He Hr. unfold GET_NEXT_LOG_INDEX. rewrite (bind_Ok _ _ _ _ _ (size_field_at s i e Hi He Hr)).
  unfold ret. rewrite entry_size by done. destruct Hi as [Hi _], He as (_ & _ & Hb). unfold LOG_SIZE in *.
  by rewrite u32_small by lia.
Qed.

(** The items [es] lie one after the other from [i]. *)
Definition items_at (l : Z -> byte) (i : Z) (es : list (list byte)) : Prop := ring l i (total es) = List.concat es.

Lemma items_cons l i e es :
  items_at l i (e :: es) <-> ring l i (zlen e) = e /\ items_at l ((i + zlen e) mod LOG_SIZE) es.
Proof.
  unfold items_at. rewrite total_cons, ring_app by (lia || apply log_total_nonneg). cbn [List.concat]. split.
  - intros H. apply app_inj_1 in H; [done|]. apply Nat2Z.inj. by rewrite zlen_ring by lia.
  - by intros [-> ->].
Qed.

Lemma items_app l i es fs :
  items_at l i (es ++ fs) <-> items_at l i es /\ items_at l ((i + total es) mod LOG_SIZE) fs.
Proof.
  unfold items_at. rewrite total_app, ring_app by apply log_total_nonneg. rewrite List.concat_app. split.
  - intros H. apply app_inj_1 in H; [done|]. apply Nat2Z.inj. by rewrite zlen_ring by apply log_total_nonneg.
  - by intros [-> ->].
Qed.

Lemma ring_walk i n k : ((i + n) mod LOG_SIZE + k) mod LOG_SIZE = (i + (n + k)) mod LOG_SIZE.
Proof. rewrite Zplus_mod_idemp_l. f_equal. lia. Qed.

Lemma skip_items_spec n i es s :
  ring_index i -> Forall item_ok es -> items_at (log_buffer s) i es -> (n <= length es)%nat ->
  skip_items_loop n i s = (Ok ((i + total (take n es)) mod LOG_SIZE), s).
Proof.
  revert i es. induction n as [|n IH]; intros i es Hi Hes Hat Hn.
  - cbn [skip_items_loop take]. unfold ret. change (total []) with 0. rewrite Z.add_0_r, Z.mod_small by apply Hi. done.
  - destruct es as [|e es]; [cbn in Hn; lia|]. inversion Hes as [|? ? He Hes']; subst.
    apply items_cons in Hat as [Hr Hat]. cbn [skip_items_loop take].
    rewrite (bind_Ok _ _ _ _ _ (next_at s i e Hi He Hr)).
    rewrite (IH _ es); [|apply ring_index_add; [done|apply He]|done..|cbn in Hn; lia].
    by rewrite total_cons, ring_walk.
Qed.

(** ** The state *)

(** [slack] counts the bytes of deleted items that are not given back. *)
Record vars_rep (l : Z -> byte) (v : log_vars) (es : list (list byte)) (slack : Z) : Prop := {
  vr_first : ring_index (first_el_idx v);
  vr_items : Forall item_ok es;
  vr_at : items_at l (first_el_idx v) es;
  vr_num : num_items v = zlen es;
  vr_stored : stored_size v = total es + slack;
  vr_slack : 0 <= slack;
  vr_fits : total es + slack <= LOG_SIZE;
  vr_last : forall es0 e, es = es0 ++ [e] -> last_el_idx v = (first_el_idx v + total es0) mod LOG_SIZE;
}.

(** Items enough to make room for [need] bytes are forgotten, the oldest first;
    when none is left and the room is still not there the log is reset. *)
Fixpoint evict (need slack : Z) (es : list (list byte)) : list (list byte) * Z :=
  if LOG_SIZE - (total es + slack) <? need
  then match es with
       | [] => ([], 0)
       | e :: es => evict need slack es
       end
  else (es, slack).

Lemma items_few es : Forall item_ok es -> 24 * zlen es <= total es.
Proof.
  induction 1 as [|e es (_ & _ & He) _ IH]; [by cbn; pose proof (log_total_nonneg [])|].
  rewrite total_cons. cbn [length]. lia.
Qed.

Lemma vars_reset l : vars_rep l (LogVars 0 0 0 0) [] 0.
Proof. constructor; try done. by intros [|? ?] ?. Qed.

(** The oldest item is forgotten. *)
Lemma vars_evict l v e es slack :
  vars_rep l v (e :: es) slack ->
  vars_rep l (LogVars ((first_el_idx v + zlen e) mod LOG_SIZE) (last_el_idx v) (u32 (num_items v - 1))
                (u32 (stored_size v - zlen e))) es slack.
Proof.
  intros [H1 H2 H3 H4 H5 H6 H7 H8]. inversion H2 as [|? ? He Hes]; subst. apply items_cons in H3 as [_ H3].
  rewrite total_cons in *. pose proof (log_total_nonneg es). pose proof (items_few es Hes). unfold LOG_SIZE in *.
  constructor; cbn [first_el_idx last_el_idx num_items stored_size]; try done.
  - apply ring_index_add; [done|apply He].
  - rewrite H4. cbn [length]. rewrite u32_small by lia. lia.
  - rewrite H5, u32_small by lia. lia.
  - unfold LOG_SIZE. lia.
  - intros es0 e0 ->. rewrite (H8 (e :: es0) e0 eq_refl), total_cons. change 1024 with LOG_SIZE. by rewrite ring_walk.
Qed.

Lemma free_space l v es slack : vars_rep l v es slack -> u32 (LOG_SIZE - stored_size v) = LOG_SIZE - (total es + slack).
Proof.
  intros Hv. pose proof (log_total_nonneg es). rewrite (vr_stored _ _ _ _ Hv). apply u32_small.
  pose proof (vr_fits _ _ _ _ Hv). pose proof (vr_slack _ _ _ _ Hv). unfold LOG_SIZE in *. lia.
Qed.

Lemma replace_loop_spec fuel need v es slack s :
  vars_rep (log_buffer s) v es slack -> (length es <= fuel)%nat -> need <= LOG_SIZE ->
  exists v', replace_item_loop fuel need v s = (Ok v', s) /\
    vars_rep (log_buffer s) v' (evict need slack es).1 (evict need slack es).2 /\
    total (evict need slack es).1 + (evict need slack es).2 + need <= LOG_SIZE.
Proof.
  revert fuel v. induction es as [|e es IH]; intros fuel v Hv Hf Hn; cbn [evict].
  - assert (replace_item_loop fuel need v =
      if LOG_SIZE - (total [] + slack) <? need then ret (LogVars 0 0 0 0) else ret v) as ->.
    { destruct fuel; cbn [replace_item_loop]; rewrite (free_space _ _ _ _ Hv), (vr_num _ _ _ _ Hv); done. }
    destruct (Z.ltb_spec (LOG_SIZE - (total [] + slack)) need).
    + exists (LogVars 0 0 0 0). split; [done|]. split; [apply vars_reset|]. change (total ([], 0).1) with 0. cbn. lia.
    + exists v. split; [done|]. split; [done|]. cbn [fst snd]. lia.
  - destruct fuel as [|fuel]; [cbn in Hf; lia|]. cbn [replace_item_loop].
    rewrite (free_space _ _ _ _ Hv), (vr_num _ _ _ _ Hv).
    destruct (Z.ltb_spec (LOG_SIZE - (total (e :: es) + slack)) need);
      [|exists v; split; [done|]; split; [done|]; cbn [fst snd]; lia].
    destruct (Z.eqb_spec (zlen (e :: es)) 0); [done|].
    pose proof (vr_items _ _ _ _ Hv) as H2. inversion H2 as [|? ? He Hes]; subst.
    pose proof (vr_at _ _ _ _ Hv) as [Hr _]%items_cons.
    rewrite (bind_Ok _ _ _ _ _ (size_field_at s _ e (vr_first _ _ _ _ Hv) He Hr)).
    rewrite (bind_Ok _ _ _ _ _ (next_at s _ e (vr_first _ _ _ _ Hv) He Hr)).
    rewrite entry_size by done. rewrite <- (vr_num _ _ _ _ Hv). apply IH; [by apply vars_evict|cbn in Hf; lia|done].
Qed.

(** The first free index. *)
Lemma next_empty v es slack s :
  vars_rep (log_buffer s) v es slack -> es <> [] ->
  GET_NEXT_LOG_INDEX (last_el_idx v) s = (Ok ((first_el_idx v + total es) mod LOG_SIZE), s).
Proof.
  intros Hv Hne. destruct (exists_last Hne) as (es0 & e & ->).
  pose proof (vr_items _ _ _ _ Hv) as Hi. apply Forall_app in Hi as [Hi0 Hie].
  inversion Hie as [|? ? He _]; subst. pose proof (vr_at _ _ _ _ Hv) as Hat.
  apply items_app in Hat as [_ Hat]. apply items_cons in Hat as [Hr _].
  rewrite (vr_last _ _ _ _ Hv es0 e eq_refl).
  rewrite (next_at s _ e); [|apply ring_index_add; [apply (vr_first _ _ _ _ Hv)|by apply total_mod]|done|done].
  rewrite total_app, total_cons, ring_walk. change (total []) with 0. by rewrite Z.add_0_r.
Qed.

Lemma replace_item_spec need es slack s :
  vars_rep (log_buffer s) (log_state s) es slack -> need <= LOG_SIZE ->
  exists v' stop, let es' := (evict need slack es).1 in
    log_replace_item need s = (Ok ((first_el_idx v' + total es') mod LOG_SIZE, stop), set_log_state v' s) /\
    vars_rep (log_buffer s) v' es' (evict need slack es).2 /\ total es' + (evict need slack es).2 + need <= LOG_SIZE.
Proof.
  intros Hv Hn. unfold log_replace_item. rewrite (bind_Ok _ _ _ _ _ (eq_refl : gets log_state s = (Ok _, s))).
  destruct (replace_loop_spec (Z.to_nat (num_items (log_state s))) need _ es slack s Hv) as (v' & E & Hv' & Hfit);
    [rewrite (vr_num _ _ _ _ Hv); lia|done|].
  rewrite (bind_Ok _ _ _ _ _ E).
  assert ((if num_items v' =? 0 then ret (first_el_idx v') else GET_NEXT_LOG_INDEX (last_el_idx v')) s =
    (Ok ((first_el_idx v' + total (evict need slack es).1) mod LOG_SIZE), s)) as E2.
  { rewrite (vr_num _ _ _ _ Hv'). destruct (Z.eqb_spec (zlen (evict need slack es).1) 0) as [H0|H0].
    - destruct (evict need slack es).1; [|done]. change (total []) with 0.
      rewrite Z.add_0_r, Z.mod_small by apply (vr_first _ _ _ _ Hv'). done.
    - eapply next_empty; [done|]. by destruct (evict need slack es).1. }
  rewrite (bind_Ok _ _ _ _ _ E2). cbv zeta.
  erewrite bind_Ok by reflexivity. unfold ret. eexists v', _. split; [|done]. destruct v'. reflexivity.
Qed.

(** ** Formatting *)

Definition mac : list byte := [Byte.x00; Byte.x01; Byte.x02; Byte.x03].

Definition line_size (line : list byte) : Z := get32 (slice 0 4 line).

(** The item of a line. *)
Definition item (timestamp : Z) (line : list byte) : list byte :=
  put64 timestamp ++ put32 0 ++ put32 DUMMY_PARTITION_ID ++ ztake (line_size line + 4) line ++ mac.

(** A line that can be logged, and whose memory is there. *)
Definition line_fits (line : list byte) : Prop :=
  line_size line mod 4 = 0 /\ 0 <= line_size line <= LOG_SIZE - 24 /\ line_size line + 4 <= zlen line.

Lemma zlen_item t line : line_fits line -> zlen (item t line) = line_size line + 24.
Proof.
  intros (_ & Hs & Hl). unfold item. rewrite !zlen_app, zlen_ztake, length_put64, !length_put32 by lia.
  change (zlen mac) with 4. lia.
Qed.

Lemma item_ok_line t line : line_fits line -> item_ok (item t line).
Proof.
  intros Hf. pose proof (zlen_item t line Hf) as Hz. destruct Hf as (Hm & Hs & Hl). unfold item_ok. rewrite Hz.
  split; [|split; [rewrite Z.add_mod, Hm by lia; done|lia]].
  assert (slice OFFSETOF_hdr_size 4 (item t line) = slice 0 4 line) as ->.
  { unfold OFFSETOF_hdr_size. apply zlist_ext; [rewrite !zlen_slice by lia; done|]. intros i Hi.
    rewrite zlen_slice in Hi by lia. rewrite !znth_slice by lia. unfold item.
    rewrite (znth_app_r (put64 t)) by (rewrite length_put64; lia). rewrite length_put64.
    rewrite (znth_app_r (put32 0)) by (rewrite length_put32; lia). rewrite length_put32.
    rewrite (znth_app_r (put32 _)) by (rewrite length_put32; lia). rewrite length_put32.
    rewrite znth_app_l by (rewrite zlen_ztake; lia). rewrite znth_ztake by lia. f_equal. lia. }
  fold (line_size line). unfold LOG_FIXED_FIELD_SIZE, LOG_MAC_SIZE. lia.
Qed.

(** The scratch buffer filled from the front. *)
Lemma splice_next {A} off (p new rest : list A) :
  off = zlen p -> zlen new <= zlen rest -> splice off new (p ++ rest) = (p ++ new) ++ zdrop (zlen new) rest.
Proof.
  intros -> Hn. unfold splice, ztake, zdrop. rewrite Nat2Z.id, take_app_length, <- app_assoc. do 2 f_equal.
  rewrite drop_app_ge by lia. f_equal. lia.
Qed.

Lemma scratch_store_spec off bs p rest s :
  scratch_buffer s = p ++ rest -> off = zlen p -> zlen bs <= zlen rest ->
  scratch_store off bs s = (Ok tt, set_scratch (fun _ => (p ++ bs) ++ zdrop (zlen bs) rest) s).
Proof.
  intros E Ho Hb. unfold scratch_store. rewrite (bind_Ok _ _ _ _ _ (eq_refl : gets scratch_buffer s = (Ok _, s))).
  rewrite E, zlen_app. destruct (Z.leb_spec (off + zlen bs) (zlen p + zlen rest)); [|lia]. cbn [in_bounds].
  erewrite bind_Ok by reflexivity. unfold modify, set_scratch. rewrite E. by rewrite splice_next.
Qed.

Lemma log_memcpy_spec off line n p rest s :
  scratch_buffer s = p ++ rest -> off = zlen p -> 0 <= n <= zlen line -> n <= zlen rest ->
  log_memcpy off line n s = (Ok TFM_LOG_ERR_SUCCESS, set_scratch (fun _ => (p ++ ztake n line) ++ zdrop n rest) s).
Proof.
  intros E Ho Hn Hr. unfold log_memcpy. rewrite (bind_Ok _ _ _ _ _ (eq_refl : gets scratch_buffer s = (Ok _, s))).
  rewrite E. pose proof (sst_utils_memcpy_spec (p ++ rest) off line 0 n) as Hm. unfold sst_utils_memcpy in Hm.
  change (Z.to_nat 0) with 0%nat in Hm. rewrite Hm by (rewrite ?zlen_app; lia).
  erewrite bind_Ok by reflexivity. unfold ret. do 2 f_equal. unfold set_scratch. f_equal.
  assert (zlen (slice 0 n line) = n) as Hz by (apply zlen_slice; lia).
  rewrite splice_next by lia. by rewrite Hz.
Qed.

Lemma mac_loop_spec off p rest s :
  scratch_buffer s = p ++ rest -> off = zlen p -> 4 <= zlen rest ->
  format_mac_loop 4 0 off s = (Ok tt, set_scratch (fun _ => (p ++ mac) ++ zdrop 4 rest) s).
Proof.
  intros E Ho Hr. destruct rest as [|b0 [|b1 [|b2 [|b3 rest]]]]; try (cbn in Hr; lia).
  cbn [format_mac_loop]. change (0 + 1) with 1. change (1 + 1) with 2. change (2 + 1) with 3.
  rewrite (bind_Ok _ _ _ _ _ (scratch_store_spec (off + 0) [z2b (u8 0)] _ _ s E ltac:(lia) ltac:(cbn; lia))).
  erewrite (bind_Ok (scratch_store (off + 1) _)) by (eapply scratch_store_spec; [reflexivity|rewrite zlen_app; cbn [length]; lia|rewrite !zlen_zdrop by lia; cbn [length] in *; lia]).
  erewrite (bind_Ok (scratch_store (off + 2) _)) by (eapply scratch_store_spec; [reflexivity|rewrite !zlen_app; cbn [length]; lia|rewrite !zlen_zdrop by lia; cbn [length] in *; lia]).
  erewrite (bind_Ok (scratch_store (off + 3) _)) by (eapply scratch_store_spec; [reflexivity|rewrite !zlen_app; cbn [length]; lia|rewrite !zlen_zdrop by lia; cbn [length] in *; lia]).
  unfold ret, set_scratch. cbn -[app]. do 3 f_equal. rewrite <- !app_assoc. reflexivity.
Qed.

Lemma format_spec line s :
  line_fits line -> zlen (scratch_buffer s) = LOG_SIZE ->
  exists rest, log_format_buffer line s =
    (Ok TFM_LOG_ERR_SUCCESS,
     set_timestamp (u64 (global_timestamp s + 1)) (set_scratch (fun _ => item (global_timestamp s) line ++ rest) s)) /\
    zlen (item (global_timestamp s) line ++ rest) = LOG_SIZE.
Proof.
  intros Hf Hz. pose proof (zlen_item (global_timestamp s) line Hf) as Hi. destruct Hf as (Hm & Hs & Hl).
  unfold log_format_buffer. rewrite (proj2 (Z.leb_le 4 (zlen line))) by lia. cbn [in_bounds].
  erewrite bind_Ok by reflexivity. cbv zeta. fold (line_size line).
  rewrite (bind_Ok _ _ _ _ _ (eq_refl : gets global_timestamp s = (Ok _, s))).
  set (t := global_timestamp s) in *.
  pose proof (length_put64 t) as L1. pose proof (length_put32 0) as L2. pose proof (length_put32 DUMMY_PARTITION_ID) as L3.
  unfold LOG_SIZE in *.
  rewrite (bind_Ok _ _ _ _ _ (scratch_store_spec 0 (put64 t) [] (scratch_buffer s) s eq_refl eq_refl ltac:(lia))).
  erewrite (bind_Ok (modify _)) by reflexivity.
  erewrite (bind_Ok (scratch_store 8 _)) by (eapply scratch_store_spec; [reflexivity|cbn [app]; lia|rewrite zlen_zdrop; lia]).
  erewrite (bind_Ok (scratch_store 12 _)) by (eapply scratch_store_spec;
    [reflexivity|rewrite !zlen_app; cbn [length]; lia|rewrite !zlen_zdrop; lia]).
  rewrite u32_small by lia.
  erewrite (bind_Ok (log_memcpy _ _ _)) by (eapply log_memcpy_spec;
    [reflexivity|rewrite !zlen_app; cbn [length]; unfold OFFSETOF_hdr_size; lia|lia|rewrite !zlen_zdrop; lia]).
  erewrite (bind_Ok (format_mac_loop _ _ _)) by (eapply mac_loop_spec;
    [reflexivity|rewrite !zlen_app, zlen_ztake by lia; cbn [length]; unfold LOG_FIXED_FIELD_SIZE; lia|rewrite !zlen_zdrop; lia]).
  set (rest := zdrop 4 _). exists rest. split.
  - unfold ret, set_timestamp, set_scratch. cbn -[app put32 put64 mac item]. by do 3 f_equal.
  - rewrite zlen_app, Hi. subst rest. rewrite !zlen_zdrop by (rewrite ?zlen_zdrop; lia). lia.
Qed.

(** ** The copy into the ring *)

(** [l] with [n] bytes of [src], from the [idx]-th, written around from [d]. *)
Definition ring_write (l : Z -> byte) (d idx n : Z) (src : list byte) : Z -> byte := fun j =>
  let k := (j - d) mod LOG_SIZE in
  if decide (0 <= j < LOG_SIZE /\ idx <= k < idx + n) then znth src k else l j.

Definition ring_eq (l l' : Z -> byte) : Prop := forall j, 0 <= j < LOG_SIZE -> l j = l' j.

Lemma ring_ext l l' i n : ring_eq l l' -> ring l i n = ring l' i n.
Proof.
  intros H. unfold ring. apply list_fmap_ext. intros k z Hk. apply H. apply Z.mod_pos_bound. unfold LOG_SIZE. lia.
Qed.

Lemma buffer_copy_spec n idx d src s :
  0 <= d < LOG_SIZE -> 0 <= idx -> idx + Z.of_nat n <= LOG_SIZE -> idx + Z.of_nat n <= zlen src ->
  exists l', buffer_copy_loop n idx d src s = (Ok tt, set_log_buffer (fun _ => l') s) /\
    ring_eq l' (ring_write (log_buffer s) d idx (Z.of_nat n) src).
Proof.
  revert idx s. induction n as [|n IH]; intros idx s Hd Hi Hn Hs.
  { exists (log_buffer s). split; [by destruct s|]. intros j Hj. unfold ring_write. rewrite decide_False by lia. done. }
  cbn [buffer_copy_loop]. destruct (lookup_lt_is_Some_2 src (Z.to_nat idx) ltac:(lia)) as [b Hb]. rewrite Hb.
  erewrite bind_Ok by reflexivity. unfold LOG_SIZE in Hd, Hn. rewrite u32_small by lia.
  set (s1 := set_log_buffer _ s).
  destruct (IH (idx + 1) s1 Hd ltac:(lia) ltac:(unfold LOG_SIZE; lia) ltac:(lia)) as (l' & E & Hl).
  exists l'. split; [rewrite E; by destruct s|]. intros j Hj. rewrite (Hl j Hj). unfold ring_write.
  pose proof (Z.mod_pos_bound (j - d) LOG_SIZE ltac:(done)) as Hk. set (k := (j - d) mod LOG_SIZE) in *.
  assert (j = (d + k) mod LOG_SIZE) as Hjk.
  { subst k. rewrite Zplus_mod_idemp_r. replace (d + (j - d)) with j by lia. symmetry. by apply Z.mod_small. }
  destruct (decide (k = idx)) as [Hki|Hki].
  - rewrite decide_False by lia. rewrite decide_True by lia. subst s1. cbn [set_log_buffer log_buffer].
    rewrite Hjk, Hki. rewrite upd_eq. symmetry. by apply znth_lookup.
  - destruct (decide (0 <= j < LOG_SIZE /\ idx + 1 <= k < idx + 1 + Z.of_nat n)).
    + rewrite decide_True by lia. done.
    + rewrite decide_False by lia. subst s1. cbn [set_log_buffer log_buffer]. apply upd_ne. rewrite Hjk. intros Hc.
      apply Hki. unfold LOG_SIZE in *.
      assert ((d + k - d) mod 1024 = (d + idx - d) mod 1024) as Hm
        by (rewrite Zminus_mod, Hc, <- Zminus_mod; done).
      replace (d + k - d) with k in Hm by lia. replace (d + idx - d) with idx in Hm by lia.
      rewrite !Z.mod_small in Hm by lia. done.
Qed.

(** An item written behind others leaves them as they are. *)
Lemma ring_write_behind l d i n t src :
  0 <= i < LOG_SIZE -> 0 <= t -> t + n <= LOG_SIZE -> 0 <= n <= zlen src -> d = (i + t) mod LOG_SIZE ->
  ring (ring_write l d 0 n src) i (t + n) = ring l i t ++ ztake n src.
Proof.
  intros Hi Ht Hn Hs ->. apply zlist_ext; [rewrite zlen_app, !zlen_ring, zlen_ztake; lia|].
  intros k Hk. rewrite zlen_ring in Hk by lia. rewrite znth_ring by lia. unfold ring_write.
  assert (((i + k) mod LOG_SIZE - (i + t) mod LOG_SIZE) mod LOG_SIZE = (k - t) mod LOG_SIZE) as ->.
  { rewrite <- Zminus_mod. f_equal. lia. }
  pose proof (Z.mod_pos_bound (i + k) LOG_SIZE ltac:(done)) as Hb.
  destruct (decide (k < t)) as [Hkt|Hkt].
  - rewrite znth_app_l by (rewrite zlen_ring; lia). rewrite znth_ring by lia. rewrite decide_False; [done|].
    rewrite <- (Z.mod_add (k - t) 1) by done. rewrite (Z.mod_small (k - t + _)) by (unfold LOG_SIZE in *; lia). lia.
  - rewrite znth_app_r by (rewrite zlen_ring; lia). rewrite zlen_ring by lia.
    rewrite (Z.mod_small (k - t)) by (unfold LOG_SIZE in *; lia). rewrite decide_True by lia.
    by rewrite znth_ztake by lia.
Qed.

(** ** The operations *)

Record log_rep s (es : list (list byte)) (slack : Z) : Prop := {
  lr_vars : vars_rep (log_buffer s) (log_state s) es slack;
  lr_empty : es = [] -> first_el_idx (log_state s) = 0 /\ slack = 0;
  lr_scratch : zlen (scratch_buffer s) = LOG_SIZE;
}.

(** A new item behind the others. *)
Lemma vars_add l l' v es slack e :
  vars_rep l v es slack -> item_ok e -> total es + slack + zlen e <= LOG_SIZE ->
  ring l' (first_el_idx v) (total es + zlen e) = ring l (first_el_idx v) (total es) ++ e ->
  vars_rep l' (LogVars (first_el_idx v) ((first_el_idx v + total es) mod LOG_SIZE) (u32 (num_items v + 1))
                 (u32 (stored_size v + zlen e))) (es ++ [e]) slack.
Proof.
  intros [H1 H2 H3 H4 H5 H6 H7 H8] He Hfit Hr. pose proof (items_few es H2). pose proof (log_total_nonneg es).
  assert (total (es ++ [e]) = total es + zlen e) as Ht
    by (rewrite total_app, total_cons; change (total []) with 0; lia).
  unfold LOG_SIZE in Hfit.
  constructor; cbn [first_el_idx last_el_idx num_items stored_size]; try done.
  - apply Forall_app. by split; [|constructor].
  - unfold items_at in *. rewrite Ht, Hr, H3, List.concat_app. cbn. by rewrite app_nil_r.
  - rewrite H4, length_app. cbn [length]. rewrite u32_small by lia. lia.
  - rewrite H5, Ht, u32_small by lia. lia.
  - rewrite Ht. unfold LOG_SIZE. lia.
  - intros es0 e0 [-> _]%app_inj_tail. done.
Qed.

Lemma init_spec s :
  zlen (scratch_buffer s) = LOG_SIZE ->
  exists s', log_core_init s = (Ok TFM_LOG_ERR_SUCCESS, s') /\ log_rep s' [] 0 /\
    global_timestamp s' = global_timestamp s /\ log_core s' = log_core s.
Proof. intros Hs. eexists. split; [reflexivity|]. split; [|done]. by split; [apply vars_reset| |]. Qed.

Lemma get_info_spec s es slack :
  log_rep s es slack -> log_core_get_info s = (Ok (LogInfo (total es + slack) (zlen es)), s).
Proof.
  intros [Hv _ _]. unfold log_core_get_info. erewrite bind_Ok by reflexivity. unfold ret.
  by rewrite (vr_stored _ _ _ _ Hv), (vr_num _ _ _ _ Hv).
Qed.

(** Room for a new item. *)
Lemma position_spec need es slack s :
  log_rep s es slack -> need <= LOG_SIZE ->
  exists v' stop, let es' := (evict need slack es).1 in
    (if zlen es =? 0 then ret (0, need - 1) else log_replace_item need) s =
      (Ok ((first_el_idx v' + total es') mod LOG_SIZE, stop), set_log_state v' s) /\
    vars_rep (log_buffer s) v' es' (evict need slack es).2 /\ total es' + (evict need slack es).2 + need <= LOG_SIZE.
Proof.
  intros Hr Hn. destruct (Z.eqb_spec (zlen es) 0) as [H0|H0]; [|by apply replace_item_spec; [apply Hr|]].
  destruct es; [|done]. destruct (lr_empty _ _ _ Hr eq_refl) as [Hf ->].
  exists (log_state s), (need - 1). cbn [evict]. change (total []) with 0.
  destruct (Z.ltb_spec (LOG_SIZE - (0 + 0)) need); [lia|]. cbn [fst snd]. change (total []) with 0. rewrite Hf.
  split; [by destruct s|]. split; [apply Hr|lia].
Qed.

Lemma add_spec line es slack s :
  log_rep s es slack -> core_validate_secure_caller (log_core s) = (Ok TFM_SUCCESS, log_core s) -> line_fits line ->
  exists s', log_core_add_line line s = (Ok TFM_LOG_ERR_SUCCESS, s') /\
    log_rep s' ((evict (line_size line + 24) slack es).1 ++ [item (global_timestamp s) line])
               (evict (line_size line + 24) slack es).2 /\
    global_timestamp s' = u64 (global_timestamp s + 1) /\ log_core s' = log_core s.
Proof.
  intros Hr Hc Hf. pose proof (item_ok_line (global_timestamp s) line Hf) as Hio.
  pose proof (zlen_item (global_timestamp s) line Hf) as Hz. pose proof Hf as (Hm & Hs & Hl).
  assert (COMPUTE_LOG_ENTRY_SIZE (line_size line) = line_size line + 24) as Hsz.
  { rewrite <- Hz. rewrite <- (entry_size _ Hio), Hz. f_equal. lia. }
  unfold log_core_add_line. rewrite (bind_Ok _ _ _ TFM_SUCCESS s) by (unfold log_ask_core; rewrite Hc; by destruct s).
  cbn [Z.eqb TFM_SUCCESS negb]. rewrite (proj2 (Z.leb_le 4 (zlen line))) by lia. cbn [in_bounds].
  erewrite bind_Ok by reflexivity. cbv zeta. fold (line_size line). rewrite Hm. cbn [Z.eqb negb].
  destruct (Z.ltb_spec (LOG_SIZE - (LOG_FIXED_FIELD_SIZE + LOG_MAC_SIZE)) (line_size line)) as [Hbad|_];
    [unfold LOG_FIXED_FIELD_SIZE, LOG_MAC_SIZE in Hbad; lia|].
  rewrite (bind_Ok _ _ _ _ _ (get_info_spec s es slack Hr)). cbn [info_num_items]. rewrite Hsz.
  set (need := line_size line + 24) in *.
  destruct (position_spec need es slack s Hr ltac:(lia)) as (v' & stop & E & Hv' & Hfit).
  set (es' := (evict need slack es).1) in *. set (slack' := (evict need slack es).2) in *.
  rewrite (bind_Ok _ _ _ _ _ E). cbn [fst].
  destruct (format_spec line (set_log_state v' s) Hf (lr_scratch _ _ _ Hr)) as (rest & Ef & Hrest).
  rewrite (bind_Ok _ _ _ _ _ Ef). change (global_timestamp (set_log_state v' s)) with (global_timestamp s) in *.
  erewrite bind_Ok by reflexivity. cbn [scratch_buffer set_timestamp set_scratch].
  pose proof (Z.mod_pos_bound (first_el_idx v' + total es') LOG_SIZE ltac:(done)) as Hstart.
  set (start := (first_el_idx v' + total es') mod LOG_SIZE) in *.
  set (s2 := set_timestamp _ _). set (e := item (global_timestamp s) line) in *.
  destruct (buffer_copy_spec (Z.to_nat need) 0 start (e ++ rest) s2) as (l' & Ec & Hl');
    [done|lia|lia|rewrite zlen_app; lia|].
  erewrite (bind_Ok (log_buffer_copy _ _ _)).
  2:{ unfold log_buffer_copy. destruct (Z.leb_spec LOG_SIZE start), (Z.ltb_spec LOG_SIZE need); try lia. cbn [orb].
      rewrite (bind_Ok _ _ _ _ _ Ec). reflexivity. }
  do 3 erewrite bind_Ok by reflexivity. eexists. split; [reflexivity|]. split; [|done].
  cbn [log_state set_log_buffer set_log_state s2 set_timestamp set_scratch]. constructor; cbn.
  - replace need with (zlen e) by done. apply (vars_add (log_buffer s)); [done|done|lia|].
    rewrite (ring_ext _ _ _ _ Hl'). change (log_buffer s2) with (log_buffer s).
    rewrite Z2Nat.id by lia. rewrite Hz.
    rewrite (ring_write_behind _ start (first_el_idx v') need (total es')); try done.
    + f_equal. rewrite <- Hz. apply ztake_app. done.
    + apply (vr_first _ _ _ _ Hv').
    + apply log_total_nonneg.
    + pose proof (vr_slack _ _ _ _ Hv'). lia.
    + rewrite zlen_app. lia.
  - intros Habs. by destruct es'.
  - done.
Qed.

Lemma add_refused line s v :
  core_validate_secure_caller (log_core s) = (Ok v, log_core s) -> 4 <= zlen line ->
  v <> TFM_SUCCESS \/ line_size line mod 4 <> 0 \/ LOG_SIZE - 24 < line_size line ->
  log_core_add_line line s = (Ok TFM_LOG_ERR_FAILURE, s).
Proof.
  intros Hc Hl Hbad. unfold log_core_add_line.
  rewrite (bind_Ok _ _ _ v s) by (unfold log_ask_core; rewrite Hc; by destruct s).
  destruct (Z.eqb_spec v TFM_SUCCESS) as [->|Hv]; cbn [negb]; [|done].
  rewrite (proj2 (Z.leb_le 4 (zlen line))) by lia. cbn [in_bounds]. erewrite bind_Ok by reflexivity.
  cbv zeta. fold (line_size line). destruct (Z.eqb_spec (line_size line mod 4) 0) as [Hm|Hm]; cbn [negb]; [|done].
  destruct (Z.ltb_spec (LOG_SIZE - (LOG_FIXED_FIELD_SIZE + LOG_MAC_SIZE)) (line_size line)) as [_|Hok]; [done|].
  unfold LOG_FIXED_FIELD_SIZE, LOG_MAC_SIZE in Hok. destruct Hbad as [?|[?|?]]; [done|done|lia].
Qed.

Lemma total_take_drop n es : total (take n es) + total (drop n es) = total es.
Proof. by rewrite <- total_app, take_drop. Qed.

(** The first [n] items are deleted, their space is not given back. *)
Lemma vars_delete l v es slack n :
  vars_rep l v es slack -> (n < length es)%nat ->
  vars_rep l (LogVars ((first_el_idx v + total (take n es)) mod LOG_SIZE) (last_el_idx v)
                (u32 (num_items v - Z.of_nat n)) (stored_size v)) (drop n es) (slack + total (take n es)).
Proof.
  intros [H1 H2 H3 H4 H5 H6 H7 H8] Hn. pose proof (items_few es H2) as Hfew.
  pose proof (total_take_drop n es) as Ht. pose proof (log_total_nonneg (take n es)).
  rewrite <- (take_drop n es) in H2, H3. apply Forall_app in H2 as [H2a H2b]. apply items_app in H3 as [_ H3].
  constructor; cbn [first_el_idx last_el_idx num_items stored_size]; try done.
  - apply ring_index_add; [done|]. by apply total_mod.
  - rewrite H4, length_drop. unfold LOG_SIZE in H7. rewrite u32_small by lia. lia.
  - rewrite H5. lia.
  - lia.
  - lia.
  - intros es0 e E. rewrite (H8 (take n es ++ es0) e); [by rewrite total_app, ring_walk|].
    by rewrite <- app_assoc, <- E, take_drop.
Qed.

Lemma delete_spec n es slack s :
  log_rep s es slack -> 0 <= n ->
  exists s', log_core_delete_items n false s = (Ok (TFM_LOG_ERR_SUCCESS, Some (Z.min n (zlen es))), s') /\
    global_timestamp s' = global_timestamp s /\ log_core s' = log_core s /\
    if decide (n < zlen es) then log_rep s' (drop (Z.to_nat n) es) (slack + total (take (Z.to_nat n) es))
    else log_rep s' [] 0.
Proof.
  intros Hr Hn. pose proof (lr_vars _ _ _ Hr) as Hv. unfold log_core_delete_items.
  rewrite (bind_Ok _ _ _ _ _ (eq_refl : gets log_state s = (Ok _, s))). rewrite (vr_num _ _ _ _ Hv).
  destruct (Z.leb_spec (zlen es) n) as [Hle|Hlt].
  - erewrite bind_Ok by reflexivity. unfold ret. rewrite Z.min_r by lia. eexists. split; [reflexivity|].
    split; [done|]. split; [done|]. rewrite decide_False by lia. split; [apply vars_reset|done|apply (lr_scratch _ _ _ Hr)].
  - rewrite (bind_Ok _ _ _ _ _ (skip_items_spec (Z.to_nat n) _ es s (vr_first _ _ _ _ Hv) (vr_items _ _ _ _ Hv)
      (vr_at _ _ _ _ Hv) ltac:(lia))).
    erewrite bind_Ok by reflexivity. unfold ret. rewrite Z.min_l by lia. eexists. split; [reflexivity|].
    split; [done|]. split; [done|]. rewrite decide_True by lia. constructor.
    + pose proof (vars_delete _ _ _ _ (Z.to_nat n) Hv ltac:(lia)) as H. by rewrite Z2Nat.id in H by lia.
    + intros E. apply (f_equal length) in E. rewrite length_drop in E. cbn in E. lia.
    + apply (lr_scratch _ _ _ Hr).
Qed.

(** ** Retrieval *)

(** The most recent items that fit. *)
Fixpoint recent (size : Z) (es : list (list byte)) : list (list byte) :=
  if total es <=? size then es else match es with [] => [] | _ :: es => recent size es end.

(** The first items that fit. *)
Fixpoint leading (size : Z) (es : list (list byte)) : list (list byte) :=
  match es with
  | [] => []
  | e :: es => if zlen e <=? size then e :: leading (size - zlen e) es else []
  end.

Lemma ring_distance i t :
  0 <= i < LOG_SIZE -> 0 <= t < LOG_SIZE ->
  (if i <=? (i + t) mod LOG_SIZE then (i + t) mod LOG_SIZE - i else LOG_SIZE - i + (i + t) mod LOG_SIZE) = t.
Proof.
  unfold LOG_SIZE. intros Hi Ht. destruct (decide (i + t < 1024)).
  - rewrite Z.mod_small by lia. destruct (Z.leb_spec i (i + t)); lia.
  - rewrite <- (Z.mod_add (i + t) (-1)) by lia. rewrite Z.mod_small by lia. destruct (Z.leb_spec i (i + t + -1 * 1024)); lia.
Qed.

Lemma copy_items i es s :
  ring_index i -> items_at (log_buffer s) i es -> total es <= LOG_SIZE ->
  retrieve_copy i (total es) s = (Ok (List.concat es), s).
Proof.
  intros [Hi _] Hat Ht. unfold retrieve_copy, gets. do 2 f_equal. rewrite <- Hat. unfold ring. apply list_fmap_ext.
  intros k z Hk%lookup_seqZ. unfold LOG_SIZE in *. by rewrite u32_small by lia.
Qed.

Lemma min_size (size t : Z) : (if size <? t then size else t) = Z.min size t.
Proof. destruct (Z.ltb_spec size t); lia. Qed.

Lemma recent_loop_spec fuel i es size empty s :
  ring_index i -> Forall item_ok es -> items_at (log_buffer s) i es -> total es <= LOG_SIZE -> 0 <= size ->
  empty = (i + total es) mod LOG_SIZE -> (length es <= fuel)%nat ->
  exists i', retrieve_recent_loop fuel empty i (zlen es) (total es) (Z.min size (total es)) s =
      (Ok (i', zlen (recent size es), total (recent size es), total (recent size es)), s) /\
    ring_index i' /\ items_at (log_buffer s) i' (recent size es) /\ total (recent size es) <= LOG_SIZE.
Proof.
  revert fuel i. induction es as [|e es IH]; intros fuel i Hi Hes Hat Ht Hs He Hf.
  { exists i. change (total []) with 0. rewrite Z.min_r by lia. cbn [recent]. change (total []) with 0.
    destruct (Z.leb_spec 0 size); [|lia]. destruct fuel; done. }
  cbn [recent]. destruct (Z.leb_spec (total (e :: es)) size) as [Hle|Hgt].
  { exists i. rewrite Z.min_r by lia. split; [|done]. destruct fuel; cbn [retrieve_recent_loop];
      destruct (Z.ltb_spec (total (e :: es)) (total (e :: es))); done || lia. }
  destruct fuel as [|fuel]; [cbn in Hf; lia|]. cbn [retrieve_recent_loop].
  destruct (Z.ltb_spec (Z.min size (total (e :: es))) (total (e :: es))) as [_|Hbad]; [|lia].
  apply Forall_cons_1 in Hes as [Hie Hes']. apply items_cons in Hat as [Hr Hat]. rewrite total_cons in *.
  pose proof (log_total_nonneg es). pose proof (items_few es Hes') as Hfew. pose proof Hie as (_ & Hm & Hb).
  rewrite (bind_Ok _ _ _ _ _ (next_at s i e Hi Hie Hr)). cbv zeta.
  pose proof (ring_index_add i (zlen e) Hi Hm) as Hi'. rewrite <- ring_walk in He.
  assert ((if (i + zlen e) mod LOG_SIZE <=? empty then empty - (i + zlen e) mod LOG_SIZE
           else LOG_SIZE - (i + zlen e) mod LOG_SIZE + empty) = total es) as ->
    by (rewrite He; apply ring_distance; [apply Hi'|lia]).
  rewrite Z.min_l by lia.
  replace (if total es <? size then total es else size) with (Z.min size (total es))
    by (destruct (Z.ltb_spec (total es) size); lia).
  replace (u32 (zlen (e :: es) - 1)) with (zlen es)
    by (cbn [length]; unfold LOG_SIZE in *; rewrite u32_small by lia; lia).
  apply IH; try done; [lia|cbn in Hf; lia].
Qed.

Lemma retrieve_recent_spec fuel size es s :
  log_rep s es 0 -> 0 < size -> (length es <= fuel)%nat ->
  log_core_retrieve fuel size TFM_LOG_READ_RECENT s =
    (Ok (TFM_LOG_ERR_SUCCESS, LogInfo (total (recent size es)) (zlen (recent size es)),
         List.concat (recent size es)), s).
Proof.
  intros Hr Hs Hf. pose proof (lr_vars _ _ _ Hr) as Hv. unfold log_core_retrieve.
  destruct (Z.eqb_spec size 0); [lia|]. rewrite (bind_Ok _ _ _ _ _ (get_info_spec s es 0 Hr)).
  cbn [info_num_items info_size]. rewrite Z.add_0_r. cbv zeta. destruct (Z.eqb_spec (zlen es) 0) as [E0|E0].
  { destruct es; [|done]. cbn [recent]. destruct (Z.leb_spec (total []) size) as [_|Hbad]; [done|].
    change (total []) with 0 in Hbad. lia. }
  rewrite (bind_Ok _ _ _ _ _ (eq_refl : gets log_state s = (Ok _, s))). cbn [Z.eqb TFM_LOG_READ_RECENT Pos.eqb].
  rewrite (bind_Ok _ _ _ _ _ (next_empty _ es 0 s Hv ltac:(by destruct es))). rewrite min_size.
  destruct (recent_loop_spec fuel (first_el_idx (log_state s)) es size
    ((first_el_idx (log_state s) + total es) mod LOG_SIZE) s (vr_first _ _ _ _ Hv) (vr_items _ _ _ _ Hv)
    (vr_at _ _ _ _ Hv)) as (i' & E & Hi' & Hat & Ht); [pose proof (vr_fits _ _ _ _ Hv); lia|lia|done|done|].
  rewrite (bind_Ok _ _ _ _ _ E). cbv iota beta.
  destruct (Z.eqb_spec (total (recent size es)) 0) as [E1|E1].
  - assert (Forall item_ok (recent size es)) as Hro.
    { pose proof (vr_items _ _ _ _ Hv) as Hes. clear -Hes. induction Hes as [|e es ? ? IH]; cbn [recent].
      - by destruct (_ <=? _).
      - destruct (_ <=? _); [by constructor|done]. }
    pose proof (items_few _ Hro). destruct (recent size es); [done|]. cbn [length] in *. lia.
  - by rewrite (bind_Ok _ _ _ _ _ (copy_items i' _ s Hi' Hat Ht)).
Qed.

Lemma from_loop_spec fuel i es stored n size s :
  ring_index i -> Forall item_ok es -> items_at (log_buffer s) i es -> 0 <= n -> n + zlen es <= LOG_SIZE ->
  0 <= stored <= size -> size < stored + total es -> stored + total es <= LOG_SIZE -> (length es <= fuel)%nat ->
  retrieve_from_loop fuel i stored n size s =
    (Ok (stored + total (leading (size - stored) es), n + zlen (leading (size - stored) es)), s).
Proof.
  revert fuel i stored n. induction es as [|e es IH]; intros fuel i stored n Hi Hes Hat Hn Hnn Hst Hsz Hfit Hf.
  { change (total []) with 0 in Hsz. lia. }
  apply Forall_cons_1 in Hes as [Hie Hes']. apply items_cons in Hat as [Hr Hat]. rewrite total_cons in *.
  pose proof (log_total_nonneg es). unfold LOG_SIZE in Hfit, Hnn. cbn [length] in Hnn, Hf.
  destruct fuel as [|fuel]; [lia|]. cbn [retrieve_from_loop].
  rewrite (bind_Ok _ _ _ _ _ (size_field_at s i e Hi Hie Hr)), entry_size, u32_small by (done || lia).
  cbn [leading]. destruct (Z.leb_spec (stored + zlen e) size) as [Hle|Hgt].
  - rewrite (proj2 (Z.leb_le (zlen e) (size - stored))) by lia.
    rewrite (bind_Ok _ _ _ _ _ (next_at s i e Hi Hie Hr)), u32_small by lia.
    rewrite IH; try done; [|by apply ring_index_add; [|apply Hie]|lia|unfold LOG_SIZE; lia|lia|lia|unfold LOG_SIZE; lia|lia].
    rewrite total_cons. cbn [length]. replace (size - (stored + zlen e)) with (size - stored - zlen e) by lia.
    do 3 f_equal; lia.
  - destruct (Z.leb_spec (zlen e) (size - stored)); [lia|]. change (total []) with 0. cbn [length].
    unfold ret. do 3 f_equal; lia.
Qed.

Lemma leading_prefix size es : exists fs, es = leading size es ++ fs.
Proof.
  revert size. induction es as [|e es IH]; intros size; [by exists []|]. cbn [leading].
  destruct (_ <=? _); [|by exists (e :: es)]. destruct (IH (size - zlen e)) as [fs Hfs].
  exists fs. cbn [app]. by f_equal.
Qed.

Lemma retrieve_from_spec fuel size k es s :
  log_rep s es 0 -> (k < length es)%nat -> 0 < size < total (drop k es) -> (length es <= fuel)%nat ->
  log_core_retrieve fuel size (Z.of_nat k) s =
    (Ok (TFM_LOG_ERR_SUCCESS, LogInfo (total (leading size (drop k es))) (zlen (leading size (drop k es))),
         List.concat (leading size (drop k es))), s).
Proof.
  intros Hr Hk Hs Hf. pose proof (lr_vars _ _ _ Hr) as Hv. pose proof (total_take_drop k es) as Htd.
  pose proof (log_total_nonneg (take k es)). pose proof (items_few es (vr_items _ _ _ _ Hv)) as Hfew.
  pose proof (vr_fits _ _ _ _ Hv) as Hfits. unfold LOG_SIZE in Hfits. unfold log_core_retrieve.
  destruct (Z.eqb_spec size 0); [lia|]. rewrite (bind_Ok _ _ _ _ _ (get_info_spec s es 0 Hr)).
  cbn [info_num_items info_size]. rewrite Z.add_0_r. cbv zeta. destruct (Z.eqb_spec (zlen es) 0); [lia|].
  rewrite (bind_Ok _ _ _ _ _ (eq_refl : gets log_state s = (Ok _, s))).
  destruct (Z.eqb_spec (Z.of_nat k) TFM_LOG_READ_RECENT); [unfold TFM_LOG_READ_RECENT in *; lia|].
  rewrite u32_small by lia. destruct (Z.ltb_spec (Z.of_nat k) (zlen es)); [|lia]. rewrite Nat2Z.id, min_size, Z.min_l by lia.
  rewrite (bind_Ok _ _ _ _ _ (skip_items_spec k _ es s (vr_first _ _ _ _ Hv) (vr_items _ _ _ _ Hv) (vr_at _ _ _ _ Hv) ltac:(lia))).
  pose proof (vr_items _ _ _ _ Hv) as Hio. pose proof (vr_at _ _ _ _ Hv) as Hat.
  rewrite <- (take_drop k es) in Hio, Hat. apply Forall_app in Hio as [Hio1 Hio2]. apply items_app in Hat as [_ Hat].
  pose proof (ring_index_add _ _ (vr_first _ _ _ _ Hv) (total_mod _ Hio1)) as Hi.
  set (i := (first_el_idx (log_state s) + total (take k es)) mod LOG_SIZE) in *.
  assert (length (drop k es) <= length es)%nat as Hdl by (rewrite length_drop; lia).
  destruct (drop k es) as [|e fs] eqn:Ed; [change (total []) with 0 in Hs; lia|].
  apply Forall_cons_1 in Hio2 as [Hie Hio2]. pose proof Hat as [Hr1 Hat2]%items_cons.
  rewrite (bind_Ok _ _ _ _ _ (size_field_at s i e Hi Hie Hr1)), entry_size by done. cbn [leading].
  destruct (Z.ltb_spec size (zlen e)), (Z.leb_spec (zlen e) size); try lia; [done|].
  rewrite (bind_Ok _ _ _ _ _ (next_at s i e Hi Hie Hr1)). rewrite total_cons in *. cbn [length] in *.
  rewrite (bind_Ok _ _ _ _ _ (from_loop_spec fuel _ fs (zlen e) 1 size s
    (ring_index_add _ _ Hi (proj1 (proj2 Hie))) Hio2 Hat2 ltac:(lia) ltac:(unfold LOG_SIZE; lia) ltac:(lia) ltac:(lia)
    ltac:(unfold LOG_SIZE; lia) ltac:(lia))).
  cbv iota beta. destruct (leading_prefix (size - zlen e) fs) as [gs Hgs].
  pose proof (f_equal total Hgs) as Htot. rewrite total_app in Htot. pose proof (log_total_nonneg gs).
  assert (items_at (log_buffer s) i (e :: leading (size - zlen e) fs)) as Hat3.
  { apply items_cons. split; [done|]. rewrite Hgs in Hat2. by apply items_app in Hat2 as [? _]. }
  rewrite <- total_cons. rewrite (bind_Ok _ _ _ _ _ (copy_items i _ s Hi Hat3 ltac:(rewrite total_cons; unfold LOG_SIZE; lia))).
  unfold ret. replace (1 + zlen (leading (size - zlen e) fs)) with (zlen (e :: leading (size - zlen e) fs))
    by (cbn [length]; lia). done.
Qed.
End walk.
