(* ===== verification/AuditLogClaims.v ===== *)
(** * The claims about the audit log

    Every sequence of calls behaves like a queue that forgets its oldest items, as
    long as deletions take all items and a retrieval by index asks for less than
    what follows; with other deletions it behaves like a queue that keeps counting
    the bytes it has deleted; a retrieval by index that never returns. *)

From S2P Require Import Prelude SstDefs SstObjectSpec Mpu SpmHal Spm SecureApi CoreInterface CoreBoard CoreLaws SstAssetClaims AuditLog AuditLogSpec.

(** ** Calls and what they return *)

Inductive log_op :=
  | LogAdd (line : list byte)
  | LogDelete (n : Z)
  | LogGetInfo
  | LogInit
  | LogRetrieve (size start : Z).

Inductive log_out :=
  | OutCode (r : Z)
  | OutDeleted (r : Z * option Z)
  | OutInfo (i : tfm_log_info)
  | OutItems (r : Z) (i : tfm_log_info) (bytes : list byte).

Definition line_accepted (line : list byte) : bool :=
  (line_size line mod 4 =? 0) && (line_size line <=? LOG_SIZE - 24).

(** ** The queue

    Its items, the oldest first, and the next time stamp. *)
Record log_queue := Queue {
  q_items : list (list byte);
  q_time : Z;
}.

(** The oldest items are forgotten until there is room. *)
Fixpoint forget (need : Z) (es : list (list byte)) : list (list byte) :=
  if LOG_SIZE - total es <? need then match es with [] => [] | _ :: es => forget need es end else es.

(** Whole items, with their size and number. *)
Definition items_out (es : list (list byte)) : log_out :=
  OutItems TFM_LOG_ERR_SUCCESS (LogInfo (total es) (zlen es)) (List.concat es).

Definition no_items (r : Z) : log_out := OutItems r (LogInfo 0 0) [].

Definition queue_op (sec : bool) (op : log_op) (q : log_queue) : log_out * log_queue :=
  match op with
  | LogAdd line =>
      if sec && line_accepted line
      then (OutCode TFM_LOG_ERR_SUCCESS,
            Queue (forget (line_size line + 24) (q_items q) ++ [item (q_time q) line]) (u64 (q_time q + 1)))
      else (OutCode TFM_LOG_ERR_FAILURE, q)
  | LogDelete n =>
      (OutDeleted (TFM_LOG_ERR_SUCCESS, Some (Z.min n (zlen (q_items q)))), Queue (drop (Z.to_nat n) (q_items q)) (q_time q))
  | LogGetInfo => (OutInfo (LogInfo (total (q_items q)) (zlen (q_items q))), q)
  | LogInit => (OutCode TFM_LOG_ERR_SUCCESS, Queue [] (q_time q))
  | LogRetrieve size start =>
      (if size =? 0 then no_items TFM_LOG_ERR_FAILURE
       else if bool_decide (q_items q = []) then no_items TFM_LOG_ERR_SUCCESS
       else if start =? TFM_LOG_READ_RECENT then items_out (recent size (q_items q))
       else if u32 start <? zlen (q_items q) then items_out (leading size (drop (Z.to_nat (u32 start)) (q_items q)))
       else no_items TFM_LOG_ERR_FAILURE, q)
  end.

(** What the callers keep to: the line's memory is as long as its size field says,
    a deletion takes all items or none, and a retrieval by index asks for less
    than the items from the index on. *)
Definition log_op_ok (op : log_op) (q : log_queue) : Prop :=
  match op with
  | LogAdd line => 4 <= zlen line /\ (line_accepted line = true -> line_size line + 4 <= zlen line)
  | LogDelete n => n = 0 \/ zlen (q_items q) <= n
  | LogRetrieve size start =>
      is_u32 size /\ (size = 0 \/ start = TFM_LOG_READ_RECENT \/ zlen (q_items q) <= u32 start \/
        (0 <= start < 2 ^ 31 /\ size < total (drop (Z.to_nat start) (q_items q))))
  | _ => True
  end.

(** ** The queue with its bytes counted as the code counts them

    The bytes of deleted items are not given back while items are left. *)
Record lossy_queue := Lossy {
  lq_items : list (list byte);
  lq_slack : Z;
  lq_time : Z;
}.

Definition lossy_op (sec : bool) (op : log_op) (q : lossy_queue) : log_out * lossy_queue :=
  match op with
  | LogAdd line =>
      if sec && line_accepted line
      then let '(es, slack) := evict (line_size line + 24) (lq_slack q) (lq_items q) in
           (OutCode TFM_LOG_ERR_SUCCESS, Lossy (es ++ [item (lq_time q) line]) slack (u64 (lq_time q + 1)))
      else (OutCode TFM_LOG_ERR_FAILURE, q)
  | LogDelete n =>
      (OutDeleted (TFM_LOG_ERR_SUCCESS, Some (Z.min n (zlen (lq_items q)))),
       if decide (n < zlen (lq_items q))
       then Lossy (drop (Z.to_nat n) (lq_items q)) (lq_slack q + total (take (Z.to_nat n) (lq_items q))) (lq_time q)
       else Lossy [] 0 (lq_time q))
  | LogGetInfo => (OutInfo (LogInfo (total (lq_items q) + lq_slack q) (zlen (lq_items q))), q)
  | LogInit => (OutCode TFM_LOG_ERR_SUCCESS, Lossy [] 0 (lq_time q))
  | LogRetrieve _ _ => (no_items TFM_LOG_ERR_FAILURE, q)
  end.

(** Any deletion, and no retrieval. *)
Definition lossy_op_ok (op : log_op) : Prop :=
  match op with
  | LogAdd line => 4 <= zlen line /\ (line_accepted line = true -> line_size line + 4 <= zlen line)
  | LogDelete n => 0 <= n
  | LogRetrieve _ _ => False
  | _ => True
  end.

Lemma evict_forget need es : evict need 0 es = (forget need es, 0).
Proof. induction es as [|e es IH]; cbn [evict forget]; rewrite Z.add_0_r; destruct (_ <? need); done. Qed.

Section claims.
  Context {C : Type} `{!tfm_core_ops C, !tfm_core_laws C}.
  Implicit Types s : log_sys C.

(** At most this many items of 24 bytes fit the log. *)
Definition log_fuel : nat := 42.

(** A call, each with its own state of the core. *)
Definition log_call (c : C) (op : log_op) (s : log_sys C) : outcome log_exit log_out * log_sys C :=
  let s := LogSys c (log_buffer s) (scratch_buffer s) (log_state s) (global_timestamp s) in
  match op with
  | LogAdd line => (r <- log_core_add_line line ;; ret (OutCode r)) s
  | LogDelete n => (r <- log_core_delete_items n false ;; ret (OutDeleted r)) s
  | LogGetInfo => (i <- log_core_get_info ;; ret (OutInfo i)) s
  | LogInit => (r <- log_core_init ;; ret (OutCode r)) s
  | LogRetrieve size start => (r <- log_core_retrieve log_fuel size start ;; ret (OutItems r.1.1 r.1.2 r.2)) s
  end.

Fixpoint log_run (cs : list (C * log_op)) (s : log_sys C) : list (outcome log_exit log_out) * log_sys C :=
  match cs with
  | [] => ([], s)
  | (c, op) :: cs =>
      let '(r, s) := log_call c op s in
      let '(rs, s) := log_run cs s in (r :: rs, s)
  end.

(** A queue given by its operation. *)
Fixpoint spec_run {Q} (step : bool -> log_op -> Q -> log_out * Q) (cs : list (C * log_op)) (q : Q) : list log_out * Q :=
  match cs with
  | [] => ([], q)
  | (c, op) :: cs =>
      let '(r, q) := step (caller_is_secure c) op q in
      let '(rs, q) := spec_run step cs q in (r :: rs, q)
  end.

Definition queue_run : list (C * log_op) -> log_queue -> list log_out * log_queue := spec_run queue_op.

Fixpoint calls_ok (cs : list (C * log_op)) (q : log_queue) : Prop :=
  match cs with
  | [] => True
  | (c, op) :: cs => core_serving c /\ log_op_ok op q /\ calls_ok cs (queue_op (caller_is_secure c) op q).2
  end.

Definition queue_rep s (q : log_queue) : Prop := log_rep s (q_items q) 0 /\ global_timestamp s = q_time q.
Definition lossy_rep s (q : lossy_queue) : Prop := log_rep s (lq_items q) (lq_slack q) /\ global_timestamp s = lq_time q.

Lemma line_size_nonneg line : 4 <= zlen line -> 0 <= line_size line.
Proof.
  intros Hl. apply get32_bound. apply Nat2Z.inj. by rewrite zlen_slice by lia.
Qed.

Lemma lossy_call_spec c op s q :
  lossy_rep s q -> core_serving c -> lossy_op_ok op ->
  exists s', log_call c op s = (Ok (lossy_op (caller_is_secure c) op q).1, s') /\
    lossy_rep s' (lossy_op (caller_is_secure c) op q).2.
Proof.
  intros [Hr Ht] Hc Hop. unfold log_call. set (s0 := LogSys c _ _ _ _).
  assert (log_rep s0 (lq_items q) (lq_slack q)) as Hr0 by (by destruct Hr; constructor).
  destruct op as [line|n| | |size start]; cbn [lossy_op lossy_op_ok] in *; [..|done].
  - destruct (validate_caller_law c Hc) as (v & Ev & Hv). destruct Hop as [Hl Hline].
    pose proof (line_size_nonneg line Hl) as Hp. destruct (caller_is_secure c && line_accepted line) eqn:Eok.
    + apply andb_true_iff in Eok as [Ec Ea]. rewrite Ec in Hv. apply Z.eqb_eq in Hv as ->. specialize (Hline Ea).
      apply andb_true_iff in Ea as [Em%Z.eqb_eq Es%Z.leb_le].
      destruct (add_spec line (lq_items q) (lq_slack q) s0 Hr0 Ev) as (s' & E & Hr' & Ht' & _); [by split_and!|].
      exists s'. rewrite (bind_Ok _ _ _ _ _ E). cbn [global_timestamp s0] in *. rewrite Ht in *.
      destruct (evict _ _ _) as [es slack]. done.
    + exists s0. rewrite (bind_Ok _ _ s0 TFM_LOG_ERR_FAILURE s0); [done|]. eapply add_refused; [exact Ev|done|].
      apply andb_false_iff in Eok as [Ec|Ea].
      * left. rewrite Ec in Hv. by apply Z.eqb_neq.
      * right. apply andb_false_iff in Ea as [Em%Z.eqb_neq|Es%Z.leb_gt]; [by left|right; lia].
  - destruct (delete_spec n (lq_items q) (lq_slack q) s0 Hr0 Hop) as (s' & E & Ht' & _ & Hr'). exists s'.
    rewrite (bind_Ok _ _ _ _ _ E). split; [done|]. unfold lossy_rep. rewrite Ht'. cbn [snd]. by case_decide.
  - exists s0. by rewrite (bind_Ok _ _ _ _ _ (get_info_spec s0 _ _ Hr0)).
  - destruct (init_spec s0 (lr_scratch _ _ _ Hr0)) as (s' & E & Hr' & Ht' & _). exists s'.
    rewrite (bind_Ok _ _ _ _ _ E). split; [done|]. split; [done|]. by rewrite Ht'.
Qed.

Lemma lossy_run_spec cs s q :
  lossy_rep s q -> Forall (fun k => core_serving k.1 /\ lossy_op_ok k.2) cs ->
  exists s', log_run cs s = (Ok <$> (spec_run lossy_op cs q).1, s') /\ lossy_rep s' (spec_run lossy_op cs q).2.
Proof.
  revert s q. induction cs as [|[c op] cs IH]; intros s q Hr Hcs; [by exists s|].
  apply Forall_cons_1 in Hcs as [[Hc Hop] Hcs]. destruct (lossy_call_spec c op s q Hr Hc Hop) as (s1 & E1 & Hr1).
  cbn [log_run spec_run]. rewrite E1. destruct (lossy_op _ op q) as [r q1]. cbn [fst snd] in *.
  destruct (IH s1 q1 Hr1 Hcs) as (s2 & E2 & Hr2). exists s2. rewrite E2. by destruct (spec_run lossy_op cs q1).
Qed.

(** With any deletions, and no retrieval, the log is the queue that keeps counting
    deleted bytes: the items are those of a queue, but the size it reports and the
    room it leaves for new items are not. *)
Theorem log_refines_lossy_queue cs s :
  zlen (scratch_buffer s) = LOG_SIZE -> Forall (fun k => core_serving k.1 /\ lossy_op_ok k.2) cs ->
  exists s1 s2, log_core_init s = (Ok TFM_LOG_ERR_SUCCESS, s1) /\
    log_run cs s1 = (Ok <$> (spec_run lossy_op cs (Lossy [] 0 (global_timestamp s))).1, s2) /\
    lossy_rep s2 (spec_run lossy_op cs (Lossy [] 0 (global_timestamp s))).2.
Proof.
  intros Hs Hcs. destruct (init_spec s Hs) as (s1 & E1 & Hr1 & Ht1 & _).
  destruct (lossy_run_spec cs s1 (Lossy [] 0 (global_timestamp s)) (conj Hr1 Ht1) Hcs) as (s2 & E2 & Hr2). by exists s1, s2.
Qed.

(** Without bytes of deleted items the two queues agree. *)
Lemma lossy_agrees sec op q : (match op with LogRetrieve _ _ => False | _ => log_op_ok op q end) ->
  lossy_op sec op (Lossy (q_items q) 0 (q_time q)) =
    let '(r, q') := queue_op sec op q in (r, Lossy (q_items q') 0 (q_time q')).
Proof.
  destruct q as [es t], op as [line|n| | |size start]; cbn [lossy_op queue_op lq_items lq_slack lq_time q_items q_time log_op_ok];
    intros Hop; try done.
  - case_match; [by rewrite evict_forget|done].
  - do 2 f_equal. case_decide as Hn.
    + destruct Hop as [->|?]; [|lia]. done.
    + by rewrite drop_ge by lia.
  - by rewrite Z.add_0_r.
Qed.

(** Retrieval in the state of a queue. *)
Lemma retrieve_spec size start q s : log_rep s (q_items q) 0 -> log_op_ok (LogRetrieve size start) q ->
  (r <- log_core_retrieve log_fuel size start ;; ret (OutItems r.1.1 r.1.2 r.2)) s = (Ok (queue_op true (LogRetrieve size start) q).1, s).
Proof.
  intros Hr [Hsz Hop]. cbn [queue_op fst]. set (es := q_items q) in *. pose proof (lr_vars _ _ _ Hr) as Hv.
  assert (length es <= log_fuel)%nat as Hf.
  { pose proof (items_few es (vr_items _ _ _ _ Hv)). pose proof (vr_fits _ _ _ _ Hv). unfold LOG_SIZE, log_fuel in *. lia. }
  destruct (Z.eqb_spec size 0) as [->|H0]; [done|]. assert (0 < size) as Hpos by (destruct Hsz; lia).
  case_bool_decide as Ees.
  { assert (log_core_retrieve log_fuel size start s = (Ok (TFM_LOG_ERR_SUCCESS, LogInfo 0 0, []), s)) as E; [|by rewrite (bind_Ok _ _ _ _ _ E)].
    unfold log_core_retrieve. rewrite (proj2 (Z.eqb_neq size 0) H0), (bind_Ok _ _ _ _ _ (get_info_spec s es 0 Hr)). by rewrite Ees. }
  destruct (Z.eqb_spec start TFM_LOG_READ_RECENT) as [->|Hns].
  { by rewrite (bind_Ok _ _ _ _ _ (retrieve_recent_spec log_fuel size es s Hr Hpos Hf)). }
  destruct (Z.ltb_spec (u32 start) (zlen es)) as [Hlt|Hge].
  - destruct Hop as [?|[?|[?|[Hst Hle]]]]; [done|done|lia|]. rewrite u32_small in * by lia.
    pose proof (retrieve_from_spec log_fuel size (Z.to_nat start) es s Hr ltac:(lia) (conj Hpos Hle) Hf) as E.
    rewrite Z2Nat.id in E by lia. by rewrite (bind_Ok _ _ _ _ _ E).
  - assert (log_core_retrieve log_fuel size start s = (Ok (TFM_LOG_ERR_FAILURE, LogInfo 0 0, []), s)) as E; [|by rewrite (bind_Ok _ _ _ _ _ E)].
    unfold log_core_retrieve. rewrite (proj2 (Z.eqb_neq size 0) H0), (bind_Ok _ _ _ _ _ (get_info_spec s es 0 Hr)).
    cbn [info_num_items info_size]. destruct (Z.eqb_spec (zlen es) 0) as [E|_]; [by destruct es|]. cbv zeta.
    rewrite (bind_Ok _ _ _ _ _ (eq_refl : gets log_state s = (Ok _, s))), (proj2 (Z.eqb_neq _ _) Hns).
    by rewrite (proj2 (Z.ltb_ge _ _) Hge).
Qed.

Lemma log_call_spec c op s q :
  queue_rep s q -> core_serving c -> log_op_ok op q ->
  exists s', log_call c op s = (Ok (queue_op (caller_is_secure c) op q).1, s') /\
    queue_rep s' (queue_op (caller_is_secure c) op q).2.
Proof.
  intros [Hr Ht] Hc Hop. assert ((exists size start, op = LogRetrieve size start) \/ ~ exists size start, op = LogRetrieve size start) as [(size & start & ->)|Hnr].
  { destruct op; try (right; by intros (? & ? & ?)). left. by eexists _, _. }
  - exists (LogSys c (log_buffer s) (scratch_buffer s) (log_state s) (global_timestamp s)). split; [|split; [by destruct Hr; constructor|done]].
    unfold log_call. rewrite (retrieve_spec size start q); [done|by destruct Hr; constructor|done].
  - assert (match op with LogRetrieve _ _ => False | _ => log_op_ok op q end) as Hop'.
    { destruct op; try done. apply Hnr. by eexists _, _. }
    destruct (lossy_call_spec c op s (Lossy (q_items q) 0 (q_time q)) (conj Hr Ht) Hc) as (s' & E & Hr').
    { destruct op; try done. cbn in *. lia. }
    exists s'. rewrite (lossy_agrees _ _ _ Hop') in E, Hr'. by destruct (queue_op _ op q).
Qed.

Lemma log_run_spec cs s q :
  queue_rep s q -> calls_ok cs q ->
  exists s', log_run cs s = (Ok <$> (queue_run cs q).1, s') /\ queue_rep s' (queue_run cs q).2.
Proof.
  unfold queue_run. revert s q. induction cs as [|[c op] cs IH]; intros s q Hr Hcs; [by exists s|].
  destruct Hcs as (Hc & Hop & Hcs). destruct (log_call_spec c op s q Hr Hc Hop) as (s1 & E1 & Hr1).
  cbn [log_run spec_run]. rewrite E1. destruct (queue_op _ op q) as [r q1]. cbn [fst snd] in *.
  destruct (IH s1 q1 Hr1 Hcs) as (s2 & E2 & Hr2). exists s2. rewrite E2. by destruct (spec_run queue_op cs q1).
Qed.


(** While no space is lost to deletions, retrieval returns whole items: the
    most recent ones that fit the caller's size, or, from an index and when the
    size is smaller than what follows the index, the items from the index on
    that fit; it reports their size and number and changes nothing. *)
Theorem log_retrieve_exact (fuel : nat) size es s :
  log_rep s es 0 -> 0 < size -> (length es <= fuel)%nat ->
  log_core_retrieve fuel size TFM_LOG_READ_RECENT s =
    (Ok (TFM_LOG_ERR_SUCCESS, LogInfo (total (recent size es)) (zlen (recent size es)),
         List.concat (recent size es)), s) /\
  forall k, (k < length es)%nat -> size < total (drop k es) ->
    log_core_retrieve fuel size (Z.of_nat k) s =
      (Ok (TFM_LOG_ERR_SUCCESS, LogInfo (total (leading size (drop k es))) (zlen (leading size (drop k es))),
           List.concat (leading size (drop k es))), s).
Proof.
  intros Hr Hs Hf. split; [by apply retrieve_recent_spec|]. intros k Hk Hsz. apply retrieve_from_spec; done || lia.
Qed.
End claims.

(** ** The log on the AN521 *)

Module LogAn521.
Import An521Core AssetsAn521.
Local Existing Instances an521_core_layout an521_cmse an521_no_wrap an521_core_ops an521_core_laws.

(** A call of the test partition, and one of the non-secure side. *)
Definition from_test : tfm_state := in_thread_mode for_test.
Definition from_ns : tfm_state := in_thread_mode for_ns.

Definition start : log_sys tfm_state :=
  LogSys from_test (fun _ => Byte.x00) (zeros 1024) (LogVars 0 0 0 0) 0.

Definition words (n : nat) (w : Z) : list byte := List.concat (replicate n (put32 w)).
Definition line (n : nat) (w : Z) : list byte := put32 (4 * Z.of_nat n) ++ words n w.


Lemma calls_cons (sec : bool) op cs q q' :
  log_op_ok op q -> (queue_op sec op q).2 = q' -> calls_ok cs q' ->
  calls_ok ((if sec then from_test else from_ns, op) :: cs) q.
Proof.
  intros Hop <- Hcs. destruct sec; (split; [|split; [exact Hop|]]).
  - apply serving_test.
  - assert (caller_is_secure from_test = true) as -> by (vm_compute; reflexivity). exact Hcs.
  - apply serving_ns.
  - assert (caller_is_secure from_ns = false) as -> by (vm_compute; reflexivity). exact Hcs.
Qed.

Ltac call_by sec tac := eapply (calls_cons sec); [tac|vm_compute; reflexivity|].
Ltac by_bounds := vm_compute; repeat split; intros; congruence.



Lemma log_refines_lossy_queue_witness :
  exists s1 s2, log_core_init start = (Ok TFM_LOG_ERR_SUCCESS, s1) /\
    log_run [(from_test, LogAdd (line 5 1)); (from_test, LogAdd (line 3 2)); (from_test, LogDelete 1); (from_test, LogGetInfo)] s1 =
      ([Ok (OutCode 0); Ok (OutCode 0); Ok (OutDeleted (0, Some 1)); Ok (OutInfo (LogInfo 80 1))], s2).
Proof.
  destruct (log_refines_lossy_queue
    [(from_test, LogAdd (line 5 1)); (from_test, LogAdd (line 3 2)); (from_test, LogDelete 1); (from_test, LogGetInfo)] start)
    as (s1 & s2 & E1 & E2 & _); [reflexivity| |].
  - repeat constructor; cbn [fst snd]; try apply serving_test; vm_compute; intros; congruence.
  - exists s1, s2. split; [exact E1|]. rewrite E2. reflexivity.
Defined.

(** Three items. *)
Definition three_calls : list (tfm_state * log_op) :=
  [(from_test, LogAdd (line 5 1)); (from_test, LogAdd (line 3 2)); (from_test, LogAdd (line 4 3))].
Definition three : log_sys tfm_state := snd (log_run three_calls (snd (log_core_init start))).
Definition three_items : list (list byte) := [item 0 (line 5 1); item 1 (line 3 2); item 2 (line 4 3)].

Lemma three_rep : log_rep three three_items 0.
Proof.
  destruct (log_run_spec three_calls (snd (log_core_init start)) (Queue [] 0)) as (s' & E & Hr & _).
  - destruct (init_spec start eq_refl) as (s1 & E1 & Hr1 & Ht1 & _). rewrite E1. by split.
  - do 3 call_by true by_bounds. exact I.
  - unfold three. rewrite E. exact Hr.
Qed.

Lemma log_retrieve_exact_witness :
  (log_core_retrieve 10 90 TFM_LOG_READ_RECENT three =
    (Ok (TFM_LOG_ERR_SUCCESS, LogInfo (total (recent 90 three_items)) (zlen (recent 90 three_items)),
         List.concat (recent 90 three_items)), three) /\
  forall k, (k < length three_items)%nat -> 90 < total (drop k three_items) ->
    log_core_retrieve 10 90 (Z.of_nat k) three =
      (Ok (TFM_LOG_ERR_SUCCESS, LogInfo (total (leading 90 (drop k three_items)))
             (zlen (leading 90 (drop k three_items))), List.concat (leading 90 (drop k three_items))), three)) /\
  total three_items = 120 /\ recent 90 three_items = drop 1 three_items /\ leading 90 three_items = take 2 three_items.
Proof.
  split; [|vm_compute; auto].
  apply (log_retrieve_exact 10 90 three_items three).
  - apply three_rep.
  - lia.
  - cbn. lia.
Defined.

(** A large item of a chosen word, forgotten when a second one is added: what
    is left of it behind the second item reads as a size field. *)
Definition large : list byte := line 244 0xFFFFFFE8.
Definition small : list byte := line 3 0.
Definition after : log_sys tfm_state := snd (log_core_add_line small (snd (log_core_add_line large start))).

Lemma stale_size : GET_SIZE_FIELD 12 after = (Ok 0xFFFFFFE8, after).
Proof.
  unfold GET_SIZE_FIELD. change (u32 (12 + OFFSETOF_hdr_size) mod LOG_SIZE) with 28. cbv zeta.
  rewrite (bind_Ok _ _ _ tt after) by done. unfold gets.
  assert (get32 (mread (log_buffer after) 28 4) = 4294967272) as -> by (vm_compute; reflexivity). done.
Qed.

Lemma walk_is_stuck fuel n : retrieve_from_loop fuel 12 36 n 36 after = (Err LogLoops, after).
Proof.
  revert n. induction fuel as [|fuel IH]; intros n; cbn [retrieve_from_loop]; rewrite (bind_Ok _ _ _ _ _ stale_size).
  - done.
  - change (u32 (36 + COMPUTE_LOG_ENTRY_SIZE 4294967272)) with 36. cbn [Z.leb Z.compare Pos.compare Pos.compare_cont].
    rewrite (bind_Ok _ _ _ 12 after) by (unfold GET_NEXT_LOG_INDEX; rewrite (bind_Ok _ _ _ _ _ stale_size); done).
    apply IH.
Qed.

(** One small item before such a walk. *)
Lemma retrieve_stuck fuel (s : log_sys tfm_state) :
  log_state s = LogVars 1000 1000 1 36 -> GET_SIZE_FIELD 1000 s = (Ok 12, s) ->
  (forall n, retrieve_from_loop fuel 12 36 n 36 s = (Err LogLoops, s)) ->
  log_core_retrieve fuel 1024 0 s = (Err LogLoops, s).
Proof.
  intros Hs E1 Hw. unfold log_core_retrieve, log_core_get_info. cbn [Z.eqb].
  rewrite <- bind_assoc, (bind_Ok _ _ _ (LogVars 1000 1000 1 36) s) by (unfold gets; by rewrite Hs).
  rewrite (bind_Ok (ret _) _ s (LogInfo 36 1) s) by done. cbn [info_num_items info_size Z.eqb].
  rewrite (bind_Ok _ _ _ (LogVars 1000 1000 1 36) s) by (unfold gets; by rewrite Hs).
  cbn -[bind GET_SIZE_FIELD GET_NEXT_LOG_INDEX retrieve_from_loop].
  change (u32 0 <? 1) with true. cbv iota.
  rewrite (bind_Ok (skip_items_loop _ _) _ s 1000 s) by done. rewrite (bind_Ok _ _ _ _ _ E1).
  change (36 <? COMPUTE_LOG_ENTRY_SIZE 12) with false. cbv iota.
  rewrite (bind_Ok _ _ _ 12 s) by (unfold GET_NEXT_LOG_INDEX; rewrite (bind_Ok _ _ _ _ _ E1); done).
  change (COMPUTE_LOG_ENTRY_SIZE 12) with 36. by rewrite (bind_Err _ _ _ _ _ (Hw 1)).
Qed.

(** Retrieval by index can go on for ever: after two lines of a secure
    partition the walk over the items passes the last one, where the bytes of a
    forgotten item stand for a size that makes the next item zero bytes long.
    No number of iterations is enough. *)
Theorem retrieve_never_returns fuel :
  fst (log_core_add_line large start) = Ok TFM_LOG_ERR_SUCCESS /\
  fst (log_core_add_line small (snd (log_core_add_line large start))) = Ok TFM_LOG_ERR_SUCCESS /\
  fst (log_core_retrieve fuel 1024 0 after) = Err LogLoops.
Proof.
  split; [vm_compute; reflexivity|]. split; [vm_compute; reflexivity|].
  rewrite (retrieve_stuck fuel after); [done|vm_compute; reflexivity| |apply walk_is_stuck].
  unfold GET_SIZE_FIELD. change (u32 (1000 + OFFSETOF_hdr_size) mod LOG_SIZE) with 1016. cbv zeta.
  rewrite (bind_Ok _ _ _ tt after) by done. unfold gets.
  assert (get32 (mread (log_buffer after) 1016 4) = 12) as -> by (vm_compute; reflexivity). done.
Qed.
End LogAn521.
