(* ===== verification/Mpc.v ===== *)
(** * Memory protection controller driver

    [platform/ext/target/mps2/an521/native_drivers/mpc_sie200_drv.c] (the an519
    copy is the same file).  The controller gates a memory in blocks: bit
    [k mod 32] of word [k / 32] of its look-up table is 1 when block [k] belongs
    to the non-secure world.  The table is reached one word at a time through
    [BLK_IDX] and [BLK_LUTn]; with [AUTOINCREMENT] an access moves the index,
    and after [SEC_LOCK_DOWN] the table and the control register keep their
    values. *)

From S2P Require Import Prelude.

(** ** Registers and device data *)

Record mpc_sie200_reg_map_t := MpcRegs {
  mpc_ctrl : Z;
  blk_max : Z;
  blk_cfg : Z;
  blk_idx : Z;
  blk_lut : Z -> Z;
  int_stat : Z;
  int_en : Z;
}.

Definition MPC_SIE200_BLK_CFG_OFFSET : Z := 5.
Definition MPC_SIE200_CTRL_SEC_RESP : Z := Z.shiftl 1 4.
Definition MPC_SIE200_CTRL_AUTOINCREMENT : Z := Z.shiftl 1 8.
Definition MPC_SIE200_CTRL_SEC_LOCK_DOWN : Z := Z.shiftl 1 31.
Definition MPC_SIE200_INT_EN : Z := 1.
Definition MPC_SIE200_INT_STAT : Z := 1.
Definition MPC_SIE200_INITIALIZED : Z := Z.shiftl 1 0.

(** Every code but [MPC_SIE200_ERR_NONE], which is a normal return. *)
Inductive mpc_sie200_error_t :=
  | MPC_SIE200_INVALID_ARG
  | MPC_SIE200_NOT_INIT
  | MPC_SIE200_ERR_NOT_IN_RANGE
  | MPC_SIE200_ERR_NOT_ALIGNED
  | MPC_SIE200_ERR_INVALID_RANGE
  | MPC_SIE200_ERR_RANGE_SEC_ATTR_NON_COMPATIBLE.

(** The codes of the driver, and the one below 0. *)
Inductive mpc_sie200_intern_error_t :=
  | MPC_SIE200_INTERN (e : mpc_sie200_error_t)
  | MPC_SIE200_INTERN_ERR_BLK_IDX_TOO_HIGH.

Inductive mpc_sie200_sec_attr_t :=
  | MPC_SIE200_SEC_ATTR_SECURE
  | MPC_SIE200_SEC_ATTR_NONSECURE
  | MPC_SIE200_SEC_ATTR_MIXED.

Inductive mpc_sie200_sec_resp_t := MPC_SIE200_RESP_RAZ_WI | MPC_SIE200_RESP_BUS_ERROR.

#[global] Instance mpc_attr_eq_decision : EqDecision mpc_sie200_sec_attr_t.
Proof. solve_decision. Defined.

Record mpc_sie200_memory_range_t := MpcRange {
  range_base : Z;
  range_limit : Z;
  range_attr : mpc_sie200_sec_attr_t;
}.

#[global] Instance mpc_range_eq_decision : EqDecision mpc_sie200_memory_range_t.
Proof. solve_decision. Defined.

(** A device: its registers and the data the driver keeps for it. *)
Record mpc_sie200_dev_t := MpcDev {
  mpc_reg : mpc_sie200_reg_map_t;
  range_list : list mpc_sie200_memory_range_t;
  nbr_of_ranges : Z;
  mpc_state : Z;
}.

Definition MPC (A : Type) : Type := M mpc_sie200_dev_t mpc_sie200_error_t A.

(** The value of an enumerator as an index. *)
Definition attr_index (a : mpc_sie200_sec_attr_t) : Z :=
  match a with
  | MPC_SIE200_SEC_ATTR_SECURE => 0
  | MPC_SIE200_SEC_ATTR_NONSECURE => 1
  | MPC_SIE200_SEC_ATTR_MIXED => 2
  end.

(** ** Register accesses *)

Definition set_reg (f : mpc_sie200_reg_map_t -> mpc_sie200_reg_map_t) (d : mpc_sie200_dev_t) : mpc_sie200_dev_t :=
  MpcDev (f (mpc_reg d)) (range_list d) (nbr_of_ranges d) (mpc_state d).

Definition is_set (r mask : Z) : bool := negb (Z.land r mask =? 0).
Definition locked (r : mpc_sie200_reg_map_t) : bool := is_set (mpc_ctrl r) MPC_SIE200_CTRL_SEC_LOCK_DOWN.

Definition set_blk_idx (v : Z) (r : mpc_sie200_reg_map_t) : mpc_sie200_reg_map_t :=
  MpcRegs (mpc_ctrl r) (blk_max r) (blk_cfg r) v (blk_lut r) (int_stat r) (int_en r).

Definition next_idx (r : mpc_sie200_reg_map_t) : Z :=
  if is_set (mpc_ctrl r) MPC_SIE200_CTRL_AUTOINCREMENT then u32 (blk_idx r + 1) else blk_idx r.

Definition set_lutn (v : Z) (r : mpc_sie200_reg_map_t) : mpc_sie200_reg_map_t :=
  MpcRegs (mpc_ctrl r) (blk_max r) (blk_cfg r) (next_idx r)
    (if locked r then blk_lut r else upd (blk_lut r) (blk_idx r) v) (int_stat r) (int_en r).

Definition set_ctrl (v : Z) (r : mpc_sie200_reg_map_t) : mpc_sie200_reg_map_t :=
  MpcRegs (if locked r then mpc_ctrl r else v) (blk_max r) (blk_cfg r) (blk_idx r) (blk_lut r) (int_stat r)
    (int_en r).

Definition set_int_en (v : Z) (r : mpc_sie200_reg_map_t) : mpc_sie200_reg_map_t :=
  MpcRegs (mpc_ctrl r) (blk_max r) (blk_cfg r) (blk_idx r) (blk_lut r) (int_stat r)
    (if locked r then int_en r else v).

Definition set_int_clear (v : Z) (r : mpc_sie200_reg_map_t) : mpc_sie200_reg_map_t :=
  MpcRegs (mpc_ctrl r) (blk_max r) (blk_cfg r) (blk_idx r) (blk_lut r)
    (Z.land (int_stat r) (u32 (Z.lnot v))) (int_en r).

Definition read_lutn {E} : M mpc_sie200_dev_t E Z := fun d =>
  let r := mpc_reg d in (Ok (blk_lut r (blk_idx r)), set_reg (fun r => set_blk_idx (next_idx r) r) d).

Definition write_reg {E} (f : mpc_sie200_reg_map_t -> mpc_sie200_reg_map_t) : M mpc_sie200_dev_t E unit :=
  modify (set_reg f).

(** ** Block look-up *)

(** [1 << n] in 32 bits; a shift by 32 or more is undefined. *)
Definition shl1 {S E} (n : Z) : M S E Z := in_bounds (n <? 32) ;; ret (u32 (Z.shiftl 1 n)).

Definition get_block_size {E} : M mpc_sie200_dev_t E Z :=
  cfg <- gets (fun d => blk_cfg (mpc_reg d)) ;;
  shl1 (u32 (cfg + MPC_SIE200_BLK_CFG_OFFSET)).

(** [range_list[i]] *)
Definition get_range {E} (i : Z) : M mpc_sie200_dev_t E mpc_sie200_memory_range_t := fun d =>
  match range_list d !! Z.to_nat i with Some r => (Ok r, d) | None => (Fault, d) end.

(** The loop of [is_ctrl_by_range_list] with [n] rounds left; the result is the
    position of the range that contains the address. *)
Fixpoint ctrl_by_range_loop {E} (n : nat) (i addr : Z) : M mpc_sie200_dev_t E (option Z) :=
  match n with
  | O => ret None
  | S n =>
      range <- get_range i ;;
      if (range_base range <=? addr) && (addr <=? range_limit range) then ret (Some i)
      else ctrl_by_range_loop n (i + 1) addr
  end.

Definition is_ctrl_by_range_list {E} (addr : Z) : M mpc_sie200_dev_t E (option Z) :=
  n <- gets nbr_of_ranges ;; ctrl_by_range_loop (Z.to_nat n) 0 addr.

Record lut_masks := LutMasks {
  lm_range : mpc_sie200_memory_range_t;
  first_word_idx : Z;
  nr_words : Z;
  first_word_mask : Z;
  limit_word_mask : Z;
}.

Definition not_in_range {A} : M mpc_sie200_dev_t mpc_sie200_intern_error_t A :=
  fail (MPC_SIE200_INTERN MPC_SIE200_ERR_NOT_IN_RANGE).

Definition get_lut_masks (base limit : Z) : M mpc_sie200_dev_t mpc_sie200_intern_error_t lut_masks :=
  base_range <- is_ctrl_by_range_list base ;;
  match base_range with
  | None => not_in_range
  | Some bi =>
      limit_range <- is_ctrl_by_range_list limit ;;
      match limit_range with
      | None => not_in_range
      | Some li =>
          guard (bi =? li) (MPC_SIE200_INTERN MPC_SIE200_ERR_INVALID_RANGE) ;;
          range <- get_range bi ;;
          block_size <- get_block_size ;;
          guard ((base mod block_size =? 0) && (u32 (limit + 1) mod block_size =? 0))
            (MPC_SIE200_INTERN MPC_SIE200_ERR_NOT_ALIGNED) ;;
          let norm_base := u32 (base - range_base range) in
          let norm_limit := u32 (limit - range_base range) in
          let limit_block_idx := norm_limit / block_size in
          let limit_word_idx := limit_block_idx / 32 in
          let base_block_idx := norm_base / block_size in
          let base_word_idx := base_block_idx / 32 in
          guard (negb (limit_block_idx <? base_block_idx)) (MPC_SIE200_INTERN MPC_SIE200_ERR_INVALID_RANGE) ;;
          max <- gets (fun d => blk_max (mpc_reg d)) ;;
          guard (negb ((max <? limit_word_idx) || (max <? base_word_idx))) MPC_SIE200_INTERN_ERR_BLK_IDX_TOO_HIGH ;;
          first_bit <- shl1 (base_block_idx mod 32) ;;
          limit_bit <- shl1 (u32 (limit_block_idx + 1) mod 32) ;;
          let first_mask := u32 (Z.lnot (u32 (first_bit - 1))) in
          let limit_mask := u32 (limit_bit - 1) in
          let limit_mask := if limit_mask =? 0 then 0xFFFFFFFF else limit_mask in
          let mask := u32 (Z.lnot (Z.lxor first_mask limit_mask)) in
          let one_word := base_word_idx =? limit_word_idx in
          ret (LutMasks range base_word_idx (u32 (limit_word_idx - base_word_idx + 1))
                 (if one_word then mask else first_mask) (if one_word then mask else limit_mask))
      end
  end.

(** An internal code below 0 is reported as an invalid range. *)
Definition extern_error {A} (m : M mpc_sie200_dev_t mpc_sie200_intern_error_t A) : MPC A := fun d =>
  match m d with
  | (Ok a, d') => (Ok a, d')
  | (Err (MPC_SIE200_INTERN e), d') => (Err e, d')
  | (Err MPC_SIE200_INTERN_ERR_BLK_IDX_TOO_HIGH, d') => (Err MPC_SIE200_ERR_INVALID_RANGE, d')
  | (Fault, d') => (Fault, d')
  end.

(** ** Driver functions

    A pointer the function tests for NULL is a boolean: it is not NULL. *)

Definition mpc_sie200_init (ranges : option (list mpc_sie200_memory_range_t)) (n : Z) : MPC unit :=
  match ranges with
  | None => fail MPC_SIE200_INVALID_ARG
  | Some l =>
      if n =? 0 then fail MPC_SIE200_INVALID_ARG
      else modify (fun d => MpcDev (mpc_reg d) l n MPC_SIE200_INITIALIZED)
  end.

Definition check_init : MPC unit :=
  s <- gets mpc_state ;; guard (is_set s MPC_SIE200_INITIALIZED) MPC_SIE200_NOT_INIT.

Definition mpc_sie200_get_block_size (blk_size : bool) : MPC Z :=
  check_init ;; guard blk_size MPC_SIE200_INVALID_ARG ;; get_block_size.

(** The bits of [mask] in a word of the table, set to the attribute. *)
Definition lut_word (attr : mpc_sie200_sec_attr_t) (mask w : Z) : Z :=
  match attr with
  | MPC_SIE200_SEC_ATTR_NONSECURE => Z.lor w mask
  | _ => Z.land w (u32 (Z.lnot mask))
  end.

(** Read, change and write back the word at [idx]. *)
Definition update_word (attr : mpc_sie200_sec_attr_t) (idx mask : Z) : MPC unit :=
  write_reg (set_blk_idx idx) ;;
  word_value <- read_lutn ;;
  write_reg (set_blk_idx idx) ;;
  write_reg (set_lutn (lut_word attr mask word_value)).

Fixpoint config_words_loop (attr : mpc_sie200_sec_attr_t) (n : nat) (i : Z) : MPC unit :=
  match n with
  | O => ret tt
  | S n =>
      write_reg (set_blk_idx i) ;;
      write_reg (set_lutn (match attr with MPC_SIE200_SEC_ATTR_NONSECURE => 0xFFFFFFFF | _ => 0 end)) ;;
      config_words_loop attr n (i + 1)
  end.

Definition mpc_sie200_config_region (base limit : Z) (attr : mpc_sie200_sec_attr_t) : MPC unit :=
  check_init ;;
  r <- get_range (attr_index attr) ;;
  guard (negb ((base <? range_base r) || (range_limit r <? limit))) MPC_SIE200_ERR_NOT_IN_RANGE ;;
  m <- extern_error (get_lut_masks base limit) ;;
  let limit_word_idx := u32 (first_word_idx m + nr_words m - 1) in
  guard (bool_decide (range_attr (lm_range m) = attr)) MPC_SIE200_ERR_RANGE_SEC_ATTR_NON_COMPATIBLE ;;
  if nr_words m =? 1 then update_word attr (first_word_idx m) (first_word_mask m)
  else
    update_word attr (first_word_idx m) (first_word_mask m) ;;
    config_words_loop attr (Z.to_nat (limit_word_idx - (first_word_idx m + 1))) (first_word_idx m + 1) ;;
    update_word attr limit_word_idx (limit_word_mask m).

(** The attribute of the bits of a mask, of which [w] are set; the comparison is
    with [ref]. *)
Definition masked_attr (w ref : Z) : mpc_sie200_sec_attr_t :=
  if w =? 0 then MPC_SIE200_SEC_ATTR_SECURE
  else if negb (Z.lxor w ref =? 0) then MPC_SIE200_SEC_ATTR_MIXED
  else MPC_SIE200_SEC_ATTR_NONSECURE.

(** The words between the first and the last: [None] when the function returns
    with mixed attributes. *)
Fixpoint region_words_loop (n : nat) (i : Z) (attr_prev : mpc_sie200_sec_attr_t)
    : MPC (option mpc_sie200_sec_attr_t) :=
  match n with
  | O => ret (Some attr_prev)
  | S n =>
      write_reg (set_blk_idx i) ;;
      word_value <- read_lutn ;;
      let attr := if word_value =? 0 then MPC_SIE200_SEC_ATTR_SECURE
                  else if word_value =? 0xFFFFFFFF then MPC_SIE200_SEC_ATTR_NONSECURE
                  else MPC_SIE200_SEC_ATTR_MIXED in
      if bool_decide (attr = MPC_SIE200_SEC_ATTR_MIXED) then ret None
      else if bool_decide (attr <> attr_prev) then ret None
      else region_words_loop n (i + 1) attr
  end.

Definition mpc_sie200_get_region_config (base limit : Z) (attr : bool) : MPC mpc_sie200_sec_attr_t :=
  check_init ;;
  guard attr MPC_SIE200_INVALID_ARG ;;
  block_size <- get_block_size ;;
  let block_size_mask := u32 (block_size - 1) in
  let base := Z.land base (u32 (Z.lnot block_size_mask)) in
  let limit := u32 (Z.land limit (u32 (Z.lnot block_size_mask)) + block_size - 1) in
  m <- extern_error (get_lut_masks base limit) ;;
  let limit_word_idx := u32 (first_word_idx m + nr_words m - 1) in
  write_reg (set_blk_idx (first_word_idx m)) ;;
  w <- read_lutn ;;
  let attr_prev := masked_attr (Z.land w (first_word_mask m)) (first_word_mask m) in
  if nr_words m =? 1 then ret attr_prev
  else if bool_decide (attr_prev = MPC_SIE200_SEC_ATTR_MIXED) then ret MPC_SIE200_SEC_ATTR_MIXED
  else
    inner <- region_words_loop (Z.to_nat (limit_word_idx - (first_word_idx m + 1))) (first_word_idx m + 1) attr_prev ;;
    match inner with
    | None => ret MPC_SIE200_SEC_ATTR_MIXED
    | Some attr_prev =>
        write_reg (set_blk_idx limit_word_idx) ;;
        w <- read_lutn ;;
        let attr := masked_attr (Z.land w (limit_word_mask m)) (first_word_mask m) in
        ret (if bool_decide (attr = attr_prev) then attr else MPC_SIE200_SEC_ATTR_MIXED)
    end.

Definition mpc_sie200_get_ctrl (ctrl_val : bool) : MPC Z :=
  check_init ;; guard ctrl_val MPC_SIE200_INVALID_ARG ;; gets (fun d => mpc_ctrl (mpc_reg d)).

Definition mpc_sie200_set_ctrl (v : Z) : MPC unit := check_init ;; write_reg (set_ctrl v).

Definition mpc_sie200_get_sec_resp (sec_rep : bool) : MPC mpc_sie200_sec_resp_t :=
  check_init ;; guard sec_rep MPC_SIE200_INVALID_ARG ;;
  c <- gets (fun d => mpc_ctrl (mpc_reg d)) ;;
  ret (if is_set c MPC_SIE200_CTRL_SEC_RESP then MPC_SIE200_RESP_BUS_ERROR else MPC_SIE200_RESP_RAZ_WI).

Definition mpc_sie200_irq_enable : MPC unit :=
  check_init ;; write_reg (fun r => set_int_en (Z.lor (int_en r) MPC_SIE200_INT_EN) r).

Definition mpc_sie200_irq_disable : MPC unit :=
  write_reg (fun r => set_int_en (Z.land (int_en r) (u32 (Z.lnot MPC_SIE200_INT_EN))) r).

Definition mpc_sie200_clear_irq : MPC unit := write_reg (set_int_clear MPC_SIE200_INT_EN).

Definition mpc_sie200_irq_state : MPC Z := gets (fun d => Z.land (int_stat (mpc_reg d)) MPC_SIE200_INT_STAT).

Definition mpc_sie200_lock_down : MPC unit :=
  check_init ;;
  write_reg (fun r => set_ctrl (Z.lor (mpc_ctrl r)
    (Z.lor MPC_SIE200_CTRL_AUTOINCREMENT MPC_SIE200_CTRL_SEC_LOCK_DOWN)) r).
