(* ===== verification/MpcSpec.v ===== *)
(** * Memory protection controller: what the driver programs

    The masks of [get_lut_masks] select exactly the blocks of the region, so
    configuring a region gives its blocks the attribute and leaves every other
    block alone; the code each wrong request is refused with ([config_error]); reading a configuration back; the words a region spans. *)

From S2P Require Import Prelude Mpc.

(** ** Bits of 32-bit words *)

Lemma testbit_u32 x j : 0 <= j -> Z.testbit (u32 x) j = (j <? 32) && Z.testbit x j.
Proof. intros. unfold u32. apply Z.testbit_mod_pow2. lia. Qed.

Lemma u32_shl1 n : 0 <= n < 32 -> u32 (Z.shiftl 1 n) = 2 ^ n.
Proof.
  intros. rewrite Z.shiftl_1_l. apply u32_small. split; [lia|]. apply Z.pow_lt_mono_r; lia.
Qed.

Lemma u32_pow2_pred n : 0 <= n < 32 -> u32 (2 ^ n - 1) = Z.ones n.
Proof.
  intros. rewrite Z.ones_equiv, <- Z.sub_1_r. apply u32_small.
  assert (2 ^ n < 2 ^ 32) by (apply Z.pow_lt_mono_r; lia). pose proof (Z.pow_pos_nonneg 2 n). lia.
Qed.

Lemma testbit_ones n j : 0 <= n -> 0 <= j -> Z.testbit (Z.ones n) j = (j <? n).
Proof.
  intros. rewrite Z.testbit_ones_nonneg by lia. done.
Qed.

(** Two 32-bit words are equal when their 32 bits are. *)
Lemma word_ext x y :
  0 <= x < 2 ^ 32 -> 0 <= y < 2 ^ 32 -> (forall j, 0 <= j < 32 -> Z.testbit x j = Z.testbit y j) -> x = y.
Proof.
  intros Hx Hy H. apply Z.bits_inj'. intros j Hj.
  rewrite <- (u32_small x), <- (u32_small y), !testbit_u32 by lia.
  destruct (Z.ltb_spec j 32); [by rewrite H by lia|done].
Qed.

Lemma word_zero x : 0 <= x < 2 ^ 32 -> x = 0 <-> forall j, 0 <= j < 32 -> Z.testbit x j = false.
Proof.
  intros Hx. split; [intros ->; intros; apply Z.testbit_0_l|]. intros H.
  apply word_ext; [lia|lia|]. intros j Hj. by rewrite H, Z.testbit_0_l by lia.
Qed.

Lemma land_word x y : 0 <= x < 2 ^ 32 -> 0 <= y < 2 ^ 32 -> 0 <= Z.land x y < 2 ^ 32.
Proof.
  intros Hx Hy. rewrite <- (u32_small x) by lia. unfold u32.
  rewrite <- (Z.land_ones _ 32), <- Z.land_assoc, (Z.land_comm _ y), Z.land_assoc, Z.land_ones by lia.
  apply Z.mod_pos_bound. lia.
Qed.

(** ** Masks *)

Section masks.
  Context (fb lb : Z) (Hfb : 0 <= fb) (Hlb : fb <= lb).

(** The masks of the blocks [fb] to [lb], as the driver computes them. *)
Definition first_mask : Z := u32 (Z.lnot (u32 (u32 (Z.shiftl 1 (fb mod 32)) - 1))).
Definition limit_mask : Z :=
  let m := u32 (u32 (Z.shiftl 1 ((lb + 1) mod 32)) - 1) in if m =? 0 then 0xFFFFFFFF else m.
Definition one_mask : Z := u32 (Z.lnot (Z.lxor first_mask limit_mask)).

Lemma first_mask_bits j : 0 <= j < 32 -> Z.testbit first_mask j = (fb mod 32 <=? j).
Proof.
  intros Hj. pose proof (Z.mod_pos_bound fb 32). unfold first_mask.
  rewrite u32_shl1, u32_pow2_pred, testbit_u32, Z.lnot_spec, testbit_ones by lia.
  destruct (Z.ltb_spec j 32); [|lia]. rewrite Z.leb_antisym. done.
Qed.

Lemma limit_mask_eq : limit_mask = Z.ones (lb mod 32 + 1).
Proof.
  unfold limit_mask. pose proof (Z.mod_pos_bound (lb + 1) 32).
  assert ((lb + 1) mod 32 = if lb mod 32 =? 31 then 0 else lb mod 32 + 1) as E.
  { rewrite <- Z.add_mod_idemp_l by lia. pose proof (Z.mod_pos_bound lb 32).
    destruct (Z.eqb_spec (lb mod 32) 31) as [->|]; [done|]. apply Z.mod_small. lia. }
  rewrite u32_shl1, u32_pow2_pred, E by lia. pose proof (Z.mod_pos_bound lb 32).
  destruct (Z.eqb_spec (lb mod 32) 31) as [->|]; [done|].
  destruct (Z.eqb_spec (Z.ones (lb mod 32 + 1)) 0) as [Hz|]; [|done].
  rewrite Z.ones_equiv in Hz. assert (2 ^ 1 <= 2 ^ (lb mod 32 + 1)) by (apply Z.pow_le_mono_r; lia). lia.
Qed.

Lemma limit_mask_bits j : 0 <= j < 32 -> Z.testbit limit_mask j = (j <=? lb mod 32).
Proof.
  intros Hj. pose proof (Z.mod_pos_bound lb 32). rewrite limit_mask_eq, testbit_ones by lia.
  destruct (Z.ltb_spec j (lb mod 32 + 1)), (Z.leb_spec j (lb mod 32)); done || lia.
Qed.

Lemma first_mask_word : 0 <= first_mask < 2 ^ 32.
Proof. apply u32_bound. Qed.

Lemma limit_mask_word : 0 <= limit_mask < 2 ^ 32.
Proof. unfold limit_mask. case_match; [lia|apply u32_bound]. Qed.

Lemma one_mask_bits j : 0 <= j < 32 -> fb / 32 = lb / 32 ->
  Z.testbit one_mask j = (fb mod 32 <=? j) && (j <=? lb mod 32).
Proof.
  intros Hj E. unfold one_mask.
  rewrite testbit_u32, Z.lnot_spec, Z.lxor_spec, first_mask_bits, limit_mask_bits by lia.
  destruct (Z.ltb_spec j 32); [|lia]. pose proof (Z.div_mod fb 32). pose proof (Z.div_mod lb 32).
  destruct (Z.leb_spec (fb mod 32) j), (Z.leb_spec j (lb mod 32)); cbn; done || lia.
Qed.
End masks.

(** ** The attribute of a block *)

(** Block [k] belongs to the non-secure world. *)
Definition block_ns (lut : Z -> Z) (k : Z) : bool := Z.testbit (lut (k / 32)) (k mod 32).

Lemma lut_word_bits attr mask w j : 0 <= j < 32 ->
  Z.testbit (lut_word attr mask w) j =
    if Z.testbit mask j then bool_decide (attr = MPC_SIE200_SEC_ATTR_NONSECURE) else Z.testbit w j.
Proof.
  intros Hj. destruct attr; cbn [lut_word];
    rewrite ?Z.lor_spec, ?Z.land_spec, ?testbit_u32, ?Z.lnot_spec by lia;
    destruct (Z.ltb_spec j 32); try lia;
    destruct (Z.testbit mask j), (Z.testbit w j); done.
Qed.

(** ** Devices *)

Definition block_size (d : mpc_sie200_dev_t) : Z := 2 ^ (blk_cfg (mpc_reg d) + 5).

Record mpc_ok (d : mpc_sie200_dev_t) : Prop := {
  mo_init : is_set (mpc_state d) MPC_SIE200_INITIALIZED = true;
  mo_nbr : nbr_of_ranges d = zlen (range_list d);
  mo_cfg : 0 <= blk_cfg (mpc_reg d) <= 26;
  mo_ranges : forall i r, range_list d !! i = Some r ->
    0 <= range_base r <= range_limit r /\ range_limit r < 2 ^ 32 /\ range_base r mod block_size d = 0;
  mo_disjoint : forall i j r r' a, range_list d !! i = Some r -> range_list d !! j = Some r' ->
    range_base r <= a <= range_limit r -> range_base r' <= a <= range_limit r' -> i = j;
  mo_lut : forall i, 0 <= blk_lut (mpc_reg d) i < 2 ^ 32;
}.

(** The region from [base] to [limit] lies on block boundaries in the range
    [r], and the table has its blocks. *)
Record region_in (d : mpc_sie200_dev_t) (base limit : Z) (r : mpc_sie200_memory_range_t) : Prop := {
  ri_listed : r ∈ range_list d;
  ri_base : range_base r <= base;
  ri_order : base <= limit;
  ri_limit : limit <= range_limit r;
  ri_base_aligned : base mod block_size d = 0;
  ri_limit_aligned : (limit + 1) mod block_size d = 0;
  ri_max : (limit - range_base r) / block_size d / 32 <= blk_max (mpc_reg d);
}.

Definition block_of (d : mpc_sie200_dev_t) (r : mpc_sie200_memory_range_t) (a : Z) : Z :=
  (a - range_base r) / block_size d.

#[global] Instance region_in_dec d base limit r : Decision (region_in d base limit r).
Proof.
  refine (cast_if (decide (r ∈ range_list d /\ range_base r <= base /\ base <= limit /\ limit <= range_limit r /\
    base mod block_size d = 0 /\ (limit + 1) mod block_size d = 0 /\
    (limit - range_base r) / block_size d / 32 <= blk_max (mpc_reg d)))).
  - by destruct_and!.
  - intros []. tauto.
Defined.

Section driver.
  Context (d : mpc_sie200_dev_t) (Hd : mpc_ok d).

Lemma block_size_bounds : 32 <= block_size d <= 2 ^ 31.
Proof.
  pose proof (mo_cfg d Hd). unfold block_size. split.
  - change 32 with (2 ^ 5). apply Z.pow_le_mono_r; lia.
  - apply Z.pow_le_mono_r; lia.
Qed.

Lemma get_block_size_eq {E} : get_block_size (E := E) d = (Ok (block_size d), d).
Proof.
  pose proof (mo_cfg d Hd) as Hc. unfold get_block_size, shl1, bind, gets, in_bounds, MPC_SIE200_BLK_CFG_OFFSET.
  rewrite u32_small by lia. destruct (Z.ltb_spec (blk_cfg (mpc_reg d) + 5) 32); [|lia].
  cbn. by rewrite u32_shl1 by lia.
Qed.

(** The block size divides the size of the address space. *)
Lemma u32_mod_block x : u32 x mod block_size d = x mod block_size d.
Proof.
  pose proof (mo_cfg d Hd). pose proof block_size_bounds. unfold u32.
  assert ((block_size d | 2 ^ 32)) as Hdiv.
  { exists (2 ^ (27 - blk_cfg (mpc_reg d))). unfold block_size. rewrite <- Z.pow_add_r by lia. f_equal. lia. }
  by apply Z.mod_mod_divide.
Qed.

Lemma get_range_eq {E} i r : range_list d !! i = Some r -> get_range (E := E) (Z.of_nat i) d = (Ok r, d).
Proof. intros H. unfold get_range. by rewrite Nat2Z.id, H. Qed.

(** The loop finds the range of an address, or none has it. *)
Lemma ctrl_loop_spec {E} n i addr : (i + n)%nat = length (range_list d) ->
  (forall j r, (j < i)%nat -> range_list d !! j = Some r -> ~ range_base r <= addr <= range_limit r) ->
  (exists j r, range_list d !! j = Some r /\ range_base r <= addr <= range_limit r /\
    ctrl_by_range_loop (E := E) n (Z.of_nat i) addr d = (Ok (Some (Z.of_nat j)), d)) \/
  ((forall j r, range_list d !! j = Some r -> ~ range_base r <= addr <= range_limit r) /\
    ctrl_by_range_loop (E := E) n (Z.of_nat i) addr d = (Ok None, d)).
Proof.
  revert i. induction n as [|n IH]; intros i Hlen Hno; cbn [ctrl_by_range_loop].
  - right. split; [|done]. intros j r Hj. apply (Hno j); [|done]. apply lookup_lt_Some in Hj. lia.
  - destruct (lookup_lt_is_Some_2 (range_list d) i) as [r Hr]; [lia|].
    rewrite (bind_Ok _ _ _ _ _ (get_range_eq i r Hr)).
    destruct (Z.leb_spec (range_base r) addr), (Z.leb_spec addr (range_limit r)); cbn [andb];
      try (left; exists i, r; done);
      replace (Z.of_nat i + 1) with (Z.of_nat (S i)) by lia; (apply IH; [lia|]; intros j r' Hj Hr';
        (destruct (decide (j = i)) as [->|]; [simplify_eq; lia|apply (Hno j); [lia|done]])).
Qed.

Lemma is_ctrl_spec {E} addr :
  (exists j r, range_list d !! j = Some r /\ range_base r <= addr <= range_limit r /\
    is_ctrl_by_range_list (E := E) addr d = (Ok (Some (Z.of_nat j)), d)) \/
  ((forall j r, range_list d !! j = Some r -> ~ range_base r <= addr <= range_limit r) /\
    is_ctrl_by_range_list (E := E) addr d = (Ok None, d)).
Proof.
  unfold is_ctrl_by_range_list. unfold bind at 1 2. cbn [gets]. rewrite (mo_nbr d Hd), Nat2Z.id.
  apply (ctrl_loop_spec (length (range_list d)) 0 addr); [done|]. intros; lia.
Qed.

Definition masks_of (base limit : Z) (r : mpc_sie200_memory_range_t) : lut_masks :=
  let fb := block_of d r base in
  let lb := block_of d r limit in
  if fb / 32 =? lb / 32
  then LutMasks r (fb / 32) 1 (one_mask fb lb) (one_mask fb lb)
  else LutMasks r (fb / 32) (lb / 32 - fb / 32 + 1) (first_mask fb) (limit_mask lb).

(** The blocks of a region inside a range. *)
Lemma block_range base limit r : r ∈ range_list d -> range_base r <= base <= limit -> limit <= range_limit r ->
  0 <= block_of d r base <= block_of d r limit /\ block_of d r limit < 2 ^ 27.
Proof.
  intros Hr Hb Hl. apply list_elem_of_lookup in Hr as [i Hi]. pose proof (mo_ranges d Hd i r Hi).
  pose proof block_size_bounds. unfold block_of. repeat split.
  - apply Z.div_pos; lia.
  - apply Z.div_le_mono; lia.
  - apply Z.div_lt_upper_bound; [lia|]. apply Z.lt_le_trans with (2 ^ 5 * 2 ^ 27); [lia|].
    apply Z.mul_le_mono_nonneg_r; lia.
Qed.

(** An aligned address is the start, or the end, of its block. *)
Lemma base_aligned base r : r ∈ range_list d -> base mod block_size d = 0 ->
  base = range_base r + block_of d r base * block_size d.
Proof.
  intros Hr Hb. apply list_elem_of_lookup in Hr as [i Hi]. pose proof (mo_ranges d Hd i r Hi) as (_ & _ & Hz).
  pose proof block_size_bounds. apply Z.mod_divide in Hb, Hz; [|lia..]. destruct Hb as [x ->], Hz as [z Hz].
  unfold block_of. rewrite Hz. replace (x * _ - _) with ((x - z) * block_size d) by lia.
  rewrite Z.div_mul by lia. lia.
Qed.

Lemma limit_aligned limit r : r ∈ range_list d -> (limit + 1) mod block_size d = 0 ->
  limit + 1 = range_base r + (block_of d r limit + 1) * block_size d.
Proof.
  intros Hr Hl. pose proof (base_aligned (limit + 1) r Hr Hl) as E. pose proof block_size_bounds.
  assert (block_of d r limit = block_of d r (limit + 1) - 1) as ->; [|lia].
  unfold block_of at 1. symmetry. apply (Z.div_unique_pos _ _ _ (block_size d - 1)); lia.
Qed.

Lemma get_lut_masks_ok base limit r : 0 <= base -> limit < 2 ^ 32 -> region_in d base limit r ->
  get_lut_masks base limit d = (Ok (masks_of base limit r), d).
Proof.
  intros H0 H32 [Hr Hb Ho Hl Ab Al Hm]. pose proof (block_range base limit r Hr) as Hblk.
  apply list_elem_of_lookup in Hr as [i Hi]. pose proof (mo_ranges d Hd i r Hi) as (? & ? & ?).
  unfold get_lut_masks.
  assert (forall a, base <= a <= limit -> is_ctrl_by_range_list (E := mpc_sie200_intern_error_t) a d =
    (Ok (Some (Z.of_nat i)), d)) as Hctrl.
  { intros a Ha. destruct (is_ctrl_spec (E := mpc_sie200_intern_error_t) a) as [(j & r' & Hj & Hin & ->)|[Hno _]].
    - by rewrite (mo_disjoint d Hd j i r' r a) by (done || lia).
    - destruct (Hno i r Hi). lia. }
  rewrite (bind_Ok _ _ _ _ _ (Hctrl base ltac:(lia))), (bind_Ok _ _ _ _ _ (Hctrl limit ltac:(lia))), Z.eqb_refl.
  erewrite bind_Ok by reflexivity. rewrite (bind_Ok _ _ _ _ _ (get_range_eq i r Hi)),
    (bind_Ok _ _ _ _ _ get_block_size_eq), u32_mod_block, Ab, Al, !Z.eqb_refl.
  erewrite bind_Ok by reflexivity. rewrite !(u32_small (_ - _)) by lia.
  fold (block_of d r base) (block_of d r limit) in *. destruct Hblk as [Hblk Hbig]; [lia..|].
  destruct (Z.ltb_spec (block_of d r limit) (block_of d r base)); [lia|]. cbn [negb].
  erewrite bind_Ok by reflexivity. erewrite bind_Ok by reflexivity.
  pose proof (Z.div_le_mono (block_of d r base) (block_of d r limit) 32).
  destruct (Z.ltb_spec (blk_max (mpc_reg d)) (block_of d r limit / 32)); [unfold block_of in *; lia|].
  destruct (Z.ltb_spec (blk_max (mpc_reg d)) (block_of d r base / 32)); [lia|]. cbn [orb negb].
  erewrite bind_Ok by reflexivity. rewrite (u32_small (_ + 1)) by lia. unfold shl1.
  destruct (Z.ltb_spec (block_of d r base mod 32) 32); [|pose proof (Z.mod_pos_bound (block_of d r base) 32); lia].
  destruct (Z.ltb_spec ((block_of d r limit + 1) mod 32) 32);
    [|pose proof (Z.mod_pos_bound (block_of d r limit + 1) 32); lia].
  do 2 (erewrite bind_Ok by reflexivity). unfold ret. do 2 f_equal. unfold masks_of.
  fold (first_mask (block_of d r base)) (limit_mask (block_of d r limit)).
  fold (one_mask (block_of d r base) (block_of d r limit)).
  assert (0 <= block_of d r base / 32) by (apply Z.div_pos; lia).
  assert (block_of d r limit / 32 < 2 ^ 27) by (apply Z.div_lt_upper_bound; lia).
  destruct (Z.eqb_spec (block_of d r base / 32) (block_of d r limit / 32)) as [->|]; f_equal.
  - by rewrite Z.sub_diag.
  - apply u32_small. lia.
Qed.

(** An address of some range of the list. *)
Definition listed (a : Z) : Prop := Exists (fun r => range_base r <= a <= range_limit r) (range_list d).

Lemma listed_at a i r : range_list d !! i = Some r -> range_base r <= a <= range_limit r -> listed a.
Proof. intros Hi Ha. apply Exists_exists. exists r. split; [by apply list_elem_of_In, (list_elem_of_lookup_2 _ i)|done]. Qed.

Lemma not_listed a : (forall j r, range_list d !! j = Some r -> ~ range_base r <= a <= range_limit r) -> ~ listed a.
Proof. intros Hno (r & [j Hj]%list_elem_of_In%list_elem_of_lookup & Ha)%Exists_exists. by apply (Hno j r). Qed.

(** The code for a region that is not one of the range [r], none of whose
    addresses is below [r] or above it. *)
Definition region_error (base limit : Z) (r : mpc_sie200_memory_range_t) : mpc_sie200_error_t :=
  if decide (listed base /\ listed limit)
  then if decide (base <= range_limit r /\ range_base r <= limit)
       then if decide (base mod block_size d = 0 /\ (limit + 1) mod block_size d = 0)
            then MPC_SIE200_ERR_INVALID_RANGE else MPC_SIE200_ERR_NOT_ALIGNED
       else MPC_SIE200_ERR_INVALID_RANGE
  else MPC_SIE200_ERR_NOT_IN_RANGE.

Lemma get_lut_masks_err base limit k r : 0 <= base -> limit < 2 ^ 32 -> range_list d !! k = Some r ->
  range_base r <= base -> limit <= range_limit r -> ~ region_in d base limit r ->
  extern_error (get_lut_masks base limit) d = (Err (region_error base limit r), d).
Proof.
  intros H0 H32 Hr Hbr Hlr Hno. unfold extern_error, get_lut_masks, region_error, not_in_range.
  destruct (is_ctrl_spec (E := mpc_sie200_intern_error_t) base) as [(i & rb & Hi & Hb & Ei)|[Hn Ei]];
    rewrite (bind_Ok _ _ _ _ _ Ei); [|by rewrite decide_False by (intros [Hin _]; by apply (not_listed base))].
  destruct (is_ctrl_spec (E := mpc_sie200_intern_error_t) limit) as [(j & rl & Hj & Hl & Ej)|[Hn Ej]];
    rewrite (bind_Ok _ _ _ _ _ Ej); [|by rewrite decide_False by (intros [_ Hin]; by apply (not_listed limit))].
  rewrite decide_True by (split; [by apply (listed_at base i rb)|by apply (listed_at limit j rl)]).
  destruct (Z.eqb_spec (Z.of_nat i) (Z.of_nat j)) as [E|Hne].
  2: { rewrite decide_False; [done|]. intros [H1 H2]. apply Hne. f_equal.
       by rewrite (mo_disjoint d Hd i k rb r base), (mo_disjoint d Hd j k rl r limit). }
  apply Nat2Z.inj in E. subst j. rewrite Hi in Hj. injection Hj as <-. pose proof (mo_ranges d Hd k r Hr) as Hrng.
  assert (i = k) as ->.
  { destruct (Z.le_gt_cases base (range_limit r)); [by apply (mo_disjoint d Hd i k rb r base)|].
    apply (mo_disjoint d Hd i k rb r (range_limit r)); done || lia. }
  rewrite Hr in Hi. injection Hi as <-. rewrite decide_True by lia.
  erewrite bind_Ok by reflexivity. rewrite (bind_Ok _ _ _ _ _ (get_range_eq k r Hr)),
    (bind_Ok _ _ _ _ _ get_block_size_eq), u32_mod_block.
  destruct (Z.eqb_spec (base mod block_size d) 0) as [Ab|]; [|by rewrite decide_False by tauto].
  destruct (Z.eqb_spec ((limit + 1) mod block_size d) 0) as [Al|]; [|by rewrite decide_False by tauto].
  rewrite decide_True by done.
  erewrite bind_Ok by reflexivity. rewrite !(u32_small (_ - _)) by lia. fold (block_of d r base) (block_of d r limit).
  destruct (Z.ltb_spec (block_of d r limit) (block_of d r base)) as [|Hord]; [done|]. cbn [negb].
  erewrite bind_Ok by reflexivity. erewrite bind_Ok by reflexivity.
  destruct (Z.ltb_spec (blk_max (mpc_reg d)) (block_of d r limit / 32)) as [|Hm]; [done|].
  exfalso. apply Hno. apply (list_elem_of_lookup_2 _ k) in Hr as Hin. split; try done.
  destruct (Z.le_gt_cases base limit) as [|Hlt]; [done|exfalso]. pose proof block_size_bounds.
  pose proof (base_aligned base r Hin Ab). pose proof (limit_aligned limit r Hin Al).
  pose proof (Z.mul_lt_mono_pos_r (block_size d) (block_of d r base) (block_of d r limit + 1)). lia.
Qed.
End driver.

(** ** The words a function writes *)

(** The device with another table; the index is not looked at before it is
    set. *)
Definition with_lut (idx : Z) (lut : Z -> Z) (d : mpc_sie200_dev_t) : mpc_sie200_dev_t :=
  set_reg (fun r => MpcRegs (mpc_ctrl r) (blk_max r) (blk_cfg r) idx lut (int_stat r) (int_en r)) d.

Lemma with_lut_twice i j lut lut' d : with_lut i lut (with_lut j lut' d) = with_lut i lut d.
Proof. done. Qed.

Lemma mpc_ok_with_lut i lut d : mpc_ok d -> (forall w, 0 <= lut w < 2 ^ 32) -> mpc_ok (with_lut i lut d).
Proof. intros []. by constructor. Qed.

Definition lut_of (d : mpc_sie200_dev_t) : Z -> Z := blk_lut (mpc_reg d).

(** What a write of [v] to word [idx] leaves. *)
Definition lut_put (d : mpc_sie200_dev_t) (idx v : Z) : Z -> Z :=
  if locked (mpc_reg d) then lut_of d else upd (lut_of d) idx v.

Lemma update_word_spec attr idx mask d : exists i,
  update_word attr idx mask d = (Ok tt, with_lut i (lut_put d idx (lut_word attr mask (lut_of d idx))) d).
Proof. eexists. reflexivity. Qed.

Lemma write_word_spec idx v d : exists i,
  (write_reg (set_blk_idx idx) ;; write_reg (set_lutn v)) d = (Ok (E := mpc_sie200_error_t) tt, with_lut i (lut_put d idx v) d).
Proof. eexists. reflexivity. Qed.

Lemma read_word_spec {E} idx d : exists i,
  (write_reg (set_blk_idx idx) ;; read_lutn (E := E)) d = (Ok (lut_of d idx), with_lut i (lut_of d) d).
Proof. eexists. reflexivity. Qed.

(** A table that gives the blocks [fb] to [lb] the attribute and is otherwise
    [lut]. *)
Definition sets_blocks (lut lut' : Z -> Z) (fb lb : Z) (attr : mpc_sie200_sec_attr_t) : Prop :=
  forall k, 0 <= k -> block_ns lut' k =
    if decide (fb <= k <= lb) then bool_decide (attr = MPC_SIE200_SEC_ATTR_NONSECURE) else block_ns lut k.

Lemma sets_blocks_bits lut lut' fb lb attr :
  (forall w j, 0 <= w -> 0 <= j < 32 -> Z.testbit (lut' w) j =
    if decide (fb <= 32 * w + j <= lb) then bool_decide (attr = MPC_SIE200_SEC_ATTR_NONSECURE)
    else Z.testbit (lut w) j) ->
  sets_blocks lut lut' fb lb attr.
Proof.
  intros H k Hk. unfold block_ns. pose proof (Z.mod_pos_bound k 32).
  rewrite H by (try apply Z.div_pos; lia). by rewrite <- Z.div_mod by lia.
Qed.

Definition full_word (attr : mpc_sie200_sec_attr_t) : Z :=
  match attr with MPC_SIE200_SEC_ATTR_NONSECURE => 0xFFFFFFFF | _ => 0 end.

Lemma full_word_bits attr j : 0 <= j < 32 ->
  Z.testbit (full_word attr) j = bool_decide (attr = MPC_SIE200_SEC_ATTR_NONSECURE).
Proof.
  intros Hj. destruct attr; cbn [full_word]; [apply Z.testbit_0_l| |apply Z.testbit_0_l].
  change 0xFFFFFFFF with (Z.ones 32). rewrite testbit_ones by lia. by destruct (Z.ltb_spec j 32); [|lia].
Qed.

Lemma lut_word_word attr mask w : 0 <= mask < 2 ^ 32 -> 0 <= w < 2 ^ 32 -> 0 <= lut_word attr mask w < 2 ^ 32.
Proof.
  intros Hm Hw. assert (0 <= Z.land w (u32 (Z.lnot mask)) < 2 ^ 32) by (apply land_word; [done|apply u32_bound]).
  destruct attr; cbn [lut_word]; try done.
  assert (u32 (Z.lor w mask) = Z.lor w mask) as <-; [|apply u32_bound]. apply Z.bits_inj'. intros j Hj.
  rewrite testbit_u32, Z.lor_spec by lia. rewrite <- (u32_small w), <- (u32_small mask), !testbit_u32 by lia.
  by destruct (Z.ltb_spec j 32).
Qed.

Lemma config_loop_spec attr n i d : exists j lut',
  config_words_loop attr n i d = (Ok tt, with_lut j lut' d) /\
  forall w, lut' w = if locked (mpc_reg d) then lut_of d w
                     else if decide (i <= w < i + Z.of_nat n) then full_word attr else lut_of d w.
Proof.
  revert i d. induction n as [|n IH]; intros i d; cbn [config_words_loop].
  - exists (blk_idx (mpc_reg d)), (lut_of d). split; [by destruct d as [[]]|]. intros w.
    case_match; [done|]. by rewrite decide_False by lia.
  - erewrite bind_Ok by reflexivity. erewrite bind_Ok by reflexivity. fold (full_word attr).
    match goal with |- context [config_words_loop attr n (i + 1) ?x] =>
      assert (exists j0, x = with_lut j0 (lut_put d i (full_word attr)) d) as [j0 ->] by (by eexists) end.
    destruct (IH (i + 1) (with_lut j0 (lut_put d i (full_word attr)) d)) as (j & lut' & -> & Hl).
    exists j, lut'. split; [done|]. intros w. rewrite Hl.
    change (locked (mpc_reg (with_lut j0 (lut_put d i (full_word attr)) d))) with (locked (mpc_reg d)).
    change (lut_of (with_lut j0 (lut_put d i (full_word attr)) d) w) with (lut_put d i (full_word attr) w).
    unfold lut_put. destruct (locked (mpc_reg d)); [done|].
    destruct (decide (w = i)) as [->|].
    + rewrite upd_eq. repeat case_decide; done || lia.
    + rewrite upd_ne by done. repeat case_decide; done || lia.
Qed.

(** The words of a region that spans several. *)
Lemma word_cases fb lb w j : 0 <= fb -> fb / 32 < lb / 32 -> 0 <= j < 32 ->
  (fb <= 32 * w + j <= lb) <->
  (w = fb / 32 /\ fb mod 32 <= j) \/ (fb / 32 < w < lb / 32) \/ (w = lb / 32 /\ j <= lb mod 32).
Proof.
  intros. pose proof (Z.div_mod fb 32). pose proof (Z.div_mod lb 32).
  pose proof (Z.mod_pos_bound fb 32). pose proof (Z.mod_pos_bound lb 32). lia.
Qed.

Section config.
  Context (d : mpc_sie200_dev_t) (Hd : mpc_ok d).

Lemma one_word_bits attr fb lb w j : 0 <= fb <= lb -> fb / 32 = lb / 32 -> 0 <= j < 32 ->
  Z.testbit (upd (lut_of d) (fb / 32) (lut_word attr (one_mask fb lb) (lut_of d (fb / 32))) w) j =
    if decide (fb <= 32 * w + j <= lb) then bool_decide (attr = MPC_SIE200_SEC_ATTR_NONSECURE)
    else Z.testbit (lut_of d w) j.
Proof.
  intros Hb E Hj. pose proof (Z.div_mod fb 32). pose proof (Z.div_mod lb 32).
  pose proof (Z.mod_pos_bound fb 32). pose proof (Z.mod_pos_bound lb 32).
  destruct (decide (w = fb / 32)) as [->|].
  - rewrite upd_eq, lut_word_bits, one_mask_bits by lia.
    destruct (Z.leb_spec (fb mod 32) j), (Z.leb_spec j (lb mod 32)); cbn [andb]; case_decide; done || lia.
  - rewrite upd_ne, decide_False by lia. done.
Qed.

(** Configuring a region that spans several words. *)
Lemma config_words_spec attr fb lb : 0 <= fb <= lb -> fb / 32 < lb / 32 -> locked (mpc_reg d) = false ->
  exists i lut',
  (update_word attr (fb / 32) (first_mask fb) ;;
   config_words_loop attr (Z.to_nat (lb / 32 - (fb / 32 + 1))) (fb / 32 + 1) ;;
   update_word attr (lb / 32) (limit_mask lb)) d = (Ok tt, with_lut i lut' d) /\
  sets_blocks (lut_of d) lut' fb lb attr /\ forall w, 0 <= lut' w < 2 ^ 32.
Proof.
  intros Hb Hlt Hlock. destruct (update_word_spec attr (fb / 32) (first_mask fb) d) as [i1 E1].
  rewrite (bind_Ok _ _ _ _ _ E1). set (d1 := with_lut i1 _ d).
  destruct (config_loop_spec attr (Z.to_nat (lb / 32 - (fb / 32 + 1))) (fb / 32 + 1) d1) as (i2 & lut2 & E2 & Hl2).
  rewrite (bind_Ok _ _ _ _ _ E2). destruct (update_word_spec attr (lb / 32) (limit_mask lb) (with_lut i2 lut2 d1))
    as [i3 E3]. rewrite E3. eexists i3, _. split; [reflexivity|].
  change (locked (mpc_reg d1)) with (locked (mpc_reg d)) in Hl2. rewrite Hlock in Hl2.
  unfold lut_put. change (locked (mpc_reg (with_lut i2 lut2 d1))) with (locked (mpc_reg d)). rewrite Hlock.
  change (lut_of (with_lut i2 lut2 d1)) with lut2.
  assert (forall w, lut_of d1 w = upd (lut_of d) (fb / 32) (lut_word attr (first_mask fb) (lut_of d (fb / 32))) w)
    as Hd1 by (intros; unfold d1, lut_put; rewrite Hlock; done).
  rewrite Z2Nat.id in Hl2 by lia. split.
  - apply sets_blocks_bits. intros w j Hw Hj.
    pose proof (word_cases fb lb w j ltac:(lia) Hlt Hj) as Hcase.
    destruct (decide (w = lb / 32)) as [->|Hwl].
    + rewrite upd_eq, lut_word_bits, limit_mask_bits, Hl2, decide_False, Hd1, upd_ne by lia.
      destruct (Z.leb_spec j (lb mod 32)); case_decide; done || lia.
    + rewrite upd_ne, Hl2 by done. destruct (decide (w = fb / 32)) as [->|Hwf].
      * rewrite decide_False, Hd1, upd_eq, lut_word_bits, first_mask_bits by lia.
        destruct (Z.leb_spec (fb mod 32) j); case_decide; done || lia.
      * rewrite Hd1, upd_ne by done. do 2 case_decide; lia || done || by apply full_word_bits.
  - assert (forall w, 0 <= lut_of d1 w < 2 ^ 32) as Hw1.
    { intros w. rewrite Hd1. unfold upd. case_decide; [|apply Hd]. apply lut_word_word; [apply u32_bound|apply Hd]. }
    assert (forall w, 0 <= lut2 w < 2 ^ 32) as Hw2.
    { intros w. rewrite Hl2. case_decide; [by destruct attr|done]. }
    intros w. unfold upd. case_decide; [|done]. apply lut_word_word; [apply limit_mask_word|done].
Qed.
End config.

Section config_region.
  Context (d : mpc_sie200_dev_t) (Hd : mpc_ok d).

Lemma check_init_eq : check_init d = (Ok tt, d).
Proof. unfold check_init. erewrite bind_Ok by reflexivity. by rewrite (mo_init d Hd). Qed.

(** A region of the range for its attribute is configured. *)
Lemma config_region_ok base limit attr r : 0 <= base -> limit < 2 ^ 32 -> locked (mpc_reg d) = false ->
  range_list d !! Z.to_nat (attr_index attr) = Some r -> range_attr r = attr -> region_in d base limit r ->
  exists i lut', mpc_sie200_config_region base limit attr d = (Ok tt, with_lut i lut' d) /\
    sets_blocks (lut_of d) lut' (block_of d r base) (block_of d r limit) attr /\ forall w, 0 <= lut' w < 2 ^ 32.
Proof.
  intros H0 H32 Hlock Hr Ha Hin. unfold mpc_sie200_config_region.
  rewrite (bind_Ok _ _ _ _ _ check_init_eq).
  assert (get_range (E := mpc_sie200_error_t) (attr_index attr) d = (Ok r, d)) as Er by (unfold get_range; by rewrite Hr).
  rewrite (bind_Ok _ _ _ _ _ Er). pose proof Hin as [Hl Hb Ho Hlim Ab Al Hm].
  destruct (Z.ltb_spec base (range_base r)), (Z.ltb_spec (range_limit r) limit); try lia.
  erewrite bind_Ok by reflexivity.
  erewrite bind_Ok by (unfold extern_error; rewrite (get_lut_masks_ok d Hd base limit r) by done; reflexivity).
  destruct (block_range d Hd base limit r) as [Hblk Hbig]; [done|lia|lia|]. unfold masks_of.
  set (fb := block_of d r base) in *. set (lb := block_of d r limit) in *.
  assert (0 <= fb / 32) by (apply Z.div_pos; lia).
  assert (lb / 32 < 2 ^ 27) by (apply Z.div_lt_upper_bound; lia).
  assert (fb / 32 <= lb / 32) by (apply Z.div_le_mono; lia).
  destruct (Z.eqb_spec (fb / 32) (lb / 32)) as [E|];
    cbn [first_word_idx nr_words first_word_mask limit_word_mask lm_range];
    rewrite Ha, bool_decide_eq_true_2 by done; erewrite bind_Ok by reflexivity.
  - change (1 =? 1) with true. cbv iota. destruct (update_word_spec attr (fb / 32) (one_mask fb lb) d) as [i ->]. eexists i, _. split; [done|].
    unfold lut_put. rewrite Hlock. split.
    + apply sets_blocks_bits. intros w j _ Hj. by apply one_word_bits.
    + intros w. unfold upd. case_decide; [|apply Hd]. apply lut_word_word; [apply u32_bound|apply Hd].
  - destruct (Z.eqb_spec (lb / 32 - fb / 32 + 1) 1); [lia|].
    rewrite u32_small by lia. replace (fb / 32 + (lb / 32 - fb / 32 + 1) - 1) with (lb / 32) by lia.
    apply config_words_spec; done || lia.
Qed.

(** The code for a request that is refused, [r] being the range of the
    attribute. *)
Definition config_error (base limit : Z) (r : mpc_sie200_memory_range_t) : mpc_sie200_error_t :=
  if decide (base < range_base r \/ range_limit r < limit) then MPC_SIE200_ERR_NOT_IN_RANGE
  else if decide (region_in d base limit r) then MPC_SIE200_ERR_RANGE_SEC_ATTR_NON_COMPATIBLE
  else region_error d base limit r.

(** Every other request is refused, before anything is written. *)
Lemma config_region_err base limit attr r : 0 <= base -> limit < 2 ^ 32 ->
  range_list d !! Z.to_nat (attr_index attr) = Some r -> ~ (range_attr r = attr /\ region_in d base limit r) ->
  mpc_sie200_config_region base limit attr d = (Err (config_error base limit r), d).
Proof.
  intros H0 H32 Hr Hno. unfold mpc_sie200_config_region, config_error.
  rewrite (bind_Ok _ _ _ _ _ check_init_eq).
  assert (get_range (E := mpc_sie200_error_t) (attr_index attr) d = (Ok r, d)) as Er by (unfold get_range; by rewrite Hr).
  rewrite (bind_Ok _ _ _ _ _ Er).
  destruct (Z.ltb_spec base (range_base r)); [by rewrite decide_True by lia|].
  destruct (Z.ltb_spec (range_limit r) limit); [by rewrite decide_True by lia|].
  rewrite decide_False by lia. erewrite bind_Ok by reflexivity. case_decide as Hin.
  - erewrite bind_Ok by (unfold extern_error; rewrite (get_lut_masks_ok d Hd base limit r) by done; reflexivity).
    assert (lm_range (masks_of d base limit r) = r) as -> by (unfold masks_of; by case_match).
    by rewrite bool_decide_eq_false_2 by (intros Ha; by apply Hno).
  - unfold bind at 1. by rewrite (get_lut_masks_err d Hd base limit _ r H0 H32 Hr).
Qed.
End config_region.

(** ** Reading a configuration *)

(** The attribute of the blocks [fb] to [lb]. *)
Definition blocks_have (lut : Z -> Z) (fb lb : Z) (attr : mpc_sie200_sec_attr_t) : Prop :=
  match attr with
  | MPC_SIE200_SEC_ATTR_SECURE => forall k, fb <= k <= lb -> block_ns lut k = false
  | MPC_SIE200_SEC_ATTR_NONSECURE => forall k, fb <= k <= lb -> block_ns lut k = true
  | MPC_SIE200_SEC_ATTR_MIXED =>
      (exists k, fb <= k <= lb /\ block_ns lut k = false) /\ (exists k, fb <= k <= lb /\ block_ns lut k = true)
  end.

(** A word that is not 0 has a bit, one that is not all of a mask lacks one. *)
Lemma word_nonzero x : 0 <= x < 2 ^ 32 -> x <> 0 -> exists j, 0 <= j < 32 /\ Z.testbit x j = true.
Proof.
  intros Hx Hn. exists (Z.log2 x). split; [|apply Z.bit_log2; lia].
  split; [apply Z.log2_nonneg|]. apply Z.log2_lt_pow2; lia.
Qed.

Lemma mask_missing w mask : 0 <= w < 2 ^ 32 -> 0 <= mask < 2 ^ 32 -> Z.land w mask <> mask ->
  exists j, 0 <= j < 32 /\ Z.testbit mask j = true /\ Z.testbit w j = false.
Proof.
  intros Hw Hm Hne.
  destruct (word_nonzero (Z.land mask (u32 (Z.lnot w)))) as (j & Hj & Hb).
  - apply land_word; [done|apply u32_bound].
  - intros Hz. apply Hne. apply word_ext; [by apply land_word|done|]. intros j Hj.
    pose proof (f_equal (fun x => Z.testbit x j) Hz) as Hbit. cbv beta in Hbit.
    rewrite Z.land_spec, testbit_u32, Z.lnot_spec, Z.testbit_0_l in Hbit by lia.
    rewrite Z.land_spec. destruct (Z.ltb_spec j 32); [|lia].
    by destruct (Z.testbit w j), (Z.testbit mask j).
  - exists j. rewrite Z.land_spec, testbit_u32, Z.lnot_spec in Hb by lia.
    apply andb_true_iff in Hb as [? Hb]. apply andb_true_iff in Hb as [_ Hb]. by apply negb_true_iff in Hb.
Qed.

(** What a word says of the blocks of a mask. *)
Definition word_has (w mask : Z) (attr : mpc_sie200_sec_attr_t) : Prop :=
  match attr with
  | MPC_SIE200_SEC_ATTR_SECURE => forall j, 0 <= j < 32 -> Z.testbit mask j = true -> Z.testbit w j = false
  | MPC_SIE200_SEC_ATTR_NONSECURE => forall j, 0 <= j < 32 -> Z.testbit mask j = true -> Z.testbit w j = true
  | MPC_SIE200_SEC_ATTR_MIXED =>
      (exists j, 0 <= j < 32 /\ Z.testbit mask j = true /\ Z.testbit w j = false) /\
      (exists j, 0 <= j < 32 /\ Z.testbit mask j = true /\ Z.testbit w j = true)
  end.

Lemma masked_attr_spec w mask : 0 <= w < 2 ^ 32 -> 0 <= mask < 2 ^ 32 ->
  word_has w mask (masked_attr (Z.land w mask) mask).
Proof.
  intros Hw Hm. unfold masked_attr. destruct (Z.eqb_spec (Z.land w mask) 0) as [Hz|Hn].
  - intros j Hj Hb. pose proof (f_equal (fun x => Z.testbit x j) Hz) as Hbit. cbv beta in Hbit.
    rewrite Z.land_spec, Hb, andb_true_r, Z.testbit_0_l in Hbit. done.
  - destruct (Z.eqb_spec (Z.lxor (Z.land w mask) mask) 0) as [Hx|Hx]; cbn [negb].
    + apply Z.lxor_eq in Hx. intros j Hj Hb. pose proof (f_equal (fun x => Z.testbit x j) Hx) as Hbit.
      cbv beta in Hbit. rewrite Z.land_spec, Hb, andb_true_r in Hbit. done.
    + split.
      * apply mask_missing; [done..|]. intros E. by rewrite E, Z.lxor_nilpotent in Hx.
      * destruct (word_nonzero _ (land_word w mask Hw Hm) Hn) as (j & Hj & Hb). exists j.
        rewrite Z.land_spec in Hb. by apply andb_true_iff in Hb as [].
Qed.

(** ** Addresses rounded to blocks *)

Lemma round_down d x : mpc_ok d -> 0 <= x < 2 ^ 32 ->
  Z.land x (u32 (Z.lnot (u32 (block_size d - 1)))) = x - x mod block_size d.
Proof.
  intros Hd Hx. pose proof (mo_cfg d Hd). unfold block_size. set (n := blk_cfg (mpc_reg d) + 5).
  assert (0 <= n < 32) as Hn by (unfold n; lia).
  rewrite u32_pow2_pred by lia. replace (x - x mod 2 ^ n) with (Z.ldiff x (Z.ones n)).
  - apply Z.bits_inj'. intros j Hj. rewrite Z.land_spec, testbit_u32, Z.lnot_spec, Z.ldiff_spec by lia.
    destruct (Z.ltb_spec j 32); [done|]. rewrite <- (u32_small x), testbit_u32 by lia.
    by destruct (Z.ltb_spec j 32); [lia|].
  - rewrite Z.ldiff_ones_r, Z.shiftl_mul_pow2, Z.shiftr_div_pow2 by lia.
    pose proof (Z.div_mod x (2 ^ n)). lia.
Qed.

(** What a whole word says of its blocks. *)
Definition word_attr (w : Z) : mpc_sie200_sec_attr_t :=
  if w =? 0 then MPC_SIE200_SEC_ATTR_SECURE
  else if w =? 0xFFFFFFFF then MPC_SIE200_SEC_ATTR_NONSECURE else MPC_SIE200_SEC_ATTR_MIXED.

Lemma word_attr_full w a : a <> MPC_SIE200_SEC_ATTR_MIXED -> word_attr w = a <-> w = full_word a.
Proof.
  intros Ha. unfold word_attr. destruct (Z.eqb_spec w 0) as [->|]; [by destruct a|].
  destruct (Z.eqb_spec w 0xFFFFFFFF) as [->|]; by destruct a.
Qed.

Lemma word_attr_mixed w : word_attr w = MPC_SIE200_SEC_ATTR_MIXED -> w <> 0 /\ w <> 0xFFFFFFFF.
Proof. unfold word_attr. destruct (Z.eqb_spec w 0), (Z.eqb_spec w 0xFFFFFFFF); done. Qed.

Lemma masked_full w : 0 <= w < 2 ^ 32 ->
  masked_attr (Z.land w 0xFFFFFFFF) 0xFFFFFFFF = word_attr w.
Proof.
  intros Hw. unfold word_attr. change 0xFFFFFFFF with (Z.ones 32). rewrite Z.land_ones, Z.mod_small by lia. unfold masked_attr.
  destruct (Z.eqb_spec w 0); [done|]. destruct (Z.eqb_spec w (Z.ones 32)) as [->|Hne].
  - by rewrite Z.lxor_nilpotent.
  - destruct (Z.eqb_spec (Z.lxor w (Z.ones 32)) 0) as [Hx|]; [|done]. by apply Z.lxor_eq in Hx.
Qed.

Section whole_words.
  Context (lut : Z -> Z) (Hlut : forall w, 0 <= lut w < 2 ^ 32) (fw lw : Z) (Hfw : 0 <= fw <= lw).

Lemma same_words attr : attr <> MPC_SIE200_SEC_ATTR_MIXED -> (forall w, fw <= w <= lw -> lut w = full_word attr) ->
  blocks_have lut (32 * fw) (32 * lw + 31) attr.
Proof.
  intros Hm Hall.
  assert (forall k, 32 * fw <= k <= 32 * lw + 31 ->
    block_ns lut k = bool_decide (attr = MPC_SIE200_SEC_ATTR_NONSECURE)) as Hk.
  { intros k Hk. unfold block_ns. rewrite Hall by (pose proof (Z.div_mod k 32); pose proof (Z.mod_pos_bound k 32); lia).
    apply full_word_bits. apply Z.mod_pos_bound. lia. }
  destruct attr; [intros k Hin; by rewrite (Hk k Hin)..|done].
Qed.

Lemma word_block w j : 0 <= j < 32 -> block_ns lut (32 * w + j) = Z.testbit (lut w) j.
Proof.
  intros. unfold block_ns. f_equal; [f_equal|].
  - symmetry. apply (Z.div_unique_pos _ _ _ j); lia.
  - symmetry. apply (Z.mod_unique_pos _ _ w); lia.
Qed.

Lemma mixed_words w1 w2 : fw <= w1 <= lw -> fw <= w2 <= lw -> lut w1 <> 0 -> lut w2 <> 0xFFFFFFFF ->
  blocks_have lut (32 * fw) (32 * lw + 31) MPC_SIE200_SEC_ATTR_MIXED.
Proof.
  intros H1 H2 Hn1 Hn2. split.
  - destruct (mask_missing (lut w2) 0xFFFFFFFF) as (j & Hj & _ & Hb); [done|lia| |].
    + change 0xFFFFFFFF with (Z.ones 32) at 1. rewrite Z.land_ones, Z.mod_small by (done || lia). done.
    + exists (32 * w2 + j). rewrite word_block by done. split; [lia|done].
  - destruct (word_nonzero (lut w1)) as (j & Hj & Hb); [done|done|].
    exists (32 * w1 + j). rewrite word_block by done. split; [lia|done].
Qed.
End whole_words.

Lemma region_loop_spec n i prev d : prev <> MPC_SIE200_SEC_ATTR_MIXED -> exists j o,
  region_words_loop n i prev d = (Ok o, with_lut j (lut_of d) d) /\
  match o with
  | Some a => a = prev /\ forall w, i <= w < i + Z.of_nat n -> lut_of d w = full_word prev
  | None => exists w, i <= w < i + Z.of_nat n /\ lut_of d w <> full_word prev
  end.
Proof.
  intros Hp. revert i d. induction n as [|n IH]; intros i d; cbn [region_words_loop].
  - exists (blk_idx (mpc_reg d)), (Some prev). split; [by destruct d as [[]]|]. split; [done|]. lia.
  - destruct (read_word_spec (E := mpc_sie200_error_t) i d) as [j0 E0]. rewrite bind_assoc, (bind_Ok _ _ _ _ _ E0).
    change (if lut_of d i =? 0 then _ else _) with (word_attr (lut_of d i)).
    pose proof (word_attr_full (lut_of d i) prev Hp) as Ha. set (a := word_attr (lut_of d i)) in *.
    destruct (decide (a = prev)) as [->|Hne].
    + rewrite bool_decide_eq_false_2, bool_decide_eq_false_2 by (done || tauto).
      destruct (IH (i + 1) (with_lut j0 (lut_of d) d)) as (j & o & -> & Ho). exists j, o. split; [done|].
      change (lut_of (with_lut j0 (lut_of d) d)) with (lut_of d) in Ho. pose proof (proj1 Ha eq_refl).
      destruct o as [a'|]; [destruct Ho as [-> Ho]; split; [done|]; intros w Hw|destruct Ho as (w & Hw & Ho)].
      * destruct (decide (w = i)) as [->|]; [done|]. apply Ho. lia.
      * exists w. split; [lia|done].
    + exists j0, None. split; [|exists i; split; [lia|tauto]].
      case_bool_decide; [done|]. by rewrite bool_decide_eq_true_2.
Qed.

Section read_region.
  Context (d : mpc_sie200_dev_t) (Hd : mpc_ok d).

(** The region rounded out to blocks. *)
Definition block_base (a : Z) : Z := a - a mod block_size d.
Definition block_limit (a : Z) : Z := a - a mod block_size d + block_size d - 1.

(** The blocks of the region lie in one word, or fill their words. *)
Definition mask_readable (fb lb : Z) : Prop := fb / 32 = lb / 32 \/ (fb mod 32 = 0 /\ lb mod 32 = 31).

Lemma block_limit_u32 a : 0 <= a < 2 ^ 32 -> u32 (block_limit a) = block_limit a.
Proof.
  intros Ha. pose proof (block_size_bounds d Hd). pose proof (Z.mod_pos_bound a (block_size d)).
  unfold block_limit. apply u32_small. split; [lia|].
  pose proof (mo_cfg d Hd). assert (2 ^ 32 = 2 ^ (27 - blk_cfg (mpc_reg d)) * block_size d) as E.
  { unfold block_size. rewrite <- Z.pow_add_r by lia. f_equal. lia. }
  pose proof (Z.div_mod a (block_size d)).
  assert (a / block_size d < 2 ^ (27 - blk_cfg (mpc_reg d))) by (apply Z.div_lt_upper_bound; lia). nia.
Qed.

Lemma one_word_has fb lb attr : 0 <= fb <= lb -> fb / 32 = lb / 32 ->
  word_has (lut_of d (fb / 32)) (one_mask fb lb) attr -> blocks_have (lut_of d) fb lb attr.
Proof.
  intros Hb E. pose proof (Z.div_mod fb 32). pose proof (Z.div_mod lb 32).
  pose proof (Z.mod_pos_bound fb 32). pose proof (Z.mod_pos_bound lb 32).
  assert (forall k, fb <= k <= lb -> k / 32 = fb / 32 /\ 0 <= k mod 32 < 32 /\
    Z.testbit (one_mask fb lb) (k mod 32) = true) as Hk.
  { intros k Hk. pose proof (Z.div_mod k 32). pose proof (Z.mod_pos_bound k 32).
    assert (k / 32 = fb / 32) by lia. split; [done|]. split; [lia|]. rewrite one_mask_bits by lia.
    apply andb_true_iff. split; apply Z.leb_le; lia. }
  assert (forall j, 0 <= j < 32 -> Z.testbit (one_mask fb lb) j = true -> fb <= 32 * (fb / 32) + j <= lb) as Hj.
  { intros j Hj Hbit. rewrite one_mask_bits in Hbit by lia.
    apply andb_true_iff in Hbit as [?%Z.leb_le ?%Z.leb_le]. lia. }
  destruct attr; cbn [word_has blocks_have]; intros Hw.
  - intros k (Hq & Hr & Hbit)%Hk. unfold block_ns. rewrite Hq. by apply Hw.
  - intros k (Hq & Hr & Hbit)%Hk. unfold block_ns. rewrite Hq. by apply Hw.
  - destruct Hw as [(j1 & J1 & M1 & B1) (j2 & J2 & M2 & B2)]. split.
    + exists (32 * (fb / 32) + j1). rewrite word_block by done. split; [by apply Hj|done].
    + exists (32 * (fb / 32) + j2). rewrite word_block by done. split; [by apply Hj|done].
Qed.

(** The rest of the function once the masks are known. *)
Definition read_masks (m : lut_masks) : MPC mpc_sie200_sec_attr_t :=
  let limit_word_idx := u32 (first_word_idx m + nr_words m - 1) in
  write_reg (set_blk_idx (first_word_idx m)) ;;
  w <- read_lutn ;;
  let attr_prev := masked_attr (Z.land w (first_word_mask m)) (first_word_mask m) in
  if nr_words m =? 1 then ret attr_prev
  else if bool_decide (attr_prev = MPC_SIE200_SEC_ATTR_MIXED) then ret MPC_SIE200_SEC_ATTR_MIXED
  else
    inner <- region_words_loop (Z.to_nat (limit_word_idx - (first_word_idx m + 1))) (first_word_idx m + 1) attr_prev ;;
    match inner with
    | None => ret MPC_SIE200_SEC_ATTR_MIXED
    | Some attr_prev =>
        write_reg (set_blk_idx limit_word_idx) ;;
        w <- read_lutn ;;
        let attr := masked_attr (Z.land w (limit_word_mask m)) (first_word_mask m) in
        ret (if bool_decide (attr = attr_prev) then attr else MPC_SIE200_SEC_ATTR_MIXED)
    end.

Lemma get_region_config_masks base limit r : 0 <= base < 2 ^ 32 -> 0 <= limit < 2 ^ 32 ->
  region_in d (block_base base) (block_limit limit) r ->
  mpc_sie200_get_region_config base limit true d = read_masks (masks_of d (block_base base) (block_limit limit) r) d.
Proof.
  intros Hb Hl Hin. unfold mpc_sie200_get_region_config.
  rewrite (bind_Ok _ _ _ _ _ (check_init_eq d Hd)). erewrite bind_Ok by reflexivity.
  rewrite (bind_Ok _ _ _ _ _ (get_block_size_eq d Hd)), !(round_down d) by done.
  fold (block_base base). replace (limit - limit mod block_size d + block_size d - 1) with (block_limit limit) by done.
  rewrite block_limit_u32 by done. pose proof (block_size_bounds d Hd).
  pose proof (Z.mod_pos_bound base (block_size d)). pose proof (Z.mod_le base (block_size d)).
  pose proof (u32_bound (block_limit limit)) as Hlt. rewrite block_limit_u32 in Hlt by done.
  erewrite bind_Ok by (unfold extern_error; rewrite (get_lut_masks_ok d Hd _ _ r) by (done || unfold block_base; lia);
    reflexivity).
  done.
Qed.

Lemma read_whole_words r fw lw : 0 <= fw < lw -> lw < 2 ^ 27 -> exists i a,
  read_masks (LutMasks r fw (lw - fw + 1) 0xFFFFFFFF 0xFFFFFFFF) d = (Ok a, with_lut i (lut_of d) d) /\
  blocks_have (lut_of d) (32 * fw) (32 * lw + 31) a.
Proof.
  intros Hw Hlw. unfold read_masks. cbn [first_word_idx nr_words first_word_mask limit_word_mask].
  rewrite u32_small by lia. replace (fw + (lw - fw + 1) - 1) with lw by lia.
  destruct (read_word_spec (E := mpc_sie200_error_t) fw d) as [i1 E1]. rewrite bind_assoc, (bind_Ok _ _ _ _ _ E1).
  destruct (Z.eqb_spec (lw - fw + 1) 1); [lia|]. rewrite masked_full by apply Hd.
  pose proof (mo_lut d Hd : forall w, 0 <= lut_of d w < 2 ^ 32) as Hlut. set (a1 := word_attr (lut_of d fw)).
  case_bool_decide as Ha1.
  { apply word_attr_mixed in Ha1 as []. eexists _, _. split; [reflexivity|].
    apply (mixed_words _ Hlut fw lw fw fw); done || lia. }
  pose proof (proj1 (word_attr_full _ _ Ha1) eq_refl) as Hf.
  destruct (region_loop_spec (Z.to_nat (lw - (fw + 1))) (fw + 1) a1 (with_lut i1 (lut_of d) d) Ha1)
    as (i2 & o & E2 & Ho). rewrite (bind_Ok _ _ _ _ _ E2).
  change (lut_of (with_lut i1 (lut_of d) d)) with (lut_of d) in Ho. rewrite Z2Nat.id in Ho by lia.
  assert (forall w, fw <= w <= lw -> lut_of d w <> full_word a1 ->
    blocks_have (lut_of d) (32 * fw) (32 * lw + 31) MPC_SIE200_SEC_ATTR_MIXED) as Hmix.
  { intros w Hwr Hne. destruct a1; cbn [full_word] in *; [| |done].
    - apply (mixed_words _ Hlut fw lw w fw); lia || done.
    - apply (mixed_words _ Hlut fw lw fw w); lia || done. }
  destruct o as [a|].
  2: { destruct Ho as (w & Hwr & Hne). eexists _, _. split; [reflexivity|]. apply (Hmix w); done || lia. }
  destruct Ho as [-> Ho].
  destruct (read_word_spec (E := mpc_sie200_error_t) lw (with_lut i2 (lut_of d) d)) as [i3 E3].
  rewrite bind_assoc, (bind_Ok _ _ _ _ _ E3), masked_full by apply Hd. eexists _, _. split; [reflexivity|].
  change (lut_of (with_lut i2 (lut_of d) d)) with (lut_of d).
  case_bool_decide as Hlast; [|apply (Hmix lw); [lia|]; by rewrite <- word_attr_full].
  rewrite Hlast. apply same_words; [done..|]. intros w Hwr. apply word_attr_full in Hlast; [|done].
  destruct (decide (w = fw)) as [->|]; [done|]. destruct (decide (w = lw)) as [->|]; [done|]. apply Ho. lia.
Qed.

Lemma block_of_base a r : r ∈ range_list d -> block_of d r (block_base a) = block_of d r a.
Proof.
  intros Hr. apply list_elem_of_lookup in Hr as [i Hi]. pose proof (mo_ranges d Hd i r Hi) as (_ & _ & Hz).
  pose proof (block_size_bounds d Hd). apply Z.mod_divide in Hz as [z Hz]; [|lia]. unfold block_of, block_base.
  pose proof (Z.div_mod a (block_size d)). pose proof (Z.mod_pos_bound a (block_size d)).
  transitivity (a / block_size d - z); [symmetry|].
  - apply (Z.div_unique_pos _ _ _ 0); lia.
  - apply (Z.div_unique_pos _ _ _ (a mod block_size d)); lia.
Qed.

Lemma block_of_limit a r : r ∈ range_list d -> block_of d r (block_limit a) = block_of d r a.
Proof.
  intros Hr. rewrite <- (block_of_base a r Hr). apply list_elem_of_lookup in Hr as [i Hi].
  pose proof (mo_ranges d Hd i r Hi) as (_ & _ & Hz). pose proof (block_size_bounds d Hd).
  assert ((block_base a - range_base r) mod block_size d = 0) as Hm.
  { unfold block_base. rewrite Zminus_mod, Hz, Zminus_mod_idemp_r, Z.sub_diag, Z.sub_0_r, Z.mod_0_l by lia.
    done. }
  unfold block_of. apply Z.mod_divide in Hm as [q Hq]; [|lia]. rewrite Hq, Z.div_mul by lia.
  symmetry. apply (Z.div_unique_pos _ _ _ (block_size d - 1)); [lia|].
  unfold block_limit. fold (block_base a). lia.
Qed.

Lemma get_region_config_spec base limit r : 0 <= base < 2 ^ 32 -> 0 <= limit < 2 ^ 32 ->
  region_in d (block_base base) (block_limit limit) r ->
  mask_readable (block_of d r base) (block_of d r limit) -> exists i a,
  mpc_sie200_get_region_config base limit true d = (Ok a, with_lut i (lut_of d) d) /\
  blocks_have (lut_of d) (block_of d r base) (block_of d r limit) a.
Proof.
  intros Hb Hl Hin Hread. rewrite (get_region_config_masks base limit r) by done.
  pose proof Hin as [Hr Hb1 Ho1 Hl1 _ _ _]. pose proof (block_range d Hd _ _ r Hr (conj Hb1 Ho1) Hl1) as [Hblk Hbig].
  unfold masks_of. rewrite !(block_of_base _ r), !(block_of_limit _ r) in * by done.
  set (fb := block_of d r base) in *. set (lb := block_of d r limit) in *.
  destruct (Z.eqb_spec (fb / 32) (lb / 32)) as [E|Hne].
  - unfold read_masks. cbn [first_word_idx nr_words first_word_mask limit_word_mask].
    destruct (read_word_spec (E := mpc_sie200_error_t) (fb / 32) d) as [i1 E1].
    rewrite bind_assoc, (bind_Ok _ _ _ _ _ E1). eexists _, _. split; [reflexivity|].
    apply one_word_has; [done..|]. apply masked_attr_spec; [apply Hd|apply u32_bound].
  - destruct Hread as [|[Hf Hl']]; [done|]. pose proof (Z.div_mod fb 32). pose proof (Z.div_mod lb 32).
    assert (fb / 32 <= lb / 32) by (apply Z.div_le_mono; lia).
    assert (lb / 32 < 2 ^ 27) by (apply Z.div_lt_upper_bound; lia).
    assert (0 <= fb / 32) by (apply Z.div_pos; lia).
    assert (first_mask fb = 0xFFFFFFFF) as -> by (unfold first_mask; by rewrite Hf).
    assert (limit_mask lb = 0xFFFFFFFF) as -> by (by rewrite limit_mask_eq, Hl').
    destruct (read_whole_words r (fb / 32) (lb / 32)) as (i & a & E & Ha); [lia..|]. exists i, a. split; [done|].
    by replace (32 * (lb / 32) + 31) with lb in Ha by lia; replace (32 * (fb / 32)) with fb in Ha by lia.
Qed.
End read_region.
