(* ===== verification/MpcClaims.v ===== *)
(** * Memory protection controller: claims

    Configuring a region changes exactly its blocks; reading a configuration
    back is exact for a region in one word of the table, and can report a
    region with secure blocks as non-secure when it spans two; a locked
    controller keeps its table whatever the driver is asked. *)

From S2P Require Import Prelude Mpc MpcSpec.

(** ** Calls of the driver *)

Inductive mpc_call :=
  | CallInit (ranges : option (list mpc_sie200_memory_range_t)) (n : Z)
  | CallConfigRegion (base limit : Z) (attr : mpc_sie200_sec_attr_t)
  | CallGetRegionConfig (base limit : Z) (attr : bool)
  | CallGetBlockSize (blk_size : bool)
  | CallGetCtrl (ctrl_val : bool)
  | CallSetCtrl (v : Z)
  | CallGetSecResp (sec_rep : bool)
  | CallIrqEnable
  | CallIrqDisable
  | CallClearIrq
  | CallIrqState
  | CallLockDown.

Definition run_mpc_call (c : mpc_call) (d : mpc_sie200_dev_t) : mpc_sie200_dev_t :=
  match c with
  | CallInit ranges n => snd (mpc_sie200_init ranges n d)
  | CallConfigRegion base limit attr => snd (mpc_sie200_config_region base limit attr d)
  | CallGetRegionConfig base limit attr => snd (mpc_sie200_get_region_config base limit attr d)
  | CallGetBlockSize blk_size => snd (mpc_sie200_get_block_size blk_size d)
  | CallGetCtrl ctrl_val => snd (mpc_sie200_get_ctrl ctrl_val d)
  | CallSetCtrl v => snd (mpc_sie200_set_ctrl v d)
  | CallGetSecResp sec_rep => snd (mpc_sie200_get_sec_resp sec_rep d)
  | CallIrqEnable => snd (mpc_sie200_irq_enable d)
  | CallIrqDisable => snd (mpc_sie200_irq_disable d)
  | CallClearIrq => snd (mpc_sie200_clear_irq d)
  | CallIrqState => snd (mpc_sie200_irq_state d)
  | CallLockDown => snd (mpc_sie200_lock_down d)
  end.

(** ** A locked controller *)

(** From a locked controller [m] leaves the table and the lock as they are. *)
Definition keeps_lock {E A} (m : M mpc_sie200_dev_t E A) : Prop := forall d, locked (mpc_reg d) = true ->
  lut_of (snd (m d)) = lut_of d /\ locked (mpc_reg (snd (m d))) = true.

Section keeps.
  Context {E : Type}.

Lemma keeps_bind {A B} (m : M mpc_sie200_dev_t E A) (k : A -> M mpc_sie200_dev_t E B) :
  keeps_lock m -> (forall a, keeps_lock (k a)) -> keeps_lock (bind m k).
Proof.
  intros Hm Hk d Hl. unfold bind. specialize (Hm d Hl). destruct (m d) as [[a|e|] d1]; cbn [snd] in *; [|done..].
  destruct Hm as [E1 Hl1]. destruct (Hk a d1 Hl1) as [E2 Hl2]. by rewrite E2, E1.
Qed.

Lemma keeps_pure {A} (m : M mpc_sie200_dev_t E A) : (forall d, snd (m d) = d) -> keeps_lock m.
Proof. intros H d Hl. by rewrite H. Qed.

Lemma keeps_write (f : mpc_sie200_reg_map_t -> mpc_sie200_reg_map_t) :
  (forall r, locked r = true -> blk_lut (f r) = blk_lut r /\ locked (f r) = true) ->
  keeps_lock (write_reg (E := E) f).
Proof. intros H d Hl. apply (H (mpc_reg d) Hl). Qed.

Lemma keeps_ret {A} (a : A) : keeps_lock (ret (E := E) a).
Proof. by apply keeps_pure. Qed.
Lemma keeps_fail {A} (e : E) : keeps_lock (fail (A := A) e).
Proof. by apply keeps_pure. Qed.
Lemma keeps_in_bounds b : keeps_lock (in_bounds (E := E) b).
Proof. apply keeps_pure. by destruct b. Qed.
Lemma keeps_guard b (e : E) : keeps_lock (guard b e).
Proof. apply keeps_pure. by destruct b. Qed.
Lemma keeps_gets {A} (f : mpc_sie200_dev_t -> A) : keeps_lock (gets (E := E) f).
Proof. by apply keeps_pure. Qed.
Lemma keeps_range i : keeps_lock (get_range (E := E) i).
Proof. apply keeps_pure. intros d. unfold get_range. by case_match. Qed.
Lemma keeps_block_size : keeps_lock (get_block_size (E := E)).
Proof. apply keeps_pure. intros d. unfold get_block_size, bind, gets, shl1, in_bounds. by case_match. Qed.
Lemma keeps_blk_idx v : keeps_lock (write_reg (E := E) (set_blk_idx v)).
Proof. by apply keeps_write. Qed.
Lemma keeps_read : keeps_lock (read_lutn (E := E)).
Proof. by intros d Hl. Qed.
Lemma keeps_lutn v : keeps_lock (write_reg (E := E) (set_lutn v)).
Proof. apply keeps_write. intros r Hl. split; [|done]. cbn. by rewrite Hl. Qed.
Lemma keeps_ctrl f : keeps_lock (write_reg (E := E) (fun r => set_ctrl (f r) r)).
Proof. apply keeps_write. intros r Hl. split; [done|]. unfold set_ctrl, locked in *. cbn. by rewrite Hl. Qed.
Lemma keeps_int_en f : keeps_lock (write_reg (E := E) (fun r => set_int_en (f r) r)).
Proof. by apply keeps_write. Qed.
Lemma keeps_ctrl_loop n i addr : keeps_lock (ctrl_by_range_loop (E := E) n i addr).
Proof.
  revert i. induction n as [|n IH]; intros i; cbn; [apply keeps_ret|].
  apply keeps_bind; [apply keeps_range|]. intros r. case_match; [apply keeps_ret|apply IH].
Qed.
End keeps.

Create HintDb mpc_keeps.
#[export] Hint Resolve keeps_bind keeps_ret keeps_fail keeps_in_bounds keeps_guard keeps_gets keeps_range keeps_block_size keeps_blk_idx
  keeps_read keeps_lutn keeps_ctrl keeps_int_en keeps_ctrl_loop : mpc_keeps.

Ltac keeps := repeat first
  [ progress intros | apply keeps_bind | solve [auto with mpc_keeps] | case_match ].

Lemma keeps_init_check : keeps_lock check_init.
Proof. unfold check_init. keeps. Qed.

Lemma keeps_masks base limit : keeps_lock (get_lut_masks base limit).
Proof.
  unfold get_lut_masks, is_ctrl_by_range_list, shl1, not_in_range. keeps.
Qed.

Lemma keeps_extern {A} (m : M mpc_sie200_dev_t mpc_sie200_intern_error_t A) : keeps_lock m -> keeps_lock (extern_error m).
Proof.
  intros Hm d Hl. specialize (Hm d Hl). unfold extern_error.
  by destruct (m d) as [[a|[e|]|] d1].
Qed.

#[export] Hint Resolve keeps_init_check keeps_masks keeps_extern : mpc_keeps.

Lemma keeps_update attr idx mask : keeps_lock (update_word attr idx mask).
Proof. unfold update_word. keeps. Qed.

Lemma keeps_config_loop attr n i : keeps_lock (config_words_loop attr n i).
Proof. revert i. induction n; intros i; cbn; keeps. Qed.

Lemma keeps_region_loop n i a : keeps_lock (region_words_loop n i a).
Proof. revert i a. induction n; intros i a; cbn; keeps. Qed.

#[export] Hint Resolve keeps_update keeps_config_loop keeps_region_loop : mpc_keeps.

Lemma call_keeps_lock c d : locked (mpc_reg d) = true ->
  lut_of (run_mpc_call c d) = lut_of d /\ locked (mpc_reg (run_mpc_call c d)) = true.
Proof.
  intros Hl. destruct c; cbn [run_mpc_call].
  - unfold mpc_sie200_init. destruct ranges; [case_match|]; done.
  - revert d Hl. change (keeps_lock (mpc_sie200_config_region base limit attr)). unfold mpc_sie200_config_region. keeps.
  - revert d Hl. change (keeps_lock (mpc_sie200_get_region_config base limit attr)).
    unfold mpc_sie200_get_region_config. keeps.
  - revert d Hl. change (keeps_lock (mpc_sie200_get_block_size blk_size)). unfold mpc_sie200_get_block_size. keeps.
  - revert d Hl. change (keeps_lock (mpc_sie200_get_ctrl ctrl_val)). unfold mpc_sie200_get_ctrl. keeps.
  - revert d Hl. change (keeps_lock (mpc_sie200_set_ctrl v)). unfold mpc_sie200_set_ctrl. keeps.
  - revert d Hl. change (keeps_lock (mpc_sie200_get_sec_resp sec_rep)). unfold mpc_sie200_get_sec_resp. keeps.
  - revert d Hl. change (keeps_lock mpc_sie200_irq_enable). unfold mpc_sie200_irq_enable. keeps.
  - by apply (keeps_int_en (E := mpc_sie200_error_t) _ d).
  - done.
  - done.
  - revert d Hl. change (keeps_lock mpc_sie200_lock_down). unfold mpc_sie200_lock_down. keeps.
Qed.

(** ** Claims *)

(** C31: configuring a region of a controller that is not locked gives exactly
    the blocks from [base] to [limit] the attribute, whatever the alignment of
    the region to the words of the table, and leaves every other block and
    register alone.  Every other request writes nothing and is refused with the
    code for what is wrong with it ([config_error], by decreasing precedence):
    outside the range of the attribute, or with an end in no range, not in range;
    with ends in two ranges, invalid range; not aligned to blocks, not aligned;
    upside down or beyond the table, invalid range; in a range for another
    attribute, not compatible. *)
Theorem config_region_exact (d : mpc_sie200_dev_t) (base limit : Z) (attr : mpc_sie200_sec_attr_t)
    (r : mpc_sie200_memory_range_t) :
  mpc_ok d -> locked (mpc_reg d) = false -> 0 <= base -> limit < 2 ^ 32 ->
  range_list d !! Z.to_nat (attr_index attr) = Some r ->
  (range_attr r = attr -> region_in d base limit r -> exists i lut',
     mpc_sie200_config_region base limit attr d = (Ok tt, with_lut i lut' d) /\
     mpc_ok (with_lut i lut' d) /\
     forall k, 0 <= k -> block_ns lut' k =
       if decide (block_of d r base <= k <= block_of d r limit)
       then bool_decide (attr = MPC_SIE200_SEC_ATTR_NONSECURE) else block_ns (lut_of d) k) /\
  (~ (range_attr r = attr /\ region_in d base limit r) ->
     mpc_sie200_config_region base limit attr d = (Err (config_error d base limit r), d)).
Proof.
  intros Hd Hlock Hb Hl Hr. split.
  - intros Hra Hin.
    destruct (config_region_ok d Hd base limit attr r Hb Hl Hlock Hr Hra Hin) as (i & lut' & E & Hs & Hw).
    exists i, lut'. split; [done|]. split; [by apply mpc_ok_with_lut|done].
  - by apply config_region_err.
Qed.

(** C34: reading back a region whose blocks lie in one word of the table, or fill
    their words, returns secure when all of its blocks are secure, non-secure
    when all are non-secure and mixed otherwise, and changes no block. *)
Theorem region_config_exact (d : mpc_sie200_dev_t) (base limit : Z) (r : mpc_sie200_memory_range_t) :
  mpc_ok d -> 0 <= base < 2 ^ 32 -> 0 <= limit < 2 ^ 32 ->
  region_in d (block_base d base) (block_limit d limit) r ->
  mask_readable (block_of d r base) (block_of d r limit) ->
  exists i a, mpc_sie200_get_region_config base limit true d = (Ok a, with_lut i (lut_of d) d) /\
    blocks_have (lut_of d) (block_of d r base) (block_of d r limit) a.
Proof. intros Hd. by apply get_region_config_spec. Qed.

(** Once the controller is locked, no sequence of calls of the driver
    changes the attribute of a block or opens the lock. *)
Theorem locked_table_kept (cs : list mpc_call) (d : mpc_sie200_dev_t) :
  locked (mpc_reg d) = true ->
  let d' := fold_left (fun d c => run_mpc_call c d) cs d in
  lut_of d' = lut_of d /\ locked (mpc_reg d') = true.
Proof.
  revert d. induction cs as [|c cs IH]; intros d Hl; cbn; [done|].
  destruct (call_keeps_lock c d Hl) as [E1 Hl1]. destruct (IH _ Hl1) as [E2 Hl2]. by rewrite E2, E1.
Qed.

(** ** Instances *)

Module MpcExample.

(** A controller of 64 blocks of 128 KB with its two aliases, as it comes out of
    reset: everything secure and the index set to move. *)
Definition ranges : list mpc_sie200_memory_range_t :=
  [ MpcRange 0x10000000 0x107FFFFF MPC_SIE200_SEC_ATTR_SECURE;
    MpcRange 0x00000000 0x007FFFFF MPC_SIE200_SEC_ATTR_NONSECURE ].

Definition dev : mpc_sie200_dev_t :=
  MpcDev (MpcRegs 0x100 1 12 0 (fun _ => 0) 0 1) ranges 2 MPC_SIE200_INITIALIZED.

Lemma two_ranges i r : ranges !! i = Some r -> (i = 0%nat /\ r = MpcRange 0x10000000 0x107FFFFF MPC_SIE200_SEC_ATTR_SECURE) \/
  (i = 1%nat /\ r = MpcRange 0x00000000 0x007FFFFF MPC_SIE200_SEC_ATTR_NONSECURE).
Proof. destruct i as [|[|i]]; cbn; intros; simplify_eq; auto. Qed.

Lemma ok_with lut : (forall w, 0 <= lut w < 2 ^ 32) -> mpc_ok (with_lut 0 lut dev).
Proof.
  intros Hl. split; try done.
  - intros i r [[-> ->]|[-> ->]]%two_ranges; vm_compute; repeat split; discriminate.
  - intros i j r r' a [[-> ->]|[-> ->]]%two_ranges [[-> ->]|[-> ->]]%two_ranges; cbn; lia.
Qed.

Lemma config_region_exact_witness :
  (exists i lut', mpc_sie200_config_region 0x3E0000 0x5FFFFF MPC_SIE200_SEC_ATTR_NONSECURE dev =
    (Ok tt, with_lut i lut' dev) /\ block_ns lut' 31 = true /\ block_ns lut' 47 = true /\
    block_ns lut' 30 = false /\ block_ns lut' 48 = false) /\
  mpc_sie200_config_region 0x3E0000 0x5FFFFE MPC_SIE200_SEC_ATTR_NONSECURE dev = (Err MPC_SIE200_ERR_NOT_ALIGNED, dev).
Proof.
  pose proof (fun base limit => config_region_exact dev base limit MPC_SIE200_SEC_ATTR_NONSECURE
    (MpcRange 0x00000000 0x007FFFFF MPC_SIE200_SEC_ATTR_NONSECURE) (ok_with (fun _ => 0) ltac:(intros; lia)) eq_refl) as H.
  split.
  - destruct (H 0x3E0000 0x5FFFFF) as [Hok _]; [lia|lia|reflexivity|].
    destruct Hok as (i & lut' & E & _ & Hb); [reflexivity| |].
    { split; try (vm_compute; discriminate || reflexivity). apply (list_elem_of_lookup_2 _ 1). reflexivity. }
    exists i, lut'. split; [exact E|].
    rewrite !Hb by lia. vm_compute. repeat split; reflexivity.
  - destruct (H 0x3E0000 0x5FFFFE) as [_ Herr]; [lia|lia|reflexivity|]. apply Herr.
    intros [_ [_ _ _ _ _ Hal _]]. vm_compute in Hal. discriminate.
Defined.

Lemma region_config_exact_witness :
  exists i a, mpc_sie200_get_region_config 0x3E0001 0x3E0002 true dev = (Ok a, with_lut i (fun _ => 0) dev) /\
    blocks_have (fun _ => 0) 31 31 a.
Proof.
  apply (region_config_exact dev 0x3E0001 0x3E0002 (MpcRange 0x00000000 0x007FFFFF MPC_SIE200_SEC_ATTR_NONSECURE));
    [apply (ok_with (fun _ => 0)); intros; lia|lia|lia| |left; reflexivity].
  split; try (vm_compute; discriminate || reflexivity). apply (list_elem_of_lookup_2 _ 1). reflexivity.
Defined.

Lemma locked_table_kept_witness :
  let d := with_lut 0 (fun _ => 5) dev in
  let d := snd (mpc_sie200_lock_down d) in
  lut_of (fold_left (fun d c => run_mpc_call c d)
    [CallSetCtrl 0; CallConfigRegion 0 0x1FFFF MPC_SIE200_SEC_ATTR_NONSECURE] d) 0 = 5.
Proof.
  cbv zeta. match goal with |- lut_of (fold_left _ ?cs ?d) 0 = _ =>
    rewrite (proj1 (locked_table_kept cs d eq_refl)) end. reflexivity.
Defined.

(** A region from block 31 to block 63 whose blocks 32 to 62 are secure is
    reported as non-secure: the last word is compared with the mask of the
    first. *)
Theorem secure_blocks_reported_nonsecure :
  let d := with_lut 0 (fun w => if w <=? 1 then 0x80000000 else 0) dev in
  fst (mpc_sie200_get_region_config 0x3E0000 0x7FFFFF true d) = Ok MPC_SIE200_SEC_ATTR_NONSECURE /\
  forall k, 32 <= k <= 62 -> block_ns (lut_of d) k = false.
Proof.
  cbv zeta. split; [vm_compute; reflexivity|]. intros k Hk. unfold block_ns.
  assert (k / 32 = 1) as -> by (symmetry; apply (Z.div_unique_pos _ _ _ (k - 32)); lia).
  assert (k mod 32 = k - 32) as -> by (symmetry; apply (Z.mod_unique_pos _ _ 1); lia).
  change (lut_of _ 1) with (2 ^ 31). rewrite Z.pow2_bits_eqb by lia. apply Z.eqb_neq. lia.
Qed.

End MpcExample.
