(* ===== verification/TargetCfg.v ===== *)
(** * Start-up of the hardware of the AN521

    [platform/ext/target/mps2/an521/target_cfg.c], the CMSIS wrappers of the two
    memory protection controllers the board uses ([cmsis_drivers/Driver_MPC.c])
    and [tfm_core_init] of [secure_fw/core/tfm_core.c]: what is programmed
    before the partition manager runs.  The registers the partition manager does
    not use are the [board]; the console output of the start-up is left out. *)

From S2P Require Import Prelude Mpu SpmHal Spm SecureApi Mpc.

(** ** Registers *)

(** The security attribution unit; [RBAR] and [RLAR] are banked by [RNR]. *)
Record sau_t := Sau {
  SAU_CTRL : Z;
  SAU_RNR : Z;
  SAU_RBAR : Z -> Z;
  SAU_RLAR : Z -> Z;
}.

Definition SAU_CTRL_ENABLE_Msk : Z := 1.
Definition SAU_RBAR_BADDR_Msk : Z := 0xFFFFFFE0.
Definition SAU_RLAR_LADDR_Msk : Z := 0xFFFFFFE0.
Definition SAU_RLAR_ENABLE_Msk : Z := 1.
Definition SAU_RLAR_NSC_Msk : Z := 2.

Definition TFM_NS_REGION_VENEER : Z := 2.
Definition TFM_NS_REGION_PERIPH_1 : Z := 3.
Definition TFM_NS_REGION_PERIPH_2 : Z := 4.

(** [SECRESPCFG] to [SECPPCINTEN] of the secure privilege control block, the
    unprivileged bits of the non-secure one, the interrupt controller, the debug
    authentication register, the banked registers of the non-secure side and
    the variables [tfm_core_init] sets. *)
Record board_t := Board {
  sau : sau_t;
  sram1_mpc : mpc_sie200_dev_t;
  sram2_mpc : mpc_sie200_dev_t;
  secrespcfg : Z;
  nsccfg : Z;
  secppcintstat : Z;
  secppcinten : Z;
  nspppc : Z -> Z;
  ITNS : Z -> Z;
  ISER : Z -> Z;
  secdbgstat : Z;
  VTOR_NS : Z;
  MSP_NS : Z;
  ns_entry : Z;
  tfm_scratch_area : Z;
  tfm_scratch_area_size : Z;
}.

Record sys_t := Sys { core : tfm_state; board : board_t }.

Definition BM (A : Type) : Type := M sys_t tfm_halt A.

Definition on_core {A} (m : TM A) : BM A := fun s =>
  let '(r, c) := m (core s) in (r, Sys c (board s)).
Definition on_board (f : board_t -> board_t) : BM unit := modify (fun s => Sys (core s) (f (board s))).
Definition on_hw (f : hw_t -> hw_t) : BM unit := modify (fun s => Sys (set_hw f (core s)) (board s)).

Definition set_sau (f : sau_t -> sau_t) (b : board_t) : board_t :=
  Board (f (sau b)) (sram1_mpc b) (sram2_mpc b) (secrespcfg b) (nsccfg b) (secppcintstat b) (secppcinten b)
    (nspppc b) (ITNS b) (ISER b) (secdbgstat b) (VTOR_NS b) (MSP_NS b) (ns_entry b) (tfm_scratch_area b)
    (tfm_scratch_area_size b).
Definition set_mpc1 (d : mpc_sie200_dev_t) (b : board_t) : board_t :=
  Board (sau b) d (sram2_mpc b) (secrespcfg b) (nsccfg b) (secppcintstat b) (secppcinten b)
    (nspppc b) (ITNS b) (ISER b) (secdbgstat b) (VTOR_NS b) (MSP_NS b) (ns_entry b) (tfm_scratch_area b)
    (tfm_scratch_area_size b).
Definition set_mpc2 (d : mpc_sie200_dev_t) (b : board_t) : board_t :=
  Board (sau b) (sram1_mpc b) d (secrespcfg b) (nsccfg b) (secppcintstat b) (secppcinten b)
    (nspppc b) (ITNS b) (ISER b) (secdbgstat b) (VTOR_NS b) (MSP_NS b) (ns_entry b) (tfm_scratch_area b)
    (tfm_scratch_area_size b).
Definition set_spctrl (resp nsc intstat inten : Z) (b : board_t) : board_t :=
  Board (sau b) (sram1_mpc b) (sram2_mpc b) resp nsc intstat inten
    (nspppc b) (ITNS b) (ISER b) (secdbgstat b) (VTOR_NS b) (MSP_NS b) (ns_entry b) (tfm_scratch_area b)
    (tfm_scratch_area_size b).
Definition set_nspppc (f : Z -> Z) (b : board_t) : board_t :=
  Board (sau b) (sram1_mpc b) (sram2_mpc b) (secrespcfg b) (nsccfg b) (secppcintstat b) (secppcinten b)
    f (ITNS b) (ISER b) (secdbgstat b) (VTOR_NS b) (MSP_NS b) (ns_entry b) (tfm_scratch_area b)
    (tfm_scratch_area_size b).
Definition set_nvic (itns iser : Z -> Z) (b : board_t) : board_t :=
  Board (sau b) (sram1_mpc b) (sram2_mpc b) (secrespcfg b) (nsccfg b) (secppcintstat b) (secppcinten b)
    (nspppc b) itns iser (secdbgstat b) (VTOR_NS b) (MSP_NS b) (ns_entry b) (tfm_scratch_area b)
    (tfm_scratch_area_size b).
Definition set_secdbg (v : Z) (b : board_t) : board_t :=
  Board (sau b) (sram1_mpc b) (sram2_mpc b) (secrespcfg b) (nsccfg b) (secppcintstat b) (secppcinten b)
    (nspppc b) (ITNS b) (ISER b) v (VTOR_NS b) (MSP_NS b) (ns_entry b) (tfm_scratch_area b)
    (tfm_scratch_area_size b).
Definition set_ns (vtor msp entry : Z) (b : board_t) : board_t :=
  Board (sau b) (sram1_mpc b) (sram2_mpc b) (secrespcfg b) (nsccfg b) (secppcintstat b) (secppcinten b)
    (nspppc b) (ITNS b) (ISER b) (secdbgstat b) vtor msp entry (tfm_scratch_area b) (tfm_scratch_area_size b).
Definition set_scratch (area size : Z) (b : board_t) : board_t :=
  Board (sau b) (sram1_mpc b) (sram2_mpc b) (secrespcfg b) (nsccfg b) (secppcintstat b) (secppcinten b)
    (nspppc b) (ITNS b) (ISER b) (secdbgstat b) (VTOR_NS b) (MSP_NS b) (ns_entry b) area size.

(** ** The CMSIS driver of the memory protection controllers *)

Definition ARM_DRIVER_OK : Z := 0.
Definition ARM_DRIVER_ERROR_PARAMETER : Z := -5.
Definition ARM_DRIVER_ERROR_SPECIFIC : Z := -6.
Definition ARM_MPC_ERR_NOT_INIT : Z := ARM_DRIVER_ERROR_SPECIFIC - 1.
Definition ARM_MPC_ERR_NOT_IN_RANGE : Z := ARM_DRIVER_ERROR_SPECIFIC - 2.
Definition ARM_MPC_ERR_NOT_ALIGNED : Z := ARM_DRIVER_ERROR_SPECIFIC - 3.
Definition ARM_MPC_ERR_INVALID_RANGE : Z := ARM_DRIVER_ERROR_SPECIFIC - 4.
Definition ARM_MPC_ERR_RANGE_SEC_ATTR_NON_COMPATIBLE : Z := ARM_DRIVER_ERROR_SPECIFIC - 4.

Definition error_trans {A} (r : A + mpc_sie200_error_t) : Z :=
  match r with
  | inl _ => ARM_DRIVER_OK
  | inr MPC_SIE200_INVALID_ARG => ARM_DRIVER_ERROR_PARAMETER
  | inr MPC_SIE200_NOT_INIT => ARM_MPC_ERR_NOT_INIT
  | inr MPC_SIE200_ERR_NOT_IN_RANGE => ARM_MPC_ERR_NOT_IN_RANGE
  | inr MPC_SIE200_ERR_NOT_ALIGNED => ARM_MPC_ERR_NOT_ALIGNED
  | inr MPC_SIE200_ERR_INVALID_RANGE => ARM_MPC_ERR_INVALID_RANGE
  | inr MPC_SIE200_ERR_RANGE_SEC_ATTR_NON_COMPATIBLE => ARM_MPC_ERR_RANGE_SEC_ATTR_NON_COMPATIBLE
  end.

(** The enumeration value of a code. *)
Definition native_code {A} (r : A + mpc_sie200_error_t) : Z :=
  match r with
  | inl _ => 0
  | inr MPC_SIE200_INVALID_ARG => 1
  | inr MPC_SIE200_NOT_INIT => 2
  | inr MPC_SIE200_ERR_NOT_IN_RANGE => 3
  | inr MPC_SIE200_ERR_NOT_ALIGNED => 4
  | inr MPC_SIE200_ERR_INVALID_RANGE => 5
  | inr MPC_SIE200_ERR_RANGE_SEC_ATTR_NON_COMPATIBLE => 6
  end.

Definition MPC_CODE_SRAM1_RANGE_LIST : list mpc_sie200_memory_range_t :=
  [ MpcRange 0x10000000 0x103FFFFF MPC_SIE200_SEC_ATTR_SECURE;
    MpcRange 0x00000000 0x003FFFFF MPC_SIE200_SEC_ATTR_NONSECURE ].

Definition MPC_CODE_SRAM2_RANGE_LIST : list mpc_sie200_memory_range_t :=
  [ MpcRange 0x38000000 0x381FFFFF MPC_SIE200_SEC_ATTR_SECURE;
    MpcRange 0x28000000 0x281FFFFF MPC_SIE200_SEC_ATTR_NONSECURE ].

(** A driver call on one of the devices; the caller gets the code. *)
Definition on_mpc {A} (get : board_t -> mpc_sie200_dev_t) (set : mpc_sie200_dev_t -> board_t -> board_t) (m : MPC A)
    : BM (A + mpc_sie200_error_t) := fun s =>
  let '(r, d) := m (get (board s)) in
  let s := Sys (core s) (set d (board s)) in
  match r with
  | Ok a => (Ok (inl a), s)
  | Err e => (Ok (inr e), s)
  | Fault => (Fault, s)
  end.

Definition sram1 {A} (m : MPC A) := on_mpc sram1_mpc set_mpc1 m.
Definition sram2 {A} (m : MPC A) := on_mpc sram2_mpc set_mpc2 m.

Definition SRAM1_MPC_Initialize : BM Z :=
  r <- sram1 (mpc_sie200_init (Some MPC_CODE_SRAM1_RANGE_LIST) 2) ;; ret (error_trans r).
Definition SRAM1_MPC_ConfigRegion (base limit : Z) (attr : mpc_sie200_sec_attr_t) : BM Z :=
  r <- sram1 (mpc_sie200_config_region base limit attr) ;; ret (error_trans r).
Definition SRAM1_MPC_EnableInterrupt : BM Z := r <- sram1 mpc_sie200_irq_enable ;; ret (error_trans r).
Definition SRAM1_MPC_LockDown : BM Z := r <- sram1 mpc_sie200_lock_down ;; ret (native_code r).

Definition SRAM2_MPC_Initialize : BM Z :=
  r <- sram2 (mpc_sie200_init (Some MPC_CODE_SRAM2_RANGE_LIST) 2) ;; ret (error_trans r).
Definition SRAM2_MPC_ConfigRegion (base limit : Z) (attr : mpc_sie200_sec_attr_t) : BM Z :=
  r <- sram2 (mpc_sie200_config_region base limit attr) ;; ret (error_trans r).
Definition SRAM2_MPC_EnableInterrupt : BM Z := r <- sram2 mpc_sie200_irq_enable ;; ret (error_trans r).
Definition SRAM2_MPC_LockDown : BM Z := r <- sram2 mpc_sie200_lock_down ;; ret (native_code r).

(** ** [target_cfg.c] *)

(** Build options, and the partition of the non-secure images. *)
Inductive dauth := DAUTH_NONE | DAUTH_NS_ONLY | DAUTH_FULL | DAUTH_CHIP_DEFAULT.

Class target_cfg := {
  SECURE_UART1 : bool;
  DAUTH : dauth;
  NS_PARTITION_START : Z;
  NS_PARTITION_LIMIT : Z;
}.

Definition PERIPHERALS_BASE_NS_START : Z := 0x40000000.
Definition PERIPHERALS_BASE_NS_END : Z := 0x4FFFFFFF.
Definition UART1_BASE_NS : Z := 0x40201000.
Definition UART2_BASE_NS : Z := 0x40202000.
Definition NSCCFG_CODENSC : Z := 1.

Definition MPC_IRQn : Z := 9.
Definition PPC_IRQn : Z := 10.
Definition UARTRX1_IRQn : Z := 34.
Definition UARTTX1_IRQn : Z := 35.
Definition UART1_IRQn : Z := 43.

Section target_cfg.
  Context {Layout : tfm_layout} {Target : target_cfg}.

Definition enable_fault_handlers : BM unit :=
  on_core (s <- gets (fun s => SHCSR (cpu s)) ;;
    set_SHCSR (Z.lor s (Z.lor (Z.lor (Z.shiftl 1 18) (Z.shiftl 1 17)) (Z.lor (Z.shiftl 1 16) (Z.shiftl 1 19))))).

(** [NVIC->ITNS[i] = 0xFFFFFFFF] for every word of the array. *)
Definition NVIC_ITNS_WORDS : nat := 16.

Fixpoint target_ns_loop (n : nat) (i : Z) (itns : Z -> Z) : Z -> Z :=
  match n with
  | O => itns
  | S n => target_ns_loop n (i + 1) (upd itns i 0xFFFFFFFF)
  end.

Definition NVIC_ClearTargetState (irq : Z) : BM unit :=
  on_board (fun b => set_nvic (upd (ITNS b) (Z.shiftr irq 5)
    (Z.land (ITNS b (Z.shiftr irq 5)) (u32 (Z.lnot (bit (Z.land irq 0x1F)))))) (ISER b) b).

(** A write to [ISER] sets the bits written as 1. *)
Definition NVIC_EnableIRQ (irq : Z) : BM unit :=
  on_board (fun b => set_nvic (ITNS b) (upd (ISER b) (Z.shiftr irq 5)
    (Z.lor (ISER b (Z.shiftr irq 5)) (bit (Z.land irq 0x1F)))) b).

Definition nvic_interrupt_target_state_cfg : BM unit :=
  on_board (fun b => set_nvic (target_ns_loop NVIC_ITNS_WORDS 0 (ITNS b)) (ISER b) b) ;;
  NVIC_ClearTargetState MPC_IRQn ;;
  NVIC_ClearTargetState PPC_IRQn ;;
  if SECURE_UART1
  then NVIC_ClearTargetState UARTRX1_IRQn ;; NVIC_ClearTargetState UARTTX1_IRQn ;; NVIC_ClearTargetState UART1_IRQn
  else ret tt.

Definition clear_ppc_int (mask : Z) : BM unit :=
  on_board (fun b => set_spctrl (secrespcfg b) (nsccfg b) (Z.land (secppcintstat b) (u32 (Z.lnot mask)))
    (secppcinten b) b).
Definition enable_ppc_int (mask : Z) : BM unit :=
  on_board (fun b => set_spctrl (secrespcfg b) (nsccfg b) (secppcintstat b) (Z.lor (secppcinten b) mask) b).

Definition nvic_interrupt_enable : BM unit :=
  SRAM1_MPC_EnableInterrupt ;;
  SRAM2_MPC_EnableInterrupt ;;
  NVIC_EnableIRQ MPC_IRQn ;;
  clear_ppc_int (bit 0) ;;
  enable_ppc_int (bit 0) ;; enable_ppc_int (bit 1) ;; enable_ppc_int (bit 4) ;;
  enable_ppc_int (bit 5) ;; enable_ppc_int (bit 6) ;; enable_ppc_int (bit 7) ;;
  NVIC_EnableIRQ PPC_IRQn.

Definition TZ_SAU_Enable : BM unit :=
  on_board (set_sau (fun u => Sau (Z.lor (SAU_CTRL u) SAU_CTRL_ENABLE_Msk) (SAU_RNR u) (SAU_RBAR u) (SAU_RLAR u))).
Definition set_SAU_RNR (v : Z) : BM unit :=
  on_board (set_sau (fun u => Sau (SAU_CTRL u) v (SAU_RBAR u) (SAU_RLAR u))).
Definition set_SAU_RBAR (v : Z) : BM unit :=
  on_board (set_sau (fun u => Sau (SAU_CTRL u) (SAU_RNR u) (upd (SAU_RBAR u) (SAU_RNR u) v) (SAU_RLAR u))).
Definition set_SAU_RLAR (v : Z) : BM unit :=
  on_board (set_sau (fun u => Sau (SAU_CTRL u) (SAU_RNR u) (SAU_RBAR u) (upd (SAU_RLAR u) (SAU_RNR u) v))).

Definition sau_and_idau_cfg : BM unit :=
  TZ_SAU_Enable ;;
  set_SAU_RNR TFM_NS_REGION_CODE ;;
  set_SAU_RBAR (Z.land NS_PARTITION_START SAU_RBAR_BADDR_Msk) ;;
  set_SAU_RLAR (Z.lor (Z.land NS_PARTITION_LIMIT SAU_RLAR_LADDR_Msk) SAU_RLAR_ENABLE_Msk) ;;
  set_SAU_RNR TFM_NS_REGION_DATA ;;
  set_SAU_RBAR (Z.land NS_DATA_START SAU_RBAR_BADDR_Msk) ;;
  set_SAU_RLAR (Z.lor (Z.land NS_DATA_LIMIT SAU_RLAR_LADDR_Msk) SAU_RLAR_ENABLE_Msk) ;;
  set_SAU_RNR TFM_NS_REGION_VENEER ;;
  set_SAU_RBAR (Z.land CMSE_VENEER_REGION_START SAU_RBAR_BADDR_Msk) ;;
  set_SAU_RLAR (Z.lor (Z.lor (Z.land CMSE_VENEER_REGION_LIMIT SAU_RLAR_LADDR_Msk) SAU_RLAR_ENABLE_Msk)
    SAU_RLAR_NSC_Msk) ;;
  set_SAU_RNR TFM_NS_REGION_PERIPH_1 ;;
  set_SAU_RBAR (Z.land PERIPHERALS_BASE_NS_START SAU_RBAR_BADDR_Msk) ;;
  (if SECURE_UART1
   then set_SAU_RLAR (Z.lor (Z.land (UART1_BASE_NS - 1) SAU_RLAR_LADDR_Msk) SAU_RLAR_ENABLE_Msk) ;;
        set_SAU_RNR TFM_NS_REGION_PERIPH_2 ;;
        set_SAU_RBAR (Z.land UART2_BASE_NS SAU_RBAR_BADDR_Msk)
   else ret tt) ;;
  set_SAU_RLAR (Z.lor (Z.land PERIPHERALS_BASE_NS_END SAU_RLAR_LADDR_Msk) SAU_RLAR_ENABLE_Msk) ;;
  on_board (fun b => set_spctrl (secrespcfg b) (Z.lor (nsccfg b) NSCCFG_CODENSC) (secppcintstat b) (secppcinten b) b).

Definition mpc_init_cfg : BM unit :=
  SRAM1_MPC_Initialize ;;
  SRAM1_MPC_ConfigRegion NS_PARTITION_START NS_PARTITION_LIMIT MPC_SIE200_SEC_ATTR_NONSECURE ;;
  SRAM2_MPC_Initialize ;;
  SRAM2_MPC_ConfigRegion NS_DATA_START NS_DATA_LIMIT MPC_SIE200_SEC_ATTR_NONSECURE ;;
  SRAM1_MPC_LockDown ;;
  SRAM2_MPC_LockDown ;;
  ret tt.

(** The banks of peripheral control registers, by their distance from the first. *)
Definition PPC_AHB_PPC_EXP0 : Z := 4.
Definition PPC_AHB_PPC_EXP1 : Z := 5.
Definition PPC_APB_PPC0 : Z := 8.
Definition PPC_APB_PPC1 : Z := 9.
Definition PPC_APB_PPC_EXP1 : Z := 13.
Definition PPC_APB_PPC_EXP2 : Z := 14.
Definition CMSDK_UART0_APB_PPC_POS : Z := 5.
Definition CMSDK_UART1_APB_PPC_POS : Z := 6.

(** [spctrl->reg |= (1U << pos);] for each position of the list in order. *)
Definition grant_ns (bank : Z) (positions : list Z) : BM unit :=
  on_hw (fun h => fold_left (fun h pos => ppc_configure_to_non_secure bank pos h) positions h).

(** [nspctrl->reg |= (1U << pos);] *)
Definition grant_ns_unpriv (bank pos : Z) : BM unit :=
  on_board (fun b => set_nspppc (upd (nspppc b) bank (Z.lor (nspppc b bank) (bit pos))) b).

Definition ppc_init_cfg : BM unit :=
  grant_ns PPC_APB_PPC0 [0; 1; 2; 3; 4] ;;
  grant_ns PPC_APB_PPC1 [0] ;;
  grant_ns PPC_APB_PPC_EXP1 [0; 1; 2; 3; 4; CMSDK_UART0_APB_PPC_POS] ;;
  (if SECURE_UART1 then ret tt else grant_ns PPC_APB_PPC_EXP1 [CMSDK_UART1_APB_PPC_POS]) ;;
  grant_ns PPC_APB_PPC_EXP1 [7; 8; 9; 10; 11; 12; 13] ;;
  grant_ns PPC_APB_PPC_EXP2 [0; 1; 2] ;;
  grant_ns PPC_AHB_PPC_EXP0 [0; 1; 2; 3; 4] ;;
  grant_ns PPC_AHB_PPC_EXP1 [0; 1; 2; 3] ;;
  grant_ns_unpriv PPC_APB_PPC_EXP1 CMSDK_UART0_APB_PPC_POS ;;
  grant_ns_unpriv PPC_APB_PPC_EXP2 0 ;;
  grant_ns_unpriv PPC_APB_PPC_EXP2 2 ;;
  on_board (fun b => set_spctrl (Z.lor (secrespcfg b) 1) (nsccfg b) (secppcintstat b) (secppcinten b) b).

Definition ppc_clear_irq : BM unit := clear_ppc_int (bit 6).

(** ** [spm_hal.c] and [tfm_core.c] *)

Definition tfm_spm_hal_init_isolation_hw : BM unit := sau_and_idau_cfg ;; mpc_init_cfg ;; ppc_init_cfg.

Definition All_SEL_STATUS : Z := Z.lor (Z.lor (bit 7) (bit 5)) (Z.lor (bit 3) (bit 1)).

(** Writes to [SECDBGSET] and [SECDBGCLR] set and clear bits of the status. *)
Definition secdbgset (v : Z) : BM unit := on_board (fun b => set_secdbg (Z.lor (secdbgstat b) v) b).
Definition secdbgclr (v : Z) : BM unit := on_board (fun b => set_secdbg (Z.land (secdbgstat b) (u32 (Z.lnot v))) b).

Definition configure_debug_registers : BM unit :=
  match DAUTH with
  | DAUTH_NONE =>
      secdbgset All_SEL_STATUS ;; secdbgclr (Z.lor (Z.lor (bit 0) (bit 2)) (Z.lor (bit 4) (bit 6)))
  | DAUTH_NS_ONLY =>
      secdbgset All_SEL_STATUS ;; secdbgset (Z.lor (bit 0) (bit 2)) ;; secdbgclr (Z.lor (bit 4) (bit 6))
  | DAUTH_FULL =>
      secdbgset All_SEL_STATUS ;; secdbgset (Z.lor (Z.lor (bit 0) (bit 2)) (Z.lor (bit 4) (bit 6)))
  | DAUTH_CHIP_DEFAULT => secdbgclr All_SEL_STATUS
  end.

(** [rom] gives the words of the vector table of the non-secure image. *)
Definition configure_ns_code (rom : Z -> Z) : BM unit :=
  on_board (fun b => set_ns NS_CODE_START (rom NS_CODE_START)
    (Z.land (rom (NS_CODE_START + 4)) (u32 (Z.lnot 1))) b).

Definition tfm_core_init (rom : Z -> Z) : BM Z :=
  enable_fault_handlers ;;
  configure_debug_registers ;;
  on_core enable_irq ;;
  tfm_spm_hal_init_isolation_hw ;;
  configure_ns_code rom ;;
  nvic_interrupt_target_state_cfg ;;
  nvic_interrupt_enable ;;
  on_board (set_scratch TFM_UNPRIV_SCRATCH_Base (u32 (TFM_UNPRIV_SCRATCH_Limit - TFM_UNPRIV_SCRATCH_Base))) ;;
  ret 0.

(** [main], from reset to the jump to the non-secure code. *)
Definition system_main {Cmse : cmse} (run_sfn : Z -> Z * Z * Z * Z -> TM Z) (user_partitions : list partition_decl)
    (rom : Z -> Z) : BM unit :=
  tfm_core_init rom ;; on_core (main run_sfn user_partitions).
End target_cfg.
