(* ===== verification/TargetClaims.v ===== *)
(** * The start-up: what the non-secure side reaches

    The meaning of the attribution unit and of the memory protection controllers, and
    the state [tfm_core_init] leaves them in; then, from reset to the jump to the
    non-secure code, which memory the non-secure side reaches, and which
    peripherals and interrupts it gets. *)

From S2P Require Import Prelude Mpu SpmHal Spm SecureApi CoreBoard Mpc MpcSpec TargetCfg.

(** ** Attribution *)

(** An enabled region of the unit: the low five bits of its base are 0 and those
    of its last address 1. *)
Record sau_range := SauRange { sau_base : Z; sau_last : Z; sau_nsc : bool }.

Definition sau_range_at (u : sau_t) (n : Z) : option sau_range :=
  if Z.testbit (SAU_RLAR u n) 0
  then Some (SauRange (Z.land (SAU_RBAR u n) SAU_RBAR_BADDR_Msk)
               (Z.lor (Z.land (SAU_RLAR u n) SAU_RLAR_LADDR_Msk) 0x1F) (Z.testbit (SAU_RLAR u n) 1))
  else None.

(** The unit has eight regions. *)
Definition sau_ranges (u : sau_t) : list sau_range := omap (fun i => sau_range_at u (Z.of_nat i)) (seq 0 8).

Definition in_sau_range (a : Z) (r : sau_range) : Prop := sau_base r <= a <= sau_last r.

#[global] Instance in_sau_range_dec a r : Decision (in_sau_range a r).
Proof. unfold in_sau_range. apply _. Defined.

Inductive attribution := AttrSecure | AttrNonSecureCallable | AttrNonSecure.

(** An address in no region, or in several, is secure; with the unit off,
    [ALLNS] decides. *)
Definition sau_attribution (u : sau_t) (a : Z) : attribution :=
  if Z.testbit (SAU_CTRL u) 0
  then match filter (in_sau_range a) (sau_ranges u) with
       | [r] => if sau_nsc r then AttrNonSecureCallable else AttrNonSecure
       | _ => AttrSecure
       end
  else if Z.testbit (SAU_CTRL u) 1 then AttrNonSecure else AttrSecure.

(** The controller lets a non-secure access to the address through. *)
Definition mpc_lets_ns (d : mpc_sie200_dev_t) (a : Z) : Prop :=
  exists r, r ∈ range_list d /\ range_base r <= a <= range_limit r /\ block_ns (lut_of d) (block_of d r a) = true.

(** A non-secure access reaches an address of the two memories. *)
Definition ns_reaches (b : board_t) (a : Z) : Prop :=
  sau_attribution (sau b) a = AttrNonSecure /\ (mpc_lets_ns (sram1_mpc b) a \/ mpc_lets_ns (sram2_mpc b) a).

(** ** Fields of the region registers *)

Lemma lor_low5 q k : 0 <= k < 32 -> Z.lor (32 * q) k = 32 * q + k.
Proof.
  intros Hk. apply Z.bits_inj'. intros i Hi. rewrite Z.lor_spec, low5_bits by done. case_decide.
  - rewrite aligned_low_bits; [done| |lia]. rewrite Z.mul_comm. apply Z_mod_mult.
  - assert (Z.testbit k i = false) as ->; [|by rewrite orb_false_r].
    rewrite <- (Z.mod_small k (2 ^ 5)) by lia. apply Z.mod_pow2_bits_high. lia.
Qed.

Lemma rlar_fields l e : 0 <= l < 2 ^ 32 -> (l + 1) mod 32 = 0 -> 1 <= e < 4 -> Z.testbit e 0 = true ->
  let v := Z.lor (Z.land l SAU_RLAR_LADDR_Msk) e in
  Z.testbit v 0 = true /\ Z.lor (Z.land v SAU_RLAR_LADDR_Msk) 0x1F = l /\ Z.testbit v 1 = Z.testbit e 1.
Proof.
  intros Hl Ha He Hb v. apply Z.mod_divide in Ha as [q Hq]; [|lia].
  assert (l = 32 * (q - 1) + 31) as -> by lia. assert (Z.land (32 * (q - 1) + 31) SAU_RLAR_LADDR_Msk = 32 * (q - 1)) as E
    by (apply land_low5; lia).
  subst v. rewrite E, lor_low5 by lia. rewrite !low5_bits, !decide_True by lia.
  change SAU_RLAR_LADDR_Msk with MPU_RBAR_ADDR_Msk. rewrite land_low5 by lia. split; [done|]. split; [|done].
  apply lor_low5. lia.
Qed.

(** The region a pair of writes programs. *)
Lemma sau_range_fields u n start limit e :
  SAU_RBAR u n = Z.land start SAU_RBAR_BADDR_Msk -> SAU_RLAR u n = Z.lor (Z.land limit SAU_RLAR_LADDR_Msk) e ->
  0 <= start <= limit -> limit < 2 ^ 32 -> start mod 32 = 0 -> (limit + 1) mod 32 = 0 ->
  1 <= e < 4 -> Z.testbit e 0 = true ->
  sau_range_at u n = Some (SauRange start limit (Z.testbit e 1)).
Proof.
  intros Eb El Hs Hl As Al He Hb. unfold sau_range_at. rewrite Eb, El.
  destruct (rlar_fields limit e) as (-> & -> & ->); [lia|done..|].
  change SAU_RBAR_BADDR_Msk with MPU_RBAR_ADDR_Msk. by rewrite !land_base by (rewrite ?land_base; lia || done).
Qed.

(** ** The layout of the board *)

Section target.
  Context {Layout : tfm_layout} {Target : target_cfg}.

(** The non-secure partition is whole blocks of the non-secure alias of the
    first memory, the non-secure data of the second, and the veneers are in the
    secure alias of the first. *)
Class target_ok : Prop := {
  tk_part : 0 <= NS_PARTITION_START <= NS_PARTITION_LIMIT /\ NS_PARTITION_LIMIT <= 0x003FFFFF;
  tk_part_aligned : NS_PARTITION_START mod 0x20000 = 0 /\ (NS_PARTITION_LIMIT + 1) mod 0x20000 = 0;
  tk_data : 0x28000000 <= NS_DATA_START <= NS_DATA_LIMIT /\ NS_DATA_LIMIT <= 0x281FFFFF;
  tk_data_aligned : NS_DATA_START mod 0x20000 = 0 /\ (NS_DATA_LIMIT + 1) mod 0x20000 = 0;
  tk_veneer : 0x10000000 <= CMSE_VENEER_REGION_START <= CMSE_VENEER_REGION_LIMIT /\
    CMSE_VENEER_REGION_LIMIT <= 0x103FFFFF;
  tk_veneer_aligned : CMSE_VENEER_REGION_START mod 32 = 0 /\ (CMSE_VENEER_REGION_LIMIT + 1) mod 32 = 0;
}.

Definition in_ns_memory (a : Z) : Prop :=
  NS_PARTITION_START <= a <= NS_PARTITION_LIMIT \/ NS_DATA_START <= a <= NS_DATA_LIMIT.

(** The peripherals of the non-secure side; UART 1 is left out when it is
    secure. *)
Definition in_ns_peripherals (a : Z) : Prop :=
  PERIPHERALS_BASE_NS_START <= a <= PERIPHERALS_BASE_NS_END /\
  (SECURE_UART1 = true -> ~ UART1_BASE_NS <= a < UART2_BASE_NS).

Definition in_veneers (a : Z) : Prop := CMSE_VENEER_REGION_START <= a <= CMSE_VENEER_REGION_LIMIT.

(** ** The attribution unit after [sau_and_idau_cfg] *)

Definition periph_ranges : list sau_range :=
  if SECURE_UART1
  then [SauRange PERIPHERALS_BASE_NS_START (UART1_BASE_NS - 1) false;
        SauRange UART2_BASE_NS PERIPHERALS_BASE_NS_END false]
  else [SauRange PERIPHERALS_BASE_NS_START PERIPHERALS_BASE_NS_END false].

Definition programmed_ranges : list sau_range :=
  [SauRange NS_PARTITION_START NS_PARTITION_LIMIT false; SauRange NS_DATA_START NS_DATA_LIMIT false;
   SauRange CMSE_VENEER_REGION_START CMSE_VENEER_REGION_LIMIT true] ++ periph_ranges.

(** A unit that came out of reset: no region is enabled. *)
Definition sau_reset (u : sau_t) : Prop := forall n, 0 <= n < 8 -> Z.testbit (SAU_RLAR u n) 0 = false.

Lemma aligned_32 x : x mod 0x20000 = 0 -> x mod 32 = 0.
Proof. intros H. apply Z.mod_divide in H as [q ->]; [|lia]. apply Z.mod_divide; [lia|]. exists (q * 4096). lia. Qed.

(** One region of the unit written. *)
Definition sau_program (n rbar rlar : Z) (u : sau_t) : sau_t :=
  Sau (SAU_CTRL u) n (upd (SAU_RBAR u) n rbar) (upd (SAU_RLAR u) n rlar).

Lemma program_seq {A} n rbar rlar (k : BM A) s :
  (set_SAU_RNR n ;; set_SAU_RBAR rbar ;; set_SAU_RLAR rlar ;; k) s =
  (on_board (set_sau (sau_program n rbar rlar)) ;; k) s.
Proof.
  unfold bind, set_SAU_RNR, set_SAU_RBAR, set_SAU_RLAR, on_board, modify. unfold sau_program.
  repeat f_equal; unfold set_sau; cbn [sau SAU_RNR SAU_RBAR SAU_RLAR SAU_CTRL]; done.
Qed.

Lemma on_board_seq {A} f g (k : BM A) s :
  (on_board f ;; on_board g ;; k) s = (on_board (fun b => g (f b)) ;; k) s.
Proof. done. Qed.

Lemma sau_range_program n start limit e u m :
  0 <= start <= limit -> limit < 2 ^ 32 -> start mod 32 = 0 -> (limit + 1) mod 32 = 0 ->
  1 <= e < 4 -> Z.testbit e 0 = true ->
  sau_range_at (sau_program n (Z.land start SAU_RBAR_BADDR_Msk) (Z.lor (Z.land limit SAU_RLAR_LADDR_Msk) e) u) m =
    if decide (m = n) then Some (SauRange start limit (Z.testbit e 1)) else sau_range_at u m.
Proof.
  intros. case_decide as E.
  - subst m. apply (sau_range_fields _ _ _ _ e); try done; unfold sau_program; cbn [SAU_RBAR SAU_RLAR]; apply upd_eq.
  - unfold sau_range_at, sau_program. cbn [SAU_RBAR SAU_RLAR]. by rewrite !upd_ne by done.
Qed.

(** The parts the configuration of the attribution unit leaves alone. *)
Definition same_mem (s s' : sys_t) : Prop :=
  core s' = core s /\ sram1_mpc (board s') = sram1_mpc (board s) /\ sram2_mpc (board s') = sram2_mpc (board s) /\
  ITNS (board s') = ITNS (board s).

Lemma same_mem_trans s1 s2 s3 : same_mem s1 s2 -> same_mem s2 s3 -> same_mem s1 s3.
Proof. intros (? & ? & ? & ?) (? & ? & ? & ?). split_and!; congruence. Qed.

Lemma runs_program {A} n rbar rlar (k : BM A) s Q :
  (forall s', same_mem s s' -> sau (board s') = sau_program n rbar rlar (sau (board s)) -> runs k s' Q) ->
  runs (set_SAU_RNR n ;; set_SAU_RBAR rbar ;; set_SAU_RLAR rlar ;; k) s Q.
Proof.
  intros H. eapply runs_ext; [apply program_seq|]. apply runs_bind. exists tt, (Sys (core s) (set_sau (sau_program n rbar rlar) (board s))).
  split; [done|]. by apply H.
Qed.

(** Sequencing inside a branch. *)
Lemma seq_branch {A} (m1 m2 m3 m4 m5 : BM unit) (k : BM A) s :
  (m1 ;; m2 ;; (m3 ;; m4 ;; m5) ;; k) s = (m1 ;; m2 ;; m3 ;; m4 ;; m5 ;; k) s.
Proof.
  unfold bind. destruct (m1 s) as [[] s1]; [|done..]. destruct (m2 s1) as [[] s2]; [|done..].
  destruct (m3 s2) as [[] s3]; [|done..]. destruct (m4 s3) as [[] s4]; [|done..]. by destruct (m5 s4) as [[] s5].
Qed.

Lemma ranges_of u (f : Z -> option sau_range) : (forall n, 0 <= n < 8 -> sau_range_at u n = f n) ->
  sau_ranges u = omap f [0; 1; 2; 3; 4; 5; 6; 7].
Proof. intros H. unfold sau_ranges. cbn -[sau_range_at Z.of_nat]. by rewrite !H by lia. Qed.

Definition sau_ready (s : sys_t) : Prop :=
  Z.testbit (SAU_CTRL (sau (board s))) 0 = true /\ sau_ranges (sau (board s)) = programmed_ranges.

Lemma sau_cfg_ranges s : target_ok -> sau_reset (sau (board s)) ->
  runs sau_and_idau_cfg s (fun _ s' => same_mem s s' /\ sau_ready s').
Proof.
  intros [Hp [Hpa Hpb] Hd [Hda Hdb] Hv [Hva Hvb]] Hr. apply aligned_32 in Hpa, Hpb, Hda, Hdb.
  assert (forall n, 0 <= n < 8 -> sau_range_at (sau (board s)) n = None) as Hoff.
  { intros n Hn. unfold sau_range_at. by rewrite Hr. }
  assert (Z.testbit (Z.lor (SAU_CTRL (sau (board s))) SAU_CTRL_ENABLE_Msk) 0 = true) as Hen
    by (rewrite Z.lor_spec; apply orb_true_r).
  unfold sau_and_idau_cfg. apply runs_bind.
  eexists tt, _. split; [reflexivity|]. set (s0 := Sys _ _). assert (same_mem s s0) as S0 by done.
  change (Z.testbit (SAU_CTRL (sau (board s0))) 0 = true) in Hen.
  change (forall n, 0 <= n < 8 -> sau_range_at (sau (board s0)) n = None) in Hoff. clearbody s0.
  apply runs_program. intros s1 S1 E1. apply runs_program. intros s2 S2 E2. rewrite <- Z.lor_assoc.
  apply runs_program. intros s3 S3 E3. pose proof (same_mem_trans _ _ _ (same_mem_trans _ _ _ S0 S1) S2) as S02.
  pose proof (same_mem_trans _ _ _ S02 S3) as S03. clear S0 S1 S2 S02 S3.
  assert (Z.testbit (SAU_CTRL (sau (board s3))) 0 = true) as Hen3 by (by rewrite E3, E2, E1).
  assert (forall n, 0 <= n < 8 -> sau_range_at (sau (board s3)) n =
    if decide (n = 2) then Some (SauRange CMSE_VENEER_REGION_START CMSE_VENEER_REGION_LIMIT true)
    else if decide (n = 1) then Some (SauRange NS_DATA_START NS_DATA_LIMIT false)
    else if decide (n = 0) then Some (SauRange NS_PARTITION_START NS_PARTITION_LIMIT false) else None) as H3.
  { intros n Hn. rewrite E3, E2, E1. rewrite !sau_range_program by (done || lia). by rewrite Hoff. }
  clear E1 E2 E3 Hoff Hen s0 s1 s2 Hr. unfold programmed_ranges, periph_ranges, sau_ready.
  unfold programmed_ranges, periph_ranges. destruct SECURE_UART1.
  - eapply runs_ext; [apply seq_branch|]. apply runs_program. intros s4 S4 E4. apply runs_program. intros s5 S5 E5.
    eexists tt, _. split; [reflexivity|]. split; [by eapply same_mem_trans, same_mem_trans|].
    change (sau (board _)) with (sau (board s5)). split; [by rewrite E5, E4|].
    rewrite (ranges_of _ (fun n =>
      if decide (n = 4) then Some (SauRange UART2_BASE_NS PERIPHERALS_BASE_NS_END false)
      else if decide (n = 3) then Some (SauRange PERIPHERALS_BASE_NS_START (UART1_BASE_NS - 1) false)
      else if decide (n = 2) then Some (SauRange CMSE_VENEER_REGION_START CMSE_VENEER_REGION_LIMIT true)
      else if decide (n = 1) then Some (SauRange NS_DATA_START NS_DATA_LIMIT false)
      else if decide (n = 0) then Some (SauRange NS_PARTITION_START NS_PARTITION_LIMIT false) else None)); [done|].
    intros n Hn. rewrite E5, E4, !sau_range_program by done. by rewrite H3.
  - apply runs_program. intros s4 S4 E4.
    eexists tt, _. split; [reflexivity|]. split; [by eapply same_mem_trans|].
    change (sau (board _)) with (sau (board s4)). split; [by rewrite E4|].
    rewrite (ranges_of _ (fun n =>
      if decide (n = 3) then Some (SauRange PERIPHERALS_BASE_NS_START PERIPHERALS_BASE_NS_END false)
      else if decide (n = 2) then Some (SauRange CMSE_VENEER_REGION_START CMSE_VENEER_REGION_LIMIT true)
      else if decide (n = 1) then Some (SauRange NS_DATA_START NS_DATA_LIMIT false)
      else if decide (n = 0) then Some (SauRange NS_PARTITION_START NS_PARTITION_LIMIT false) else None)); [done|].
    intros n Hn. rewrite E4, !sau_range_program by done. by rewrite H3.
Qed.

(** The attribution of every address. *)
Lemma programmed_attribution u a : target_ok -> Z.testbit (SAU_CTRL u) 0 = true -> sau_ranges u = programmed_ranges ->
  (sau_attribution u a = AttrNonSecure <-> in_ns_memory a \/ in_ns_peripherals a) /\
  (sau_attribution u a = AttrNonSecureCallable <-> in_veneers a).
Proof.
  intros [Hp _ Hd _ Hv _] Hc Hr. unfold sau_attribution. rewrite Hc, Hr.
  unfold programmed_ranges, periph_ranges, in_ns_memory, in_ns_peripherals, in_veneers, PERIPHERALS_BASE_NS_START,
    PERIPHERALS_BASE_NS_END, UART1_BASE_NS, UART2_BASE_NS.
  destruct SECURE_UART1; cbn [app]; rewrite !filter_cons, filter_nil; unfold in_sau_range; cbn [sau_base sau_last];
    repeat case_decide; cbn [sau_nsc]; (split; split; intros ?; try discriminate; try done; lia || intuition lia).
Qed.
(** ** The memory protection controllers after [mpc_init_cfg] *)

(** A controller of 128 KB blocks out of reset: every block is secure. *)
Record mpc_reset (d : mpc_sie200_dev_t) : Prop := {
  mr_cfg : blk_cfg (mpc_reg d) = 12;
  mr_max : 0 <= blk_max (mpc_reg d);
  mr_unlocked : locked (mpc_reg d) = false;
  mr_secure : forall w, lut_of d w = 0;
}.

(** A locked controller whose non-secure blocks are those from [base] to
    [limit] of the range [r]. *)
Record mpc_programmed (ranges : list mpc_sie200_memory_range_t) (r : mpc_sie200_memory_range_t) (base limit : Z)
    (d : mpc_sie200_dev_t) : Prop := {
  mp_ranges : range_list d = ranges;
  mp_cfg : blk_cfg (mpc_reg d) = 12;
  mp_locked : locked (mpc_reg d) = true;
  mp_init : is_set (mpc_state d) MPC_SIE200_INITIALIZED = true;
  mp_blocks : forall k, 0 <= k -> block_ns (lut_of d) k = true <-> block_of d r base <= k <= block_of d r limit;
}.

Definition installed (ranges : list mpc_sie200_memory_range_t) (d : mpc_sie200_dev_t) : mpc_sie200_dev_t :=
  MpcDev (mpc_reg d) ranges 2 MPC_SIE200_INITIALIZED.

(** Two aliases that start on a block and do not overlap. *)
Record two_aliases (rs rn : mpc_sie200_memory_range_t) : Prop := {
  ta_s : 0 <= range_base rs <= range_limit rs /\ range_limit rs < 2 ^ 32 /\ range_base rs mod 0x20000 = 0;
  ta_n : 0 <= range_base rn <= range_limit rn /\ range_limit rn < 2 ^ 32 /\ range_base rn mod 0x20000 = 0;
  ta_disjoint : range_limit rn < range_base rs;
  ta_attr : range_attr rn = MPC_SIE200_SEC_ATTR_NONSECURE;
  ta_words : (range_limit rn - range_base rn) / 0x20000 < 32;
}.

Lemma installed_ok rs rn d : two_aliases rs rn -> mpc_reset d -> mpc_ok (installed [rs; rn] d).
Proof.
  intros [Hs Hn Hd _ _] [Hc Hm Hu Hl].
  assert (block_size (installed [rs; rn] d) = 0x20000) as Eb by (unfold block_size, installed; cbn; by rewrite Hc).
  split; try done.
  - cbn. lia.
  - intros [|[|i]] r; cbn; intros; simplify_eq; rewrite Eb; tauto.
  - intros [|[|i]] [|[|j]] r r' a; cbn; intros; simplify_eq; lia.
  - intros w. change (blk_lut (mpc_reg (installed [rs; rn] d)) w) with (lut_of d w). rewrite Hl. lia.
Qed.

Lemma lock_bit r : locked r = false -> locked (set_ctrl (Z.lor (mpc_ctrl r)
  (Z.lor MPC_SIE200_CTRL_AUTOINCREMENT MPC_SIE200_CTRL_SEC_LOCK_DOWN)) r) = true.
Proof.
  intros Hu. unfold set_ctrl. rewrite Hu. unfold locked, is_set. cbn [mpc_ctrl]. apply negb_true_iff, Z.eqb_neq.
  intros Hz. pose proof (f_equal (fun x => Z.testbit x 31) Hz) as Hb. cbv beta in Hb.
  rewrite Z.land_spec, Z.lor_spec, orb_comm in Hb. discriminate.
Qed.

(** The two calls that open a region, and the one that locks. *)
Lemma config_installed rs rn d base limit : two_aliases rs rn -> mpc_reset d ->
  range_base rn <= base <= limit -> limit <= range_limit rn -> base mod 0x20000 = 0 -> (limit + 1) mod 0x20000 = 0 ->
  exists d', mpc_sie200_config_region base limit MPC_SIE200_SEC_ATTR_NONSECURE (installed [rs; rn] d) = (Ok tt, d') /\
    exists d'', mpc_sie200_lock_down d' = (Ok tt, d'') /\ mpc_programmed [rs; rn] rn base limit d''.
Proof.
  intros Ht Hr Hb Hl Ab Al. pose proof (installed_ok rs rn d Ht Hr) as Hok. destruct Ht as [Hs Hn Hd Ha Hw].
  destruct Hr as [Hc Hm Hu Hsec].
  assert (block_size (installed [rs; rn] d) = 0x20000) as Eb by (unfold block_size, installed; cbn; by rewrite Hc).
  destruct (config_region_ok (installed [rs; rn] d) Hok base limit MPC_SIE200_SEC_ATTR_NONSECURE rn)
    as (i & lut' & -> & Hset & _); [lia|lia|done|done|done| |].
  { split; try rewrite Eb; try done; try lia; [right; left|]. transitivity 0; [|done].
    apply Z.lt_succ_r. apply Z.div_lt_upper_bound; [lia|].
    pose proof (Z.div_le_mono (limit - range_base rn) (range_limit rn - range_base rn) 0x20000). lia. }
  eexists. split; [reflexivity|]. set (d' := with_lut i lut' _). eexists. split.
  - unfold mpc_sie200_lock_down, check_init. erewrite bind_Ok by reflexivity. reflexivity.
  - assert (locked (mpc_reg d') = false) as Hu' by done. split; try done.
    + apply (lock_bit (mpc_reg d') Hu').
    + intros k Hk. change (lut_of _) with lut'. rewrite (Hset k Hk). case_decide as Hin; [done|].
      unfold block_ns. change (lut_of (installed [rs; rn] d)) with (lut_of d). rewrite Hsec, Z.testbit_0_l. done.
Qed.

(** The calls on one controller do not touch the other. *)
Lemma runs_on_mpc {A} get set (m : MPC A) a d s Q : m (get (board s)) = (Ok a, d) ->
  Q (inl a) (Sys (core s) (set d (board s))) -> runs (on_mpc get set m) s Q.
Proof. intros E H. eexists _, _. split; [|exact H]. unfold on_mpc. by rewrite E. Qed.

Lemma runs_sram1 {A} (m : MPC A) f a d s Q : m (sram1_mpc (board s)) = (Ok a, d) ->
  Q (f (inl a)) (Sys (core s) (set_mpc1 d (board s))) -> runs (r <- sram1 m ;; ret (f r)) s (Q : Z -> sys_t -> Prop).
Proof. intros E H. apply runs_bind. apply (runs_on_mpc _ _ m a d); [done|]. by apply runs_ret. Qed.

Lemma runs_sram2 {A} (m : MPC A) f a d s Q : m (sram2_mpc (board s)) = (Ok a, d) ->
  Q (f (inl a)) (Sys (core s) (set_mpc2 d (board s))) -> runs (r <- sram2 m ;; ret (f r)) s (Q : Z -> sys_t -> Prop).
Proof. intros E H. apply runs_bind. apply (runs_on_mpc _ _ m a d); [done|]. by apply runs_ret. Qed.

Definition SRAM1_NS : mpc_sie200_memory_range_t := MpcRange 0x00000000 0x003FFFFF MPC_SIE200_SEC_ATTR_NONSECURE.
Definition SRAM2_NS : mpc_sie200_memory_range_t := MpcRange 0x28000000 0x281FFFFF MPC_SIE200_SEC_ATTR_NONSECURE.

Lemma mpc_init_programs s : target_ok -> mpc_reset (sram1_mpc (board s)) -> mpc_reset (sram2_mpc (board s)) ->
  runs mpc_init_cfg s (fun _ s' => core s' = core s /\ sau (board s') = sau (board s) /\ ITNS (board s') = ITNS (board s) /\
    mpc_programmed MPC_CODE_SRAM1_RANGE_LIST SRAM1_NS NS_PARTITION_START NS_PARTITION_LIMIT (sram1_mpc (board s')) /\
    mpc_programmed MPC_CODE_SRAM2_RANGE_LIST SRAM2_NS NS_DATA_START NS_DATA_LIMIT (sram2_mpc (board s'))).
Proof.
  intros [Hp [Hpa Hpb] Hd [Hda Hdb] _ _] Hr1 Hr2.
  destruct (config_installed (MpcRange 0x10000000 0x103FFFFF MPC_SIE200_SEC_ATTR_SECURE) SRAM1_NS (sram1_mpc (board s))
    NS_PARTITION_START NS_PARTITION_LIMIT) as (d1 & E1 & d1' & E1' & P1);
    [by split; cbn|done|cbn; lia|cbn; lia|done|done|].
  destruct (config_installed (MpcRange 0x38000000 0x381FFFFF MPC_SIE200_SEC_ATTR_SECURE) SRAM2_NS (sram2_mpc (board s))
    NS_DATA_START NS_DATA_LIMIT) as (d2 & E2 & d2' & E2' & P2);
    [by split; cbn|done|cbn; lia|cbn; lia|done|done|].
  unfold mpc_init_cfg.
  apply runs_bind, (runs_sram1 _ _ tt (installed MPC_CODE_SRAM1_RANGE_LIST (sram1_mpc (board s)))); [done|].
  apply runs_bind, (runs_sram1 _ _ tt d1); [exact E1|].
  apply runs_bind, (runs_sram2 _ _ tt (installed MPC_CODE_SRAM2_RANGE_LIST (sram2_mpc (board s)))); [done|].
  apply runs_bind, (runs_sram2 _ _ tt d2); [exact E2|].
  apply runs_bind, (runs_sram1 _ _ tt d1'); [exact E1'|].
  apply runs_bind, (runs_sram2 _ _ tt d2'); [exact E2'|].
  by apply runs_ret.
Qed.

(** ** The peripherals and the interrupts *)

(** The peripherals given to the non-secure side, by bank and position. *)
Definition ns_peripherals : list (Z * Z) :=
  (pair PPC_APB_PPC0 <$> [0; 1; 2; 3; 4]) ++ [(PPC_APB_PPC1, 0)] ++
  (pair PPC_APB_PPC_EXP1 <$> [0; 1; 2; 3; 4; CMSDK_UART0_APB_PPC_POS]) ++
  (if SECURE_UART1 then [] else [(PPC_APB_PPC_EXP1, CMSDK_UART1_APB_PPC_POS)]) ++
  (pair PPC_APB_PPC_EXP1 <$> [7; 8; 9; 10; 11; 12; 13]) ++ (pair PPC_APB_PPC_EXP2 <$> [0; 1; 2]) ++
  (pair PPC_AHB_PPC_EXP0 <$> [0; 1; 2; 3; 4]) ++ (pair PPC_AHB_PPC_EXP1 <$> [0; 1; 2; 3]).

(** The bits of [l] are set on top of those of [f]. *)
Definition grants (f g : Z -> Z) (l : list (Z * Z)) : Prop :=
  forall bank pos, 0 <= pos < 32 -> Z.testbit (g bank) pos = true <-> Z.testbit (f bank) pos = true \/ (bank, pos) ∈ l.

Lemma grants_nil f : grants f f [].
Proof. intros bank pos _. rewrite elem_of_nil. tauto. Qed.

Lemma grants_app f g h l l' : grants f g l -> grants g h l' -> grants f h (l ++ l').
Proof. intros H1 H2 bank pos Hp. rewrite (H2 bank pos Hp), (H1 bank pos Hp), elem_of_app. tauto. Qed.

Lemma bit_testbit p pos : 0 <= p < 32 -> 0 <= pos -> Z.testbit (bit p) pos = (p =? pos).
Proof. intros Hp Hpos. unfold bit. rewrite u32_shl1 by lia. apply Z.pow2_bits_eqb. lia. Qed.

Lemma grants_one h bank p : 0 <= p < 32 -> grants (nsppc h) (nsppc (ppc_configure_to_non_secure bank p h)) [(bank, p)].
Proof.
  intros Hp bank' pos Hpos. unfold ppc_configure_to_non_secure. cbn [nsppc]. rewrite list_elem_of_singleton.
  unfold upd. case_decide as E.
  - subst bank'. rewrite Z.lor_spec, bit_testbit, orb_true_iff, Z.eqb_eq by lia. split; intros [|]; auto.
    + right. congruence.
    + right. congruence.
  - split; [tauto|]. intros [|[=]]; done.
Qed.

Lemma grants_fold bank ps h : Forall (fun p => 0 <= p < 32) ps ->
  grants (nsppc h) (nsppc (fold_left (fun h pos => ppc_configure_to_non_secure bank pos h) ps h)) (pair bank <$> ps).
Proof.
  intros Hps. revert h. induction Hps as [|p ps Hp _ IH]; intros h; [apply grants_nil|].
  apply (grants_app _ (nsppc (ppc_configure_to_non_secure bank p h)) _ [(bank, p)]); [by apply grants_one|]. apply IH.
Qed.

(** What the steps after the controllers leave alone. *)
Definition same_prot (s s' : sys_t) : Prop :=
  sau (board s') = sau (board s) /\ sram1_mpc (board s') = sram1_mpc (board s) /\
  sram2_mpc (board s') = sram2_mpc (board s) /\ ITNS (board s') = ITNS (board s).

Lemma runs_grant {A} bank ps (k : BM A) s Q : Forall (fun p => 0 <= p < 32) ps ->
  (forall s', same_prot s s' -> grants (nsppc (hw (core s))) (nsppc (hw (core s'))) (pair bank <$> ps) -> runs k s' Q) ->
  runs (grant_ns bank ps ;; k) s Q.
Proof.
  intros Hps H. apply runs_bind. eexists _, _. split; [reflexivity|]. apply H; [done|].
  by apply grants_fold.
Qed.

Lemma same_prot_trans s1 s2 s3 : same_prot s1 s2 -> same_prot s2 s3 -> same_prot s1 s3.
Proof. intros (? & ? & ? & ?) (? & ? & ? & ?). split_and!; congruence. Qed.

(** Functions that leave the protection and the peripherals alone. *)
Definition silent {A} (m : BM A) : Prop := forall s,
  runs m s (fun _ s' => same_prot s s' /\ hw (core s') = hw (core s)).

Lemma silent_bind {A B} (m : BM A) (k : A -> BM B) : silent m -> (forall a, silent (k a)) -> silent (m' <- m ;; k m').
Proof.
  intros Hm Hk s. apply runs_bind. eapply runs_mono; [apply Hm|]. intros a s1 [P1 E1]. cbv beta.
  eapply runs_mono; [apply Hk|]. intros b s2 [P2 E2]. split; [by eapply same_prot_trans|congruence].
Qed.

Lemma silent_board f : (forall b, sau (f b) = sau b /\ sram1_mpc (f b) = sram1_mpc b /\ sram2_mpc (f b) = sram2_mpc b /\
  ITNS (f b) = ITNS b) -> silent (on_board f).
Proof. intros H s. eexists tt, _. split; [reflexivity|]. split; [apply H|done]. Qed.

Lemma silent_ret {A} (a : A) : silent (ret a).
Proof. intros s. by apply runs_ret. Qed.

Local Ltac positions :=
  repeat (apply Forall_cons_2; [unfold CMSDK_UART0_APB_PPC_POS, CMSDK_UART1_APB_PPC_POS; lia|]); apply Forall_nil_2.

Lemma ppc_init_grants s : runs ppc_init_cfg s (fun _ s' =>
  same_prot s s' /\ grants (nsppc (hw (core s))) (nsppc (hw (core s'))) ns_peripherals).
Proof.
  unfold ppc_init_cfg, ns_peripherals.
  apply runs_grant; [positions|]. intros s1 P1 G1.
  apply runs_grant; [positions|]. intros s2 P2 G2.
  apply runs_grant; [positions|]. intros s3 P3 G3.
  assert (runs (if SECURE_UART1 then ret tt else grant_ns PPC_APB_PPC_EXP1 [CMSDK_UART1_APB_PPC_POS]) s3 (fun _ s' =>
    same_prot s3 s' /\ grants (nsppc (hw (core s3))) (nsppc (hw (core s')))
      (if SECURE_UART1 then [] else [(PPC_APB_PPC_EXP1, CMSDK_UART1_APB_PPC_POS)]))) as H4.
  { destruct SECURE_UART1; [apply runs_ret; split; [done|apply grants_nil]|].
    eexists _, _. split; [reflexivity|]. split; [done|]. apply (grants_fold _ [CMSDK_UART1_APB_PPC_POS]).
    positions. }
  apply runs_bind. eapply runs_mono; [exact H4|]. intros _ s4 [P4 G4]. cbv beta.
  apply runs_grant; [positions|]. intros s5 P5 G5.
  apply runs_grant; [positions|]. intros s6 P6 G6.
  apply runs_grant; [positions|]. intros s7 P7 G7.
  apply runs_grant; [positions|]. intros s8 P8 G8.
  eapply runs_mono.
  - do 3 (apply silent_bind; [by apply silent_board|intros _]). by apply silent_board.
  - intros _ s9 [P9 E9]. split; [by do 8 (eapply same_prot_trans; [eassumption|])|]. rewrite E9.
    do 7 (eapply grants_app; [eassumption|]). done.
Qed.

(** The interrupts that stay with the secure side. *)
Definition secure_irqs : list Z :=
  [MPC_IRQn; PPC_IRQn] ++ if SECURE_UART1 then [UARTRX1_IRQn; UARTTX1_IRQn; UART1_IRQn] else [].

Definition irq_ns (itns : Z -> Z) (n : Z) : bool := Z.testbit (itns (Z.shiftr n 5)) (Z.land n 0x1F).

Lemma target_loop_spec n i itns w : target_ns_loop n i itns w =
  if decide (i <= w < i + Z.of_nat n) then 0xFFFFFFFF else itns w.
Proof.
  revert i itns. induction n as [|n IH]; intros i itns; cbn [target_ns_loop]; [by rewrite decide_False by lia|].
  rewrite IH. unfold upd. repeat case_decide; done || lia.
Qed.

Lemma irq_cleared itns irq n : 0 <= irq -> 0 <= n ->
  irq_ns (upd itns (Z.shiftr irq 5) (Z.land (itns (Z.shiftr irq 5)) (u32 (Z.lnot (bit (Z.land irq 0x1F)))))) n =
    irq_ns itns n && negb (n =? irq).
Proof.
  intros Hi Hn. unfold irq_ns. change 0x1F with (Z.ones 5). rewrite !Z.land_ones, !Z.shiftr_div_pow2 by lia.
  change (2 ^ 5) with 32. pose proof (Z.mod_pos_bound n 32). pose proof (Z.mod_pos_bound irq 32).
  unfold upd. case_decide as E.
  - rewrite E, Z.land_spec, testbit_u32, Z.lnot_spec, bit_testbit by lia.
    destruct (Z.ltb_spec (n mod 32) 32); [|lia]. rewrite andb_true_l. f_equal. f_equal.
    destruct (Z.eqb_spec (irq mod 32) (n mod 32)), (Z.eqb_spec n irq); try done.
    + pose proof (Z.div_mod n 32). pose proof (Z.div_mod irq 32). lia.
    + subst. done.
  - destruct (Z.eqb_spec n irq) as [->|]; [done|]. by rewrite andb_true_r.
Qed.

Lemma runs_clear_target {A} irq (k : BM A) s Q : 0 <= irq ->
  (forall s', sau (board s') = sau (board s) -> sram1_mpc (board s') = sram1_mpc (board s) ->
     sram2_mpc (board s') = sram2_mpc (board s) -> core s' = core s ->
     (forall n, 0 <= n -> irq_ns (ITNS (board s')) n = irq_ns (ITNS (board s)) n && negb (n =? irq)) -> runs k s' Q) ->
  runs (NVIC_ClearTargetState irq ;; k) s Q.
Proof.
  intros Hi H. apply runs_bind. eexists _, _. split; [reflexivity|]. apply H; try done.
  intros n Hn. by apply irq_cleared.
Qed.

Lemma runs_then_ret (m : BM unit) s (Q : unit -> sys_t -> Prop) : runs (m ;; ret tt) s Q -> runs m s Q.
Proof.
  intros ([] & s' & E & HQ). exists tt, s'. split; [|done]. unfold bind in E.
  destruct (m s) as [[[]| |] s1]; [done|done|done].
Qed.

Lemma all_ones_bits k : 0 <= k < 32 -> Z.testbit 0xFFFFFFFF k = true.
Proof. intros. change 0xFFFFFFFF with (Z.ones 32). rewrite testbit_ones by lia. apply Z.ltb_lt; lia. Qed.

Lemma target_state_irqs s : runs nvic_interrupt_target_state_cfg s (fun _ s' =>
  sau (board s') = sau (board s) /\ sram1_mpc (board s') = sram1_mpc (board s) /\
  sram2_mpc (board s') = sram2_mpc (board s) /\ core s' = core s /\
  forall n, 0 <= n < 512 -> irq_ns (ITNS (board s')) n = bool_decide (n ∉ secure_irqs)).
Proof.
  unfold nvic_interrupt_target_state_cfg. apply runs_bind. eexists _, _. split; [reflexivity|]. set (s0 := Sys _ _).
  assert (forall n, 0 <= n < 512 -> irq_ns (ITNS (board s0)) n = true) as H0.
  { intros n Hn. unfold irq_ns. change (ITNS (board s0)) with (target_ns_loop NVIC_ITNS_WORDS 0 (ITNS (board s))).
    assert (0 <= n / 32 < 16) by (split; [apply Z.div_pos|apply Z.div_lt_upper_bound]; lia).
    change 0x1F with (Z.ones 5). rewrite target_loop_spec, Z.land_ones, Z.shiftr_div_pow2, decide_True by
      (unfold NVIC_ITNS_WORDS; change (2 ^ 5) with 32; lia).
    apply all_ones_bits, Z.mod_pos_bound. lia. }
  assert (sau (board s0) = sau (board s) /\ sram1_mpc (board s0) = sram1_mpc (board s) /\
    sram2_mpc (board s0) = sram2_mpc (board s) /\ core s0 = core s) as (<- & <- & <- & <-) by done. clearbody s0.
  unfold secure_irqs.
  apply runs_clear_target; [done|]. intros s1 A1 B1 C1 D1 H1. apply runs_clear_target; [done|]. intros s2 A2 B2 C2 D2 H2.
  destruct SECURE_UART1.
  - apply runs_clear_target; [done|]. intros s3 A3 B3 C3 D3 H3. apply runs_clear_target; [done|].
    intros s4 A4 B4 C4 D4 H4. apply runs_then_ret, runs_clear_target; [done|]. intros s5 A5 B5 C5 D5 H5.
    apply runs_ret. split_and!; [congruence..|]. intros n Hn. rewrite H5, H4, H3, H2, H1, H0 by lia.
    apply eq_bool_prop_intro. rewrite !andb_True, !negb_True, !Is_true_true, !Z.eqb_eq, bool_decide_eq_true.
    cbn [app]. rewrite !not_elem_of_cons. pose proof (not_elem_of_nil n). tauto.
  - apply runs_ret. split_and!; [congruence..|]. intros n Hn. rewrite H2, H1, H0 by lia.
    apply eq_bool_prop_intro. rewrite !andb_True, !negb_True, !Is_true_true, !Z.eqb_eq, bool_decide_eq_true.
    cbn [app]. rewrite !not_elem_of_cons. pose proof (not_elem_of_nil n). tauto.
Qed.

(** ** [tfm_core_init] *)

Lemma silent_core {A} (m : TM A) : (forall c, exists a c', m c = (Ok a, c') /\ hw c' = hw c) -> silent (on_core m).
Proof.
  intros H s. destruct (H (core s)) as (a & c' & E & Eh). exists a, (Sys c' (board s)).
  split; [|done]. unfold on_core. by rewrite E.
Qed.

Lemma silent_debug : silent configure_debug_registers.
Proof.
  unfold configure_debug_registers, secdbgset, secdbgclr.
  destruct DAUTH; repeat (apply silent_bind; [by apply silent_board|intros _]); by apply silent_board.
Qed.

Lemma silent_ppc_ints : silent (clear_ppc_int (bit 0) ;; enable_ppc_int (bit 0) ;; enable_ppc_int (bit 1) ;;
  enable_ppc_int (bit 4) ;; enable_ppc_int (bit 5) ;; enable_ppc_int (bit 6) ;; enable_ppc_int (bit 7) ;;
  NVIC_EnableIRQ PPC_IRQn).
Proof. repeat (apply silent_bind; [by apply silent_board|intros _]); by apply silent_board. Qed.

Lemma irq_enable_programmed ranges r base limit d : mpc_programmed ranges r base limit d ->
  exists d', mpc_sie200_irq_enable d = (Ok tt, d') /\ mpc_programmed ranges r base limit d'.
Proof.
  intros [Hr Hc Hl Hi Hb]. eexists. split.
  - unfold mpc_sie200_irq_enable, check_init. erewrite bind_Ok by (unfold bind; cbn; rewrite Hi; reflexivity).
    reflexivity.
  - by split.
Qed.

Record board_reset (b : board_t) : Prop := {
  br_sau : sau_reset (sau b);
  br_sram1 : mpc_reset (sram1_mpc b);
  br_sram2 : mpc_reset (sram2_mpc b);
}.

(** What the start-up leaves, for the system it started with. *)
Record started (s s' : sys_t) : Prop := {
  st_sau : sau_ready s';
  st_sram1 : mpc_programmed MPC_CODE_SRAM1_RANGE_LIST SRAM1_NS NS_PARTITION_START NS_PARTITION_LIMIT
    (sram1_mpc (board s'));
  st_sram2 : mpc_programmed MPC_CODE_SRAM2_RANGE_LIST SRAM2_NS NS_DATA_START NS_DATA_LIMIT (sram2_mpc (board s'));
  st_ppc : grants (nsppc (hw (core s))) (nsppc (hw (core s'))) ns_peripherals;
  st_irqs : forall n, 0 <= n < 512 -> irq_ns (ITNS (board s')) n = bool_decide (n ∉ secure_irqs);
}.

Lemma isolation_hw_programs s : target_ok -> board_reset (board s) ->
  runs tfm_spm_hal_init_isolation_hw s (fun _ s' => sau_ready s' /\
    mpc_programmed MPC_CODE_SRAM1_RANGE_LIST SRAM1_NS NS_PARTITION_START NS_PARTITION_LIMIT (sram1_mpc (board s')) /\
    mpc_programmed MPC_CODE_SRAM2_RANGE_LIST SRAM2_NS NS_DATA_START NS_DATA_LIMIT (sram2_mpc (board s')) /\
    grants (nsppc (hw (core s))) (nsppc (hw (core s'))) ns_peripherals).
Proof.
  intros Hok [Hs H1 H2]. unfold tfm_spm_hal_init_isolation_hw. apply runs_bind.
  eapply runs_mono; [by apply sau_cfg_ranges|]. intros _ s1 [(Ec & E1 & E2 & _) Hsau]. cbv beta. apply runs_bind.
  eapply runs_mono; [apply mpc_init_programs; rewrite ?E1, ?E2; done|].
  intros _ s2 (Ec2 & Es2 & _ & P1 & P2). cbv beta. eapply runs_mono; [apply ppc_init_grants|].
  intros _ s3 [(As & Am1 & Am2 & _) Hg]. rewrite Am1, Am2. rewrite Ec2, Ec in Hg. unfold sau_ready in *.
  by rewrite As, Es2.
Qed.

Lemma core_init_starts rom s : target_ok -> board_reset (board s) ->
  runs (tfm_core_init rom) s (fun r s' => r = 0 /\ started s s').
Proof.
  intros Hok Hr. unfold tfm_core_init.
  assert (silent (enable_fault_handlers)) as Sf by (apply silent_core; intros c; by eexists _, _).
  assert (silent (on_core enable_irq)) as Si by (apply silent_core; intros c; by eexists _, _).
  apply runs_bind. eapply runs_mono; [apply Sf|]. intros _ s1 [(A1 & B1 & C1 & _) E1]. cbv beta.
  apply runs_bind. eapply runs_mono; [apply silent_debug|]. intros _ s2 [(A2 & B2 & C2 & _) E2]. cbv beta.
  apply runs_bind. eapply runs_mono; [apply Si|]. intros _ s3 [(A3 & B3 & C3 & _) E3]. cbv beta.
  assert (board_reset (board s3)) as Hr3.
  { destruct Hr as [R1 R2 R3]. split; rewrite ?A3, ?A2, ?A1, ?B3, ?B2, ?B1, ?C3, ?C2, ?C1; done. }
  apply runs_bind. eapply runs_mono; [by apply isolation_hw_programs|]. intros _ s4 (Hs & P1 & P2 & Hg). cbv beta.
  rewrite E3, E2, E1 in Hg. clear A1 A2 A3 B1 B2 B3 C1 C2 C3 E1 E2 E3 Hr3.
  apply runs_bind. eexists _, _. split; [reflexivity|]. set (s5 := Sys _ _).
  change (sau_ready s5) in Hs. change (nsppc (hw (core s4))) with (nsppc (hw (core s5))) in Hg.
  change (sram1_mpc (board s4)) with (sram1_mpc (board s5)) in P1.
  change (sram2_mpc (board s4)) with (sram2_mpc (board s5)) in P2. clearbody s5. clear s4.
  apply runs_bind. eapply runs_mono; [apply target_state_irqs|]. intros _ s6 (A6 & B6 & C6 & D6 & Hirq). cbv beta.
  apply runs_bind. unfold nvic_interrupt_enable. rewrite <- B6 in P1. rewrite <- C6 in P2.
  destruct (irq_enable_programmed _ _ _ _ _ P1) as (d1 & F1 & P1').
  apply runs_bind, (runs_sram1 _ _ tt d1); [done|]. set (s7 := Sys _ _).
  destruct (irq_enable_programmed _ _ _ _ _ P2) as (d2 & F2 & P2').
  apply runs_bind, (runs_sram2 _ _ tt d2); [done|]. set (s8 := Sys _ _).
  apply runs_bind. eapply runs_mono; [by apply silent_board|]. intros _ s9 [(A9 & B9 & C9 & D9) E9]. cbv beta.
  eapply runs_mono; [apply silent_ppc_ints|]. intros _ s10 [(A10 & B10 & C10 & D10) E10]. cbv beta.
  apply runs_bind. eexists _, _. split; [reflexivity|]. apply runs_ret. split; [done|]. split; cbn [board core].
  - unfold sau_ready in *. change (sau (board _)) with (sau (board s10)).
    rewrite A10, A9. change (sau (board s8)) with (sau (board s6)). by rewrite A6.
  - change (sram1_mpc (set_scratch _ _ (board s10))) with (sram1_mpc (board s10)). by rewrite B10, B9.
  - change (sram2_mpc (set_scratch _ _ (board s10))) with (sram2_mpc (board s10)). by rewrite C10, C9.
  - rewrite E10, E9. change (core s8) with (core s6). by rewrite D6.
  - change (ITNS (set_scratch _ _ (board s10))) with (ITNS (board s10)). rewrite D10, D9.
    change (ITNS (board s8)) with (ITNS (board s6)). done.
Qed.
End target.

Section claims.
  Context {Layout : tfm_layout} {Target : target_cfg}.

Lemma block_of_inside base limit ranges r d a : mpc_programmed ranges r base limit d ->
  range_base r <= base -> base <= a <= limit -> block_ns (lut_of d) (block_of d r a) = true.
Proof.
  intros [_ Hc _ _ Hb] Hr Ha. assert (block_size d = 0x20000) as Eb by (unfold block_size; by rewrite Hc).
  apply Hb; unfold block_of in *; rewrite Eb in *; [apply Z.div_pos; lia|].
  split; apply Z.div_le_mono; lia.
Qed.

Lemma started_reach s s' a : target_ok -> started s s' -> ns_reaches (board s') a <-> in_ns_memory a.
Proof.
  intros Hok [[Hc Hr] P1 P2 _ _]. destruct (programmed_attribution _ a Hok Hc Hr) as [Hns _].
  destruct Hok as [Hp _ Hd _ _ _]. unfold ns_reaches. rewrite Hns. split.
  - intros [[Hm|[Hper _]] Hmpc]; [done|exfalso].
    unfold PERIPHERALS_BASE_NS_START, PERIPHERALS_BASE_NS_END in Hper.
    destruct Hmpc as [(r & Hin & Hra & _)|(r & Hin & Hra & _)]; [rewrite (mp_ranges _ _ _ _ _ P1) in Hin
      |rewrite (mp_ranges _ _ _ _ _ P2) in Hin];
      apply elem_of_cons in Hin as [->|Hin%list_elem_of_singleton]; subst; cbn in Hra; lia.
  - intros Hm. split; [by left|]. destruct Hm as [Hm|Hm].
    + left. exists SRAM1_NS. rewrite (mp_ranges _ _ _ _ _ P1). split; [right; left|].
      split; [cbn; lia|]. eapply block_of_inside; [done|cbn; lia|lia].
    + right. exists SRAM2_NS. rewrite (mp_ranges _ _ _ _ _ P2). split; [right; left|].
      split; [cbn; lia|]. eapply block_of_inside; [done|cbn; lia|lia].
Qed.

(** C12: whatever partitions there are and whatever their initialisation does,
    from reset to the jump the board is set up so that a non-secure access
    reaches an address of the two memories exactly when it is in the non-secure
    partition or the non-secure data; only the veneers are non-secure callable;
    and the memory protection controllers are locked. *)
Theorem ns_reach_exact {Cmse : cmse} (run_sfn : Z -> Z * Z * Z * Z -> TM Z) (user_partitions : list partition_decl)
    (rom : Z -> Z) (s : sys_t) (a : Z) :
  target_ok -> board_reset (board s) ->
  let b := board (snd (system_main run_sfn user_partitions rom s)) in
  (ns_reaches b a <-> in_ns_memory a) /\
  (sau_attribution (sau b) a = AttrNonSecureCallable <-> in_veneers a) /\
  locked (mpc_reg (sram1_mpc b)) = true /\ locked (mpc_reg (sram2_mpc b)) = true.
Proof.
  intros Hok Hr b. destruct (core_init_starts rom s Hok Hr) as (r & s1 & E & -> & Hst).
  assert (b = board s1) as ->.
  { subst b. unfold system_main. rewrite (bind_Ok _ _ _ _ _ E). unfold on_core.
    by destruct (main run_sfn user_partitions (core s1)). }
  split; [by apply (started_reach s)|]. destruct Hst as [[Hc Hrr] P1 P2 _ _].
  destruct (programmed_attribution _ a Hok Hc Hrr) as [_ Hv]. split; [done|].
  split; [apply P1|apply P2].
Qed.

(** The start-up of the hardware succeeds; it opens to the non-secure side
    exactly the listed peripherals, and directs every interrupt to it but those
    of the protection controllers, and those of UART 1 when that is secure. *)
Theorem startup_peripherals_exact (rom : Z -> Z) (s : sys_t) :
  target_ok -> board_reset (board s) -> exists s', tfm_core_init rom s = (Ok 0, s') /\
  (forall bank pos, 0 <= pos < 32 -> Z.testbit (nsppc (hw (core s')) bank) pos = true <->
     Z.testbit (nsppc (hw (core s)) bank) pos = true \/ (bank, pos) ∈ ns_peripherals) /\
  (forall n, 0 <= n < 512 -> irq_ns (ITNS (board s')) n = true <-> n ∉ secure_irqs).
Proof.
  intros Hok Hr. destruct (core_init_starts rom s Hok Hr) as (r & s1 & E & -> & [_ _ _ Hg Hi]).
  exists s1. split; [done|]. split; [exact Hg|]. intros n Hn. rewrite Hi by done. apply bool_decide_eq_true.
Qed.
End claims.

(** ** The board, without and with the bootloader *)

Module TargetAn521.

#[local] Existing Instance An521Core.an521_core_layout.

Definition an521_target (uart1 bl2 : bool) : target_cfg := {|
  SECURE_UART1 := uart1;
  DAUTH := DAUTH_CHIP_DEFAULT;
  NS_PARTITION_START := 0x00100000;
  NS_PARTITION_LIMIT := 0x00100000 + (if bl2 then 3 else 1) * 0x80000 - 1;
|}.

Lemma an521_target_ok uart1 bl2 : target_ok (Target := an521_target uart1 bl2).
Proof. destruct bl2; split; vm_compute; repeat split; discriminate. Qed.

Definition reset_mpc : mpc_sie200_dev_t := MpcDev (MpcRegs 0x100 0 12 0 (fun _ => 0) 0 1) [] 0 0.

Definition reset_board : board_t :=
  Board (Sau 0 0 (fun _ => 0) (fun _ => 0)) reset_mpc reset_mpc 0 0 0 0 (fun _ => 0) (fun _ => 0) (fun _ => 0) 0 0 0 0 0 0.

Lemma reset_board_ok : board_reset reset_board.
Proof. split; [intros n _; reflexivity|by split..]. Qed.

(** The secure storage, at the end of the first memory, is out of reach. *)
Lemma ns_reach_exact_witness :
  let b := board (snd (system_main (Target := an521_target false true) (Cmse := An521Core.an521_cmse)
    (sfn_exec (Cmse := An521Core.an521_cmse) An521Core.bodies 8) An521Core.user_partitions (fun _ => 0)
    (Sys An521Core.reset_state reset_board))) in
  ~ ns_reaches b 0x380000 /\ ns_reaches b 0x27FFFF.
Proof.
  cbv zeta. split.
  - rewrite (proj1 (ns_reach_exact (Target := an521_target false true) (Cmse := An521Core.an521_cmse)
      (sfn_exec (Cmse := An521Core.an521_cmse) An521Core.bodies 8) An521Core.user_partitions (fun _ => 0)
      (Sys An521Core.reset_state reset_board) 0x380000 (an521_target_ok false true) reset_board_ok)).
    unfold in_ns_memory. cbn. lia.
  - apply (proj1 (ns_reach_exact (Target := an521_target false true) (Cmse := An521Core.an521_cmse)
      (sfn_exec (Cmse := An521Core.an521_cmse) An521Core.bodies 8) An521Core.user_partitions (fun _ => 0)
      (Sys An521Core.reset_state reset_board) 0x27FFFF (an521_target_ok false true) reset_board_ok)).
    unfold in_ns_memory. cbn. lia.
Defined.

Lemma startup_peripherals_exact_witness : exists s',
  tfm_core_init (Target := an521_target true false) (fun _ => 0) (Sys An521Core.reset_state reset_board) = (Ok 0, s') /\
  Z.testbit (nsppc (hw (core s')) PPC_APB_PPC_EXP1) CMSDK_UART1_APB_PPC_POS <> true /\
  irq_ns (ITNS (board s')) UART1_IRQn <> true.
Proof.
  destruct (startup_peripherals_exact (Target := an521_target true false) (fun _ => 0)
    (Sys An521Core.reset_state reset_board) (an521_target_ok true false) reset_board_ok) as (s' & E & Hp & Hi).
  exists s'. split; [exact E|]. split.
  - rewrite Hp by (vm_compute; split; congruence). intros [H|H]; [discriminate H|].
    revert H. apply (bool_decide_eq_false_1 _). vm_compute. reflexivity.
  - rewrite Hi by (vm_compute; split; congruence). intros H. apply H. do 4 right. left.
Defined.

End TargetAn521.
