(* ===== verification/Json.v ===== *)
(** * JSON output

    The encoder of [secure_storage/json.c], which the token service uses: it
    hands its output piece by piece to a callback with a state of its own.  A
    descriptor and the structure it describes are one tree of fields here.  A
    string of the caller is read through its pointer while the callback may
    write; the fuel of [json_escape_internal] bounds its length, and the result
    is [None] when it is used up. *)

From S2P Require Import Prelude.

Definition EINVAL : Z := 22.
Definition ENOMEM : Z := 12.

(** A string constant of the firmware, or a pointer. *)
Inductive c_string := CStr (s : list byte) | CPtr (p : Z).

Inductive json_field :=
  | JSON_TOK_STRING (s : c_string)
  | JSON_TOK_NUMBER (n : Z)
  | JSON_TOK_TRUE (b : bool)
  | JSON_TOK_LIST_START (l : list json_field)
  | JSON_TOK_OBJECT_START (l : list (list byte * json_field))
  | JSON_TOK_OTHER.

(** ** Characters *)

Definition chr (x : Z) : byte := z2b x.

Definition escape_as (c : byte) : byte :=
  if bool_decide (c = chr 34) then chr 34
  else if bool_decide (c = chr 92) then chr 92
  else if bool_decide (c = chr 8) then chr 98
  else if bool_decide (c = chr 12) then chr 102
  else if bool_decide (c = chr 10) then chr 110
  else if bool_decide (c = chr 13) then chr 114
  else if bool_decide (c = chr 9) then chr 116
  else chr 0.

(** The characters [%d] prints for a 32-bit integer. *)
Fixpoint decimal_digits (fuel : nat) (n : Z) : list byte :=
  match fuel with
  | O => []
  | S fuel => (if n <? 10 then [] else decimal_digits fuel (n / 10)) ++ [chr (48 + n mod 10)]
  end.

Definition print_d (n : Z) : list byte :=
  if n <? 0 then chr 45 :: decimal_digits 10 (- n) else decimal_digits 10 n.

(** The size of the buffer for a number. *)
Definition num_buf_size : Z := 3 * 4.

Section json.
  Context {S : Type} (append_bytes : list byte -> S -> Z * S) (load : S -> Z -> byte).

Definition J : Type := S -> option (Z * S).

Definition char_at (str : c_string) (i : Z) (st : S) : byte :=
  match str with
  | CStr s => if i <? zlen s then znth s i else chr 0
  | CPtr p => load st (p + i)
  end.

Definition append (bs : list byte) : J := fun st => Some (append_bytes bs st).

(** [ret = m; if (ret < 0) return ret;] then [k] *)
Definition and_next (m k : J) : J := fun st =>
  match m st with
  | None => None
  | Some (ret, st) => if ret <? 0 then Some (ret, st) else k st
  end.

Fixpoint escape_loop (fuel : nat) (str : c_string) (i ret : Z) : J := fun st =>
  if negb (ret =? 0) then Some (ret, st)
  else
    let cur := char_at str i st in
    if bool_decide (cur = chr 0) then Some (ret, st)
    else match fuel with
         | O => None
         | Datatypes.S fuel =>
             let escaped := escape_as cur in
             let '(ret, st) :=
               if bool_decide (escaped = chr 0) then append_bytes [cur] st else append_bytes [chr 92; escaped] st in
             escape_loop fuel str (i + 1) ret st
         end.

Section fuel.
  Context (fuel : nat).

Definition json_escape_internal (str : c_string) : J := escape_loop fuel str 0 0.

Definition str_encode (str : c_string) : J :=
  and_next (append [chr 34]) (fun st =>
    match json_escape_internal str st with
    | None => None
    | Some (ret, st) => if ret =? 0 then append [chr 34] st else Some (ret, st)
    end).

Definition num_encode (num : Z) : J := fun st =>
  let buf := print_d num in
  if num_buf_size <=? zlen buf then Some (- ENOMEM, st) else append buf st.

Definition bool_encode (value : bool) : J :=
  append (chr <$> if value then [116; 114; 117; 101] else [102; 97; 108; 115; 101]).

(** The elements of an array, and the fields of an object, with their commas. *)
Definition elements_loop {A} (enc : A -> J) : list A -> J :=
  fix loop (l : list A) : J :=
    match l with
    | [] => fun st => Some (0, st)
    | [x] => enc x
    | x :: l => and_next (enc x) (and_next (append [chr 44]) (loop l))
    end.

Definition arr_encode (enc : json_field -> J) (l : list json_field) : J :=
  and_next (append [chr 91]) (and_next (elements_loop enc l) (append [chr 93])).

Definition json_obj_encode_with (enc : json_field -> J) (l : list (list byte * json_field)) : J :=
  and_next (append [chr 123]) (and_next
    (elements_loop (fun f => and_next (str_encode (CStr (fst f))) (and_next (append [chr 58]) (enc (snd f)))) l)
    (append [chr 125])).

Fixpoint encode (f : json_field) : J :=
  match f with
  | JSON_TOK_TRUE b => bool_encode b
  | JSON_TOK_STRING s => str_encode s
  | JSON_TOK_LIST_START l => arr_encode encode l
  | JSON_TOK_OBJECT_START l => json_obj_encode_with encode l
  | JSON_TOK_NUMBER n => num_encode n
  | JSON_TOK_OTHER => fun st => Some (- EINVAL, st)
  end.

Definition json_obj_encode (l : list (list byte * json_field)) : J := json_obj_encode_with encode l.
End fuel.
End json.

(** ** The other callbacks *)

Record appender := Appender { ap_mem : mem; ap_buffer : Z; ap_used : Z; ap_size : Z }.

Definition append_bytes_to_buf (bs : list byte) (a : appender) : Z * appender :=
  if u32 (ap_size a - ap_used a) <? zlen bs then (- ENOMEM, a)
  else
    let used := u32 (ap_used a + zlen bs) in
    let m := mwrite (ap_mem a) (ap_buffer a + ap_used a) bs in
    (0, Appender (mwrite m (ap_buffer a + used) [chr 0]) (ap_buffer a) used (ap_size a)).

Definition json_obj_encode_buf (fuel : nat) (l : list (list byte * json_field)) (buffer buf_size : Z) (m : mem)
    : option (Z * mem) :=
  match json_obj_encode append_bytes_to_buf (fun a => ap_mem a) fuel l (Appender m buffer 0 buf_size) with
  | None => None
  | Some (ret, a) => Some (ret, ap_mem a)
  end.

Definition measure_bytes (bs : list byte) (total : Z * mem) : Z * (Z * mem) := (0, (fst total + zlen bs, snd total)).

Definition json_calc_encoded_len (fuel : nat) (l : list (list byte * json_field)) (m : mem) : option Z :=
  match json_obj_encode measure_bytes snd fuel l (0, m) with
  | None => None
  | Some (ret, (total, _)) => Some (if ret <? 0 then ret else total)
  end.
