(* ===== verification/JsonSpec.v ===== *)
(** * JSON output: the text of a tree

    With a callback that always succeeds the encoder writes the JSON text of the
    tree, whatever the pieces are cut into; the callback that fills a buffer
    writes one byte behind it when the text fills the buffer.  With any callback,
    also one that fails, the encoder returns as soon as the fuel covers the
    strings of the tree that end ([encode_returns]). *)

From S2P Require Import Prelude Json.

(** ** The text *)

Definition escape_char (c : byte) : list byte :=
  if bool_decide (escape_as c = chr 0) then [c] else [chr 92; escape_as c].

Definition escape (s : list byte) : list byte := List.concat (escape_char <$> s).

Definition quoted (s : list byte) : list byte := [chr 34] ++ escape s ++ [chr 34].

Definition text_elements {A} (text : A -> list byte) : list A -> list byte :=
  fix loop (l : list A) : list byte :=
    match l with
    | [] => []
    | [x] => text x
    | x :: l => text x ++ [chr 44] ++ loop l
    end.

Section text.
  Context (str : c_string -> list byte).

Fixpoint json_text (f : json_field) : list byte :=
  match f with
  | JSON_TOK_TRUE b => chr <$> if b then [116; 114; 117; 101] else [102; 97; 108; 115; 101]
  | JSON_TOK_STRING s => quoted (str s)
  | JSON_TOK_LIST_START l => [chr 91] ++ text_elements json_text l ++ [chr 93]
  | JSON_TOK_OBJECT_START l =>
      [chr 123] ++ text_elements (fun f => quoted (fst f) ++ [chr 58] ++ json_text (snd f)) l ++ [chr 125]
  | JSON_TOK_NUMBER n => print_d n
  | JSON_TOK_OTHER => []
  end.
End text.

(** Induction on trees. *)
Fixpoint json_field_tree_ind (P : json_field -> Prop)
    (HS : forall s, P (JSON_TOK_STRING s)) (HN : forall n, P (JSON_TOK_NUMBER n)) (HT : forall b, P (JSON_TOK_TRUE b))
    (HL : forall l, Forall P l -> P (JSON_TOK_LIST_START l))
    (HO : forall l, Forall (fun f => P (snd f)) l -> P (JSON_TOK_OBJECT_START l)) (HX : P JSON_TOK_OTHER)
    (f : json_field) : P f :=
  match f with
  | JSON_TOK_STRING s => HS s
  | JSON_TOK_NUMBER n => HN n
  | JSON_TOK_TRUE b => HT b
  | JSON_TOK_LIST_START l => HL l ((fix all l : Forall P l := match l return Forall P l with
      | [] => @List.Forall_nil _ P
      | x :: l => @List.Forall_cons _ P x l (json_field_tree_ind P HS HN HT HL HO HX x) (all l)
      end) l)
  | JSON_TOK_OBJECT_START l => HO l ((fix all l : Forall (fun f => P (snd f)) l := match l return Forall (fun f => P (snd f)) l with
      | [] => @List.Forall_nil _ (fun f => P (snd f))
      | x :: l => @List.Forall_cons _ (fun f => P (snd f)) x l (json_field_tree_ind P HS HN HT HL HO HX (snd x)) (all l)
      end) l)
  | JSON_TOK_OTHER => HX
  end.

(** ** Numbers fit their buffer *)

Lemma length_digits fuel n : (length (decimal_digits fuel n) <= fuel)%nat.
Proof.
  revert n. induction fuel as [|fuel IH]; intros n; cbn [decimal_digits]; [done|].
  rewrite length_app. cbn. case_match; cbn; [lia|]. pose proof (IH (n / 10)). lia.
Qed.

Lemma print_d_fits n : zlen (print_d n) < num_buf_size.
Proof.
  unfold print_d, num_buf_size. pose proof (length_digits 10 n). pose proof (length_digits 10 (- n)).
  case_match; cbn [length]; lia.
Qed.

(** ** A callback that always succeeds *)

Section emits.
  Context {S : Type} (append_bytes : list byte -> S -> Z * S) (load : S -> Z -> byte).
  Context (emit : list byte -> S -> S) (Inv : S -> Prop) (fuel : nat) (str : c_string -> list byte).
  Hypothesis append_emits : forall bs st, Inv st -> append_bytes bs st = (0, emit bs st).
  Hypothesis emit_nil : forall st, emit [] st = st.
  Hypothesis emit_app : forall a b st, emit (a ++ b) st = emit b (emit a st).
  Hypothesis inv_emit : forall bs st, Inv st -> Inv (emit bs st).

(** The string the encoder reads, as long as the invariant holds. *)
Record cstr_ok (c : c_string) : Prop := {
  co_fuel : (length (str c) <= fuel)%nat;
  co_nonzero : Forall (fun x => x <> chr 0) (str c);
  co_chars : forall st i, Inv st -> 0 <= i < zlen (str c) -> char_at load c i st = znth (str c) i;
  co_end : forall st, Inv st -> char_at load c (zlen (str c)) st = chr 0;
}.

Fixpoint json_ok (f : json_field) : Prop :=
  match f with
  | JSON_TOK_STRING s => cstr_ok s
  | JSON_TOK_LIST_START l => (fix all l := match l with [] => True | x :: l => json_ok x /\ all l end) l
  | JSON_TOK_OBJECT_START l =>
      (fix all l := match l with [] => True | x :: l => (cstr_ok (CStr (fst x)) /\ str (CStr (fst x)) = fst x) /\
                                              json_ok (snd x) /\ all l end) l
  | JSON_TOK_OTHER => False
  | _ => True
  end.

Definition emits (m : J (S := S)) (bs : list byte) : Prop := forall st, Inv st -> m st = Some (0, emit bs st).

Lemma append_ok bs : emits (append append_bytes bs) bs.
Proof. intros st Hst. unfold append. by rewrite append_emits. Qed.

Lemma and_next_ok m k a b : emits m a -> emits k b -> emits (and_next m k) (a ++ b).
Proof. intros Hm Hk st Hst. unfold and_next. rewrite Hm by done. cbn. rewrite Hk by auto. by rewrite emit_app. Qed.

Lemma escape_loop_ok c n i : cstr_ok c -> (i <= length (str c))%nat -> (length (str c) <= i + n)%nat ->
  emits (escape_loop append_bytes load n c (Z.of_nat i) 0) (escape (drop i (str c))).
Proof.
  intros Hc. revert i. induction n as [|n IH]; intros i Hi Hn st Hst; cbn [escape_loop negb Z.eqb].
  - assert (i = length (str c)) as -> by lia. rewrite (co_end c Hc st Hst), bool_decide_eq_true_2 by done.
    by rewrite drop_ge, emit_nil by lia.
  - destruct (decide (i = length (str c))) as [->|Hlt].
    { rewrite (co_end c Hc st Hst), bool_decide_eq_true_2 by done. by rewrite drop_ge, emit_nil by lia. }
    destruct (lookup_lt_is_Some_2 (str c) i) as [x Hx]; [lia|].
    rewrite (co_chars c Hc st (Z.of_nat i)) by (done || lia).
    rewrite (znth_lookup _ _ x) by (rewrite ?Nat2Z.id; done || lia).
    pose proof (proj1 (Forall_lookup _ _) (co_nonzero c Hc) i x Hx) as Hnz. cbv beta in Hnz.
    rewrite bool_decide_eq_false_2 by done. rewrite (drop_S _ x i Hx). unfold escape. cbn [fmap list_fmap List.concat].
    unfold escape_char at 1. replace (Z.of_nat i + 1) with (Z.of_nat (Datatypes.S i)) by lia.
    fold (escape (drop (Datatypes.S i) (str c))).
    case_bool_decide; rewrite append_emits by done; rewrite emit_app; apply IH; auto; lia.
Qed.

Lemma str_encode_ok c : cstr_ok c -> emits (str_encode append_bytes load fuel c) (quoted (str c)).
Proof.
  intros Hc. apply and_next_ok; [apply append_ok|]. intros st Hst. unfold json_escape_internal.
  rewrite (escape_loop_ok c fuel 0 Hc) by (done || (pose proof (co_fuel c Hc); lia)). cbn [Z.eqb].
  rewrite append_ok by auto. by rewrite emit_app.
Qed.

Lemma elements_ok {A} (enc : A -> J (S := S)) (text : A -> list byte) l :
  Forall (fun x => emits (enc x) (text x)) l -> emits (elements_loop append_bytes enc l) (text_elements text l).
Proof.
  induction 1 as [|x l Hx Hl IH]; [intros st _; by rewrite emit_nil|].
  destruct l as [|y l]; [done|]. apply and_next_ok; [done|]. by apply and_next_ok; [apply append_ok|].
Qed.

Lemma encode_ok f : json_ok f -> emits (encode append_bytes load fuel f) (json_text str f).
Proof.
  induction f as [s|n|b|l IH|l IH|] using json_field_tree_ind; intros Hok; cbn [encode json_text].
  - by apply str_encode_ok.
  - intros st Hst. unfold num_encode. pose proof (print_d_fits n).
    destruct (Z.leb_spec num_buf_size (zlen (print_d n))); [lia|]. by apply append_ok.
  - apply append_ok.
  - apply and_next_ok; [apply append_ok|]. apply and_next_ok; [|apply append_ok]. apply elements_ok.
    induction IH as [|x l Hx Hl IHl]; [constructor|]. destruct Hok as [H1 H2]. constructor; [by apply Hx|by apply IHl].
  - apply and_next_ok; [apply append_ok|]. apply and_next_ok; [|apply append_ok]. apply elements_ok.
    induction IH as [|x l Hx Hl IHl]; [constructor|]. destruct Hok as ((Hc & Hn) & H1 & H2).
    constructor; [|by apply IHl]. apply and_next_ok.
    + rewrite <- Hn at 2. by apply str_encode_ok.
    + apply and_next_ok; [apply append_ok|by apply Hx].
  - done.
Qed.
End emits.

(** ** A callback that keeps an invariant

    Whatever the callback answers, the encoder returns, with the invariant kept:
    a string it reads only has to end at a place the callback does not change. *)

Section returns.
  Context {S : Type} (append_bytes : list byte -> S -> Z * S) (load : S -> Z -> byte) (Inv : S -> Prop) (fuel : nat).
  Hypothesis append_keeps : forall bs st, Inv st -> Inv (snd (append_bytes bs st)).

(** Within the fuel there is a zero that stays. *)
Definition ends (c : c_string) : Prop :=
  exists n : nat, (n <= fuel)%nat /\ forall st, Inv st -> char_at load c (Z.of_nat n) st = chr 0.

Fixpoint tree_ends (f : json_field) : Prop :=
  match f with
  | JSON_TOK_STRING s => ends s
  | JSON_TOK_LIST_START l => (fix all l := match l with [] => True | x :: l => tree_ends x /\ all l end) l
  | JSON_TOK_OBJECT_START l =>
      (fix all l := match l with [] => True | x :: l => ends (CStr (fst x)) /\ tree_ends (snd x) /\ all l end) l
  | _ => True
  end.

Definition returns (m : J (S := S)) : Prop := forall st, Inv st -> exists r st', m st = Some (r, st') /\ Inv st'.

Lemma append_returns bs : returns (append append_bytes bs).
Proof using append_keeps.
  intros st Hst. unfold append. pose proof (append_keeps bs st Hst). destruct (append_bytes bs st) as [r st']. by exists r, st'.
Qed.

Lemma and_next_returns m k : returns m -> returns k -> returns (and_next m k).
Proof.
  intros Hm Hk st Hst. unfold and_next. destruct (Hm st Hst) as (r & st1 & -> & H1).
  destruct (r <? 0); [by exists r, st1|by apply Hk].
Qed.

Lemma escape_loop_returns n c i ret (e : nat) :
  (forall st, Inv st -> char_at load c (Z.of_nat e) st = chr 0) -> (i <= e <= i + n)%nat ->
  returns (escape_loop append_bytes load n c (Z.of_nat i) ret).
Proof using append_keeps.
  intros He. revert i ret. induction n as [|n IH]; intros i ret Hi st Hst; cbn [escape_loop];
    (destruct (negb (ret =? 0)); [by exists ret, st|]).
  - assert (i = e) as -> by lia. rewrite (He st Hst), bool_decide_eq_true_2 by done. by exists ret, st.
  - case_bool_decide as Hc; [by exists ret, st|].
    assert (i <> e) as Hne by (intros ->; apply Hc, He, Hst). replace (Z.of_nat i + 1) with (Z.of_nat (Datatypes.S i)) by lia.
    set (bs := if bool_decide (escape_as (char_at load c (Z.of_nat i) st) = chr 0) then _ else _).
    assert (Inv (snd bs)) as Hbs by (subst bs; case_match; by apply append_keeps).
    destruct bs as [ret' st1]. apply IH; [lia|done].
Qed.

Lemma str_encode_returns c : ends c -> returns (str_encode append_bytes load fuel c).
Proof using append_keeps.
  intros (e & Hle & He). apply and_next_returns; [apply append_returns|]. intros st Hst. unfold json_escape_internal.
  pose proof (escape_loop_returns fuel c 0 0 e He ltac:(lia)) as H. destruct (H st Hst) as (r & st1 & E & H1). change (Z.of_nat 0) with 0 in E. rewrite E.
  destruct (r =? 0); [by apply append_returns|by exists r, st1].
Qed.

Lemma elements_return {A} (enc : A -> J (S := S)) l :
  Forall (fun x => returns (enc x)) l -> returns (elements_loop append_bytes enc l).
Proof using append_keeps.
  induction 1 as [|x l Hx Hl IH]; [by intros st Hst; exists 0, st|].
  destruct l as [|y l]; [done|]. apply and_next_returns; [done|]. by apply and_next_returns; [apply append_returns|].
Qed.

Lemma encode_returns f : tree_ends f -> returns (encode append_bytes load fuel f).
Proof using append_keeps.
  induction f as [s|n|b|l IH|l IH|] using json_field_tree_ind; intros Hf; cbn [encode].
  - by apply str_encode_returns.
  - intros st Hst. unfold num_encode. case_match; [by eexists _, st|by apply append_returns].
  - apply append_returns.
  - apply and_next_returns; [apply append_returns|]. apply and_next_returns; [|apply append_returns]. apply elements_return.
    induction IH as [|x l Hx Hl IHl]; [constructor|]. destruct Hf as [H1 H2]. constructor; [by apply Hx|by apply IHl].
  - apply and_next_returns; [apply append_returns|]. apply and_next_returns; [|apply append_returns]. apply elements_return.
    induction IH as [|x l Hx Hl IHl]; [constructor|]. destruct Hf as (Hc & H1 & H2). constructor; [|by apply IHl].
    apply and_next_returns; [by apply str_encode_returns|]. apply and_next_returns; [apply append_returns|by apply Hx].
  - intros st Hst. by exists (- EINVAL), st.
Qed.
End returns.

(** ** The other callbacks *)

(** Strings the encoder can follow in a memory that does not change. *)
Definition strings_ok (m : mem) (fuel : nat) (str : c_string -> list byte) (l : list (list byte * json_field)) : Prop :=
  json_ok snd (fun st : Z * mem => snd st = m) fuel str (JSON_TOK_OBJECT_START l).

(** [json_calc_encoded_len] is the length of the text. *)
Theorem calc_encoded_len_exact (fuel : nat) (str : c_string -> list byte) (l : list (list byte * json_field)) (m : mem) :
  strings_ok m fuel str l -> json_calc_encoded_len fuel l m = Some (zlen (json_text str (JSON_TOK_OBJECT_START l))).
Proof.
  intros Hok. assert (json_obj_encode measure_bytes snd fuel l (0, m) =
    Some (0, (0 + zlen (json_text str (JSON_TOK_OBJECT_START l)), m))) as E.
  { refine (encode_ok measure_bytes snd (fun bs st => (fst st + zlen bs, snd st)) (fun st => snd st = m) fuel str
      _ _ _ _ (JSON_TOK_OBJECT_START l) Hok (0, m) eq_refl); try done.
    - intros [t x]. cbn. f_equal. lia.
    - intros a b [t x]. cbn [fst snd]. rewrite zlen_app. f_equal. lia. }
  unfold json_calc_encoded_len. by rewrite E.
Qed.

(** The text of an empty object fills a buffer of two bytes: the call succeeds
    and puts the terminator into the byte behind the buffer. *)
Theorem encode_buf_writes_behind (fuel : nat) (m : mem) (buffer : Z) :
  exists m', json_obj_encode_buf fuel [] buffer 2 m = Some (0, m') /\ m' (buffer + 2) = chr 0.
Proof.
  exists (mwrite (mwrite (mwrite (mwrite m (buffer + 0) [chr 123]) (buffer + 1) [chr 0]) (buffer + 1) [chr 125])
    (buffer + 2) [chr 0]).
  split; [reflexivity|]. rewrite mwrite_spec. cbn [length]. rewrite decide_True by lia. by rewrite Z.sub_diag.
Qed.
