(* ===== verification/Jwt.v ===== *)
(** * Token service: building and signing a web token

    [secure_storage/jwt.c] built with ECDSA, and [sst_jwt_sign] of
    [sst_asset_management.c].  The builder is a local variable of the secure
    function, whose [wip] bytes start with whatever the stack holds; the token
    goes to memory of the caller.  The functions of tinycrypt are the class
    [tinycrypt]; [JwtEs256] gives the instance of their models. *)

From S2P Require Import Prelude SstDefs Json.

(** ** tinycrypt *)

Class tinycrypt := {
  TCCtrPrng_t : Type;
  (** the generator before it is initialised *)
  prng_zero : TCCtrPrng_t;
  tc_sha256 : list byte -> list byte;
  (** entropy and personalization; the result says whether it succeeded *)
  tc_ctr_prng_init : list byte -> list byte -> TCCtrPrng_t -> bool * TCCtrPrng_t;
  (** private key and hash; the signature if it succeeded *)
  uECC_sign : list byte -> list byte -> TCCtrPrng_t -> option (list byte) * TCCtrPrng_t;
}.

(** ** Data *)

Record jwt_builder := Builder {
  jb_base : Z;
  jb_buf : Z;
  jb_len : Z;
  overflowed : bool;
  wip : byte * byte * byte;
  pending : Z;
}.

(** The memory of the caller and the builder. *)
Record jwt_st := JwtSt { jw_mem : mem; jw_builder : jwt_builder }.

Definition on_builder (f : jwt_builder -> jwt_builder) (st : jwt_st) : jwt_st :=
  JwtSt (jw_mem st) (f (jw_builder st)).

(** ** Base 64 *)

Definition base64_char (value : Z) : byte :=
  chr (if value <? 26 then value + 65
       else if value <? 52 then value + 97 - 26
       else if value <? 62 then value + 48 - 52
       else if value =? 62 then 45
       else 95).

Definition base64_outch (ch : byte) (st : jwt_st) : jwt_st :=
  let b := jw_builder st in
  if overflowed b then st
  else if jb_len b <? 2
  then JwtSt (jw_mem st) (Builder (jb_base b) (jb_buf b) (jb_len b) true (wip b) (pending b))
  else JwtSt (mwrite (mwrite (jw_mem st) (jb_buf b) [ch]) (jb_buf b + 1) [chr 0])
         (Builder (jb_base b) (jb_buf b + 1) (jb_len b - 1) false (wip b) (pending b)).

Definition base64_flush (st : jwt_st) : jwt_st :=
  let b := jw_builder st in
  let '(w0, w1, w2) := wip b in
  if pending b <? 1 then st
  else
    let st := base64_outch (base64_char (Z.shiftr (b2z w0) 2)) st in
    let st := base64_outch (base64_char (Z.lor (Z.shiftl (Z.land (b2z w0) 0x03) 4) (Z.shiftr (b2z w1) 4))) st in
    let st := if 2 <=? pending b
              then base64_outch (base64_char (Z.lor (Z.shiftl (Z.land (b2z w1) 0x0f) 2) (Z.shiftr (b2z w2) 6))) st
              else st in
    let st := if 3 <=? pending b then base64_outch (base64_char (Z.land (b2z w2) 0x3f)) st else st in
    on_builder (fun b => Builder (jb_base b) (jb_buf b) (jb_len b) (overflowed b) (chr 0, chr 0, chr 0) 0) st.

(** [st->wip[i] = byte]; the callers keep [i] below 3. *)
Definition set_wip (i : Z) (x : byte) (w : byte * byte * byte) : byte * byte * byte :=
  let '(w0, w1, w2) := w in
  if i =? 0 then (x, w1, w2) else if i =? 1 then (w0, x, w2) else (w0, w1, x).

Definition base64_addbyte (x : byte) (st : jwt_st) : jwt_st :=
  let st := on_builder (fun b => Builder (jb_base b) (jb_buf b) (jb_len b) (overflowed b)
              (set_wip (pending b) x (wip b)) (pending b + 1)) st in
  if pending (jw_builder st) =? 3 then base64_flush st else st.

Definition base64_append_bytes (bs : list byte) (st : jwt_st) : Z * jwt_st :=
  (0, fold_left (fun st x => base64_addbyte x st) bs st).

(** ** The parts of the token *)

Definition ascii (l : list Z) : list byte := chr <$> l.

(** {"alg": "ES256", "typ": "JWT"} *)
Definition jwt_header_fields : list (list byte * json_field) :=
  [ (ascii [97; 108; 103], JSON_TOK_STRING (CStr (ascii [69; 83; 50; 53; 54])));
    (ascii [116; 121; 112], JSON_TOK_STRING (CStr (ascii [74; 87; 84]))) ].

(** {"aud": ..., "exp": ..., "iat": ...} *)
Definition jwt_payload_fields (exp iat aud : Z) : list (list byte * json_field) :=
  [ (ascii [97; 117; 100], JSON_TOK_STRING (CPtr aud));
    (ascii [101; 120; 112], JSON_TOK_NUMBER exp);
    (ascii [105; 97; 116], JSON_TOK_NUMBER iat) ].

Definition jwt_load (st : jwt_st) (a : Z) : byte := jw_mem st a.

Section jwt.
  Context {Tc : tinycrypt} (fuel : nat).

Definition jwt_add_header (st : jwt_st) : option jwt_st :=
  match json_obj_encode base64_append_bytes jwt_load fuel jwt_header_fields st with
  | None => None
  | Some (res, st) => Some (if negb (res =? 0) then st else base64_flush st)
  end.

Definition jwt_init_builder (buffer buffer_size : Z) (stack : byte * byte * byte) (m : mem) : option (Z * jwt_st) :=
  match jwt_add_header (JwtSt m (Builder buffer buffer buffer_size false stack 0)) with
  | None => None
  | Some st => Some (0, st)
  end.

Definition jwt_add_payload (exp iat aud : Z) (st : jwt_st) : option (Z * jwt_st) :=
  let st := base64_outch (chr 46) st in
  match json_obj_encode base64_append_bytes jwt_load fuel (jwt_payload_fields exp iat aud) st with
  | None => None
  | Some (res, st) => Some (res, base64_flush st)
  end.

(** ** Signing *)

(** File-scope variables of the generator. *)
Record jwt_static := JwtStatic { prng_state : TCCtrPrng_t; prng_init : bool; next : Z }.

(** [unsigned long] has 32 bits. *)
Definition rand (next : Z) : Z * Z :=
  let next := u32 (u32 (next * 1103515245) + 12345) in ((next / 65536) mod 32768, next).

Fixpoint entropy_loop (n : nat) (next : Z) : list byte * Z :=
  match n with
  | O => ([], next)
  | S n =>
      let '(rv, next) := rand next in
      let '(bs, next) := entropy_loop n next in
      (put32 rv ++ bs, next)
  end.

(** [zephyr:drivers/jwt/jwt.c] with its terminator *)
Definition personalize : list byte :=
  ascii [122; 101; 112; 104; 121; 114; 58; 100; 114; 105; 118; 101; 114; 115; 47; 106; 119; 116; 47; 106; 119; 116; 46;
         99; 0].

Definition setup_prng (g : jwt_static) : Z * jwt_static :=
  if prng_init g then (0, g)
  else
    let '(entropy, next) := entropy_loop 8 (next g) in
    let '(ok, p) := tc_ctr_prng_init entropy personalize (prng_state g) in
    (if ok then 0 else - EINVAL, JwtStatic p true next).

Definition jwt_sign (der_key : list byte) (st : jwt_st) (g : jwt_static) : Z * jwt_st * jwt_static :=
  let b := jw_builder st in
  let hash := tc_sha256 (mread (jw_mem st) (jb_base b) (jb_buf b - jb_base b)) in
  let '(res, g) := setup_prng g in
  if negb (res =? 0) then (res, st, g)
  else
    let '(sig, p) := uECC_sign der_key hash (prng_state g) in
    let g := JwtStatic p (prng_init g) (next g) in
    match sig with
    | None => (- EINVAL, st, g)
    | Some sig =>
        let st := base64_outch (chr 46) st in
        let st := snd (base64_append_bytes sig st) in
        (0, base64_flush st, g)
    end.

Definition simple_private_der : list byte :=
  ascii [0x8f; 0xe2; 0x47; 0x03; 0x9b; 0x35; 0xec; 0x6b; 0xe0; 0x8c; 0x8b; 0xcb; 0x53; 0xb6; 0x70; 0xf6;
         0xf6; 0x04; 0x14; 0xf2; 0xcd; 0xe5; 0x68; 0x59; 0x29; 0x45; 0xe8; 0x0d; 0x01; 0x61; 0xfb; 0x26].

(** The fields of the structure of the caller the function reads.  The structure
    is not part of the buffer, so that the token does not overwrite the fields. *)
Record tfm_sst_jwt_t := JwtReq {
  jwt_buffer : Z;
  jwt_buffer_size : Z;
  jwt_iat : Z;
  jwt_exp : Z;
  jwt_aud : Z;
}.

(** The code ([None] for success), the memory of the caller and the generator; [stack] is what the
    builder's bytes held before. *)
Definition sst_jwt_sign (data : tfm_sst_jwt_t) (stack : byte * byte * byte) (m : mem) (g : jwt_static)
    : option (option psa_sst_err_t * mem * jwt_static) :=
  match jwt_init_builder (jwt_buffer data) (jwt_buffer_size data) stack m with
  | None => None
  | Some (res, st) =>
      let err := None in
      let payload := if res =? 0
        then match jwt_add_payload (jwt_exp data) (jwt_iat data) (jwt_aud data) st with
             | None => None
             | Some (res, st) => Some (res, st, err)
             end
        else Some (res, st, Some PSA_SST_ERR_PARAM_ERROR) in
      match payload with
      | None => None
      | Some (res, st, err) =>
          let '(st, g, err) := if res =? 0
            then let '(_, st, g) := jwt_sign simple_private_der st g in (st, g, err)
            else (st, g, Some PSA_SST_ERR_PARAM_ERROR) in
          let err := if overflowed (jw_builder st) then Some PSA_SST_ERR_SYSTEM_ERROR else err in
          Some (err, jw_mem st, g)
      end
  end.
End jwt.
