(* ===== verification/JwtSpec.v ===== *)
(** * Token service: what is written

    Base 64 as a function on byte sequences, the output of a sequence of
    characters into the buffer, and the proof that the streaming encoder of
    [jwt.c] writes the base 64 text of what it is fed. *)

From S2P Require Import Prelude SstDefs Json JsonSpec Jwt.

(** ** Base 64 text *)

Definition b64_first (a : byte) : byte := base64_char (Z.shiftr (b2z a) 2).
Definition b64_second (a b : byte) : byte :=
  base64_char (Z.lor (Z.shiftl (Z.land (b2z a) 0x03) 4) (Z.shiftr (b2z b) 4)).
Definition b64_third (b c : byte) : byte :=
  base64_char (Z.lor (Z.shiftl (Z.land (b2z b) 0x0f) 2) (Z.shiftr (b2z c) 6)).
Definition b64_fourth (c : byte) : byte := base64_char (Z.land (b2z c) 0x3f).

(** Three bytes become four characters; the last one or two bytes are completed
    with zero bits and not padded. *)
Fixpoint b64 (bs : list byte) : list byte :=
  match bs with
  | a :: b :: c :: bs => b64_first a :: b64_second a b :: b64_third b c :: b64_fourth c :: b64 bs
  | [a; b] => [b64_first a; b64_second a b; b64_third b (chr 0)]
  | [a] => [b64_first a; b64_second a (chr 0)]
  | [] => []
  end.

(** Induction by three. *)
Lemma list_ind3 {A} (P : list A -> Prop) :
  P [] -> (forall a, P [a]) -> (forall a b, P [a; b]) -> (forall a b c l, P l -> P (a :: b :: c :: l)) -> forall l, P l.
Proof.
  intros H0 H1 H2 H3 l. remember (length l) as n eqn:E. revert l E.
  induction (lt_wf n) as [n _ IH]. intros l ->. destruct l as [|a [|b [|c l]]]; auto.
  apply H3. apply (IH (length l)); cbn; lia.
Qed.

(** ** Characters out *)

Definition outs (cs : list byte) (st : jwt_st) : jwt_st := fold_left (fun st c => base64_outch c st) cs st.
Definition emit (bs : list byte) (st : jwt_st) : jwt_st := fold_left (fun st x => base64_addbyte x st) bs st.

Definition zeros : byte * byte * byte := (chr 0, chr 0, chr 0).

Definition set_wp (w : byte * byte * byte) (p : Z) : jwt_st -> jwt_st :=
  on_builder (fun b => Builder (jb_base b) (jb_buf b) (jb_len b) (overflowed b) w p).

Lemma set_wp_twice w p w' p' st : set_wp w p (set_wp w' p' st) = set_wp w p st.
Proof. done. Qed.

Lemma set_wp_self st : set_wp (wip (jw_builder st)) (pending (jw_builder st)) st = st.
Proof. by destruct st as [m []]. Qed.

Lemma outch_set_wp c w p st : base64_outch c (set_wp w p st) = set_wp w p (base64_outch c st).
Proof.
  destruct st as [m [base buf len ov w0 p0]]. unfold base64_outch, set_wp, on_builder. cbn -[Z.ltb mwrite].
  destruct ov; [done|]. by destruct (len <? 2).
Qed.

Lemma outs_set_wp cs w p st : outs cs (set_wp w p st) = set_wp w p (outs cs st).
Proof. revert st. induction cs as [|c cs IH]; intros st; [done|]. cbn. by rewrite outch_set_wp, IH. Qed.

Lemma outs_app a b st : outs (a ++ b) st = outs b (outs a st).
Proof. apply fold_left_app. Qed.

Lemma emit_app a b st : emit (a ++ b) st = emit b (emit a st).
Proof. apply fold_left_app. Qed.

(** What a flush writes. *)
Lemma flush_out w0 w1 w2 p st : 1 <= p <= 3 ->
  base64_flush (set_wp (w0, w1, w2) p st) = set_wp zeros 0
    (outs ([b64_first w0; b64_second w0 w1] ++ (if 2 <=? p then [b64_third w1 w2] else []) ++
           (if 3 <=? p then [b64_fourth w2] else [])) st).
Proof.
  intros Hp. unfold base64_flush. cbn [set_wp on_builder jw_builder wip pending].
  destruct (Z.ltb_spec p 1); [lia|]. fold (set_wp (w0, w1, w2) p st).
  fold (b64_first w0) (b64_second w0 w1) (b64_third w1 w2) (b64_fourth w2).
  destruct (Z.leb_spec 2 p), (Z.leb_spec 3 p); try lia; cbn [app outs fold_left]; by rewrite !outch_set_wp.
Qed.

Lemma addbyte_pending w p x st : 0 <= p < 2 ->
  base64_addbyte x (set_wp w p st) = set_wp (set_wip p x w) (p + 1) st.
Proof.
  intros Hp. unfold base64_addbyte. cbn [set_wp on_builder jw_builder pending wip].
  destruct (Z.eqb_spec (p + 1) 3); [lia|]. done.
Qed.

Lemma addbyte_third w0 w1 w2 x st :
  base64_addbyte x (set_wp (w0, w1, w2) 2 st) =
    set_wp zeros 0 (outs [b64_first w0; b64_second w0 w1; b64_third w1 x; b64_fourth x] st).
Proof.
  transitivity (base64_flush (set_wp (w0, w1, x) 3 st)); [done|]. by rewrite flush_out by lia.
Qed.

Lemma emit_three a b c bs w st :
  emit (a :: b :: c :: bs) (set_wp w 0 st) =
    emit bs (set_wp zeros 0 (outs [b64_first a; b64_second a b; b64_third b c; b64_fourth c] st)).
Proof.
  destruct w as [[w0 w1] w2]. unfold emit. cbn [fold_left].
  rewrite addbyte_pending by lia. cbn [set_wip Z.eqb]. change (0 + 1) with 1.
  rewrite addbyte_pending by lia. cbn [set_wip Z.eqb Pos.eqb]. change (1 + 1) with 2.
  by rewrite addbyte_third.
Qed.

(** Feeding a sequence to a clean builder and flushing writes its text. *)
Lemma emit_b64 bs st : base64_flush (emit bs (set_wp zeros 0 st)) = set_wp zeros 0 (outs (b64 bs) st).
Proof.
  revert st. induction bs as [|a|a b|a b c bs IH] using list_ind3; intros st.
  - done.
  - unfold emit. cbn [fold_left]. rewrite addbyte_pending by lia. change (set_wip 0 a zeros) with (a, chr 0, chr 0).
    by rewrite flush_out by lia.
  - unfold emit. cbn [fold_left]. rewrite !addbyte_pending by lia.
    change (set_wip (0 + 1) b (set_wip 0 a zeros)) with (a, b, chr 0). by rewrite flush_out by lia.
  - rewrite emit_three, IH. cbn [b64]. by rewrite <- (outs_app [_; _; _; _]).
Qed.

(** The bytes on the stack do not matter when three bytes follow. *)
Lemma emit_b64_any bs w st : (3 <= length bs)%nat ->
  base64_flush (emit bs (set_wp w 0 st)) = set_wp zeros 0 (outs (b64 bs) st).
Proof.
  intros Hl. destruct bs as [|a [|b [|c bs]]]; cbn in Hl; try lia.
  rewrite emit_three, emit_b64. cbn [b64]. by rewrite <- (outs_app [_; _; _; _]).
Qed.

(** ** The buffer *)

Section buffer.
  Context (m0 : mem) (base size : Z).

(** The characters [out] are in the buffer and terminated, and nothing else has
    changed. *)
Record wrote (out : list byte) (st : jwt_st) : Prop := {
  wr_base : jb_base (jw_builder st) = base;
  wr_buf : jb_buf (jw_builder st) = base + zlen out;
  wr_len : jb_len (jw_builder st) = size - zlen out;
  wr_fits : overflowed (jw_builder st) = false;
  wr_chars : forall i, 0 <= i < zlen out -> jw_mem st (base + i) = znth out i;
  wr_end : out <> [] -> jw_mem st (base + zlen out) = chr 0;
  wr_other : forall x, x < base \/ base + zlen out < x \/ out = [] -> jw_mem st x = m0 x;
}.

(** Whatever is written stays in the buffer. *)
Record within (st : jwt_st) : Prop := {
  wi_base : jb_base (jw_builder st) = base;
  wi_room : overflowed (jw_builder st) = false ->
    base <= jb_buf (jw_builder st) /\ jb_buf (jw_builder st) + jb_len (jw_builder st) = base + size;
  wi_other : forall x, x < base \/ base + size <= x -> jw_mem st x = m0 x;
}.

Lemma wrote_start w p : wrote [] (JwtSt m0 (Builder base base size false w p)).
Proof. split; cbn; try done; lia. Qed.

Lemma within_start w p : within (JwtSt m0 (Builder base base size false w p)).
Proof. split; cbn; try done; lia. Qed.

Lemma wrote_set_wp out st w p : wrote out st -> wrote out (set_wp w p st).
Proof. intros []. by split. Qed.

Lemma within_set_wp st w p : within st -> within (set_wp w p st).
Proof. intros []. by split. Qed.

Lemma outch_wrote out st c : wrote out st -> zlen out + 1 < size -> wrote (out ++ [c]) (base64_outch c st).
Proof.
  intros [Hb Hf Hl Ho Hc He Hx] Hs. unfold base64_outch. rewrite Ho.
  destruct (Z.ltb_spec (jb_len (jw_builder st)) 2); [lia|].
  split; cbn [jw_builder jb_base jb_buf jb_len overflowed jw_mem]; rewrite ?zlen_app; cbn [length]; try done; try lia.
  - intros i Hi. rewrite Hf, !mwrite_spec. cbn [length]. rewrite decide_False by lia. case_decide.
    + rewrite znth_app_r by lia. by replace (i - zlen out) with (base + i - (base + zlen out)) by lia.
    + rewrite znth_app_l by lia. apply Hc. lia.
  - intros _. rewrite Hf, mwrite_spec. cbn [length]. rewrite decide_True by lia.
    by replace (base + (zlen out + Z.of_nat 1) - (base + zlen out + 1)) with 0 by lia.
  - intros x Hx'. rewrite Hf, !mwrite_spec. cbn [length].
    assert (x < base \/ base + zlen out + 1 < x) by (destruct Hx' as [|[|Hn]]; [lia|lia|by destruct out]).
    rewrite !decide_False by lia. apply Hx. lia.
Qed.

Lemma outch_full out st c : wrote out st -> size <= zlen out + 1 -> overflowed (jw_builder (base64_outch c st)) = true.
Proof.
  intros [Hb Hf Hl Ho Hc He Hx] Hs. unfold base64_outch. rewrite Ho.
  by destruct (Z.ltb_spec (jb_len (jw_builder st)) 2); [|lia].
Qed.

Lemma outs_wrote out st cs : wrote out st -> zlen (out ++ cs) < size -> wrote (out ++ cs) (outs cs st).
Proof.
  revert out st. induction cs as [|c cs IH]; intros out st Hw Hs; [by rewrite app_nil_r|].
  change (c :: cs) with ([c] ++ cs) in *. rewrite app_assoc in *. cbn [app outs fold_left]. apply IH; [|done].
  apply outch_wrote; [done|]. rewrite !zlen_app in Hs. cbn [length] in Hs. lia.
Qed.

Lemma outch_overflowed st c : overflowed (jw_builder st) = true -> base64_outch c st = st.
Proof. intros H. unfold base64_outch. by rewrite H. Qed.

Lemma outs_overflowed cs st : overflowed (jw_builder st) = true -> outs cs st = st.
Proof. revert st. induction cs as [|c cs IH]; intros st H; [done|]. cbn. by rewrite (outch_overflowed st c H), IH. Qed.

Lemma outs_full out st cs : wrote out st -> cs <> [] -> size <= zlen (out ++ cs) ->
  overflowed (jw_builder (outs cs st)) = true.
Proof.
  revert out st. induction cs as [|c cs IH]; intros out st Hw Hn Hs; [done|].
  destruct (Z.le_gt_cases size (zlen out + 1)) as [Hfull|Hroom].
  - cbn [outs fold_left]. pose proof (outch_full out st c Hw Hfull) as Ho. fold (outs cs (base64_outch c st)).
    by rewrite outs_overflowed.
  - pose proof (outch_wrote out st c Hw ltac:(lia)) as Hw'. change (c :: cs) with ([c] ++ cs) in *.
    rewrite app_assoc in Hs. cbn [app outs fold_left]. destruct cs as [|d cs].
    + rewrite app_nil_r, zlen_app in Hs. cbn [length] in Hs. lia.
    + by apply (IH (out ++ [c])).
Qed.

Lemma within_outch st c : within st -> within (base64_outch c st).
Proof.
  intros [Hb Hr Hx]. unfold base64_outch. destruct (overflowed (jw_builder st)) eqn:Ho; [by split; rewrite ?Ho|].
  destruct (Hr eq_refl) as [H1 H2]. destruct (Z.ltb_spec (jb_len (jw_builder st)) 2); split; cbn; try done; [lia|].
  intros x Hxo. rewrite !mwrite_spec. cbn [length]. rewrite !decide_False by lia. by apply Hx.
Qed.

Lemma within_flush st : within st -> within (base64_flush st).
Proof.
  intros Hw. unfold base64_flush. destruct (wip (jw_builder st)) as [[w0 w1] w2]. case_match; [done|].
  apply (within_set_wp _ zeros 0). repeat case_match; repeat apply within_outch; done.
Qed.

Lemma within_addbyte st x : within st -> within (base64_addbyte x st).
Proof.
  intros Hw. unfold base64_addbyte. cbv zeta.
  assert (within (on_builder (fun b => Builder (jb_base b) (jb_buf b) (jb_len b) (overflowed b)
    (set_wip (pending b) x (wip b)) (pending b + 1)) st)) as Hw'.
  { exact (within_set_wp st (set_wip (pending (jw_builder st)) x (wip (jw_builder st))) (pending (jw_builder st) + 1) Hw). }
  case_match; [by apply within_flush|done].
Qed.

Lemma within_emit bs st : within st -> within (emit bs st).
Proof. revert st. induction bs as [|x bs IH]; intros st Hw; [done|]. cbn. by apply IH, within_addbyte. Qed.

Lemma within_outs cs st : within st -> within (outs cs st).
Proof. revert st. induction cs as [|c cs IH]; intros st Hw; [done|]. cbn. by apply IH, within_outch. Qed.

(** What has been written can be read back. *)
Lemma wrote_read out st : wrote out st -> mread (jw_mem st) base (zlen out) = out.
Proof.
  intros Hw. apply zlist_ext; [by rewrite zlen_mread by lia|]. intros i Hi. rewrite zlen_mread in Hi by lia.
  rewrite znth_mread by lia. by apply Hw.
Qed.

(** ** Trees of JSON fields keep to the buffer *)

Lemma within_encode fuel l st : tree_ends jwt_load within fuel (JSON_TOK_OBJECT_START l) -> within st ->
  exists r st', json_obj_encode base64_append_bytes jwt_load fuel l st = Some (r, st') /\ within st'.
Proof.
  intros Hl. refine (encode_returns base64_append_bytes jwt_load within fuel _ (JSON_TOK_OBJECT_START l) Hl st).
  intros bs st1 Hw1. by apply within_emit.
Qed.
End buffer.

(** ** Decoding *)

(** The value of a character. *)
Definition sextet (c : byte) : option Z :=
  let x := b2z c in
  if (65 <=? x) && (x <=? 90) then Some (x - 65)
  else if (97 <=? x) && (x <=? 122) then Some (x - 97 + 26)
  else if (48 <=? x) && (x <=? 57) then Some (x - 48 + 52)
  else if x =? 45 then Some 62
  else if x =? 95 then Some 63
  else None.

Definition byte_of (hi n lo : Z) : byte := z2b (hi * 2 ^ n + lo).

Fixpoint b64_decode (cs : list byte) : option (list byte) :=
  match cs with
  | c1 :: c2 :: c3 :: c4 :: cs =>
      v1 ← sextet c1; v2 ← sextet c2; v3 ← sextet c3; v4 ← sextet c4; bs ← b64_decode cs;
      Some (byte_of v1 2 (v2 / 16) :: byte_of (v2 mod 16) 4 (v3 / 4) :: byte_of (v3 mod 4) 6 v4 :: bs)
  | [c1; c2; c3] =>
      v1 ← sextet c1; v2 ← sextet c2; v3 ← sextet c3;
      Some [byte_of v1 2 (v2 / 16); byte_of (v2 mod 16) 4 (v3 / 4)]
  | [c1; c2] => v1 ← sextet c1; v2 ← sextet c2; Some [byte_of v1 2 (v2 / 16)]
  | [_] => None
  | [] => Some []
  end.

Lemma sextet_char v : 0 <= v < 64 -> sextet (base64_char v) = Some v.
Proof.
  intros Hv. assert (forallb (fun n => bool_decide (sextet (base64_char (Z.of_nat n)) = Some (Z.of_nat n))) (seq 0 64) = true)
    as H by (vm_compute; reflexivity).
  rewrite forallb_forall in H. specialize (H (Z.to_nat v)). rewrite Z2Nat.id in H by lia.
  eapply bool_decide_eq_true_1, H, in_seq. lia.
Qed.

(** The four values of three bytes. *)
Lemma sextet_first a : sextet (b64_first a) = Some (b2z a / 4).
Proof.
  unfold b64_first. rewrite Z.shiftr_div_pow2 by lia. pose proof (b2z_bound a). apply sextet_char.
  split; [apply Z.div_pos|apply Z.div_lt_upper_bound]; lia.
Qed.

Lemma sextet_second a b : sextet (b64_second a b) = Some (b2z a mod 4 * 16 + b2z b / 16).
Proof.
  unfold b64_second. pose proof (b2z_bound a). pose proof (b2z_bound b). pose proof (Z.mod_pos_bound (b2z a) 4).
  assert (0 <= b2z b / 16 < 16) by (split; [apply Z.div_pos|apply Z.div_lt_upper_bound]; lia).
  rewrite Z.shiftr_div_pow2, lor_parts by (change (2 ^ 4) with 16; lia). change 0x03 with (Z.ones 2).
  rewrite Z.land_ones by lia. change (2 ^ 4) with 16. change (2 ^ 2) with 4. apply sextet_char. lia.
Qed.

Lemma sextet_third b c : sextet (b64_third b c) = Some (b2z b mod 16 * 4 + b2z c / 64).
Proof.
  unfold b64_third. pose proof (b2z_bound b). pose proof (b2z_bound c). pose proof (Z.mod_pos_bound (b2z b) 16).
  assert (0 <= b2z c / 64 < 4) by (split; [apply Z.div_pos|apply Z.div_lt_upper_bound]; lia).
  rewrite Z.shiftr_div_pow2, lor_parts by (change (2 ^ 6) with 64; change (2 ^ 2) with 4; lia). change 0x0f with (Z.ones 4).
  rewrite Z.land_ones by lia. change (2 ^ 4) with 16. change (2 ^ 2) with 4. change (2 ^ 6) with 64. apply sextet_char. lia.
Qed.

Lemma sextet_fourth c : sextet (b64_fourth c) = Some (b2z c mod 64).
Proof.
  unfold b64_fourth. change 0x3f with (Z.ones 6). rewrite Z.land_ones by lia. change (2 ^ 6) with 64.
  apply sextet_char. apply Z.mod_pos_bound. lia.
Qed.

(** The parts of a byte put together again. *)
Lemma byte_parts x k n : x / 2 ^ n = k -> 0 <= n -> byte_of k n (x mod 2 ^ n) = z2b x.
Proof. intros <- Hn. unfold byte_of. f_equal. pose proof (Z.div_mod x (2 ^ n)). pose proof (Z.pow_pos_nonneg 2 n). lia. Qed.

Lemma join_first a b : byte_of (b2z a / 4) 2 ((b2z a mod 4 * 16 + b2z b / 16) / 16) = a.
Proof.
  pose proof (b2z_bound b).
  assert (0 <= b2z b / 16 < 16) by (split; [apply Z.div_pos|apply Z.div_lt_upper_bound]; lia).
  rewrite Z.div_add_l, (Z.div_small (b2z b / 16)), Z.add_0_r by lia.
  change 4 with (2 ^ 2). by rewrite byte_parts, z2b_b2z by lia.
Qed.

Lemma join_second a b c : byte_of ((b2z a mod 4 * 16 + b2z b / 16) mod 16) 4 ((b2z b mod 16 * 4 + b2z c / 64) / 4) = b.
Proof.
  pose proof (b2z_bound b). pose proof (b2z_bound c).
  assert (0 <= b2z b / 16 < 16) by (split; [apply Z.div_pos|apply Z.div_lt_upper_bound]; lia).
  assert (0 <= b2z c / 64 < 4) by (split; [apply Z.div_pos|apply Z.div_lt_upper_bound]; lia).
  rewrite Z.div_add_l, (Z.div_small (b2z c / 64)), Z.add_0_r by lia.
  rewrite Z.add_comm, Z.mod_add, Z.mod_small by lia. change 16 with (2 ^ 4). by rewrite byte_parts, z2b_b2z by lia.
Qed.

Lemma join_third b c : byte_of ((b2z b mod 16 * 4 + b2z c / 64) mod 4) 6 (b2z c mod 64) = c.
Proof.
  pose proof (b2z_bound c).
  assert (0 <= b2z c / 64 < 4) by (split; [apply Z.div_pos|apply Z.div_lt_upper_bound]; lia).
  rewrite Z.add_comm, Z.mod_add, Z.mod_small by lia. change 64 with (2 ^ 6). by rewrite byte_parts, z2b_b2z by lia.
Qed.

Lemma decode_b64 bs : b64_decode (b64 bs) = Some bs.
Proof.
  induction bs as [|a|a b|a b c bs IH] using list_ind3; [done|..]; cbn [b64 b64_decode].
  - rewrite sextet_first, sextet_second. cbn. by rewrite join_first.
  - rewrite sextet_first, sextet_second, sextet_third. cbn. by rewrite join_first, join_second.
  - rewrite sextet_first, sextet_second, sextet_third, sextet_fourth. cbn. rewrite IH. cbn.
    by rewrite join_first, join_second, join_third.
Qed.
