(* ===== verification/JwtClaims.v ===== *)
(** * Token service: claims

    The token in the caller's buffer is exactly the encoded header, payload and
    signature, without the signature when the generator or the signing fails,
    or the call reports that it does not fit; the text decodes to what was
    encoded; the call returns and writes nothing outside the buffer; a signature
    that fails is reported as success. *)

From S2P Require Import Prelude SstDefs Json JsonSpec Jwt JwtSpec.

(** ** The request of a caller *)

(** The strings of the fields: the audience is in the caller's memory. *)
Definition jwt_str (aud : list byte) (c : c_string) : list byte :=
  match c with CStr s => s | CPtr _ => aud end.

(** The audience is a terminated string that does not overlap the buffer. *)
Record audience (m : mem) (data : tfm_sst_jwt_t) (aud : list byte) : Prop := {
  au_nonzero : Forall (fun x => x <> chr 0) aud;
  au_chars : forall i, 0 <= i < zlen aud -> m (jwt_aud data + i) = znth aud i;
  au_end : m (jwt_aud data + zlen aud) = chr 0;
  au_apart : jwt_aud data + zlen aud < jwt_buffer data \/ jwt_buffer data + jwt_buffer_size data <= jwt_aud data;
}.

(** {"alg":"ES256","typ":"JWT"} *)
Definition header_text : list byte := json_text (jwt_str []) (JSON_TOK_OBJECT_START jwt_header_fields).

Definition payload_text (data : tfm_sst_jwt_t) (aud : list byte) : list byte :=
  json_text (jwt_str aud) (JSON_TOK_OBJECT_START (jwt_payload_fields (jwt_exp data) (jwt_iat data) (jwt_aud data))).

(** What is signed. *)
Definition signed_text (data : tfm_sst_jwt_t) (aud : list byte) : list byte :=
  b64 header_text ++ [chr 46] ++ b64 (payload_text data aud).

Lemma nonzero_dec l : bool_decide (Forall (fun x => x <> chr 0) l) = true -> Forall (fun x => x <> chr 0) l.
Proof. apply bool_decide_eq_true_1. Qed.

Section token.
  Context {Tc : tinycrypt} (fuel : nat) (data : tfm_sst_jwt_t) (m0 : mem) (aud : list byte).
  Hypothesis Haud : audience m0 data aud.
  Hypothesis Hfuel : (length aud <= fuel)%nat /\ (5 <= fuel)%nat.

Let inv := within m0 (jwt_buffer data) (jwt_buffer_size data).

Lemma const_ok a s : bool_decide (Forall (fun x => x <> chr 0) s) = true -> (length s <= 5)%nat ->
  cstr_ok jwt_load inv fuel (jwt_str a) (CStr s).
Proof.
  intros Hn Hl. split; cbn [jwt_str char_at].
  - lia.
  - by apply nonzero_dec.
  - intros st i _ Hi. by destruct (Z.ltb_spec i (zlen s)); [|lia].
  - intros st _. by rewrite Z.ltb_irrefl.
Qed.

Lemma aud_ok : cstr_ok jwt_load inv fuel (jwt_str aud) (CPtr (jwt_aud data)).
Proof.
  destruct Haud as [Hn Hc He Ha]. split; cbn [jwt_str char_at]; [lia|done| |].
  - intros st i [_ _ Hx] Hi. unfold jwt_load. rewrite Hx by lia. by apply Hc.
  - intros st [_ _ Hx]. unfold jwt_load. rewrite Hx by lia. done.
Qed.

(** The encoder feeds the builder the text of an object. *)
Lemma encode_text a l st : json_ok jwt_load inv fuel (jwt_str a) (JSON_TOK_OBJECT_START l) -> inv st ->
  json_obj_encode base64_append_bytes jwt_load fuel l st =
    Some (0, emit (json_text (jwt_str a) (JSON_TOK_OBJECT_START l)) st).
Proof.
  intros Hok Hst. refine (encode_ok base64_append_bytes jwt_load emit inv fuel (jwt_str a) _ _ _ _
    (JSON_TOK_OBJECT_START l) Hok st Hst); try done.
  - intros. apply emit_app.
  - intros. by apply within_emit.
Qed.

Lemma header_ok : json_ok jwt_load inv fuel (jwt_str []) (JSON_TOK_OBJECT_START jwt_header_fields).
Proof. split_and!; try done; apply const_ok; vm_compute; reflexivity || lia. Qed.

Lemma payload_ok : json_ok jwt_load inv fuel (jwt_str aud)
  (JSON_TOK_OBJECT_START (jwt_payload_fields (jwt_exp data) (jwt_iat data) (jwt_aud data))).
Proof. split_and!; try done; try (apply const_ok; vm_compute; reflexivity || lia). apply aud_ok. Qed.

Definition st0 (stack : byte * byte * byte) : jwt_st :=
  JwtSt m0 (Builder (jwt_buffer data) (jwt_buffer data) (jwt_buffer_size data) false stack 0).

Lemma init_builder_out stack : jwt_init_builder fuel (jwt_buffer data) (jwt_buffer_size data) stack m0 =
  Some (0, set_wp zeros 0 (outs (b64 header_text) (st0 stack))).
Proof.
  unfold jwt_init_builder, jwt_add_header. fold (st0 stack).
  rewrite (encode_text [] jwt_header_fields) by (apply header_ok || apply within_start). fold header_text.
  change (negb (0 =? 0)) with false. cbv iota.
  change (emit header_text (st0 stack)) with (emit header_text (set_wp stack 0 (st0 stack))).
  rewrite emit_b64_any; [done|]. vm_compute. lia.
Qed.

Lemma add_payload_out st : inv st -> jwt_add_payload fuel (jwt_exp data) (jwt_iat data) (jwt_aud data) (set_wp zeros 0 st) =
  Some (0, set_wp zeros 0 (outs ([chr 46] ++ b64 (payload_text data aud)) st)).
Proof.
  intros Hst. unfold jwt_add_payload. rewrite outch_set_wp.
  rewrite (encode_text aud) by (apply payload_ok || (apply within_set_wp, within_outch; exact Hst)).
  fold (payload_text data aud). by rewrite emit_b64, outs_app.
Qed.

(** The builder when the signature is computed. *)
Definition signed_st stack : jwt_st := set_wp zeros 0 (outs (signed_text data aud) (st0 stack)).

Lemma before_sign stack g : sst_jwt_sign fuel data stack m0 g =
  let '(_, st, g) := jwt_sign simple_private_der (signed_st stack) g in
  Some (if overflowed (jw_builder st) then Some PSA_SST_ERR_SYSTEM_ERROR else None, jw_mem st, g).
Proof.
  unfold sst_jwt_sign. rewrite init_builder_out. cbn [Z.eqb]. rewrite add_payload_out by (apply within_outs, within_start).
  cbn [Z.eqb]. rewrite <- outs_app. fold (signed_text data aud). fold (signed_st stack).
  by destruct (jwt_sign simple_private_der (signed_st stack) g) as [[r st] g'].
Qed.

End token.

(** A separator and a further part. *)
Lemma append_part c bs st :
  base64_flush (snd (base64_append_bytes bs (base64_outch c (set_wp zeros 0 st)))) =
    set_wp zeros 0 (outs ([c] ++ b64 bs) st).
Proof. rewrite outch_set_wp, outs_app. exact (emit_b64 bs (base64_outch c st)). Qed.

Section buffer.
  Context (data : tfm_sst_jwt_t) (m0 : mem) (aud : list byte).

Lemma signed_wrote stack : zlen (signed_text data aud) < jwt_buffer_size data ->
  wrote m0 (jwt_buffer data) (jwt_buffer_size data) (signed_text data aud) (signed_st data m0 aud stack).
Proof. intros Hs. apply wrote_set_wp. apply (outs_wrote _ _ _ []); [apply wrote_start|done]. Qed.

Lemma signed_message stack : zlen (signed_text data aud) < jwt_buffer_size data ->
  mread (jw_mem (signed_st data m0 aud stack)) (jb_base (jw_builder (signed_st data m0 aud stack)))
    (jb_buf (jw_builder (signed_st data m0 aud stack)) - jb_base (jw_builder (signed_st data m0 aud stack))) = signed_text data aud.
Proof.
  intros Hs. pose proof (signed_wrote stack Hs) as Hw. rewrite (wr_base _ _ _ _ _ Hw), (wr_buf _ _ _ _ _ Hw).
  replace (jwt_buffer data + zlen (signed_text data aud) - jwt_buffer data) with (zlen (signed_text data aud)) by lia.
  by apply (wrote_read m0 _ (jwt_buffer_size data)).
Qed.

Lemma signed_overflowed stack : jwt_buffer_size data <= zlen (signed_text data aud) ->
  overflowed (jw_builder (signed_st data m0 aud stack)) = true.
Proof.
  intros Hs. unfold signed_st. change (overflowed (jw_builder (set_wp zeros 0 ?x))) with (overflowed (jw_builder x)).
  apply (outs_full m0 (jwt_buffer data) (jwt_buffer_size data) []); [apply wrote_start| |done].
  unfold signed_text. by destruct (b64 header_text).
Qed.
End buffer.

(** ** Claims *)

Section claims.
  Context {Tc : tinycrypt}.

(** The token with its signature. *)
Definition token (data : tfm_sst_jwt_t) (aud sig : list byte) : list byte :=
  signed_text data aud ++ [chr 46] ++ b64 sig.

(** The signature of a text: none when the generator cannot be set up or the
    signature fails. *)
Definition signature_of (g : jwt_static) (text : list byte) : option (list byte) :=
  let '(ready, prng) :=
    if prng_init g then (true, prng_state g)
    else tc_ctr_prng_init (fst (entropy_loop 8 (next g))) personalize (prng_state g) in
  if ready then fst (uECC_sign simple_private_der (tc_sha256 text) prng) else None.

(** What the call writes. *)
Definition written_text (data : tfm_sst_jwt_t) (aud : list byte) (g : jwt_static) : list byte :=
  match signature_of g (signed_text data aud) with
  | Some sig => token data aud sig
  | None => signed_text data aud
  end.

(** The call of the generator and of the signature. *)
Lemma sign_out st g : exists r g', jwt_sign simple_private_der st g = (r,
  match signature_of g (mread (jw_mem st) (jb_base (jw_builder st)) (jb_buf (jw_builder st) - jb_base (jw_builder st))) with
  | Some sig => base64_flush (snd (base64_append_bytes sig (base64_outch (chr 46) st)))
  | None => st
  end, g').
Proof.
  unfold jwt_sign, signature_of, setup_prng. destruct (prng_init g).
  - cbn [Z.eqb negb]. destruct (uECC_sign _ _ _) as [[sig|] p]; cbn [fst]; by eexists _, _.
  - destruct (entropy_loop 8 (next g)) as [entropy nx]. cbn [fst]. destruct (tc_ctr_prng_init _ _ _) as [[] p]; cbn [Z.eqb negb prng_state].
    + destruct (uECC_sign _ _ _) as [[sig|] p']; cbn [fst]; by eexists _, _.
    + by eexists _, _.
Qed.

(** Text the builder has room for, and text it has not. *)
Lemma outs_result data m0 stack text : text <> [] ->
  let st := outs text (st0 data m0 stack) in
  if zlen text <? jwt_buffer_size data
  then overflowed (jw_builder st) = false /\ mread (jw_mem st) (jwt_buffer data) (zlen text) = text /\
       jw_mem st (jwt_buffer data + zlen text) = chr 0
  else overflowed (jw_builder st) = true.
Proof.
  intros Hne st. destruct (Z.ltb_spec (zlen text) (jwt_buffer_size data)) as [Hlt|Hge].
  - assert (wrote m0 (jwt_buffer data) (jwt_buffer_size data) text st) as Hw by (apply (outs_wrote _ _ _ []); [apply wrote_start|done]).
    split; [apply Hw|]. split; [by apply (wrote_read m0 _ (jwt_buffer_size data))|]. by apply Hw.
  - apply (outs_full m0 (jwt_buffer data) (jwt_buffer_size data) []); [apply wrote_start|done|done].
Qed.

Lemma signed_nonempty data aud rest : signed_text data aud ++ rest <> [].
Proof. unfold signed_text. by destruct (b64 header_text). Qed.

(** The whole call. *)
Lemma call_written fuel data m0 aud stack g :
  audience m0 data aud -> (length aud <= fuel)%nat /\ (5 <= fuel)%nat ->
  exists err m' g', sst_jwt_sign fuel data stack m0 g = Some (err, m', g') /\
  (forall x, x < jwt_buffer data \/ jwt_buffer data + jwt_buffer_size data <= x -> m' x = m0 x) /\
  if zlen (written_text data aud g) <? jwt_buffer_size data
  then err = None /\ mread m' (jwt_buffer data) (zlen (written_text data aud g)) = written_text data aud g /\
       m' (jwt_buffer data + zlen (written_text data aud g)) = chr 0
  else err = Some PSA_SST_ERR_SYSTEM_ERROR.
Proof.
  intros Ha Hf. rewrite (before_sign fuel data m0 aud Ha Hf). destruct (sign_out (signed_st data m0 aud stack) g) as (r & g' & ->).
  set (st := signed_st data m0 aud stack). set (text := mread (jw_mem st) _ _).
  pose proof (within_outs m0 _ _ (signed_text data aud) _ (within_start m0 (jwt_buffer data) (jwt_buffer_size data) stack 0)) as W.
  fold (st0 data m0 stack) in W.
  set (parts := fun sig => match sig with Some sig => [chr 46] ++ b64 sig | None => [] end).
  set (st' := match signature_of g text with Some sig => _ | None => st end).
  assert (st' = set_wp zeros 0 (outs (signed_text data aud ++ parts (signature_of g text)) (st0 data m0 stack))) as Est.
  { subst st'. rewrite outs_app. destruct (signature_of g text) as [sig|]; [|done]. unfold st, signed_st. by rewrite append_part. }
  eexists _, _, _. split; [reflexivity|]. rewrite Est.
  change (overflowed (jw_builder (set_wp zeros 0 ?x))) with (overflowed (jw_builder x)).
  change (jw_mem (set_wp zeros 0 ?x)) with (jw_mem x). split.
  { apply (wi_other m0 (jwt_buffer data) (jwt_buffer_size data)). rewrite outs_app. by apply within_outs. }
  assert (forall sig, match sig with Some sig => token data aud sig | None => signed_text data aud end =
    signed_text data aud ++ parts sig) as Ew by (intros [sig|]; [done|by rewrite app_nil_r]).
  unfold written_text. rewrite Ew. destruct (Z.le_gt_cases (jwt_buffer_size data) (zlen (signed_text data aud))) as [Hbig|Hfit].
  - assert (overflowed (jw_builder (outs (signed_text data aud) (st0 data m0 stack))) = true) as Hov
      by exact (signed_overflowed data m0 aud stack Hbig).
    rewrite outs_app, outs_overflowed, Hov by exact Hov.
    destruct (Z.ltb_spec (zlen (signed_text data aud ++ parts (signature_of g (signed_text data aud)))) (jwt_buffer_size data)) as [H|_]; [|done].
    rewrite zlen_app in H. lia.
  - assert (text = signed_text data aud) as -> by (apply signed_message; lia).
    pose proof (outs_result data m0 stack _ (signed_nonempty data aud (parts (signature_of g (signed_text data aud))))) as H. cbv zeta in H.
    destruct (_ <? _); [destruct H as (-> & H1 & H2)|rewrite H]; done.
Qed.

(** C32: the call puts into the buffer of the caller, if the buffer has room for
    it, exactly the encoded header and payload joined by a dot, then, when the
    generator is set up and the signature works, a dot and the encoded signature
    of the hash of that text, then a terminator, and succeeds; it succeeds without
    the signature too.  Otherwise it reports an error.  Nothing else is changed,
    and what the stack held before plays no part. *)
Theorem jwt_token_exact (fuel : nat) (data : tfm_sst_jwt_t) (m0 : mem) (aud : list byte) (stack : byte * byte * byte)
    (g : jwt_static) :
  audience m0 data aud -> (length aud <= fuel)%nat /\ (5 <= fuel)%nat ->
  exists err m' g', sst_jwt_sign fuel data stack m0 g = Some (err, m', g') /\
  (forall x, x < jwt_buffer data \/ jwt_buffer data + jwt_buffer_size data <= x -> m' x = m0 x) /\
  if zlen (written_text data aud g) <? jwt_buffer_size data
  then err = None /\ mread m' (jwt_buffer data) (zlen (written_text data aud g)) = written_text data aud g /\
       m' (jwt_buffer data + zlen (written_text data aud g)) = chr 0
  else err = Some PSA_SST_ERR_SYSTEM_ERROR.
Proof. apply call_written. Qed.

(** The string constants of the service end within five characters. *)
Lemma const_ends inv (fuel : nat) s : (length s <= fuel)%nat -> ends jwt_load inv fuel (CStr s).
Proof. intros Hs. exists (length s). split; [done|]. intros st _. cbn [char_at]. by rewrite Z.ltb_irrefl. Qed.

(** Signing keeps to the buffer. *)
Lemma within_sign m base size st g : within m base size st -> within m base size (jwt_sign simple_private_der st g).1.2.
Proof.
  intros W. unfold jwt_sign. destruct (setup_prng g) as [r g1]. destruct (negb (r =? 0)); [done|].
  destruct (uECC_sign _ _ _) as [[sig|] p]; [|done]. by apply within_flush, within_emit, within_outch.
Qed.

(** C35: the call returns, and writes only inside the buffer it is given,
    whatever the request, the memory, the buffer and the functions of tinycrypt
    are and whether the token fits or not, if only the memory holds, [n] bytes
    from where the audience starts, a zero that is not in the buffer: the audience
    itself may overlap the buffer.  The fuel is the distance of that zero. *)
Theorem jwt_writes_in_buffer (fuel n : nat) (data : tfm_sst_jwt_t) (stack : byte * byte * byte) (m : mem) (g : jwt_static) :
  let outside x := x < jwt_buffer data \/ jwt_buffer data + jwt_buffer_size data <= x in
  m (jwt_aud data + Z.of_nat n) = chr 0 -> outside (jwt_aud data + Z.of_nat n) -> (n <= fuel)%nat -> (5 <= fuel)%nat ->
  exists err m' g', sst_jwt_sign fuel data stack m g = Some (err, m', g') /\ forall x, outside x -> m' x = m x.
Proof.
  intros outside Hz Ho Hn H5. set (base := jwt_buffer data) in *. set (size := jwt_buffer_size data) in *.
  unfold sst_jwt_sign, jwt_init_builder, jwt_add_header, jwt_add_payload. fold base size.
  destruct (within_encode m base size fuel jwt_header_fields (JwtSt m (Builder base base size false stack 0)))
    as (r1 & st1 & -> & W1); [split_and!; try done; apply const_ends; cbn; lia|apply within_start|].
  set (st1' := if negb (r1 =? 0) then st1 else base64_flush st1).
  assert (within m base size st1') as W1' by (subst st1'; destruct (negb (r1 =? 0)); [done|by apply within_flush]).
  clearbody st1'. cbn [Z.eqb].
  destruct (within_encode m base size fuel (jwt_payload_fields (jwt_exp data) (jwt_iat data) (jwt_aud data)) (base64_outch (chr 46) st1'))
    as (r2 & st2 & -> & W2); [|by apply within_outch|].
  { split_and!; try done; try (apply const_ends; cbn; lia). exists n. split; [done|]. intros st W. cbn [char_at]. unfold jwt_load.
    by rewrite (wi_other _ _ _ _ W). }
  pose proof (within_flush _ _ _ _ W2) as W2'. pose proof (within_sign m base size _ g W2') as W3.
  destruct (r2 =? 0); [destruct (jwt_sign simple_private_der (base64_flush st2) g) as [[r3 st3] g3]|];
    (eexists _, _, _; split; [reflexivity|]); intros x Hx; by apply (wi_other m base size).
Qed.

(** C36: what [base64_append_bytes] and [base64_flush] put into the buffer decodes,
    by the alphabet of the encoding without padding, to the bytes they were
    given. *)
Theorem base64_decodes (m0 : mem) (base size : Z) (out bs : list byte) (st : jwt_st) :
  wrote m0 base size out st -> zlen out + zlen (b64 bs) < size ->
  let st' := base64_flush (snd (base64_append_bytes bs (set_wp zeros 0 st))) in
  overflowed (jw_builder st') = false /\
  b64_decode (mread (jw_mem st') (base + zlen out) (jb_buf (jw_builder st') - (base + zlen out))) = Some bs.
Proof.
  intros Hw Hs st'. assert (st' = set_wp zeros 0 (outs (b64 bs) st)) as -> by apply emit_b64.
  assert (wrote m0 base size (out ++ b64 bs) (outs (b64 bs) st)) as Hw' by (apply outs_wrote; [done|rewrite zlen_app; lia]).
  split; [apply Hw'|]. cbn [set_wp on_builder jw_mem jw_builder jb_buf]. rewrite (wr_buf _ _ _ _ _ Hw'), zlen_app.
  replace (base + (zlen out + zlen (b64 bs)) - (base + zlen out)) with (zlen (b64 bs)) by lia.
  assert (mread (jw_mem (outs (b64 bs) st)) (base + zlen out) (zlen (b64 bs)) = b64 bs) as ->; [|apply decode_b64].
  apply zlist_ext; [by rewrite zlen_mread by lia|]. intros i Hi. rewrite zlen_mread in Hi by lia.
  rewrite znth_mread, <- Z.add_assoc, (wr_chars _ _ _ _ _ Hw') by (rewrite ?zlen_app; lia).
  rewrite znth_app_r by lia. f_equal. lia.
Qed.

(** A call whose signature fails. *)
Lemma signature_fails g g1 p text : setup_prng g = (0, g1) ->
  uECC_sign simple_private_der (tc_sha256 text) (prng_state g1) = (None, p) -> signature_of g text = None.
Proof.
  unfold setup_prng, signature_of. intros Hp Hs. destruct (prng_init g); [injection Hp as <-; by rewrite Hs|].
  destruct (entropy_loop 8 (next g)) as [entropy nx]. cbn [fst]. destruct (tc_ctr_prng_init _ _ _) as [[] q]; [|done].
  injection Hp as <-. cbn [prng_state] in Hs. by rewrite Hs.
Qed.

(** C38: when the signature fails, the call reports success for a token that has
    no signature. *)
Theorem failed_signature_reported_success (fuel : nat) (data : tfm_sst_jwt_t) (m0 : mem) (aud : list byte)
    (stack : byte * byte * byte) (g g1 : jwt_static) (p : TCCtrPrng_t) :
  audience m0 data aud -> (length aud <= fuel)%nat /\ (5 <= fuel)%nat ->
  zlen (signed_text data aud) < jwt_buffer_size data -> setup_prng g = (0, g1) ->
  uECC_sign simple_private_der (tc_sha256 (signed_text data aud)) (prng_state g1) = (None, p) ->
  exists m' g', sst_jwt_sign fuel data stack m0 g = Some (None, m', g') /\
    mread m' (jwt_buffer data) (zlen (signed_text data aud)) = signed_text data aud /\
    m' (jwt_buffer data + zlen (signed_text data aud)) = chr 0.
Proof.
  intros Ha Hf Hs Hp Hsig. destruct (call_written fuel data m0 aud stack g Ha Hf) as (err & m' & g' & E & _ & H).
  unfold written_text in H. rewrite (signature_fails g g1 p _ Hp Hsig), (proj2 (Z.ltb_lt _ _) Hs) in H. destruct H as (-> & H). by exists m', g'.
Qed.
End claims.

(** ** A concrete token *)

Module JwtExample.

(** Functions with the types of tinycrypt's: a generator that counts, a hash that
    is the head of the message, a signature of 64 bytes. *)
Definition crypto (works : bool) : tinycrypt := {|
  TCCtrPrng_t := Z;
  prng_zero := 0;
  tc_sha256 := fun m => take 32 m;
  tc_ctr_prng_init := fun _ _ p => (true, p + 1);
  uECC_sign := fun key hash p => (if works then Some (key ++ hash) else None, p + 1);
|}.

Definition aud_text : list byte := ascii [97; 34; 98].

(** A request with the audience at 2000 and the buffer at 5000. *)
Definition request (size : Z) : tfm_sst_jwt_t := JwtReq 5000 size 1543 (-7) 2000.

Definition caller_mem : mem := mwrite (fun _ => chr 0) 2000 aud_text.

Lemma aud_in_memory size : audience caller_mem (request size) aud_text.
Proof.
  split.
  - apply nonzero_dec. vm_compute. reflexivity.
  - intros i Hi. cbn [request jwt_aud]. unfold caller_mem. rewrite mwrite_spec, decide_True by lia.
    f_equal. lia.
  - reflexivity.
  - left. vm_compute. reflexivity.
Qed.

Definition boot_static (works : bool) : @jwt_static (crypto works) := @JwtStatic (crypto works) 0 false 1.

Definition example_token : list byte :=
  token (request 400) aud_text (simple_private_der ++ take 32 (signed_text (request 400) aud_text)).

Lemma jwt_token_exact_witness : exists m' g',
  @sst_jwt_sign (crypto true) 5 (request 400) (chr 1, chr 2, chr 3) caller_mem (boot_static true) = Some (None, m', g') /\
  mread m' 5000 (zlen example_token) = example_token.
Proof.
  destruct (@jwt_token_exact (crypto true) 5 (request 400) caller_mem aud_text (chr 1, chr 2, chr 3) (boot_static true))
    as (err & m' & g' & E & _ & H).
  - apply aud_in_memory.
  - split; vm_compute; lia.
  - assert ((zlen example_token <? 400) = true) as Hfits by (vm_compute; reflexivity).
    change (written_text (request 400) aud_text (boot_static true)) with example_token in H.
    cbn [request jwt_buffer_size] in H. rewrite Hfits in H. destruct H as (-> & H & _).
    exists m', g'. exact (conj E H).
Defined.

(** The same request with a buffer of 100 bytes. *)
Lemma jwt_writes_in_buffer_witness : exists err m' g',
  @sst_jwt_sign (crypto true) 5 (request 100) (chr 1, chr 2, chr 3) caller_mem (boot_static true) = Some (err, m', g') /\
  m' 5100 = caller_mem 5100 /\ m' 4999 = caller_mem 4999.
Proof.
  destruct (@jwt_writes_in_buffer (crypto true) 5 3 (request 100) (chr 1, chr 2, chr 3) caller_mem (boot_static true))
    as (err & m' & g' & E & H); [vm_compute; reflexivity|left; cbn; lia|lia|lia|].
  exists err, m', g'. split; [exact E|]. split; apply H; cbn; lia.
Defined.

Lemma base64_decodes_witness :
  let st := JwtSt caller_mem (Builder 5000 5000 10 false zeros 0) in
  let st' := base64_flush (snd (base64_append_bytes aud_text (set_wp zeros 0 st))) in
  b64_decode (mread (jw_mem st') 5000 4) = Some aud_text.
Proof.
  intros st st'. destruct (base64_decodes caller_mem 5000 10 [] aud_text st) as [_ H].
  - apply wrote_start.
  - vm_compute. reflexivity.
  - exact H.
Defined.

Lemma failed_signature_reported_success_witness : exists m' g',
  @sst_jwt_sign (crypto false) 5 (request 400) (chr 1, chr 2, chr 3) caller_mem (boot_static false) = Some (None, m', g').
Proof.
  destruct (@failed_signature_reported_success (crypto false) 5 (request 400) caller_mem aud_text (chr 1, chr 2, chr 3)
    (boot_static false) (snd (@setup_prng (crypto false) (boot_static false))) 2) as (m' & g' & E & _).
  - apply aud_in_memory.
  - split; vm_compute; lia.
  - vm_compute. reflexivity.
  - reflexivity.
  - reflexivity.
  - exists m', g'. exact E.
Defined.
End JwtExample.
