(* ===== verification/NsClient.v ===== *)
(** * The non-secure client of the services

    [interface/src]: the client functions ([tfm_sst_api.c], [tfm_log_api.c]), the
    lock around them ([tfm_ns_lock_rtx.c]), the handlers their SVCs reach
    ([tfm_sst_svc_handler.c], [tfm_log_svc_handler.c]) with the identity of the
    calling thread ([tfm_id_mngr_dummy.c]), and the veneers behind them
    ([secure_fw/ns_callable]).  The operating system is a parameter, and so are
    the addresses of the secure functions.

    A secure function runs on the state the core hands it; the state of the
    service and the memory go with it. *)

From stdpp Require Import strings.
From S2P Require Import Prelude SstDefs SstInterface SstObject SpmHal Spm SecureApi CoreInterface SstAsset SstAssetSpec AuditLog.

(** ** Parameters *)

(** The functions of the operating system the client calls. *)
Class cmsis_os := {
  os_t : Type;
  osMutexNew : os_t -> Z * os_t;
  osMutexAcquire : Z -> os_t -> Z * os_t;
  osMutexRelease : Z -> os_t -> Z * os_t;
  (** [svcRtxThreadGetName(svcRtxThreadGetId())] *)
  svcRtxThreadName : os_t -> string;
}.

(** The secure functions of the storage partition and their addresses. *)
Inductive am_function :=
  | FnCreate | FnGetInfo | FnGetAttributes | FnSetAttributes | FnRead | FnWrite | FnDelete.

#[global] Instance am_function_eq_decision : EqDecision am_function.
Proof. solve_decision. Defined.

Class am_symbols := am_address : am_function -> Z.

Definition TFM_SP_STORAGE_ID : Z := 256.

(** ** State *)

Record ns_lock_state := NsLock { lock_init : bool; lock_id : Z }.

Section client.
  Context {Layout : tfm_layout} {Cmse : cmse} {Os : cmsis_os} {Sym : am_symbols}.
  Context {S : Type} `{!sst_core_ops S}.

Record client := Client {
  cl_core : tfm_state;
  cl_sys : sst_sys S;
  cl_mem : mem;
  ns_lock : ns_lock_state;
  cl_os : os_t;
}.

Definition CM (A : Type) : Type := M client tfm_halt A.

Definition set_core (c : tfm_state) (st : client) : client :=
  Client c (cl_sys st) (cl_mem st) (ns_lock st) (cl_os st).
Definition set_service (c : tfm_state) (o : sst_sys S) (μ : mem) (st : client) : client :=
  Client c o μ (ns_lock st) (cl_os st).
Definition set_mem (μ : mem) (st : client) : client :=
  Client (cl_core st) (cl_sys st) μ (ns_lock st) (cl_os st).
Definition on_os {A} (f : os_t -> A * os_t) : CM A := fun st =>
  let '(a, os) := f (cl_os st) in (Ok a, Client (cl_core st) (cl_sys st) (cl_mem st) (ns_lock st) os).

(** ** The storage service behind the core *)

(** The core requests of the functions; they call no other partition. *)
#[local] Instance service_core : tfm_core_ops tfm_state := tfm_core_c (fun _ _ => fault).

(** The request an address and four registers stand for. *)
Definition sfn_op (pc : Z) (ar : Z * Z * Z * Z) : option am_op :=
  let '(r0, r1, _, r3) := ar in
  let app_id := u32 r0 in
  let uuid := u32 r1 in
  let p := u32 r3 in
  if pc =? am_address FnCreate then Some (AmCreate app_id uuid)
  else if pc =? am_address FnGetInfo then Some (AmGetInfo app_id uuid p)
  else if pc =? am_address FnGetAttributes then Some (AmGetAttributes app_id uuid p)
  else if pc =? am_address FnSetAttributes then Some (AmSetAttributes app_id uuid p)
  else if pc =? am_address FnRead then Some (AmRead app_id uuid p)
  else if pc =? am_address FnWrite then Some (AmWrite app_id uuid p)
  else if pc =? am_address FnDelete then Some (AmDelete app_id uuid)
  else None.

Definition psa_sst_err_value (e : psa_sst_err_t) : Z :=
  TFM_PARTITION_SPECIFIC_ERROR_MIN +
  match e with
  | PSA_SST_ERR_ASSET_NOT_PREPARED => 0
  | PSA_SST_ERR_ASSET_NOT_FOUND => 1
  | PSA_SST_ERR_PARAM_ERROR => 2
  | PSA_SST_ERR_STORAGE_SYSTEM_FULL => 3
  | PSA_SST_ERR_SYSTEM_ERROR => 4
  end.

(** The value a secure function returns. *)
Definition sfn_value (r : outcome am_exit unit) : outcome tfm_halt Z :=
  match r with
  | Ok _ => Ok 0
  | Err (AmErr e) => Ok (psa_sst_err_value e)
  | Err (AmHalt h) => Err h
  | Fault => Fault
  end.

(** The function at [pc] on the state of the service. *)
Definition storage_at (o : sst_sys S) (μ : mem) (pc : Z) (ar : Z * Z * Z * Z) (c : tfm_state)
    : outcome am_exit unit * am_state tfm_state S :=
  match sfn_op pc ar with
  | Some op => am_run op (AmState c o μ)
  | None => (Fault, AmState c o μ)
  end.

Definition storage_sfn (o : sst_sys S) (μ : mem) (pc : Z) (ar : Z * Z * Z * Z) : TM Z := fun c =>
  let '(r, st) := storage_at o μ pc ar c in (sfn_value r, am_core st).

(** [TFM_CORE_SFN_REQUEST(TFM_SP_STORAGE_ID, fn, a, b, c, d)] in a veneer the
    non-secure side called.  The state in which the function starts is the one a
    function that stops at once stops in; a request the core refuses starts
    none. *)
Definition storage_request (fn : am_function) (a b c d : Z) : CM Z := fun st =>
  let ar := (s32 a, s32 b, s32 c, s32 d) in
  let request run_sfn := tfm_core_partition_request run_sfn true TFM_SP_STORAGE_ID (am_address fn) ar (cl_core st) in
  match request (fun _ _ => fail TFM_NESTING) with
  | (Err TFM_NESTING, started) =>
      let '(r, core) := request (storage_sfn (cl_sys st) (cl_mem st)) in
      let service := snd (storage_at (cl_sys st) (cl_mem st) (am_address fn) ar started) in
      (r, set_service core (am_sys service) (am_mem service) st)
  | (r, core) => (r, set_core core st)
  end.

(** ** Veneers *)

Definition tfm_sst_veneer_create (app_id uuid s_token : Z) : CM Z := storage_request FnCreate app_id uuid s_token 0.
Definition tfm_sst_veneer_get_info (app_id uuid s_token info : Z) : CM Z :=
  storage_request FnGetInfo app_id uuid s_token info.
Definition tfm_sst_veneer_get_attributes (app_id uuid s_token attrs : Z) : CM Z :=
  storage_request FnGetAttributes app_id uuid s_token attrs.
Definition tfm_sst_veneer_set_attributes (app_id uuid s_token attrs : Z) : CM Z :=
  storage_request FnSetAttributes app_id uuid s_token attrs.
Definition tfm_sst_veneer_read (app_id uuid s_token data : Z) : CM Z := storage_request FnRead app_id uuid s_token data.
Definition tfm_sst_veneer_write (app_id uuid s_token data : Z) : CM Z := storage_request FnWrite app_id uuid s_token data.
Definition tfm_sst_veneer_delete (app_id uuid s_token : Z) : CM Z := storage_request FnDelete app_id uuid s_token 0.

Definition tfm_log_veneer_retrieve (size start buffer info : Z) : CM Z := ret TFM_LOG_ERR_SUCCESS.
Definition tfm_log_veneer_add_line (line : Z) : CM Z := ret TFM_LOG_ERR_SUCCESS.
Definition tfm_log_veneer_get_info (info : Z) : CM Z := ret TFM_LOG_ERR_SUCCESS.
Definition tfm_log_veneer_delete_items (num_items rem_items : Z) : CM Z := ret TFM_LOG_ERR_SUCCESS.

(** ** Identity of the caller *)

Definition INVALID_APP_ID : Z := 0.

Definition sst_ns_policy_table : list (string * Z) :=
  [("Thread_A"%string, 9); ("Thread_B"%string, 10); ("Thread_C"%string, 11); ("Thread_D"%string, 12)].

Fixpoint cur_id_loop (table : list (string * Z)) (p_thread_name : string) : Z :=
  match table with
  | [] => INVALID_APP_ID
  | (t_name, app_id) :: table => if String.eqb t_name p_thread_name then app_id else cur_id_loop table p_thread_name
  end.

Definition tfm_sst_get_cur_id : CM Z := gets (fun st => cur_id_loop sst_ns_policy_table (svcRtxThreadName (cl_os st))).

(** ** SVC handlers *)

Definition tfm_sst_svc_create (uuid s_token : Z) : CM Z :=
  app_id <- tfm_sst_get_cur_id ;; tfm_sst_veneer_create app_id uuid s_token.
Definition tfm_sst_svc_get_info (uuid s_token info : Z) : CM Z :=
  app_id <- tfm_sst_get_cur_id ;; tfm_sst_veneer_get_info app_id uuid s_token info.
Definition tfm_sst_svc_get_attributes (uuid s_token attrs : Z) : CM Z :=
  app_id <- tfm_sst_get_cur_id ;; tfm_sst_veneer_get_attributes app_id uuid s_token attrs.
Definition tfm_sst_svc_set_attributes (uuid s_token attrs : Z) : CM Z :=
  app_id <- tfm_sst_get_cur_id ;; tfm_sst_veneer_set_attributes app_id uuid s_token attrs.
Definition tfm_sst_svc_read (uuid s_token data : Z) : CM Z :=
  app_id <- tfm_sst_get_cur_id ;; tfm_sst_veneer_read app_id uuid s_token data.
Definition tfm_sst_svc_write (uuid s_token data : Z) : CM Z :=
  app_id <- tfm_sst_get_cur_id ;; tfm_sst_veneer_write app_id uuid s_token data.
Definition tfm_sst_svc_delete (uuid s_token : Z) : CM Z :=
  app_id <- tfm_sst_get_cur_id ;; tfm_sst_veneer_delete app_id uuid s_token.

Definition tfm_log_svc_retrieve (size start buffer info : Z) : CM Z := tfm_log_veneer_retrieve size start buffer info.
Definition tfm_log_svc_get_info (info : Z) : CM Z := tfm_log_veneer_get_info info.
Definition tfm_log_svc_delete_items (num_items rem_items : Z) : CM Z := tfm_log_veneer_delete_items num_items rem_items.

(** The enumeration [tfm_svc_num]; the table of the handlers has its order. *)
Definition SVC_INVALID : Z := 0.
Definition SVC_TFM_SST_CREATE : Z := 1.
Definition SVC_TFM_SST_GET_INFO : Z := 2.
Definition SVC_TFM_SST_GET_ATTRIBUTES : Z := 3.
Definition SVC_TFM_SST_SET_ATTRIBUTES : Z := 4.
Definition SVC_TFM_SST_READ : Z := 5.
Definition SVC_TFM_SST_WRITE : Z := 6.
Definition SVC_TFM_SST_DELETE : Z := 7.
Definition SVC_TFM_LOG_RETRIEVE : Z := 8.
Definition SVC_TFM_LOG_GET_INFO : Z := 9.
Definition SVC_TFM_LOG_DELETE_ITEMS : Z := 10.

Definition LIST_SVC_DISPATCHERS : list (Z -> Z -> Z -> Z -> CM Z) :=
  [ fun a0 a1 _ _ => tfm_sst_svc_create a0 a1;
    fun a0 a1 a2 _ => tfm_sst_svc_get_info a0 a1 a2;
    fun a0 a1 a2 _ => tfm_sst_svc_get_attributes a0 a1 a2;
    fun a0 a1 a2 _ => tfm_sst_svc_set_attributes a0 a1 a2;
    fun a0 a1 a2 _ => tfm_sst_svc_read a0 a1 a2;
    fun a0 a1 a2 _ => tfm_sst_svc_write a0 a1 a2;
    fun a0 a1 _ _ => tfm_sst_svc_delete a0 a1;
    tfm_log_svc_retrieve;
    fun a0 _ _ _ => tfm_log_svc_get_info a0;
    fun a0 a1 _ _ => tfm_log_svc_delete_items a0 a1 ].

(** ** The lock *)

Definition with_IPSR (v : Z) (s : tfm_state) : tfm_state :=
  set_cpu (fun c => {| PSP := PSP c; PSPLIM := PSPLIM c; CONTROL_nPRIV := CONTROL_nPRIV c;
    CONTROL_SPSEL := CONTROL_SPSEL c; IPSR := v; PRIMASK := PRIMASK c; SHCSR := SHCSR c;
    AIRCR_low := AIRCR_low c |}) s.

Definition set_ns_IPSR (v : Z) : CM unit := modify (fun st => set_core (with_IPSR v (cl_core st)) st).

(** [SVC(n)] of a non-secure thread: the handler of the table runs in handler
    mode, and the result is an unsigned word. *)
Definition svc_dispatch (n a0 a1 a2 a3 : Z) : CM Z :=
  match LIST_SVC_DISPATCHERS !! Z.to_nat (n - 1) with
  | None => fault
  | Some handler =>
      set_ns_IPSR EXC_NUM_SVCALL ;;
      r <- handler a0 a1 a2 a3 ;;
      set_ns_IPSR EXC_NUM_THREAD_MODE ;;
      ret (u32 r)
  end.

Definition tfm_ns_lock_svc_dispatch (svc_num arg0 arg1 arg2 arg3 : Z) : CM Z :=
  let num_svc_dispatchers := 1 + zlen LIST_SVC_DISPATCHERS in
  lock <- gets ns_lock ;;
  if negb (lock_init lock) then ret TFM_ERROR_GENERIC
  else if (SVC_INVALID <? svc_num) && (svc_num <? num_svc_dispatchers)
  then
    on_os (osMutexAcquire (lock_id lock)) ;;
    result <- svc_dispatch svc_num arg0 arg1 arg2 arg3 ;;
    on_os (osMutexRelease (lock_id lock)) ;;
    ret result
  else ret TFM_ERROR_GENERIC.

Definition tfm_ns_lock_init : CM Z :=
  lock <- gets ns_lock ;;
  if negb (lock_init lock)
  then
    id <- on_os osMutexNew ;;
    modify (fun st => Client (cl_core st) (cl_sys st) (cl_mem st) (NsLock true id) (cl_os st)) ;;
    ret TFM_SUCCESS
  else ret TFM_ERROR_GENERIC.

(** ** Client functions

    [frame] is where the compiler puts the local structures: [s_token] and,
    behind it, [s_data]. *)

Definition pack (p : Z) (ws : list Z) : CM unit :=
  modify (fun st => set_mem (mwrite (cl_mem st) p (ws ≫= put32)) st).

Definition psa_sst_create (frame uuid token token_size : Z) : CM Z :=
  pack frame [token; token_size] ;;
  tfm_ns_lock_svc_dispatch SVC_TFM_SST_CREATE uuid frame 0 0.
Definition psa_sst_get_info (frame uuid token token_size info : Z) : CM Z :=
  pack frame [token; token_size] ;;
  tfm_ns_lock_svc_dispatch SVC_TFM_SST_GET_INFO uuid frame info 0.
Definition psa_sst_get_attributes (frame uuid token token_size attrs : Z) : CM Z :=
  pack frame [token; token_size] ;;
  tfm_ns_lock_svc_dispatch SVC_TFM_SST_GET_ATTRIBUTES uuid frame attrs 0.
Definition psa_sst_set_attributes (frame uuid token token_size attrs : Z) : CM Z :=
  pack frame [token; token_size] ;;
  tfm_ns_lock_svc_dispatch SVC_TFM_SST_SET_ATTRIBUTES uuid frame attrs 0.
Definition psa_sst_read (frame uuid token token_size size offset data : Z) : CM Z :=
  pack frame [token; token_size] ;;
  pack (frame + 8) [data; size; offset] ;;
  tfm_ns_lock_svc_dispatch SVC_TFM_SST_READ uuid frame (frame + 8) 0.
Definition psa_sst_write (frame uuid token token_size size offset data : Z) : CM Z :=
  pack frame [token; token_size] ;;
  pack (frame + 8) [data; size; offset] ;;
  tfm_ns_lock_svc_dispatch SVC_TFM_SST_WRITE uuid frame (frame + 8) 0.
Definition psa_sst_delete (frame uuid token token_size : Z) : CM Z :=
  pack frame [token; token_size] ;;
  tfm_ns_lock_svc_dispatch SVC_TFM_SST_DELETE uuid frame 0 0.

Definition tfm_log_retrieve (size start buffer info : Z) : CM Z :=
  tfm_ns_lock_svc_dispatch SVC_TFM_LOG_RETRIEVE size (u32 start) buffer info.
Definition tfm_log_get_info (info : Z) : CM Z := tfm_ns_lock_svc_dispatch SVC_TFM_LOG_GET_INFO info 0 0 0.
Definition tfm_log_delete_items (num_items rem_items : Z) : CM Z :=
  tfm_ns_lock_svc_dispatch SVC_TFM_LOG_DELETE_ITEMS num_items rem_items 0 0.
End client.
