(* ===== verification/NsClientClaims.v ===== *)
(** * The non-secure client: claims

    A call of the client interface goes through the lock, the SVC, the veneer and
    the core into the storage service and back: what the client finds is what
    the map of assets guarded by the policy tables says for the application of
    the calling thread. *)

From stdpp Require Import sets gmap strings.
From S2P Require Import Prelude SstDefs SstInterface SstObject SstObjectSpec Mpu SpmHal Spm SecureApi SecureApiSpec SecureApiChain SecureApiBalance SecureCalls SecureApiEntry CoreInterface CoreLaws SstAsset SstAssetSpec NsClient FlashDriver SstFlash SstBoard CoreBoard SstAssetClaims.

(** The service ends with a code. *)
Definition service_code (r : outcome am_exit unit) : Prop :=
  exists v, sfn_value r = Ok v /\ (v = 0 \/ 0x20 <= v < 0x25).

Lemma error_code e : service_code (Err (AmErr e)).
Proof.
  exists (psa_sst_err_value e). split; [done|]. right. unfold psa_sst_err_value, TFM_PARTITION_SPECIFIC_ERROR_MIN.
  destruct e; lia.
Qed.

Lemma finish_code r μ f : r.1 <> Fault -> service_code (finish r μ f).1.
Proof. destruct r as [[a|e|] α]; [|intros _; apply error_code|done]. intros _. exists 0. auto. Qed.

Lemma abs_asset_code op α : (abs_asset op α).1 <> Fault.
Proof. destruct op; cbn [abs_asset]; unfold on_asset; repeat case_match; by cbn. Qed.

Section system.
  Context {Layout : tfm_layout} {Cmse : cmse} {Hwrap : cmse_no_wrap} {Os : cmsis_os} {Sym : am_symbols}.
  Context {S : Type} `{!sst_core_ops S, !sst_core_laws S}.
  Context (Hbuild : build_ok) (Hsec : 0 <= secure_start < secure_end) (Hend : secure_end <= 2 ^ 32 - 1).
  Context (Hsym : forall f, am_address f <> 0) (Hinj : forall f g, am_address f = am_address g -> f = g).
  Context (ids : list Z) (Hstorage : TFM_SP_STORAGE_ID ∈ ids).

#[local] Existing Instance service_core.
#[local] Instance service_laws : tfm_core_laws tfm_state := tfm_core_c_laws (fun _ _ => fault) Hsec Hend.

(** The map of assets guarded by the policy, as the core serves it. *)
Definition guarded : tfm_state -> am_op -> assets -> mem -> am_result :=
  abs_am (tfm_core_ops0 := service_core) (tfm_core_laws0 := service_laws).

Lemma guarded_code c op α μ : service_code (guarded c op α μ).1.
Proof using Type.
  unfold guarded, abs_am. destruct (pointer_allowed c op); [|apply error_code].
  destruct (allowed _ _ _ _) as [e|]; [|apply error_code].
  destruct op; cbn [abs_granted]; repeat case_match; first [apply error_code | apply finish_code, abs_asset_code].
Qed.

(** ** One request through the core *)

(** The request of a function with its arguments. *)
Definition fn_op (fn : am_function) (a u p : Z) : am_op :=
  match fn with
  | FnCreate => AmCreate a u
  | FnGetInfo => AmGetInfo a u p
  | FnGetAttributes => AmGetAttributes a u p
  | FnSetAttributes => AmSetAttributes a u p
  | FnRead => AmRead a u p
  | FnWrite => AmWrite a u p
  | FnDelete => AmDelete a u
  end.

Lemma address_eqb f g : (am_address f =? am_address g) = bool_decide (f = g).
Proof using Hinj.
  destruct (Z.eqb_spec (am_address f) (am_address g)) as [E|E]; symmetry.
  - apply bool_decide_eq_true. auto.
  - apply bool_decide_eq_false. by intros ->.
Qed.

Lemma u32_s32 x : is_u32 x -> u32 (s32 x) = x.
Proof using Type.
  intros Hx. unfold s32, u32. rewrite Zminus_mod_idemp_l, Z.add_simpl_r. by apply Z.mod_small.
Qed.

Lemma sfn_op_fn fn a b c d : is_u32 a -> is_u32 b -> is_u32 d ->
  sfn_op (am_address fn) (s32 a, s32 b, s32 c, s32 d) = Some (fn_op fn a b d).
Proof using Hinj. intros Ha Hb Hd. unfold sfn_op. rewrite !u32_s32, !address_eqb by done. by destruct fn. Qed.

Lemma passed_signed a b c d : passed_args (s32 a, s32 b, s32 c, s32 d) = (s32 a, s32 b, s32 c, s32 d).
Proof using Type. unfold passed_args. rewrite !s32_u32 by apply s32_range. done. Qed.

(** The states of the core between two client calls: the storage partition is
    idle. *)
Definition storage_idle (c : tfm_state) : Prop :=
  forall t pt, 0 <= t < partition_count (g_spm_partition_db c) -> entry c t = Some pt ->
    TFM_SP_STORAGE_ID = partition_id (static_data pt) -> partition_state (runtime_data pt) = SPM_PARTITION_STATE_IDLE.

Lemma serving_of_ns s : ns_serving ids s -> serving s /\ called_by_secure s = false.
Proof using Cmse.
  intros [(t & Hch) _ Hi Hsp]. assert (t <> 0) as Ht by by eapply chain_nonzero. split.
  - split; [by exists t, [TFM_SP_NON_SECURE_ID]|done].
  - destruct (serving_entry s t _ Hch Ht) as (px & _ & -> & _). by rewrite bool_decide_eq_true_2.
Qed.

(** A function that returns [v] at once. *)
Lemma const_meets v n : allowed_return v -> sfn_meets (fun _ _ _ v' => v' = v) (fun _ _ => ret v) ids n.
Proof using Cmse.
  intros Hv a ar x c s Hch Hx Hids Hf Hi Hsp. apply runs_ret. split_and!; [done..|]. by apply balanced_refl.
Qed.

(** The core calls the function and returns its value. *)
Lemma storage_call fn ar c v :
  ns_ready ids c -> storage_idle c -> allowed_return v ->
  exists started k c', ns_serving ids started /\
    (forall run_sfn, tfm_core_partition_request run_sfn true TFM_SP_STORAGE_ID (am_address fn) ar c =
       bind (run_sfn (am_address fn) (passed_args ar)) k started) /\
    k v started = (Ok v, c') /\ ns_returned ids c c'.
Proof using Hbuild Hsym Hstorage.
  intros Hr Hidle Hv. destruct Hbuild as [Hlvl Hlay].
  set (desc := {| sp_id := TFM_SP_STORAGE_ID; sfn := am_address fn; args := ar; ns_caller := true;
                  exc_num := EXC_NUM_SVCALL |}).
  assert (forall run_sfn, tfm_core_partition_request run_sfn true TFM_SP_STORAGE_ID (am_address fn) ar c =
    tfm_core_sfn_request_function run_sfn (Some desc) c) as E.
  { intros run. unfold tfm_core_partition_request, bind, gets. rewrite (ns_handler _ _ Hr).
    change (EXC_NUM_SVCALL =? EXC_NUM_THREAD_MODE) with false. by rewrite andb_false_r. }
  assert (accepted_call desc c) as Hacc by (split_and!; [apply Hsym|done|exact Hidle]).
  destruct (ns_request_starts Hlvl Hlay ids desc c Hr eq_refl eq_refl Hstorage Hacc) as (started & k & Hs & Ek).
  destruct (ns_request_runs Hlvl Hlay _ _ ids (Z.to_nat SPM_MAX_PARTITIONS) (const_meets v _ Hv) desc c Hr)
    as (v' & c' & Ev & _ & Hret & Hent); [|done..|].
  { pose proof (db_count c (ch_db _ _ _ (ns_chain _ _ Hr))). unfold callable. cbn [length]. lia. }
  exists started, k, c'. split; [done|]. split; [intros run; by rewrite E, Ek|].
  destruct (Hent Hacc) as (t & s' & _ & _ & _ & _ & ->). rewrite Ek in Ev. by split.
Qed.

(** A request of a veneer is served, and the core is ready for the next. *)
Lemma storage_request_spec fn a b c d st α :
  ns_ready ids (cl_core st) -> storage_idle (cl_core st) -> sys_rep (cl_sys st) α -> am_inv α ->
  is_u32 a -> is_u32 b -> is_u32 d -> am_op_ok (fn_op fn a b d) ->
  exists started core o' v,
    let '(r, (α', μ')) := guarded started (fn_op fn a b d) α (cl_mem st) in
    ns_serving ids started /\ sfn_value r = Ok v /\
    storage_request fn a b c d st = (Ok v, set_service core o' μ' st) /\
    ns_returned ids (cl_core st) core /\ sys_rep o' α' /\ am_inv α'.
Proof using All.
  intros Hr Hidle Hrep Hinv Ha Hb Hd Hop.
  set (ar := (s32 a, s32 b, s32 c, s32 d)). destruct st as [core o μ lk os]. cbn [cl_core cl_sys cl_mem] in *.
  destruct (storage_call fn ar core 0 Hr Hidle) as (started & k & _ & Hs & E & _); [by split; [|left]|].
  destruct (serving_of_ns started Hs) as [Hsv _].
  destruct (request_ends (tfm_core_ops0 := service_core) (tfm_core_laws0 := service_laws) started o α μ Hsv Hrep Hinv _ Hop) as (o' & Erun & Hrep' & Hinv').
  fold guarded in Erun, Hrep', Hinv'.
  destruct (guarded_code started (fn_op fn a b d) α μ) as (v & Hv & Hrange).
  assert (allowed_return v) as Hall.
  { unfold allowed_return, TFM_PARTITION_BUSY, TFM_PARTITION_SPECIFIC_ERROR_MIN. lia. }
  destruct (storage_call fn ar core v Hr Hidle Hall) as (started' & k' & core' & Hs' & E' & Ek & Hret).
  assert (started' = started /\ k' v started' = k v started) as [-> Hk].
  { pose proof (E (fun _ _ => fail TFM_NESTING)) as P1. rewrite E' in P1. cbv [bind fail] in P1. injection P1 as P1. subst.
    split; [done|]. pose proof (E (fun _ _ => ret v)) as P2. by rewrite E' in P2. }
  exists started, core', o', v. destruct (guarded started _ α μ) as [r [α' μ']]. cbn [fst snd] in *.
  split_and!; try done.
  assert (storage_at o μ (am_address fn) ar started = (r, AmState started o' μ')) as Eat.
  { unfold storage_at, ar. by rewrite sfn_op_fn. }
  unfold storage_request. cbn [cl_core cl_sys cl_mem]. fold ar. rewrite !E.
  unfold ar at 1 2. rewrite passed_signed. fold ar. cbn [bind fail].
  unfold bind, storage_sfn. rewrite Eat, Hv. cbn [am_core am_sys am_mem snd]. rewrite <- Hk, Ek. done.
Qed.

(** ** Client calls *)

Inductive psa_op :=
  | PsaCreate (uuid token token_size : Z)
  | PsaGetInfo (uuid token token_size info : Z)
  | PsaGetAttributes (uuid token token_size attrs : Z)
  | PsaSetAttributes (uuid token token_size attrs : Z)
  | PsaRead (uuid token token_size size offset data : Z)
  | PsaWrite (uuid token token_size size offset data : Z)
  | PsaDelete (uuid token token_size : Z).

Definition psa_run (frame : Z) (op : psa_op) : CM (S := S) Z :=
  match op with
  | PsaCreate u t n => psa_sst_create frame u t n
  | PsaGetInfo u t n p => psa_sst_get_info frame u t n p
  | PsaGetAttributes u t n p => psa_sst_get_attributes frame u t n p
  | PsaSetAttributes u t n p => psa_sst_set_attributes frame u t n p
  | PsaRead u t n size off p => psa_sst_read frame u t n size off p
  | PsaWrite u t n size off p => psa_sst_write frame u t n size off p
  | PsaDelete u t n => psa_sst_delete frame u t n
  end.

(** What the call is to the storage service. *)
Definition psa_am (frame app : Z) (op : psa_op) : am_op :=
  match op with
  | PsaCreate u _ _ => AmCreate app u
  | PsaGetInfo u _ _ p => AmGetInfo app u p
  | PsaGetAttributes u _ _ p => AmGetAttributes app u p
  | PsaSetAttributes u _ _ p => AmSetAttributes app u p
  | PsaRead u _ _ _ _ _ => AmRead app u (frame + 8)
  | PsaWrite u _ _ _ _ _ => AmWrite app u (frame + 8)
  | PsaDelete u _ _ => AmDelete app u
  end.

(** The memory with the structures the client fills in. *)
Definition psa_packed (frame : Z) (op : psa_op) (μ : mem) : mem :=
  match op with
  | PsaCreate _ t n | PsaGetInfo _ t n _ | PsaGetAttributes _ t n _ | PsaSetAttributes _ t n _ | PsaDelete _ t n =>
      mwrite μ frame (put32 t ++ put32 n)
  | PsaRead _ t n size off p | PsaWrite _ t n size off p =>
      mwrite (mwrite μ frame (put32 t ++ put32 n)) (frame + 8) (put32 p ++ put32 size ++ put32 off)
  end.

Definition psa_op_ok (frame : Z) (op : psa_op) : Prop :=
  is_u32 frame /\ is_u32 (frame + 8) /\ is_u32 (am_uuid (psa_am frame 0 op)) /\ am_op_ok (psa_am frame 0 op).

(** The application the calling thread stands for. *)
Definition app_of (st : client (S := S)) : Z := cur_id_loop sst_ns_policy_table (svcRtxThreadName (cl_os st)).

(** A thread may call: the lock exists, no call is in progress, the storage
    partition is idle and holds the assets [α]. *)
Record client_ready (α : assets) (st : client (S := S)) : Prop := {
  cr_lock : lock_init (ns_lock st) = true;
  cr_thread : IPSR (cpu (cl_core st)) = EXC_NUM_THREAD_MODE;
  cr_core : ns_ready ids (with_IPSR EXC_NUM_SVCALL (cl_core st));
  cr_idle : storage_idle (cl_core st);
  cr_assets : sys_rep (cl_sys st) α;
  cr_policy : am_inv α;
}.

Lemma app_of_u32 st : is_u32 (app_of st).
Proof using Type. unfold app_of. cbn [sst_ns_policy_table cur_id_loop]. repeat case_match; done. Qed.

Lemma with_IPSR_twice v w c : with_IPSR v (with_IPSR w c) = with_IPSR v c.
Proof using Type. done. Qed.

Lemma with_IPSR_same c : with_IPSR (IPSR (cpu c)) c = c.
Proof using Type. by destruct c as [? ? ? ? []]. Qed.

(** The core after the handler, seen from the thread. *)
Lemma thread_ready c o α μ lk os :
  ns_ready ids c -> storage_idle c -> sys_rep o α -> am_inv α -> lock_init lk = true ->
  client_ready α (Client (with_IPSR EXC_NUM_THREAD_MODE c) o μ lk os).
Proof using Type.
  intros Hr Hi Ho Hp Hl. split; try done.
  cbn [cl_core]. rewrite with_IPSR_twice, <- (ns_handler _ _ Hr), with_IPSR_same. done.
Qed.

Lemma idle_kept c c' : storage_idle c -> ns_returned ids c c' -> storage_idle c'.
Proof using Cmse.
  intros Hidle [_ [P1 P2 P3 P4] Hk _ _ _] t pt' Ht Hpt' Hid. rewrite P2 in Ht. specialize (P4 t). rewrite Hpt' in P4.
  destruct (entry c t) as [pt|] eqn:Hpt; [|done]. injection P4 as E1 _ _.
  assert (partition_state (runtime_data pt) = SPM_PARTITION_STATE_IDLE) as <-.
  { apply (Hidle t pt); [done..|]. by rewrite <- E1. }
  destruct (Hk t pt pt' (proj2 Ht) Hpt Hpt') as [_ Hrun Hid']. destruct (decide (t = 0)) as [E0|E0].
  - by apply Hrun.
  - apply Hid'. intros Hin. inversion Hin as [|? ? ? Hin']; [done|inversion Hin'].
Qed.

(** ** Through the lock and the SVC *)

(** Waiting for the mutex does not change which thread runs the code behind. *)
Context (Hos : forall id os, svcRtxThreadName (snd (osMutexAcquire id os)) = svcRtxThreadName os).

Definition svc_of (fn : am_function) : Z :=
  match fn with
  | FnCreate => SVC_TFM_SST_CREATE
  | FnGetInfo => SVC_TFM_SST_GET_INFO
  | FnGetAttributes => SVC_TFM_SST_GET_ATTRIBUTES
  | FnSetAttributes => SVC_TFM_SST_SET_ATTRIBUTES
  | FnRead => SVC_TFM_SST_READ
  | FnWrite => SVC_TFM_SST_WRITE
  | FnDelete => SVC_TFM_SST_DELETE
  end.

(** The pointer a handler passes on. *)
Definition pointer_of (fn : am_function) (p : Z) : Z := match fn with FnCreate | FnDelete => 0 | _ => p end.

Lemma svc_dispatch_fn fn a0 a1 a2 a3 st :
  svc_dispatch (S := S) (svc_of fn) a0 a1 a2 a3 st =
    (set_ns_IPSR EXC_NUM_SVCALL ;;
     r <- (fun st => storage_request fn (app_of st) a0 a1 (pointer_of fn a2) st) ;;
     set_ns_IPSR EXC_NUM_THREAD_MODE ;;
     ret (u32 r)) st.
Proof using Type. destruct fn; reflexivity. Qed.

(** The end of a call, as the client sees it. *)
Definition served_as (r : tfm_state -> am_result) (m : CM (S := S) Z) (st : client (S := S)) : Prop :=
  exists served v st',
    let '(r, (α', μ')) := r served in
    ns_serving ids served /\ m st = (Ok v, st') /\ sfn_value r = Ok v /\ cl_mem st' = μ' /\ client_ready α' st'.

Lemma dispatch_spec fn a0 a1 a2 a3 st α :
  client_ready α st -> is_u32 a0 -> is_u32 (pointer_of fn a2) ->
  am_op_ok (fn_op fn (app_of st) a0 (pointer_of fn a2)) ->
  served_as (fun c => guarded c (fn_op fn (app_of st) a0 (pointer_of fn a2)) α (cl_mem st))
    (tfm_ns_lock_svc_dispatch (svc_of fn) a0 a1 a2 a3) st.
Proof using All.
  intros [Hl Ht Hc Hi Hr Hp] Ha Hd Hop.
  destruct (osMutexAcquire (lock_id (ns_lock st)) (cl_os st)) as [ra os1] eqn:Eacq.
  set (st1 := Client (with_IPSR EXC_NUM_SVCALL (cl_core st)) (cl_sys st) (cl_mem st) (ns_lock st) os1).
  assert (app_of st1 = app_of st) as Eapp.
  { unfold app_of. cbn [cl_os st1]. by rewrite <- (Hos (lock_id (ns_lock st)) (cl_os st)), Eacq. }
  destruct (storage_request_spec fn (app_of st) a0 a1 (pointer_of fn a2) st1 α) as (started & core & o' & v & H);
    try done; [apply app_of_u32|].
  cbn [cl_mem cl_core st1] in H.
  destruct (osMutexRelease (lock_id (ns_lock st)) os1) as [rr os2] eqn:Erel.
  exists started, v, (Client (with_IPSR 0 core) o' (guarded started (fn_op fn (app_of st) a0 (pointer_of fn a2)) α (cl_mem st)).2.2
    (ns_lock st) os2).
  pose proof (guarded_code started (fn_op fn (app_of st) a0 (pointer_of fn a2)) α (cl_mem st)) as (v' & Hv' & Hrange).
  destruct (guarded started _ α (cl_mem st)) as [r [α' μ']]. cbn [fst snd] in *.
  destruct H as (Hs & Hv & E & Hret & Hr' & Hp'). assert (v' = v) as -> by congruence.
  assert (Hready : ns_ready ids core) by apply Hret.
  split; [done|]. split; [|split; [done|]; split; [done|]].
  - unfold tfm_ns_lock_svc_dispatch. erewrite bind_Ok by reflexivity. rewrite Hl. cbn [negb].
    assert ((SVC_INVALID <? svc_of fn) && (svc_of fn <? 1 + zlen (LIST_SVC_DISPATCHERS (S := S))) = true) as -> by by destruct fn.
    erewrite bind_Ok by (unfold on_os; by rewrite Eacq).
    assert (svc_dispatch (svc_of fn) a0 a1 a2 a3 (Client (cl_core st) (cl_sys st) (cl_mem st) (ns_lock st) os1) =
      (Ok v, Client (with_IPSR 0 core) o' μ' (ns_lock st) os1)) as Esvc.
    { rewrite svc_dispatch_fn. rewrite (bind_Ok _ _ _ tt st1) by reflexivity.
      rewrite (bind_Ok _ _ _ v (set_service core o' μ' st1)) by (rewrite Eapp; exact E).
      rewrite (bind_Ok _ _ _ tt (Client (with_IPSR 0 core) o' μ' (ns_lock st) os1)) by reflexivity.
      unfold ret. by rewrite u32_small by lia. }
    rewrite (bind_Ok _ _ _ _ _ Esvc). erewrite bind_Ok by (unfold on_os; cbn [cl_os]; by rewrite Erel). done.
  - apply thread_ready; [done|exact (idle_kept (with_IPSR EXC_NUM_SVCALL (cl_core st)) core Hi Hret)|done..].
Qed.
(** A client function packs its structures and calls the dispatcher. *)
Definition psa_fn (op : psa_op) : am_function :=
  match op with
  | PsaCreate _ _ _ => FnCreate
  | PsaGetInfo _ _ _ _ => FnGetInfo
  | PsaGetAttributes _ _ _ _ => FnGetAttributes
  | PsaSetAttributes _ _ _ _ => FnSetAttributes
  | PsaRead _ _ _ _ _ _ => FnRead
  | PsaWrite _ _ _ _ _ _ => FnWrite
  | PsaDelete _ _ _ => FnDelete
  end.

Lemma psa_run_dispatch frame op st :
  psa_run frame op st =
    tfm_ns_lock_svc_dispatch (svc_of (psa_fn op)) (am_uuid (psa_am frame 0 op)) frame (am_pointer (psa_am frame 0 op)) 0
      (set_mem (psa_packed frame op (cl_mem st)) st).
Proof using Type. destruct op; reflexivity. Qed.

Lemma psa_fn_op frame app op :
  fn_op (psa_fn op) app (am_uuid (psa_am frame 0 op)) (pointer_of (psa_fn op) (am_pointer (psa_am frame 0 op))) =
    psa_am frame app op.
Proof using Type. by destruct op. Qed.

Lemma psa_call_served frame op α st :
  client_ready α st -> psa_op_ok frame op ->
  served_as (fun c => guarded c (psa_am frame (app_of st) op) α (psa_packed frame op (cl_mem st))) (psa_run frame op) st.
Proof using All.
  intros [Hl Ht Hc Hi Hr Hp] (Hf & Hf8 & Hu & Hop).
  destruct (dispatch_spec (psa_fn op) (am_uuid (psa_am frame 0 op)) frame (am_pointer (psa_am frame 0 op)) 0
    (set_mem (psa_packed frame op (cl_mem st)) st) α) as (served & v & st' & H); [done|done| | |].
  - destruct op; (apply Hop || done).
  - rewrite psa_fn_op. destruct Hop as [H1 H2]. by destruct op.
  - rewrite psa_fn_op in H. exists served, v, st'. by rewrite psa_run_dispatch.
Qed.

(** ** Sequences of calls *)

(** A call by the thread that runs, with the memory as it is then. *)
Record psa_call := PsaCall { pc_os : os_t; pc_mem : mem; pc_frame : Z; pc_op : psa_op }.

Definition resume (k : psa_call) (st : client (S := S)) : client :=
  Client (cl_core st) (cl_sys st) (pc_mem k) (ns_lock st) (pc_os k).

Fixpoint psa_session (cs : list psa_call) (st : client (S := S)) : option (list (Z * mem)) * client :=
  match cs with
  | [] => (Some [], st)
  | k :: cs =>
      match psa_run (pc_frame k) (pc_op k) (resume k st) with
      | (Ok v, st) => let '(rs, st') := psa_session cs st in (cons (v, cl_mem st) <$> rs, st')
      | (_, st) => (None, st)
      end
  end.

(** The results of the guarded map, where the core lets the service use the
    memory it allows a non-secure caller. *)
Inductive guarded_session : assets -> list psa_call -> list (Z * mem) -> assets -> Prop :=
  | gs_end α : guarded_session α [] [] α
  | gs_call served α k cs r v μ' α' rs α'' :
      ns_serving ids served -> called_by_secure served = false ->
      guarded served (psa_am (pc_frame k) (cur_id_loop sst_ns_policy_table (svcRtxThreadName (pc_os k))) (pc_op k)) α
        (psa_packed (pc_frame k) (pc_op k) (pc_mem k)) = (r, (α', μ')) ->
      sfn_value r = Ok v -> guarded_session α' cs rs α'' ->
      guarded_session α (k :: cs) ((v, μ') :: rs) α''.

(** C1: the client interface of the secure storage implements the map of assets
    guarded by the policy tables: every sequence of calls of non-secure threads,
    each through the lock, the SVC, the veneer and the core, that does not ask to
    create one of the three assets whose size in the policy (512 or 2048 bytes: the
    4096-bit RSA key and the two X.509 certificates) exceeds the 256 bytes of the
    object buffer returns call by call the code of the guarded map for the
    application of the thread, leaves in the memory what the map says, and leaves
    the system ready for the next call.  Every other call about the three assets is
    covered; to create one of them breaks the storage, as for the asset manager. *)
Theorem psa_api_refines_policy (cs : list psa_call) (α : assets) (st : client (S := S)) :
  client_ready α st -> Forall (fun k => psa_op_ok (pc_frame k) (pc_op k)) cs ->
  exists rs α' st', psa_session cs st = (Some rs, st') /\ guarded_session α cs rs α' /\ client_ready α' st'.
Proof using All.
  revert α st. induction cs as [|k cs IH]; intros α st Hr Hcs.
  - exists [], α, st. split_and!; [done|constructor|done].
  - inversion Hcs as [|? ? Hk Hcs']; subst.
    assert (client_ready α (resume k st)) as Hr' by (destruct Hr; by constructor).
    destruct (psa_call_served (pc_frame k) (pc_op k) α (resume k st) Hr' Hk) as (served & v & st1 & H).
    change (cl_mem (resume k st)) with (pc_mem k) in H.
    destruct (guarded served _ α _) as [r [α1 μ1]] eqn:Eg. destruct H as (Hs & E & Hv & Hm & Hr1).
    destruct (IH α1 st1 Hr1 Hcs') as (rs & α2 & st2 & E2 & Hg & Hr2).
    exists ((v, μ1) :: rs), α2, st2. split_and!; [| |done].
    + cbn [psa_session]. rewrite E, E2, Hm. done.
    + eapply gs_call; [exact Hs|by apply serving_of_ns|exact Eg|done..].
Qed.
End system.

(** ** The calls of the log do nothing *)

(** The veneers of the log answer without calling the service: whatever is asked,
    the client gets success, and neither the services nor the memory change. *)
Theorem log_calls_do_nothing `{!tfm_layout, !cmse, !cmsis_os, !am_symbols} {S : Type} `{!sst_core_ops S}
    (st : client (S := S)) (size start buffer info : Z) :
  lock_init (ns_lock st) = true -> IPSR (cpu (cl_core st)) = EXC_NUM_THREAD_MODE ->
  exists os', tfm_log_retrieve size start buffer info st = (Ok 0, Client (cl_core st) (cl_sys st) (cl_mem st) (ns_lock st) os').
Proof.
  destruct st as [core o μ lk os]. cbn [ns_lock cl_core cl_sys cl_mem]. intros Hl Hi.
  destruct (osMutexAcquire (lock_id lk) os) as [ra os1] eqn:Ea.
  destruct (osMutexRelease (lock_id lk) os1) as [rr os2] eqn:Er. exists os2.
  unfold tfm_log_retrieve, tfm_ns_lock_svc_dispatch, bind, gets, on_os. cbn [ns_lock cl_os cl_core cl_sys cl_mem].
  rewrite Hl. change (negb true) with false. change (_ && _) with true. cbv iota beta. cbn [cl_os]. rewrite Ea.
  change (svc_dispatch _ _ _ _ _ _) with
    (Ok (E := tfm_halt) 0, Client (with_IPSR 0 (with_IPSR EXC_NUM_SVCALL core)) o μ lk os1).
  cbv beta iota. cbn [cl_os cl_core cl_sys cl_mem ns_lock]. rewrite Er, with_IPSR_twice.
  replace 0 with (IPSR (cpu core)) at 2 by done. by rewrite with_IPSR_same.
Qed.

(** ** The calls at the AN521 *)

Module ClientAn521.
Import An521Core AssetsOnAn521 AssetsAn521.
Local Existing Instances an521_core_layout an521_cmse an521_layout an521_area_ok an521_build_ok.
Local Existing Instances an521_laws an521_no_wrap.

(** One mutex and one running thread. *)
#[local] Instance one_thread : cmsis_os := {|
  os_t := string * bool;
  osMutexNew os := (1, os);
  osMutexAcquire _ os := (0, (fst os, true));
  osMutexRelease _ os := (0, (fst os, false));
  svcRtxThreadName := fst;
|}.

#[local] Instance addresses : am_symbols := fun f =>
  match f with
  | FnCreate => 0x10050101 | FnGetInfo => 0x10050201 | FnGetAttributes => 0x10050301 | FnSetAttributes => 0x10050401
  | FnRead => 0x10050501 | FnWrite => 0x10050601 | FnDelete => 0x10050701
  end.

Definition on_thread (name : string) (op : psa_op) : psa_call := PsaCall (name, false) caller_mem 0x28100200 op.

Definition calls : list psa_call := [
  on_thread "Thread_D" (PsaCreate SST_ASSET_ID_AES_KEY_256 0 0);
  on_thread "Thread_D" (PsaWrite SST_ASSET_ID_AES_KEY_256 0 0 3 0 buf);
  on_thread "Thread_D" (PsaRead SST_ASSET_ID_AES_KEY_256 0 0 3 0 (buf + 16));
  on_thread "Thread_B" (PsaRead SST_ASSET_ID_AES_KEY_256 0 0 3 0 (buf + 16));
  on_thread "main" (PsaGetInfo SST_ASSET_ID_AES_KEY_256 0 0 buf);
  on_thread "Thread_D" (PsaDelete SST_ASSET_ID_AES_KEY_256 0 0)].

(** A client on the prepared storage. *)
Definition client_of (o : sst_sys (sst_state an521_flash)) : client :=
  Client (with_IPSR EXC_NUM_THREAD_MODE ready) o caller_mem (NsLock true 1) ("main"%string, false).

Lemma ready_idle : storage_idle ready.
Proof.
  intros t pt Ht Hpt Hid. rewrite ready_db in Ht. cbn [partition_count] in Ht. by each_entry t pt (proj2 Ht) Hpt.
Qed.

Lemma client_of_ready o : sys_rep o ∅ -> client_ready ids ∅ (client_of o).
Proof. intros Ho. apply thread_ready; [apply ready_ns|apply ready_idle|done|by intros u a|done]. Qed.

Lemma psa_api_refines_policy_witness : exists o rs α' st',
  sys_rep o ∅ /\ psa_session calls (client_of o) = (Some rs, st') /\ client_ready ids α' st'.
Proof.
  destruct (am_prepare_creates (in_thread_mode for_ns) AssetsOnAn521.boot caller_mem _ _ boot_prepare unprepared_usable)
    as (o & _ & Ho); [vm_compute; reflexivity|].
  destruct (psa_api_refines_policy build_good ltac:(vm_compute; split; congruence) ltac:(vm_compute; congruence)
    ltac:(by intros []) ltac:(by intros [] []) ids ltac:(unfold ids; set_solver) ltac:(done) calls ∅ (client_of o))
    as (rs & α' & st' & E & _ & Hr).
  - exact (client_of_ready o Ho).
  - unfold calls. repeat constructor; vm_compute; try congruence; intros e [= <-]; cbn; congruence.
  - exists o, rs, α', st'. exact (conj Ho (conj E Hr)).
Defined.
End ClientAn521.
