(* ===== verification/BootFlash.v ===== *)
(** * Bootloader: flash areas

    [bl2/ext/mcuboot/flash_map.c]: the partition table of the bootloader over the
    CMSIS flash driver, and the data of [image.h] and [bootutil_priv.h] the other
    files of the bootloader keep.

    A function that returns a code is a value of [BM]: [Ok] is the code 0, [Err]
    any other, and [Fault] an [assert] that fails (the files are compiled with
    assertions).  The build defines [MCUBOOT_USE_FLASH_AREA_GET_SECTORS]. *)

From S2P Require Import Prelude FlashDriver.

(** [flash_layout.h] of a board, and [GetInfo] of its driver. *)
Class boot_layout := {
  FLASH_BASE_ADDRESS : Z;
  FLASH_AREA_IMAGE_SECTOR_SIZE : Z;
  FLASH_AREA_IMAGE_0_OFFSET : Z;
  FLASH_AREA_IMAGE_0_SIZE : Z;
  FLASH_AREA_IMAGE_1_OFFSET : Z;
  FLASH_AREA_IMAGE_1_SIZE : Z;
  FLASH_AREA_IMAGE_SCRATCH_OFFSET : Z;
  FLASH_AREA_IMAGE_SCRATCH_SIZE : Z;
  GetInfo : ARM_FLASH_INFO;
}.

(** ** Data *)

Record flash_area := FlashArea { fa_id : Z; fa_device_id : Z; fa_off : Z; fa_size : Z }.

Record boot_sector_t := FlashSector { fs_off : Z; fs_size : Z }.

Record image_version := ImageVersion { iv_major : Z; iv_minor : Z; iv_revision : Z; iv_build_num : Z }.

Record image_header := ImageHeader {
  ih_magic : Z;
  ih_load_addr : Z;
  ih_hdr_size : Z;
  ih_img_size : Z;
  ih_flags : Z;
  ih_ver : image_version;
}.

(** [imgs[slot]] of the state of the bootloader. *)
Record boot_img := BootImg {
  hdr : image_header;
  img_area : option flash_area;
  sectors : list boot_sector_t;
  num_sectors : Z;
}.

Record boot_loader_state := BootLoaderState {
  img0 : boot_img;
  img1 : boot_img;
  scratch_area : option flash_area;
  write_sz : Z;
}.

(** The memory of the bootloader; [ref_counts] are the use counts of the table. *)
Record boot_state (D : Type) := BootState {
  bt_dev : D;
  ref_counts : list Z;
  boot_data : boot_loader_state;
}.
Arguments BootState {D}.
Arguments bt_dev {D}.
Arguments ref_counts {D}.
Arguments boot_data {D}.

Definition FLASH_DEVICE_ID : Z := 100.
Definition FLASH_AREA_IMAGE_0 : Z := 1.
Definition FLASH_AREA_IMAGE_1 : Z := 2.
Definition FLASH_AREA_IMAGE_SCRATCH : Z := 3.

Definition BOOT_EFLASH : Z := 1.
Definition BOOT_EBADIMAGE : Z := 3.
Definition BOOT_EBADVECT : Z := 4.
Definition BOOT_EBADARGS : Z := 7.
Definition EINVAL : Z := 22.

Definition BOOT_MAX_IMG_SECTORS : Z := 256.

Section flash_map.
  Context {D : Type} `{!ARM_DRIVER_FLASH D} {Layout : boot_layout}.

Definition BM (A : Type) : Type := M (boot_state D) Z A.

(** [assert(rc == 0)] after a call, and [assert] of a condition. *)
Definition asserted {A} (m : BM A) : BM A := fun s =>
  match m s with (Err _, s') => (Fault, s') | r => r end.

Definition assert (b : bool) : BM unit := if b then ret tt else fault.

(** ** The table *)

Definition part_map : list flash_area :=
  [ FlashArea FLASH_AREA_IMAGE_0 FLASH_DEVICE_ID FLASH_AREA_IMAGE_0_OFFSET FLASH_AREA_IMAGE_0_SIZE;
    FlashArea FLASH_AREA_IMAGE_1 FLASH_DEVICE_ID FLASH_AREA_IMAGE_1_OFFSET FLASH_AREA_IMAGE_1_SIZE;
    FlashArea FLASH_AREA_IMAGE_SCRATCH FLASH_DEVICE_ID FLASH_AREA_IMAGE_SCRATCH_OFFSET FLASH_AREA_IMAGE_SCRATCH_SIZE ].

Definition flash_device_base (fd_id : Z) : BM Z :=
  if negb (fd_id =? FLASH_DEVICE_ID) then fail (- EINVAL) else ret FLASH_BASE_ADDRESS.

(** The loop of [flash_area_open]: the entry with [id] and its place. *)
Fixpoint area_index (id : Z) (entries : list flash_area) (i : nat) : option (nat * flash_area) :=
  match entries with
  | [] => None
  | area :: entries => if id =? fa_id area then Some (i, area) else area_index id entries (S i)
  end.

Definition set_ref (i : nat) (n : Z) (s : boot_state D) : boot_state D :=
  BootState (bt_dev s) (<[i := n]> (ref_counts s)) (boot_data s).

Definition ref_count (i : nat) (s : boot_state D) : Z := default 0 (ref_counts s !! i).

Definition flash_area_open (id : Z) : BM flash_area :=
  match area_index id part_map 0 with
  | None => fail (-1)
  | Some (i, area) => modify (fun s => set_ref i (u32 (ref_count i s + 1)) s) ;; ret area
  end.

Definition flash_area_close (area : option flash_area) : BM unit :=
  match area with
  | None => ret tt
  | Some area =>
      match area_index (fa_id area) part_map 0 with
      | None => ret tt
      | Some (i, _) =>
          n <- gets (ref_count i) ;;
          if n =? 0 then ret tt else modify (set_ref i (n - 1))
      end
  end.

(** [m], then [flash_area_close], on success and on the error path. *)
Definition closing {A} (area : option flash_area) (m : BM A) : BM A := fun s =>
  match m s with
  | (Fault, s') => (Fault, s')
  | (r, s') => (r, snd (flash_area_close area s'))
  end.

(** The number of areas [flash_area_warn_on_open] warns about. *)
Definition flash_area_warn_on_open : BM nat :=
  gets (fun s => length (filter (fun n => n <> 0) (ref_counts s))).

(** ** Access *)

Definition flash_area_read (area : flash_area) (off len : Z) : BM (list byte) := fun s =>
  let '(rc, bs) := ReadData (u32 (fa_off area + off)) len (bt_dev s) in
  (if rc =? 0 then Ok bs else Err rc, s).

Definition with_device (d : D) (s : boot_state D) : boot_state D := BootState d (ref_counts s) (boot_data s).

Definition flash_area_write (area : flash_area) (off : Z) (src : list byte) : BM unit := fun s =>
  let '(rc, d) := ProgramData (u32 (fa_off area + off)) src (bt_dev s) in
  (if rc =? 0 then Ok tt else Err rc, with_device d s).

(** The loop of [flash_area_erase], with at most [fuel] sectors to erase. *)
Fixpoint erase_sectors_loop (fuel : nat) (area : flash_area) (off len deleted_len : Z) : BM unit := fun s =>
  if deleted_len <? len then
    match fuel with
    | O => (Fault, s)
    | S fuel =>
        let '(rc, d) := EraseSector (u32 (fa_off area + off)) (bt_dev s) in
        if negb (rc =? 0) then (Err rc, with_device d s)
        else erase_sectors_loop fuel area (u32 (off + sector_size GetInfo)) len
               (u32 (deleted_len + sector_size GetInfo)) (with_device d s)
    end
  else (Ok tt, s).

(** The layout of the sectors is uniform; one step more than the sectors of [len]
    is enough for the loop. *)
Definition flash_area_erase (area : flash_area) (off len : Z) : BM unit :=
  erase_sectors_loop (Z.to_nat (len / sector_size GetInfo + 1)) area off len 0.

Definition flash_area_align (area : flash_area) : Z := u8 (program_unit GetInfo).

Definition flash_area_id_from_image_slot (slot : Z) : Z := slot + FLASH_AREA_IMAGE_0.

(** ** Sectors *)

Definition validate_idx (idx : Z) : BM (Z * Z) :=
  if idx =? FLASH_AREA_IMAGE_0 then ret (FLASH_AREA_IMAGE_0_OFFSET, FLASH_AREA_IMAGE_0_SIZE)
  else if idx =? FLASH_AREA_IMAGE_1 then ret (FLASH_AREA_IMAGE_1_OFFSET, FLASH_AREA_IMAGE_1_SIZE)
  else if idx =? FLASH_AREA_IMAGE_SCRATCH then ret (FLASH_AREA_IMAGE_SCRATCH_OFFSET, FLASH_AREA_IMAGE_SCRATCH_SIZE)
  else fail (-1).

(** The loop of [flash_area_get_sectors] from sector [cnt], with room for [room]
    more. *)
Fixpoint get_sectors_loop (room : nat) (rem_len cnt : Z) : option (list boot_sector_t) :=
  match room with
  | O => Some []
  | S room =>
      if negb (0 <? rem_len) then Some []
      else if rem_len <? FLASH_AREA_IMAGE_SECTOR_SIZE then None
      else
        sectors ← get_sectors_loop room (rem_len - FLASH_AREA_IMAGE_SECTOR_SIZE) (cnt + 1);
        Some (FlashSector (u32 (FLASH_AREA_IMAGE_SECTOR_SIZE * cnt)) FLASH_AREA_IMAGE_SECTOR_SIZE :: sectors)
  end.

(** The sectors of an area, at most [max_cnt]; their number is the new [*cnt]. *)
Definition flash_area_get_sectors (idx max_cnt : Z) : BM (list boot_sector_t) :=
  range <- validate_idx idx ;;
  let len := snd range in
  if max_cnt <? 1 then fail (-1)
  else match get_sectors_loop (Z.to_nat max_cnt) len 0 with
       | None => fail (-1)
       | Some sectors => ret sectors
       end.
End flash_map.
