(* ===== verification/BootUtil.v ===== *)
(** * Bootloader: image trailers

    [bootutil/src/bootutil_misc.c]: the trailer at the end of each area (the
    status of a swap, its size, the flags and the magic), what it says about the
    swap to do, and the requests of the running system. *)

From S2P Require Import Prelude FlashDriver BootFlash.

(** ** Data *)

Definition BOOT_MAGIC_GOOD : Z := 1.
Definition BOOT_MAGIC_BAD : Z := 2.
Definition BOOT_MAGIC_UNSET : Z := 3.

(** The trailer of the scratch area has no [copy_done]: [None]. *)
Record boot_swap_state := BootSwapState { magic : Z; copy_done : option Z; image_ok : Z }.

Definition BOOT_STATUS_STATE_COUNT : Z := 3.
Definition BOOT_STATUS_MAX_ENTRIES : Z := 256.

Definition BOOT_FLAG_SET : Z := 1.
Definition BOOT_FLAG_UNSET : Z := 0xff.

Inductive boot_flag := BOOT_FLAG_IMAGE_OK | BOOT_FLAG_COPY_DONE.

Definition boot_img_magic : list Z := [0xf395c277; 0x7fefd260; 0x0f505235; 0x8079b62c].

Definition BOOT_MAGIC_SZ : Z := 16.
Definition BOOT_MAX_ALIGN : Z := 8.

(** The words of [boot_img_magic] in memory. *)
Definition boot_img_magic_bytes : list byte := boot_img_magic ≫= put32.

Inductive swap_type_t :=
  | BOOT_SWAP_TYPE_NONE
  | BOOT_SWAP_TYPE_TEST
  | BOOT_SWAP_TYPE_PERM
  | BOOT_SWAP_TYPE_REVERT
  | BOOT_SWAP_TYPE_FAIL
  | BOOT_SWAP_TYPE_PANIC.

#[global] Instance swap_type_eq_decision : EqDecision swap_type_t.
Proof. solve_decision. Defined.

Record boot_swap_table := BootSwapTable {
  magic_slot0 : Z;
  magic_slot1 : Z;
  image_ok_slot0 : Z;
  image_ok_slot1 : Z;
  copy_done_slot0 : Z;
  swap_type : swap_type_t;
}.

Definition boot_swap_tables : list boot_swap_table :=
  [ BootSwapTable 0 BOOT_MAGIC_GOOD 0 0xff 0 BOOT_SWAP_TYPE_TEST;
    BootSwapTable 0 BOOT_MAGIC_GOOD 0 0x01 0 BOOT_SWAP_TYPE_PERM;
    BootSwapTable BOOT_MAGIC_GOOD BOOT_MAGIC_UNSET 0xff 0 0x01 BOOT_SWAP_TYPE_REVERT ].

Definition bytes_eqb (bs bs' : list byte) : bool := bool_decide (bs = bs').

Section misc.
  Context {D : Type} `{!ARM_DRIVER_FLASH D} {Layout : boot_layout}.
  Local Abbreviation BM := (BM (D := D)).

(** [bs] are the bytes of the four words. *)
Definition boot_magic_code (bs : list byte) : Z :=
  if bytes_eqb bs boot_img_magic_bytes then BOOT_MAGIC_GOOD
  else if forallb (fun i => get32 (slice (4 * i) 4 bs) =? 0xffffffff) [0; 1; 2; 3] then BOOT_MAGIC_UNSET
  else BOOT_MAGIC_BAD.

(** ** Offsets *)

Definition boot_slots_trailer_sz (min_write_sz : Z) : Z :=
  u32 (BOOT_STATUS_MAX_ENTRIES * BOOT_STATUS_STATE_COUNT * min_write_sz + BOOT_MAX_ALIGN * 3 + BOOT_MAGIC_SZ).

Definition boot_scratch_trailer_sz (min_write_sz : Z) : Z :=
  u32 (BOOT_STATUS_STATE_COUNT * min_write_sz + BOOT_MAX_ALIGN * 2 + BOOT_MAGIC_SZ).

Definition boot_magic_off (fap : flash_area) : Z := u32 (fa_size fap - BOOT_MAGIC_SZ).

Definition boot_status_entries (fap : flash_area) : Z :=
  if (fa_id fap =? FLASH_AREA_IMAGE_0) || (fa_id fap =? FLASH_AREA_IMAGE_1)
  then BOOT_STATUS_STATE_COUNT * BOOT_STATUS_MAX_ENTRIES
  else if fa_id fap =? FLASH_AREA_IMAGE_SCRATCH then BOOT_STATUS_STATE_COUNT
  else BOOT_EBADARGS.

Definition boot_status_off (fap : flash_area) : BM Z :=
  let elem_sz := flash_area_align fap in
  let off_from_end :=
    if fa_id fap =? FLASH_AREA_IMAGE_SCRATCH then boot_scratch_trailer_sz elem_sz
    else boot_slots_trailer_sz elem_sz in
  assert (off_from_end <=? fa_size fap) ;;
  ret (fa_size fap - off_from_end).

Definition boot_copy_done_off (fap : flash_area) : BM Z :=
  assert (negb (fa_id fap =? FLASH_AREA_IMAGE_SCRATCH)) ;;
  ret (u32 (fa_size fap - BOOT_MAGIC_SZ - BOOT_MAX_ALIGN * 2)).

Definition boot_image_ok_off (fap : flash_area) : Z := u32 (fa_size fap - BOOT_MAGIC_SZ - BOOT_MAX_ALIGN).

Definition boot_swap_size_off (fap : flash_area) : Z :=
  if fa_id fap =? FLASH_AREA_IMAGE_SCRATCH then u32 (fa_size fap - BOOT_MAGIC_SZ - BOOT_MAX_ALIGN * 2)
  else u32 (fa_size fap - BOOT_MAGIC_SZ - BOOT_MAX_ALIGN * 3).

(** ** Reading *)

Definition read_byte (fap : flash_area) (off : Z) : BM Z :=
  bs <- flash_area_read fap off 1 ;; ret (b2z (znth bs 0)).

Definition boot_read_swap_state (fap : flash_area) : BM boot_swap_state :=
  words <- or_return (flash_area_read fap (boot_magic_off fap) BOOT_MAGIC_SZ) BOOT_EFLASH ;;
  copy_done <- (if negb (fa_id fap =? FLASH_AREA_IMAGE_SCRATCH) then
                  off <- boot_copy_done_off fap ;;
                  b <- or_return (read_byte fap off) BOOT_EFLASH ;; ret (Some b)
                else ret None) ;;
  image_ok <- or_return (read_byte fap (boot_image_ok_off fap)) BOOT_EFLASH ;;
  ret (BootSwapState (boot_magic_code words) copy_done image_ok).

Definition boot_read_swap_state_by_id (flash_area_id : Z) : BM boot_swap_state :=
  if (flash_area_id =? FLASH_AREA_IMAGE_SCRATCH) || (flash_area_id =? FLASH_AREA_IMAGE_0)
     || (flash_area_id =? FLASH_AREA_IMAGE_1)
  then
    fap <- or_return (flash_area_open flash_area_id) BOOT_EFLASH ;;
    closing (Some fap) (boot_read_swap_state fap)
  else fail BOOT_EBADARGS.

(** The swap size behind the magic of the area, when the magic is good. *)
Definition swap_size_at (fap : flash_area) : BM Z :=
  bs <- or_return (flash_area_read fap (boot_swap_size_off fap) 4) BOOT_EFLASH ;; ret (get32 bs).

Definition boot_read_swap_size : BM Z :=
  fap <- or_return (flash_area_open FLASH_AREA_IMAGE_0) BOOT_EFLASH ;;
  found <- closing (Some fap)
    (words <- or_return (flash_area_read fap (boot_magic_off fap) BOOT_MAGIC_SZ) BOOT_EFLASH ;;
     if bytes_eqb words boot_img_magic_bytes then size <- swap_size_at fap ;; ret (Some size) else ret None) ;;
  match found with
  | Some size => ret size
  | None =>
      fap <- or_return (flash_area_open FLASH_AREA_IMAGE_SCRATCH) BOOT_EFLASH ;;
      closing (Some fap)
        (words <- or_return (flash_area_read fap (boot_magic_off fap) BOOT_MAGIC_SZ) BOOT_EFLASH ;;
         assert (bytes_eqb words boot_img_magic_bytes) ;;
         swap_size_at fap)
  end.

(** ** Writing *)

Definition boot_write_magic (fap : flash_area) : BM unit :=
  or_return (flash_area_write fap (boot_magic_off fap) boot_img_magic_bytes) BOOT_EFLASH.

(** A buffer of [BOOT_MAX_ALIGN] bytes 0xff that starts with [bs]. *)
Definition aligned_buf (bs : list byte) : list byte := splice 0 bs (replicate 8 Byte.xff).

Definition boot_write_flag (flag : boot_flag) (fap : flash_area) : BM unit :=
  off <- match flag with
         | BOOT_FLAG_COPY_DONE => boot_copy_done_off fap
         | BOOT_FLAG_IMAGE_OK => ret (boot_image_ok_off fap)
         end ;;
  let align := flash_area_align fap in
  assert (align <=? BOOT_MAX_ALIGN) ;;
  or_return (flash_area_write fap off (ztake align (aligned_buf [z2b BOOT_FLAG_SET]))) BOOT_EFLASH.

Definition boot_write_copy_done (fap : flash_area) : BM unit := boot_write_flag BOOT_FLAG_COPY_DONE fap.
Definition boot_write_image_ok (fap : flash_area) : BM unit := boot_write_flag BOOT_FLAG_IMAGE_OK fap.

Definition boot_write_swap_size (fap : flash_area) (swap_size : Z) : BM unit :=
  let off := boot_swap_size_off fap in
  let align := flash_area_align fap in
  assert (align <=? BOOT_MAX_ALIGN) ;;
  let align := if align <? 4 then 4 else align in
  or_return (flash_area_write fap off (ztake align (aligned_buf (put32 swap_size)))) BOOT_EFLASH.

(** ** The swap to do *)

(** 0 in the table means any value. *)
Definition any_or (v : Z) (field : option Z) : bool :=
  (v =? 0) || match field with Some f => v =? f | None => false end.

Fixpoint swap_type_loop (tables : list boot_swap_table) (slot0 slot1 : boot_swap_state) : swap_type_t :=
  match tables with
  | [] => BOOT_SWAP_TYPE_NONE
  | table :: tables =>
      if any_or (magic_slot0 table) (Some (magic slot0)) && any_or (magic_slot1 table) (Some (magic slot1))
         && any_or (image_ok_slot0 table) (Some (image_ok slot0))
         && any_or (image_ok_slot1 table) (Some (image_ok slot1)) && any_or (copy_done_slot0 table) (copy_done slot0)
      then swap_type table
      else swap_type_loop tables slot0 slot1
  end.

Definition boot_swap_type : BM swap_type_t :=
  r0 <- try (boot_read_swap_state_by_id FLASH_AREA_IMAGE_0) ;;
  match r0 with
  | None => ret BOOT_SWAP_TYPE_PANIC
  | Some slot0 =>
      r1 <- try (boot_read_swap_state_by_id FLASH_AREA_IMAGE_1) ;;
      match r1 with
      | None => ret BOOT_SWAP_TYPE_PANIC
      | Some slot1 => ret (swap_type_loop boot_swap_tables slot0 slot1)
      end
  end.

(** ** Requests of the running system *)

Definition boot_set_pending (permanent : bool) : BM unit :=
  state_slot1 <- boot_read_swap_state_by_id FLASH_AREA_IMAGE_1 ;;
  if magic state_slot1 =? BOOT_MAGIC_GOOD then ret tt
  else if magic state_slot1 =? BOOT_MAGIC_UNSET then
    fap <- or_return (flash_area_open FLASH_AREA_IMAGE_1) BOOT_EFLASH ;;
    closing (Some fap)
      (boot_write_magic fap ;;
       if permanent then boot_write_image_ok fap else ret tt)
  else fault.

Definition boot_set_confirmed : BM unit :=
  state_slot0 <- boot_read_swap_state_by_id FLASH_AREA_IMAGE_0 ;;
  if magic state_slot0 =? BOOT_MAGIC_UNSET then ret tt
  else if magic state_slot0 =? BOOT_MAGIC_BAD then fail BOOT_EBADVECT
  else if match copy_done state_slot0 with Some b => b =? BOOT_FLAG_UNSET | None => false end then fail BOOT_EBADVECT
  else if negb (image_ok state_slot0 =? BOOT_FLAG_UNSET) then ret tt
  else
    fap <- or_return (flash_area_open FLASH_AREA_IMAGE_0) BOOT_EFLASH ;;
    closing (Some fap) (boot_write_image_ok fap).
End misc.
