(* ===== verification/BootImage.v ===== *)
(** * Bootloader: validation of images

    [bootutil/src/image_validate.c] and [image_rsa.c]: the hash of an image, the
    walk over the fields behind it, and the verification of an RSA-PSS signature.
    The functions of mbedtls they call are a parameter. *)

From S2P Require Import Prelude FlashDriver BootFlash BootUtil.

(** ** Parameters *)

(** The functions of mbedtls: [asn1_get_tag] gives the new position and the
    length of the content, [asn1_get_mpi] the number it read, if any, and the new
    position, and [rsa_public] the block it computed, if any. *)
Class mbedtls := {
  sha256_context : Type;
  bootutil_sha256_init : sha256_context;
  bootutil_sha256_update : sha256_context -> list byte -> sha256_context;
  bootutil_sha256_finish : sha256_context -> list byte;
  mbedtls_asn1_get_tag : list byte -> Z -> Z -> option (Z * Z);
  mbedtls_asn1_get_mpi : list byte -> Z -> option Z * Z;
  mbedtls_rsa_check_pubkey : Z -> Z -> Z;
  mbedtls_mpi_size : Z -> Z;
  mbedtls_rsa_public : Z -> Z -> list byte -> option (list byte);
}.

(** [bootutil_keys] of [keys.c]. *)
Class bootutil_key_list := bootutil_keys : list (list byte).

(** ** Data of [image.h] *)

Definition IMAGE_MAGIC : Z := 0x96f3b83d.
Definition IMAGE_TLV_INFO_MAGIC : Z := 0x6907.
Definition IMAGE_F_NON_BOOTABLE : Z := 0x10.
Definition IMAGE_HEADER_SIZE : Z := 32.
Definition IMAGE_TLV_KEYHASH : Z := 0x01.
Definition IMAGE_TLV_SHA256 : Z := 0x10.
Definition IMAGE_TLV_RSA2048_PSS : Z := 0x20.

Definition get16 (bs : list byte) : Z := b2z (znth bs 0) + 256 * b2z (znth bs 1).

Definition decode_image_header (bs : list byte) : image_header := {|
  ih_magic := get32 (slice 0 4 bs);
  ih_load_addr := get32 (slice 4 4 bs);
  ih_hdr_size := get16 (slice 8 2 bs);
  ih_img_size := get32 (slice 12 4 bs);
  ih_flags := get32 (slice 16 4 bs);
  ih_ver := ImageVersion (b2z (znth bs 20)) (b2z (znth bs 21)) (get16 (slice 22 2 bs)) (get32 (slice 24 4 bs));
|}.

Record image_tlv_info := ImageTlvInfo { it_magic : Z; it_tlv_tot : Z }.
Record image_tlv := ImageTlv { it_type : Z; it_len : Z }.

Definition decode_tlv_info (bs : list byte) : image_tlv_info :=
  ImageTlvInfo (get16 (slice 0 2 bs)) (get16 (slice 2 2 bs)).
Definition decode_tlv (bs : list byte) : image_tlv := ImageTlv (b2z (znth bs 0)) (get16 (slice 2 2 bs)).

(** ** Signatures *)

Section rsa.
  Context {Mbed : mbedtls} {Keys : bootutil_key_list}.

Definition sha256 (parts : list (list byte)) : list byte :=
  bootutil_sha256_finish (foldl bootutil_sha256_update bootutil_sha256_init parts).

Definition PSS_EMLEN : Z := 256.
Definition PSS_HLEN : Z := 32.
Definition PSS_SLEN : Z := 32.
Definition PSS_MASK_LEN : Z := 256 - PSS_HLEN - 1.
Definition PSS_HASH_OFFSET : Z := PSS_MASK_LEN.
Definition PSS_MASK_ZERO_COUNT : Z := PSS_MASK_LEN - PSS_SLEN - 1.
Definition PSS_MASK_ONE_POS : Z := PSS_MASK_ZERO_COUNT.
Definition PSS_MASK_SALT_POS : Z := PSS_MASK_ONE_POS + 1.
Definition MBEDTLS_MPI_MAX_SIZE : Z := 256.

(** [MBEDTLS_ASN1_CONSTRUCTED | MBEDTLS_ASN1_SEQUENCE] *)
Definition ASN1_SEQUENCE : Z := 0x30.

(** The modulus, the exponent and the length of the key, or the code. *)
Definition bootutil_parse_rsakey (key : list byte) : (Z * Z * Z) + Z :=
  let end_ := zlen key in
  match mbedtls_asn1_get_tag key 0 ASN1_SEQUENCE with
  | None => inr (-1)
  | Some (p, len) =>
      if negb (p + len =? end_) then inr (-2)
      else
        let '(n, p) := mbedtls_asn1_get_mpi key p in
        let '(e, p) := mbedtls_asn1_get_mpi key p in
        match n, e with
        | Some n, Some e =>
            if negb (p =? end_) then inr (-4)
            else if negb (mbedtls_rsa_check_pubkey n e =? 0) then inr (-5)
            else inl (n, e, mbedtls_mpi_size n)
        | _, _ => inr (-3)
        end
  end.

(** The loop of [pss_mgf1]; [steps] of [PSS_HLEN] bytes cover [count]. *)
Fixpoint mgf1_loop (steps : nat) (hash : list byte) (counter count : Z) : list byte :=
  match steps with
  | O => []
  | S steps =>
      if 0 <? count then
        let htmp := sha256 [hash; [Byte.x00; Byte.x00; Byte.x00; z2b counter]] in
        let bytes := if count <? PSS_HLEN then count else PSS_HLEN in
        ztake bytes htmp ++ mgf1_loop steps hash (u8 (counter + 1)) (count - bytes)
      else []
  end.

Definition pss_mgf1 (hash : list byte) : list byte := mgf1_loop 7 hash 0 PSS_MASK_LEN.

Definition xor_bytes (xs ys : list byte) : list byte :=
  zip_with (fun x y => z2b (Z.lxor (b2z x) (b2z y))) xs ys.

(** [db_mask[0] &= 0x7F] *)
Definition clear_top (db : list byte) : list byte :=
  match db with [] => [] | b :: db => z2b (Z.land (b2z b) 0x7F) :: db end.

Definition bootutil_cmp_rsasig (n e len : Z) (hash : list byte) (hlen : Z) (sig : list byte) : Z :=
  if negb (len =? PSS_EMLEN) || (MBEDTLS_MPI_MAX_SIZE <? PSS_EMLEN) then -1
  else if negb (hlen =? PSS_HLEN) then -1
  else match mbedtls_rsa_public n e sig with
  | None => -1
  | Some em =>
      if negb (b2z (znth em (PSS_EMLEN - 1)) =? 0xbc) then -1
      else
        let h := slice PSS_HASH_OFFSET PSS_HLEN em in
        let db := clear_top (xor_bytes (pss_mgf1 h) (ztake PSS_MASK_LEN em)) in
        if negb (forallb (fun b => b2z b =? 0) (ztake PSS_MASK_ZERO_COUNT db)) then -1
        else if negb (b2z (znth db PSS_MASK_ONE_POS) =? 1) then -1
        else
          let h2 := sha256 [replicate 8 Byte.x00; ztake PSS_HLEN hash; slice PSS_MASK_SALT_POS PSS_SLEN db] in
          if negb (bytes_eqb h2 h) then -1 else 0
  end.

(** [None] when there is no key [key_id]. *)
Definition bootutil_verify_sig (hash : list byte) (hlen : Z) (sig : list byte) (slen : Z) (key_id : Z) : option Z :=
  key ← bootutil_keys !! Z.to_nat key_id;
  match bootutil_parse_rsakey key with
  | inr rc => Some rc
  | inl (n, e, len) => if negb (slen =? len) then Some 0 else Some (bootutil_cmp_rsasig n e len hash hlen sig)
  end.
End rsa.

(** ** Validation *)

(** At most [2 ^ n] steps of a loop: [inl] goes on, [inr] is the result. *)
Fixpoint pow_loop {S E St R : Type} (n : nat) (body : St -> M S E (St + R)) (st : St) : M S E (St + R) :=
  match n with
  | O => body st
  | Datatypes.S n =>
      r <- pow_loop n body st ;;
      match r with inl st => pow_loop n body st | inr r => ret (inr r) end
  end.

Section validate.
  Context {D : Type} `{!ARM_DRIVER_FLASH D} {Layout : boot_layout} {Mbed : mbedtls} {Keys : bootutil_key_list}.
  Local Abbreviation BM := (BM (D := D)).

(** The loop of [bootutil_img_hash] from offset [off]. *)
Fixpoint img_hash_loop (fuel : nat) (fap : flash_area) (tmp_buf_sz size off : Z) (ctx : sha256_context)
    : BM sha256_context :=
  if off <? size then
    match fuel with
    | O => fault
    | S fuel =>
        let blk_sz := if tmp_buf_sz <? size - off then tmp_buf_sz else size - off in
        bs <- flash_area_read fap off blk_sz ;;
        img_hash_loop fuel fap tmp_buf_sz size (off + blk_sz) (bootutil_sha256_update ctx bs)
    end
  else ret ctx.

(** [seed] is null. *)
Definition bootutil_img_hash (h : image_header) (fap : flash_area) (tmp_buf_sz : Z) : BM (list byte) :=
  let size := u32 (ih_img_size h + ih_hdr_size h) in
  ctx <- img_hash_loop (Z.to_nat (size / tmp_buf_sz + 1)) fap tmp_buf_sz size 0 bootutil_sha256_init ;;
  ret (bootutil_sha256_finish ctx).

Definition EXPECTED_SIG_TLV : Z := IMAGE_TLV_RSA2048_PSS.
Definition EXPECTED_SIG_LEN (x : Z) : bool := x =? 256.

(** The loop of [bootutil_find_key]: [memcmp] of the first bytes of the hash. *)
Fixpoint find_key_loop (keys : list (list byte)) (i : Z) (keyhash : list byte) : Z :=
  match keys with
  | [] => -1
  | key :: keys =>
      if bytes_eqb (ztake (zlen keyhash) (sha256 [key])) keyhash then i else find_key_loop keys (i + 1) keyhash
  end.

Definition bootutil_find_key (keyhash : list byte) : BM Z :=
  assert (zlen keyhash <=? 32) ;; ret (find_key_loop bootutil_keys 0 keyhash).

(** [off], [sha256_valid], [valid_signature] and [key_id]. *)
Record validate_state := ValidateState { v_off : Z; sha256_valid : bool; valid_signature : bool; key_id : Z }.

(** One round of the loop over the fields; the loop ends at [end_]. *)
Definition validate_tlv (fap : flash_area) (hash : list byte) (end_ : Z) (v : validate_state)
    : BM (validate_state + validate_state) :=
  let off := v_off v in
  if negb (off <? end_) then ret (inr v)
  else
    bs <- flash_area_read fap off 4 ;;
    let tlv := decode_tlv bs in
    let next := u32 (off + 4 + it_len tlv) in
    if it_type tlv =? IMAGE_TLV_SHA256 then
      if negb (it_len tlv =? 32) then fail (-1)
      else
        buf <- flash_area_read fap (u32 (off + 4)) 32 ;;
        if negb (bytes_eqb hash buf) then fail (-1)
        else ret (inl (ValidateState next true (valid_signature v) (key_id v)))
    else if it_type tlv =? IMAGE_TLV_KEYHASH then
      if 32 <? it_len tlv then fail (-1)
      else
        buf <- flash_area_read fap (u32 (off + 4)) (it_len tlv) ;;
        k <- bootutil_find_key buf ;;
        ret (inl (ValidateState next (sha256_valid v) (valid_signature v) k))
    else if it_type tlv =? EXPECTED_SIG_TLV then
      if (key_id v <? 0) || (zlen bootutil_keys <=? key_id v)
      then ret (inl (ValidateState next (sha256_valid v) (valid_signature v) (-1)))
      else if negb (EXPECTED_SIG_LEN (it_len tlv)) || (256 <? it_len tlv) then fail (-1)
      else
        buf <- or_return (flash_area_read fap (u32 (off + 4)) (it_len tlv)) (-1) ;;
        match bootutil_verify_sig hash 32 buf (it_len tlv) (key_id v) with
        | None => fault
        | Some rc => ret (inl (ValidateState next (sha256_valid v) (valid_signature v || (rc =? 0)) (-1)))
        end
    else ret (inl (ValidateState next (sha256_valid v) (valid_signature v) (key_id v))).

Definition bootutil_img_validate (h : image_header) (fap : flash_area) (tmp_buf_sz : Z) : BM unit :=
  hash <- bootutil_img_hash h fap tmp_buf_sz ;;
  let off := u32 (ih_img_size h + ih_hdr_size h) in
  bs <- flash_area_read fap off 4 ;;
  let info := decode_tlv_info bs in
  if negb (it_magic info =? IMAGE_TLV_INFO_MAGIC) then fail (-1)
  else
    let end_ := u32 (off + it_tlv_tot info) in
    r <- pow_loop 32 (validate_tlv fap hash end_) (ValidateState (u32 (off + 4)) false false (-1)) ;;
    match r with
    | inl _ => fault
    | inr v => if negb (sha256_valid v) then fail (-1) else if negb (valid_signature v) then fail (-1) else ret tt
    end.
End validate.
