(* ===== verification/BootLoader.v ===== *)
(** * Bootloader: the swap of images

    [bootutil/src/loader.c] and [bl2_main.c]: the status of a swap and where it is
    kept, the swap itself, the validation of the slots, and the boot. *)

From S2P Require Import Prelude FlashDriver BootFlash BootUtil BootImage.

(** ** Data *)

Record boot_status := BootStatus { idx : Z; state : Z; use_scratch : bool; swap_size : Z }.

Inductive status_source_t := BOOT_STATUS_SOURCE_NONE | BOOT_STATUS_SOURCE_SCRATCH | BOOT_STATUS_SOURCE_SLOT0.

Record boot_status_table := BootStatusTable {
  bst_magic_slot0 : Z;
  bst_magic_scratch : Z;
  bst_copy_done_slot0 : Z;
  bst_status_source : status_source_t;
}.

Definition boot_status_tables : list boot_status_table :=
  [ BootStatusTable BOOT_MAGIC_GOOD 0 0x01 BOOT_STATUS_SOURCE_NONE;
    BootStatusTable BOOT_MAGIC_GOOD 0 0xff BOOT_STATUS_SOURCE_SLOT0;
    BootStatusTable 0 BOOT_MAGIC_GOOD 0 BOOT_STATUS_SOURCE_SCRATCH;
    BootStatusTable BOOT_MAGIC_UNSET 0 0xff BOOT_STATUS_SOURCE_SLOT0 ].

Record boot_rsp := BootRsp { br_hdr : image_header; br_flash_dev_id : Z; br_image_off : Z }.

Definition BOOT_TMPBUF_SZ : Z := 256.

Section loader.
  Context {D : Type} `{!ARM_DRIVER_FLASH D} {Layout : boot_layout} {Mbed : mbedtls} {Keys : bootutil_key_list}.
  Local Abbreviation BM := (BM (D := D)).

(** ** Accessors of [bootutil_priv.h] *)

Definition img (slot : Z) (st : boot_loader_state) : boot_img := if slot =? 0 then img0 st else img1 st.

Definition set_img (slot : Z) (f : boot_img -> boot_img) : BM unit := modify (fun s =>
  let st := boot_data s in
  BootState (bt_dev s) (ref_counts s)
    (if slot =? 0 then BootLoaderState (f (img0 st)) (img1 st) (scratch_area st) (write_sz st)
     else BootLoaderState (img0 st) (f (img1 st)) (scratch_area st) (write_sz st))).

Definition boot_img_hdr (slot : Z) : BM image_header := gets (fun s => hdr (img slot (boot_data s))).
Definition boot_img_num_sectors (slot : Z) : BM Z := gets (fun s => num_sectors (img slot (boot_data s))).
Definition BOOT_WRITE_SZ : BM Z := gets (fun s => write_sz (boot_data s)).

(** A pointer that is null is not followed. *)
Definition deref {A} (p : option A) : BM A := match p with Some a => ret a | None => fault end.

Definition boot_img_fa_device_id (slot : Z) : BM Z :=
  p <- gets (fun s => img_area (img slot (boot_data s))) ;; a <- deref p ;; ret (fa_device_id a).
Definition boot_img_slot_off (slot : Z) : BM Z :=
  p <- gets (fun s => img_area (img slot (boot_data s))) ;; a <- deref p ;; ret (fa_off a).
Definition boot_scratch_area_size : BM Z :=
  p <- gets (fun s => scratch_area (boot_data s)) ;; a <- deref p ;; ret (fa_size a).

(** The array of sectors has [BOOT_MAX_IMG_SECTORS] elements, zero where nothing
    has been written. *)
Definition img_sector (slot sector : Z) : BM boot_sector_t :=
  if (0 <=? sector) && (sector <? BOOT_MAX_IMG_SECTORS)
  then gets (fun s => default (FlashSector 0 0) (sectors (img slot (boot_data s)) !! Z.to_nat sector))
  else fault.

Definition boot_img_sector_size (slot sector : Z) : BM Z := fs <- img_sector slot sector ;; ret (fs_size fs).

Definition boot_img_sector_off (slot sector : Z) : BM Z :=
  fs <- img_sector slot sector ;; fs0 <- img_sector slot 0 ;; ret (u32 (fs_off fs - fs_off fs0)).

Definition boot_initialize_area (flash_area : Z) : BM unit :=
  if (flash_area =? FLASH_AREA_IMAGE_0) || (flash_area =? FLASH_AREA_IMAGE_1) then
    found <- flash_area_get_sectors flash_area BOOT_MAX_IMG_SECTORS ;;
    set_img (flash_area - FLASH_AREA_IMAGE_0) (fun i => BootImg (hdr i) (img_area i) found (zlen found))
  else fail (-1).

(** ** Where the status is *)

Fixpoint status_source_loop (tables : list boot_status_table) (state_slot0 state_scratch : boot_swap_state)
    : status_source_t :=
  match tables with
  | [] => BOOT_STATUS_SOURCE_NONE
  | table :: tables =>
      if any_or (bst_magic_slot0 table) (Some (magic state_slot0))
         && any_or (bst_magic_scratch table) (Some (magic state_scratch))
         && any_or (bst_copy_done_slot0 table) (copy_done state_slot0)
      then bst_status_source table
      else status_source_loop tables state_slot0 state_scratch
  end.

Definition boot_status_source : BM status_source_t :=
  state_slot0 <- asserted (boot_read_swap_state_by_id FLASH_AREA_IMAGE_0) ;;
  state_scratch <- asserted (boot_read_swap_state_by_id FLASH_AREA_IMAGE_SCRATCH) ;;
  ret (status_source_loop boot_status_tables state_slot0 state_scratch).

Definition boot_previous_swap_type : BM swap_type_t :=
  post_swap_type <- boot_swap_type ;;
  ret (match post_swap_type with
       | BOOT_SWAP_TYPE_NONE => BOOT_SWAP_TYPE_PERM
       | BOOT_SWAP_TYPE_REVERT => BOOT_SWAP_TYPE_TEST
       | BOOT_SWAP_TYPE_PANIC => BOOT_SWAP_TYPE_PANIC
       | _ => BOOT_SWAP_TYPE_FAIL
       end).

(** ** Headers and sectors *)

Definition boot_read_image_size (slot : Z) (h : image_header) : BM Z :=
  fap <- or_return (flash_area_open (flash_area_id_from_image_slot slot)) BOOT_EFLASH ;;
  closing (Some fap)
    (bs <- or_return (flash_area_read fap (u32 (ih_hdr_size h + ih_img_size h)) 4) BOOT_EFLASH ;;
     let info := decode_tlv_info bs in
     if negb (it_magic info =? IMAGE_TLV_INFO_MAGIC) then fail BOOT_EBADIMAGE
     else ret (u32 (ih_hdr_size h + ih_img_size h + it_tlv_tot info))).

Definition boot_read_image_header (slot : Z) : BM unit :=
  fap <- or_return (flash_area_open (flash_area_id_from_image_slot slot)) BOOT_EFLASH ;;
  closing (Some fap)
    (bs <- or_return (flash_area_read fap 0 IMAGE_HEADER_SIZE) BOOT_EFLASH ;;
     set_img slot (fun i => BootImg (decode_image_header bs) (img_area i) (sectors i) (num_sectors i))).

(** A failure for slot 1 is not an error. *)
Definition boot_read_image_headers : BM unit :=
  boot_read_image_header 0 ;; ignore (boot_read_image_header 1).

Definition boot_write_sz : BM Z :=
  fap <- asserted (flash_area_open FLASH_AREA_IMAGE_0) ;;
  let elem_sz := flash_area_align fap in
  flash_area_close (Some fap) ;;
  fap <- asserted (flash_area_open FLASH_AREA_IMAGE_SCRATCH) ;;
  let align := flash_area_align fap in
  flash_area_close (Some fap) ;;
  ret (if elem_sz <? align then align else elem_sz).

(** The loop of [boot_slots_compatible] over the next [n] sectors. *)
Fixpoint compatible_loop (n : nat) (i : Z) : BM bool :=
  match n with
  | O => ret true
  | S n =>
      size_0 <- boot_img_sector_size 0 i ;;
      size_1 <- boot_img_sector_size 1 i ;;
      if negb (size_0 =? size_1) then ret false else compatible_loop n (i + 1)
  end.

Definition boot_slots_compatible : BM bool :=
  num_sectors_0 <- boot_img_num_sectors 0 ;;
  num_sectors_1 <- boot_img_num_sectors 1 ;;
  if negb (num_sectors_0 =? num_sectors_1) then ret false
  else compatible_loop (Z.to_nat num_sectors_0) 0.

Definition boot_read_sectors : BM unit :=
  or_return (boot_initialize_area FLASH_AREA_IMAGE_0) BOOT_EFLASH ;;
  or_return (boot_initialize_area FLASH_AREA_IMAGE_1) BOOT_EFLASH ;;
  w <- boot_write_sz ;;
  modify (fun s => let st := boot_data s in
    BootState (bt_dev s) (ref_counts s) (BootLoaderState (img0 st) (img1 st) (scratch_area st) w)).

(** ** Status *)

Definition boot_status_internal_off (idx state elem_sz : Z) : Z :=
  u32 (idx * (elem_sz * BOOT_STATUS_STATE_COUNT) + state * elem_sz).

(** The loop of [boot_read_status_bytes] over the next [n] bytes: the index it
    ends with and [found]. *)
Fixpoint status_bytes_loop (n : nat) (fap : flash_area) (off write_sz i : Z) (found : bool) : BM (Z * bool) :=
  match n with
  | O => ret (i, found)
  | S n =>
      status <- or_return (read_byte fap (u32 (off + i * write_sz))) BOOT_EFLASH ;;
      if status =? 0xff
      then if found then ret (i, found) else status_bytes_loop n fap off write_sz (i + 1) found
      else status_bytes_loop n fap off write_sz (i + 1) true
  end.

Definition boot_read_status_bytes (fap : flash_area) (bs : boot_status) : BM boot_status :=
  off <- boot_status_off fap ;;
  w <- BOOT_WRITE_SZ ;;
  r <- status_bytes_loop (Z.to_nat (boot_status_entries fap)) fap off w 0 false ;;
  let '(i, found) := r in
  if found
  then ret (BootStatus ((i - 1) / BOOT_STATUS_STATE_COUNT) ((i - 1) mod BOOT_STATUS_STATE_COUNT)
              (use_scratch bs) (swap_size bs))
  else ret bs.

Definition boot_read_status : BM boot_status :=
  let bs := BootStatus 0 0 false 0 in
  status_loc <- boot_status_source ;;
  match status_loc with
  | BOOT_STATUS_SOURCE_NONE => ret bs
  | BOOT_STATUS_SOURCE_SCRATCH =>
      fap <- or_return (flash_area_open FLASH_AREA_IMAGE_SCRATCH) BOOT_EFLASH ;;
      closing (Some fap) (boot_read_status_bytes fap bs)
  | BOOT_STATUS_SOURCE_SLOT0 =>
      fap <- or_return (flash_area_open FLASH_AREA_IMAGE_0) BOOT_EFLASH ;;
      closing (Some fap) (boot_read_status_bytes fap bs)
  end.

Definition boot_write_status (bs : boot_status) : BM unit :=
  let area_id := if use_scratch bs then FLASH_AREA_IMAGE_SCRATCH else FLASH_AREA_IMAGE_0 in
  fap <- or_return (flash_area_open area_id) BOOT_EFLASH ;;
  closing (Some fap)
    (off <- boot_status_off fap ;;
     w <- BOOT_WRITE_SZ ;;
     let off := u32 (off + boot_status_internal_off (idx bs) (state bs) w) in
     or_return (flash_area_write fap off (ztake (flash_area_align fap) (aligned_buf [z2b (state bs)]))) BOOT_EFLASH).

(** ** Validation of a slot *)

Definition boot_image_check (h : image_header) (fap : flash_area) : BM unit :=
  or_return (bootutil_img_validate h fap BOOT_TMPBUF_SZ) BOOT_EBADIMAGE.

Definition boot_validate_slot (slot : Z) : BM unit :=
  h <- boot_img_hdr slot ;;
  if (ih_magic h =? 0xffffffff) || negb (Z.land (ih_flags h) IMAGE_F_NON_BOOTABLE =? 0) then fail (-1)
  else
    fap <- or_return (flash_area_open (flash_area_id_from_image_slot slot)) BOOT_EFLASH ;;
    valid <- (if negb (ih_magic h =? IMAGE_MAGIC) then ret None else try (boot_image_check h fap)) ;;
    match valid with
    | None =>
        (if negb (slot =? 0) then ignore (flash_area_erase fap 0 (fa_size fap)) else ret tt) ;;
        fail (-1)
    | Some _ => flash_area_close (Some fap)
    end.

Definition boot_validated_swap_type : BM swap_type_t :=
  swap_type <- boot_swap_type ;;
  match swap_type with
  | BOOT_SWAP_TYPE_TEST | BOOT_SWAP_TYPE_PERM | BOOT_SWAP_TYPE_REVERT =>
      r <- try (boot_validate_slot 1) ;;
      ret (match r with None => BOOT_SWAP_TYPE_FAIL | Some _ => swap_type end)
  | _ => ret swap_type
  end.

(** ** Regions *)

(** The loop of [boot_copy_sz] with the [n] sectors up to [n - 1] to look at. *)
Fixpoint copy_sz_loop (n : nat) (scratch_sz sz : Z) : BM (Z * Z) :=
  match n with
  | O => ret (sz, 0)
  | S n =>
      size <- boot_img_sector_size 0 (Z.of_nat n) ;;
      let new_sz := u32 (sz + size) in
      if scratch_sz <? new_sz then ret (sz, Z.of_nat n + 1) else copy_sz_loop n scratch_sz new_sz
  end.

(** The size and the first sector. *)
Definition boot_copy_sz (last_sector_idx : Z) : BM (Z * Z) :=
  scratch_sz <- boot_scratch_area_size ;;
  copy_sz_loop (Z.to_nat (last_sector_idx + 1)) scratch_sz 0.

Definition boot_erase_sector (flash_area_id off sz : Z) : BM unit :=
  fap <- or_return (flash_area_open flash_area_id) BOOT_EFLASH ;;
  closing (Some fap) (or_return (flash_area_erase fap off sz) BOOT_EFLASH).

Definition COPY_BUF_SZ : Z := 1024.

(** The loop of [boot_copy_sector]. *)
Fixpoint copy_loop (fuel : nat) (fap_src fap_dst : flash_area) (off_src off_dst sz bytes_copied : Z) : BM unit :=
  if bytes_copied <? sz then
    match fuel with
    | O => fault
    | S fuel =>
        let chunk_sz := if COPY_BUF_SZ <? sz - bytes_copied then COPY_BUF_SZ else sz - bytes_copied in
        buf <- or_return (flash_area_read fap_src (u32 (off_src + bytes_copied)) chunk_sz) BOOT_EFLASH ;;
        or_return (flash_area_write fap_dst (u32 (off_dst + bytes_copied)) buf) BOOT_EFLASH ;;
        copy_loop fuel fap_src fap_dst off_src off_dst sz (bytes_copied + chunk_sz)
    end
  else ret tt.

Definition boot_copy_sector (flash_area_id_src flash_area_id_dst off_src off_dst sz : Z) : BM unit :=
  fap_src <- or_return (flash_area_open flash_area_id_src) BOOT_EFLASH ;;
  closing (Some fap_src)
    (fap_dst <- or_return (flash_area_open flash_area_id_dst) BOOT_EFLASH ;;
     closing (Some fap_dst) (copy_loop (Z.to_nat (sz / COPY_BUF_SZ + 1)) fap_src fap_dst off_src off_dst sz 0)).

Definition boot_status_init_by_id (flash_area_id : Z) (bs : boot_status) : BM unit :=
  fap <- asserted (flash_area_open flash_area_id) ;;
  swap_state <- asserted (boot_read_swap_state_by_id FLASH_AREA_IMAGE_1) ;;
  (if image_ok swap_state =? BOOT_FLAG_SET then asserted (boot_write_image_ok fap) else ret tt) ;;
  asserted (boot_write_swap_size fap (swap_size bs)) ;;
  asserted (boot_write_magic fap) ;;
  flash_area_close (Some fap).

Definition boot_erase_last_sector_by_id (flash_area_id : Z) : BM unit :=
  if (flash_area_id =? FLASH_AREA_IMAGE_0) || (flash_area_id =? FLASH_AREA_IMAGE_1) then
    let slot := flash_area_id - FLASH_AREA_IMAGE_0 in
    n <- boot_img_num_sectors slot ;;
    let last_sector := u32 (n - 1) in
    off <- boot_img_sector_off slot last_sector ;;
    size <- boot_img_sector_size slot last_sector ;;
    asserted (boot_erase_sector flash_area_id off size)
  else fail BOOT_EFLASH.

(** ** The swap *)

Definition with_state (st : Z) (bs : boot_status) : boot_status :=
  BootStatus (idx bs) st (use_scratch bs) (swap_size bs).

(** The three steps of [boot_swap_sectors]: slot 1 to scratch, slot 0 to slot 1,
    scratch to slot 0. *)
Definition swap_step0 (img_off sz copy_sz : Z) (bs : boot_status) : BM boot_status :=
  asserted (boot_erase_sector FLASH_AREA_IMAGE_SCRATCH 0 sz) ;;
  asserted (boot_copy_sector FLASH_AREA_IMAGE_1 FLASH_AREA_IMAGE_SCRATCH img_off 0 copy_sz) ;;
  (if idx bs =? 0 then
     if use_scratch bs then boot_status_init_by_id FLASH_AREA_IMAGE_SCRATCH bs
     else
       asserted (boot_erase_last_sector_by_id FLASH_AREA_IMAGE_0) ;;
       boot_status_init_by_id FLASH_AREA_IMAGE_0 bs
   else ret tt) ;;
  let bs := with_state 1 bs in
  asserted (boot_write_status bs) ;;
  ret bs.

Definition swap_step1 (img_off sz copy_sz : Z) (bs : boot_status) : BM boot_status :=
  asserted (boot_erase_sector FLASH_AREA_IMAGE_1 img_off sz) ;;
  asserted (boot_copy_sector FLASH_AREA_IMAGE_0 FLASH_AREA_IMAGE_1 img_off img_off copy_sz) ;;
  (if (idx bs =? 0) && negb (use_scratch bs)
   then asserted (boot_erase_last_sector_by_id FLASH_AREA_IMAGE_1) else ret tt) ;;
  let bs := with_state 2 bs in
  asserted (boot_write_status bs) ;;
  ret bs.

(** The status kept in scratch goes to slot 0. *)
Definition restore_trailer (img_off copy_sz : Z) (bs : boot_status) : BM unit :=
  fap <- asserted (flash_area_open FLASH_AREA_IMAGE_SCRATCH) ;;
  scratch_trailer_off <- boot_status_off fap ;;
  flash_area_close (Some fap) ;;
  fap <- asserted (flash_area_open FLASH_AREA_IMAGE_0) ;;
  w <- BOOT_WRITE_SZ ;;
  asserted (boot_copy_sector FLASH_AREA_IMAGE_SCRATCH FLASH_AREA_IMAGE_0 scratch_trailer_off
    (u32 (img_off + copy_sz)) (BOOT_STATUS_STATE_COUNT * w)) ;;
  swap_state <- asserted (boot_read_swap_state_by_id FLASH_AREA_IMAGE_SCRATCH) ;;
  (if image_ok swap_state =? BOOT_FLAG_SET then asserted (boot_write_image_ok fap) else ret tt) ;;
  asserted (boot_write_swap_size fap (swap_size bs)) ;;
  asserted (boot_write_magic fap) ;;
  flash_area_close (Some fap).

Definition swap_step2 (img_off sz copy_sz : Z) (bs : boot_status) : BM boot_status :=
  asserted (boot_erase_sector FLASH_AREA_IMAGE_0 img_off sz) ;;
  asserted (boot_copy_sector FLASH_AREA_IMAGE_SCRATCH FLASH_AREA_IMAGE_0 0 img_off copy_sz) ;;
  (if use_scratch bs then restore_trailer img_off copy_sz bs else ret tt) ;;
  let bs := BootStatus (u32 (idx bs + 1)) 0 false (swap_size bs) in
  asserted (boot_write_status bs) ;;
  ret bs.

Definition boot_swap_sectors (idx_ sz : Z) (bs : boot_status) : BM boot_status :=
  img_off <- boot_img_sector_off 0 idx_ ;;
  w <- BOOT_WRITE_SZ ;;
  let trailer_sz := boot_slots_trailer_sz w in
  n <- boot_img_num_sectors 0 ;;
  last_off <- boot_img_sector_off 0 (u32 (n - 1)) ;;
  let copy_sz := if last_off <? u32 (img_off + sz) then u32 (sz - trailer_sz) else sz in
  let bs := BootStatus (idx bs) (state bs) ((idx bs =? 0) && negb (copy_sz =? sz)) (swap_size bs) in
  bs <- (if state bs =? 0 then swap_step0 img_off sz copy_sz bs else ret bs) ;;
  bs <- (if state bs =? 1 then swap_step1 img_off sz copy_sz bs else ret bs) ;;
  if state bs =? 2 then swap_step2 img_off sz copy_sz bs else ret bs.

(** The size of the swap from the headers of both images. *)
Definition image_size_if_any (slot : Z) : BM Z :=
  h <- boot_img_hdr slot ;;
  if ih_magic h =? IMAGE_MAGIC then asserted (boot_read_image_size slot h) else ret 0.

(** The loop that finds the last sector; the array ends the search. *)
Fixpoint last_sector_loop (fuel : nat) (copy_size size last_sector_idx : Z) : BM Z :=
  match fuel with
  | O => fault
  | S fuel =>
      n <- boot_img_sector_size 0 last_sector_idx ;;
      let size := u32 (size + n) in
      if copy_size <=? size then ret last_sector_idx
      else last_sector_loop fuel copy_size size (last_sector_idx + 1)
  end.

(** The loop over the regions, from the last sector down.  A region has at least
    one sector where a sector fits in the scratch area; where it does not, the
    source loops for ever. *)
Fixpoint swap_loop (fuel : nat) (last_sector_idx swap_idx : Z) (bs : boot_status) : BM boot_status :=
  if 0 <=? last_sector_idx then
    match fuel with
    | O => fault
    | S fuel =>
        r <- boot_copy_sz last_sector_idx ;;
        let '(sz, first_sector_idx) := r in
        bs <- (if idx bs <=? swap_idx then boot_swap_sectors first_sector_idx sz bs else ret bs) ;;
        swap_loop fuel (first_sector_idx - 1) (swap_idx + 1) bs
    end
  else ret bs.

Definition SECTOR_FUEL : nat := 257.

Definition boot_copy_image (bs : boot_status) : BM boot_status :=
  copy_size <- (if (idx bs =? 0) && (state bs =? 0) then
                  copy_size <- image_size_if_any 0 ;;
                  size <- image_size_if_any 1 ;;
                  ret (if copy_size <? size then size else copy_size)
                else asserted boot_read_swap_size) ;;
  let bs := BootStatus (idx bs) (state bs) (use_scratch bs) copy_size in
  last_sector_idx <- last_sector_loop SECTOR_FUEL copy_size 0 0 ;;
  swap_loop SECTOR_FUEL last_sector_idx 0 bs.

(** ** The boot *)

Definition boot_set_copy_done : BM unit :=
  fap <- or_return (flash_area_open FLASH_AREA_IMAGE_0) BOOT_EFLASH ;;
  closing (Some fap) (boot_write_copy_done fap).

Definition boot_set_image_ok : BM unit :=
  fap <- or_return (flash_area_open FLASH_AREA_IMAGE_0) BOOT_EFLASH ;;
  closing (Some fap)
    (st <- or_return (boot_read_swap_state fap) BOOT_EFLASH ;;
     if image_ok st =? BOOT_FLAG_UNSET then boot_write_image_ok fap else ret tt).

Definition boot_swap_if_needed : BM swap_type_t :=
  bs <- asserted boot_read_status ;;
  if negb (idx bs =? 0) || negb (state bs =? 0) then
    asserted (boot_copy_image bs) ;;
    boot_previous_swap_type
  else
    swap_type <- boot_validated_swap_type ;;
    (match swap_type with
     | BOOT_SWAP_TYPE_TEST | BOOT_SWAP_TYPE_PERM | BOOT_SWAP_TYPE_REVERT =>
         asserted (boot_copy_image bs) ;; ret tt
     | _ => ret tt
     end) ;;
    ret swap_type.

(** The swap, and what it leaves in the trailer of slot 0. *)
Definition boot_prepare_slot0 : BM swap_type_t :=
  compatible <- boot_slots_compatible ;;
  if compatible then
    swap_type <- asserted boot_swap_if_needed ;;
    match swap_type with
    | BOOT_SWAP_TYPE_REVERT | BOOT_SWAP_TYPE_FAIL =>
        r <- try boot_set_image_ok ;;
        ret (match r with None => BOOT_SWAP_TYPE_PANIC | Some _ => swap_type end)
    | _ => ret swap_type
    end
  else ret BOOT_SWAP_TYPE_NONE.

(** Between opening the areas and closing them. *)
Definition boot_body : BM boot_rsp :=
  boot_read_sectors ;;
  boot_read_image_headers ;;
  swap_type <- boot_prepare_slot0 ;;
  reload_headers <- match swap_type with
    | BOOT_SWAP_TYPE_NONE => ret false
    | BOOT_SWAP_TYPE_TEST | BOOT_SWAP_TYPE_PERM | BOOT_SWAP_TYPE_REVERT =>
        r <- try boot_set_copy_done ;;
        match r with None => fault | Some _ => ret true end
    | BOOT_SWAP_TYPE_FAIL => ret true
    | BOOT_SWAP_TYPE_PANIC => fault
    end ;;
  (if reload_headers : bool then boot_read_image_headers else ret tt) ;;
  asserted (boot_validate_slot 0) ;;
  dev_id <- boot_img_fa_device_id 0 ;;
  off <- boot_img_slot_off 0 ;;
  h <- boot_img_hdr 0 ;;
  ret (BootRsp h dev_id off).

Definition boot_go : BM boot_rsp :=
  a0 <- asserted (flash_area_open (flash_area_id_from_image_slot 0)) ;;
  set_img 0 (fun i => BootImg (hdr i) (Some a0) [] (num_sectors i)) ;;
  a1 <- asserted (flash_area_open (flash_area_id_from_image_slot 1)) ;;
  set_img 1 (fun i => BootImg (hdr i) (Some a1) [] (num_sectors i)) ;;
  sc <- asserted (flash_area_open FLASH_AREA_IMAGE_SCRATCH) ;;
  modify (fun s => let st := boot_data s in
    BootState (bt_dev s) (ref_counts s) (BootLoaderState (img0 st) (img1 st) (Some sc) (write_sz st))) ;;
  closing (Some a0) (closing (Some a1) (closing (Some sc) boot_body)).

(** The address of the vector table the processor takes its stack pointer and its
    entry from. *)
Definition do_boot (rsp : boot_rsp) : BM Z :=
  flash_base <- asserted (flash_device_base (br_flash_dev_id rsp)) ;;
  ret (u32 (flash_base + br_image_off rsp + ih_hdr_size (br_hdr rsp))).

(** [main] of the bootloader; an error is the endless loop. *)
Definition bl2_main : BM Z :=
  rsp <- boot_go ;; flash_area_warn_on_open ;; do_boot rsp.
End loader.
