(* ===== verification/BootView.v ===== *)
(** * Bootloader: programs on a flash that may stop

    The content of the three areas as a view, and the judgement [safely m V bd Q J]:
    from flash content [V] the program [m] ends with [Q], or a program or erase
    operation was refused, and it stops with flash content in [J].  On a device
    with power the first is the case, so that one proof shows both what a program
    does and what an interruption leaves. *)

From S2P Require Import Prelude FlashDriver SstFlash BootFlash BootUtil BootImage BootLoader.

(** Reads do not fail, with power or without. *)
Class flash_reads (D : Type) `{!ARM_DRIVER_FLASH D, !FlashDevice D} : Prop :=
  read_ok d a n : 0 <= a -> 0 <= n -> a + n <= flash_limit -> (ReadData a n d).1 = ARM_DRIVER_OK.

(** The layout of the areas: whole sectors, apart from each other, the slots of
    the same size and not larger than the scratch area, the trailer smaller than a
    sector. *)
Class boot_layout_ok (D : Type) `{!ARM_DRIVER_FLASH D, !FlashDevice D, !boot_layout} : Prop := {
  bl_sector : sector_size GetInfo = flash_sector /\ FLASH_AREA_IMAGE_SECTOR_SIZE = flash_sector;
  bl_unit : 1 <= program_unit GetInfo <= 8;
  bl_trailer : 768 * program_unit GetInfo + 40 <= flash_sector;
  bl_size0 : FLASH_AREA_IMAGE_0_SIZE mod flash_sector = 0 /\
             2 * flash_sector <= FLASH_AREA_IMAGE_0_SIZE <= 256 * flash_sector;
  bl_size1 : FLASH_AREA_IMAGE_1_SIZE = FLASH_AREA_IMAGE_0_SIZE;
  bl_scratch : FLASH_AREA_IMAGE_0_SIZE <= FLASH_AREA_IMAGE_SCRATCH_SIZE;
  bl_off0 : 0 <= FLASH_AREA_IMAGE_0_OFFSET /\ FLASH_AREA_IMAGE_0_OFFSET mod flash_sector = 0;
  bl_off1 : FLASH_AREA_IMAGE_0_OFFSET + FLASH_AREA_IMAGE_0_SIZE <= FLASH_AREA_IMAGE_1_OFFSET /\
            FLASH_AREA_IMAGE_1_OFFSET mod flash_sector = 0;
  bl_off2 : FLASH_AREA_IMAGE_1_OFFSET + FLASH_AREA_IMAGE_1_SIZE <= FLASH_AREA_IMAGE_SCRATCH_OFFSET /\
            FLASH_AREA_IMAGE_SCRATCH_OFFSET mod flash_sector = 0;
  bl_end : FLASH_AREA_IMAGE_SCRATCH_OFFSET + FLASH_AREA_IMAGE_SCRATCH_SIZE <= flash_limit;
}.

(** [V'] differs from [V] at most in [n] bytes of area [id]. *)
Definition only (V V' : blocks) (id off n : Z) : Prop :=
  forall id' o, ~ (id' = id /\ off <= o < off + n) -> V' id' o = V id' o.

(** Erased bytes. *)
Definition vfill (V : blocks) (id off n : Z) : blocks := fun id' o =>
  if decide (id' = id /\ off <= o < off + n) then Byte.xff else V id' o.

Lemma only_refl V id off n : only V V id off n.
Proof. done. Qed.

Lemma only_vwrite V id off bs off' n : off' <= off -> off + zlen bs <= off' + n -> only V (vwrite V id off bs) id off' n.
Proof. intros H1 H2 id' o Ho. rewrite vwrite_spec, decide_False; [done|]. intros [-> ?]. apply Ho. lia. Qed.

Lemma only_vfill V id off k off' n : off' <= off -> off + k <= off' + n -> only V (vfill V id off k) id off' n.
Proof. intros H1 H2 id' o Ho. unfold vfill. rewrite decide_False; [done|]. intros [-> ?]. apply Ho. lia. Qed.

Lemma only_trans V V' V'' id off n : only V V' id off n -> only V' V'' id off n -> only V V'' id off n.
Proof. intros H1 H2 id' o Ho. rewrite H2 by done. by apply H1. Qed.

Section view.
  Context {D : Type} `{!ARM_DRIVER_FLASH D, !FlashDevice D, !flash_reads D} {Layout : boot_layout} `{!boot_layout_ok D}.
  Context {Mbed : mbedtls} {Keys : bootutil_key_list}.
  (** The device has power. *)
  Context (live : Prop).
  Local Abbreviation BM := (BM (D := D)).
  Implicit Types (V : blocks) (bd : boot_loader_state).

(** ** Areas *)

Definition area_of (id : Z) : flash_area :=
  if id =? FLASH_AREA_IMAGE_0 then FlashArea FLASH_AREA_IMAGE_0 FLASH_DEVICE_ID FLASH_AREA_IMAGE_0_OFFSET FLASH_AREA_IMAGE_0_SIZE
  else if id =? FLASH_AREA_IMAGE_1
  then FlashArea FLASH_AREA_IMAGE_1 FLASH_DEVICE_ID FLASH_AREA_IMAGE_1_OFFSET FLASH_AREA_IMAGE_1_SIZE
  else FlashArea FLASH_AREA_IMAGE_SCRATCH FLASH_DEVICE_ID FLASH_AREA_IMAGE_SCRATCH_OFFSET FLASH_AREA_IMAGE_SCRATCH_SIZE.

Definition is_area (id : Z) : Prop := id = FLASH_AREA_IMAGE_0 \/ id = FLASH_AREA_IMAGE_1 \/ id = FLASH_AREA_IMAGE_SCRATCH.

Lemma area_bounds id : is_area id ->
  0 <= fa_off (area_of id) /\ 2 * flash_sector <= fa_size (area_of id) /\
  fa_off (area_of id) + fa_size (area_of id) <= flash_limit /\ fa_off (area_of id) mod flash_sector = 0.
Proof using Type*.
  pose proof bl_size0. pose proof bl_size1. pose proof bl_scratch. pose proof bl_off0. pose proof bl_off1.
  pose proof bl_off2. pose proof bl_end. pose proof (flash_sector_pos (D := D)).
  unfold area_of. intros [->|[->| ->]]; cbn; lia.
Qed.

Lemma areas_apart id id' o o' : is_area id -> is_area id' -> id <> id' ->
  0 <= o < fa_size (area_of id) -> 0 <= o' < fa_size (area_of id') ->
  fa_off (area_of id) + o <> fa_off (area_of id') + o'.
Proof using Type*.
  pose proof bl_size1. pose proof bl_scratch. pose proof bl_off1. pose proof bl_off2.
  unfold area_of. intros [->|[->| ->]] [->|[->| ->]] Hne; cbn; lia.
Qed.

Definition BRep (d : D) V : Prop :=
  (live -> flash_live d) /\
  forall id o, is_area id -> 0 <= o < fa_size (area_of id) -> flash_byte d (fa_off (area_of id) + o) = V id o.

Lemma BRep_ext d V V' : BRep d V ->
  (forall id o, is_area id -> 0 <= o < fa_size (area_of id) -> V id o = V' id o) -> BRep d V'.
Proof using Type. intros [H1 H2] E. split; [done|]. intros. by rewrite H2, E. Qed.

(** ** The judgement *)

Definition safely {A} (m : BM A) V bd (Q : A -> blocks -> boot_loader_state -> Prop) (J : blocks -> Prop) : Prop :=
  forall s, BRep (bt_dev s) V -> boot_data s = bd ->
  match m s with
  | (Ok a, s') => exists V', BRep (bt_dev s') V' /\ Q a V' (boot_data s')
  | (_, s') => ~ live /\ exists V', BRep (bt_dev s') V' /\ J V'
  end.

Lemma safely_ret {A} (a : A) V bd Q J : Q a V bd -> safely (ret a) V bd Q J.
Proof using Type. intros HQ s Hs <-. by exists V. Qed.

Lemma safely_bind {A B} (m : BM A) (k : A -> BM B) V bd Q J :
  safely m V bd (fun a V' bd' => safely (k a) V' bd' Q J) J -> safely (bind m k) V bd Q J.
Proof using Type.
  intros H s Hs Hb. specialize (H s Hs Hb). unfold bind. destruct (m s) as [[a|e|] s']; [|done..].
  destruct H as (V' & Hs' & Hk). by apply (Hk s').
Qed.

Lemma safely_mono {A} (m : BM A) V bd (Q Q' : A -> blocks -> boot_loader_state -> Prop) (J J' : blocks -> Prop) :
  safely m V bd Q J -> (forall a V' bd', Q a V' bd' -> Q' a V' bd') -> (forall V', J V' -> J' V') -> safely m V bd Q' J'.
Proof using Type.
  intros H HQ HJ s Hs Hb. specialize (H s Hs Hb). destruct (m s) as [[a|e|] s'];
    [destruct H as (V' & ? & ?); eauto|destruct H as (? & V' & ? & ?); eauto..].
Qed.

Lemma safely_gets {A} (f : boot_state D -> A) V bd (Q : A -> blocks -> boot_loader_state -> Prop) J :
  (forall s, boot_data s = bd -> Q (f s) V bd) -> safely (gets f) V bd Q J.
Proof using Type. intros HQ s Hs <-. exists V. split; [done|]. by apply HQ. Qed.

(** An update of the RAM. *)
Lemma safely_modify (f : boot_state D -> boot_state D) g V bd (Q : unit -> blocks -> boot_loader_state -> Prop) J :
  (forall s, bt_dev (f s) = bt_dev s /\ boot_data (f s) = g (boot_data s)) -> Q tt V (g bd) ->
  safely (modify f) V bd Q J.
Proof using Type.
  intros Hf HQ s Hs <-. destruct (Hf s) as [E1 E2]. unfold modify. exists V. by rewrite E1, E2.
Qed.

Lemma safely_or_return {A} (m : BM A) e V bd Q J : safely m V bd Q J -> safely (or_return m e) V bd Q J.
Proof using Type. intros H s Hs Hb. specialize (H s Hs Hb). unfold or_return. by destruct (m s) as [[]]. Qed.

Lemma safely_asserted {A} (m : BM A) V bd Q J : safely m V bd Q J -> safely (asserted m) V bd Q J.
Proof using Type. intros H s Hs Hb. specialize (H s Hs Hb). unfold asserted. by destruct (m s) as [[]]. Qed.

(** A call that is not refused returns. *)
Lemma safely_try {A} (m : BM A) V bd (Q : option A -> blocks -> boot_loader_state -> Prop) J :
  safely m V bd (fun a => Q (Some a)) (fun _ => False) -> safely (try m) V bd Q J.
Proof using Type.
  intros H s Hs Hb. specialize (H s Hs Hb). unfold try. destruct (m s) as [[a|e|] s']; [done|by destruct H as (_ & ? & _ & ?)..].
Qed.

(** A call that may be refused, once the power has failed. *)
Lemma safely_try_or {A} (m : BM A) V bd (Q : option A -> blocks -> boot_loader_state -> Prop) J :
  safely m V bd (fun a => Q (Some a)) J -> (~ live -> forall V' bd', J V' -> Q None V' bd') -> safely (try m) V bd Q J.
Proof using Type.
  intros H HN s Hs Hb. specialize (H s Hs Hb). unfold try. destruct (m s) as [[a|e|] s']; [done| |done].
  destruct H as (Hl & V' & ? & HJ). exists V'. split; [done|by apply HN].
Qed.

Lemma safely_fault {A} V bd (Q : A -> blocks -> boot_loader_state -> Prop) (J : blocks -> Prop) :
  ~ live -> J V -> safely fault V bd Q J.
Proof using Type. intros Hl HJ s Hs Hb. split; [done|by exists V]. Qed.

(** A call whose error ends the program. *)
Lemma safely_try_or_fault {A B} (m : BM A) (k : A -> BM B) V bd Q J :
  safely m V bd (fun a V' bd' => safely (k a) V' bd' Q J) J ->
  safely (r <- try m ;; match r with None => fault | Some a => k a end) V bd Q J.
Proof using Type.
  intros H s Hs Hb. specialize (H s Hs Hb). unfold bind, try. destruct (m s) as [[a|e|] s']; [|done..].
  destruct H as (V' & Hs' & Hk). by apply (Hk s').
Qed.

Lemma safely_assert b V bd (Q : unit -> blocks -> boot_loader_state -> Prop) J :
  b = true -> Q tt V bd -> safely (assert b) V bd Q J.
Proof using Type. intros ->. apply safely_ret. Qed.

Lemma close_keeps area (s : boot_state D) :
  exists s', flash_area_close area s = (Ok tt, s') /\ bt_dev s' = bt_dev s /\ boot_data s' = boot_data s.
Proof using Type.
  unfold flash_area_close. destruct area as [area|]; [|by exists s].
  destruct (area_index (fa_id area) part_map 0) as [[i a]|]; [|by exists s].
  unfold bind, gets. destruct (ref_count i s =? 0); [by exists s|]. by eexists.
Qed.

Lemma safely_close area V bd (Q : unit -> blocks -> boot_loader_state -> Prop) J :
  Q tt V bd -> safely (flash_area_close area) V bd Q J.
Proof using Type.
  intros HQ s Hs <-. destruct (close_keeps area s) as (s' & -> & E1 & E2). exists V. by rewrite E1, E2.
Qed.

Lemma safely_closing {A} area (m : BM A) V bd Q J : safely m V bd Q J -> safely (closing area m) V bd Q J.
Proof using Type.
  intros H s Hs Hb. specialize (H s Hs Hb). unfold closing. destruct (m s) as [[a|e|] s']; [..|done];
    destruct (close_keeps area s') as (s'' & E & E1 & E2); rewrite E; cbn [snd]; by rewrite E1, ?E2.
Qed.

Lemma safely_open id V bd (Q : flash_area -> blocks -> boot_loader_state -> Prop) J :
  is_area id -> Q (area_of id) V bd -> safely (flash_area_open id) V bd Q J.
Proof using Type.
  intros Hid HQ s Hs <-. destruct Hid as [->|[->| ->]]; hnf; by exists V.
Qed.

(** ** Flash *)

Lemma phys_off id off : is_area id -> 0 <= off <= fa_size (area_of id) ->
  u32 (fa_off (area_of id) + off) = fa_off (area_of id) + off.
Proof using Type*.
  intros Hid Ho. pose proof (area_bounds id Hid). pose proof (flash_limit_range (D := D)). apply u32_small. lia.
Qed.

Lemma safely_read id off n V bd (Q : list byte -> blocks -> boot_loader_state -> Prop) J :
  is_area id -> 0 <= off -> 0 <= n -> off + n <= fa_size (area_of id) ->
  Q (vread V id off n) V bd -> safely (flash_area_read (area_of id) off n) V bd Q J.
Proof using Type*.
  intros Hid Ho Hn Hr HQ s Hs <-. pose proof (area_bounds id Hid) as (B1 & B2 & B3 & B4).
  unfold flash_area_read. rewrite phys_off by (done || lia).
  pose proof (read_ok (bt_dev s) (fa_off (area_of id) + off) n) as Hok.
  pose proof (ReadData_spec (bt_dev s) (fa_off (area_of id) + off) n) as Hspec.
  destruct (ReadData _ n (bt_dev s)) as [rc bs]. cbn [fst] in Hok. rewrite Hok by lia. cbn [Z.eqb ARM_DRIVER_OK].
  exists V. split; [done|]. rewrite (Hspec bs) by (lia || by rewrite Hok by lia). destruct Hs as [_ Hs].
  replace (mread _ _ n) with (vread V id off n); [done|]. unfold vread. apply mread_ext. intros i Hi.
  rewrite <- Z.add_assoc, Hs by (done || lia). done.
Qed.

(** What a device does with a write inside an area. *)
Lemma write_view (d d' : D) V id off bs :
  BRep d V -> is_area id -> 0 <= off -> off + zlen bs <= fa_size (area_of id) -> (live -> flash_live d') ->
  (forall x, 0 <= x < flash_limit -> flash_byte d' x = mwrite (flash_byte d) (fa_off (area_of id) + off) bs x) ->
  BRep d' (vwrite V id off bs).
Proof using Type*.
  intros [_ HV] Hid Ho Hr Hl Hd. split; [done|]. intros id' o Hid' Ho'.
  pose proof (area_bounds id Hid). pose proof (area_bounds id' Hid').
  rewrite Hd by lia. rewrite mwrite_spec, vwrite_spec. destruct (decide (id' = id)) as [->|Hne].
  - repeat case_decide; try lia; [f_equal; lia|]. by apply HV.
  - rewrite !(decide_False (P := _ /\ _)); [by apply HV|tauto|].
    intros [C1 C2]. apply (areas_apart id' id o (fa_off (area_of id') + o - fa_off (area_of id))); try done; lia.
Qed.

Lemma same_view (d d' : D) V : BRep d V -> (live -> flash_live d') ->
  (forall x, 0 <= x < flash_limit -> flash_byte d' x = flash_byte d x) -> BRep d' V.
Proof using Type*.
  intros [_ HV] Hl Hd. split; [done|]. intros id o Hid Ho. pose proof (area_bounds id Hid). rewrite Hd by lia. by apply HV.
Qed.

Lemma safely_write id off bs V bd (Q : unit -> blocks -> boot_loader_state -> Prop) (J : blocks -> Prop) :
  is_area id -> 0 <= off -> off + zlen bs <= fa_size (area_of id) -> J V ->
  Q tt (vwrite V id off bs) bd -> safely (flash_area_write (area_of id) off bs) V bd Q J.
Proof using Type*.
  intros Hid Ho Hr HJ HQ s Hs <-. pose proof (area_bounds id Hid) as (B1 & B2 & B3 & B4).
  unfold flash_area_write. rewrite phys_off by (done || lia).
  pose proof (ProgramData_spec (bt_dev s) (fa_off (area_of id) + off) bs) as Hspec.
  pose proof (ProgramData_live (bt_dev s) (fa_off (area_of id) + off) bs) as Hlive.
  destruct (ProgramData _ bs (bt_dev s)) as [rc d']. cbn [fst snd] in Hlive.
  assert (live -> rc = ARM_DRIVER_OK /\ flash_live d') as Hl by (intros l; apply Hlive; try lia; by apply Hs).
  destruct Hspec as [[-> Hd]|[Hrc Hd]]; [lia..| |].
  - cbn [Z.eqb ARM_DRIVER_OK]. eexists. split; [|exact HQ]. cbn. eapply write_view; try done. intros l. by apply Hl.
  - destruct (Z.eqb_spec rc 0); [done|]. assert (~ live) by (intros l; by apply Hrc, Hl).
    split; [done|]. exists V. split; [|done]. eapply same_view; try done.
Qed.

Lemma erase_view (d d' : D) V id off :
  BRep d V -> is_area id -> 0 <= off -> off + flash_sector <= fa_size (area_of id) -> (live -> flash_live d') ->
  (forall x, 0 <= x < flash_limit -> flash_byte d' x = mset (flash_byte d) (fa_off (area_of id) + off) flash_sector Byte.xff x) ->
  BRep d' (vfill V id off flash_sector).
Proof using Type*.
  intros [_ HV] Hid Ho Hr Hl Hd. split; [done|]. intros id' o Hid' Ho'.
  pose proof (area_bounds id Hid). pose proof (area_bounds id' Hid').
  rewrite Hd by lia. rewrite mset_spec. unfold vfill. destruct (decide (id' = id)) as [->|Hne].
  - repeat case_decide; try lia; [done|]. by apply HV.
  - rewrite !(decide_False (P := _ /\ _)); [by apply HV|tauto|].
    intros [C1 C2]. apply (areas_apart id' id o (fa_off (area_of id') + o - fa_off (area_of id))); try done; lia.
Qed.

(** One sector. *)
Lemma erase_step id off (s : boot_state D) V :
  BRep (bt_dev s) V -> is_area id -> 0 <= off -> off mod flash_sector = 0 -> off + flash_sector <= fa_size (area_of id) ->
  let '(rc, d') := EraseSector (u32 (fa_off (area_of id) + off)) (bt_dev s) in
  (rc = 0 /\ BRep d' (vfill V id off flash_sector)) \/ (rc <> 0 /\ ~ live /\ BRep d' V).
Proof using Type*.
  intros Hs Hid Ho Hm Hr. pose proof (area_bounds id Hid) as (B1 & B2 & B3 & B4).
  pose proof (flash_sector_pos (D := D)) as Hp. rewrite phys_off by (done || lia).
  assert ((fa_off (area_of id) + off) mod flash_sector = 0) as Ha
    by (rewrite Z.add_mod, B4, Hm by lia; by rewrite Z.mod_0_l by lia).
  pose proof (EraseSector_spec (bt_dev s) (fa_off (area_of id) + off)) as Hspec.
  pose proof (EraseSector_live (bt_dev s) (fa_off (area_of id) + off)) as Hlive.
  destruct (EraseSector _ (bt_dev s)) as [rc d']. cbn [fst snd] in Hlive.
  assert (live -> rc = ARM_DRIVER_OK /\ flash_live d') as Hl by (intros l; apply Hlive; try lia; by apply Hs).
  destruct Hspec as [[-> Hd]|[Hrc Hd]]; [lia..| |].
  - left. split; [done|]. eapply erase_view; try done. intros l. by apply Hl.
  - right. assert (~ live) by (intros l; by apply Hrc, Hl). split_and!; [done..|]. by eapply same_view.
Qed.

Lemma vfill_app V id off n k id' o : 0 <= n -> 0 <= k ->
  vfill (vfill V id off n) id (off + n) k id' o = vfill V id off (n + k) id' o.
Proof using Type. intros. unfold vfill. repeat case_decide; try done; lia. Qed.

(** The first [j] of [k] sectors are erased. *)
Definition erased_to V (id off j : Z) (V' : blocks) : Prop :=
  forall id' o, V' id' o = vfill V id off (j * flash_sector) id' o.

Lemma erased_to_0 V id off : erased_to V id off 0 V.
Proof using Type. intros id' o. unfold vfill. by rewrite decide_False by lia. Qed.

Lemma erased_to_S V id off j V' : 0 <= j ->
  erased_to (vfill V id off flash_sector) id (off + flash_sector) j V' -> erased_to V id off (j + 1) V'.
Proof using Type.
  intros Hj H id' o. pose proof (flash_sector_pos (D := D)) as Hp. rewrite H, vfill_app by nia. f_equal. lia.
Qed.

Lemma erased_only V id off j k V' : 0 <= j <= k -> erased_to V id off j V' -> only V V' id off (k * flash_sector).
Proof using Type.
  intros Hj H id' o Ho. pose proof (flash_sector_pos (D := D)) as Hp. rewrite H. unfold vfill. rewrite decide_False; [done|].
  intros [-> ?]. apply Ho. nia.
Qed.

Lemma safely_erase_loop k fuel id off len V bd (Q : unit -> blocks -> boot_loader_state -> Prop) (J : blocks -> Prop) del :
  is_area id -> 0 <= off -> off mod flash_sector = 0 -> 0 <= del -> len = del + Z.of_nat k * flash_sector ->
  off + Z.of_nat k * flash_sector <= fa_size (area_of id) -> (k <= fuel)%nat -> len <= flash_limit ->
  (forall V' j, 0 <= j < Z.of_nat k -> erased_to V id off j V' -> J V') ->
  (forall V', erased_to V id off (Z.of_nat k) V' -> Q tt V' bd) ->
  safely (erase_sectors_loop fuel (area_of id) off len del) V bd Q J.
Proof using Type*.
  intros Hid Ho Hm Hdel Hlen Hr Hk Hb2 HJ HQ. pose proof (flash_sector_pos (D := D)) as Hp.
  pose proof (area_bounds id Hid) as (B1 & B2 & B3 & B4). pose proof (flash_limit_range (D := D)) as HL.
  pose proof bl_sector as [Es _].
  revert fuel off del V Ho Hm Hdel Hlen Hr Hk HJ HQ. induction k as [|k IH]; intros fuel off del V Ho Hm Hdel Hlen Hr Hk HJ HQ s Hs <-.
  - destruct fuel; cbn [erase_sectors_loop]; rewrite (proj2 (Z.ltb_ge del len)) by lia; exists V; (split; [done|]);
      apply HQ, erased_to_0.
  - destruct fuel as [|fuel]; [lia|]. cbn [erase_sectors_loop]. rewrite (proj2 (Z.ltb_lt del len)) by nia. rewrite Es.
    pose proof (erase_step id off s V Hs Hid Ho Hm ltac:(nia)) as He.
    destruct (EraseSector _ (bt_dev s)) as [rc d']. destruct He as [[-> Hd]|(Hrc & Hnl & Hd)].
    + cbn [Z.eqb negb]. rewrite !u32_small by nia.
      apply (IH fuel (off + flash_sector) (del + flash_sector) (vfill V id off flash_sector)); try done; try nia.
      * rewrite <- Z.add_mod_idemp_r, Z_mod_same_full, Z.add_0_r by lia. done.
      * intros V' j Hj HV'. apply (HJ V' (j + 1)); [lia|]. apply erased_to_S; [lia|exact HV'].
      * intros V' HV'. apply HQ. rewrite Nat2Z.inj_succ. apply erased_to_S; [lia|exact HV'].
    + destruct (Z.eqb_spec rc 0); [done|]. cbn [negb]. split; [done|]. exists V. split; [done|].
      apply (HJ V 0); [lia|apply erased_to_0].
Qed.

Lemma safely_erase_exact id off k V bd (Q : unit -> blocks -> boot_loader_state -> Prop) (J : blocks -> Prop) :
  is_area id -> 0 <= off -> off mod flash_sector = 0 -> 0 <= k -> off + k * flash_sector <= fa_size (area_of id) ->
  (forall V' j, 0 <= j < k -> erased_to V id off j V' -> J V') ->
  (forall V', erased_to V id off k V' -> Q tt V' bd) ->
  safely (flash_area_erase (area_of id) off (k * flash_sector)) V bd Q J.
Proof using Type*.
  intros Hid Ho Hm Hk Hr HJ HQ. pose proof (flash_sector_pos (D := D)) as Hp. pose proof bl_sector as [Es _].
  pose proof (area_bounds id Hid) as (B1 & B2 & B3 & B4).
  unfold flash_area_erase. rewrite Es, Z.div_mul by lia.
  replace k with (Z.of_nat (Z.to_nat k)) in HJ, HQ by lia.
  apply (safely_erase_loop (Z.to_nat k)); try done; nia.
Qed.

Lemma safely_erase_sector id off k V bd (Q : unit -> blocks -> boot_loader_state -> Prop) (J : blocks -> Prop) :
  is_area id -> 0 <= off -> off mod flash_sector = 0 -> 0 <= k -> off + k * flash_sector <= fa_size (area_of id) ->
  (forall V' j, 0 <= j < k -> erased_to V id off j V' -> J V') ->
  (forall V', erased_to V id off k V' -> Q tt V' bd) ->
  safely (boot_erase_sector id off (k * flash_sector)) V bd Q J.
Proof using Type*.
  intros Hid Ho Hm Hk Hr HJ HQ. unfold boot_erase_sector.
  apply safely_bind, safely_or_return, safely_open; [done|].
  apply safely_closing, safely_or_return. by apply safely_erase_exact.
Qed.

(** ** Copies *)

Definition vcopy V (src off_src dst off_dst n : Z) : blocks := fun id o =>
  if decide (id = dst /\ off_dst <= o < off_dst + n) then V src (off_src + (o - off_dst)) else V id o.

Definition copied_to V (src off_src dst off_dst n : Z) (V' : blocks) : Prop :=
  forall id o, V' id o = vcopy V src off_src dst off_dst n id o.

Lemma copied_only V src off_src dst off_dst n V' :
  copied_to V src off_src dst off_dst n V' -> only V V' dst off_dst n.
Proof using Type. intros H id o Ho. rewrite H. unfold vcopy. by rewrite decide_False. Qed.

Lemma safely_copy_loop src dst off_src off_dst sz V bd (Q : unit -> blocks -> boot_loader_state -> Prop)
    (J : blocks -> Prop) :
  is_area src -> is_area dst -> src <> dst -> 0 <= off_src -> 0 <= off_dst -> 0 <= sz ->
  off_src + sz <= fa_size (area_of src) -> off_dst + sz <= fa_size (area_of dst) ->
  (forall V', only V V' dst off_dst sz -> J V') ->
  (forall V', copied_to V src off_src dst off_dst sz V' -> Q tt V' bd) ->
  forall fuel n V1, 0 <= n <= sz -> sz - n <= Z.of_nat fuel * COPY_BUF_SZ -> copied_to V src off_src dst off_dst n V1 ->
  safely (copy_loop fuel (area_of src) (area_of dst) off_src off_dst sz n) V1 bd Q J.
Proof using Type*.
  intros Hsrc Hdst Hne Hos Hod Hsz Hrs Hrd HJ HQ.
  pose proof (area_bounds src Hsrc) as (S1 & S2 & S3 & S4). pose proof (area_bounds dst Hdst) as (D1 & D2 & D3 & D4).
  pose proof (flash_limit_range (D := D)) as HL. unfold COPY_BUF_SZ in *.
  induction fuel as [|fuel IH]; intros n V1 Hn Hf H1; cbn [copy_loop].
  { destruct (Z.ltb_spec n sz); [lia|]. apply safely_ret, HQ. by replace sz with n by lia. }
  destruct (Z.ltb_spec n sz) as [Hlt|Hge]; [|apply safely_ret, HQ; by replace sz with n by lia].
  unfold COPY_BUF_SZ. set (k := if 1024 <? sz - n then 1024 else sz - n).
  assert (0 < k <= 1024 /\ n + k <= sz /\ (k = 1024 \/ n + k = sz)) as Hk by (subst k; destruct (Z.ltb_spec 1024 (sz - n)); lia).
  rewrite !u32_small by lia.
  assert (only V V1 dst off_dst sz) as Ho1.
  { intros id o Ho. rewrite H1. unfold vcopy. rewrite decide_False; [done|]. intros [-> ?]. apply Ho. lia. }
  apply safely_bind, safely_or_return, safely_read; [done|lia..|].
  apply safely_bind, safely_or_return, safely_write; [done|lia|rewrite zlen_vread; lia|by apply HJ|].
  apply IH; [lia|lia|]. intros id o. rewrite vwrite_spec, zlen_vread by lia. unfold vcopy. case_decide as C1.
  - destruct C1 as [-> C1]. rewrite znth_vread by lia. rewrite H1. unfold vcopy.
    rewrite decide_False by (intros [? _]; by apply Hne). rewrite decide_True by lia. f_equal. lia.
  - rewrite H1. unfold vcopy. repeat case_decide; try done; lia.
Qed.

Lemma safely_copy src dst off_src off_dst sz V bd (Q : unit -> blocks -> boot_loader_state -> Prop) (J : blocks -> Prop) :
  is_area src -> is_area dst -> src <> dst -> 0 <= off_src -> 0 <= off_dst -> 0 <= sz ->
  off_src + sz <= fa_size (area_of src) -> off_dst + sz <= fa_size (area_of dst) ->
  (forall V', only V V' dst off_dst sz -> J V') ->
  (forall V', copied_to V src off_src dst off_dst sz V' -> Q tt V' bd) ->
  safely (boot_copy_sector src dst off_src off_dst sz) V bd Q J.
Proof using Type*.
  intros Hsrc Hdst Hne Hos Hod Hsz Hrs Hrd HJ HQ. unfold boot_copy_sector.
  apply safely_bind, safely_or_return, safely_open; [done|].
  apply safely_closing, safely_bind, safely_or_return, safely_open; [done|]. apply safely_closing.
  apply (safely_copy_loop src dst off_src off_dst sz V); try done.
  - unfold COPY_BUF_SZ. pose proof (Z.div_pos sz 1024 ltac:(lia) ltac:(lia)). rewrite Z2Nat.id by lia.
    pose proof (Z.div_mod sz 1024 ltac:(lia)). pose proof (Z.mod_pos_bound sz 1024 ltac:(lia)). lia.
  - intros id o. unfold vcopy. by rewrite decide_False by lia.
Qed.
End view.
