(* ===== verification/BootTrailer.v ===== *)
(** * Bootloader: the trailers as flash content

    What the functions on the trailers read and write, as content of the areas. *)

From S2P Require Import Prelude FlashDriver SstFlash BootFlash BootUtil BootImage BootLoader BootView.

Section trailer.
  Context {D : Type} `{!ARM_DRIVER_FLASH D, !FlashDevice D, !flash_reads D} {Layout : boot_layout} `{!boot_layout_ok D}.
  Context {Mbed : mbedtls} {Keys : bootutil_key_list}.
  Context (live : Prop).
  Local Abbreviation safely := (safely (D := D) live).
  Implicit Types (V : blocks) (bd : boot_loader_state).

Definition unit_sz : Z := program_unit GetInfo.
Definition asize (id : Z) : Z := fa_size (area_of id).

Lemma align_unit area : flash_area_align area = unit_sz.
Proof using Type*. pose proof bl_unit. unfold flash_area_align, unit_sz. apply u8_small. lia. Qed.

Lemma area_id id : is_area id -> fa_id (area_of id) = id.
Proof using Type. by intros [->|[->| ->]]. Qed.

(** Every area has room for a trailer. *)
Lemma size_bounds id : is_area id -> 768 * unit_sz + 40 <= asize id < 2 ^ 32 /\ 1 <= unit_sz <= 8.
Proof using Type*.
  intros Hid. pose proof (area_bounds id Hid) as (B1 & B2 & B3 & _). pose proof (flash_limit_range (D := D)).
  pose proof bl_unit. pose proof bl_trailer. unfold asize, unit_sz. lia.
Qed.

Definition slot_id (id : Z) : Prop := id = FLASH_AREA_IMAGE_0 \/ id = FLASH_AREA_IMAGE_1.

Lemma slot_area id : slot_id id -> is_area id.
Proof using Type. intros [->| ->]; [by left|by right; left]. Qed.

Lemma slot_not_scratch id : slot_id id -> (id =? FLASH_AREA_IMAGE_SCRATCH) = false.
Proof using Type. by intros [->| ->]. Qed.

(** ** Reading *)

Definition swap_state_of V (id : Z) : boot_swap_state :=
  BootSwapState (boot_magic_code (vread V id (asize id - 16) 16))
    (if id =? FLASH_AREA_IMAGE_SCRATCH then None else Some (b2z (V id (asize id - 32))))
    (b2z (V id (asize id - 24))).

Lemma safely_read_byte id off V bd (Q : Z -> blocks -> boot_loader_state -> Prop) J :
  is_area id -> 0 <= off < asize id -> Q (b2z (V id off)) V bd -> safely (read_byte (area_of id) off) V bd Q J.
Proof using Type*.
  intros Hid Ho HQ. apply safely_bind, safely_read; [done|unfold asize in *; lia..|]. apply safely_ret.
  rewrite znth_vread by lia. by rewrite Z.add_0_r.
Qed.

Lemma safely_read_swap_state id V bd (Q : boot_swap_state -> blocks -> boot_loader_state -> Prop) J :
  is_area id -> Q (swap_state_of V id) V bd -> safely (boot_read_swap_state (area_of id)) V bd Q J.
Proof using Type*.
  intros Hid HQ. pose proof (size_bounds id Hid) as [Hz Hu]. unfold boot_read_swap_state, boot_magic_off, boot_image_ok_off,
    boot_copy_done_off, BOOT_MAGIC_SZ, BOOT_MAX_ALIGN. rewrite (area_id id Hid). fold (asize id).
  rewrite !u32_small by lia.
  apply safely_bind, safely_or_return, safely_read; [done|fold (asize id); lia..|].
  apply safely_bind. unfold swap_state_of in HQ. destruct (id =? FLASH_AREA_IMAGE_SCRATCH); cbn [negb].
  - apply safely_ret, safely_bind, safely_or_return, safely_read_byte; [done|lia|]. apply safely_ret.
    by replace (asize id - 16 - 8) with (asize id - 24) by lia.
  - apply safely_bind, safely_bind, safely_assert; [done|].
    apply safely_ret, safely_bind, safely_or_return, safely_read_byte; [done|lia|].
    apply safely_ret, safely_bind, safely_or_return, safely_read_byte; [done|lia|]. apply safely_ret.
    replace (asize id - 16 - 8 * 2) with (asize id - 32) by lia.
    by replace (asize id - 16 - 8) with (asize id - 24) by lia.
Qed.

Lemma safely_swap_state_by_id id V bd (Q : boot_swap_state -> blocks -> boot_loader_state -> Prop) J :
  is_area id -> Q (swap_state_of V id) V bd -> safely (boot_read_swap_state_by_id id) V bd Q J.
Proof using Type*.
  intros Hid HQ. unfold boot_read_swap_state_by_id.
  assert ((id =? FLASH_AREA_IMAGE_SCRATCH) || (id =? FLASH_AREA_IMAGE_0) || (id =? FLASH_AREA_IMAGE_1) = true) as ->
    by by destruct Hid as [->|[->| ->]].
  apply safely_bind, safely_or_return, safely_open; [done|]. by apply safely_closing, safely_read_swap_state.
Qed.

Lemma safely_swap_type V bd (Q : swap_type_t -> blocks -> boot_loader_state -> Prop) J :
  Q (swap_type_loop boot_swap_tables (swap_state_of V FLASH_AREA_IMAGE_0) (swap_state_of V FLASH_AREA_IMAGE_1)) V bd ->
  safely boot_swap_type V bd Q J.
Proof using Type*.
  intros HQ. unfold boot_swap_type. apply safely_bind, safely_try, safely_swap_state_by_id; [by left|].
  apply safely_bind, safely_try, safely_swap_state_by_id; [by right; left|]. by apply safely_ret.
Qed.

Lemma safely_status_source V bd (Q : status_source_t -> blocks -> boot_loader_state -> Prop) J :
  Q (status_source_loop boot_status_tables (swap_state_of V FLASH_AREA_IMAGE_0) (swap_state_of V FLASH_AREA_IMAGE_SCRATCH)) V bd ->
  safely boot_status_source V bd Q J.
Proof using Type*.
  intros HQ. unfold boot_status_source. apply safely_bind, safely_asserted, safely_swap_state_by_id; [by left|].
  apply safely_bind, safely_asserted, safely_swap_state_by_id; [by right; right|]. by apply safely_ret.
Qed.

(** ** Writing *)

(** A byte and the padding of the programming unit. *)
Definition padded (v : byte) : list byte := ztake unit_sz (aligned_buf [v]).

Lemma aligned_byte v : aligned_buf [v] = v :: replicate 7 Byte.xff.
Proof using Type. reflexivity. Qed.

Lemma zlen_padded v : zlen (padded v) = unit_sz.
Proof using Type*.
  pose proof bl_unit. unfold padded, unit_sz in *. rewrite aligned_byte, zlen_ztake by lia. cbn [length replicate]. lia.
Qed.

Lemma znth_padded v i : 0 <= i < unit_sz -> znth (padded v) i = if decide (i = 0) then v else Byte.xff.
Proof using Type*.
  intros Hi. pose proof bl_unit. unfold padded, unit_sz in *. rewrite znth_ztake, aligned_byte by done.
  case_decide as E; [by subst i|].
  assert (i = 1 \/ i = 2 \/ i = 3 \/ i = 4 \/ i = 5 \/ i = 6 \/ i = 7) as Hc by lia.
  by destruct Hc as [->|[->|[->|[->|[->|[->| ->]]]]]].
Qed.

(** A flag of slot 0. *)
Lemma flag_write V off id o : vwrite V FLASH_AREA_IMAGE_0 off (padded Byte.x01) id o =
  if decide (id = FLASH_AREA_IMAGE_0 /\ off <= o < off + unit_sz) then (if decide (o = off) then Byte.x01 else Byte.xff) else V id o.
Proof using Type*.
  rewrite vwrite_spec, zlen_padded. case_decide as C; [|done]. rewrite znth_padded by lia. repeat case_decide; done || lia.
Qed.

Lemma safely_write_magic id V bd (Q : unit -> blocks -> boot_loader_state -> Prop) (J : blocks -> Prop) :
  is_area id -> J V -> Q tt (vwrite V id (asize id - 16) boot_img_magic_bytes) bd ->
  safely (boot_write_magic (area_of id)) V bd Q J.
Proof using Type*.
  intros Hid HJ HQ. pose proof (size_bounds id Hid) as [Hz Hu]. unfold boot_write_magic, boot_magic_off, BOOT_MAGIC_SZ.
  fold (asize id). rewrite u32_small by lia. apply safely_or_return, safely_write; [done|lia| |done..].
  fold (asize id). change (zlen boot_img_magic_bytes) with 16. lia.
Qed.

Lemma safely_write_image_ok id V bd (Q : unit -> blocks -> boot_loader_state -> Prop) (J : blocks -> Prop) :
  is_area id -> J V -> Q tt (vwrite V id (asize id - 24) (padded Byte.x01)) bd ->
  safely (boot_write_image_ok (area_of id)) V bd Q J.
Proof using Type*.
  intros Hid HJ HQ. pose proof (size_bounds id Hid) as [Hz Hu].
  unfold boot_write_image_ok, boot_write_flag, boot_image_ok_off, BOOT_MAGIC_SZ, BOOT_MAX_ALIGN. fold (asize id).
  rewrite u32_small by lia. rewrite align_unit. apply safely_bind, safely_ret, safely_bind, safely_assert; [by apply Z.leb_le; lia|].
  change (z2b BOOT_FLAG_SET) with Byte.x01. fold (padded Byte.x01).
  apply safely_or_return, safely_write; [done|lia| |done|by replace (asize id - 16 - 8) with (asize id - 24) by lia].
  fold (asize id). rewrite zlen_padded. lia.
Qed.

Lemma safely_write_copy_done id V bd (Q : unit -> blocks -> boot_loader_state -> Prop) (J : blocks -> Prop) :
  slot_id id -> J V -> Q tt (vwrite V id (asize id - 32) (padded Byte.x01)) bd ->
  safely (boot_write_copy_done (area_of id)) V bd Q J.
Proof using Type*.
  intros Hs HJ HQ. pose proof (slot_area id Hs) as Hid. pose proof (size_bounds id Hid) as [Hz Hu].
  unfold boot_write_copy_done, boot_write_flag, boot_copy_done_off, BOOT_MAGIC_SZ, BOOT_MAX_ALIGN.
  rewrite (area_id id Hid), (slot_not_scratch id Hs). fold (asize id). rewrite u32_small by lia. rewrite align_unit.
  apply safely_bind, safely_bind, safely_assert; [done|]. apply safely_ret, safely_bind, safely_assert; [by apply Z.leb_le; lia|].
  change (z2b BOOT_FLAG_SET) with Byte.x01. fold (padded Byte.x01).
  apply safely_or_return, safely_write; [done|lia| |done|by replace (asize id - 16 - 8 * 2) with (asize id - 32) by lia].
  fold (asize id). rewrite zlen_padded. lia.
Qed.

(** The bytes of the swap size. *)
Definition size_bytes (n : Z) : list byte := ztake (Z.max 4 unit_sz) (aligned_buf (put32 n)).

Lemma aligned_size n : aligned_buf (put32 n) = put32 n ++ replicate 4 Byte.xff.
Proof using Type.
  unfold aligned_buf, splice. by rewrite length_put32.
Qed.

Lemma zlen_size_bytes n : zlen (size_bytes n) = Z.max 4 unit_sz.
Proof using Type*.
  pose proof bl_unit. unfold size_bytes, unit_sz in *. rewrite aligned_size, zlen_ztake, zlen_app by lia.
  rewrite length_put32. cbn [length replicate]. lia.
Qed.

Lemma znth_size_bytes n i : 0 <= i < 4 -> znth (size_bytes n) i = znth (put32 n) i.
Proof using Type*.
  intros Hi. pose proof bl_unit. unfold size_bytes, unit_sz in *. rewrite znth_ztake, aligned_size by lia.
  apply znth_app_l. rewrite length_put32. lia.
Qed.

Lemma safely_write_swap_size id n V bd (Q : unit -> blocks -> boot_loader_state -> Prop) (J : blocks -> Prop) :
  slot_id id -> J V -> Q tt (vwrite V id (asize id - 40) (size_bytes n)) bd ->
  safely (boot_write_swap_size (area_of id) n) V bd Q J.
Proof using Type*.
  intros Hs HJ HQ. pose proof (slot_area id Hs) as Hid. pose proof (size_bounds id Hid) as [Hz Hu].
  unfold boot_write_swap_size, boot_swap_size_off, BOOT_MAGIC_SZ, BOOT_MAX_ALIGN.
  rewrite (area_id id Hid), (slot_not_scratch id Hs). fold (asize id). rewrite u32_small by lia. rewrite align_unit.
  apply safely_bind, safely_assert; [by apply Z.leb_le; lia|].
  replace (if unit_sz <? 4 then 4 else unit_sz) with (Z.max 4 unit_sz) by (destruct (Z.ltb_spec unit_sz 4); lia).
  fold (size_bytes n).
  apply safely_or_return, safely_write; [done|lia| |done|by replace (asize id - 16 - 8 * 3) with (asize id - 40) by lia].
  fold (asize id). rewrite zlen_size_bytes. lia.
Qed.

(** ** The size of a swap *)

Lemma safely_read_swap_size V bd (Q : Z -> blocks -> boot_loader_state -> Prop) J :
  vread V FLASH_AREA_IMAGE_0 (asize FLASH_AREA_IMAGE_0 - 16) 16 = boot_img_magic_bytes ->
  Q (get32 (vread V FLASH_AREA_IMAGE_0 (asize FLASH_AREA_IMAGE_0 - 40) 4)) V bd ->
  safely boot_read_swap_size V bd Q J.
Proof using Type*.
  intros Hm HQ. set (id := FLASH_AREA_IMAGE_0) in *. assert (is_area id) as Hid by by left.
  pose proof (size_bounds id Hid) as [Hz Hu]. unfold boot_read_swap_size.
  apply safely_bind, safely_or_return, safely_open; [done|]. apply safely_bind, safely_closing, safely_bind, safely_or_return.
  unfold boot_magic_off, BOOT_MAGIC_SZ. fold id (asize id). rewrite u32_small by lia.
  apply safely_read; [done|lia|lia|fold (asize id); lia|]. unfold bytes_eqb. rewrite Hm, bool_decide_eq_true_2 by done.
  unfold swap_size_at, boot_swap_size_off, BOOT_MAGIC_SZ, BOOT_MAX_ALIGN. rewrite (area_id id Hid).
  change (id =? FLASH_AREA_IMAGE_SCRATCH) with false. cbv iota. fold (asize id). rewrite u32_small by lia.
  apply safely_bind, safely_bind, safely_or_return, safely_read; [done|lia|lia|fold (asize id); lia|].
  apply safely_ret, safely_ret, safely_ret. by replace (asize id - 16 - 8 * 3) with (asize id - 40) by lia.
Qed.
End trailer.
