(* ===== verification/BootSwap.v ===== *)
(** * Bootloader: the swap and its interruptions

    The contents the areas go through while two images are exchanged, and the
    proof that every step of the swap, interrupted or not, stays among them. *)

From S2P Require Import Prelude FlashDriver SstFlash BootFlash BootUtil BootImage BootLoader BootView BootTrailer.

Section swap.
  Context {D : Type} `{!ARM_DRIVER_FLASH D, !FlashDevice D, !flash_reads D} {Layout : boot_layout} `{!boot_layout_ok D}.
  Context {Mbed : mbedtls} {Keys : bootutil_key_list}.
  Context (live : Prop).
  Local Abbreviation safely := (safely (D := D) live).
  Local Abbreviation SLOT0 := FLASH_AREA_IMAGE_0.
  Local Abbreviation SLOT1 := FLASH_AREA_IMAGE_1.
  Local Abbreviation SCRATCH := FLASH_AREA_IMAGE_SCRATCH.
  Implicit Types (V : blocks) (bd : boot_loader_state).

(** ** Geometry *)

Definition slot_size : Z := asize SLOT0.
Definition sector_count0 : Z := slot_size / flash_sector.
(** The last sector, with the trailer. *)
Definition last_off : Z := slot_size - flash_sector.
Definition status_off : Z := slot_size - (768 * unit_sz + 40).

Lemma geometry :
  asize SLOT1 = slot_size /\ slot_size <= asize SCRATCH /\ slot_size = sector_count0 * flash_sector /\
  2 <= sector_count0 <= 256 /\ 0 < flash_sector /\ last_off <= status_off /\ 1 <= unit_sz <= 8 /\ asize SCRATCH < 2 ^ 32.
Proof using Type*.
  pose proof bl_size0 as [Hm Hr]. pose proof bl_size1. pose proof bl_scratch. pose proof bl_trailer.
  pose proof (flash_sector_pos (D := D)) as Hp. destruct (size_bounds SCRATCH) as [Hz Hu]; [by right; right|].
  unfold sector_count0, last_off, status_off, slot_size, asize, area_of in *. cbn [Z.eqb fa_size] in *.
  unfold unit_sz in *. apply Z.div_exact in Hm; [|lia]. split_and!; cbn in *; try lia; try nia.
Qed.

Lemma slot0_area : is_area SLOT0. Proof using Type. by left. Qed.
Lemma slot1_area : is_area SLOT1. Proof using Type. by right; left. Qed.
Lemma scratch_is_area : is_area SCRATCH. Proof using Type. by right; right. Qed.

(** ** RAM *)

Definition sector_list (n : nat) : list boot_sector_t :=
  (fun i => FlashSector (Z.of_nat i * flash_sector) flash_sector) <$> seq 0 n.

Record ready bd : Prop := {
  rd_sectors0 : sectors (img0 bd) = sector_list (Z.to_nat sector_count0);
  rd_sectors1 : sectors (img1 bd) = sector_list (Z.to_nat sector_count0);
  rd_num0 : num_sectors (img0 bd) = sector_count0;
  rd_num1 : num_sectors (img1 bd) = sector_count0;
  rd_area0 : img_area (img0 bd) = Some (area_of SLOT0);
  rd_scratch : scratch_area bd = Some (area_of SCRATCH);
  rd_write : write_sz bd = unit_sz;
}.

Lemma safely_write_sz V bd (Q : Z -> blocks -> boot_loader_state -> Prop) J :
  ready bd -> Q unit_sz V bd -> safely BOOT_WRITE_SZ V bd Q J.
Proof using Type. intros Hb HQ. apply safely_gets. intros s ->. by rewrite (rd_write _ Hb). Qed.

Lemma sector_list_lookup n i : (i < n)%nat -> sector_list n !! i = Some (FlashSector (Z.of_nat i * flash_sector) flash_sector).
Proof using Type.
  intros Hi. unfold sector_list. rewrite list_lookup_fmap, lookup_seq_lt by done. done.
Qed.

Lemma safely_sector slot i V bd (Q : boot_sector_t -> blocks -> boot_loader_state -> Prop) J :
  ready bd -> 0 <= i < sector_count0 -> Q (FlashSector (i * flash_sector) flash_sector) V bd ->
  safely (img_sector slot i) V bd Q J.
Proof using Type*.
  intros Hb Hi HQ. pose proof geometry as (_ & _ & _ & Hn & _). unfold img_sector, BOOT_MAX_IMG_SECTORS.
  rewrite (proj2 (Z.leb_le 0 i)), (proj2 (Z.ltb_lt i 256)) by lia. apply safely_gets. intros s ->.
  assert (sectors (img slot bd) !! Z.to_nat i = Some (FlashSector (i * flash_sector) flash_sector)) as ->; [|done].
  unfold img. destruct (slot =? 0); rewrite ?(rd_sectors0 _ Hb), ?(rd_sectors1 _ Hb), sector_list_lookup by lia;
    by rewrite Z2Nat.id by lia.
Qed.

Lemma safely_sector_size slot i V bd (Q : Z -> blocks -> boot_loader_state -> Prop) J :
  ready bd -> 0 <= i < sector_count0 -> Q flash_sector V bd -> safely (boot_img_sector_size slot i) V bd Q J.
Proof using Type*. intros Hb Hi HQ. apply safely_bind, safely_sector; [done..|]. by apply safely_ret. Qed.

Lemma safely_sector_off slot i V bd (Q : Z -> blocks -> boot_loader_state -> Prop) J :
  ready bd -> 0 <= i < sector_count0 -> Q (i * flash_sector) V bd -> safely (boot_img_sector_off slot i) V bd Q J.
Proof using Type*.
  intros Hb Hi HQ. pose proof geometry as (_ & Hs & Hz & Hn & Hp & _ & _ & Hl). apply safely_bind, safely_sector; [done..|].
  apply safely_bind, safely_sector; [done|lia|]. apply safely_ret. cbn [fs_off].
  rewrite Z.mul_0_l, Z.sub_0_r, u32_small by nia. done.
Qed.

Lemma safely_num_sectors slot V bd (Q : Z -> blocks -> boot_loader_state -> Prop) J :
  ready bd -> Q sector_count0 V bd -> safely (boot_img_num_sectors slot) V bd Q J.
Proof using Type.
  intros Hb HQ. apply safely_gets. intros s ->. unfold img. by destruct (slot =? 0); rewrite ?(rd_num0 _ Hb), ?(rd_num1 _ Hb).
Qed.

Lemma safely_erase_last id V bd (Q : unit -> blocks -> boot_loader_state -> Prop) (J : blocks -> Prop) :
  slot_id id -> ready bd -> (forall V', (forall id' o, V' id' o = V id' o) -> J V') ->
  (forall V', erased_to V id last_off 1 V' -> Q tt V' bd) ->
  safely (boot_erase_last_sector_by_id id) V bd Q J.
Proof using Type*.
  intros Hs Hb HJ HQ. pose proof geometry as (H1 & H2 & H3 & H4 & H5 & _ & _ & H8).
  unfold boot_erase_last_sector_by_id.
  assert ((id =? SLOT0) || (id =? SLOT1) = true) as -> by by destruct Hs as [->| ->].
  apply safely_bind, safely_num_sectors; [done|]. rewrite u32_small by nia.
  apply safely_bind, safely_sector_off; [done|lia|]. apply safely_bind, safely_sector_size; [done|lia|].
  apply safely_asserted. replace ((sector_count0 - 1) * flash_sector) with last_off by (unfold last_off; nia).
  replace flash_sector with (1 * flash_sector) at 1 by lia.
  apply safely_erase_sector; [by apply slot_area|unfold last_off; nia| | lia| | |done].
  - unfold last_off. rewrite H3. replace (sector_count0 * flash_sector - flash_sector) with ((sector_count0 - 1) * flash_sector) by lia.
    apply Z.mod_mul. lia.
  - fold (asize id). destruct Hs as [->| ->]; unfold last_off, slot_size in *; lia.
  - intros V' j Hj HV'. apply HJ. intros id' o. rewrite HV'. unfold vfill. rewrite decide_False; [done|]. nia.
Qed.

(** ** Status bytes of slot 0 *)

Definition status_at V (i : Z) : Z := b2z (V SLOT0 (status_off + i * unit_sz)).

(** The first [k] steps are recorded; the place of step 0 is never written. *)
Definition statuses V (k : Z) : Prop :=
  forall i, 0 <= i < 768 -> status_at V i = if decide (1 <= i <= k) then i mod 3 else 0xff.

Lemma status_off_slot V bd (Q : Z -> blocks -> boot_loader_state -> Prop) J :
  Q status_off V bd -> safely (boot_status_off (area_of SLOT0)) V bd Q J.
Proof using Type*.
  intros HQ. pose proof (size_bounds SLOT0 slot0_area) as [Hz Hu]. unfold boot_status_off. rewrite align_unit.
  change (fa_id (area_of SLOT0) =? SCRATCH) with false. cbv iota. unfold boot_slots_trailer_sz, BOOT_STATUS_MAX_ENTRIES,
    BOOT_STATUS_STATE_COUNT, BOOT_MAX_ALIGN, BOOT_MAGIC_SZ. fold (asize SLOT0). rewrite u32_small by lia.
  apply safely_bind, safely_assert; [apply Z.leb_le; lia|]. apply safely_ret. unfold status_off, slot_size in HQ.
  by replace (asize SLOT0 - (256 * 3 * unit_sz + 8 * 3 + 16)) with (asize SLOT0 - (768 * unit_sz + 40)) by lia.
Qed.

Lemma safely_status_at i V bd (Q : Z -> blocks -> boot_loader_state -> Prop) J :
  0 <= i < 768 -> Q (status_at V i) V bd -> safely (read_byte (area_of SLOT0) (u32 (status_off + i * unit_sz))) V bd Q J.
Proof using Type*.
  intros Hi HQ. pose proof (size_bounds SLOT0 slot0_area) as [Hz Hu]. unfold status_off, slot_size in *. rewrite u32_small by nia.
  apply safely_read_byte; [apply slot0_area|nia|done].
Qed.

Lemma no_status_loop n i V bd (Q : Z * bool -> blocks -> boot_loader_state -> Prop) J :
  statuses V 0 -> 0 <= i -> i + Z.of_nat n = 768 -> Q (768, false) V bd ->
  safely (status_bytes_loop n (area_of SLOT0) status_off unit_sz i false) V bd Q J.
Proof using Type*.
  intros Hs. revert i. induction n as [|n IH]; intros i Hi Hn HQ; cbn [status_bytes_loop].
  { apply safely_ret. by replace i with 768 by lia. }
  apply safely_bind, safely_or_return, safely_status_at; [lia|]. rewrite Hs, decide_False by lia.
  apply IH; [lia..|done].
Qed.

Lemma status_loop n i k V bd (Q : Z * bool -> blocks -> boot_loader_state -> Prop) J :
  statuses V k -> 1 <= k < 767 -> 0 <= i <= k + 1 -> i + Z.of_nat n = 768 -> Q (k + 1, true) V bd ->
  safely (status_bytes_loop n (area_of SLOT0) status_off unit_sz i (1 <? i)) V bd Q J.
Proof using Type*.
  intros Hs Hk. revert i. induction n as [|n IH]; intros i Hi Hn HQ; [lia|]. cbn [status_bytes_loop].
  apply safely_bind, safely_or_return, safely_status_at; [lia|]. rewrite Hs by lia. case_decide as C.
  - pose proof (Z.mod_pos_bound i 3 ltac:(lia)). rewrite (proj2 (Z.eqb_neq _ _)) by lia.
    replace true with (1 <? i + 1) by (apply Z.ltb_lt; lia). apply IH; [lia..|done].
  - change (255 =? 255) with true. cbv iota. destruct (Z.ltb_spec 1 i) as [Hlt|Hge].
    + apply safely_ret. by replace (k + 1) with i in HQ by lia.
    + assert (i = 0) as -> by lia. apply (IH 1); [lia..|done].
Qed.

Lemma safely_status_bytes k bs V bd (Q : boot_status -> blocks -> boot_loader_state -> Prop) J :
  ready bd -> 0 <= k < 767 -> statuses V k ->
  Q (if decide (k = 0) then bs else BootStatus (k / 3) (k mod 3) (use_scratch bs) (swap_size bs)) V bd ->
  safely (boot_read_status_bytes (area_of SLOT0) bs) V bd Q J.
Proof using Type*.
  intros Hb Hk Hs HQ. unfold boot_read_status_bytes. apply safely_bind, status_off_slot, safely_bind, safely_write_sz; [done|].
  apply safely_bind. change (Z.to_nat (boot_status_entries (area_of SLOT0))) with 768%nat. case_decide as E.
  - subst k. apply no_status_loop; [done..|]. by apply safely_ret.
  - change false with (1 <? 0) at 1. apply (status_loop _ _ k); [done|lia..|].
    replace (k + 1 - 1) with k by lia. by apply safely_ret.
Qed.

(** Writing the status after step [k]. *)
Lemma safely_write_status k bs V bd (Q : unit -> blocks -> boot_loader_state -> Prop) (J : blocks -> Prop) :
  ready bd -> use_scratch bs = false -> 0 <= k < 768 -> idx bs = k / 3 -> state bs = k mod 3 -> J V ->
  Q tt (vwrite V SLOT0 (status_off + k * unit_sz) (padded (z2b (k mod 3)))) bd ->
  safely (boot_write_status bs) V bd Q J.
Proof using Type*.
  intros Hb Hu Hk Hi Hst HJ HQ. pose proof (size_bounds SLOT0 slot0_area) as [Hz Hw]. unfold boot_write_status. rewrite Hu, Hi, Hst.
  apply safely_bind, safely_or_return, safely_open; [apply slot0_area|]. apply safely_closing, safely_bind, status_off_slot.
  apply safely_bind, safely_write_sz; [done|]. unfold boot_status_internal_off, BOOT_STATUS_STATE_COUNT.
  assert (k / 3 * (unit_sz * 3) + k mod 3 * unit_sz = k * unit_sz) as -> by (rewrite (Z.div_mod k 3) at 3 by lia; nia).
  unfold status_off, slot_size in *. rewrite !u32_small by (rewrite ?u32_small; nia). rewrite align_unit. fold (padded (z2b (k mod 3))).
  apply safely_or_return, safely_write; [apply slot0_area|nia| |done|done]. rewrite zlen_padded. fold (asize SLOT0). nia.
Qed.

Lemma statuses_write V k : 0 <= k < 767 -> statuses V k ->
  statuses (vwrite V SLOT0 (status_off + (k + 1) * unit_sz) (padded (z2b ((k + 1) mod 3)))) (k + 1).
Proof using Type*.
  intros Hk Hs i Hi. pose proof geometry as (_ & _ & _ & _ & _ & _ & Hw & _). unfold status_at.
  rewrite vwrite_spec, zlen_padded. pose proof (Z.mod_pos_bound (k + 1) 3 ltac:(lia)) as Hm.
  destruct (decide (i = k + 1)) as [->|Hne].
  - rewrite decide_True by nia. rewrite znth_padded, decide_True, (decide_True (P := _ <= _ <= _)) by lia.
    apply b2z_z2b. lia.
  - rewrite decide_False by nia. specialize (Hs i Hi). unfold status_at in Hs. rewrite Hs.
    repeat case_decide; try done; lia.
Qed.
End swap.
