(* ===== verification/BootSteps.v ===== *)
(** * Bootloader: the phases and the steps of a swap

    The images [I0] and [I1] are exchanged in one region of [swap_bytes] bytes
    that leaves the last sector, with the trailer, alone.  Each step of
    [boot_swap_sectors] leads from one phase to the next, and an interruption leaves
    the phase it started from. *)

From S2P Require Import Prelude FlashDriver SstFlash BootFlash BootUtil BootImage BootLoader BootView BootTrailer BootSwap.

Section phase.
  Context {D : Type} `{!ARM_DRIVER_FLASH D, !FlashDevice D, !flash_reads D} {Layout : boot_layout} `{!boot_layout_ok D}.
  (** What the slots hold before the swap, and the size of the larger image. *)
  Context (I0 I1 : Z -> byte) (sw : Z).
  Local Abbreviation SLOT0 := FLASH_AREA_IMAGE_0.
  Local Abbreviation SLOT1 := FLASH_AREA_IMAGE_1.
  Local Abbreviation SCRATCH := FLASH_AREA_IMAGE_SCRATCH.
  Local Abbreviation T := slot_size.
  Implicit Types (V : blocks) (bd : boot_loader_state).

Definition swap_sectors : Z := (sw - 1) / flash_sector + 1.
Definition swap_bytes : Z := swap_sectors * flash_sector.

Definition swap_fits : Prop := 0 < sw < 2 ^ 32 /\ swap_bytes <= last_off.

(** The new image is to stay: [image_ok] is set in its trailer. *)
Definition permanent : bool := b2z (I1 (T - 24)) =? 1.

Definition holds V (id : Z) (c : Z -> byte) (n : Z) : Prop := forall o, 0 <= o < n -> V id o = c o.

(** ** Phases *)

(** The trailer of slot 0 during the swap, [k] steps recorded. *)
Record swap_trailer V (k : Z) : Prop := {
  t_magic : vread V SLOT0 (T - 16) 16 = boot_img_magic_bytes;
  t_done : b2z (V SLOT0 (T - 32)) = 0xff;
  t_ok : b2z (V SLOT0 (T - 24)) = if permanent then 1 else 0xff;
  t_size : vread V SLOT0 (T - 40) 4 = put32 sw;
  t_status : statuses V k;
}.

(** The scratch area does not keep the status of a swap. *)
Definition scratch_idle V : Prop := magic (swap_state_of V SCRATCH) <> BOOT_MAGIC_GOOD.

(** The trailers do not show a swap in progress. *)
Definition quiet V : Prop :=
  scratch_idle V /\
  (status_source_loop boot_status_tables (swap_state_of V SLOT0) (swap_state_of V SCRATCH) = BOOT_STATUS_SOURCE_NONE
   \/ statuses V 0).

(** Nothing has been moved; the trailer of slot 0 may be new. *)
Record phase0 V : Prop := { p0_new : holds V SLOT1 I1 T; p0_old : holds V SLOT0 I0 last_off; p0_quiet : quiet V }.

(** The new image is in scratch. *)
Record phase1 V : Prop := {
  p1_old : holds V SLOT0 I0 last_off; p1_new : holds V SCRATCH I1 swap_bytes; p1_trailer : swap_trailer V 1; p1_scratch : scratch_idle V }.

Definition blank_last V : Prop := forall o, last_off <= o < T -> V SLOT1 o = Byte.xff.

(** The old image is in slot 1. *)
Record phase2 V : Prop := {
  p2_old : holds V SLOT1 I0 swap_bytes; p2_blank : blank_last V; p2_new : holds V SCRATCH I1 swap_bytes; p2_trailer : swap_trailer V 2;
  p2_scratch : scratch_idle V }.

(** The new image is in slot 0. *)
Record phase3 V : Prop := {
  p3_old : holds V SLOT1 I0 swap_bytes; p3_blank : blank_last V; p3_new : holds V SLOT0 I1 swap_bytes; p3_trailer : swap_trailer V 3;
  p3_scratch : scratch_idle V }.

Definition progress V : Prop := phase0 V \/ phase1 V \/ phase2 V \/ phase3 V.

(** ** What the phases depend on *)

Context (Hfits : swap_fits).

Lemma swap_bounds : 0 < swap_bytes <= last_off /\ 1 <= swap_sectors < sector_count0 /\ sw <= swap_bytes.
Proof using All.
  pose proof geometry as (_ & _ & G3 & G4 & G5 & _). destruct Hfits as [H1 H2]. unfold swap_bytes, swap_sectors, last_off in *. set (S0 := flash_sector) in *.
  pose proof (Z.div_pos (sw - 1) S0 ltac:(lia) ltac:(lia)).
  pose proof (Z.div_mod (sw - 1) S0 ltac:(lia)). pose proof (Z.mod_pos_bound (sw - 1) S0 ltac:(lia)). nia.
Qed.

(** Offsets in order. *)
Lemma offsets : 0 < last_off /\ last_off <= status_off /\ status_off + 768 * unit_sz = T - 40 /\ 1 <= unit_sz <= 8 /\
  asize SLOT1 = T /\ T <= asize SCRATCH /\ T = last_off + flash_sector /\ 0 < flash_sector.
Proof using All.
  pose proof geometry as (G1 & G2 & G3 & G4 & G5 & G6 & G7 & _). unfold last_off, status_off in *. split_and!; try nia; done.
Qed.

Lemma swap_state_ext V V' id :
  (forall o, asize id - 40 <= o < asize id -> V' id o = V id o) -> swap_state_of V' id = swap_state_of V id.
Proof using Type.
  intros H. unfold swap_state_of. rewrite (vread_ext V' V id id _ (asize id - 16)) by (intros i Hi; apply H; lia).
  by rewrite !H by lia.
Qed.

Lemma statuses_ext V V' k : (forall o, last_off <= o < T -> V' SLOT0 o = V SLOT0 o) -> statuses V k -> statuses V' k.
Proof using All.
  intros H Hs i Hi. pose proof offsets as (O1 & O2 & O3 & O4 & _). rewrite <- Hs by done. unfold status_at. rewrite H by nia. done.
Qed.

Lemma trailer_ext V V' k : (forall o, last_off <= o < T -> V' SLOT0 o = V SLOT0 o) -> swap_trailer V k -> swap_trailer V' k.
Proof using All.
  intros H [H1 H2 H3 H4 H5]. pose proof offsets as (O1 & O2 & O3 & O4 & _).
  split; rewrite ?H by lia; try done; [| |by eapply statuses_ext].
  - rewrite <- H1. apply vread_ext. intros i Hi. apply H. lia.
  - rewrite <- H4. apply vread_ext. intros i Hi. apply H. lia.
Qed.

Lemma holds_ext V V' id c n : (forall o, 0 <= o < n -> V' id o = V id o) -> holds V id c n -> holds V' id c n.
Proof using Type. intros H Hh o Ho. rewrite H by done. by apply Hh. Qed.

Lemma scratch_idle_ext V V' : (forall o, asize SCRATCH - 40 <= o < asize SCRATCH -> V' SCRATCH o = V SCRATCH o) -> scratch_idle V -> scratch_idle V'.
Proof using Type. intros H Hi. unfold scratch_idle. by rewrite (swap_state_ext V V'). Qed.

(** Scratch may be overwritten. *)
Lemma phase0_scratch V V' : phase0 V -> only V V' SCRATCH 0 swap_bytes -> phase0 V'.
Proof using All.
  intros [P1 P2 [P3 P4]] Ho. pose proof offsets as (O1 & O2 & O3 & O4 & O5 & O6 & O7 & _). pose proof swap_bounds as [B1 _].
  assert (forall id, id <> SCRATCH -> forall o, V' id o = V id o) as Hs by (intros id Hid o; apply Ho; tauto).
  assert (swap_state_of V' SCRATCH = swap_state_of V SCRATCH) as E3 by (apply swap_state_ext; intros o Hr; apply Ho; lia).
  assert (swap_state_of V' SLOT0 = swap_state_of V SLOT0) as E0 by (apply swap_state_ext; intros o Hr; by apply Hs).
  split; [by eapply holds_ext; [intros; by apply Hs|]..|]. split; unfold scratch_idle; rewrite ?E3, ?E0; [done|].
  destruct P4 as [P4|P4]; [by left|right]. eapply statuses_ext; [|done]. intros. by apply Hs.
Qed.

Lemma phase1_slot1 V V' : phase1 V -> (forall id o, id <> SLOT1 -> V' id o = V id o) -> phase1 V'.
Proof using All.
  intros [P1 P2 P3 P4] Ho. split; [by eapply holds_ext; [intros; by apply Ho|]..| |].
  - eapply trailer_ext; [|done]. intros. by apply Ho.
  - eapply scratch_idle_ext; [|done]. intros. by apply Ho.
Qed.

Lemma phase2_slot0 V V' : phase2 V -> only V V' SLOT0 0 swap_bytes -> phase2 V'.
Proof using All.
  intros [P1 P2 P3 P4 P5] Ho. pose proof swap_bounds as [B1 _].
  assert (forall id, id <> SLOT0 -> forall o, V' id o = V id o) as Hs by (intros id Hid o; apply Ho; tauto).
  split; [by eapply holds_ext; [intros; by apply Hs|]| |by eapply holds_ext; [intros; by apply Hs|]| |].
  - intros o Hr. rewrite Hs by done. by apply P2.
  - eapply trailer_ext; [|done]. intros o Hr. apply Ho. lia.
  - eapply scratch_idle_ext; [|done]. intros. by apply Hs.
Qed.

(** ** Writing the trailer *)

Lemma trailer_next V k : 0 <= k < 767 -> swap_trailer V k ->
  swap_trailer (vwrite V SLOT0 (status_off + (k + 1) * unit_sz) (padded (z2b ((k + 1) mod 3)))) (k + 1).
Proof using All.
  intros Hk [H1 H2 H3 H4 H5]. pose proof offsets as (O1 & O2 & O3 & O4 & _).
  assert (forall o, T - 40 <= o -> vwrite V SLOT0 (status_off + (k + 1) * unit_sz) (padded (z2b ((k + 1) mod 3))) SLOT0 o = V SLOT0 o) as E.
  { intros o Ho. rewrite vwrite_spec, zlen_padded, decide_False; [done|]. nia. }
  split; rewrite ?E by lia; try done; [| |by apply statuses_write].
  - rewrite <- H1. apply vread_ext. intros i Hi. apply E. lia.
  - rewrite <- H4. apply vread_ext. intros i Hi. apply E. lia.
Qed.

(** The status write changes only the trailer of slot 0. *)
Lemma status_only V k bs : 0 <= k < 768 -> zlen bs = unit_sz -> only V (vwrite V SLOT0 (status_off + k * unit_sz) bs) SLOT0 last_off flash_sector.
Proof using All.
  intros Hk Hl. pose proof offsets as (O1 & O2 & O3 & O4 & _ & _ & O7 & _). apply only_vwrite; nia.
Qed.

(** Contents of slot 0 during the initialisation of its trailer. *)
Definition init_ok V : blocks := if permanent then vwrite V SLOT0 (T - 24) (padded Byte.x01) else V.
Definition init_size V : blocks := vwrite V SLOT0 (T - 40) (size_bytes sw).
Definition init_magic V : blocks := vwrite V SLOT0 (T - 16) boot_img_magic_bytes.

Definition blank_trailer V : Prop := forall o, last_off <= o < T -> V SLOT0 o = Byte.xff.

Lemma init_trailer V : blank_trailer V -> swap_trailer (init_magic (init_size (init_ok V))) 0.
Proof using All.
  intros Hb. pose proof offsets as (O1 & O2 & O3 & O4 & _). pose proof (zlen_size_bytes sw) as Hz.
  assert (forall o, init_ok V SLOT0 o = if decide (permanent = true /\ T - 24 <= o < T - 24 + unit_sz)
            then znth (padded Byte.x01) (o - (T - 24)) else V SLOT0 o) as E1.
  { intros o. unfold init_ok. destruct permanent; [rewrite vwrite_spec, zlen_padded|]; repeat case_decide; naive_solver lia. }
  assert (forall o, ~ (T - 16 <= o < T) -> init_magic (init_size (init_ok V)) SLOT0 o = init_size (init_ok V) SLOT0 o) as E2.
  { intros o Ho. unfold init_magic. rewrite vwrite_spec. change (zlen boot_img_magic_bytes) with 16. by rewrite decide_False by lia. }
  assert (forall o, ~ (T - 40 <= o < T - 32) -> init_size (init_ok V) SLOT0 o = init_ok V SLOT0 o) as E3.
  { intros o Ho. unfold init_size. rewrite vwrite_spec, Hz. by rewrite decide_False by lia. }
  split.
  - by apply vread_vwrite_eq.
  - rewrite E2, E3, E1, decide_False, Hb by lia. done.
  - rewrite E2, E3, E1 by lia. destruct permanent.
    + rewrite decide_True, znth_padded, decide_True by lia. done.
    + rewrite decide_False by (intros [? _]; done). by rewrite Hb by lia.
  - apply zlist_ext; [rewrite zlen_vread, length_put32; lia|]. intros i Hi. rewrite zlen_vread in Hi by lia.
    rewrite znth_vread, E2 by lia. unfold init_size. rewrite vwrite_spec, Hz, decide_True by lia.
    replace (T - 40 + i - (T - 40)) with i by lia. by apply znth_size_bytes.
  - intros i Hi. unfold status_at. rewrite E2, E3, E1, !decide_False, Hb by nia. done.
Qed.

(** Without status bytes, whatever else the trailer holds. *)
Lemma phase0_trailer V V' : phase0 V -> only V V' SLOT0 last_off flash_sector -> statuses V' 0 -> phase0 V'.
Proof using All.
  intros [P1 P2 [P3 P4]] Ho Hst. pose proof offsets as (O1 & O2 & O3 & O4 & O5 & O6 & O7 & _).
  assert (swap_state_of V' SCRATCH = swap_state_of V SCRATCH) as E3 by (apply swap_state_ext; intros o Hr; apply Ho; by intros []).
  split; [eapply holds_ext; [|done]; intros o Hr; apply Ho; by intros []|eapply holds_ext; [|done]; intros o Hr; apply Ho; lia|].
  split; [unfold scratch_idle; by rewrite E3|by right].
Qed.

Lemma blank_statuses V : blank_trailer V -> statuses V 0.
Proof using All.
  intros Hb i Hi. pose proof offsets as (O1 & O2 & O3 & O4 & _). unfold status_at. rewrite Hb, decide_False by nia. done.
Qed.

Lemma init_only V : only V (init_ok V) SLOT0 last_off flash_sector /\ only V (init_size V) SLOT0 last_off flash_sector /\
  only V (init_magic V) SLOT0 last_off flash_sector.
Proof using All.
  pose proof offsets as (O1 & O2 & O3 & O4 & _ & _ & O7 & _). unfold init_ok, init_size, init_magic.
  split_and!; [destruct permanent; [|apply only_refl]|..]; apply only_vwrite;
    rewrite ?zlen_padded, ?zlen_size_bytes; change (zlen boot_img_magic_bytes) with 16; lia.
Qed.

Lemma init_keeps_statuses V k : statuses V k -> statuses (init_ok V) k /\ statuses (init_size V) k.
Proof using All.
  intros Hs. pose proof offsets as (O1 & O2 & O3 & O4 & _). unfold init_ok, init_size.
  split; [destruct permanent; [|done]|]; intros i Hi; rewrite <- Hs by done; unfold status_at;
    rewrite vwrite_spec, ?zlen_padded, ?zlen_size_bytes, decide_False by nia; done.
Qed.
End phase.

Section steps.
  Context {D : Type} `{!ARM_DRIVER_FLASH D, !FlashDevice D, !flash_reads D} {Layout : boot_layout} `{!boot_layout_ok D}.
  Context (live : Prop) (I0 I1 : Z -> byte) (sw : Z) (Hfits : swap_fits (D := D) sw).
  Local Abbreviation safely := (safely (D := D) live).
  Local Abbreviation SLOT0 := FLASH_AREA_IMAGE_0.
  Local Abbreviation SLOT1 := FLASH_AREA_IMAGE_1.
  Local Abbreviation SCRATCH := FLASH_AREA_IMAGE_SCRATCH.
  Local Abbreviation swap_bytes := (swap_bytes sw).
  Local Abbreviation swap_sectors := (swap_sectors sw).
  Local Abbreviation phase0 := (phase0 I0 I1).
  Local Abbreviation phase1 := (phase1 I0 I1 sw).
  Local Abbreviation phase2 := (phase2 I0 I1 sw).
  Local Abbreviation phase3 := (phase3 I0 I1 sw).
  Implicit Types (V : blocks) (bd : boot_loader_state).

Definition step_status (k : Z) : boot_status := BootStatus (k / 3) (k mod 3) false sw.

(** The status record after [k] steps is the state the code continues from. *)
Definition reaches (k : Z) (P : blocks -> Prop) bd (bs : boot_status) V' bd' : Prop :=
  bs = step_status k /\ bd' = bd /\ P V'.

Lemma pointwise_only V V' id : (forall id' o, V' id' o = V id' o) -> only V V' id 0 swap_bytes.
Proof using Type. intros H id' o _. apply H. Qed.

Lemma safely_status_init V bd (Q : unit -> blocks -> boot_loader_state -> Prop) (J : blocks -> Prop) :
  holds V SLOT1 I1 slot_size -> J V -> J (init_ok I1 V) -> J (init_size sw (init_ok I1 V)) ->
  Q tt (init_magic (init_size sw (init_ok I1 V))) bd ->
  safely (boot_status_init_by_id SLOT0 (step_status 0)) V bd Q J.
Proof using All.
  intros Hh J1 J2 J3 HQ. pose proof (offsets I0 I1 sw Hfits) as (O1 & O2 & O3 & O4 & O5 & _).
  unfold boot_status_init_by_id. apply safely_bind, safely_asserted, safely_open; [by left|].
  apply safely_bind, safely_asserted, safely_swap_state_by_id; [by right; left|]. cbn [swap_state_of image_ok].
  rewrite O5, Hh by lia. apply safely_bind. unfold init_ok in *. change (b2z (I1 (slot_size - 24)) =? BOOT_FLAG_SET) with (permanent I1).
  assert (forall V1, J V1 -> J (init_size sw V1) -> Q tt (init_magic (init_size sw V1)) bd ->
    safely (asserted (boot_write_swap_size (area_of SLOT0) sw) ;; asserted (boot_write_magic (area_of SLOT0)) ;;
      flash_area_close (Some (area_of SLOT0))) V1 bd Q J) as Hrest.
  { intros V1 K1 K2 HQ1. apply safely_bind, safely_asserted, safely_write_swap_size; [by left|done|].
    apply safely_bind, safely_asserted, safely_write_magic; [by left|done|]. by apply safely_close. }
  destruct (permanent I1).
  - apply safely_asserted, safely_write_image_ok; [by left|done|]. by apply Hrest.
  - apply safely_ret. by apply Hrest.
Qed.

(** Scratch receives the new image. *)
Lemma stage_new V bd (k : unit -> BM (D := D) boot_status) Q :
  phase0 V ->
  (forall V2, phase0 V2 -> holds V2 SCRATCH I1 swap_bytes -> safely (k tt) V2 bd Q phase0) ->
  safely (asserted (boot_erase_sector SCRATCH 0 swap_bytes) ;;
    bind (asserted (boot_copy_sector SLOT1 SCRATCH 0 0 swap_bytes)) k) V bd Q phase0.
Proof using All.
  intros HP Hk. pose proof (offsets I0 I1 sw Hfits) as (O1 & O2 & O3 & O4 & O5 & O6 & O7 & O8).
  pose proof (swap_bounds I0 I1 sw Hfits) as (B1 & B2 & B3).
  apply safely_bind, safely_asserted. unfold BootSteps.swap_bytes.
  apply safely_erase_sector; [by right; right|lia|done|lia|fold swap_bytes (asize SCRATCH); lia|..].
  { intros V' j Hj HV'. eapply phase0_scratch; [done..|]. by eapply erased_only; [|done]; lia. }
  intros V1 HV1. assert (phase0 V1) as HP1 by (eapply phase0_scratch; [done..|]; by eapply erased_only; [|done]; lia).
  fold swap_bytes. apply safely_bind, safely_asserted.
  apply safely_copy; [by right; left|by right; right|done|lia|lia|lia|fold (asize SLOT1); lia|fold (asize SCRATCH); lia|..].
  { intros V' HV'. by eapply phase0_scratch. }
  intros V2 HV2. apply Hk; [by eapply phase0_scratch; [..|eapply copied_only]|].
  intros o Ho. rewrite HV2. unfold vcopy. rewrite decide_True by lia. replace (0 + (o - 0)) with o by lia.
  apply (p0_new _ _ _ HP1). lia.
Qed.

Lemma step0_spec V bd :
  ready bd -> phase0 V -> safely (swap_step0 0 swap_bytes swap_bytes (step_status 0)) V bd (reaches 1 phase1 bd) phase0.
Proof using All.
  intros Hb HP. pose proof (offsets I0 I1 sw Hfits) as (O1 & O2 & O3 & O4 & O5 & O6 & O7 & O8).
  pose proof (swap_bounds I0 I1 sw Hfits) as (B1 & B2 & B3).
  unfold swap_step0. apply stage_new; [done|]. intros V2 HP2 Hsc.
  change (idx (step_status 0) =? 0) with true. change (use_scratch (step_status 0)) with false. cbv iota.
  apply safely_bind, safely_bind, safely_asserted, safely_erase_last; [by left|done| |].
  { intros V' HV'. eapply phase0_scratch; [done..|]. by apply pointwise_only. }
  intros V3 HV3. assert (only V2 V3 SLOT0 last_off flash_sector) as Ho3.
  { replace flash_sector with (1 * flash_sector) by lia. eapply erased_only; [|exact HV3]. lia. }
  assert (blank_trailer V3) as Hbl.
  { intros o Ho. rewrite HV3. unfold vfill. by rewrite decide_True by lia. }
  pose proof (blank_statuses I0 I1 sw Hfits V3 Hbl) as Hs3.
  destruct (init_keeps_statuses I0 I1 sw Hfits V3 0 Hs3) as [Hs4 _].
  destruct (init_keeps_statuses I0 I1 sw Hfits _ 0 Hs4) as [_ Hs5].
  destruct (init_only I0 I1 sw Hfits V3) as [Ho4 _].
  destruct (init_only I0 I1 sw Hfits (init_ok I1 V3)) as (_ & Ho5 & _).
  destruct (init_only I0 I1 sw Hfits (init_size sw (init_ok I1 V3))) as (_ & _ & Ho6).
  assert (phase0 V3) as HP3 by by eapply phase0_trailer.
  assert (phase0 (init_ok I1 V3)) as HP4 by by eapply phase0_trailer.
  assert (phase0 (init_size sw (init_ok I1 V3))) as HP5 by by eapply phase0_trailer.
  pose proof (init_trailer I0 I1 sw Hfits V3 Hbl) as Ht.
  apply safely_status_init; [apply (p0_new _ _ _ HP3)|done..|].
  assert (phase0 (init_magic (init_size sw (init_ok I1 V3)))) as HP6 by (eapply phase0_trailer; [done..|]; apply Ht).
  set (V6 := init_magic _) in *.
  apply safely_bind, safely_asserted, (safely_write_status live 1); [done..|]. apply safely_ret.
  split_and!; [done..|]. assert (only V6 (vwrite V6 SLOT0 (status_off + 1 * unit_sz) (padded (z2b (1 mod 3)))) SLOT0 last_off flash_sector)
    as Ho7 by (apply (status_only I0 I1 sw Hfits V6 1); [lia|by rewrite zlen_padded]).
  split.
  - eapply holds_ext; [|apply (p0_old _ _ _ HP6)]. intros o Ho. apply Ho7. lia.
  - eapply holds_ext; [|exact Hsc]. intros o Ho. rewrite Ho7, Ho6, Ho5, Ho4, Ho3 by (by intros []). done.
  - apply (trailer_next I0 I1 sw Hfits V6 0); [lia|done].
  - eapply scratch_idle_ext; [|apply (p0_quiet _ _ _ HP6)]. intros o Ho. apply Ho7. by intros [].
Qed.

Lemma step1_spec V bd :
  ready bd -> phase1 V -> safely (swap_step1 0 swap_bytes swap_bytes (step_status 1)) V bd (reaches 2 phase2 bd) phase1.
Proof using All.
  intros Hb HP. pose proof (offsets I0 I1 sw Hfits) as (O1 & O2 & O3 & O4 & O5 & O6 & O7 & O8).
  pose proof (swap_bounds I0 I1 sw Hfits) as (B1 & B2 & B3).
  assert (forall V V' off n, only V V' SLOT1 off n -> phase1 V -> phase1 V') as Honly.
  { intros W W' off n Ho HW. eapply phase1_slot1; [done..|]. intros id o Hid. apply Ho. tauto. }
  unfold swap_step1. apply safely_bind, safely_asserted. unfold BootSteps.swap_bytes.
  apply safely_erase_sector; [by right; left|lia|done|lia|fold swap_bytes (asize SLOT1); lia|..].
  { intros V' j Hj HV'. eapply Honly; [|done]. apply (erased_only V SLOT1 0 j swap_sectors V'); [lia|done]. }
  intros V1 HV1. assert (phase1 V1) as HP1 by (eapply Honly; [apply (erased_only V SLOT1 0 swap_sectors swap_sectors V1); [lia|done]|done]).
  fold swap_bytes. apply safely_bind, safely_asserted.
  apply safely_copy; [by left|by right; left|done|lia|lia|lia|fold (asize SLOT0) slot_size; lia|fold (asize SLOT1); lia|..].
  { intros V' HV'. by eapply Honly. }
  intros V2 HV2. assert (phase1 V2) as HP2 by (eapply Honly; [by eapply copied_only|done]).
  change ((idx (step_status 1) =? 0) && negb (use_scratch (step_status 1))) with true. cbv iota.
  apply safely_bind, safely_asserted, safely_erase_last; [by right|done| |].
  { intros V' HV'. eapply Honly; [|done]. by apply pointwise_only. }
  intros V3 HV3. assert (only V2 V3 SLOT1 last_off flash_sector) as Ho3.
  { replace flash_sector with (1 * flash_sector) by lia. eapply erased_only; [|exact HV3]. lia. }
  assert (phase1 V3) as HP3 by by eapply Honly.
  apply safely_bind, safely_asserted, (safely_write_status live 2); [done..|]. apply safely_ret.
  split_and!; [done..|]. assert (only V3 (vwrite V3 SLOT0 (status_off + 2 * unit_sz) (padded (z2b (2 mod 3)))) SLOT0 last_off flash_sector)
    as Ho4 by (apply (status_only I0 I1 sw Hfits V3 2); [lia|by rewrite zlen_padded]).
  split.
  - intros o Ho. rewrite Ho4 by (by intros []). rewrite Ho3 by lia. rewrite HV2. unfold vcopy. rewrite decide_True by lia.
    replace (0 + (o - 0)) with o by lia. apply (p1_old _ _ _ _ HP1). lia.
  - intros o Ho. rewrite Ho4 by (by intros []). rewrite HV3. unfold vfill. by rewrite decide_True by lia.
  - eapply holds_ext; [|apply (p1_new _ _ _ _ HP3)]. intros o Ho. apply Ho4. by intros [].
  - apply (trailer_next I0 I1 sw Hfits V3 1); [lia|apply HP3].
  - eapply scratch_idle_ext; [|apply (p1_scratch _ _ _ _ HP3)]. intros o Ho. apply Ho4. by intros [].
Qed.

Lemma step2_spec V bd :
  ready bd -> phase2 V -> safely (swap_step2 0 swap_bytes swap_bytes (step_status 2)) V bd (reaches 3 phase3 bd) phase2.
Proof using All.
  intros Hb HP. pose proof (offsets I0 I1 sw Hfits) as (O1 & O2 & O3 & O4 & O5 & O6 & O7 & O8).
  pose proof (swap_bounds I0 I1 sw Hfits) as (B1 & B2 & B3).
  unfold swap_step2. apply safely_bind, safely_asserted. unfold BootSteps.swap_bytes.
  apply safely_erase_sector; [by left|lia|done|lia|fold swap_bytes (asize SLOT0) slot_size; lia|..].
  { intros V' j Hj HV'. eapply phase2_slot0; [done..|]. eapply erased_only; [|done]. lia. }
  intros V1 HV1. assert (phase2 V1) as HP1 by (eapply phase2_slot0; [done..|]; eapply erased_only; [|done]; lia).
  fold swap_bytes. apply safely_bind, safely_asserted.
  apply safely_copy; [by right; right|by left|done|lia|lia|lia|fold (asize SCRATCH); lia|fold (asize SLOT0) slot_size; lia|..].
  { intros V' HV'. by eapply phase2_slot0. }
  intros V2 HV2. assert (phase2 V2) as HP2 by (eapply phase2_slot0; [done..|by eapply copied_only]).
  change (use_scratch (step_status 2)) with false. cbv iota. apply safely_bind, safely_ret.
  change (BootStatus _ 0 false _) with (step_status 3).
  apply safely_bind, safely_asserted, (safely_write_status live 3); [done..|]. apply safely_ret.
  split_and!; [done..|]. assert (only V2 (vwrite V2 SLOT0 (status_off + 3 * unit_sz) (padded (z2b (3 mod 3)))) SLOT0 last_off flash_sector)
    as Ho3 by (apply (status_only I0 I1 sw Hfits V2 3); [lia|by rewrite zlen_padded]).
  split.
  - eapply holds_ext; [|apply (p2_old _ _ _ _ HP2)]. intros o Ho. apply Ho3. by intros [].
  - intros o Ho. rewrite Ho3 by (by intros []). by apply (p2_blank _ _ _ _ HP2).
  - intros o Ho. rewrite Ho3 by lia. rewrite HV2. unfold vcopy. rewrite decide_True by lia.
    replace (0 + (o - 0)) with o by lia. apply (p2_new _ _ _ _ HP1). lia.
  - apply (trailer_next I0 I1 sw Hfits V2 2); [lia|apply HP2].
  - eapply scratch_idle_ext; [|apply (p2_scratch _ _ _ _ HP2)]. intros o Ho. apply Ho3. by intros [].
Qed.
End steps.
