(* ===== verification/BootValidate.v ===== *)
(** * Bootloader: which images pass the validation

    The fields behind an image as a list, what they say of it, and the proof that
    the walk of [bootutil_img_validate] computes that; an image it lets pass is
    signed with a key of the table, whatever the flash holds. *)

From S2P Require Import Prelude FlashDriver SstFlash BootFlash BootUtil BootImage BootLoader BootView BootTrailer.

(** The hash of a sequence of blocks is that of their concatenation. *)
Class sha256_streams `{!mbedtls} : Prop :=
  update_app c xs ys : bootutil_sha256_update c (xs ++ ys) = bootutil_sha256_update (bootutil_sha256_update c xs) ys.

(** ** Fields *)

Record tlv_field := TlvField { tf_type : Z; tf_pad : byte; tf_data : list byte }.

Definition put16 (x : Z) : list byte := [z2b (x mod 256); z2b (x / 256)].

Definition field_bytes (f : tlv_field) : list byte := z2b (tf_type f) :: tf_pad f :: put16 (zlen (tf_data f)) ++ tf_data f.

Definition field_ok (f : tlv_field) : Prop := 0 <= tf_type f < 256 /\ zlen (tf_data f) < 2 ^ 16.

Lemma get_put16 x rest : 0 <= x < 2 ^ 16 -> get16 (put16 x ++ rest) = x.
Proof.
  intros Hx. unfold get16, put16. change (znth ([z2b (x mod 256); z2b (x / 256)] ++ rest) 0) with (z2b (x mod 256)).
  change (znth ([z2b (x mod 256); z2b (x / 256)] ++ rest) 1) with (z2b (x / 256)).
  pose proof (Z.div_mod x 256 ltac:(lia)). pose proof (Z.mod_pos_bound x 256 ltac:(lia)).
  rewrite !b2z_z2b; [lia| |lia]. split; [apply Z.div_pos; lia|apply Z.div_lt_upper_bound; lia].
Qed.

Lemma zlen_field f : zlen (field_bytes f) = 4 + zlen (tf_data f).
Proof. unfold field_bytes, put16. cbn [length app]. lia. Qed.

Lemma fields_count fs : zlen fs <= zlen (fs ≫= field_bytes).
Proof. induction fs as [|f fs IH]; [done|]. cbn [mbind list_bind length]. rewrite zlen_app, zlen_field. lia. Qed.

(** The first bytes of a field. *)
Lemma decode_field f : field_ok f -> decode_tlv (ztake 4 (field_bytes f)) = ImageTlv (tf_type f) (zlen (tf_data f)).
Proof.
  intros [Ht Hl]. unfold decode_tlv.
  change (ztake 4 (field_bytes f)) with (z2b (tf_type f) :: tf_pad f :: put16 (zlen (tf_data f))).
  f_equal; [change (znth (z2b (tf_type f) :: _) 0) with (z2b (tf_type f)); by apply b2z_z2b|].
  change (slice 2 2 _) with (put16 (zlen (tf_data f)) ++ []). apply get_put16. lia.
Qed.

Definition header_of (c : Z -> byte) : image_header := decode_image_header (mread c 0 IMAGE_HEADER_SIZE).

(** The end of the image proper. *)
Definition image_end (c : Z -> byte) : Z := ih_hdr_size (header_of c) + ih_img_size (header_of c).

(** The bytes an image takes with its fields, where there is one. *)
Definition extent (c : Z -> byte) : Z :=
  if ih_magic (header_of c) =? IMAGE_MAGIC
  then image_end c + it_tlv_tot (decode_tlv_info (mread c (image_end c) 4)) else 0.

(** An image whose extent can be read from the first [n] bytes. *)
Definition measured (c : Z -> byte) (n : Z) : Prop :=
  ih_magic (header_of c) = IMAGE_MAGIC ->
  image_end c + 4 <= n /\ it_magic (decode_tlv_info (mread c (image_end c) 4)) = IMAGE_TLV_INFO_MAGIC.

Lemma header_fields (c : Z -> byte) : 0 <= ih_hdr_size (header_of c) < 2 ^ 16 /\ 0 <= ih_img_size (header_of c) < 2 ^ 32.
Proof.
  unfold header_of, decode_image_header. cbn [ih_hdr_size ih_img_size]. split.
  - unfold get16. pose proof (b2z_bound (znth (slice 8 2 (mread c 0 IMAGE_HEADER_SIZE)) 0)).
    pose proof (b2z_bound (znth (slice 8 2 (mread c 0 IMAGE_HEADER_SIZE)) 1)). lia.
  - apply get32_bound. apply Nat2Z.inj. by rewrite zlen_slice; unfold IMAGE_HEADER_SIZE; rewrite ?zlen_mread by lia; lia.
Qed.

Section fields.
  Context {Mbed : mbedtls} {Keys : bootutil_key_list}.

(** What one field says: whether the hash and a signature have been found to be
    right, and the key of the next signature; [None] refuses the image. *)
Definition field_step (hash : list byte) (v : bool * bool * Z) (f : tlv_field) : option (bool * bool * Z) :=
  let '(sha, sig, key) := v in
  let len := zlen (tf_data f) in
  if tf_type f =? IMAGE_TLV_SHA256 then
    if bool_decide (len = 32 /\ hash = tf_data f) then Some (true, sig, key) else None
  else if tf_type f =? IMAGE_TLV_KEYHASH then
    if bool_decide (len <= 32) then Some (sha, sig, find_key_loop bootutil_keys 0 (tf_data f)) else None
  else if tf_type f =? IMAGE_TLV_RSA2048_PSS then
    if bool_decide (0 <= key < zlen bootutil_keys) then
      if bool_decide (len = 256) then
        rc ← bootutil_verify_sig hash 32 (tf_data f) 256 key; Some (sha, sig || (rc =? 0), -1)
      else None
    else Some (sha, sig, -1)
  else Some v.

Fixpoint fields_run (hash : list byte) (v : bool * bool * Z) (fs : list tlv_field) : option (bool * bool * Z) :=
  match fs with
  | [] => Some v
  | f :: fs => v ← field_step hash v f; fields_run hash v fs
  end.

Definition image_digest (c : Z -> byte) : list byte := sha256 [mread c 0 (image_end c)].

(** A content is an image with the fields [fs] in [n] bytes that passes. *)
Record accepted (c : Z -> byte) (n : Z) (fs : list tlv_field) : Prop := {
  ac_magic : ih_magic (header_of c) = IMAGE_MAGIC;
  ac_bootable : Z.land (ih_flags (header_of c)) IMAGE_F_NON_BOOTABLE = 0;
  ac_size : 0 < image_end c /\ image_end c + 4 + zlen (fs ≫= field_bytes) <= n;
  ac_info : decode_tlv_info (mread c (image_end c) 4) = ImageTlvInfo IMAGE_TLV_INFO_MAGIC (4 + zlen (fs ≫= field_bytes));
  ac_fields : mread c (image_end c + 4) (zlen (fs ≫= field_bytes)) = fs ≫= field_bytes;
  ac_wf : Forall field_ok fs;
  ac_run : exists key, fields_run (image_digest c) (false, false, -1) fs = Some (true, true, key);
}.
Lemma accepted_more c n n' fs' : accepted c n fs' -> n <= n' -> accepted c n' fs'.
Proof using Type. intros [] Hle. split; try done. lia. Qed.

Lemma accepted_measured c n fs : accepted c n fs -> extent c = image_end c + 4 + zlen (fs ≫= field_bytes) /\ measured c n.
Proof using Type.
  intros [A1 A2 A3 A4 A5 A6 A7]. unfold extent, measured. rewrite A1, Z.eqb_refl, A4. cbn [it_tlv_tot it_magic].
  split; [lia|]. intros _. lia.
Qed.

(** ** Images that agree *)

Lemma header_ext c c' n : (forall o, 0 <= o < n -> c' o = c o) -> 32 <= n -> header_of c' = header_of c.
Proof using Type. intros H Hn. unfold header_of, IMAGE_HEADER_SIZE. f_equal. apply mread_ext. intros i Hi. apply H. lia. Qed.

Lemma mread_agree (c c' : Z -> byte) n off k : (forall o, 0 <= o < n -> c' o = c o) -> 0 <= off -> off + k <= n -> mread c' off k = mread c off k.
Proof using Type. intros H Ho Hk. apply mread_ext. intros i Hi. apply H. lia. Qed.

Lemma end_bound c : 0 <= image_end c.
Proof using Type. pose proof (header_fields c). unfold image_end. lia. Qed.

Lemma extent_ext c c' n : (forall o, 0 <= o < n -> c' o = c o) -> 32 <= n -> measured c n -> extent c' = extent c.
Proof using Type.
  intros H Hn Hm. pose proof (end_bound c). unfold extent, measured, image_end in *. rewrite (header_ext c c' n) by done.
  destruct (Z.eqb_spec (ih_magic (header_of c)) IMAGE_MAGIC) as [E|]; [|done]. destruct (Hm E) as [Hm1 _].
  by rewrite (mread_agree c c' n) by (done || lia).
Qed.

Lemma accepted_ext c c' n m fs : (forall o, 0 <= o < m -> c' o = c o) -> 32 <= m -> n <= m -> accepted c n fs -> accepted c' n fs.
Proof using Type.
  intros H Hm Hn [A1 A2 A3 A4 A5 A6 A7]. pose proof (end_bound c). unfold image_digest, image_end in *.
  split; unfold image_digest, image_end; rewrite ?(header_ext c c' m) by done; try done.
  - by rewrite (mread_agree c c' m) by (done || lia).
  - by rewrite (mread_agree c c' m) by (done || lia).
  - by rewrite (mread_agree c c' m) by (done || lia).
Qed.
End fields.

Section validate.
  Context {D : Type} `{!ARM_DRIVER_FLASH D, !FlashDevice D, !flash_reads D} {Layout : boot_layout} `{!boot_layout_ok D}.
  Context {Mbed : mbedtls} {Keys : bootutil_key_list} {Hsha : sha256_streams}.
  Context (live : Prop).
  Local Abbreviation safely := (safely (D := D) live).
  Implicit Types (V : blocks) (bd : boot_loader_state).

(** ** The hash *)

Lemma safely_hash_loop id size V bd (Q : sha256_context -> blocks -> boot_loader_state -> Prop) J :
  is_area id -> 0 <= size <= asize id ->
  (forall off, off = size -> Q (bootutil_sha256_update bootutil_sha256_init (vread V id 0 off)) V bd) ->
  forall fuel off ctx, 0 < off <= size -> size - off <= Z.of_nat fuel * 256 ->
  ctx = bootutil_sha256_update bootutil_sha256_init (vread V id 0 off) ->
  safely (img_hash_loop fuel (area_of id) 256 size off ctx) V bd Q J.
Proof using Type*.
  intros Hid Hsz HQ. pose proof (size_bounds id Hid) as [Hz _].
  induction fuel as [|fuel IH]; intros off ctx Ho Hf ->; cbn [img_hash_loop].
  { destruct (Z.ltb_spec off size); [lia|]. apply safely_ret, HQ. lia. }
  destruct (Z.ltb_spec off size) as [Hlt|Hge]; [|apply safely_ret, HQ; lia].
  set (k := if 256 <? size - off then 256 else size - off).
  assert (0 < k <= 256 /\ off + k <= size /\ (k = 256 \/ off + k = size)) as Hk
    by (subst k; destruct (Z.ltb_spec 256 (size - off)); lia).
  apply safely_bind, safely_read; [done|lia|lia|unfold asize in *; lia|]. apply IH; [lia|lia|].
  rewrite <- update_app. f_equal. unfold vread. rewrite (mread_app _ 0 off k) by lia. done.
Qed.

Lemma safely_img_hash id h V bd (Q : list byte -> blocks -> boot_loader_state -> Prop) J :
  is_area id -> 0 < ih_img_size h + ih_hdr_size h <= asize id ->
  Q (sha256 [vread V id 0 (ih_img_size h + ih_hdr_size h)]) V bd ->
  safely (bootutil_img_hash h (area_of id) 256) V bd Q J.
Proof using Type*.
  intros Hid Hsz HQ. pose proof (size_bounds id Hid) as [Hz _]. unfold bootutil_img_hash. rewrite u32_small by lia.
  set (size := ih_img_size h + ih_hdr_size h) in *.
  pose proof (Z.div_mod size 256 ltac:(lia)). pose proof (Z.mod_pos_bound size 256 ltac:(lia)).
  pose proof (Z.div_pos size 256 ltac:(lia) ltac:(lia)).
  apply safely_bind. replace (Z.to_nat (size / 256 + 1)) with (S (Z.to_nat (size / 256))) by lia. cbn [img_hash_loop].
  rewrite (proj2 (Z.ltb_lt 0 size)), Z.sub_0_r by lia. set (k := if 256 <? size then 256 else size).
  assert (0 < k <= 256 /\ k <= size /\ (k = 256 \/ k = size)) as Hk by (subst k; destruct (Z.ltb_spec 256 size); lia).
  apply safely_bind, safely_read; [done|lia|lia|unfold asize in *; lia|]. rewrite Z.add_0_l.
  eapply (safely_hash_loop id size); [done|lia| |lia|lia|done].
  intros off ->. apply safely_ret. exact HQ.
Qed.

(** ** The walk *)

Lemma pow_loop_ends {St R} (body : St -> BM (D := D) (St + R)) (P : nat -> St -> Prop) V bd
    (Q : R -> Prop) J :
  (forall n st, P n st -> safely (body st) V bd
     (fun r V' bd' => V' = V /\ bd' = bd /\ match r with inl st' => exists n', P n' st' /\ (n' < n)%nat | inr r => Q r end) J) ->
  forall p n st, P n st ->
  safely (pow_loop p body st) V bd
    (fun r V' bd' => V' = V /\ bd' = bd /\ match r with inl st' => exists n', P n' st' /\ (n' + 2 ^ p <= n)%nat | inr r => Q r end) J.
Proof using Type*.
  intros Hbody. induction p as [|p IH]; intros n st HP; cbn [pow_loop].
  - eapply safely_mono; [by apply (Hbody n)| |done]. intros [st'|r] V' bd' (-> & -> & H); [|done].
    split_and!; [done..|]. destruct H as (n' & H1 & H2). exists n'. split; [done|]. cbn [Nat.pow]. lia.
  - apply safely_bind. eapply safely_mono; [by apply (IH n)| |done].
    intros [st'|r] V' bd' (-> & -> & H); [|by apply safely_ret].
    destruct H as (n' & H1 & H2). eapply safely_mono; [by apply (IH n')| |done].
    intros [st''|r] V' bd' (-> & -> & H); [|done]. split_and!; [done..|]. destruct H as (n'' & H3 & H4).
    exists n''. split; [done|]. cbn [Nat.pow]. lia.
Qed.

(** A loop with a measure below its bound ends. *)
Lemma safely_pow_loop {St R} (body : St -> BM (D := D) (St + R)) (P : nat -> St -> Prop) V bd (Q : R -> Prop) J
    (R' : St + R -> blocks -> boot_loader_state -> Prop) p n st :
  (forall n st, P n st -> safely (body st) V bd
     (fun r V' bd' => V' = V /\ bd' = bd /\ match r with inl st' => exists n', P n' st' /\ (n' < n)%nat | inr r => Q r end) J) ->
  P n st -> Z.of_nat n < 2 ^ Z.of_nat p -> (forall r, Q r -> R' (inr r) V bd) -> safely (pow_loop p body st) V bd R' J.
Proof using Type*.
  intros Hbody HP Hn HR. eapply safely_mono; [by apply (pow_loop_ends body P V bd Q J Hbody p n)| |done].
  intros [st'|r] V' bd' (-> & -> & H); [|by apply HR]. destruct H as (n' & _ & Hle). exfalso.
  apply Nat2Z.inj_le in Hle. rewrite Nat2Z.inj_add, Nat2Z.inj_pow in Hle. change (Z.of_nat 2) with 2 in Hle. lia.
Qed.

Section walk.
  Context (V : blocks) (bd : boot_loader_state) (id : Z) (c : Z -> byte) (lim : Z) (hash : list byte).
  Context (Hid : is_area id) (Hlim : lim <= asize id) (Hc : forall o, 0 <= o < lim -> V id o = c o).

Lemma read_content off k (Q : list byte -> blocks -> boot_loader_state -> Prop) J :
  0 <= off -> 0 <= k -> off + k <= lim -> Q (mread c off k) V bd -> safely (flash_area_read (area_of id) off k) V bd Q J.
Proof using All.
  intros Ho Hk Hr HQ. apply safely_read; [done|lia|lia|unfold asize in Hlim; lia|].
  replace (vread V id off k) with (mread c off k); [done|]. symmetry. unfold vread. apply mread_ext. intros i Hi. apply Hc. lia.
Qed.

(** The fields from offset [off] to the end [e]. *)
Definition fields_at (off e : Z) (fs : list tlv_field) : Prop :=
  0 <= off /\ e = off + zlen (fs ≫= field_bytes) /\ e <= lim /\ mread c off (e - off) = fs ≫= field_bytes /\ Forall field_ok fs.

Lemma fields_first off e f fs : fields_at off e (f :: fs) ->
  let len := zlen (tf_data f) in
  off + 4 + len <= e /\ field_ok f /\ mread c off 4 = ztake 4 (field_bytes f) /\ mread c (off + 4) len = tf_data f /\
  fields_at (off + 4 + len) e fs.
Proof using All.
  intros (Ho & He & Hl & Hm & Hf). inversion Hf as [|? ? Hf1 Hf2]; subst x l. cbv zeta. set (len := zlen (tf_data f)).
  assert (zlen ((f :: fs) ≫= field_bytes) = 4 + len + zlen (fs ≫= field_bytes)) as Ez.
  { cbn [mbind list_bind]. rewrite zlen_app, zlen_field. done. }
  assert (0 <= zlen (fs ≫= field_bytes)) as Hp by lia. assert (0 <= len) as Hp' by (subst len; lia).
  replace (e - off) with (4 + (len + zlen (fs ≫= field_bytes))) in Hm by lia.
  rewrite mread_app, (mread_app c (off + 4)) in Hm by lia. cbn [mbind list_bind] in Hm.
  assert (mread c off 4 = ztake 4 (field_bytes f) /\
    mread c (off + 4) len ++ mread c (off + 4 + len) (zlen (fs ≫= field_bytes)) = tf_data f ++ (fs ≫= field_bytes)) as [E1 E2].
  { change (field_bytes f) with (ztake 4 (field_bytes f) ++ tf_data f) in Hm. rewrite <- (app_assoc (ztake 4 _)) in Hm.
    apply app_inj_1 in Hm; [exact Hm|]. apply Nat2Z.inj. by rewrite zlen_mread by lia. }
  apply app_inj_1 in E2 as [E2 E3]; [|apply Nat2Z.inj; by rewrite zlen_mread by lia].
  split_and!; [lia|done|done|done|]. split_and!; [lia|lia|done| |done]. by replace (e - (off + 4 + len)) with (zlen (fs ≫= field_bytes)) by lia.
Qed.

(** A state of the walk: [n] fields are left, and the rest of the run is the result. *)
Definition walking (e : Z) (res : bool * bool * Z) (n : nat) (v : validate_state) : Prop :=
  exists fs, n = length fs /\ fields_at (v_off v) e fs /\
    fields_run hash (sha256_valid v, valid_signature v, key_id v) fs = Some res.

Lemma validate_step e res J n v : walking e res n v ->
  safely (validate_tlv (area_of id) hash e v) V bd
    (fun r V' bd' => V' = V /\ bd' = bd /\
       match r with
       | inl v' => exists n', walking e res n' v' /\ (n' < n)%nat
       | inr v' => (sha256_valid v', valid_signature v', key_id v') = res
       end) J.
Proof using All.
  intros (fs & -> & Hfs & Hrun). pose proof (size_bounds id Hid) as [Hz _]. unfold validate_tlv. destruct fs as [|f fs].
  { destruct Hfs as (Ho & He & Hl & _). cbn [mbind list_bind length] in He. rewrite (proj2 (Z.ltb_ge (v_off v) e)) by lia. cbn [negb].
    apply safely_ret. cbn [fields_run] in Hrun. split_and!; [done..|]. congruence. }
  pose proof Hfs as (Ho & He & Hl & _). destruct (fields_first _ _ _ _ Hfs) as (F1 & F2 & F3 & F4 & F5).
  set (len := zlen (tf_data f)) in *. assert (0 <= len < 2 ^ 16) as Hlen by (destruct F2; subst len; lia).
  rewrite (proj2 (Z.ltb_lt (v_off v) e)) by lia. cbn [negb].
  apply safely_bind, read_content; [lia|lia|lia|]. rewrite F3, (decode_field f F2). cbn [it_len it_type]. fold len.
  rewrite !u32_small by lia. cbn [fields_run] in Hrun. destruct (field_step hash _ f) as [v1|] eqn:Es; [|done]. cbn [mbind option_bind] in Hrun.
  assert (forall sha sig k, v1 = (sha, sig, k) ->
    safely (ret (inl (ValidateState (v_off v + 4 + len) sha sig k) : validate_state + validate_state)) V bd
      (fun r V' bd' => V' = V /\ bd' = bd /\
       match r with
       | inl v' => exists n', walking e res n' v' /\ (n' < length (f :: fs))%nat
       | inr v' => (sha256_valid v', valid_signature v', key_id v') = res
       end) J) as Hnext.
  { intros sha sig k ->. apply safely_ret. split_and!; [done..|]. exists (length fs). split; [|cbn [length]; lia]. by exists fs. }
  unfold field_step in Es. fold len in Es. unfold EXPECTED_SIG_TLV.
  destruct (tf_type f =? IMAGE_TLV_SHA256).
  - case_bool_decide as C; [|done]. destruct C as [C1 C2]. rewrite C1 in *. cbn [Z.eqb Pos.eqb negb].
    apply safely_bind, read_content; [lia|lia|lia|]. rewrite F4, <- C2. unfold bytes_eqb. rewrite bool_decide_eq_true_2 by done.
    cbn [negb]. by injection Es as <-; apply Hnext.
  - destruct (tf_type f =? IMAGE_TLV_KEYHASH).
    + case_bool_decide as C; [|done]. rewrite (proj2 (Z.ltb_ge 32 len)) by lia.
      apply safely_bind, read_content; [lia|lia|lia|]. rewrite F4. apply safely_bind. unfold bootutil_find_key.
      apply safely_bind, safely_assert; [apply Z.leb_le; fold len; lia|]. apply safely_ret. by injection Es as <-; apply Hnext.
    + destruct (tf_type f =? IMAGE_TLV_RSA2048_PSS); [|by injection Es as <-; apply Hnext].
      case_bool_decide as C.
      * rewrite (proj2 (Z.ltb_ge (key_id v) 0)), (proj2 (Z.leb_gt (zlen bootutil_keys) (key_id v))) by lia. cbn [orb].
        case_bool_decide as C'; [|done]. rewrite C' in *. unfold EXPECTED_SIG_LEN. cbn [Z.eqb Pos.eqb negb orb Z.ltb Z.compare Pos.compare Pos.compare_cont].
        apply safely_bind, safely_or_return, read_content; [lia|lia|lia|]. rewrite F4.
        destruct (bootutil_verify_sig hash 32 (tf_data f) 256 (key_id v)) as [rc|]; [|done]. by injection Es as <-; apply Hnext.
      * assert ((key_id v <? 0) || (zlen bootutil_keys <=? key_id v) = true) as ->; [|by injection Es as <-; apply Hnext].
        apply orb_true_iff. destruct (Z.ltb_spec (key_id v) 0); [by left|right]. apply Z.leb_le. lia.
Qed.
End walk.

(** An accepted image passes in every slot. *)
Lemma safely_img_validate id c lim fs V bd (Q : unit -> blocks -> boot_loader_state -> Prop) J :
  is_area id -> lim <= asize id -> (forall o, 0 <= o < lim -> V id o = c o) -> accepted c lim fs -> Q tt V bd ->
  safely (bootutil_img_validate (header_of c) (area_of id) 256) V bd Q J.
Proof using Type*.
  intros Hid Hlim Hc [A1 A2 A3 A4 A5 A6 (key & A7)] HQ. pose proof (size_bounds id Hid) as [Hz _].
  pose proof (header_fields c) as [Hh1 Hh2]. unfold image_end in *. set (fb := fs ≫= field_bytes) in *.
  unfold bootutil_img_validate. rewrite (Z.add_comm (ih_img_size _)). rewrite !(u32_small (_ + _)) by lia.
  apply safely_bind, safely_img_hash; [done|lia|]. rewrite (Z.add_comm (ih_img_size _)).
  set (e := ih_hdr_size (header_of c) + ih_img_size (header_of c)) in *.
  assert (sha256 [vread V id 0 e] = image_digest c) as ->.
  { unfold image_digest, image_end. fold e. do 2 f_equal. unfold vread. apply mread_ext. intros i Hi. apply Hc. lia. }
  apply safely_bind. eapply (read_content V bd id c lim); [done..|lia|lia|lia|]. rewrite A4. cbn [it_magic it_tlv_tot].
  change (negb (IMAGE_TLV_INFO_MAGIC =? IMAGE_TLV_INFO_MAGIC)) with false. cbv iota.
  rewrite !u32_small by lia. apply safely_bind. apply (safely_pow_loop _ (walking c lim (image_digest c) (e + (4 + zlen fb)) (true, true, key)) V bd
    (fun v => (sha256_valid v, valid_signature v, key_id v) = (true, true, key)) J) with (n := length fs).
  - intros n st Hst. by apply (validate_step V bd id c lim).
  - exists fs. cbn [v_off sha256_valid valid_signature key_id].
    split; [reflexivity|]. split; [|done].
    unfold fields_at. fold fb. split_and!; [lia|lia|lia| |done]. by replace (e + (4 + zlen fb) - (e + 4)) with (zlen fb) by lia.
  - pose proof (fields_count fs). fold fb in H. change (2 ^ Z.of_nat 32) with 4294967296. lia.
  - intros v Hr. injection Hr as -> -> _. cbn [negb]. by apply safely_ret.
Qed.
End validate.
