(* ===== verification/BootCopy.v ===== *)
(** * Bootloader: the swap as a whole

    [boot_copy_image] from every phase of a swap: it ends in the last phase, and
    an interruption leaves one of the four. *)

From S2P Require Import Prelude FlashDriver SstFlash BootFlash BootUtil BootImage BootLoader BootView BootTrailer BootSwap BootSteps BootValidate.

Section sizes.
  Context {D : Type} `{!ARM_DRIVER_FLASH D} {Layout : boot_layout} {Mbed : mbedtls} {Keys : bootutil_key_list}.

Lemma swap_loop_S fuel last swap_idx bs : 0 <= last ->
  swap_loop (D := D) (S fuel) last swap_idx bs =
    (r <- boot_copy_sz last ;;
     let '(sz, first) := r in
     bs <- (if idx bs <=? swap_idx then boot_swap_sectors first sz bs else ret bs) ;;
     swap_loop fuel (first - 1) (swap_idx + 1) bs).
Proof using Type. intros H. cbn [swap_loop]. by rewrite (proj2 (Z.leb_le 0 last)). Qed.

Lemma swap_loop_end fuel last swap_idx bs : last < 0 -> swap_loop (D := D) fuel last swap_idx bs = ret bs.
Proof using Type. intros H. destruct fuel; cbn [swap_loop]; by rewrite (proj2 (Z.leb_gt 0 last)). Qed.
End sizes.

Section copy.
  Context {D : Type} `{!ARM_DRIVER_FLASH D, !FlashDevice D, !flash_reads D} {Layout : boot_layout} `{!boot_layout_ok D}.
  Context {Mbed : mbedtls} {Keys : bootutil_key_list}.
  Context (live : Prop) (I0 I1 : Z -> byte) (sw : Z) (Hfits : swap_fits (D := D) sw).
  Local Abbreviation safely := (safely (D := D) live).
  Local Abbreviation SLOT0 := FLASH_AREA_IMAGE_0.
  Local Abbreviation SLOT1 := FLASH_AREA_IMAGE_1.
  Local Abbreviation SCRATCH := FLASH_AREA_IMAGE_SCRATCH.
  Local Abbreviation swap_bytes := (swap_bytes sw).
  Local Abbreviation swap_sectors := (swap_sectors sw).
  Local Abbreviation phase0 := (phase0 I0 I1).
  Local Abbreviation phase1 := (phase1 I0 I1 sw).
  Local Abbreviation phase2 := (phase2 I0 I1 sw).
  Local Abbreviation phase3 := (phase3 I0 I1 sw).
  Local Abbreviation progress := (progress I0 I1 sw).
  Local Abbreviation step_status := (step_status sw).
  Implicit Types (V : blocks) (bd : boot_loader_state).

(** ** Regions *)

Lemma last_sector_spec V bd (Q : Z -> blocks -> boot_loader_state -> Prop) J :
  ready bd -> Q (swap_sectors - 1) V bd ->
  forall fuel i, 0 <= i -> i < swap_sectors -> swap_sectors - i <= Z.of_nat fuel ->
  safely (last_sector_loop fuel sw (i * flash_sector) i) V bd Q J.
Proof using All.
  intros Hb HQ. pose proof geometry as (_ & G2 & G3 & G4 & G5 & _ & _ & G8). pose proof (swap_bounds I0 I1 sw Hfits) as (B1 & B2 & B3).
  assert (sw - 1 = swap_bytes - flash_sector + (sw - 1) mod flash_sector) as Hd.
  { unfold BootSteps.swap_bytes, BootSteps.swap_sectors. set (S0 := flash_sector) in *. pose proof (Z.div_mod (sw - 1) S0 ltac:(lia)). nia. }
  pose proof (Z.mod_pos_bound (sw - 1) flash_sector G5) as Hm. unfold BootSteps.swap_bytes in Hd.
  induction fuel as [|fuel IH]; intros i Hi Hlt Hf; [lia|]. cbn [last_sector_loop].
  apply safely_bind, safely_sector_size; [done|lia|]. rewrite u32_small by nia.
  replace (i * flash_sector + flash_sector) with ((i + 1) * flash_sector) by lia.
  destruct (Z.leb_spec sw ((i + 1) * flash_sector)) as [Hle|Hgt].
  - apply safely_ret. replace i with (swap_sectors - 1) by nia. done.
  - apply IH; nia.
Qed.

Lemma copy_sz_spec V bd (Q : Z * Z -> blocks -> boot_loader_state -> Prop) J n sz :
  ready bd -> 0 <= sz -> Z.of_nat n <= sector_count0 -> sz + Z.of_nat n * flash_sector <= asize SCRATCH ->
  Q (sz + Z.of_nat n * flash_sector, 0) V bd ->
  safely (copy_sz_loop n (asize SCRATCH) sz) V bd Q J.
Proof using All.
  intros Hb. pose proof geometry as (_ & G2 & G3 & G4 & G5 & _ & _ & G8). revert sz.
  induction n as [|n IH]; intros sz Hz Hn Hs HQ; cbn [copy_sz_loop].
  { apply safely_ret. by replace (sz + Z.of_nat 0 * flash_sector) with sz in HQ by lia. }
  apply safely_bind, safely_sector_size; [done|lia|]. rewrite u32_small by nia.
  rewrite (proj2 (Z.ltb_ge _ _)) by nia. apply IH; [nia..|].
  by replace (sz + flash_sector + Z.of_nat n * flash_sector) with (sz + Z.of_nat (S n) * flash_sector) by lia.
Qed.

(** ** The three steps *)

Definition started (k : Z) V : Prop := if decide (k = 0) then phase0 V else if decide (k = 1) then phase1 V else phase2 V.

Lemma swap_sectors_spec V bd k :
  ready bd -> 0 <= k <= 2 -> started k V ->
  safely (boot_swap_sectors 0 swap_bytes (step_status k)) V bd (reaches sw 3 phase3 bd) progress.
Proof using All.
  intros Hb Hk Hst. pose proof (offsets I0 I1 sw Hfits) as (O1 & O2 & O3 & O4 & O5 & O6 & O7 & O8).
  pose proof (swap_bounds I0 I1 sw Hfits) as (B1 & B2 & B3). pose proof geometry as (_ & G2 & G3 & G4 & G5 & _ & _ & G8).
  unfold boot_swap_sectors. apply safely_bind, safely_sector_off; [done|lia|]. apply safely_bind, safely_write_sz; [done|].
  apply safely_bind, safely_num_sectors; [done|]. rewrite u32_small by lia. apply safely_bind, safely_sector_off; [done|lia|].
  rewrite Z.mul_0_l, Z.add_0_l, u32_small by lia. replace ((sector_count0 - 1) * flash_sector) with last_off by (unfold last_off; nia).
  rewrite (proj2 (Z.ltb_ge last_off swap_bytes)) by lia. rewrite Z.eqb_refl, andb_false_r.
  change (BootStatus (idx (step_status k)) (state (step_status k)) false (swap_size (step_status k))) with (step_status k).
  assert (forall V, phase2 V -> safely (swap_step2 0 swap_bytes swap_bytes (step_status 2)) V bd (reaches sw 3 phase3 bd) progress) as S2.
  { intros W HW. eapply safely_mono; [by apply step2_spec|done|]. intros W' HW'. by right; right; left. }
  assert (forall V, phase1 V -> safely (bs <- swap_step1 0 swap_bytes swap_bytes (step_status 1) ;;
    if state bs =? 2 then swap_step2 0 swap_bytes swap_bytes bs else ret bs) V bd (reaches sw 3 phase3 bd) progress) as S1.
  { intros W HW. apply safely_bind. eapply safely_mono; [by apply (step1_spec live I0 I1 sw Hfits)| |].
    - intros bs W' bd' (-> & -> & HW'). by apply S2.
    - intros W' HW'. by right; left. }
  assert (k = 0 \/ k = 1 \/ k = 2) as [->|[->| ->]] by lia; cbn in Hst; cbn [state BootSteps.step_status].
  - change (0 mod 3 =? 0) with true. cbv iota. apply safely_bind. eapply safely_mono; [by apply (step0_spec live I0 I1 sw Hfits)| |].
    + intros bs W' bd' (-> & -> & HW'). by apply S1.
    + intros W' HW'. by left.
  - change (1 mod 3 =? 0) with false. cbv iota. apply safely_bind, safely_ret. by apply S1.
  - change (2 mod 3 =? 0) with false. cbv iota. apply safely_bind, safely_ret.
    change (state (step_status 2) =? 1) with false. cbv iota. apply safely_bind, safely_ret. by apply S2.
Qed.

(** The loop over the regions has one region. *)
Lemma regions_spec V bd k :
  ready bd -> 0 <= k <= 3 -> (if decide (k = 3) then phase3 V else started k V) ->
  safely (last <- last_sector_loop SECTOR_FUEL sw 0 0 ;; swap_loop SECTOR_FUEL last 0 (step_status k)) V bd
    (reaches sw 3 phase3 bd) progress.
Proof using All.
  intros Hb Hk Hst. pose proof (swap_bounds I0 I1 sw Hfits) as (B1 & B2 & B3). pose proof geometry as (_ & G2 & G3 & G4 & G5 & _ & _ & G8).
  apply safely_bind. change 0 with (0 * flash_sector) at 1. apply last_sector_spec; [done| |lia|lia|unfold SECTOR_FUEL; lia].
  change SECTOR_FUEL with (S 256). rewrite swap_loop_S by lia. apply safely_bind. unfold boot_copy_sz.
  apply safely_bind. unfold boot_scratch_area_size. apply safely_bind, safely_gets. intros s ->. rewrite (rd_scratch _ Hb).
  apply safely_bind, safely_ret, safely_ret. fold (asize SCRATCH).
  assert (Z.of_nat (Z.to_nat (swap_sectors - 1 + 1)) = swap_sectors) as Hn by lia.
  apply copy_sz_spec; [done|lia|lia|rewrite Hn; fold swap_bytes; unfold last_off in *; lia|]. rewrite Hn, Z.add_0_l. fold swap_bytes.
  apply safely_bind.
  assert (k = 3 \/ k < 3) as [->|Hlt] by lia.
  - change (idx (step_status 3) <=? 0) with false. cbv iota. cbn in Hst. apply safely_ret. rewrite swap_loop_end by lia. by apply safely_ret.
  - rewrite decide_False in Hst by lia. assert (idx (step_status k) <=? 0 = true) as ->.
    { apply Z.leb_le. cbn [idx BootSteps.step_status]. rewrite Z.div_small by lia. done. }
    eapply safely_mono; [by apply swap_sectors_spec; [|lia|]| |done]. intros bs W' bd' Hr. rewrite swap_loop_end by lia. by apply safely_ret.
Qed.

(** ** The size of the swap *)

Lemma image_size_spec slot c n V bd (Q : Z -> blocks -> boot_loader_state -> Prop) J :
  slot = 0 \/ slot = 1 -> holds V (flash_area_id_from_image_slot slot) c n -> n <= slot_size -> hdr (img slot bd) = header_of c ->
  measured c n -> extent c < 2 ^ 32 -> Q (extent c) V bd -> safely (image_size_if_any slot) V bd Q J.
Proof using All.
  intros Hs Hh Hn Hhdr Hm He HQ. pose proof (offsets I0 I1 sw Hfits) as (_ & _ & _ & _ & O5 & _).
  assert (is_area (flash_area_id_from_image_slot slot) /\ asize (flash_area_id_from_image_slot slot) = slot_size) as [Hid Ha].
  { destruct Hs as [->| ->]; (split; [|done || exact O5]); [by left|by right; left]. }
  unfold image_size_if_any. apply safely_bind, safely_gets. intros s ->. rewrite Hhdr. unfold extent in *.
  destruct (Z.eqb_spec (ih_magic (header_of c)) IMAGE_MAGIC) as [Emag|]; [|by apply safely_ret].
  destruct (Hm Emag) as [M1 M2]. pose proof (header_fields c) as [F1 F2]. unfold image_end in *.
  assert (0 <= it_tlv_tot (decode_tlv_info (mread c (ih_hdr_size (header_of c) + ih_img_size (header_of c)) 4))) as F3.
  { unfold decode_tlv_info, get16. cbn [it_tlv_tot]. pose proof b2z_bound as B. match goal with |- 0 <= b2z ?x + 256 * b2z ?y => pose proof (B x); pose proof (B y) end. lia. }
  pose proof (size_bounds _ Hid) as [Hz _]. apply safely_asserted. unfold boot_read_image_size.
  apply safely_bind, safely_or_return, safely_open; [done|]. apply safely_closing, safely_bind, safely_or_return.
  rewrite (u32_small (_ + _)) by lia. apply safely_read; [done|lia|lia|fold (asize (flash_area_id_from_image_slot slot)); lia|].
  replace (vread _ _ _ 4) with (mread c (ih_hdr_size (header_of c) + ih_img_size (header_of c)) 4)
    by (symmetry; apply mread_ext; intros i Hi; apply Hh; lia).
  rewrite M2. cbn [negb Z.eqb]. rewrite Z.eqb_refl. cbn [negb]. apply safely_ret. by rewrite u32_small by lia.
Qed.

Definition swap_size_of : Z := Z.max (extent I0) (extent I1).

Lemma copy_fresh_spec V bd :
  ready bd -> phase0 V -> hdr (img0 bd) = header_of I0 -> hdr (img1 bd) = header_of I1 ->
  measured I0 last_off -> measured I1 last_off -> sw = swap_size_of ->
  safely (boot_copy_image (BootStatus 0 0 false 0)) V bd (reaches sw 3 phase3 bd) progress.
Proof using All.
  intros Hb HP H0 H1 M0 M1 Hsw. pose proof (offsets I0 I1 sw Hfits) as (O1 & _ & _ & _ & O5 & _ & O7 & O8).
  destruct Hfits as [Hr _]. unfold swap_size_of in Hsw. unfold boot_copy_image. cbn [idx state andb Z.eqb].
  apply safely_bind, safely_bind, (image_size_spec 0 I0 last_off); [by left|apply HP|lia|done|done|lia|].
  apply safely_bind, (image_size_spec 1 I1 last_off); [by right| |lia|done|done|lia|].
  { intros o Ho. apply (p0_new _ _ _ HP). lia. }
  apply safely_ret. replace (if extent I0 <? extent I1 then extent I1 else extent I0) with sw by (destruct (Z.ltb_spec (extent I0) (extent I1)); lia).
  by apply (regions_spec V bd 0).
Qed.

(** The swap goes on with the size in the trailer. *)
Lemma copy_resumed_spec V bd k us sz :
  ready bd -> 1 <= k <= 3 -> (if decide (k = 3) then phase3 V else started k V) -> us = false ->
  safely (boot_copy_image (BootStatus (k / 3) (k mod 3) us sz)) V bd (reaches sw 3 phase3 bd) progress.
Proof using All.
  intros Hb Hk Hst ->. assert (swap_trailer I1 sw V k) as Ht.
  { assert (k = 1 \/ k = 2 \/ k = 3) as [->|[->| ->]] by lia; cbn in Hst; apply Hst. }
  destruct Hfits as [Hr _]. unfold boot_copy_image. cbn [idx state use_scratch].
  assert ((k / 3 =? 0) && (k mod 3 =? 0) = false) as -> by by assert (k = 1 \/ k = 2 \/ k = 3) as [->|[->| ->]] by lia.
  apply safely_bind, safely_asserted, safely_read_swap_size; [apply Ht|]. fold slot_size. rewrite (t_size _ _ _ _ Ht), get_put32 by lia.
  apply (regions_spec V bd k); [done|lia|done].
Qed.
End copy.
