(* ===== verification/BootGo.v ===== *)
(** * Bootloader: a boot with an update pending or in progress

    [boot_go] from every phase of a swap: it boots the new image, and an
    interruption leaves a phase from which the next boot does. *)

From S2P Require Import Prelude FlashDriver SstFlash BootFlash BootUtil BootImage BootLoader BootView BootTrailer BootSwap BootSteps BootValidate BootCopy.

(** An image waits in slot 1: a good magic, and [image_ok] set or not. *)
Definition pending (T : Z) (c : Z -> byte) : Prop :=
  mread c (T - 16) 16 = boot_img_magic_bytes /\ (b2z (c (T - 24)) = 1 \/ b2z (c (T - 24)) = 0xff).

Definition with_headers (bd : boot_loader_state) (h0 h1 : image_header) : boot_loader_state :=
  let set h i := BootImg h (img_area i) (sectors i) (num_sectors i) in
  BootLoaderState (set h0 (img0 bd)) (set h1 (img1 bd)) (scratch_area bd) (write_sz bd).

Section go.
  Context {D : Type} `{!ARM_DRIVER_FLASH D, !FlashDevice D, !flash_reads D} {Layout : boot_layout} `{!boot_layout_ok D}.
  Context {Mbed : mbedtls} {Keys : bootutil_key_list} {Hsha : sha256_streams}.
  Context (live : Prop).
  Local Abbreviation safely := (safely (D := D) live).
  Local Abbreviation SLOT0 := FLASH_AREA_IMAGE_0.
  Local Abbreviation SLOT1 := FLASH_AREA_IMAGE_1.
  Local Abbreviation SCRATCH := FLASH_AREA_IMAGE_SCRATCH.
  Implicit Types (V : blocks) (bd : boot_loader_state).

(** ** Sectors *)

Lemma sectors_found n : forall room cnt, (n <= room)%nat -> 0 <= cnt -> (cnt + Z.of_nat n) * flash_sector <= slot_size ->
  get_sectors_loop room (Z.of_nat n * flash_sector) cnt =
    Some ((fun i => FlashSector ((cnt + Z.of_nat i) * flash_sector) flash_sector) <$> seq 0 n).
Proof using Type*.
  pose proof geometry as (_ & G2 & G3 & G4 & G5 & _ & _ & G8). pose proof bl_sector as [_ Es].
  induction n as [|n IH]; intros room cnt Hr Hc Hs.
  { destruct room; [done|]. cbn [get_sectors_loop]. done. }
  destruct room as [|room]; [lia|]. cbn [get_sectors_loop]. rewrite Es, (proj2 (Z.ltb_lt 0 _)), (proj2 (Z.ltb_ge _ _)) by nia. cbn [negb].
  replace (Z.of_nat (S n) * flash_sector - flash_sector) with (Z.of_nat n * flash_sector) by lia.
  rewrite (IH room (cnt + 1)) by nia. cbn [mbind option_bind]. f_equal. cbn [seq fmap list_fmap]. f_equal.
  - f_equal. rewrite u32_small by nia. lia.
  - rewrite <- fmap_S_seq, <- list_fmap_compose. apply list_fmap_ext. intros _ x _. unfold compose. f_equal. lia.
Qed.

Definition with_sectors (slot : Z) (bd : boot_loader_state) : boot_loader_state :=
  let f i := BootImg (hdr i) (img_area i) (sector_list (Z.to_nat sector_count0)) sector_count0 in
  if slot =? 0 then BootLoaderState (f (img0 bd)) (img1 bd) (scratch_area bd) (write_sz bd)
  else BootLoaderState (img0 bd) (f (img1 bd)) (scratch_area bd) (write_sz bd).

Lemma safely_initialize id V bd (Q : unit -> blocks -> boot_loader_state -> Prop) J :
  slot_id id -> Q tt V (with_sectors (id - SLOT0) bd) -> safely (boot_initialize_area id) V bd Q J.
Proof using Type*.
  intros Hs HQ. pose proof geometry as (G1 & G2 & G3 & G4 & G5 & _ & _ & G8). unfold boot_initialize_area.
  assert ((id =? SLOT0) || (id =? SLOT1) = true) as -> by by destruct Hs as [->| ->].
  apply safely_bind. unfold flash_area_get_sectors. apply safely_bind.
  assert (forall (Q' : Z * Z -> blocks -> boot_loader_state -> Prop), (forall off, Q' (off, slot_size) V bd) -> safely (validate_idx id) V bd Q' J) as Hv.
  { intros Q' HQ'. destruct Hs as [->| ->]; unfold validate_idx; cbn [Z.eqb Pos.eqb]; apply safely_ret; [apply HQ'|].
    replace FLASH_AREA_IMAGE_1_SIZE with slot_size by exact (eq_sym G1). apply HQ'. }
  apply Hv. intros off. cbn [snd]. change (BOOT_MAX_IMG_SECTORS <? 1) with false. cbv iota.
  rewrite G3. replace sector_count0 with (Z.of_nat (Z.to_nat sector_count0)) by lia.
  unfold BOOT_MAX_IMG_SECTORS. rewrite sectors_found by lia. apply safely_ret.
  eapply safely_modify; [|exact HQ]. intros s. split; [done|]. cbn [boot_data]. unfold with_sectors, sector_list.
  rewrite length_fmap, length_seq, Z2Nat.id by lia. done.
Qed.

Definition opened bd : Prop := img_area (img0 bd) = Some (area_of SLOT0) /\ scratch_area bd = Some (area_of SCRATCH).

Lemma safely_read_sectors V bd (Q : unit -> blocks -> boot_loader_state -> Prop) J :
  opened bd -> (forall bd', ready bd' -> Q tt V bd') -> safely boot_read_sectors V bd Q J.
Proof using Type*.
  intros [Ho1 Ho2] HQ. unfold boot_read_sectors. apply safely_bind, safely_or_return, safely_initialize; [by left|].
  apply safely_bind, safely_or_return, safely_initialize; [by right|]. apply safely_bind. unfold boot_write_sz.
  apply safely_bind, safely_asserted, safely_open; [by left|]. apply safely_bind, safely_close.
  apply safely_bind, safely_asserted, safely_open; [by right; right|]. apply safely_bind, safely_close, safely_ret.
  rewrite !align_unit. rewrite Z.ltb_irrefl.
  eapply (safely_modify live _ (fun st => BootLoaderState (img0 st) (img1 st) (scratch_area st) unit_sz)); [done|].
  apply HQ. split; cbn; done.
Qed.

(** ** Headers *)

Definition header_at V (id : Z) : image_header := header_of (V id).

Lemma safely_read_header slot V bd (Q : unit -> blocks -> boot_loader_state -> Prop) J :
  slot = 0 \/ slot = 1 ->
  Q tt V (if slot =? 0 then with_headers bd (header_at V SLOT0) (hdr (img1 bd)) else with_headers bd (hdr (img0 bd)) (header_at V SLOT1)) ->
  safely (boot_read_image_header slot) V bd Q J.
Proof using Type*.
  intros Hs HQ. unfold boot_read_image_header.
  assert (is_area (flash_area_id_from_image_slot slot)) as Hid by (destruct Hs as [->| ->]; [by left|by right; left]).
  pose proof (size_bounds _ Hid) as [Hz Hu].
  apply safely_bind, safely_or_return, safely_open; [done|]. apply safely_closing, safely_bind, safely_or_return.
  apply safely_read; [done|lia|done|fold (asize (flash_area_id_from_image_slot slot)); unfold IMAGE_HEADER_SIZE; lia|].
  eapply (safely_modify live _ (fun bd => if slot =? 0 then with_headers bd (header_at V SLOT0) (hdr (img1 bd))
    else with_headers bd (hdr (img0 bd)) (header_at V SLOT1))); [|exact HQ].
  intros s. split; [done|]. by destruct Hs as [->| ->], (boot_data s) as [[] [] ? ?].
Qed.

Lemma safely_read_headers V bd (Q : unit -> blocks -> boot_loader_state -> Prop) J :
  Q tt V (with_headers bd (header_at V SLOT0) (header_at V SLOT1)) -> safely boot_read_image_headers V bd Q J.
Proof using Type*.
  intros HQ. unfold boot_read_image_headers. apply safely_bind, safely_read_header; [by left|].
  unfold ignore. apply safely_bind, safely_try, safely_read_header; [by right|]. apply safely_ret. exact HQ.
Qed.

Lemma ready_headers bd h0 h1 : ready bd -> ready (with_headers bd h0 h1).
Proof using Type. by intros []; split. Qed.

(** ** Compatible slots *)

Lemma safely_compatible V bd (Q : bool -> blocks -> boot_loader_state -> Prop) J :
  ready bd -> Q true V bd -> safely boot_slots_compatible V bd Q J.
Proof using Type*.
  intros Hb HQ. pose proof geometry as (_ & _ & _ & G4 & _). unfold boot_slots_compatible.
  apply safely_bind, safely_num_sectors; [done|]. apply safely_bind, safely_num_sectors; [done|]. rewrite Z.eqb_refl. cbn [negb].
  assert (forall n i, 0 <= i -> i + Z.of_nat n <= sector_count0 -> safely (compatible_loop n i) V bd Q J) as Hl; [|by apply Hl; lia].
  induction n as [|n IH]; intros i Hi Hn; cbn [compatible_loop]; [by apply safely_ret|].
  apply safely_bind, safely_sector_size; [done|lia|]. apply safely_bind, safely_sector_size; [done|lia|].
  rewrite Z.eqb_refl. cbn [negb]. apply IH; lia.
Qed.

(** ** A slot with an accepted image *)

Lemma safely_validate_slot slot c n fs V bd (Q : unit -> blocks -> boot_loader_state -> Prop) J :
  slot = 0 \/ slot = 1 -> holds V (flash_area_id_from_image_slot slot) c n -> n <= slot_size -> hdr (img slot bd) = header_of c ->
  accepted c n fs -> Q tt V bd -> safely (boot_validate_slot slot) V bd Q J.
Proof using Type*.
  intros Hs Hh Hn Hhdr Ha HQ. pose proof geometry as (G1 & _).
  assert (is_area (flash_area_id_from_image_slot slot) /\ asize (flash_area_id_from_image_slot slot) = slot_size) as [Hid Hz].
  { destruct Hs as [->| ->]; (split; [|done || exact G1]); [by left|by right; left]. }
  unfold boot_validate_slot. apply safely_bind, safely_gets. intros s ->. rewrite Hhdr, (ac_magic _ _ _ Ha), (ac_bootable _ _ _ Ha).
  change ((IMAGE_MAGIC =? 4294967295) || negb (0 =? 0)) with false. change (negb (IMAGE_MAGIC =? IMAGE_MAGIC)) with false. cbv iota.
  apply safely_bind, safely_or_return, safely_open; [done|]. apply safely_bind, safely_try, safely_or_return.
  apply (safely_img_validate live _ c n fs); [done|lia|exact Hh|done|]. by apply safely_close.
Qed.
(** ** The end of the boot *)

Lemma header_holds V id c n : holds V id c n -> 32 <= n -> header_at V id = header_of c.
Proof using Type.
  intros Hh Hn. unfold header_at, header_of. f_equal. apply mread_ext. intros i Hi. apply Hh. unfold IMAGE_HEADER_SIZE in Hi. lia.
Qed.

Definition new_response (c : Z -> byte) : boot_rsp := BootRsp (header_of c) FLASH_DEVICE_ID FLASH_AREA_IMAGE_0_OFFSET.

Lemma respond_spec c n fs V bd (Q : boot_rsp -> blocks -> boot_loader_state -> Prop) J :
  ready bd -> hdr (img0 bd) = header_of c -> holds V SLOT0 c n -> n <= slot_size -> accepted c n fs -> Q (new_response c) V bd ->
  safely (asserted (boot_validate_slot 0) ;; dev_id <- boot_img_fa_device_id 0 ;; off <- boot_img_slot_off 0 ;; h <- boot_img_hdr 0 ;;
    ret (BootRsp h dev_id off)) V bd Q J.
Proof using Type*.
  intros Hb Hh Hc Hn Ha HQ.
  apply safely_bind, safely_asserted, (safely_validate_slot 0 c n fs); [by left|done..|].
  apply safely_bind, safely_bind, safely_gets. intros s ->. change (img 0 bd) with (img0 bd). rewrite (rd_area0 _ Hb).
  apply safely_bind, safely_ret, safely_ret.
  apply safely_bind, safely_bind, safely_gets. intros s' ->. change (img 0 bd) with (img0 bd). rewrite (rd_area0 _ Hb).
  apply safely_bind, safely_ret, safely_ret.
  apply safely_bind, safely_gets. intros s'' ->. apply safely_ret. change (img 0 bd) with (img0 bd). rewrite Hh. exact HQ.
Qed.

(** [boot_go] and [main] around the body. *)
Lemma boot_go_spec V bd Q J :
  (forall bd', opened bd' -> safely boot_body V bd' (fun rsp V' _ => Q rsp V') J) ->
  safely boot_go V bd (fun rsp V' _ => Q rsp V') J.
Proof using Type*.
  intros Hbody. unfold boot_go.
  apply safely_bind, safely_asserted, safely_open; [by left|].
  apply safely_bind. eapply (safely_modify live _ (fun st => BootLoaderState
    (BootImg (hdr (img0 st)) (Some (area_of SLOT0)) [] (num_sectors (img0 st))) (img1 st) (scratch_area st) (write_sz st))); [done|].
  apply safely_bind, safely_asserted, safely_open; [by right; left|].
  apply safely_bind. eapply (safely_modify live _ (fun st => BootLoaderState (img0 st)
    (BootImg (hdr (img1 st)) (Some (area_of SLOT1)) [] (num_sectors (img1 st))) (scratch_area st) (write_sz st))); [done|].
  apply safely_bind, safely_asserted, safely_open; [by right; right|].
  apply safely_bind. eapply (safely_modify live _ (fun st => BootLoaderState (img0 st) (img1 st)
    (Some (area_of SCRATCH)) (write_sz st))); [done|].
  apply safely_closing, safely_closing, safely_closing. by apply Hbody.
Qed.

(** Where the processor starts in an image. *)
Definition new_entry (c : Z -> byte) : Z := u32 (FLASH_BASE_ADDRESS + FLASH_AREA_IMAGE_0_OFFSET + ih_hdr_size (header_of c)).

Lemma main_spec c V bd (P J : blocks -> Prop) :
  (forall bd', opened bd' -> safely boot_body V bd' (fun rsp V' _ => rsp = new_response c /\ P V') J) ->
  safely bl2_main V bd (fun entry V' _ => entry = new_entry c /\ P V') J.
Proof using Type*.
  intros Hbody. unfold bl2_main. apply safely_bind.
  eapply safely_mono; [by apply (boot_go_spec V bd (fun rsp V' => rsp = new_response c /\ P V'))| |done]. intros rsp V' bd' [-> Hu].
  apply safely_bind. unfold flash_area_warn_on_open. apply safely_gets. intros s _.
  unfold do_boot. apply safely_bind, safely_asserted. unfold flash_device_base. cbn [br_flash_dev_id new_response].
  rewrite Z.eqb_refl. cbn [negb]. apply safely_ret, safely_ret. done.
Qed.
End go.
