(* ===== verification/BootUpdate.v ===== *)
(** * Bootloader: an update under power failures

    An image pending in slot 1 is the image [boot_go] boots, whenever and however
    often the power fails before.  When a swap back is interrupted, one of the two
    images boots and neither is lost. *)

From S2P Require Import Prelude FlashDriver SstFlash BootFlash BootUtil BootImage BootLoader BootView BootTrailer BootSwap BootSteps BootValidate BootCopy BootGo.

Lemma source_not_scratch st0 st2 : magic st2 <> BOOT_MAGIC_GOOD ->
  status_source_loop boot_status_tables st0 st2 = BOOT_STATUS_SOURCE_NONE \/
  status_source_loop boot_status_tables st0 st2 = BOOT_STATUS_SOURCE_SLOT0.
Proof.
  intros Hm. assert (any_or BOOT_MAGIC_GOOD (Some (magic st2)) = false) as E.
  { unfold any_or. cbn [orb]. apply Z.eqb_neq. by apply not_eq_sym. }
  unfold boot_status_tables. cbn [status_source_loop bst_magic_slot0 bst_magic_scratch bst_copy_done_slot0 bst_status_source].
  rewrite E. rewrite !andb_false_r, !andb_false_l. repeat case_match; tauto.
Qed.

Lemma znth_replicate n b i : 0 <= i < Z.of_nat n -> znth (replicate n b) i = b.
Proof. intros Hi. unfold znth. by rewrite nth_lookup, lookup_replicate_2 by lia. Qed.

Section update.
  Context {D : Type} `{!ARM_DRIVER_FLASH D, !FlashDevice D, !flash_reads D} {Layout : boot_layout} `{!boot_layout_ok D}.
  Context {Mbed : mbedtls} {Keys : bootutil_key_list} {Hsha : sha256_streams}.
  Context (live : Prop) (I0 I1 : Z -> byte).
  Local Abbreviation safely := (safely (D := D) live).
  Local Abbreviation SLOT0 := FLASH_AREA_IMAGE_0.
  Local Abbreviation SLOT1 := FLASH_AREA_IMAGE_1.
  Local Abbreviation SCRATCH := FLASH_AREA_IMAGE_SCRATCH.
  Local Abbreviation T := slot_size.
  Implicit Types (V : blocks) (bd : boot_loader_state).

(** The larger of the two images leaves the last sector free, and the new one
    passes the validation. *)
Record swappable (sw : Z) (fs : list tlv_field) : Prop := {
  sp_size : sw = Z.max (extent I0) (extent I1);
  sp_fits : swap_fits (D := D) sw;
  sp_old : measured I0 last_off;
  sp_new : accepted I1 (extent I1) fs;
}.

Lemma blank_magic V : blank_last V -> vread V SLOT1 (T - 16) 16 = replicate 16 Byte.xff.
Proof using Type*.
  intros Hb. pose proof geometry as (_ & _ & _ & _ & _ & G6 & G7 & _). unfold status_off in G6.
  apply zlist_ext; [by rewrite zlen_vread by lia|]. intros i Hi. rewrite zlen_vread in Hi by lia.
  rewrite znth_vread, Hb, znth_replicate by lia. done.
Qed.

Context (sw : Z) (fs : list tlv_field) (Hsp : swappable sw fs).
Local Abbreviation swap_bytes := (swap_bytes sw).
Local Abbreviation phase0 := (phase0 I0 I1).
Local Abbreviation phase1 := (phase1 I0 I1 sw).
Local Abbreviation phase2 := (phase2 I0 I1 sw).
Local Abbreviation phase3 := (phase3 I0 I1 sw).
Local Abbreviation progress := (progress I0 I1 sw).

(** A phase of the swap with its number. *)
Definition in_phase (k : Z) V : Prop := if decide (k = 3) then phase3 V else started I0 I1 sw k V.

Lemma progress_phase V : progress V -> exists k, 0 <= k <= 3 /\ in_phase k V.
Proof using Type. intros [?|[?|[?|?]]]; [exists 0|exists 1|exists 2|exists 3]; by (split; [lia|]). Qed.

Lemma phase_progress k V : 0 <= k <= 3 -> in_phase k V -> progress V.
Proof using Type.
  intros Hk H. assert (k = 0 \/ k = 1 \/ k = 2 \/ k = 3) as [->|[->|[->| ->]]] by lia; cbn in H; unfold BootSteps.progress; tauto.
Qed.

Lemma phase_trailer k V : 1 <= k <= 3 -> in_phase k V -> swap_trailer I1 sw V k.
Proof using Type. intros Hk H. assert (k = 1 \/ k = 2 \/ k = 3) as [->|[->| ->]] by lia; cbn in H; apply H. Qed.

Lemma new_extent : 0 < extent I1 <= sw /\ extent I1 = image_end I1 + 4 + zlen (fs ≫= field_bytes) /\ measured I1 last_off.
Proof using All.
  destruct Hsp as [H1 H2 H3 [A1 A2 A3 A4 A5 A6 A7]]. pose proof (swap_bounds I0 I1 sw H2) as (B1 & B2 & B3). unfold extent in *.
  rewrite A1, Z.eqb_refl, A4 in *. cbn [it_tlv_tot] in *. split_and!; [lia..|]. intros _. rewrite A4. split; [lia|done].
Qed.

(** ** The status *)

Lemma read_status_spec k V bd (Q : boot_status -> blocks -> boot_loader_state -> Prop) J :
  ready bd -> 0 <= k <= 3 -> in_phase k V -> Q (BootStatus (k / 3) (k mod 3) false 0) V bd ->
  safely boot_read_status V bd Q J.
Proof using All.
  intros Hb Hk Hp HQ. unfold boot_read_status. apply safely_bind, safely_status_source. cbv beta.
  assert (forall k', 0 <= k' <= 3 -> statuses V k' -> Q (BootStatus (k' / 3) (k' mod 3) false 0) V bd ->
    safely (fap <- or_return (flash_area_open SLOT0) BOOT_EFLASH ;; closing (Some fap) (boot_read_status_bytes fap (BootStatus 0 0 false 0))) V bd Q J) as Hslot.
  { intros k' Hk' Hs HQ'. apply safely_bind, safely_or_return, safely_open; [by left|]. apply safely_closing.
    apply (safely_status_bytes live k'); [done|lia|done|]. case_decide; [by subst k'|done]. }
  destruct (decide (k = 0)) as [->|Hne].
  - destruct Hp as [_ _ [Hm [Hs|Hs]]]; [rewrite Hs; by apply safely_ret|].
    destruct (source_not_scratch (swap_state_of V SLOT0) (swap_state_of V SCRATCH) Hm) as [->| ->]; [by apply safely_ret|].
    by apply (Hslot 0).
  - pose proof (phase_trailer k V ltac:(lia) Hp) as [T1 T2 T3 T4 T5].
    assert (status_source_loop boot_status_tables (swap_state_of V SLOT0) (swap_state_of V SCRATCH) = BOOT_STATUS_SOURCE_SLOT0) as ->.
    { unfold swap_state_of at 1. fold slot_size. rewrite T1, T2. reflexivity. }
    by apply (Hslot k).
Qed.

(** ** The type of the swap *)

Definition next_swap V : swap_type_t := swap_type_loop boot_swap_tables (swap_state_of V SLOT0) (swap_state_of V SLOT1).

Definition swaps (t : swap_type_t) : Prop := t = BOOT_SWAP_TYPE_TEST \/ t = BOOT_SWAP_TYPE_PERM \/ t = BOOT_SWAP_TYPE_REVERT.

Lemma validated_type_spec V bd (Q : swap_type_t -> blocks -> boot_loader_state -> Prop) J :
  ready bd -> holds V SLOT1 I1 T -> hdr (img1 bd) = header_of I1 -> swaps (next_swap V) -> Q (next_swap V) V bd ->
  safely boot_validated_swap_type V bd Q J.
Proof using All.
  intros Hb Hp Hh Ht HQ. destruct Hsp as [H1 H2 H3 H4]. pose proof (offsets I0 I1 sw H2) as (O1 & O2 & O3 & O4 & O5 & _ & O7 & O8).
  pose proof (swap_bounds I0 I1 sw H2) as (B1 & B2 & B3). destruct new_extent as (N1 & N2 & N3).
  unfold boot_validated_swap_type. apply safely_bind, safely_swap_type. fold (next_swap V).
  assert (safely (r <- try (boot_validate_slot 1) ;; ret (match r with None => BOOT_SWAP_TYPE_FAIL | Some _ => next_swap V end)) V bd Q J) as Hv.
  { apply safely_bind, safely_try. eapply (safely_validate_slot live 1 I1 T fs); [by right|done|lia|done| |].
    - eapply accepted_more; [done|lia].
    - by apply safely_ret. }
  by destruct Ht as [E|[E|E]]; rewrite E in *.
Qed.

(** In the last phase the swap that has been done shows as permanent. *)
Lemma previous_type_spec V bd (Q : swap_type_t -> blocks -> boot_loader_state -> Prop) J :
  phase3 V -> Q BOOT_SWAP_TYPE_PERM V bd -> safely boot_previous_swap_type V bd Q J.
Proof using All.
  intros Hp HQ. destruct Hsp as [_ H2 _ _]. pose proof (offsets I0 I1 sw H2) as (O1 & O2 & O3 & O4 & O5 & _ & O7 & O8).
  unfold boot_previous_swap_type. apply safely_bind, safely_swap_type. apply safely_ret.
  destruct (p3_trailer _ _ _ _ Hp) as [T1 T2 T3 T4 T5]. unfold swap_state_of. fold slot_size. rewrite O5, T1, T2.
  rewrite (p3_blank _ _ _ _ Hp (T - 24)), (blank_magic V (p3_blank _ _ _ _ Hp)), T3 by lia. by destruct (permanent I1).
Qed.

(** ** The boot *)

(** A swap from the start. *)
Lemma fresh_swap_spec V bd (Q : swap_type_t -> blocks -> boot_loader_state -> Prop) :
  ready bd -> phase0 V -> hdr (img0 bd) = header_at V SLOT0 -> hdr (img1 bd) = header_at V SLOT1 -> swaps (next_swap V) ->
  (forall V', phase3 V' -> Q (next_swap V) V' bd) -> safely boot_swap_if_needed V bd Q progress.
Proof using All.
  intros Hb Hp Hh0 Hh1 Ht HQ. pose proof (sp_fits _ _ Hsp) as Hf. pose proof geometry as (_ & _ & G3 & G4 & G5 & _).
  pose proof (offsets I0 I1 sw Hf) as (O1 & O2 & O3 & O4 & O5 & _ & O7 & O8). destruct new_extent as (N1 & N2 & N3).
  pose proof bl_trailer as Htr. assert (32 <= last_off) as H32 by (unfold last_off, unit_sz in *; nia).
  unfold boot_swap_if_needed. apply safely_bind, safely_asserted, (read_status_spec 0); [done..|]. cbn [idx state].
  change (negb (0 / 3 =? 0) || negb (0 mod 3 =? 0)) with false. cbv iota.
  rewrite (header_holds V SLOT1 I1 T) in Hh1 by (apply Hp || lia). rewrite (header_holds V SLOT0 I0 last_off) in Hh0 by (apply Hp || lia).
  apply safely_bind, validated_type_spec; [done|apply Hp|done..|]. apply safely_bind.
  assert (safely (asserted (boot_copy_image (BootStatus (0 / 3) (0 mod 3) false 0)) ;; ret tt) V bd
    (fun _ V' bd' => bd' = bd /\ phase3 V') progress) as Hc.
  { apply safely_bind, safely_asserted. eapply safely_mono;
      [eapply (copy_fresh_spec live I0 I1 sw Hf); [done..|apply Hsp|done|apply Hsp]| |done].
    intros bs V' bd' (_ & -> & H3). by apply safely_ret. }
  destruct Ht as [E|[E|E]]; rewrite E in *; (eapply safely_mono; [exact Hc| |done]); intros _ V' bd' [-> H3]; by apply safely_ret, HQ.
Qed.

(** A swap that was interrupted. *)
Lemma resumed_swap_spec k V bd (Q : swap_type_t -> blocks -> boot_loader_state -> Prop) :
  ready bd -> 1 <= k <= 3 -> in_phase k V -> (forall V', phase3 V' -> Q BOOT_SWAP_TYPE_PERM V' bd) ->
  safely boot_swap_if_needed V bd Q progress.
Proof using All.
  intros Hb Hk Hp HQ. pose proof (sp_fits _ _ Hsp) as Hf.
  unfold boot_swap_if_needed. apply safely_bind, safely_asserted, (read_status_spec k); [done|lia|done|]. cbn [idx state].
  assert (negb (k / 3 =? 0) || negb (k mod 3 =? 0) = true) as -> by by assert (k = 1 \/ k = 2 \/ k = 3) as [->|[->| ->]] by lia.
  apply safely_bind, safely_asserted. eapply safely_mono; [by apply (copy_resumed_spec live I0 I1 sw Hf); [|lia|..]| |done].
  intros bs V' bd' (_ & -> & H3). apply previous_type_spec; [done|]. by apply HQ.
Qed.

(** The images are exchanged, and [image_ok] of slot 0 is [ok]. *)
Record exchanged (ok : Z) V : Prop := {
  ex_new : holds V SLOT0 I1 swap_bytes;
  ex_old : holds V SLOT1 I0 swap_bytes;
  ex_blank : blank_last V;
  ex_state : swap_state_of V SLOT0 = BootSwapState BOOT_MAGIC_GOOD (Some BOOT_FLAG_SET) ok;
  ex_scratch : scratch_idle V;
}.

(** Writes to the flags of slot 0 leave the images. *)
Lemma flags_exchanged V V' ok :
  (forall id o, ~ (id = SLOT0 /\ T - 32 <= o < T - 16) -> V' id o = V id o) ->
  holds V SLOT0 I1 swap_bytes -> holds V SLOT1 I0 swap_bytes -> blank_last V -> scratch_idle V ->
  boot_magic_code (vread V SLOT0 (T - 16) 16) = BOOT_MAGIC_GOOD ->
  b2z (V' SLOT0 (T - 32)) = BOOT_FLAG_SET -> b2z (V' SLOT0 (T - 24)) = ok -> exchanged ok V'.
Proof using All.
  intros E P1 P2 P3 P5 Hm Hd Hok. pose proof (sp_fits _ _ Hsp) as Hf.
  pose proof (offsets I0 I1 sw Hf) as (O1 & O2 & O3 & O4 & O5 & _ & O7 & O8). pose proof (swap_bounds I0 I1 sw Hf) as (B1 & B2 & B3).
  split.
  - eapply holds_ext; [|done]. intros o Ho. apply E. lia.
  - eapply holds_ext; [|done]. intros o Ho. apply E. by intros [].
  - intros o Ho. rewrite E by (by intros []). by apply P3.
  - unfold swap_state_of. fold slot_size. change (SLOT0 =? SCRATCH) with false. cbv iota. rewrite Hd, Hok. f_equal.
    rewrite <- Hm. f_equal. apply mread_ext. intros i Hi. apply E. lia.
  - eapply scratch_idle_ext; [|done]. intros o Ho. apply E. by intros [].
Qed.

Definition requested_ok : Z := if permanent I1 then BOOT_FLAG_SET else BOOT_FLAG_UNSET.

Lemma copy_done_exchanged V : phase3 V -> exchanged requested_ok (vwrite V SLOT0 (T - 32) (padded Byte.x01)).
Proof using All.
  intros [P1 P2 P3 [T1 T2 T3 T4 T5] P5]. pose proof (offsets I0 I1 sw (sp_fits _ _ Hsp)) as (O1 & O2 & O3 & O4 & _).
  apply (flags_exchanged V); try done; [|by rewrite T1|..].
  - intros id o Hn. rewrite flag_write, decide_False; [done|]. intros [-> ?]. apply Hn. lia.
  - rewrite flag_write, !decide_True by lia. done.
  - rewrite flag_write, decide_False, T3 by lia. done.
Qed.

Lemma set_copy_done_spec V bd (k : bool -> BM (D := D) boot_rsp) Q (J : blocks -> Prop) :
  J V -> safely (k true) (vwrite V SLOT0 (T - 32) (padded Byte.x01)) bd Q J ->
  safely (b <- (r <- try boot_set_copy_done ;; match r with None => fault | Some _ => ret true end) ;; k b) V bd Q J.
Proof using All.
  intros HJ Hk. apply safely_bind, (safely_try_or_fault live boot_set_copy_done (fun _ => ret true)). unfold boot_set_copy_done.
  apply safely_bind, safely_or_return, safely_open; [by left|].
  apply safely_closing, safely_write_copy_done; [by left|done|]. by apply safely_ret.
Qed.

(** The end of the boot, with the new image in slot 0. *)
Lemma finish_spec V bd (Q : boot_rsp -> blocks -> boot_loader_state -> Prop) J :
  ready bd -> holds V SLOT0 I1 swap_bytes -> (forall bd', Q (new_response I1) V bd') ->
  safely (boot_read_image_headers ;;
    asserted (boot_validate_slot 0) ;; dev_id <- boot_img_fa_device_id 0 ;; off <- boot_img_slot_off 0 ;; h <- boot_img_hdr 0 ;;
    ret (BootRsp h dev_id off)) V bd Q J.
Proof using All.
  intros Hb Hh HQ. pose proof (sp_fits _ _ Hsp) as Hf. pose proof (offsets I0 I1 sw Hf) as (O1 & O2 & O3 & O4 & O5 & _ & O7 & O8).
  pose proof (swap_bounds I0 I1 sw Hf) as (B1 & B2 & B3). destruct new_extent as (N1 & N2 & N3).
  pose proof bl_trailer as Htr. assert (32 <= swap_bytes) as H32 by (unfold BootSteps.swap_bytes, unit_sz in *; nia).
  apply safely_bind, safely_read_headers. rewrite (header_holds V SLOT0 I1 swap_bytes) by (done || lia).
  eapply (respond_spec live I1 swap_bytes fs); [by apply ready_headers|done|done|lia| |done].
  eapply accepted_more; [apply Hsp|lia].
Qed.

(** ** Updates *)

Definition update_type : swap_type_t := if permanent I1 then BOOT_SWAP_TYPE_PERM else BOOT_SWAP_TYPE_TEST.

Lemma pending_next V : pending T I1 -> holds V SLOT1 I1 T -> next_swap V = update_type.
Proof using All.
  intros [H5 H6] Hh. pose proof (sp_fits _ _ Hsp) as Hf. pose proof (offsets I0 I1 sw Hf) as (O1 & O2 & O3 & O4 & O5 & _ & O7 & O8).
  unfold next_swap, swap_state_of at 2. rewrite O5. rewrite (Hh (T - 24)) by lia.
  replace (vread V SLOT1 (T - 16) 16) with boot_img_magic_bytes
    by (rewrite <- H5; apply mread_ext; intros i Hi; symmetry; apply Hh; lia).
  unfold update_type, permanent. by destruct H6 as [-> | ->].
Qed.

(** What is left of the boot when the swap has been looked after. *)
Definition after_swap (t : swap_type_t) : BM (D := D) boot_rsp :=
  reload_headers <- match t with
    | BOOT_SWAP_TYPE_NONE => ret false
    | BOOT_SWAP_TYPE_TEST | BOOT_SWAP_TYPE_PERM | BOOT_SWAP_TYPE_REVERT =>
        r <- try boot_set_copy_done ;;
        match r with None => fault | Some _ => ret true end
    | BOOT_SWAP_TYPE_FAIL => ret true
    | BOOT_SWAP_TYPE_PANIC => fault
    end ;;
  (if reload_headers : bool then boot_read_image_headers else ret tt) ;;
  asserted (boot_validate_slot 0) ;;
  dev_id <- boot_img_fa_device_id 0 ;;
  off <- boot_img_slot_off 0 ;;
  h <- boot_img_hdr 0 ;;
  ret (BootRsp h dev_id off).

(** The boot up to the swap. *)
Lemma body_prefix V bd (Q : boot_rsp -> blocks -> boot_loader_state -> Prop) J :
  opened bd ->
  (forall bd', ready bd' -> hdr (img0 bd') = header_at V SLOT0 -> hdr (img1 bd') = header_at V SLOT1 ->
    safely boot_swap_if_needed V bd' (fun t V' bd'' =>
      safely (match t with
        | BOOT_SWAP_TYPE_REVERT | BOOT_SWAP_TYPE_FAIL =>
            r <- try boot_set_image_ok ;; ret (match r with None => BOOT_SWAP_TYPE_PANIC | Some _ => t end)
        | _ => ret t
        end) V' bd'' (fun t V' bd'' => safely (after_swap t) V' bd'' Q J) J) J) ->
  safely boot_body V bd Q J.
Proof using All.
  intros Ho Hswap. unfold boot_body. apply safely_bind, safely_read_sectors; [done|]. intros bd1 Hb1.
  apply safely_bind, safely_read_headers, safely_bind. apply (ready_headers _ (header_at V SLOT0) (header_at V SLOT1)) in Hb1.
  unfold boot_prepare_slot0. apply safely_bind, safely_compatible; [done|]. cbv iota. apply safely_bind, safely_asserted.
  by apply Hswap.
Qed.

(** The boot after a swap that leaves phase 3, once it is known what to do about
    [image_ok]. *)
Lemma swapped_spec t ok V bd J :
  t = BOOT_SWAP_TYPE_TEST \/ t = BOOT_SWAP_TYPE_PERM \/ t = BOOT_SWAP_TYPE_REVERT ->
  ready bd -> J V -> exchanged ok (vwrite V SLOT0 (T - 32) (padded Byte.x01)) ->
  safely (after_swap t) V bd (fun rsp V' _ => rsp = new_response I1 /\ exchanged ok V') J.
Proof using All.
  intros Ht Hb HJ Hx.
  assert (safely (b <- (r <- try boot_set_copy_done ;; match r with None => fault | Some _ => ret true end) ;;
    (if b : bool then boot_read_image_headers else ret tt) ;;
    asserted (boot_validate_slot 0) ;; dev_id <- boot_img_fa_device_id 0 ;; off <- boot_img_slot_off 0 ;; h <- boot_img_hdr 0 ;;
    ret (BootRsp h dev_id off)) V bd (fun rsp V' _ => rsp = new_response I1 /\ exchanged ok V') J) as H.
  { apply set_copy_done_spec; [done|]. apply finish_spec; [done|apply Hx|]. by intros _. }
  by destruct Ht as [->|[-> | ->]].
Qed.

(** A swap in progress is completed, whatever asked for it. *)
Lemma resumed_body_spec k V bd :
  opened bd -> 1 <= k <= 3 -> in_phase k V ->
  safely boot_body V bd (fun rsp V' _ => rsp = new_response I1 /\ exchanged requested_ok V') progress.
Proof using All.
  intros Ho Hk Hp. apply body_prefix; [done|]. intros bd' Hb _ _. apply (resumed_swap_spec k); [done..|].
  intros V' H3. apply safely_ret, swapped_spec; [tauto|done|by right; right; right|by apply copy_done_exchanged].
Qed.

Lemma update_body_spec V bd :
  pending T I1 -> opened bd -> progress V ->
  safely boot_body V bd (fun rsp V' _ => rsp = new_response I1 /\ exchanged requested_ok V') progress.
Proof using All.
  intros Hpd Ho [k [Hk Hp]]%progress_phase. destruct (decide (k = 0)) as [->|Hne]; [|by apply (resumed_body_spec k); [|lia|]].
  cbn in Hp. pose proof (pending_next V Hpd (p0_new _ _ _ Hp)) as Et. apply body_prefix; [done|]. intros bd' Hb H0 H1.
  apply fresh_swap_spec; [done..|rewrite Et; unfold update_type, swaps; destruct (permanent I1); tauto|].
  intros V' H3. rewrite Et. pose proof (copy_done_exchanged V' H3) as Hx. unfold update_type.
  destruct (permanent I1); apply safely_ret, swapped_spec; by (tauto || (right; right; right)).
Qed.

Lemma update_main_spec V bd :
  pending T I1 -> progress V -> safely bl2_main V bd (fun entry V' _ => entry = new_entry I1 /\ exchanged requested_ok V') progress.
Proof using All. intros Hpd HP. apply main_spec. intros bd' Ho. by apply update_body_spec. Qed.

(** ** Reverts *)

Lemma safely_live {A} (m : BM (D := D) A) V bd Q J J' : live -> safely m V bd Q J -> safely m V bd Q J'.
Proof using Type. intros Hl H s Hs Hb. specialize (H s Hs Hb). by destruct (m s) as [[a|e|] s']; [|destruct H..]. Qed.

(** [image_ok] of slot 0 is set after a revert. *)
Definition confirm V : blocks := vwrite V SLOT0 (T - 24) (padded Byte.x01).

Lemma revert_flags V : phase3 V -> exchanged BOOT_FLAG_SET (vwrite (confirm V) SLOT0 (T - 32) (padded Byte.x01)).
Proof using All.
  intros [P1 P2 P3 [T1 T2 T3 T4 T5] P5]. pose proof (offsets I0 I1 sw (sp_fits _ _ Hsp)) as (O1 & O2 & O3 & O4 & _). unfold confirm.
  apply (flags_exchanged V); try done; [|by rewrite T1|..].
  - intros id o Hn. rewrite !flag_write, !decide_False; [done|intros [-> ?]; apply Hn; lia..].
  - rewrite flag_write, !decide_True by lia. done.
  - rewrite flag_write, decide_False, flag_write, !decide_True by lia. done.
Qed.

(** A swap back, whenever the power fails: [J] holds through the swap and once
    [image_ok] is set. *)
Lemma revert_body_spec V bd (J : blocks -> Prop) :
  opened bd -> phase0 V -> next_swap V = BOOT_SWAP_TYPE_REVERT ->
  (forall V', progress V' -> J V') -> (forall V', permanent I1 = false -> phase3 V' -> J (confirm V')) ->
  safely boot_body V bd (fun rsp V' _ => rsp = new_response I1 /\ exchanged BOOT_FLAG_SET V') J.
Proof using All.
  intros Ho Hp Et HJ HJc. apply body_prefix; [done|]. intros bd' Hb H0 H1.
  eapply safely_mono; [apply (fresh_swap_spec V bd' (fun t V' bd'' => t = BOOT_SWAP_TYPE_REVERT /\ bd'' = bd' /\ phase3 V'));
    [done..|rewrite Et; unfold swaps; tauto|by rewrite Et]| |exact HJ].
  intros t V' bd'' (-> & -> & H3).
  assert (J V') as HV' by (apply HJ; by right; right; right).
  apply safely_bind, safely_try_or; [|by intros Hl V'' bd'' ?; apply safely_ret, safely_fault].
  unfold boot_set_image_ok.
  apply safely_bind, safely_or_return, safely_open; [by left|]. apply safely_closing, safely_bind, safely_or_return, safely_read_swap_state; [by left|].
  assert (image_ok (swap_state_of V' SLOT0) = if permanent I1 then BOOT_FLAG_SET else BOOT_FLAG_UNSET) as ->.
  { cbn [swap_state_of image_ok]. fold slot_size. by rewrite (t_ok _ _ _ _ (p3_trailer _ _ _ _ H3)). }
  pose proof (copy_done_exchanged V' H3) as Hx. pose proof (revert_flags V' H3) as Hr. unfold requested_ok in Hx.
  destruct (permanent I1) eqn:Ep.
  - change (BOOT_FLAG_SET =? BOOT_FLAG_UNSET) with false. apply safely_ret, safely_ret, swapped_spec; [tauto|done..].
  - rewrite Z.eqb_refl. apply safely_write_image_ok; [by left|done|]. fold slot_size (confirm V').
    apply safely_ret, swapped_spec; [tauto|done|by apply HJc|done].
Qed.

Lemma revert_main_spec V bd (J : blocks -> Prop) :
  live -> phase0 V -> next_swap V = BOOT_SWAP_TYPE_REVERT -> permanent I1 = false ->
  safely bl2_main V bd (fun entry V' _ => entry = new_entry I1 /\ exchanged BOOT_FLAG_SET V') J.
Proof using All.
  intros Hl Hp Et Eperm. apply (safely_live _ _ _ _ (fun _ => True) _ Hl), main_spec. intros bd' Ho. by apply revert_body_spec.
Qed.
End update.

Section settled.
  Context {D : Type} `{!ARM_DRIVER_FLASH D, !FlashDevice D, !flash_reads D} {Layout : boot_layout} `{!boot_layout_ok D}.
  Context {Mbed : mbedtls} {Keys : bootutil_key_list} {Hsha : sha256_streams}.
  Local Abbreviation SLOT0 := FLASH_AREA_IMAGE_0.
  Local Abbreviation SLOT1 := FLASH_AREA_IMAGE_1.
  Implicit Types (V : blocks) (bd : boot_loader_state).

(** ** After a swap *)

Section after.
  Context (I0 I1 : Z -> byte) (sw : Z) (fs : list tlv_field) (Hsp : swappable (D := D) I0 I1 sw fs).

Lemma exchanged_next ok V : exchanged (D := D) I0 I1 sw ok V ->
  next_swap V = if ok =? BOOT_FLAG_UNSET then BOOT_SWAP_TYPE_REVERT else BOOT_SWAP_TYPE_NONE.
Proof using All.
  intros [U1 U2 U3 U4 U5]. pose proof (offsets I0 I1 sw (sp_fits _ _ _ _ Hsp)) as (O1 & O2 & O3 & O4 & O5 & O6 & O7 & O8).
  unfold next_swap. rewrite U4. unfold swap_state_of. rewrite O5. rewrite (blank_magic (D := D) V U3), (U3 (slot_size - 24)) by lia.
  destruct (Z.eqb_spec ok BOOT_FLAG_UNSET) as [->|Hne]; [done|].
  assert (any_or 0xff (Some ok) = false) as E by (unfold any_or; cbn [orb]; apply Z.eqb_neq; by apply not_eq_sym).
  unfold boot_swap_tables. cbn [swap_type_loop magic_slot0 magic_slot1 image_ok_slot0 image_ok_slot1 copy_done_slot0 swap_type
    magic image_ok copy_done]. rewrite E, !andb_false_r. done.
Qed.

Lemma exchanged_quiet ok V : exchanged (D := D) I0 I1 sw ok V -> quiet V.
Proof using Type. intros [U1 U2 U3 U4 U5]. split; [done|]. left. by rewrite U4. Qed.

Lemma swap_32 : 32 <= swap_bytes (D := D) sw /\ extent I0 <= swap_bytes (D := D) sw /\ extent I1 <= swap_bytes (D := D) sw.
Proof using All.
  pose proof (swap_bounds I0 I1 sw (sp_fits _ _ _ _ Hsp)) as (B1 & B2 & B3). pose proof (sp_size _ _ _ _ Hsp).
  pose proof bl_trailer as Htr. pose proof bl_unit. unfold BootSteps.swap_bytes in *. nia.
Qed.

(** The two images can be exchanged back. *)
Lemma exchanged_swappable fs0 ok V : accepted I0 (extent I0) fs0 -> exchanged (D := D) I0 I1 sw ok V ->
  swappable (D := D) (V SLOT0) (V SLOT1) sw fs0.
Proof using All.
  intros Ha [U1 U2 U3 U4 U5]. destruct Hsp as [H1 H2 H3 H4]. destruct swap_32 as (X1 & X2 & X3).
  pose proof (swap_bounds I0 I1 sw H2) as (B1 & B2 & B3).
  pose proof (accepted_more _ _ _ _ H4 X3) as H4'. pose proof (accepted_more _ _ _ _ Ha X2) as Ha'.
  pose proof (extent_ext I1 (V SLOT0) _ U1 X1 (proj2 (accepted_measured _ _ _ H4'))) as E1.
  pose proof (extent_ext I0 (V SLOT1) _ U2 X1 (proj2 (accepted_measured _ _ _ Ha'))) as E0.
  split; [lia|done| |].
  - eapply accepted_measured.
    apply (accepted_more _ (swap_bytes (D := D) sw)); [|lia]. eapply accepted_ext; [exact U1|done|reflexivity|exact H4'].
  - rewrite E0. eapply accepted_ext; [exact U2|done|exact X2|exact Ha].
Qed.
End after.

(** ** A boot without a swap *)

Lemma settled_main_spec live c n fs V bd (Q : Z -> blocks -> boot_loader_state -> Prop) J :
  holds V SLOT0 c n -> 32 <= n <= slot_size -> accepted c n fs -> quiet V -> next_swap V = BOOT_SWAP_TYPE_NONE ->
  (forall bd', Q (new_entry c) V bd') -> safely (D := D) live bl2_main V bd Q J.
Proof using Type*.
  intros Hh Hn Ha [Hi Hq] Ht HQ. eapply safely_mono;
    [apply (main_spec live c V bd (fun V' => V' = V) J)|intros e V' bd' [-> ->]; apply HQ|done].
  intros bd1 Ho. unfold boot_body. apply safely_bind, safely_read_sectors; [done|]. intros bd2 Hb.
  apply safely_bind, safely_read_headers, safely_bind. apply (ready_headers _ (header_at V SLOT0) (header_at V SLOT1)) in Hb.
  set (bd3 := with_headers _ _ _) in *. unfold boot_prepare_slot0. apply safely_bind, safely_compatible; [done|]. cbv iota.
  apply safely_bind, safely_asserted. unfold boot_swap_if_needed. apply safely_bind, safely_asserted.
  assert (safely (D := D) live boot_read_status V bd3 (fun bs V' bd' => bs = BootStatus 0 0 false 0 /\ V' = V /\ bd' = bd3) J) as Hs.
  { unfold boot_read_status. apply safely_bind, safely_status_source. destruct Hq as [->|Hst]; [by apply safely_ret|].
    destruct (source_not_scratch (swap_state_of V SLOT0) (swap_state_of V FLASH_AREA_IMAGE_SCRATCH) Hi) as [->| ->]; [by apply safely_ret|].
    apply safely_bind, safely_or_return, safely_open; [by left|]. apply safely_closing, (safely_status_bytes live 0); [done|lia|done|].
    done. }
  eapply safely_mono; [exact Hs| |done]. intros bs V' bd' (-> & -> & ->). cbn [idx state]. cbv iota.
  change (negb (0 =? 0) || negb (0 =? 0)) with false. cbv iota.
  apply safely_bind. unfold boot_validated_swap_type. apply safely_bind, safely_swap_type. fold (next_swap V). rewrite Ht.
  apply safely_ret, safely_bind, safely_ret, safely_ret, safely_ret, safely_bind, safely_ret. cbv iota. apply safely_bind, safely_ret.
  apply (respond_spec live c n fs); [done| |done|lia|done|done]. by apply (header_holds V SLOT0 c n); [|lia].
Qed.

(** ** The confirmation *)

Lemma set_confirmed_spec I0 I1 sw fs live V bd (Q : unit -> blocks -> boot_loader_state -> Prop) (J : blocks -> Prop) :
  swappable (D := D) I0 I1 sw fs -> exchanged (D := D) I0 I1 sw BOOT_FLAG_UNSET V -> J V ->
  (forall V', exchanged (D := D) I0 I1 sw BOOT_FLAG_SET V' -> Q tt V' bd) -> safely (D := D) live boot_set_confirmed V bd Q J.
Proof using Type*.
  intros Hsp Hx HJ HQ. pose proof (sp_fits _ _ _ _ Hsp) as Hf. destruct Hx as [U1 U2 U3 U4 U5].
  pose proof (offsets I0 I1 sw Hf) as (O1 & O2 & O3 & O4 & O5 & _ & O7 & O8). pose proof (swap_bounds I0 I1 sw Hf) as (B1 & B2 & B3).
  unfold boot_set_confirmed. apply safely_bind, safely_swap_state_by_id; [by left|]. rewrite U4. cbn [magic image_ok copy_done].
  cbn [Z.eqb BOOT_MAGIC_GOOD BOOT_MAGIC_UNSET BOOT_MAGIC_BAD BOOT_FLAG_UNSET BOOT_FLAG_SET Pos.eqb negb].
  apply safely_bind, safely_or_return, safely_open; [by left|]. apply safely_closing, safely_write_image_ok; [by left|done|].
  apply HQ. fold slot_size. injection U4 as E1 E2 E3. fold slot_size in E1, E2, E3.
  apply (flags_exchanged live I0 I1 sw fs Hsp V); try done.
  - intros id o Hn. rewrite flag_write, decide_False; [done|]. intros [-> ?]. apply Hn. lia.
  - by rewrite flag_write, decide_False by lia.
  - rewrite flag_write, !decide_True by lia. done.
Qed.

(** ** The request of an update *)

(** The trailers do not matter for the images. *)
Lemma swappable_ext I0 I1 I0' I1' sw fs : swappable (D := D) I0 I1 sw fs ->
  (forall o, 0 <= o < last_off (D := D) -> I0' o = I0 o) -> (forall o, 0 <= o < last_off (D := D) -> I1' o = I1 o) ->
  swappable (D := D) I0' I1' sw fs.
Proof using Type*.
  intros Hsp E0 E1. destruct (swap_32 I0 I1 sw fs Hsp) as (X1 & X2 & X3). destruct Hsp as [H1 H2 H3 H4].
  pose proof (swap_bounds I0 I1 sw H2) as (B1 & B2 & B3).
  assert (extent I0' = extent I0) as X0 by (apply (extent_ext _ _ (last_off (D := D))); [done|lia|done]).
  assert (extent I1' = extent I1) as X4.
  { apply (extent_ext _ _ (last_off (D := D))); [done|lia|]. eapply accepted_measured, accepted_more; [exact H4|lia]. }
  split; [by rewrite X0, X4|done| |rewrite X4; eapply accepted_ext; [exact E1|lia|lia|done]].
  intros Hm. unfold measured, image_end in *. rewrite (header_ext I0 I0' (last_off (D := D))) in * by (done || lia).
  destruct (H3 Hm) as [M1 M2]. pose proof (end_bound I0). unfold image_end in *.
  by rewrite (mread_agree I0 I0' (last_off (D := D))) by (done || lia).
Qed.

(** ** A revert that is interrupted *)

(** Nobody has asked for a swap in the slot that holds [c]. *)
Definition unrequested (c : Z -> byte) : Prop := boot_magic_code (mread c (slot_size - 16) 16) = BOOT_MAGIC_UNSET.

Lemma unrequested_next c V : holds V SLOT1 c slot_size -> unrequested c ->
  next_swap V = BOOT_SWAP_TYPE_REVERT \/ next_swap V = BOOT_SWAP_TYPE_NONE.
Proof using Type*.
  intros Hh Hc. pose proof (geometry (D := D)) as (G1 & _ & G3 & G4 & G5 & G6 & G7 & _). pose proof bl_trailer as Htr.
  assert (40 <= slot_size) by (unfold unit_sz in *; nia).
  assert (magic (swap_state_of V SLOT1) = BOOT_MAGIC_UNSET) as Hm.
  { unfold swap_state_of. cbn [magic]. rewrite G1, <- Hc. f_equal. apply mread_ext. intros i Hi. apply Hh. lia. }
  unfold next_swap, boot_swap_tables. cbn [swap_type_loop magic_slot0 magic_slot1 image_ok_slot0 image_ok_slot1 copy_done_slot0 swap_type].
  rewrite Hm. change (any_or BOOT_MAGIC_GOOD (Some BOOT_MAGIC_UNSET)) with false. rewrite !andb_false_r, !andb_false_l.
  case_match; tauto.
Qed.

(** [c] with [image_ok] set. *)
Definition marked (c : Z -> byte) : Z -> byte := fun o => if decide (o = slot_size - 24) then Byte.x01 else c o.

Lemma marked_permanent c : permanent (marked c) = true.
Proof using Type. unfold permanent, marked. by rewrite decide_True. Qed.

Lemma marked_body c o : o < last_off (D := D) -> marked c o = c o.
Proof using Type*.
  intros Ho. pose proof (geometry (D := D)) as (_ & _ & _ & _ & _ & G6 & G7 & _). unfold status_off in G6.
  unfold marked. rewrite decide_False by lia. done.
Qed.

Lemma marked_unrequested c : unrequested c -> unrequested (marked c).
Proof using Type.
  unfold unrequested. intros <-. f_equal. apply mread_ext. intros i Hi. unfold marked. by rewrite decide_False by lia.
Qed.

(** A phase of the swap after [image_ok] has been set. *)
Lemma confirmed_phase I0 I1 sw V : swap_fits (D := D) sw -> phase3 (D := D) I0 I1 sw V -> phase3 (D := D) I0 (marked I1) sw (confirm V).
Proof using Type*.
  intros Hf [P1 P2 P3 [T1 T2 T3 T4 T5] P5]. pose proof (offsets (D := D) I0 I1 sw Hf) as (O1 & O2 & O3 & O4 & O5 & _ & O7 & O8).
  pose proof (swap_bounds (D := D) I0 I1 sw Hf) as (B1 & B2 & B3).
  assert (forall id o, ~ (id = SLOT0 /\ slot_size - 24 <= o < slot_size - 16) -> confirm V id o = V id o) as E.
  { intros id o Hn. unfold confirm. rewrite flag_write, decide_False; [done|]. intros [-> ?]. apply Hn. lia. }
  split.
  - eapply holds_ext; [|done]. intros o Ho. apply E. by intros [].
  - intros o Ho. rewrite E by (by intros []). by apply P2.
  - intros o Ho. rewrite E, marked_body by lia. by apply P3.
  - split.
    + rewrite <- T1. apply vread_ext. intros i Hi. apply E. lia.
    + rewrite E by lia. done.
    + rewrite marked_permanent. unfold confirm. rewrite flag_write, !decide_True by lia. done.
    + rewrite <- T4. apply vread_ext. intros i Hi. apply E. lia.
    + intros i Hi. rewrite <- T5 by done. unfold status_at. rewrite E by nia. done.
  - eapply scratch_idle_ext; [|done]. intros o Ho. apply E. by intros [].
Qed.

(** Either image boots, and both are kept: the one of slot 1, after the swap, or
    the one of slot 0, for good. *)
Definition kept I0 I1 sw (entry : Z) V : Prop :=
  (entry = new_entry I1 /\ holds V SLOT0 I1 (swap_bytes (D := D) sw) /\ holds V SLOT1 I0 (swap_bytes (D := D) sw) /\
   (next_swap V = BOOT_SWAP_TYPE_REVERT \/ next_swap V = BOOT_SWAP_TYPE_NONE)) \/
  (entry = new_entry I0 /\ holds V SLOT0 I0 (swap_bytes (D := D) sw) /\ holds V SLOT1 I1 (swap_bytes (D := D) sw) /\
   next_swap V = BOOT_SWAP_TYPE_NONE).

Lemma exchanged_kept I0 I1 sw fs ok V : swappable (D := D) I0 I1 sw fs -> exchanged (D := D) I0 I1 sw ok V -> kept I0 I1 sw (new_entry I1) V.
Proof using Type*.
  intros Hsp Hx. left. split_and!; [done|apply Hx..|]. rewrite (exchanged_next _ _ _ _ Hsp _ _ Hx). case_match; tauto.
Qed.

(** A boot with nothing requested, from any phase. *)
Lemma unrequested_main_spec live I0 I1 sw fs fs0 V bd (J : blocks -> Prop) :
  swappable (D := D) I0 I1 sw fs -> accepted I0 (extent I0) fs0 -> unrequested I1 -> progress (D := D) I0 I1 sw V ->
  (forall V', progress (D := D) I0 I1 sw V' -> J V') ->
  (forall V', permanent I1 = false -> phase3 (D := D) I0 I1 sw V' -> J (confirm V')) ->
  safely (D := D) live bl2_main V bd (fun entry V' _ => kept I0 I1 sw entry V') J.
Proof using Type*.
  intros Hsp Ha Hu [k [Hk Hp]]%progress_phase HJ HJc.
  assert (forall ok entry V' (bd' : boot_loader_state), entry = new_entry I1 /\ exchanged (D := D) I0 I1 sw ok V' -> kept I0 I1 sw entry V') as HQ.
  { intros ok entry V' bd' [-> Hx]. by eapply exchanged_kept. }
  destruct (decide (k = 0)) as [->|Hne].
  - pose proof Hp as [P1 P2 P3]. destruct (unrequested_next I1 V P1 Hu) as [Ht|Ht].
    + eapply safely_mono; [apply (main_spec live I1 V bd (exchanged (D := D) I0 I1 sw BOOT_FLAG_SET) J)|apply HQ|done].
      intros bd' Ho. by apply (revert_body_spec live I0 I1 sw fs Hsp).
    + destruct (swap_32 I0 I1 sw fs Hsp) as (X1 & X2 & X3). pose proof (swap_bounds I0 I1 sw (sp_fits _ _ _ _ Hsp)) as (B1 & B2 & B3).
      pose proof (offsets (D := D) I0 I1 sw (sp_fits _ _ _ _ Hsp)) as (_ & _ & _ & _ & _ & _ & O7 & O8).
      assert (holds V SLOT0 I0 (swap_bytes (D := D) sw)) as H0 by (intros o Ho; apply P2; lia).
      apply (settled_main_spec live I0 (swap_bytes (D := D) sw) fs0); [done|lia|by eapply accepted_more|done..|].
      intros bd'. right. split_and!; [done..| |done]. intros o Ho. apply P1. lia.
  - eapply safely_mono; [apply (main_spec live I1 V bd (exchanged (D := D) I0 I1 sw (requested_ok I1)) (progress (D := D) I0 I1 sw))|apply HQ|exact HJ].
    intros bd' Ho. apply (resumed_body_spec live I0 I1 sw fs Hsp k); [done|lia|done].
Qed.

(** The phases of a swap back, before and after [image_ok] is set. *)
Definition reverting I0 I1 sw V : Prop := progress (D := D) I0 I1 sw V \/ progress (D := D) I0 (marked I1) sw V.

Lemma reverting_main_spec live I0 I1 sw fs fs0 V bd :
  swappable (D := D) I0 I1 sw fs -> accepted I0 (extent I0) fs0 -> unrequested I1 -> reverting I0 I1 sw V ->
  safely (D := D) live bl2_main V bd (fun entry V' _ => kept I0 I1 sw entry V') (reverting I0 I1 sw).
Proof using Type*.
  intros Hsp Ha Hu HV. destruct (swap_32 I0 I1 sw fs Hsp) as (X1 & X2 & X3).
  pose proof (swap_bounds I0 I1 sw (sp_fits _ _ _ _ Hsp)) as (B1 & B2 & B3).
  destruct HV as [HV|HV].
  - apply (unrequested_main_spec live I0 I1 sw fs fs0); [done..|by left|].
    intros V' _ H3. right. right. right. right. apply confirmed_phase; [apply Hsp|done].
  - assert (swappable (D := D) I0 (marked I1) sw fs) as Hsp'
      by (eapply swappable_ext; [exact Hsp|done|]; intros o Ho; apply marked_body; lia).
    eapply safely_mono;
      [apply (unrequested_main_spec live I0 (marked I1) sw fs fs0 V bd (reverting I0 I1 sw)); [done|done|by apply marked_unrequested|done|by right|]| |done].
    + intros V' Hp. by rewrite marked_permanent in Hp.
    + assert (forall id V', holds V' id (marked I1) (swap_bytes (D := D) sw) -> holds V' id I1 (swap_bytes (D := D) sw)) as Hm.
      { intros id V' Hh o Ho. rewrite Hh by done. apply marked_body. lia. }
      assert (new_entry (marked I1) = new_entry I1) as He
        by (unfold new_entry; rewrite (header_ext I1 (marked I1) (last_off (D := D))); [done|intros o Ho; apply marked_body; lia|lia]).
      intros entry V' _ [(-> & H0 & H1 & Hn)|(-> & H0 & H1 & Hn)]; [left|right]; split_and!; auto.
Qed.

(** What [boot_set_pending] writes. *)
Definition requested (perm : bool) V : blocks :=
  let V1 := vwrite V SLOT1 (slot_size - 16) boot_img_magic_bytes in
  if perm then vwrite V1 SLOT1 (slot_size - 24) (padded Byte.x01) else V1.

Lemma set_pending_spec live perm V bd (Q : unit -> blocks -> boot_loader_state -> Prop) :
  live -> blank_last (D := D) V -> Q tt (requested perm V) bd -> safely (D := D) live (boot_set_pending perm) V bd Q (fun _ => True).
Proof using Type*.
  intros Hl Hb HQ. pose proof geometry as (G1 & _ & _ & _ & _ & G6 & G7 & _). unfold boot_set_pending.
  apply safely_bind, safely_swap_state_by_id; [by right; left|]. unfold swap_state_of. rewrite G1, (blank_magic (D := D) V Hb). cbn [magic].
  change (boot_magic_code (replicate 16 Byte.xff)) with BOOT_MAGIC_UNSET. cbn [Z.eqb BOOT_MAGIC_UNSET BOOT_MAGIC_GOOD Pos.eqb].
  apply safely_bind, safely_or_return, safely_open; [by right; left|].
  apply safely_closing, safely_bind, safely_write_magic; [by right; left|done|]. rewrite G1. unfold requested in HQ. destruct perm.
  - apply safely_write_image_ok; [by right; left|done|]. rewrite G1. exact HQ.
  - by apply safely_ret.
Qed.

(** A request that has been made is not made again. *)
Lemma set_pending_again live perm V bd (Q : unit -> blocks -> boot_loader_state -> Prop) J :
  vread V SLOT1 (slot_size - 16) 16 = boot_img_magic_bytes -> Q tt V bd -> safely (D := D) live (boot_set_pending perm) V bd Q J.
Proof using Type*.
  intros Hm HQ. pose proof geometry as (G1 & _). unfold boot_set_pending.
  apply safely_bind, safely_swap_state_by_id; [by right; left|]. unfold swap_state_of. rewrite G1, Hm. cbn [magic].
  change (boot_magic_code boot_img_magic_bytes =? BOOT_MAGIC_GOOD) with true. by apply safely_ret.
Qed.

Lemma requested_at perm V id o : requested perm V id o =
  if decide (id = SLOT1 /\ slot_size - 16 <= o < slot_size) then znth boot_img_magic_bytes (o - (slot_size - 16))
  else if decide (perm = true /\ id = SLOT1 /\ slot_size - 24 <= o < slot_size - 24 + unit_sz) then znth (padded Byte.x01) (o - (slot_size - 24))
  else V id o.
Proof using Type*.
  pose proof geometry as (_ & _ & _ & _ & _ & _ & G7 & _). unfold requested. destruct perm; rewrite !vwrite_spec, ?zlen_padded;
    change (zlen boot_img_magic_bytes) with 16; repeat case_decide; try done; naive_solver lia.
Qed.
End settled.
