(* ===== verification/BootClaims.v ===== *)
(** * Bootloader: an update and its confirmation

    What a device with an update pending does over any number of boots, each of
    them cut off by a power failure or not, and what the requests of the running
    system change. *)

From S2P Require Import Prelude FlashDriver SstFlash BootFlash BootUtil BootImage BootLoader BootView BootTrailer BootSwap BootSteps BootValidate BootCopy BootGo BootUpdate.

(** A device that does not fail by itself. *)
Class flash_works (D : Type) `{!ARM_DRIVER_FLASH D, !FlashDevice D} : Prop := works d : flash_live d.

#[global] Instance working_reads D `{!ARM_DRIVER_FLASH D, !FlashDevice D} (Hw : flash_works D) : flash_reads D.
Proof. intros d a n Ha Hn Hr. by apply ReadData_live; [..|apply works]. Qed.

#[global] Instance works_reads D `{!ARM_DRIVER_FLASH D, !FlashDevice D} (Hw : flash_works D) : flash_reads (power_cut D).
Proof. intros d a n Ha Hn Hr. apply (ReadData_live (device d)); [done..|]. apply works. Qed.

#[global] Instance power_cut_layout_ok D `{!ARM_DRIVER_FLASH D, !FlashDevice D, !boot_layout} (Hok : boot_layout_ok D) :
  boot_layout_ok (power_cut D).
Proof. destruct Hok. by split. Qed.

#[global] Instance emulated_works dev `{!flash_dev_ok dev} : flash_works (emulated dev).
Proof. by intros d. Qed.

Section power.
  Context {D : Type} `{!ARM_DRIVER_FLASH D, !FlashDevice D, !flash_works D} {Layout : boot_layout} `{!boot_layout_ok D}.
  Context {Mbed : mbedtls} {Keys : bootutil_key_list}.
  Local Abbreviation PD := (power_cut D).
  Local Abbreviation SLOT0 := FLASH_AREA_IMAGE_0.
  Local Abbreviation SLOT1 := FLASH_AREA_IMAGE_1.
  Local Abbreviation SCRATCH := FLASH_AREA_IMAGE_SCRATCH.

(** What the areas hold. *)
Definition area_view (d : D) : blocks := fun id o => flash_byte d (fa_off (area_of id) + o).

(** A boot: what its RAM holds at reset, and the number of program and erase
    operations until the power fails. *)
Record boot_cycle := BootCycle { bc_ram : boot_loader_state; bc_refs : list Z; bc_budget : nat }.

(** Boots until one of them starts an image: where, and the flash by then. *)
Fixpoint boot_until (cs : list boot_cycle) (d : D) : option Z * D :=
  match cs with
  | [] => (None, d)
  | c :: cs =>
      match bl2_main (BootState (PowerCut (Some (bc_budget c)) d) (bc_refs c) (bc_ram c)) with
      | (Ok entry, s) => (Some entry, device (bt_dev s))
      | (_, s) => boot_until cs (device (bt_dev s))
      end
  end.

Definition powered (d : D) (refs : list Z) (ram : boot_loader_state) : boot_state PD := BootState (PowerCut None d) refs ram.

(** The areas of [d] hold [V]. *)
Definition shows (d : D) (V : blocks) : Prop := forall id o, is_area id -> 0 <= o < asize id -> area_view d id o = V id o.

Lemma shows_rep (live : Prop) (p : PD) V : (live -> budget p = None) -> shows (device p) V -> BRep live p V.
Proof using flash_works0. intros Hl HV. split; [|exact HV]. intros l. split; [by apply Hl|apply works]. Qed.

(** What [safely] says of a powered device, and of one that loses power. *)
Lemma safely_powered {A} (m : BM (D := PD) A) d V refs ram Q J :
  shows d V -> safely True m V ram Q J ->
  exists a s' V', m (powered d refs ram) = (Ok a, s') /\ shows (device (bt_dev s')) V' /\ Q a V' (boot_data s').
Proof using flash_works0.
  intros HV H. specialize (H (powered d refs ram) (shows_rep True (PowerCut None d) V (fun _ => eq_refl) HV) eq_refl).
  destruct (m _) as [[a|e|] s'] eqn:E; [|by destruct H as [[] _]..]. destruct H as (V' & [_ ?] & ?). by exists a, s', V'.
Qed.

Lemma safely_cut {A} (m : BM (D := PD) A) (d : D) V n refs ram Q J :
  shows d V -> safely False m V ram Q J ->
  match m (BootState (PowerCut (Some n) d) refs ram) with
  | (Ok a, s') => exists V', shows (device (bt_dev s')) V' /\ Q a V' (boot_data s')
  | (_, s') => exists V', shows (device (bt_dev s')) V' /\ J V'
  end.
Proof using flash_works0.
  intros HV H. specialize (H (BootState (PowerCut (Some n) d) refs ram) (shows_rep False (PowerCut (Some n) d) V (False_ind _) HV) eq_refl).
  destruct (m _) as [[a|e|] s']; [destruct H as (V' & [_ ?] & ?)|destruct H as (_ & V' & [_ ?] & ?)..]; by exists V'.
Qed.

Context {Hsha : sha256_streams}.

Lemma exchanged_shows I0 I1 sw ok d V :
  swap_fits (D := PD) sw -> shows d V -> exchanged (D := PD) I0 I1 sw ok V -> exchanged (D := PD) I0 I1 sw ok (area_view d).
Proof using Type*.
  intros Hf HV [U1 U2 U3 U4 U5]. pose proof (offsets (D := PD) I0 I1 sw Hf) as (O1 & O2 & O3 & O4 & O5 & O6 & O7 & O8).
  pose proof (swap_bounds (D := PD) I0 I1 sw Hf) as (B1 & B2 & B3).
  split.
  - eapply holds_ext; [|done]. intros o Ho. apply HV; [by left|fold slot_size; lia].
  - eapply holds_ext; [|done]. intros o Ho. apply HV; [by right; left|lia].
  - intros o Ho. rewrite HV; [by apply U3|by right; left|lia].
  - rewrite <- U4. apply swap_state_ext. intros o Ho. fold slot_size in Ho. apply HV; [by left|fold slot_size; lia].
  - eapply scratch_idle_ext; [|done]. intros o Ho. apply HV; [by right; right|lia].
Qed.

(** An update that passes the validation waits in slot 1, and no swap is in
    progress. *)
Record update_waits (d : D) (sw : Z) (fs : list tlv_field) : Prop := {
  uw_swap : swappable (D := PD) (area_view d SLOT0) (area_view d SLOT1) sw fs;
  uw_pending : pending slot_size (area_view d SLOT1);
  uw_quiet : quiet (area_view d);
}.

(** The images of [d] are exchanged in [d'], and [image_ok] of slot 0 is [ok]. *)
Definition swapped (d d' : D) (sw ok : Z) : Prop :=
  exchanged (D := PD) (area_view d SLOT0) (area_view d SLOT1) sw ok (area_view d').

(** The boots of a device on which the update is pending or in progress. *)
Lemma boots_progress I0 I1 sw fs : swappable (D := PD) I0 I1 sw fs -> pending slot_size I1 ->
  forall cs d V, shows d V -> progress (D := PD) I0 I1 sw V ->
  match boot_until cs d with
  | (Some entry, d') => entry = new_entry I1 /\ exchanged (D := PD) I0 I1 sw (requested_ok I1) (area_view d')
  | (None, d') => exists V', shows d' V' /\ progress (D := PD) I0 I1 sw V'
  end.
Proof using Type*.
  intros Hsp Hpd. induction cs as [|[ram refs n] cs IH]; intros d V HV HP; cbn [boot_until bc_ram bc_refs bc_budget]; [by exists V|].
  pose proof (safely_cut bl2_main d V n refs ram _ _ HV (update_main_spec False I0 I1 sw fs Hsp V ram Hpd HP)) as H.
  destruct (bl2_main _) as [[entry|e|] s'].
  - destruct H as (V' & HV' & -> & Hu). split; [done|]. eapply exchanged_shows; [apply Hsp|done..].
  - destruct H as (V' & HV' & HP'). by apply (IH _ V').
  - destruct H as (V' & HV' & HP'). by apply (IH _ V').
Qed.

Lemma waits_progress d sw fs : update_waits d sw fs ->
  progress (D := PD) (area_view d SLOT0) (area_view d SLOT1) sw (area_view d).
Proof using Type. intros [_ _ Hq]. left. by split. Qed.

(** C3: an update of images that leave the last sector of their slots free
    survives power failures.  The limit is [swap_fits] in [update_waits]: the
    sectors that the larger of the two images takes up end before the last sector
    of the slot, the one with the trailer (when the power fails during an update
    of a larger image, the device can be left without an image to start, see
    [BootBoard.MiniBoot.large_update_can_brick]).  With such an image, which passes
    the validation, pending in slot 1, and no swap in progress, let the device
    boot any number of times, the power failing after any number of program and
    erase operations each time: the first boot that starts an image starts the
    new one, and when none has by then, the next boot with power does.  By that
    time the two images are exchanged, and unless the new one was requested for
    good the next boot will revert it. *)
Theorem update_survives_power_failures d cs sw fs :
  update_waits d sw fs ->
  let new := area_view d SLOT1 in
  let done entry d' :=
    entry = new_entry new /\ swapped d d' sw (requested_ok new) /\
    next_swap (area_view d') = if permanent new then BOOT_SWAP_TYPE_NONE else BOOT_SWAP_TYPE_REVERT in
  match boot_until cs d with
  | (Some entry, d') => done entry d'
  | (None, d') => forall refs ram, exists entry s', bl2_main (powered d' refs ram) = (Ok entry, s') /\ done entry (device (bt_dev s'))
  end.
Proof using Type*.
  intros Hw. pose proof (waits_progress _ _ _ Hw) as HP. destruct Hw as [Hsp Hpd _]. cbv zeta.
  assert (forall d', swapped d d' sw (requested_ok (area_view d SLOT1)) -> next_swap (area_view d') =
    if permanent (area_view d SLOT1) then BOOT_SWAP_TYPE_NONE else BOOT_SWAP_TYPE_REVERT) as Hn.
  { intros d' Hx. rewrite (exchanged_next _ _ _ _ Hsp _ _ Hx). unfold requested_ok. by destruct (permanent _). }
  pose proof (boots_progress _ _ sw fs Hsp Hpd cs d (area_view d) ltac:(done) HP) as H.
  destruct (boot_until cs d) as [[entry|] d'].
  - destruct H as [-> Hx]. split_and!; [done..|]. by apply Hn.
  - intros refs ram. destruct H as (V & HV & HPV).
    destruct (safely_powered bl2_main d' V refs ram _ _ HV (update_main_spec True _ _ sw fs Hsp V ram Hpd HPV)) as (e & s' & V' & E & HV' & -> & Hx).
    exists (new_entry (area_view d SLOT1)), s'. apply (exchanged_shows _ _ _ _ _ _ (sp_fits _ _ _ _ Hsp) HV') in Hx. split_and!; [done..|]. by apply Hn.
Qed.

(** An update on trial that some boot has started. *)
Lemma trial_swapped d cs sw fs e d' :
  update_waits d sw fs -> permanent (area_view d SLOT1) = false -> boot_until cs d = (Some e, d') -> swapped d d' sw BOOT_FLAG_UNSET.
Proof using Type*.
  intros Hw Hp Hb. pose proof (boots_progress _ _ sw fs (uw_swap _ _ _ Hw) (uw_pending _ _ _ Hw) cs d (area_view d) ltac:(done)
    (waits_progress _ _ _ Hw)) as H. rewrite Hb in H. destruct H as [_ Hx]. unfold requested_ok in Hx. by rewrite Hp in Hx.
Qed.

(** C9: an update on trial that is not confirmed is reverted, provided that the
    old image itself passes the validation ([accepted]; the bootloader checks it
    in slot 1 before it swaps back, and keeps the new image when the check fails,
    for instance when slot 0 was empty before the update) and that both images
    leave the last sector of their slots free ([swap_fits] in [update_waits]).
    When a boot has started the new image of such a device, which has then done
    nothing about its slots, the next boot, if the power lasts through it, starts
    the old image, with both images back where they were, and the one after that
    will not swap again. *)
Theorem unconfirmed_update_reverts d cs sw fs fs0 e d' refs ram :
  update_waits d sw fs -> permanent (area_view d SLOT1) = false ->
  accepted (area_view d SLOT0) (extent (area_view d SLOT0)) fs0 -> boot_until cs d = (Some e, d') ->
  exists s', bl2_main (powered d' refs ram) = (Ok (new_entry (area_view d SLOT0)), s') /\
    let V' := area_view (device (bt_dev s')) in
    holds V' SLOT0 (area_view d SLOT0) (swap_bytes (D := PD) sw) /\ holds V' SLOT1 (area_view d SLOT1) (swap_bytes (D := PD) sw) /\
    next_swap V' = BOOT_SWAP_TYPE_NONE.
Proof using Type*.
  intros Hw Hp Ha Hb. pose proof (trial_swapped _ _ _ _ _ _ Hw Hp Hb) as Hx. pose proof (uw_swap _ _ _ Hw) as Hsp.
  pose proof (exchanged_swappable _ _ _ _ Hsp fs0 _ _ Ha Hx) as Hsp'. pose proof (swap_32 _ _ _ _ Hsp) as (X1 & _).
  destruct (safely_powered bl2_main d' (area_view d') refs ram (fun e V' _ => e = new_entry (area_view d' SLOT1) /\
    exchanged (D := PD) (area_view d' SLOT0) (area_view d' SLOT1) sw BOOT_FLAG_SET V') (fun _ => False) ltac:(done)) as (e' & s' & V' & E & HV' & -> & Hx').
  { apply (revert_main_spec True _ _ sw fs0 Hsp'); [done| |by rewrite (exchanged_next _ _ _ _ Hsp _ _ Hx)|].
    - split; [done..|]. exact (exchanged_quiet _ _ _ _ _ Hx).
    - pose proof (offsets (area_view d SLOT0) (area_view d SLOT1) sw (sp_fits _ _ _ _ Hsp)) as (O1 & O2 & O3 & O4 & _). unfold permanent.
      by rewrite (ex_blank _ _ _ _ _ Hx) by lia. }
  apply (exchanged_shows _ _ _ _ _ _ (sp_fits _ _ _ _ Hsp') HV') in Hx'. exists s'. cbv zeta. split_and!.
  - rewrite E. unfold new_entry. by rewrite (header_ext (area_view d SLOT0) (area_view d' SLOT1) _ (ex_old _ _ _ _ _ Hx) X1).
  - intros o Ho. rewrite (ex_new _ _ _ _ _ Hx') by done. by apply (ex_old _ _ _ _ _ Hx).
  - intros o Ho. rewrite (ex_old _ _ _ _ _ Hx') by done. by apply (ex_new _ _ _ _ _ Hx).
  - by rewrite (exchanged_next _ _ _ _ Hsp' _ _ Hx').
Qed.

(** ** A revert that is interrupted *)

Lemma next_shows d V : shows d V -> next_swap (area_view d) = next_swap V.
Proof using Type*.
  intros HV. pose proof (geometry (D := PD)) as (G1 & G2 & G3 & G4 & G5 & G6 & G7 & G8). pose proof bl_trailer as Htr.
  assert (40 <= slot_size) by (change (flash_sector (D := PD)) with (flash_sector (D := D)) in *; unfold unit_sz in *; cbn in *; nia).
  unfold next_swap. f_equal; apply swap_state_ext; intros o Ho; apply HV; [by left|fold slot_size in *; lia|by right; left|lia].
Qed.

Lemma kept_shows I0 I1 sw d V entry :
  swap_fits (D := PD) sw -> shows d V -> kept (D := PD) I0 I1 sw entry V -> kept (D := PD) I0 I1 sw entry (area_view d).
Proof using Type*.
  intros Hf HV. pose proof (offsets (D := PD) I0 I1 sw Hf) as (O1 & O2 & O3 & O4 & O5 & O6 & O7 & O8).
  pose proof (swap_bounds (D := PD) I0 I1 sw Hf) as (B1 & B2 & B3).
  assert (forall c, holds V SLOT0 c (swap_bytes (D := PD) sw) -> holds (area_view d) SLOT0 c (swap_bytes (D := PD) sw)) as H0.
  { intros c Hc. eapply holds_ext; [|exact Hc]. intros o Ho. apply HV; [by left|fold slot_size; lia]. }
  assert (forall c, holds V SLOT1 c (swap_bytes (D := PD) sw) -> holds (area_view d) SLOT1 c (swap_bytes (D := PD) sw)) as H1.
  { intros c Hc. eapply holds_ext; [|exact Hc]. intros o Ho. apply HV; [by right; left|lia]. }
  unfold kept. rewrite (next_shows d V HV). intros [(? & ? & ? & ?)|(? & ? & ? & ?)]; [left|right]; auto.
Qed.

(** The boots of a device that is to swap back. *)
Lemma boots_reverting I0 I1 sw fs fs0 : swappable (D := PD) I0 I1 sw fs -> accepted I0 (extent I0) fs0 -> unrequested I1 ->
  forall cs d V, shows d V -> reverting (D := PD) I0 I1 sw V ->
  match boot_until cs d with
  | (Some entry, d') => kept (D := PD) I0 I1 sw entry (area_view d')
  | (None, d') => exists V', shows d' V' /\ reverting (D := PD) I0 I1 sw V'
  end.
Proof using Type*.
  intros Hsp Ha Hu. induction cs as [|[ram refs n] cs IH]; intros d V HV HP; cbn [boot_until bc_ram bc_refs bc_budget]; [by exists V|].
  pose proof (safely_cut bl2_main d V n refs ram _ _ HV (reverting_main_spec False I0 I1 sw fs fs0 V ram Hsp Ha Hu HP)) as H.
  destruct (bl2_main _) as [[entry|e|] s'].
  - destruct H as (V' & HV' & Hk). eapply kept_shows; [apply Hsp|done..].
  - destruct H as (V' & HV' & HP'). by apply (IH _ V').
  - destruct H as (V' & HV' & HP'). by apply (IH _ V').
Qed.

(** The images of a device on trial, seen from the swap back. *)
Lemma trial_reverting d d' sw fs fs0 :
  swappable (D := PD) (area_view d SLOT0) (area_view d SLOT1) sw fs -> accepted (area_view d SLOT0) (extent (area_view d SLOT0)) fs0 ->
  swapped d d' sw BOOT_FLAG_UNSET ->
  exists fs', swappable (D := PD) (area_view d' SLOT0) (area_view d' SLOT1) sw fs0 /\
    accepted (area_view d' SLOT0) (extent (area_view d' SLOT0)) fs' /\
    unrequested (area_view d' SLOT1) /\ reverting (D := PD) (area_view d' SLOT0) (area_view d' SLOT1) sw (area_view d').
Proof using Type*.
  intros Hsp Ha Hx. pose proof (geometry (D := PD)) as (G1 & _). destruct (swap_32 _ _ _ _ Hsp) as (X1 & X2 & X3).
  pose proof (accepted_more _ _ _ _ (sp_new _ _ _ _ Hsp) X3) as Hn. exists fs. split_and!.
  - by apply (exchanged_swappable _ _ _ _ Hsp fs0 BOOT_FLAG_UNSET).
  - pose proof (extent_ext _ _ _ (ex_new _ _ _ _ _ Hx) X1 (proj2 (accepted_measured _ _ _ Hn))) as ->.
    eapply accepted_ext; [apply Hx|done|done|apply Hsp].
  - unfold unrequested. change (boot_magic_code (vread (area_view d') SLOT1 (slot_size - 16) 16) = BOOT_MAGIC_UNSET).
    by rewrite (blank_magic (D := PD) (area_view d') (ex_blank _ _ _ _ _ Hx)).
  - left. left. split; [done..|]. exact (exchanged_quiet _ _ _ _ _ Hx).
Qed.

Lemma kept_images I0 I1 I0' I1' sw entry V :
  32 <= swap_bytes (D := PD) sw /\ extent I0 <= swap_bytes (D := PD) sw /\ extent I1 <= swap_bytes (D := PD) sw ->
  (forall o, 0 <= o < swap_bytes (D := PD) sw -> I0' o = I1 o) -> (forall o, 0 <= o < swap_bytes (D := PD) sw -> I1' o = I0 o) ->
  kept (D := PD) I0' I1' sw entry V -> kept (D := PD) I1 I0 sw entry V.
Proof using Type.
  intros (X1 & _) E0 E1.
  assert (forall id, holds V id I0' (swap_bytes (D := PD) sw) -> holds V id I1 (swap_bytes (D := PD) sw)) as H0
    by (intros id Hh o Ho; rewrite Hh by done; by apply E0).
  assert (forall id, holds V id I1' (swap_bytes (D := PD) sw) -> holds V id I0 (swap_bytes (D := PD) sw)) as H1
    by (intros id Hh o Ho; rewrite Hh by done; by apply E1).
  unfold kept, new_entry. rewrite (header_ext I1 I0' _ E0 X1), (header_ext I0 I1' _ E1 X1).
  intros [(? & ? & ? & ?)|(? & ? & ? & ?)]; [left|right]; split_and!; auto.
Qed.

(** C39: a revert that is interrupted loses no image.  As in the property above,
    a boot has started the update on trial of a device whose old image passes the
    validation, and both images leave the last sector of their slots free; now let
    the power fail in any number of further boots, after any number of program
    and erase operations each time.  The first boot that starts an image again,
    or the next boot with power when none has by then, starts one of the two
    images and finds both complete: the old one, exchanged with the new one, or
    the new one, with the slots as they were, in which case it stays, for no swap
    is left to be done (whether the revert happens is not promised: it depends on
    where the power fails, see [BootBoard.MiniBoot.interrupted_revert_is_lost]). *)
Theorem interrupted_revert_keeps_images d cs cs' sw fs fs0 e d' :
  update_waits d sw fs -> permanent (area_view d SLOT1) = false ->
  accepted (area_view d SLOT0) (extent (area_view d SLOT0)) fs0 -> boot_until cs d = (Some e, d') ->
  let old := area_view d SLOT0 in
  let new := area_view d SLOT1 in
  let n := swap_bytes (D := PD) sw in
  let started entry d2 :=
    let V := area_view d2 in
    (entry = new_entry old /\ holds V SLOT0 old n /\ holds V SLOT1 new n /\
     (next_swap V = BOOT_SWAP_TYPE_REVERT \/ next_swap V = BOOT_SWAP_TYPE_NONE)) \/
    (entry = new_entry new /\ holds V SLOT0 new n /\ holds V SLOT1 old n /\ next_swap V = BOOT_SWAP_TYPE_NONE) in
  match boot_until cs' d' with
  | (Some entry, d2) => started entry d2
  | (None, d2) => forall refs ram, exists entry s', bl2_main (powered d2 refs ram) = (Ok entry, s') /\ started entry (device (bt_dev s'))
  end.
Proof using Type*.
  intros Hw Hp Ha Hb. pose proof (trial_swapped _ _ _ _ _ _ Hw Hp Hb) as Hx. pose proof (uw_swap _ _ _ Hw) as Hsp. cbv zeta.
  destruct (trial_reverting d d' sw fs fs0 Hsp Ha Hx) as (fs' & Hsp' & Ha' & Hu' & Hr).
  assert (forall entry d2, kept (D := PD) (area_view d' SLOT0) (area_view d' SLOT1) sw entry (area_view d2) ->
    kept (D := PD) (area_view d SLOT1) (area_view d SLOT0) sw entry (area_view d2)) as Hk.
  { intros entry d2. apply (kept_images _ _ _ _ _ _ _ (swap_32 _ _ _ _ Hsp)); apply Hx. }
  pose proof (boots_reverting _ _ sw fs0 fs' Hsp' Ha' Hu' cs' d' (area_view d') ltac:(done) Hr) as H.
  destruct (boot_until cs' d') as [[entry|] d2]; [by apply Hk|]. intros refs ram. destruct H as (V & HV & HPV).
  destruct (safely_powered bl2_main d2 V refs ram _ _ HV (reverting_main_spec True _ _ sw fs0 fs' V ram Hsp' Ha' Hu' HPV))
    as (entry & s' & V' & E & HV' & Hk').
  exists entry, s'. split; [done|]. apply Hk. eapply kept_shows; [apply Hsp'|done..].
Qed.

(** C28: a confirmed update stays, of images that leave the last sector of their
    slots free ([swap_fits] in [update_waits]).  When the running system confirms an update on
    trial ([boot_set_confirmed]), every later boot starts the new image and leaves
    the slots alone, whether the power lasts or not. *)
Theorem confirmed_update_stays d cs sw fs e d' refs ram :
  update_waits d sw fs -> permanent (area_view d SLOT1) = false -> boot_until cs d = (Some e, d') ->
  exists s1, boot_set_confirmed (powered d' refs ram) = (Ok tt, s1) /\
    forall c cs', exists d2, boot_until (c :: cs') (device (bt_dev s1)) = (Some (new_entry (area_view d SLOT1)), d2) /\
      shows d2 (area_view (device (bt_dev s1))).
Proof using Type*.
  intros Hw Hp Hb. pose proof (trial_swapped _ _ _ _ _ _ Hw Hp Hb) as Hx. pose proof (uw_swap _ _ _ Hw) as Hsp.
  pose proof (swap_32 _ _ _ _ Hsp) as (X1 & _ & X3). pose proof (swap_bounds (area_view d SLOT0) (area_view d SLOT1) sw (sp_fits _ _ _ _ Hsp)) as (B1 & B2 & B3).
  pose proof (offsets (area_view d SLOT0) (area_view d SLOT1) sw (sp_fits _ _ _ _ Hsp)) as (_ & _ & _ & _ & _ & _ & O7 & O8).
  assert (32 <= swap_bytes (D := PD) sw <= slot_size) as Hn by lia.
  destruct (safely_powered boot_set_confirmed d' (area_view d') refs ram (fun _ V' _ => exchanged (D := PD) (area_view d SLOT0) (area_view d SLOT1) sw BOOT_FLAG_SET V')
    (fun _ => True) ltac:(done)) as ([] & s1 & V' & E & HV' & Hx').
  { by eapply set_confirmed_spec. }
  apply (exchanged_shows _ _ _ _ _ _ (sp_fits _ _ _ _ Hsp) HV') in Hx'. exists s1. split; [done|]. intros [ram' refs' n] cs'.
  cbn [boot_until bc_ram bc_refs bc_budget].
  pose proof (safely_cut bl2_main (device (bt_dev s1)) (area_view (device (bt_dev s1))) n refs' ram' (fun e V'' _ => e = new_entry (area_view d SLOT1) /\ V'' = area_view (device (bt_dev s1))) (fun _ => False)
    (fun _ _ _ _ => eq_refl) (settled_main_spec False (area_view d SLOT1) (swap_bytes (D := PD) sw) fs (area_view (device (bt_dev s1))) ram' _ _
      (ex_new _ _ _ _ _ Hx') Hn (accepted_more _ _ _ _ (sp_new _ _ _ _ Hsp) X3) (exchanged_quiet _ _ _ _ _ Hx')
      (exchanged_next _ _ _ _ Hsp _ _ Hx') (fun _ => conj eq_refl eq_refl))) as H.
  destruct (bl2_main _) as [[entry|err|] s2]; [|by destruct H as (? & _ & [])..].
  destruct H as (V'' & HV'' & -> & ->). by exists (device (bt_dev s2)).
Qed.


End power.
