(* ===== verification/BootSecure.v ===== *)
(** * Bootloader: only signed images start

    Whatever the flash holds, whether the power fails or the device refuses
    operations: an image the bootloader starts carries a signature that a key of
    the table verifies. *)

From S2P Require Import Prelude FlashDriver SstFlash BootFlash BootUtil BootImage BootLoader BootView BootTrailer BootValidate BootGo BootClaims.

Create HintDb keeping.

Section judgement.
  Context {D : Type} `{!ARM_DRIVER_FLASH D} {Layout : boot_layout}.
  Local Abbreviation BM := (BM (D := D)).
  Implicit Types (s : boot_state D).

(** ** Programs that keep a relation *)

(** The flash and the data of the loader. *)
Definition same s s' : Prop := bt_dev s' = bt_dev s /\ boot_data s' = boot_data s.

(** The area of slot 0. *)
Definition same_area s s' : Prop := img_area (img0 (boot_data s')) = img_area (img0 (boot_data s)).

Class state_rel (R : relation (boot_state D)) : Prop := {
  sr_trans s s' s'' : R s s' -> R s' s'' -> R s s'';
  sr_same s s' : same s s' -> R s s';
}.

#[global] Instance same_rel : state_rel same.
Proof using Type. split; [|done]. intros s s' s'' [H1 H2] [H3 H4]. split; congruence. Qed.

#[global] Instance same_area_rel : state_rel same_area.
Proof using Type. split; [unfold same_area; congruence|]. intros s s' [_ H]. unfold same_area. by rewrite H. Qed.

Definition keeping (R : relation (boot_state D)) {A} (m : BM A) : Prop := forall s, R s (m s).2.
Local Abbreviation reading := (keeping same).

Lemma same_trans s s' s'' : same s s' -> same s' s'' -> same s s''.
Proof using Type. apply sr_trans. Qed.

Section keep.
  Context (R : relation (boot_state D)) `{!state_rel R}.

Lemma keeping_ret {A} (a : A) : keeping R (ret a). Proof using state_rel0. by intros s; apply sr_same. Qed.
Lemma keeping_fail {A} e : keeping R (@fail _ _ A e). Proof using state_rel0. by intros s; apply sr_same. Qed.
Lemma keeping_fault {A} : keeping R (@fault _ Z A). Proof using state_rel0. by intros s; apply sr_same. Qed.
Lemma keeping_gets {A} (f : boot_state D -> A) : keeping R (gets f). Proof using state_rel0. by intros s; apply sr_same. Qed.
Lemma keeping_assert b : keeping R (assert b). Proof using state_rel0. destruct b; [apply keeping_ret|apply keeping_fault]. Qed.

Lemma keeping_bind {A B} (m : BM A) (k : A -> BM B) : keeping R m -> (forall a, keeping R (k a)) -> keeping R (bind m k).
Proof using state_rel0.
  intros Hm Hk s. unfold bind. specialize (Hm s). destruct (m s) as [[a|e|] s']; [|done..].
  eapply sr_trans; [done|apply Hk].
Qed.

Lemma keeping_or_return {A} (m : BM A) e : keeping R m -> keeping R (or_return m e).
Proof using Type. intros Hm s. specialize (Hm s). unfold or_return. by destruct (m s) as [[]]. Qed.

Lemma keeping_asserted {A} (m : BM A) : keeping R m -> keeping R (asserted m).
Proof using Type. intros Hm s. specialize (Hm s). unfold asserted. by destruct (m s) as [[]]. Qed.

Lemma keeping_try {A} (m : BM A) : keeping R m -> keeping R (try m).
Proof using Type. intros Hm s. specialize (Hm s). unfold try. by destruct (m s) as [[]]. Qed.

Lemma keeping_ignore {A} (m : BM A) : keeping R m -> keeping R (ignore m).
Proof using state_rel0. intros. apply keeping_bind; [by apply keeping_try|]. intros. apply keeping_ret. Qed.

Lemma keeping_open id : keeping R (flash_area_open id).
Proof using state_rel0. intros s. apply sr_same. unfold flash_area_open. by destruct (area_index id part_map 0) as [[]|]. Qed.

Lemma keeping_close area : keeping R (flash_area_close area).
Proof using state_rel0.
  intros s. apply sr_same. unfold flash_area_close. destruct area as [a|]; [|done].
  destruct (area_index (fa_id a) part_map 0) as [[]|]; [|done]. unfold bind, gets. by destruct (_ =? 0).
Qed.

Lemma keeping_closing {A} area (m : BM A) : keeping R m -> keeping R (closing area m).
Proof using state_rel0.
  intros Hm s. specialize (Hm s). unfold closing.
  destruct (m s) as [[a|e|] s']; cbn [snd] in *; [eapply sr_trans; [done|apply keeping_close]..|done].
Qed.

Lemma keeping_read area off n : keeping R (flash_area_read area off n).
Proof using state_rel0. intros s. apply sr_same. unfold flash_area_read. by destruct (ReadData _ n (bt_dev s)). Qed.

Lemma keeping_reading {A} (m : BM A) : keeping same m -> keeping R m.
Proof using state_rel0. intros H s. apply sr_same, H. Qed.
End keep.

(** A read depends on the device only. *)
Lemma read_same area off n s s' : same s s' -> (flash_area_read area off n s').1 = (flash_area_read area off n s).1.
Proof using Type. intros [E _]. unfold flash_area_read. rewrite E. by destruct (ReadData _ n (bt_dev s)). Qed.

(** ** Programs that return *)

Definition yields {A} (m : BM A) s (Q : A -> boot_state D -> Prop) : Prop :=
  match m s with (Ok a, s') => Q a s' | _ => True end.

Lemma yields_ret {A} (a : A) s (Q : A -> boot_state D -> Prop) : Q a s -> yields (ret a) s Q.
Proof using Type. done. Qed.

Lemma yields_fail {A} e s (Q : A -> boot_state D -> Prop) : yields (fail e) s Q.
Proof using Type. done. Qed.

Lemma yields_bind {A B} (m : BM A) (k : A -> BM B) s Q :
  yields m s (fun a s' => yields (k a) s' Q) -> yields (bind m k) s Q.
Proof using Type. unfold yields, bind. by destruct (m s) as [[]]. Qed.

Lemma yields_mono {A} (m : BM A) s (Q Q' : A -> boot_state D -> Prop) :
  yields m s Q -> (forall a s', Q a s' -> Q' a s') -> yields m s Q'.
Proof using Type. unfold yields. intros H HQ. destruct (m s) as [[]]; eauto. Qed.

Lemma yields_or_return {A} (m : BM A) e s Q : yields m s Q -> yields (or_return m e) s Q.
Proof using Type. unfold yields, or_return. by destruct (m s) as [[]]. Qed.

Lemma yields_asserted {A} (m : BM A) s Q : yields m s Q -> yields (asserted m) s Q.
Proof using Type. unfold yields, asserted. by destruct (m s) as [[]]. Qed.

Lemma yields_reading {A} (m : BM A) s (Q : A -> boot_state D -> Prop) :
  reading m -> (forall a s', (m s).1 = Ok a -> same s s' -> Q a s') -> yields m s Q.
Proof using Type. intros Hm HQ. specialize (Hm s). unfold yields. destruct (m s) as [[a|e|] s']; [by apply HQ|done..]. Qed.

(** Any program, nothing known of what it does. *)
Lemma yields_any {A} (m : BM A) s (Q : A -> boot_state D -> Prop) : (forall a s', Q a s') -> yields m s Q.
Proof using Type. intros HQ. unfold yields. by destruct (m s) as [[]]. Qed.

Lemma yields_closing {A} area (m : BM A) s (Q : A -> boot_state D -> Prop) :
  (forall a s' s'', same s' s'' -> Q a s' -> Q a s'') -> yields m s Q -> yields (closing area m) s Q.
Proof using Type.
  intros HQ. unfold yields, closing. destruct (m s) as [[a|e|] s']; [|done..]. intros H. eapply HQ; [apply (keeping_close same)|done].
Qed.

Lemma yields_try {A} (m : BM A) s (Q : option A -> boot_state D -> Prop) :
  (forall s', Q None s') -> yields m s (fun a => Q (Some a)) -> yields (try m) s Q.
Proof using Type. unfold yields, try. intros HN H. by destruct (m s) as [[]]. Qed.
End judgement.

#[export] Hint Resolve same_rel same_area_rel keeping_ret keeping_fail keeping_fault keeping_gets keeping_assert keeping_open
  keeping_close keeping_read : keeping.

(** Decompose a program into its parts; what is left is a function call. *)
Ltac keeping :=
  intros;
  repeat first
    [ progress intros
    | solve [eauto with keeping typeclass_instances]
    | apply keeping_bind; [try exact _..| |]
    | apply keeping_or_return
    | apply keeping_asserted
    | apply keeping_ignore
    | apply keeping_try
    | apply keeping_closing
    | match goal with |- keeping _ (match ?x with _ => _ end) => destruct x end ].

Section readers.
  Context {D : Type} `{!ARM_DRIVER_FLASH D} {Layout : boot_layout} {Mbed : mbedtls} {Keys : bootutil_key_list}.
  Local Abbreviation BM := (BM (D := D)).
  Local Abbreviation reading := (keeping (D := D) same).
  Local Abbreviation rd m := (keeping (D := D) same m).
  Implicit Types (s : boot_state D).

Lemma reading_byte fap off : rd (read_byte fap off).
Proof using Type. unfold read_byte. keeping. Qed.
#[local] Hint Resolve reading_byte : keeping.
Lemma reading_copy_done_off fap : rd (boot_copy_done_off fap).
Proof using Type. unfold boot_copy_done_off. keeping. Qed.
#[local] Hint Resolve reading_copy_done_off : keeping.
Lemma reading_swap_state fap : rd (boot_read_swap_state fap).
Proof using Type. unfold boot_read_swap_state. keeping. Qed.
#[local] Hint Resolve reading_swap_state : keeping.
Lemma reading_swap_state_by_id id : rd (boot_read_swap_state_by_id id).
Proof using Type. unfold boot_read_swap_state_by_id. keeping. Qed.
#[local] Hint Resolve reading_swap_state_by_id : keeping.
Lemma reading_swap_type : rd boot_swap_type.
Proof using Type. unfold boot_swap_type. keeping. Qed.
Lemma reading_status_source : rd boot_status_source.
Proof using Type. unfold boot_status_source. keeping. Qed.
Lemma reading_status_off fap : rd (boot_status_off fap).
Proof using Type. unfold boot_status_off. keeping. Qed.
Lemma reading_status_loop n fap off w i found : rd (status_bytes_loop n fap off w i found).
Proof using Type. revert i found. induction n; intros; cbn [status_bytes_loop]; keeping. Qed.
#[local] Hint Resolve reading_status_source reading_status_off reading_status_loop : keeping.
Lemma reading_status_bytes fap bs : rd (boot_read_status_bytes fap bs).
Proof using Type. unfold boot_read_status_bytes, BOOT_WRITE_SZ. keeping. Qed.
#[local] Hint Resolve reading_status_bytes : keeping.
Lemma reading_status : rd boot_read_status.
Proof using Type. unfold boot_read_status. keeping. Qed.
Lemma reading_sector slot i : rd (img_sector slot i).
Proof using Type. unfold img_sector. keeping. Qed.
#[local] Hint Resolve reading_sector : keeping.
Lemma reading_compatible_loop n i : rd (compatible_loop n i).
Proof using Type. revert i. induction n; intros; cbn [compatible_loop]; unfold boot_img_sector_size; keeping. Qed.
#[local] Hint Resolve reading_compatible_loop : keeping.
Lemma reading_compatible : rd boot_slots_compatible.
Proof using Type. unfold boot_slots_compatible, boot_img_num_sectors. keeping. Qed.

Lemma reading_hash_loop fuel fap n size off ctx : rd (img_hash_loop fuel fap n size off ctx).
Proof using Type. revert off ctx. induction fuel; intros; cbn [img_hash_loop]; keeping. Qed.
#[local] Hint Resolve reading_hash_loop : keeping.
Lemma reading_img_hash h fap n : rd (bootutil_img_hash h fap n).
Proof using Type. unfold bootutil_img_hash. keeping. Qed.
Lemma reading_find_key hash : rd (bootutil_find_key hash).
Proof using Type. unfold bootutil_find_key. keeping. Qed.

(** The hash depends on the device only. *)
Lemma hash_loop_same fuel fap n size s s' : same s s' -> forall off ctx,
  (img_hash_loop fuel fap n size off ctx s').1 = (img_hash_loop fuel fap n size off ctx s).1.
Proof using Type.
  intros Hs. induction fuel as [|fuel IH]; intros off ctx; cbn [img_hash_loop]; destruct (off <? size); try done.
  unfold bind, flash_area_read. rewrite (proj1 Hs). destruct (ReadData _ _ (bt_dev s)) as [rc bs]. by destruct (rc =? 0).
Qed.

Lemma img_hash_same h fap n s s' : same s s' -> (bootutil_img_hash h fap n s').1 = (bootutil_img_hash h fap n s).1.
Proof using Type.
  intros Hs. unfold bootutil_img_hash, bind. set (size := u32 _).
  pose proof (hash_loop_same (Z.to_nat (size / n + 1)) fap n size s s' Hs 0 bootutil_sha256_init) as E.
  destruct (img_hash_loop _ _ _ _ _ _ s') as [[]], (img_hash_loop _ _ _ _ _ _ s) as [[]]; cbn [fst ret] in *; congruence.
Qed.

(** ** The walk over the fields *)

Lemma yields_pow_loop {St R} (body : St -> BM (St + R)) (Inv : St -> boot_state D -> Prop) (Q : R -> boot_state D -> Prop) :
  (forall st s, Inv st s -> yields (body st) s (fun r s' => match r with inl st' => Inv st' s' | inr r => Q r s' end)) ->
  forall p st s, Inv st s -> yields (pow_loop p body st) s (fun r s' => match r with inl st' => Inv st' s' | inr r => Q r s' end).
Proof using Type.
  intros Hbody. induction p as [|p IH]; intros st s Hst; cbn [pow_loop]; [by apply Hbody|].
  apply yields_bind. eapply yields_mono; [by apply IH|]. intros [st'|r] s' H; [by apply IH|by apply yields_ret].
Qed.

(** A key of the table verifies a signature in the area. *)
Definition verified s (fap : flash_area) (hash : list byte) : Prop :=
  exists key off sig, 0 <= key < zlen bootutil_keys /\ (flash_area_read fap off 256 s).1 = Ok sig /\
    bootutil_verify_sig hash 32 sig 256 key = Some 0.

(** What the walk has found so far. *)
Definition found s fap hash (v : validate_state) : Prop :=
  (sha256_valid v = true -> exists off, (flash_area_read fap off 32 s).1 = Ok hash) /\
  (valid_signature v = true -> verified s fap hash).

Lemma tlv_found s0 fap hash e v s : same s0 s -> found s0 fap hash v ->
  yields (validate_tlv fap hash e v) s
    (fun r s' => match r with inl v' => same s0 s' /\ found s0 fap hash v' | inr v' => same s0 s' /\ found s0 fap hash v' end).
Proof using Type.
  intros Hs [F1 F2]. unfold validate_tlv. destruct (negb _); [by apply yields_ret|].
  apply yields_bind, yields_reading; [keeping|]. intros bs s1 _ Hs1. assert (same s0 s1) as H1 by by eapply same_trans.
  destruct (it_type _ =? IMAGE_TLV_SHA256).
  { destruct (negb _); [apply yields_fail|]. apply yields_bind, yields_reading; [keeping|]. intros buf s2 Eb Hs2.
    unfold bytes_eqb. case_bool_decide as E; cbn [negb]; [|apply yields_fail]. subst buf. apply yields_ret.
    split; [by eapply same_trans|]. split; cbn [sha256_valid valid_signature]; [|done]. intros _.
    exists (u32 (v_off v + 4)). by rewrite <- (read_same _ _ _ _ _ H1). }
  destruct (it_type _ =? IMAGE_TLV_KEYHASH).
  { destruct (_ <? _); [apply yields_fail|]. apply yields_bind, yields_reading; [keeping|]. intros buf s2 _ Hs2.
    apply yields_bind, yields_reading; [apply reading_find_key|]. intros k s3 _ Hs3. apply yields_ret.
    split; [|done]. eapply same_trans; [done|]. by eapply same_trans. }
  destruct (it_type _ =? EXPECTED_SIG_TLV); [|by apply yields_ret].
  destruct (Z.ltb_spec (key_id v) 0), (Z.leb_spec (zlen bootutil_keys) (key_id v)); cbn [orb]; try (by apply yields_ret).
  unfold EXPECTED_SIG_LEN. destruct (Z.eqb_spec (it_len (decode_tlv bs)) 256) as [El|]; cbn [negb orb]; [|apply yields_fail].
  destruct (_ <? _); [apply yields_fail|]. rewrite El. apply yields_bind, yields_or_return, yields_reading; [keeping|]. intros buf s2 Eb Hs2.
  destruct (bootutil_verify_sig hash 32 buf 256 (key_id v)) as [rc|] eqn:Ev; [|done]. apply yields_ret.
  split; [by eapply same_trans|]. split; cbn [sha256_valid valid_signature]; [done|]. intros [?|Hrc]%orb_prop; [by apply F2|].
  apply Z.eqb_eq in Hrc. subst rc. exists (key_id v), (u32 (v_off v + 4)), buf. split_and!; [lia|lia| |done].
  by rewrite <- (read_same _ _ _ _ _ H1).
Qed.

(** What the validation of an image establishes. *)
Definition authentic s (fap : flash_area) (h : image_header) : Prop :=
  exists hash off, (bootutil_img_hash h fap 256 s).1 = Ok hash /\ (flash_area_read fap off 32 s).1 = Ok hash /\ verified s fap hash.

Lemma validate_authentic h fap s : yields (bootutil_img_validate h fap 256) s (fun _ s' => same s s' /\ authentic s fap h).
Proof using Type.
  unfold bootutil_img_validate. apply yields_bind, yields_reading; [apply reading_img_hash|]. intros hash s1 Eh Hs1.
  apply yields_bind, yields_reading; [keeping|]. intros bs s2 _ Hs2. assert (same s s2) as H2 by by eapply same_trans.
  destruct (negb _); [apply yields_fail|]. apply yields_bind. eapply yields_mono.
  { apply (yields_pow_loop _ (fun v s' => same s s' /\ found s fap hash v) (fun v s' => same s s' /\ found s fap hash v)).
    - intros v s' [Hs Hv]. eapply yields_mono; [by apply (tlv_found s)|]. by intros [].
    - split; [done|]. by split. }
  intros [v|v] s3; [done|]. intros [H3 [F1 F2]]. destruct (sha256_valid v); cbn [negb]; [|apply yields_fail].
  destruct (valid_signature v); cbn [negb]; [|apply yields_fail]. apply yields_ret. split; [done|].
  destruct (F1 eq_refl) as [off Hoff]. exists hash, off. split_and!; [done..|]. by apply F2.
Qed.

#[local] Hint Resolve reading_status reading_swap_type reading_compatible : keeping.

(** ** The boot *)

Definition slot0 : flash_area := FlashArea FLASH_AREA_IMAGE_0 FLASH_DEVICE_ID FLASH_AREA_IMAGE_0_OFFSET FLASH_AREA_IMAGE_0_SIZE.

Definition header0 s : image_header := hdr (img0 (boot_data s)).

(** The header in RAM is the one at the start of slot 0. *)
Definition current s : Prop := exists bs, (flash_area_read slot0 0 IMAGE_HEADER_SIZE s).1 = Ok bs /\ header0 s = decode_image_header bs.

Lemma current_same s s' : same s s' -> current s -> current s'.
Proof using Type.
  intros Hs (bs & H1 & H2). exists bs. rewrite (read_same _ _ _ s s' Hs). split; [done|]. unfold header0. by rewrite (proj2 Hs).
Qed.

Lemma header0_current s : yields (boot_read_image_header 0) s (fun _ s' => current s').
Proof using Type.
  unfold boot_read_image_header. apply yields_bind, yields_or_return, yields_reading; [keeping|]. intros fap s1 Eo _.
  assert (fap = slot0) as -> by by injection Eo. apply yields_closing; [intros; by eapply current_same|].
  apply yields_bind, yields_or_return, yields_reading; [keeping|]. intros bs s2 Eb [Ed _].
  unfold set_img, modify, yields. exists bs. split; [|done]. rewrite <- Eb. unfold flash_area_read. cbn [bt_dev]. rewrite Ed.
  by destruct (ReadData _ _ (bt_dev s1)).
Qed.

(** The header of slot 1 is another object. *)
Lemma header1_keeps s : current s -> current (boot_read_image_header 1 s).2.
Proof using Type.
  intros (bs & H1 & H2). assert (bt_dev (boot_read_image_header 1 s).2 = bt_dev s /\ header0 (boot_read_image_header 1 s).2 = header0 s) as [E1 E2].
  { unfold boot_read_image_header, or_return, closing, bind, set_img, modify. destruct (flash_area_open _ s) as [[fap|e|] s1] eqn:Eo;
      pose proof (keeping_open same (flash_area_id_from_image_slot 1) s) as Hs; rewrite Eo in Hs; destruct Hs as [X1 X2]; cbn [snd] in *;
      unfold header0; rewrite ?X1, ?X2; try done.
    destruct (flash_area_read _ _ _ s1) as [[bs1|e|] s2] eqn:Er;
      pose proof (keeping_read same fap 0 IMAGE_HEADER_SIZE s1) as Hs; rewrite Er in Hs; destruct Hs as [X3 X4]; cbn [snd fst] in *.
    - match goal with |- context [flash_area_close ?a ?x] => pose proof (keeping_close same a x) as [X5 X6] end. rewrite X5, X6. cbn. by rewrite X3, X4, X1, X2.
    - match goal with |- context [flash_area_close ?a ?x] => pose proof (keeping_close same a x) as [X5 X6] end. rewrite X5, X6. by rewrite X3, X4, X1, X2.
    - by rewrite X3, X4, X1, X2. }
  exists bs. rewrite E2. split; [|done]. rewrite <- H1. unfold flash_area_read. rewrite E1. by destruct (ReadData _ _ (bt_dev s)).
Qed.

Lemma headers_current s : yields boot_read_image_headers s (fun _ s' => current s').
Proof using Type.
  unfold boot_read_image_headers. apply yields_bind. eapply yields_mono; [apply header0_current|]. intros [] s' Hc.
  unfold ignore. apply yields_bind. unfold yields, try. pose proof (header1_keeps s' Hc) as H.
  by destruct (boot_read_image_header 1 s') as [[]].
Qed.

(** A boot that does not swap leaves the flash and the headers. *)
Lemma prepare_none s : yields boot_prepare_slot0 s (fun t s' => t = BOOT_SWAP_TYPE_NONE -> same s s').
Proof using Type.
  unfold boot_prepare_slot0. apply yields_bind, yields_reading; [keeping|]. intros b s1 _ Hs1.
  destruct b; [|by apply yields_ret]. apply yields_bind, yields_asserted.
  assert (yields boot_swap_if_needed s1 (fun t s' => t = BOOT_SWAP_TYPE_NONE -> same s s')) as H.
  { unfold boot_swap_if_needed. apply yields_bind, yields_asserted, yields_reading; [keeping|]. intros bs s2 _ Hs2. destruct (_ || _).
    - apply yields_bind, yields_any. intros _ s3. unfold boot_previous_swap_type. apply yields_bind, yields_any. intros t s4.
      apply yields_ret. by destruct t.
    - unfold boot_validated_swap_type. apply yields_bind, yields_bind, yields_reading; [keeping|]. intros t s3 _ Hs3.
      assert (same s s3) as H3 by (eapply same_trans; [|done]; by eapply same_trans).
      destruct t; try (apply yields_ret; by apply yields_ret);
        (apply yields_bind, yields_any; intros [] s4; apply yields_ret, yields_bind, yields_any; intros _ s5; by apply yields_ret). }
  eapply yields_mono; [exact H|]. intros t s2 H2. destruct t; try (by apply yields_ret);
    (apply yields_bind, yields_any; intros [] s3; by apply yields_ret).
Qed.

Lemma validate_slot0 s : yields (boot_validate_slot 0) s (fun _ s' => same s s' /\ authentic s slot0 (header0 s) /\
  ih_magic (header0 s) = IMAGE_MAGIC /\ Z.land (ih_flags (header0 s)) IMAGE_F_NON_BOOTABLE = 0).
Proof using Type.
  unfold boot_validate_slot. apply yields_bind. unfold boot_img_hdr, gets, yields at 1. change (hdr (img 0 (boot_data s))) with (header0 s).
  destruct ((_ =? _) || negb (_ =? 0)) eqn:Ef; [apply yields_fail|]. apply orb_false_iff in Ef as [_ Ef].
  apply negb_false_iff, Z.eqb_eq in Ef. apply yields_bind, yields_or_return, yields_reading; [keeping|]. intros fap s1 Eo Hs1.
  assert (fap = slot0) as -> by by injection Eo. apply yields_bind. destruct (Z.eqb_spec (ih_magic (header0 s)) IMAGE_MAGIC) as [Em|]; cbn [negb].
  - apply yields_try; [intros s'; apply yields_bind, yields_ret, yields_fail|]. apply yields_or_return.
    eapply yields_mono; [apply validate_authentic|]. intros _ s2 [Hs2 (hash & off & A1 & A2 & key & off' & sig & K1 & K2 & K3)].
    apply yields_reading; [keeping|]. intros _ s3 _ Hs3. split; [eapply same_trans; [done|]; by eapply same_trans|]. split; [|done].
    exists hash, off. rewrite <- (img_hash_same _ _ _ s s1 Hs1), <- (read_same _ _ _ s s1 Hs1). split_and!; [done..|].
    exists key, off', sig. rewrite <- (read_same _ _ _ s s1 Hs1). done.
  - apply yields_ret, yields_bind, yields_ret, yields_fail.
Qed.

(** What a boot that starts an image has found in slot 0. *)
Definition checked s (entry : Z) : Prop := exists bs,
  let h := decode_image_header bs in
  (flash_area_read slot0 0 IMAGE_HEADER_SIZE s).1 = Ok bs /\
  ih_magic h = IMAGE_MAGIC /\ Z.land (ih_flags h) IMAGE_F_NON_BOOTABLE = 0 /\ authentic s slot0 h /\
  entry = u32 (FLASH_BASE_ADDRESS + FLASH_AREA_IMAGE_0_OFFSET + ih_hdr_size h).

Lemma checked_same s s' entry : same s s' -> checked s entry -> checked s' entry.
Proof using Type.
  intros Hs (bs & H1 & H2 & H3 & (hash & off & A1 & A2 & key & off' & sig & K1 & K2 & K3) & H5). exists bs. cbv zeta.
  rewrite (read_same _ _ _ s s' Hs). split_and!; try done. exists hash, off.
  rewrite (img_hash_same _ _ _ s s' Hs), (read_same _ _ _ s s' Hs). split_and!; try done. exists key, off', sig.
  by rewrite (read_same _ _ _ s s' Hs).
Qed.

Definition start_of (rsp : boot_rsp) : Z := u32 (FLASH_BASE_ADDRESS + br_image_off rsp + ih_hdr_size (br_hdr rsp)).

(** [boot_go] has recorded the areas. *)
Definition areas_set s : Prop := img_area (img0 (boot_data s)) = Some slot0.

(** The response is for slot 0, as validated. *)
Lemma respond_checked s : current s ->
  yields (asserted (boot_validate_slot 0) ;; dev_id <- boot_img_fa_device_id 0 ;; off <- boot_img_slot_off 0 ;; h <- boot_img_hdr 0 ;;
    ret (BootRsp h dev_id off)) s
    (fun rsp s' => same s s' /\ (img_area (img0 (boot_data s)) = Some slot0 -> checked s (start_of rsp) /\ br_flash_dev_id rsp = FLASH_DEVICE_ID)).
Proof using Type.
  intros (bs & C1 & C2). apply yields_bind, yields_asserted. eapply yields_mono; [apply validate_slot0|]. intros [] s1 (Hs1 & Ha & Hm & Hf).
  assert (forall {A} (f : flash_area -> A) Q, (forall a, img_area (img0 (boot_data s1)) = Some a -> Q (f a) s1) ->
    yields (p <- gets (fun s => img_area (img 0 (boot_data s))) ;; a <- deref p ;; ret (f a)) s1 Q) as Hget.
  { intros A f Q HQ. unfold yields, bind, gets. change (img 0 (boot_data s1)) with (img0 (boot_data s1)).
    destruct (img_area (img0 (boot_data s1))) as [a|]; [|done]. by apply HQ. }
  apply yields_bind, Hget. intros a Ea. apply yields_bind, Hget. intros a' Ea'. rewrite Ea in Ea'. injection Ea' as <-.
  apply yields_bind. unfold boot_img_hdr, gets, yields at 1. apply yields_ret. change (img 0 (boot_data s1)) with (img0 (boot_data s1)).
  split; [done|]. intros Es. rewrite <- (proj2 Hs1), Ea in Es. injection Es as ->. split; [|done]. exists bs. cbv zeta. rewrite <- C2.
  split_and!; try done. unfold start_of. cbn [br_hdr br_image_off]. by rewrite (proj2 Hs1).
Qed.

(** ** The area of slot 0 stays recorded *)

Local Abbreviation ka m := (keeping (D := D) same_area m).

Lemma area_write fap off bs : ka (flash_area_write fap off bs).
Proof using Type. intros s. unfold flash_area_write. by destruct (ProgramData _ bs (bt_dev s)). Qed.
Lemma area_erase fap off n : ka (flash_area_erase fap off n).
Proof using Type.
  unfold flash_area_erase. generalize 0. generalize off. induction (Z.to_nat _) as [|fuel IH]; intros o len s; cbn [erase_sectors_loop];
    destruct (_ <? _); try done. destruct (EraseSector _ (bt_dev s)) as [rc d]. destruct (negb _); [done|].
  eapply sr_trans; [|apply IH]. done.
Qed.
#[local] Hint Resolve area_write area_erase : keeping.
Lemma area_erase_sector id off n : ka (boot_erase_sector id off n).
Proof using Type. unfold boot_erase_sector. keeping. Qed.
Lemma area_copy_loop fuel src dst o o' n k : ka (copy_loop fuel src dst o o' n k).
Proof using Type. revert k. induction fuel; intros; cbn [copy_loop]; keeping. Qed.
#[local] Hint Resolve area_erase_sector area_copy_loop : keeping.
Lemma area_copy_sector src dst o o' n : ka (boot_copy_sector src dst o o' n).
Proof using Type. unfold boot_copy_sector. keeping. Qed.
Lemma area_write_flag f fap : ka (boot_write_flag f fap).
Proof using Type. unfold boot_write_flag, boot_copy_done_off. keeping. Qed.
Lemma area_write_magic fap : ka (boot_write_magic fap).
Proof using Type. unfold boot_write_magic. keeping. Qed.
Lemma area_write_size fap n : ka (boot_write_swap_size fap n).
Proof using Type. unfold boot_write_swap_size. keeping. Qed.
Lemma area_reads {A} (m : BM A) : reading m -> ka m.
Proof using Type. apply keeping_reading. exact _. Qed.
#[local] Hint Resolve area_copy_sector area_write_flag area_write_magic area_write_size : keeping.
#[local] Hint Extern 3 (keeping same_area _) => solve [apply area_reads; eauto with keeping] : keeping.
Lemma area_write_status bs : ka (boot_write_status bs).
Proof using Type. unfold boot_write_status, BOOT_WRITE_SZ. keeping. Qed.
Lemma area_status_init id bs : ka (boot_status_init_by_id id bs).
Proof using Type. unfold boot_status_init_by_id, boot_write_image_ok. keeping. Qed.
Lemma area_erase_last id : ka (boot_erase_last_sector_by_id id).
Proof using Type. unfold boot_erase_last_sector_by_id, boot_img_num_sectors, boot_img_sector_off, boot_img_sector_size. keeping. Qed.
#[local] Hint Resolve area_write_status area_status_init area_erase_last : keeping.
Lemma area_restore o n bs : ka (restore_trailer o n bs).
Proof using Type. unfold restore_trailer, boot_write_image_ok, BOOT_WRITE_SZ. keeping. Qed.
#[local] Hint Resolve area_restore : keeping.
Lemma area_swap_sectors i n bs : ka (boot_swap_sectors i n bs).
Proof using Type.
  unfold boot_swap_sectors, swap_step0, swap_step1, swap_step2, boot_img_num_sectors, boot_img_sector_off, BOOT_WRITE_SZ. keeping.
Qed.
#[local] Hint Resolve area_swap_sectors : keeping.
Lemma area_copy_sz_loop n a b : ka (copy_sz_loop n a b).
Proof using Type. revert b. induction n; intros; cbn [copy_sz_loop]; unfold boot_img_sector_size; keeping. Qed.
#[local] Hint Resolve area_copy_sz_loop : keeping.
Lemma area_swap_loop fuel last i bs : ka (swap_loop fuel last i bs).
Proof using Type.
  revert last i bs. induction fuel; intros; cbn [swap_loop]; unfold boot_copy_sz, boot_scratch_area_size, deref; keeping.
Qed.
Lemma area_last_loop fuel a b c : ka (last_sector_loop fuel a b c).
Proof using Type. revert b c. induction fuel; intros; cbn [last_sector_loop]; unfold boot_img_sector_size; keeping. Qed.
#[local] Hint Resolve area_swap_loop area_last_loop : keeping.
Lemma area_copy_image bs : ka (boot_copy_image bs).
Proof using Type.
  unfold boot_copy_image, image_size_if_any, boot_img_hdr, boot_read_image_size, boot_read_swap_size, swap_size_at. keeping.
Qed.
#[local] Hint Resolve area_copy_image : keeping.

Lemma reading_validate h fap n : rd (bootutil_img_validate h fap n).
Proof using Type.
  assert (forall p (body : validate_state -> BM (validate_state + validate_state)) st, (forall v, rd (body v)) -> rd (pow_loop p body st)) as Hpow.
  { induction p as [|p IH]; intros body st Hb; cbn [pow_loop]; [done|]. apply keeping_bind; [exact _|by apply IH|].
    intros [st'|r]; [by apply IH|]. keeping. }
  unfold bootutil_img_validate. apply keeping_bind; [exact _|apply reading_img_hash|]. intros hash.
  apply keeping_bind; [exact _|keeping|]. intros bs. destruct (negb _); [keeping|].
  apply keeping_bind; [exact _|apply Hpow|keeping]. intros v. unfold validate_tlv. pose proof reading_find_key. keeping.
Qed.
#[local] Hint Resolve reading_validate : keeping.
Lemma area_validate_slot slot : ka (boot_validate_slot slot).
Proof using Type. unfold boot_validate_slot, boot_img_hdr, boot_image_check. keeping. Qed.
#[local] Hint Resolve area_validate_slot : keeping.
Lemma area_prepare : ka boot_prepare_slot0.
Proof using Type.
  unfold boot_prepare_slot0, boot_swap_if_needed, boot_previous_swap_type, boot_validated_swap_type, boot_set_image_ok, boot_write_image_ok.
  keeping.
Qed.

(** Updates of the record of a slot that leave its area. *)
Lemma area_set_img slot (f : boot_img -> boot_img) : (forall i, img_area (f i) = img_area i) -> ka (set_img slot f).
Proof using Type. intros Hf s. unfold set_img, modify, same_area. cbn. by destruct (slot =? 0); cbn; rewrite ?Hf. Qed.

Lemma area_read_header slot : ka (boot_read_image_header slot).
Proof using Type. unfold boot_read_image_header. pose proof area_set_img. keeping. Qed.
#[local] Hint Resolve area_read_header : keeping.
Lemma area_read_headers : ka boot_read_image_headers.
Proof using Type. unfold boot_read_image_headers. keeping. Qed.
Lemma area_read_sectors : ka boot_read_sectors.
Proof using Type.
  unfold boot_read_sectors, boot_initialize_area, flash_area_get_sectors, validate_idx, boot_write_sz.
  pose proof area_set_img. keeping. by intros s.
Qed.

(** ** The whole boot *)

Lemma body_checked s : img_area (img0 (boot_data s)) = Some slot0 ->
  yields boot_body s (fun rsp s' => checked s' (start_of rsp) /\ br_flash_dev_id rsp = FLASH_DEVICE_ID).
Proof using Type.
  intros Ha. unfold boot_body.
  assert (forall {A} (m : BM A) s0 Q, ka m -> img_area (img0 (boot_data s0)) = Some slot0 ->
    yields m s0 (fun a s' => img_area (img0 (boot_data s')) = Some slot0 -> Q a s') -> yields m s0 Q) as Hkeep.
  { intros A m s0 Q Hm H0 HQ. specialize (Hm s0). unfold yields in *. destruct (m s0) as [[a|e|] s1]; [|done..].
    apply HQ. by rewrite <- H0. }
  apply yields_bind, Hkeep, yields_any; [apply area_read_sectors|done|]. intros [] s1 H1.
  apply yields_bind, Hkeep; [apply area_read_headers|done|]. eapply yields_mono; [apply headers_current|]. intros [] s2 C2 H2.
  apply yields_bind, Hkeep; [apply area_prepare|done|]. eapply yields_mono; [apply prepare_none|]. intros t s3 C3 H3.
  assert (forall s4, current s4 -> img_area (img0 (boot_data s4)) = Some slot0 ->
    yields (asserted (boot_validate_slot 0) ;; dev_id <- boot_img_fa_device_id 0 ;; off <- boot_img_slot_off 0 ;; h <- boot_img_hdr 0 ;;
      ret (BootRsp h dev_id off)) s4 (fun rsp s' => checked s' (start_of rsp) /\ br_flash_dev_id rsp = FLASH_DEVICE_ID)) as Hend.
  { intros s4 C4 H4. eapply yields_mono; [by apply respond_checked|]. intros rsp s5 [Hs Hc]. destruct (Hc H4) as [Hc1 Hc2].
    split; [by eapply checked_same|done]. }
  assert (forall s4, img_area (img0 (boot_data s4)) = Some slot0 -> yields (boot_read_image_headers ;;
      asserted (boot_validate_slot 0) ;; dev_id <- boot_img_fa_device_id 0 ;; off <- boot_img_slot_off 0 ;; h <- boot_img_hdr 0 ;;
      ret (BootRsp h dev_id off)) s4 (fun rsp s' => checked s' (start_of rsp) /\ br_flash_dev_id rsp = FLASH_DEVICE_ID)) as Hreload.
  { intros s4 H4. apply yields_bind, Hkeep; [apply area_read_headers|done|]. eapply yields_mono; [apply headers_current|].
    intros [] s5 C5 H5. by apply Hend. }
  assert (ka (try boot_set_copy_done)) as Hcd by (unfold boot_set_copy_done, boot_write_copy_done; keeping).
  destruct t; apply yields_bind; try (apply yields_ret; by apply Hreload); try done.
  - apply yields_ret, yields_bind, yields_ret. apply Hend; [|done]. eapply current_same; [by apply C3|done].
  - apply yields_bind, Hkeep, yields_any; [done..|]. intros [] s4 H4; [|done]. apply yields_ret. by apply Hreload.
  - apply yields_bind, Hkeep, yields_any; [done..|]. intros [] s4 H4; [|done]. apply yields_ret. by apply Hreload.
  - apply yields_bind, Hkeep, yields_any; [done..|]. intros [] s4 H4; [|done]. apply yields_ret. by apply Hreload.
Qed.

Lemma main_checked s : yields bl2_main s (fun entry s' => checked s' entry).
Proof using Type.
  unfold bl2_main. apply yields_bind.
  assert (yields boot_go s (fun rsp s' => checked s' (start_of rsp) /\ br_flash_dev_id rsp = FLASH_DEVICE_ID)) as Hgo.
  { unfold boot_go. apply yields_bind, yields_asserted, yields_reading; [keeping|]. intros a0 s1 E0 _.
    assert (a0 = slot0) as -> by by injection E0. apply yields_bind. unfold set_img at 1, modify at 1, yields at 1.
    apply yields_bind, yields_asserted, yields_reading; [keeping|]. intros a1 s2 _ [_ D2].
    apply yields_bind. unfold set_img at 1, modify at 1, yields at 1.
    apply yields_bind, yields_asserted, yields_reading; [keeping|]. intros sc s3 _ [_ D3].
    apply yields_bind. unfold modify at 1, yields at 1.
    assert (forall rsp s' s'', same s' s'' -> checked s' (start_of rsp) /\ br_flash_dev_id rsp = FLASH_DEVICE_ID ->
      checked s'' (start_of rsp) /\ br_flash_dev_id rsp = FLASH_DEVICE_ID) as Hc.
    { intros rsp s' s'' Hs [H1 H2]. split; [by eapply checked_same|done]. }
    apply yields_closing, yields_closing, yields_closing, body_checked; [done..|]. cbn. rewrite D3. cbn. rewrite D2. done. }
  eapply yields_mono; [exact Hgo|]. intros rsp s1 [Hc Hd]. apply yields_bind, yields_reading; [unfold flash_area_warn_on_open; keeping|].
  intros n s2 _ Hs2. unfold do_boot, flash_device_base. rewrite Hd, Z.eqb_refl. cbn [negb]. apply yields_bind, yields_asserted, yields_ret, yields_ret.
  by eapply checked_same.
Qed.
End readers.

(** ** What is signed *)

(** The keys of the table are RSA keys of 2048 bits. *)
Class keys_2048 `{!mbedtls, !bootutil_key_list} : Prop :=
  key_len key n e len : key ∈ bootutil_keys -> bootutil_parse_rsakey key = inl (n, e, len) -> len = 256.

Lemma parse_error `{!mbedtls} key rc : bootutil_parse_rsakey key = inr rc -> rc <> 0.
Proof. unfold bootutil_parse_rsakey. repeat case_match; by intros [= <-]. Qed.

Section secure.
  Context {D : Type} `{!ARM_DRIVER_FLASH D, !FlashDevice D, !flash_reads D} {Layout : boot_layout} `{!boot_layout_ok D}.
  Context {Mbed : mbedtls} {Keys : bootutil_key_list} {Hstr : sha256_streams} {H2048 : keys_2048}.
  Implicit Types (s : boot_state D).

Lemma view_rep s : BRep False (bt_dev s) (area_view (bt_dev s)).
Proof using Type. by split. Qed.

(** The hash of an image inside the slot. *)
Lemma hash_value s hash c :
  c = area_view (bt_dev s) FLASH_AREA_IMAGE_0 -> 0 < image_end c <= FLASH_AREA_IMAGE_0_SIZE ->
  (bootutil_img_hash (header_of c) slot0 256 s).1 = Ok hash -> hash = image_digest c.
Proof using Type*.
  intros -> He Hh. unfold image_end in He. rewrite Z.add_comm in He.
  pose proof (safely_img_hash False FLASH_AREA_IMAGE_0 (header_of (area_view (bt_dev s) FLASH_AREA_IMAGE_0)) (area_view (bt_dev s)) (boot_data s)
    (fun a _ _ => a = sha256 [vread (area_view (bt_dev s)) FLASH_AREA_IMAGE_0 0 (ih_img_size (header_of (area_view (bt_dev s) FLASH_AREA_IMAGE_0)) +
      ih_hdr_size (header_of (area_view (bt_dev s) FLASH_AREA_IMAGE_0)))]) (fun _ => True) (or_introl eq_refl) He eq_refl s (view_rep s) eq_refl) as H.
  change (area_of FLASH_AREA_IMAGE_0) with slot0 in H. destruct (bootutil_img_hash _ slot0 256 s) as [[a|e|] s']; [|done..].
  destruct H as (_ & _ & ->). injection Hh as <-. unfold image_digest, image_end. by rewrite Z.add_comm.
Qed.

Lemma header_value s bs : (flash_area_read slot0 0 IMAGE_HEADER_SIZE s).1 = Ok bs ->
  decode_image_header bs = header_of (area_view (bt_dev s) FLASH_AREA_IMAGE_0).
Proof using Type*.
  intros Hr. pose proof (size_bounds FLASH_AREA_IMAGE_0 (or_introl eq_refl)) as [Hz Hu].
  assert (0 + IMAGE_HEADER_SIZE <= fa_size (area_of FLASH_AREA_IMAGE_0)) as Hle by (unfold IMAGE_HEADER_SIZE, asize in *; lia).
  pose proof (safely_read False FLASH_AREA_IMAGE_0 0 IMAGE_HEADER_SIZE (area_view (bt_dev s)) (boot_data s)
    (fun a _ _ => a = vread (area_view (bt_dev s)) FLASH_AREA_IMAGE_0 0 IMAGE_HEADER_SIZE) (fun _ => True) (or_introl eq_refl) ltac:(lia)
    ltac:(unfold IMAGE_HEADER_SIZE; lia) Hle eq_refl s (view_rep s) eq_refl) as H.
  change (area_of FLASH_AREA_IMAGE_0) with slot0 in H. destruct (flash_area_read slot0 0 _ s) as [[a|e|] s']; [|done..].
  destruct H as (_ & _ & ->). injection Hr as <-. done.
Qed.

(** C4: only signed images start.  From any content of the flash and of the RAM,
    on a device that loses power at any time or not: if the bootloader starts
    anything, it starts the image that is then in slot 0, at its header size, that
    image has a good and bootable header, and a 2048-bit key of the table verifies
    an RSA-PSS signature for the hash the bootloader has computed; where the
    header keeps the image inside the slot, that is the SHA-256 of its header and
    its body. *)
Theorem only_signed_images_start s entry s' :
  bl2_main s = (Ok entry, s') ->
  let image := area_view (bt_dev s') FLASH_AREA_IMAGE_0 in
  entry = new_entry image /\
  ih_magic (header_of image) = IMAGE_MAGIC /\ Z.land (ih_flags (header_of image)) IMAGE_F_NON_BOOTABLE = 0 /\
  exists hash key n e sig,
    (bootutil_img_hash (header_of image) slot0 256 s').1 = Ok hash /\
    (0 < image_end image <= FLASH_AREA_IMAGE_0_SIZE -> hash = image_digest image) /\
    key ∈ bootutil_keys /\ bootutil_parse_rsakey key = inl (n, e, 256) /\ bootutil_cmp_rsasig n e 256 hash 32 sig = 0.
Proof using Type*.
  intros Hrun. pose proof (main_checked s) as H. unfold yields in H. rewrite Hrun in H. cbv zeta.
  destruct H as (bs & R1 & R2 & R3 & (hash & off & A1 & A2 & k & off' & sig & K1 & K2 & K3) & R5). rewrite (header_value s' bs R1) in *.
  split_and!; [done..|]. unfold bootutil_verify_sig in K3. destruct (bootutil_keys !! Z.to_nat k) as [key|] eqn:Ek; [|done]. cbn in K3.
  assert (key ∈ bootutil_keys) as Hin by by eapply list_elem_of_lookup_2.
  destruct (bootutil_parse_rsakey key) as [[[n e] len]|rc] eqn:Ep.
  - pose proof (key_len key n e len Hin Ep) as ->. cbn in K3. injection K3 as K3.
    exists hash, key, n, e, sig. split_and!; try done. intros He. by apply (hash_value s').
  - injection K3 as ->. exfalso. by apply parse_error in Ep.
Qed.
End secure.
