(* ===== verification/BootPss.v ===== *)
(** * Bootloader: the signature check against the standard

    EMSA-PSS and the mask generation function MGF1, written from PKCS #1 v2.2 (9.1.1
    and B.2.1) for any hash function, and the proof that [bootutil_cmp_rsasig]
    accepts exactly the encodings of this standard with SHA-256 and a salt of 32
    bytes. *)

From S2P Require Import Prelude TcWords BootUtil BootImage BootValidate.

(** ** The standard *)

Module PKCS1.
Section pss.
  Context (Hash : list byte -> list byte) (hLen : Z).

Definition I2OSP (x : Z) (xLen : nat) : list byte := be_bytes xLen x.

(** The hashes of the seed with the counters from 0, cut to the length. *)
Definition MGF1 (mgfSeed : list byte) (maskLen : Z) : list byte :=
  ztake maskLen (List.concat
    ((fun counter => Hash (mgfSeed ++ I2OSP (Z.of_nat counter) 4)) <$> seq 0 (Z.to_nat ((maskLen + hLen - 1) / hLen)))).

(** The leftmost [n] bits of the leftmost octet are set to zero. *)
Definition clear_left (n : Z) (bs : list byte) : list byte :=
  match bs with [] => [] | b :: bs => z2b (b2z b mod 2 ^ (8 - n)) :: bs end.

(** [DB]: the padding, a one and the salt. *)
Definition data_block (emLen : Z) (salt : list byte) : list byte :=
  replicate (Z.to_nat (emLen - zlen salt - hLen - 2)) Byte.x00 ++ Byte.x01 :: salt.

Definition EMSA_PSS_ENCODE (mHash salt : list byte) (emBits : Z) : list byte :=
  let emLen := (emBits + 7) / 8 in
  let H := Hash (replicate 8 Byte.x00 ++ mHash ++ salt) in
  let maskedDB := zip_with bxor (data_block emLen salt) (MGF1 H (emLen - hLen - 1)) in
  clear_left (8 * emLen - emBits) maskedDB ++ H ++ [Byte.xbc].
End pss.
End PKCS1.
Import PKCS1.

(** What the functions of mbedtls promise: a SHA-256 hash has 32 bytes, and the
    public operation of a 2048-bit key gives 256. *)
Class mbedtls_sizes `{!mbedtls} : Prop := {
  finish_len c : zlen (bootutil_sha256_finish c) = 32;
  public_len n e sig em : mbedtls_rsa_public n e sig = Some em -> zlen em = 256;
}.

(** ** Bytes *)

Definition low7 (x : byte) : byte := z2b (Z.land (b2z x) 0x7F).

Lemma low7_val x : b2z (low7 x) = Z.land (b2z x) 0x7F.
Proof. destruct x; reflexivity. Qed.

Lemma low7_bxor x y : low7 (bxor x y) = bxor (low7 x) (low7 y).
Proof.
  apply b2z_inj. rewrite low7_val, !bxor_val, !low7_val. apply Z.bits_inj'. intros i Hi.
  rewrite Z.land_spec, !Z.lxor_spec, !Z.land_spec. by destruct (Z.testbit 0x7F i), (Z.testbit (b2z x) i), (Z.testbit (b2z y) i).
Qed.

(** ** Lists of bytes *)

Lemma xor_bytes_cons x xs y ys : xor_bytes (x :: xs) (y :: ys) = bxor x y :: xor_bytes xs ys.
Proof. done. Qed.

Lemma zlen_xor xs ys : zlen xs = zlen ys -> zlen (xor_bytes xs ys) = zlen xs.
Proof. intros H. unfold xor_bytes. rewrite length_zip_with. lia. Qed.

Lemma xor_inv xs ys : zlen xs = zlen ys -> xor_bytes (xor_bytes xs ys) ys = xs.
Proof.
  revert ys. induction xs as [|x xs IH]; intros [|y ys] H; try done. rewrite !xor_bytes_cons, bxor_inv, IH; [done|]. cbn [length] in H. lia.
Qed.

Lemma xor_comm xs ys : xor_bytes xs ys = xor_bytes ys xs.
Proof.
  revert ys. induction xs as [|x xs IH]; intros [|y ys]; try done. by rewrite !xor_bytes_cons, bxor_comm, IH.
Qed.

Lemma clear_top_xor xs ys : clear_top (xor_bytes xs ys) = xor_bytes (clear_top xs) (clear_top ys).
Proof.
  destruct xs as [|x xs], ys as [|y ys]; try done. cbn [clear_top]. rewrite !xor_bytes_cons. cbn [clear_top]. f_equal. apply low7_bxor.
Qed.

Lemma zlen_clear_top xs : zlen (clear_top xs) = zlen xs.
Proof. by destruct xs. Qed.

Lemma clear_top_app xs ys : 0 < zlen xs -> clear_top (xs ++ ys) = clear_top xs ++ ys.
Proof. by destruct xs. Qed.

(** The code clears the highest bit of the first byte. *)
Lemma clear_top_left bs : clear_top bs = clear_left 1 bs.
Proof.
  destruct bs as [|b bs]; [done|]. cbn [clear_top clear_left]. do 2 f_equal. change 0x7F with (Z.ones 7).
  by rewrite Z.land_ones by lia.
Qed.

Section pss.
  Context {Mbed : mbedtls} {Hsizes : mbedtls_sizes} {Hstr : sha256_streams}.

(** SHA-256 of one message. *)
Definition hash_of (m : list byte) : list byte := sha256 [m].

Lemma sha256_parts a b : sha256 [a; b] = hash_of (a ++ b).
Proof using Hstr. unfold hash_of, sha256. cbn [foldl]. by rewrite update_app. Qed.

Lemma sha256_three a b c : sha256 [a; b; c] = hash_of (a ++ b ++ c).
Proof using Hstr. unfold hash_of, sha256. cbn [foldl]. by rewrite !update_app. Qed.

Lemma zlen_sha256 parts : zlen (sha256 parts) = 32.
Proof using Type*. apply finish_len. Qed.

Lemma zlen_mgf1_loop steps : forall hash counter count, 0 <= count <= Z.of_nat steps * 32 -> zlen (mgf1_loop steps hash counter count) = count.
Proof using Type*.
  induction steps as [|steps IH]; intros hash counter count Hc; cbn [mgf1_loop]; [cbn; lia|].
  destruct (Z.ltb_spec 0 count); [|cbn; lia]. unfold PSS_HLEN. rewrite zlen_app.
  set (n := if count <? 32 then count else 32). assert (0 <= n <= 32 /\ n <= count /\ (n = count \/ n = 32)) as Hn
    by (subst n; destruct (Z.ltb_spec count 32); lia).
  rewrite zlen_ztake, IH, zlen_sha256 by lia. lia.
Qed.

Lemma zlen_mgf1 hash : zlen (pss_mgf1 hash) = 223.
Proof using Type*. apply zlen_mgf1_loop. unfold PSS_MASK_LEN, PSS_HLEN. lia. Qed.

(** One round of the loop for each counter of the standard. *)
Lemma mgf1_loop_blocks steps : forall hash counter count,
  (counter + steps <= 256)%nat -> (Z.of_nat steps - 1) * 32 < count <= Z.of_nat steps * 32 ->
  mgf1_loop steps hash (Z.of_nat counter) count =
    ztake count (List.concat ((fun i => hash_of (hash ++ I2OSP (Z.of_nat i) 4)) <$> seq counter steps)).
Proof using Type*.
  induction steps as [|steps IH]; intros hash counter count Hc Hn; cbn [mgf1_loop seq fmap list_fmap List.concat].
  - unfold ztake. by rewrite take_nil.
  - rewrite (proj2 (Z.ltb_lt 0 count)) by lia. rewrite sha256_parts.
    assert ([Byte.x00; Byte.x00; Byte.x00; z2b (Z.of_nat counter)] = I2OSP (Z.of_nat counter) 4) as ->.
    { unfold I2OSP. cbn [be_bytes]. by rewrite (Z.div_small (Z.of_nat counter)) by lia. }
    set (h := hash_of (hash ++ I2OSP (Z.of_nat counter) 4)). assert (zlen h = 32) as Hh by apply zlen_sha256. unfold PSS_HLEN.
    destruct (Z.ltb_spec count 32) as [Hlt|Hge].
    + assert (steps = 0%nat) as -> by lia. cbn [mgf1_loop seq fmap list_fmap List.concat]. by rewrite !app_nil_r.
    + assert (u8 (Z.of_nat counter + 1) = Z.of_nat (S counter) \/ steps = 0%nat) as [E| ->].
      * destruct steps; [by right|left]. unfold u8. rewrite Z.mod_small; lia.
      * rewrite E, IH by lia. unfold ztake. rewrite take_app, (take_ge h) by lia. f_equal; [by rewrite take_ge by lia|]. f_equal. lia.
      * cbn [mgf1_loop seq fmap list_fmap List.concat]. rewrite !app_nil_r. unfold ztake. by rewrite !take_ge by lia.
Qed.

(** The mask of the code is that of the standard. *)
Lemma mgf1_standard hash : pss_mgf1 hash = MGF1 hash_of 32 hash 223.
Proof using Type*. apply (mgf1_loop_blocks 7 hash 0 223); lia. Qed.

(** The data block of the standard for 2047 bits. *)
Definition pss_db (salt : list byte) : list byte := replicate 190 Byte.x00 ++ Byte.x01 :: salt.

Lemma db_standard salt : zlen salt = 32 -> data_block 32 256 salt = pss_db salt.
Proof using Type. intros H. unfold data_block. by rewrite H. Qed.

(** The encoding in the terms of the code. *)
Definition pss_encode (hash salt : list byte) : list byte :=
  let h := sha256 [replicate 8 Byte.x00; hash; salt] in
  clear_top (xor_bytes (pss_db salt) (pss_mgf1 h)) ++ h ++ [Byte.xbc].

Lemma encode_standard hash salt : zlen salt = 32 -> EMSA_PSS_ENCODE hash_of 32 hash salt 2047 = pss_encode hash salt.
Proof using Type*.
  intros H. unfold EMSA_PSS_ENCODE, pss_encode. change ((2047 + 7) / 8) with 256. cbv zeta.
  by rewrite db_standard, sha256_three, mgf1_standard, clear_top_left.
Qed.

Lemma zlen_db salt : zlen salt = 32 -> zlen (pss_db salt) = 223.
Proof using Type. intros H. unfold pss_db. rewrite zlen_app. cbn [length]. rewrite length_replicate. lia. Qed.

Lemma clear_db salt : clear_top (pss_db salt) = pss_db salt.
Proof using Type. reflexivity. Qed.

(** A data block is one that the checks of steps 10 and 11 accept. *)
Lemma db_checks db : zlen db = 223 ->
  forallb (fun b => b2z b =? 0) (ztake 190 db) = true -> b2z (znth db 190) = 1 -> db = pss_db (slice 191 32 db).
Proof using Type.
  intros Hl H0 H1. apply zlist_ext; [rewrite zlen_db; [done|rewrite zlen_slice; lia]|]. intros i Hi.
  unfold pss_db. destruct (Z.lt_ge_cases i 190) as [Hlt|Hge].
  - rewrite znth_app_l by (rewrite length_replicate; lia).
    assert (znth db i = Byte.x00) as ->.
    { rewrite forallb_forall in H0. specialize (H0 (znth db i)). apply b2z_inj, Z.eqb_eq, H0.
      rewrite <- (znth_ztake 190 db i) by lia. unfold znth. apply nth_In. unfold ztake. rewrite length_take. lia. }
    unfold znth. rewrite nth_lookup, lookup_replicate_2 by lia. done.
  - rewrite znth_app_r by (rewrite length_replicate; lia). rewrite length_replicate. change (Z.of_nat 190) with 190.
    destruct (Z.eq_dec i 190) as [->|Hne]; [apply b2z_inj; rewrite H1; done|].
    unfold znth, slice, ztake, zdrop. replace (Z.to_nat (i - 190)) with (S (Z.to_nat (i - 191))) by lia. cbn [nth].
    rewrite !nth_lookup, lookup_take_lt, lookup_drop by lia. do 2 f_equal. lia.
Qed.

Lemma db_parts salt : zlen salt = 32 ->
  forallb (fun b => b2z b =? 0) (ztake 190 (pss_db salt)) = true /\ b2z (znth (pss_db salt) 190) = 1 /\ slice 191 32 (pss_db salt) = salt.
Proof using Type.
  intros Hl. split_and!; [reflexivity..|]. change (slice 191 32 (pss_db salt)) with (take 32 salt). apply take_ge. lia.
Qed.

(** The parts of an encoded message. *)
Lemma em_parts (em : list byte) : zlen em = 256 -> em = ztake 223 em ++ slice 223 32 em ++ [znth em 255].
Proof using Type.
  intros Hl. rewrite <- (take_drop 223 em) at 1. change (ztake 223 em) with (take 223 em). f_equal.
  rewrite <- (take_drop 32 (drop 223 em)) at 1. change (slice 223 32 em) with (take 32 (drop 223 em)). f_equal.
  rewrite drop_drop. change (223 + 32)%nat with 255%nat. destruct (drop 255 em) as [|b l] eqn:E.
  - apply (f_equal length) in E. rewrite length_drop in E. cbn in E. lia.
  - assert (l = []) as -> by (apply (f_equal length) in E; rewrite length_drop in E; cbn in E; destruct l; [done|cbn in E; lia]).
    f_equal. unfold znth. change (Z.to_nat 255) with 255%nat. apply (f_equal (fun l => l !! 0%nat)) in E. rewrite lookup_drop in E. cbn in E.
    rewrite nth_lookup. change (255 + 0)%nat with 255%nat in E. by rewrite E.
Qed.

(** The check in the terms of the code. *)
Lemma cmp_rsasig_encodes n e len hash sig :
  zlen hash = 32 ->
  (bootutil_cmp_rsasig n e len hash 32 sig = 0 <->
   len = 256 /\ exists em salt, mbedtls_rsa_public n e sig = Some em /\ zlen salt = 32 /\ clear_top em = pss_encode hash salt).
Proof using Type*.
  intros Hh. unfold bootutil_cmp_rsasig, PSS_EMLEN, PSS_HLEN, MBEDTLS_MPI_MAX_SIZE.
  destruct (Z.eqb_spec len 256) as [->|Hne]; cbn [negb orb]; [|split; [done|by intros [? _]]]. change (256 <? 256) with false.
  change (negb (32 =? 32)) with false. cbv iota. destruct (mbedtls_rsa_public n e sig) as [em|] eqn:Ep; [|split; [done|by intros (_ & ? & ? & ? & _)]].
  pose proof (public_len _ _ _ _ Ep) as Hl. change (256 - 1) with 255. unfold PSS_HASH_OFFSET, PSS_MASK_SALT_POS, PSS_MASK_ONE_POS, PSS_MASK_ZERO_COUNT,
    PSS_MASK_LEN, PSS_HLEN, PSS_SLEN. change (256 - 32 - 1) with 223. change (223 - 32 - 1) with 190. change (190 + 1) with 191. cbv zeta.
  set (h := slice 223 32 em). set (M := ztake 223 em). set (mask := pss_mgf1 h). set (db := clear_top (xor_bytes mask M)).
  assert (zlen M = 223) as HM by (subst M; rewrite zlen_ztake; lia). assert (zlen mask = 223) as Hmask by apply zlen_mgf1.
  assert (ztake 32 hash = hash) as -> by (unfold ztake; apply take_ge; lia).
  assert (zlen db = 223) as Hdb by (subst db; rewrite zlen_clear_top, zlen_xor; lia).
  assert (clear_top em = clear_top M ++ h ++ [znth em 255]) as Eem by (rewrite (em_parts em Hl) at 1; apply clear_top_app; fold M; lia).
  assert (clear_top M = xor_bytes db (clear_top mask)) as EM.
  { subst db. rewrite clear_top_xor, (xor_comm (clear_top mask)), xor_inv; [done|]. rewrite !zlen_clear_top. lia. }
  split.
  - intros Hc. destruct (Z.eqb_spec (b2z (znth em 255)) 0xbc) as [Ebc|]; [|done]. cbn [negb] in Hc.
    destruct (forallb _ _) eqn:E0; [|done]. cbn [negb] in Hc. destruct (Z.eqb_spec (b2z (znth db 190)) 1) as [E1|]; [|done]. cbn [negb] in Hc.
    unfold bytes_eqb in Hc. case_bool_decide as E2; [|done]. split; [done|].
    pose proof (db_checks db Hdb E0 E1) as Edb. set (salt := slice 191 32 db) in *.
    exists em, salt. split; [done|]. split; [subst salt; rewrite zlen_slice; lia|].
    rewrite Eem. unfold pss_encode. rewrite E2. fold mask. f_equal; [|f_equal; f_equal; by apply b2z_inj].
    rewrite clear_top_xor, clear_db, <- Edb. exact EM.
  - intros (_ & em' & salt & [= <-] & Hs & Henc). rewrite Eem in Henc. unfold pss_encode in Henc.
    set (H := sha256 [replicate 8 Byte.x00; hash; salt]) in *.
    apply app_inj_1 in Henc as [He1 He2]; [|apply Nat2Z.inj; rewrite !zlen_clear_top, zlen_xor, zlen_db; rewrite ?zlen_db, ?zlen_mgf1; lia].
    apply app_inj_1 in He2 as [He2 He3]; [|apply Nat2Z.inj; unfold H; rewrite zlen_sha256; unfold h; rewrite zlen_slice; lia].
    injection He3 as He3. rewrite He3. change (b2z Byte.xbc =? 0xbc) with true. cbn [negb].
    assert (db = pss_db salt) as Ed.
    { subst db. rewrite clear_top_xor, He1, clear_top_xor, clear_db. unfold mask. rewrite He2, xor_comm.
      apply xor_inv. rewrite zlen_clear_top, zlen_mgf1. by apply zlen_db. }
    rewrite Ed. destruct (db_parts salt Hs) as (D0 & D1 & D2). rewrite D0, D1, D2. cbn [negb Z.eqb Pos.eqb].
    unfold bytes_eqb. fold H. rewrite He2, bool_decide_eq_true_2 by done. done.
Qed.

(** C18: the signature check is EMSA-PSS.  [bootutil_cmp_rsasig] accepts a
    signature exactly when the public operation of a 2048-bit key opens it to an
    encoding of the hash, by EMSA-PSS of PKCS #1 with MGF1 and SHA-256, 2047 bits
    and some salt of 32 bytes, up to the highest bit, which the code does not look
    at. *)
Theorem rsasig_is_pss n e len hash sig :
  zlen hash = 32 ->
  (bootutil_cmp_rsasig n e len hash 32 sig = 0 <->
   len = 256 /\ exists em salt, mbedtls_rsa_public n e sig = Some em /\ zlen salt = 32 /\
     clear_left 1 em = EMSA_PSS_ENCODE hash_of 32 hash salt 2047).
Proof using Type*.
  intros Hh. rewrite (cmp_rsasig_encodes n e len hash sig Hh).
  split; intros (-> & em & salt & E & Hs & H); (split; [done|]); exists em, salt; (split; [done|]); (split; [done|]).
  - by rewrite <- clear_top_left, H, encode_standard.
  - by rewrite clear_top_left, H, encode_standard.
Qed.
End pss.
