(* ===== verification/BootBoard.v ===== *)
(** * Bootloader: boards and runs

    The layout of the an521 board, a layout with smaller slots on which boots are
    evaluated, and runs of the bootloader with an instance of the functions of
    mbedtls that is enough to sign an image; two runs on which an interruption
    has lasting effects. *)

From S2P Require Import Prelude FlashDriver SstFlash BootFlash BootUtil BootImage BootLoader BootView BootTrailer BootSwap BootSteps BootValidate BootCopy BootGo BootUpdate BootClaims BootSecure BootPss.

(** [flash_layout.h] of the an521 board. *)
Definition an521_boot_layout : boot_layout := {|
  FLASH_BASE_ADDRESS := 0x10000000;
  FLASH_AREA_IMAGE_SECTOR_SIZE := 0x1000;
  FLASH_AREA_IMAGE_0_OFFSET := 0x080000;
  FLASH_AREA_IMAGE_0_SIZE := 2 * 0x80000;
  FLASH_AREA_IMAGE_1_OFFSET := 0x180000;
  FLASH_AREA_IMAGE_1_SIZE := 2 * 0x80000;
  FLASH_AREA_IMAGE_SCRATCH_OFFSET := 0x280000;
  FLASH_AREA_IMAGE_SCRATCH_SIZE := 2 * 0x80000;
  GetInfo := data ARM_FLASH0_DEV_an521;
|}.

#[global] Instance an521_boot_layout_ok : @boot_layout_ok (emulated ARM_FLASH0_DEV_an521) _ _ an521_boot_layout.
Proof. split; vm_compute; repeat split; congruence. Qed.

(** Slots and scratch of two sectors of 1 kB. *)
Definition mini_dev : arm_flash_dev_t :=
  {| memory_base := 0x10000000;
     data := {| sector_count := 7; sector_size := 1024; program_unit := 1; erased_value := Byte.xff |} |}.

#[global] Instance mini_dev_ok : flash_dev_ok mini_dev.
Proof. split; vm_compute; congruence. Qed.

Definition mini_layout : boot_layout := {|
  FLASH_BASE_ADDRESS := 0x10000000;
  FLASH_AREA_IMAGE_SECTOR_SIZE := 1024;
  FLASH_AREA_IMAGE_0_OFFSET := 0;
  FLASH_AREA_IMAGE_0_SIZE := 2048;
  FLASH_AREA_IMAGE_1_OFFSET := 2048;
  FLASH_AREA_IMAGE_1_SIZE := 2048;
  FLASH_AREA_IMAGE_SCRATCH_OFFSET := 4096;
  FLASH_AREA_IMAGE_SCRATCH_SIZE := 2048;
  GetInfo := data mini_dev;
|}.

#[global] Instance mini_layout_ok : @boot_layout_ok (emulated mini_dev) _ _ mini_layout.
Proof. split; vm_compute; repeat split; congruence. Qed.

(** ** Signed images *)

(** A checksum for the hash, and the identity for the public operation. *)
Module Toy.
Definition digest (bs : list byte) : list byte := replicate 32 (z2b (foldr (fun b n => (b2z b + 3 * n) mod 256) 0 bs)).

Definition toy : mbedtls := {|
  sha256_context := list byte;
  bootutil_sha256_init := [];
  bootutil_sha256_update := app;
  bootutil_sha256_finish := digest;
  mbedtls_asn1_get_tag key _ _ := Some (0, zlen key);
  mbedtls_asn1_get_mpi key _ := (Some 1, zlen key);
  mbedtls_rsa_check_pubkey _ _ := 0;
  mbedtls_mpi_size _ := 256;
  mbedtls_rsa_public _ _ sig := Some (take 256 (sig ++ replicate 256 Byte.x00));
|}.
#[export] Existing Instance toy.

Definition toy_keys : bootutil_key_list := [[Byte.x11; Byte.x22]].
#[export] Existing Instance toy_keys.

#[export] Instance toy_streams : sha256_streams.
Proof. intros c xs ys. apply app_assoc. Qed.

#[export] Instance toy_2048 : keys_2048.
Proof.
  intros key n e len _ H. unfold bootutil_parse_rsakey in H. cbn [mbedtls_asn1_get_tag mbedtls_asn1_get_mpi toy] in H.
  rewrite Z.add_0_l, Z.eqb_refl in H. cbn [negb] in H. by injection H.
Qed.

#[export] Instance toy_sizes : mbedtls_sizes.
Proof.
  split; [done|]. intros n e sig em H. apply (inj Some) in H. subst em. rewrite length_take, length_app, length_replicate. lia.
Qed.

(** An image with a body, its fields, and what the trailer of its slot ends with. *)
Definition body_bytes (body : list byte) : list byte :=
  put32 IMAGE_MAGIC ++ put32 0 ++ put16 32 ++ put16 0 ++ put32 (zlen body) ++ put32 0 ++ replicate 12 Byte.x00 ++ body.

Definition image_fields (body : list byte) : list tlv_field :=
  let hash := digest (body_bytes body) in
  [TlvField IMAGE_TLV_SHA256 Byte.x00 hash; TlvField IMAGE_TLV_KEYHASH Byte.x00 (digest [Byte.x11; Byte.x22]);
   TlvField IMAGE_TLV_RSA2048_PSS Byte.x00 (PKCS1.EMSA_PSS_ENCODE digest 32 hash (replicate 32 Byte.x07) 2047)].

Definition image_bytes (body : list byte) : list byte :=
  let fb := image_fields body ≫= field_bytes in
  body_bytes body ++ put16 IMAGE_TLV_INFO_MAGIC ++ put16 (4 + zlen fb) ++ fb.

Definition slot_bytes (size : Z) (image tail : list byte) (o : Z) : byte :=
  if o <? zlen image then znth image o else if size - zlen tail <=? o then znth tail (o - (size - zlen tail)) else Byte.xff.

(** A flash with these contents in its slots, erased elsewhere. *)
Definition flash_of (L : boot_layout) (base : Z) (c0 c1 : Z -> byte) : mem := fun x =>
  let a := x - base in
  if (FLASH_AREA_IMAGE_0_OFFSET <=? a) && (a <? FLASH_AREA_IMAGE_0_OFFSET + FLASH_AREA_IMAGE_0_SIZE) then c0 (a - FLASH_AREA_IMAGE_0_OFFSET)
  else if (FLASH_AREA_IMAGE_1_OFFSET <=? a) && (a <? FLASH_AREA_IMAGE_1_OFFSET + FLASH_AREA_IMAGE_1_SIZE) then c1 (a - FLASH_AREA_IMAGE_1_OFFSET)
  else Byte.xff.

Definition old_image : list byte := image_bytes [Byte.x01; Byte.x02; Byte.x03].
Definition new_image : list byte := image_bytes [Byte.x0a; Byte.x0b; Byte.x0c; Byte.x0d].

(** The old image, with no trailer to speak of, and the new one before [tail]. *)
Definition waiting (L : boot_layout) (base : Z) (tail : list byte) : mem :=
  flash_of L base (slot_bytes FLASH_AREA_IMAGE_0_SIZE old_image (replicate 16 Byte.x00))
    (slot_bytes FLASH_AREA_IMAGE_1_SIZE new_image tail).

Definition reset_ram : boot_loader_state :=
  let i := BootImg (ImageHeader 0 0 0 0 0 (ImageVersion 0 0 0 0)) None [] 0 in BootLoaderState i i None 0.
End Toy.

Import Toy.

(** ** Updates on the board *)

Definition cycle (n : nat) : boot_cycle := BootCycle reset_ram [0; 0; 0] n.

Ltac decide_bounds := vm_compute; repeat split; congruence.

(** Evaluates the conditions on an image that is a list of bytes. *)
Ltac accept_image image :=
  intros Hc Hn; apply (accepted_more _ (zlen image)); [|exact Hn];
  apply (accepted_ext (fun o => znth image o) _ _ (zlen image)); [exact Hc|vm_compute; congruence|reflexivity|];
  split; [vm_compute; reflexivity|vm_compute; reflexivity|decide_bounds|vm_compute; reflexivity|vm_compute; reflexivity
    |repeat constructor; vm_compute; congruence|exists (-1); vm_compute; reflexivity].

Lemma old_accepted (c : Z -> byte) n : (forall o, 0 <= o < zlen old_image -> c o = znth old_image o) -> zlen old_image <= n ->
  accepted c n (image_fields [Byte.x01; Byte.x02; Byte.x03]).
Proof. accept_image old_image. Qed.

Lemma new_accepted (c : Z -> byte) n : (forall o, 0 <= o < zlen new_image -> c o = znth new_image o) -> zlen new_image <= n ->
  accepted c n (image_fields [Byte.x0a; Byte.x0b; Byte.x0c; Byte.x0d]).
Proof. accept_image new_image. Qed.

(** What the slots of a waiting flash hold. *)
Lemma slot_image size image tail o : 0 <= o < zlen image -> slot_bytes size image tail o = znth image o.
Proof. intros Ho. unfold slot_bytes. by rewrite (proj2 (Z.ltb_lt o (zlen image))) by lia. Qed.

Section views.
  Context (dev : arm_flash_dev_t) `{!flash_dev_ok dev} {L : boot_layout} `{!boot_layout_ok (emulated dev)}.

Definition slots_dev (tail : list byte) : emulated dev := Emulated (waiting L (memory_base dev) tail).

(** An update on trial. *)
Definition waiting_dev : emulated dev := slots_dev boot_img_magic_bytes.

Lemma view_slot0 tail o : 0 <= o < FLASH_AREA_IMAGE_0_SIZE ->
  area_view (slots_dev tail) FLASH_AREA_IMAGE_0 o = slot_bytes FLASH_AREA_IMAGE_0_SIZE old_image (replicate 16 Byte.x00) o.
Proof using Type.
  intros Ho. unfold area_view, slots_dev, waiting, flash_of. cbn [flash_byte emulated_device sram].
  change (fa_off (area_of FLASH_AREA_IMAGE_0)) with FLASH_AREA_IMAGE_0_OFFSET.
  rewrite Z.add_simpl_l, (proj2 (Z.leb_le _ _)), (proj2 (Z.ltb_lt _ _)) by lia. cbn [andb]. f_equal. lia.
Qed.

Lemma view_slot1 tail o : 0 <= o < FLASH_AREA_IMAGE_1_SIZE ->
  area_view (slots_dev tail) FLASH_AREA_IMAGE_1 o = slot_bytes FLASH_AREA_IMAGE_1_SIZE new_image tail o.
Proof using Type*.
  intros Ho. pose proof bl_off1 as [Hoff _]. unfold area_view, slots_dev, waiting, flash_of. cbn [flash_byte emulated_device sram].
  change (fa_off (area_of FLASH_AREA_IMAGE_1)) with FLASH_AREA_IMAGE_1_OFFSET.
  rewrite Z.add_simpl_l, (proj2 (Z.ltb_ge (_ + o) (FLASH_AREA_IMAGE_0_OFFSET + _))), andb_false_r, (proj2 (Z.leb_le _ _)), (proj2 (Z.ltb_lt _ _)) by lia.
  cbn [andb]. f_equal. lia.
Qed.

(** An update of this kind waits on every board with room for it. *)
Lemma waiting_waits :
  zlen new_image + 16 <= last_off (D := emulated dev) -> zlen old_image + 16 <= last_off (D := emulated dev) ->
  swap_fits (D := emulated dev) (zlen new_image) -> swap_state_of (area_view waiting_dev) FLASH_AREA_IMAGE_0 = BootSwapState BOOT_MAGIC_BAD (Some 0xff) 0xff ->
  magic (swap_state_of (area_view waiting_dev) FLASH_AREA_IMAGE_SCRATCH) = BOOT_MAGIC_UNSET -> b2z (area_view waiting_dev FLASH_AREA_IMAGE_1 (slot_size - 24)) = 0xff ->
  mread (area_view waiting_dev FLASH_AREA_IMAGE_1) (slot_size - 16) 16 = boot_img_magic_bytes ->
  update_waits waiting_dev (zlen new_image) (image_fields [Byte.x0a; Byte.x0b; Byte.x0c; Byte.x0d]).
Proof using Type*.
  intros R1 R0 Hf S0 S2 H24 H16. pose proof bl_size1 as Es. pose proof geometry as (_ & _ & _ & _ & G5 & _). unfold last_off, slot_size in *.
  change (asize FLASH_AREA_IMAGE_0) with FLASH_AREA_IMAGE_0_SIZE in *.
  assert (forall o, 0 <= o < zlen new_image -> area_view waiting_dev FLASH_AREA_IMAGE_1 o = znth new_image o) as H1.
  { intros o Ho. unfold waiting_dev. rewrite view_slot1 by lia. by apply slot_image. }
  assert (forall o, 0 <= o < zlen old_image -> area_view waiting_dev FLASH_AREA_IMAGE_0 o = znth old_image o) as H0.
  { intros o Ho. unfold waiting_dev. rewrite view_slot0 by lia. by apply slot_image. }
  pose proof (new_accepted _ (zlen new_image) H1 (Z.le_refl _)) as A1. pose proof (old_accepted _ (zlen old_image) H0 (Z.le_refl _)) as A0.
  assert (extent (area_view waiting_dev FLASH_AREA_IMAGE_1) = zlen new_image) as E1.
  { rewrite (extent_ext (fun o => znth new_image o) _ (zlen new_image) H1); [vm_compute; reflexivity|vm_compute; congruence|].
    exact (proj2 (accepted_measured _ _ _ (new_accepted (fun o => znth new_image o) (zlen new_image) ltac:(done) (Z.le_refl _)))). }
  assert (extent (area_view waiting_dev FLASH_AREA_IMAGE_0) = zlen old_image) as E0.
  { rewrite (extent_ext (fun o => znth old_image o) _ (zlen old_image) H0); [vm_compute; reflexivity|vm_compute; congruence|].
    exact (proj2 (accepted_measured _ _ _ (old_accepted (fun o => znth old_image o) (zlen old_image) ltac:(done) (Z.le_refl _)))). }
  split; [split| |split].
  - rewrite E0, E1. vm_compute. reflexivity.
  - exact Hf.
  - apply (accepted_measured _ _ (image_fields [Byte.x01; Byte.x02; Byte.x03])), old_accepted; [exact H0|]. unfold last_off, slot_size.
    change (asize FLASH_AREA_IMAGE_0) with FLASH_AREA_IMAGE_0_SIZE. cbn [flash_sector power_cut_device]. lia.
  - by rewrite E1.
  - split; [exact H16|by right].
  - unfold scratch_idle. by rewrite S2.
  - left. rewrite S0. destruct (swap_state_of _ FLASH_AREA_IMAGE_SCRATCH) as [m cd ok]. cbn [magic] in S2. by subst m.
Qed.
End views.

(** The an521 board. *)
Module An521Boot.
#[export] Existing Instance an521_boot_layout.
Definition dev : emulated ARM_FLASH0_DEV_an521 := waiting_dev ARM_FLASH0_DEV_an521.

Lemma an521_waits : update_waits dev (zlen new_image) (image_fields [Byte.x0a; Byte.x0b; Byte.x0c; Byte.x0d]).
Proof. apply waiting_waits; [exact an521_boot_layout_ok|vm_compute; repeat split; congruence..]. Qed.

Lemma update_survives_power_failures_witness :
  match boot_until [cycle 3; cycle 11] dev with
  | (Some entry, d') => entry = 0x10080020
  | (None, d') => exists entry s', bl2_main (powered d' [0; 0; 0] reset_ram) = (Ok entry, s') /\ entry = 0x10080020
  end.
Proof.
  pose proof (update_survives_power_failures dev [cycle 3; cycle 11] _ _ an521_waits) as H. cbv zeta in H.
  assert (new_entry (area_view dev FLASH_AREA_IMAGE_1) = 0x10080020) as E by (vm_compute; reflexivity).
  destruct (boot_until [cycle 3; cycle 11] dev) as [[entry|] d']; [destruct H as [-> _]; exact E|].
  destruct (H [0; 0; 0] reset_ram) as (entry & s' & Er & -> & _). exists (new_entry (area_view dev FLASH_AREA_IMAGE_1)), s'. split; [exact Er|exact E].
Defined.
End An521Boot.

(** The small board. *)
Module MiniBoot.
#[export] Existing Instance mini_layout.
Definition dev : emulated mini_dev := waiting_dev mini_dev.

Lemma mini_waits : update_waits dev (zlen new_image) (image_fields [Byte.x0a; Byte.x0b; Byte.x0c; Byte.x0d]).
Proof. apply waiting_waits; [exact mini_layout_ok|vm_compute; repeat split; congruence..]. Qed.





Definition updated_dev : emulated mini_dev := snd (boot_until [cycle 1000] dev).

Lemma updates : boot_until [cycle 1000] dev = (Some 0x10000020, updated_dev).
Proof.
  assert (fst (boot_until [cycle 1000] dev) = Some 0x10000020) as E by (vm_compute; reflexivity).
  unfold updated_dev. rewrite <- E. apply surjective_pairing.
Qed.

(** The image it runs passes the validation. *)
Lemma dev_accepted :
  accepted (area_view dev FLASH_AREA_IMAGE_0) (extent (area_view dev FLASH_AREA_IMAGE_0)) (image_fields [Byte.x01; Byte.x02; Byte.x03]).
Proof.
  apply old_accepted; [|vm_compute; congruence]. intros o Ho. unfold dev, waiting_dev. rewrite view_slot0; [by apply slot_image|].
  split; [lia|]. eapply Z.lt_trans; [apply Ho|]. vm_compute. reflexivity.
Qed.

Lemma unconfirmed_update_reverts_witness :
  exists s', bl2_main (powered updated_dev [0; 0; 0] reset_ram) = (Ok 0x10000020, s') /\
    next_swap (area_view (device (bt_dev s'))) = BOOT_SWAP_TYPE_NONE.
Proof.
  destruct (unconfirmed_update_reverts dev [cycle 1000] (zlen new_image) _ (image_fields [Byte.x01; Byte.x02; Byte.x03])
    0x10000020 updated_dev [0; 0; 0] reset_ram mini_waits) as (s' & E & _ & _ & Hn).
  - vm_compute. reflexivity.
  - exact dev_accepted.
  - exact updates.
  - exists s'. split; [|exact Hn]. rewrite E. vm_compute. reflexivity.
Defined.

Lemma interrupted_revert_keeps_images_witness :
  exists entry d2, boot_until [cycle 3; cycle 1000] updated_dev = (Some entry, d2) /\
    holds (area_view d2) FLASH_AREA_IMAGE_0 (area_view dev FLASH_AREA_IMAGE_1) 1024.
Proof.
  pose proof (interrupted_revert_keeps_images dev [cycle 1000] [cycle 3; cycle 1000] (zlen new_image) _ (image_fields [Byte.x01; Byte.x02; Byte.x03])
    0x10000020 updated_dev mini_waits ltac:(vm_compute; reflexivity) dev_accepted updates) as H.
  set (r := boot_until [cycle 3; cycle 1000] updated_dev) in *.
  assert (fst r = Some 0x10000020) as E1 by (vm_compute; reflexivity).
  assert (r = (Some 0x10000020, snd r)) as E by (rewrite <- E1; apply surjective_pairing).
  exists 0x10000020, (snd r). split; [exact E|].
  assert (b2z (area_view (snd r) FLASH_AREA_IMAGE_0 32) = 0x0a) as Hb by (vm_compute; reflexivity).
  rewrite E in H. destruct H as [(_ & H & _)|(_ & H & _)]; [|exact H].
  rewrite (H 32) in Hb; [|split; [lia|vm_compute; reflexivity]].
  exfalso. revert Hb. vm_compute. congruence.
Defined.

Lemma confirmed_update_stays_witness :
  exists s1, boot_set_confirmed (powered updated_dev [0; 0; 0] reset_ram) = (Ok tt, s1) /\
    exists d2, boot_until [cycle 0] (device (bt_dev s1)) = (Some 0x10000020, d2).
Proof.
  destruct (confirmed_update_stays dev [cycle 1000] (zlen new_image) _ 0x10000020 updated_dev [0; 0; 0] reset_ram mini_waits) as (s1 & E & H).
  - vm_compute. reflexivity.
  - exact updates.
  - exists s1. split; [exact E|]. destruct (H (cycle 0) []) as (d2 & E2 & _). exists d2. rewrite E2. vm_compute. reflexivity.
Defined.

Lemma only_signed_images_start_witness :
  exists s', bl2_main (BootState dev [0; 0; 0] reset_ram) = (Ok 0x10000020, s') /\
    exists hash key n e sig, key ∈ bootutil_keys /\ bootutil_parse_rsakey key = inl (n, e, 256) /\ bootutil_cmp_rsasig n e 256 hash 32 sig = 0.
Proof.
  set (r := bl2_main (BootState dev [0; 0; 0] reset_ram)).
  assert (r = (Ok 0x10000020, snd r)) as E.
  { assert (fst r = Ok 0x10000020) as E1 by (vm_compute; reflexivity). rewrite <- E1. apply surjective_pairing. }
  exists (snd r). split; [exact E|].
  destruct (only_signed_images_start (BootState dev [0; 0; 0] reset_ram) 0x10000020 (snd r) E) as (_ & _ & _ & hash & key & n & e & sig & _ & _ & H).
  exists hash, key, n, e, sig. exact H.
Defined.

Lemma rsasig_is_pss_witness :
  let sig := PKCS1.EMSA_PSS_ENCODE digest 32 (replicate 32 Byte.x05) (replicate 32 Byte.x07) 2047 in
  bootutil_cmp_rsasig 1 1 256 (replicate 32 Byte.x05) 32 sig = 0.
Proof.
  cbv zeta. set (sig := PKCS1.EMSA_PSS_ENCODE _ _ _ _ _). apply (rsasig_is_pss 1 1 256 (replicate 32 Byte.x05) sig); [reflexivity|]. split; [reflexivity|].
  exists sig, (replicate 32 Byte.x07). vm_compute. repeat split; reflexivity.
Defined.

(** ** Interruptions the code does not recover from *)

(** The first byte of the body of the image in slot 0, and the next swap. *)
Definition outcome (d : emulated mini_dev) : byte * swap_type_t := (area_view d FLASH_AREA_IMAGE_0 32, next_swap (area_view d)).

(** A revert need not survive power failures (no image is lost, see
    [BootClaims.interrupted_revert_keeps_images]); an instance of both ways.  The
    new image, whose body starts with 0x0a, is not confirmed, so that the next
    boot reverts it; when the power fails right after that boot has erased the
    trailer of slot 0, the boot after it starts the new image, for good; when it
    fails later in the revert, the old image is restored but not marked, and the
    boot after the next one exchanges it for the new image again. *)
Theorem interrupted_revert_is_lost :
  outcome updated_dev = (Byte.x0a, BOOT_SWAP_TYPE_REVERT) /\
  outcome (snd (boot_until [cycle 1000] updated_dev)) = (Byte.x01, BOOT_SWAP_TYPE_NONE) /\
  outcome (snd (boot_until [cycle 3; cycle 1000] updated_dev)) = (Byte.x0a, BOOT_SWAP_TYPE_NONE) /\
  outcome (snd (boot_until [cycle 8; cycle 1000] updated_dev)) = (Byte.x01, BOOT_SWAP_TYPE_REVERT).
Proof. vm_compute. repeat split; reflexivity. Qed.

(** Images that reach into the last sector: the status of the swap is then kept
    in the scratch area. *)
Definition large_image : list byte := image_bytes (replicate 780 Byte.x55).

(** A large image that was installed for good, and an update on trial. *)
Definition large_dev : emulated mini_dev :=
  let d := Emulated (flash_of mini_layout 0x10000000 (slot_bytes 2048 old_image (replicate 16 Byte.x00))
    (slot_bytes 2048 large_image (padded Byte.x01 ++ replicate 7 Byte.xff ++ boot_img_magic_bytes))) in
  let d1 : emulated mini_dev := snd (boot_until [cycle 1000] d) in
  Emulated (fun x => let a := x - 0x10000000 in
    if (2048 <=? a) && (a <? 4096) then slot_bytes 2048 new_image boot_img_magic_bytes (a - 2048) else sram d1 x).

(** An update of an image that reaches into the last sector can leave the device
    without an image to start; an instance.  The trailer of slot 0 still says that
    the previous swap was completed, so that the status in the scratch area is not
    looked at: after a power failure while slot 0 is being written, the next two
    boots start no image, although the same update succeeds without it. *)
Theorem large_update_can_brick :
  fst (boot_until [cycle 1000] large_dev) = Some 0x10000020 /\
  fst (boot_until [cycle 13; cycle 1000; cycle 1000] large_dev) = None.
Proof. vm_compute. repeat split; reflexivity. Qed.
End MiniBoot.
