(* ===== verification/TcSha256.v ===== *)
(** * tinycrypt: SHA-256

    [tinycrypt/source/sha256.c] with the functions of [utils.c] it uses.  The
    state is the structure of the source: eight words, the number of bits hashed,
    and a block that is being filled.  Words are [Z] below 2^32; a pointer that may
    be null is an option.  The schedule of [compress] lives in a ring of sixteen
    words. *)

From S2P Require Import Prelude.

Definition TC_CRYPTO_SUCCESS : Z := 1.
Definition TC_CRYPTO_FAIL : Z := 0.

Definition TC_SHA256_BLOCK_SIZE : Z := 64.

(** ** Run-time operations *)

(** [_set(to + off, val, len)] inside an array. *)
Definition tc_set (to : list byte) (off : Z) (val : byte) (len : Z) : list byte :=
  splice off (replicate (Z.to_nat len) val) to.

(** [_copy]: the destination and the result. *)
Definition tc_copy (to : list byte) (to_len : Z) (from : list byte) (from_len : Z) : list byte * Z :=
  if from_len <=? to_len then (splice 0 (ztake from_len from) to, from_len) else (to, TC_CRYPTO_FAIL).

(** ** Data *)

Record tc_sha256_state_struct := Sha {
  iv : list Z;
  bits_hashed : Z;
  leftover : list byte;
  leftover_offset : Z;
}.

(** A state of zeros, as [_set(s, 0, sizeof( *s))] leaves it. *)
Definition sha_cleared : tc_sha256_state_struct := Sha (replicate 8 0) 0 (replicate 64 Byte.x00) 0.

Definition k256 : list Z :=
  [
    1116352408; 1899447441; 3049323471; 3921009573; 961987163; 1508970993; 2453635748; 2870763221;
    3624381080; 310598401; 607225278; 1426881987; 1925078388; 2162078206; 2614888103; 3248222580;
    3835390401; 4022224774; 264347078; 604807628; 770255983; 1249150122; 1555081692; 1996064986;
    2554220882; 2821834349; 2952996808; 3210313671; 3336571891; 3584528711; 113926993; 338241895;
    666307205; 773529912; 1294757372; 1396182291; 1695183700; 1986661051; 2177026350; 2456956037;
    2730485921; 2820302411; 3259730800; 3345764771; 3516065817; 3600352804; 4094571909; 275423344;
    430227734; 506948616; 659060556; 883997877; 958139571; 1322822218; 1537002063; 1747873779;
    1955562222; 2024104815; 2227730452; 2361852424; 2428436474; 2756734187; 3204031479; 3329325298
  ].

(** ** The round functions *)

Definition ROTR (a n : Z) : Z := Z.lor (Z.shiftr a n) (u32 (Z.shiftl a (32 - n))).

Definition Sigma0 (a : Z) : Z := Z.lxor (Z.lxor (ROTR a 2) (ROTR a 13)) (ROTR a 22).
Definition Sigma1 (a : Z) : Z := Z.lxor (Z.lxor (ROTR a 6) (ROTR a 11)) (ROTR a 25).
Definition sigma0 (a : Z) : Z := Z.lxor (Z.lxor (ROTR a 7) (ROTR a 18)) (Z.shiftr a 3).
Definition sigma1 (a : Z) : Z := Z.lxor (Z.lxor (ROTR a 17) (ROTR a 19)) (Z.shiftr a 10).

Definition Ch (a b c : Z) : Z := Z.lxor (Z.land a b) (Z.land (u32 (Z.lnot a)) c).
Definition Maj (a b c : Z) : Z := Z.lxor (Z.lxor (Z.land a b) (Z.land a c)) (Z.land b c).

(** The word at the pointer, and the pointer behind it. *)
Definition BigEndian (c : list byte) : Z * list byte :=
  let n := u32 (Z.shiftl (b2z (znth c 0)) 24) in
  let n := Z.lor n (u32 (Z.shiftl (b2z (znth c 1)) 16)) in
  let n := Z.lor n (u32 (Z.shiftl (b2z (znth c 2)) 8)) in
  (Z.lor n (b2z (znth c 3)), zdrop 4 c).

(** ** Compression *)

(** The local variables [a] to [h]. *)
Record work := Work { wa : Z; wb : Z; wc : Z; wd : Z; we : Z; wf : Z; wg : Z; wh : Z }.

(** The second half of the body of both loops; [t1] is the word of the schedule. *)
Definition compress_round (t1 k : Z) (v : work) : work :=
  let '(Work a b c d e f g h) := v in
  let t1 := u32 (t1 + (h + Sigma1 e + Ch e f g + k)) in
  let t2 := u32 (Sigma0 a + Maj a b c) in
  Work (u32 (t1 + t2)) a b c (u32 (d + t1)) e f g.

(** The loop over the words of the block, with [n] rounds left. *)
Fixpoint block_loop (n i : nat) (data : list byte) (work_space : list Z) (v : work) : list Z * work :=
  match n with
  | O => (work_space, v)
  | S n =>
      let '(w, data) := BigEndian data in
      block_loop n (S i) data (<[i := w]> work_space) (compress_round w (k256 !!! i) v)
  end.

(** [i & 0x0f] *)
Definition ring (i : nat) : nat := Z.to_nat (Z.land (Z.of_nat i) 0x0f).

Fixpoint ring_loop (n i : nat) (work_space : list Z) (v : work) : work :=
  match n with
  | O => v
  | S n =>
      let s0 := sigma0 (work_space !!! ring (i + 1)) in
      let s1 := sigma1 (work_space !!! ring (i + 14)) in
      let w := u32 ((work_space !!! ring i) + (s0 + s1 + (work_space !!! ring (i + 9)))) in
      ring_loop n (S i) (<[ring i := w]> work_space) (compress_round w (k256 !!! i) v)
  end.

Definition compress (iv : list Z) (data : list byte) : list Z :=
  let at_ i := iv !!! i in
  let v := Work (at_ 0%nat) (at_ 1%nat) (at_ 2%nat) (at_ 3%nat) (at_ 4%nat) (at_ 5%nat) (at_ 6%nat) (at_ 7%nat) in
  let '(work_space, v) := block_loop 16 0 data (replicate 16 0) v in
  let '(Work a b c d e f g h) := ring_loop 48 16 work_space v in
  zip_with (fun x y => u32 (x + y)) iv [a; b; c; d; e; f; g; h].

(** ** The interface *)

Definition tc_sha256_init (s : option tc_sha256_state_struct) : Z * option tc_sha256_state_struct :=
  match s with
  | None => (TC_CRYPTO_FAIL, None)
  | Some _ =>
      (TC_CRYPTO_SUCCESS,
       Some (Sha [0x6a09e667; 0xbb67ae85; 0x3c6ef372; 0xa54ff53a; 0x510e527f; 0x9b05688c; 0x1f83d9ab; 0x5be0cd19]
               0 (replicate 64 Byte.x00) 0))
  end.

(** The body of the loop of [tc_sha256_update]. *)
Definition update_byte (s : tc_sha256_state_struct) (x : byte) : tc_sha256_state_struct :=
  let buf := <[Z.to_nat (leftover_offset s) := x]> (leftover s) in
  let off := u32 (leftover_offset s + 1) in
  if TC_SHA256_BLOCK_SIZE <=? off
  then Sha (compress (iv s) buf) (u64 (bits_hashed s + Z.shiftl TC_SHA256_BLOCK_SIZE 3)) buf 0
  else Sha (iv s) (bits_hashed s) buf off.

Definition tc_sha256_update (s : option tc_sha256_state_struct) (data : option (list byte))
    : Z * option tc_sha256_state_struct :=
  match s, data with
  | Some s, Some data => (TC_CRYPTO_SUCCESS, Some (fold_left update_byte data s))
  | s, _ => (TC_CRYPTO_FAIL, s)
  end.

(** The four bytes of a word, in the order the digest has them. *)
Definition digest_word (t : Z) : list byte :=
  [z2b (Z.shiftr t 24); z2b (Z.shiftr t 16); z2b (Z.shiftr t 8); z2b t].

(** The digest, and the state it leaves. *)
Definition sha_finish (s : tc_sha256_state_struct) : list byte * tc_sha256_state_struct :=
  let bits := u64 (bits_hashed s + u32 (Z.shiftl (leftover_offset s) 3)) in
  let buf := <[Z.to_nat (leftover_offset s) := Byte.x80]> (leftover s) in
  let off := u32 (leftover_offset s + 1) in
  let '(iv1, buf, off) :=
    if 64 - 8 <? off
    then let buf := tc_set buf off Byte.x00 (64 - off) in (compress (iv s) buf, buf, 0)
    else (iv s, buf, off) in
  let buf := tc_set buf off Byte.x00 (64 - 8 - off) in
  let buf := <[63%nat := z2b bits]> buf in
  let buf := <[62%nat := z2b (Z.shiftr bits 8)]> buf in
  let buf := <[61%nat := z2b (Z.shiftr bits 16)]> buf in
  let buf := <[60%nat := z2b (Z.shiftr bits 24)]> buf in
  let buf := <[59%nat := z2b (Z.shiftr bits 32)]> buf in
  let buf := <[58%nat := z2b (Z.shiftr bits 40)]> buf in
  let buf := <[57%nat := z2b (Z.shiftr bits 48)]> buf in
  let buf := <[56%nat := z2b (Z.shiftr bits 56)]> buf in
  (List.concat (digest_word <$> compress iv1 buf), sha_cleared).

(** The digest is written only on success. *)
Definition tc_sha256_final (digest : option (list byte)) (s : option tc_sha256_state_struct)
    : Z * option (list byte) * option tc_sha256_state_struct :=
  match digest, s with
  | Some _, Some s => let '(d, s) := sha_finish s in (TC_CRYPTO_SUCCESS, Some d, Some s)
  | _, _ => (TC_CRYPTO_FAIL, digest, s)
  end.
