(* ===== verification/TcSha256Spec.v ===== *)
(** * tinycrypt: SHA-256 is the hash of FIPS 180-4

    The standard's hash of a message: constants from the roots of the first
    primes, padding, schedule, rounds.  The ring of sixteen words in [compress] is
    the standard's schedule of sixty-four, and the filling of blocks computes the
    hash of everything that was passed in, however it was cut into pieces. *)

From S2P Require Import Prelude TcWords TcSha256.

(** ** The standard *)

Module FIPS180.

(** The first 64 primes are below 312. *)
Definition is_prime (n : Z) : bool := forallb (fun d => negb (n mod d =? 0)) (seqZ 2 (n - 2)).
Definition primes : list Z := List.filter is_prime (seqZ 2 310).

(** The largest [r] below [2 ^ bits] with [r ^ 3 <= x]. *)
Fixpoint cube_root (bits : nat) (r x : Z) : Z :=
  match bits with
  | O => r
  | S b => let r' := r + 2 ^ Z.of_nat b in cube_root b (if r' ^ 3 <=? x then r' else r) x
  end.

(** The first 32 bits of the fractional parts of the roots. *)
Definition K : list Z := (fun p => cube_root 35 0 (p * 2 ^ 96) mod 2 ^ 32) <$> primes.
Definition H0 : list Z := (fun p => Z.sqrt (p * 2 ^ 64) mod 2 ^ 32) <$> take 8 primes.

Definition rotr (n x : Z) : Z := x / 2 ^ n + x mod 2 ^ n * 2 ^ (32 - n).
Definition shr (n x : Z) : Z := x / 2 ^ n.
Definition xor3 (x y z : Z) : Z := Z.lxor (Z.lxor x y) z.

Definition S0 (x : Z) : Z := xor3 (rotr 2 x) (rotr 13 x) (rotr 22 x).
Definition S1 (x : Z) : Z := xor3 (rotr 6 x) (rotr 11 x) (rotr 25 x).
Definition s0 (x : Z) : Z := xor3 (rotr 7 x) (rotr 18 x) (shr 3 x).
Definition s1 (x : Z) : Z := xor3 (rotr 17 x) (rotr 19 x) (shr 10 x).
Definition ch (x y z : Z) : Z := Z.lxor (Z.land x y) (Z.land (2 ^ 32 - 1 - x) z).
Definition maj (x y z : Z) : Z := xor3 (Z.land x y) (Z.land x z) (Z.land y z).

(** The next word of the schedule. *)
Definition next_word (w : list Z) : Z :=
  let t := length w in
  (s1 (w !!! (t - 2)%nat) + w !!! (t - 7)%nat + s0 (w !!! (t - 15)%nat) + w !!! (t - 16)%nat) mod 2 ^ 32.

Fixpoint words_of (n : nat) (b : list byte) : list Z :=
  match n with
  | O => []
  | S n => be (take 4 b) :: words_of n (drop 4 b)
  end.

Definition schedule (b : list byte) : list Z := grow next_word 48 (words_of 16 b).

Definition round (k w : Z) (v : work) : work :=
  let '(Work a b c d e f g h) := v in
  let T1 := h + S1 e + ch e f g + k + w in
  let T2 := S0 a + maj a b c in
  Work ((T1 + T2) mod 2 ^ 32) a b c ((d + T1) mod 2 ^ 32) e f g.

Fixpoint rounds (ks ws : list Z) (v : work) : work :=
  match ks, ws with
  | k :: ks, w :: ws => rounds ks ws (round k w v)
  | _, _ => v
  end.

Definition work_of (l : list Z) : work :=
  Work (l !!! 0%nat) (l !!! 1%nat) (l !!! 2%nat) (l !!! 3%nat) (l !!! 4%nat) (l !!! 5%nat) (l !!! 6%nat) (l !!! 7%nat).

Definition of_work (v : work) : list Z := let '(Work a b c d e f g h) := v in [a; b; c; d; e; f; g; h].

Definition hash_block (H : list Z) (b : list byte) : list Z :=
  zip_with (fun x y => (x + y) mod 2 ^ 32) H (of_work (rounds K (schedule b) (work_of H))).

Fixpoint hash_blocks (n : nat) (H : list Z) (m : list byte) : list Z :=
  match n with
  | O => H
  | S n => hash_blocks n (hash_block H (take 64 m)) (drop 64 m)
  end.

(** A one, zeros to 56 bytes modulo 64, and the length in bits. *)
Definition padding (len : Z) : list byte :=
  [Byte.x80] ++ replicate (Z.to_nat ((55 - len) mod 64)) Byte.x00 ++ be_bytes 8 (8 * len).

Definition sha256 (m : list byte) : list byte :=
  let p := m ++ padding (zlen m) in
  List.concat (be_bytes 4 <$> hash_blocks (length p / 64) H0 p).
End FIPS180.
Import FIPS180.

(** ** The constants *)

Lemma k256_standard : k256 = K.
Proof. vm_compute. reflexivity. Qed.

Lemma length_k256 : length k256 = 64%nat.
Proof. reflexivity. Qed.

Lemma k256_words : Forall (fun k => word k) k256.
Proof. repeat constructor; vm_compute; (done || discriminate). Qed.

Lemma init_standard s : tc_sha256_init (Some s) = (TC_CRYPTO_SUCCESS, Some (Sha H0 0 (replicate 64 Byte.x00) 0)).
Proof. vm_compute. reflexivity. Qed.

(** ** The round functions *)

Lemma rotr_word n x : word x -> 0 < n < 32 -> word (rotr n x).
Proof.
  intros Hx Hn. unfold rotr. pose proof (Z.mod_pos_bound x (2 ^ n)).
  assert (2 ^ 32 = 2 ^ n * 2 ^ (32 - n)) as E by (rewrite <- Z.pow_add_r by lia; f_equal; lia).
  assert (0 <= x / 2 ^ n < 2 ^ (32 - n)) by (split; [apply Z.div_pos|apply Z.div_lt_upper_bound]; lia). nia.
Qed.

Lemma ROTR_rotr n x : word x -> 0 < n < 32 -> ROTR x n = rotr n x.
Proof.
  intros Hx Hn. unfold ROTR, rotr. rewrite u32_shiftl, Z.shiftr_div_pow2 by lia. apply lor_low; [lia|].
  assert (2 ^ 32 = 2 ^ n * 2 ^ (32 - n)) as E by (rewrite <- Z.pow_add_r by lia; f_equal; lia).
  split; [apply Z.div_pos|apply Z.div_lt_upper_bound]; lia.
Qed.

Lemma Sigma0_S0 x : word x -> Sigma0 x = S0 x.
Proof. intros. unfold Sigma0, S0, xor3. by rewrite !ROTR_rotr by lia. Qed.

Lemma Sigma1_S1 x : word x -> Sigma1 x = S1 x.
Proof. intros. unfold Sigma1, S1, xor3. by rewrite !ROTR_rotr by lia. Qed.

Lemma sigma0_s0 x : word x -> sigma0 x = s0 x.
Proof. intros. unfold sigma0, s0, xor3, shr. by rewrite !ROTR_rotr, Z.shiftr_div_pow2 by lia. Qed.

Lemma sigma1_s1 x : word x -> sigma1 x = s1 x.
Proof. intros. unfold sigma1, s1, xor3, shr. by rewrite !ROTR_rotr, Z.shiftr_div_pow2 by lia. Qed.

Lemma Ch_ch x y z : word x -> Ch x y z = ch x y z.
Proof. intros. unfold Ch, ch. by rewrite lnot_word. Qed.

(** The registers hold words. *)
Definition work_ok (v : work) : Prop := Forall (fun x => word x) (of_work v).

Lemma round_ok k w v : work_ok v -> compress_round w k v = round k w v /\ work_ok (round k w v).
Proof.
  destruct v as [a b c d e f g h]. unfold work_ok. cbn [of_work]. intros Hv.
  decompose_Forall_hyps.
  split.
  - cbn [compress_round round]. rewrite Sigma0_S0, Sigma1_S1, Ch_ch by done. unfold u32.
    rewrite <- Zplus_mod, Zplus_mod_idemp_r. unfold Maj, maj, xor3.
    f_equal; apply (f_equal (fun x => x mod 2 ^ 32)); lia.
  - cbn [round of_work]. repeat apply Forall_cons_2; try done; (apply Z.mod_pos_bound; lia).
Qed.

Lemma rounds_ok ks ws v : work_ok v -> work_ok (rounds ks ws v).
Proof.
  revert ws v. induction ks as [|k ks IH]; intros [|w ws] v Hv; cbn [rounds]; try done. apply IH, round_ok, Hv.
Qed.

(** ** The words of a block *)

Lemma BigEndian_be c : (4 <= length c)%nat -> BigEndian c = (be (take 4 c), drop 4 c).
Proof.
  intros Hc. destruct c as [|b0 [|b1 [|b2 [|b3 c]]]]; cbn in Hc; try lia.
  unfold BigEndian. cbn [drop take]. change (zdrop 4 (b0 :: b1 :: b2 :: b3 :: c)) with c. f_equal.
  change (znth (b0 :: b1 :: b2 :: b3 :: c) 0) with b0. change (znth (b0 :: b1 :: b2 :: b3 :: c) 1) with b1.
  change (znth (b0 :: b1 :: b2 :: b3 :: c) 2) with b2. change (znth (b0 :: b1 :: b2 :: b3 :: c) 3) with b3.
  pose proof (b2z_bound b0); pose proof (b2z_bound b1); pose proof (b2z_bound b2); pose proof (b2z_bound b3).
  rewrite !u32_small by (rewrite Z.shiftl_mul_pow2 by lia; lia).
  rewrite (lor_parts (b2z b0)) by (rewrite ?Z.shiftl_mul_pow2 by lia; lia).
  rewrite Z.shiftl_mul_pow2 by lia.
  replace (b2z b0 * 2 ^ 24 + b2z b1 * 2 ^ 16) with (Z.shiftl (b2z b0 * 2 ^ 8 + b2z b1) 16) by (rewrite Z.shiftl_mul_pow2 by lia; lia).
  rewrite (lor_parts _ 16) by (rewrite ?Z.shiftl_mul_pow2 by lia; lia). rewrite Z.shiftl_mul_pow2 by lia.
  replace ((b2z b0 * 2 ^ 8 + b2z b1) * 2 ^ 16 + b2z b2 * 2 ^ 8)
    with (Z.shiftl ((b2z b0 * 2 ^ 8 + b2z b1) * 2 ^ 8 + b2z b2) 8) by (rewrite Z.shiftl_mul_pow2 by lia; lia).
  rewrite lor_parts by lia. unfold be. rewrite take_0. cbn [fold_left]. lia.
Qed.

Lemma be_word b : (length b <= 4)%nat -> word (be b).
Proof.
  intros Hb. pose proof (be_bound b). change (2 ^ 32) with (256 ^ 4).
  assert (256 ^ zlen b <= 256 ^ 4) by (apply Z.pow_le_mono_r; lia). lia.
Qed.

Lemma length_words_of n b : length (words_of n b) = n.
Proof. revert b. induction n; intros; cbn; auto. Qed.

Lemma words_of_words n b : Forall (fun w => word w) (words_of n b).
Proof.
  revert b. induction n as [|n IH]; intros b; cbn [words_of]; constructor; [|apply IH].
  apply be_word. rewrite length_take. lia.
Qed.

Lemma k256_from i : (i < 64)%nat -> drop i k256 = (k256 !!! i) :: drop (S i) k256.
Proof. intros Hi. apply drop_S, list_lookup_lookup_total_lt. by rewrite length_k256. Qed.

Lemma block_loop_spec n i data ws v : (i + n = 16)%nat -> (4 * n <= length data)%nat -> length ws = 16%nat -> work_ok v ->
  block_loop n i data ws v = (take i ws ++ words_of n data, rounds (take n (drop i k256)) (words_of n data) v).
Proof.
  revert i data ws v. induction n as [|n IH]; intros i data ws v Hi Hd Hw Hv; cbn [block_loop words_of].
  - rewrite app_nil_r, take_ge by lia. by rewrite take_0.
  - rewrite BigEndian_be by lia. destruct (round_ok (k256 !!! i) (be (take 4 data)) v Hv) as [-> Hv'].
    rewrite IH by (rewrite ?length_insert, ?length_drop; lia || done).
    rewrite (k256_from i) by lia. cbn [take rounds]. f_equal.
    rewrite (take_S_r _ i (be (take 4 data))) by (apply list_lookup_insert_eq; lia).
    by rewrite take_insert_ge, <- app_assoc by lia.
Qed.

(** ** The schedule *)

Lemma next_word_word w : word (next_word w).
Proof. apply Z.mod_pos_bound. lia. Qed.

(** The recurrence of the schedule. *)
Lemma schedule_next b t : (16 <= t < 64)%nat ->
  schedule b !!! t = next_word (take t (schedule b)).
Proof.
  intros Ht. apply grow_next. rewrite length_words_of. lia.
Qed.

Lemma length_schedule b : length (schedule b) = 64%nat.
Proof. unfold schedule. by rewrite length_grow, length_words_of. Qed.

Lemma schedule_first b t : (t < 16)%nat -> schedule b !!! t = words_of 16 b !!! t.
Proof. intros Ht. apply grow_prefix. by rewrite length_words_of. Qed.

Lemma schedule_word b t : (t < 64)%nat -> word (schedule b !!! t).
Proof.
  intros Ht. destruct (decide (t < 16)%nat).
  - rewrite schedule_first by done. apply (Forall_lookup_total_1 (fun w => word w)); [apply words_of_words|].
    by rewrite length_words_of.
  - rewrite schedule_next by lia. apply next_word_word.
Qed.

Lemma ring_mod i : ring i = (i mod 16)%nat.
Proof.
  unfold ring. change 0x0f with (Z.ones 4). rewrite Z.land_ones by lia. change (2 ^ 4) with (Z.of_nat 16).
  by rewrite <- Nat2Z.inj_mod, Nat2Z.id.
Qed.

(** The ring holds the last sixteen words of the schedule. *)
Definition ring_holds (b : list byte) (i : nat) (ws : list Z) : Prop :=
  length ws = 16%nat /\ forall t, (i - 16 <= t < i)%nat -> ws !!! ring t = schedule b !!! t.

Lemma ring_read b i ws j k : ring_holds b i ws -> (16 <= i)%nat -> (k <= 16)%nat -> (1 <= k)%nat -> (j + k = 16)%nat ->
  ws !!! ring (i + j) = schedule b !!! (i - k)%nat.
Proof.
  intros [_ H] Hi Hk Hk1 Hj. rewrite <- H by lia. f_equal. rewrite !ring_mod.
  replace (i + j)%nat with (i - k + 1 * 16)%nat by lia. by rewrite Nat.Div0.mod_add.
Qed.

Lemma ring_step b i ws : ring_holds b i ws -> (16 <= i < 64)%nat ->
  u32 ((ws !!! ring i) + (sigma0 (ws !!! ring (i + 1)) + sigma1 (ws !!! ring (i + 14)) + (ws !!! ring (i + 9)))) =
    schedule b !!! i /\
  ring_holds b (S i) (<[ring i := schedule b !!! i]> ws).
Proof.
  intros Hr Hi. split.
  - rewrite (ring_read b i ws 1 15), (ring_read b i ws 14 2), (ring_read b i ws 9 7) by (done || lia).
    rewrite <- (Nat.add_0_r i) at 1. rewrite (ring_read b i ws 0 16) by (done || lia).
    rewrite sigma0_s0, sigma1_s1 by (apply schedule_word; lia).
    rewrite (schedule_next b i) by lia. unfold next_word, u32. rewrite length_take, length_schedule, Nat.min_l by lia.
    rewrite !lookup_total_take_lt by lia. f_equal. lia.
  - destruct Hr as [Hl Hr]. split; [by rewrite length_insert|]. intros t Ht.
    destruct (decide (t = i)) as [->|Hne].
    + apply list_lookup_total_insert_eq. rewrite ring_mod, Hl. apply Nat.mod_upper_bound. lia.
    + rewrite list_lookup_total_insert_ne; [apply Hr; lia|]. rewrite !ring_mod. intros E.
      pose proof (Nat.div_mod_eq i 16). pose proof (Nat.div_mod_eq t 16). lia.
Qed.

Lemma ring_loop_spec b n i ws v : (i + n = 64)%nat -> (16 <= i)%nat -> ring_holds b i ws -> work_ok v ->
  ring_loop n i ws v = rounds (drop i k256) (drop i (schedule b)) v.
Proof.
  revert i ws v. induction n as [|n IH]; intros i ws v Hi H16 Hr Hv; cbn [ring_loop].
  - rewrite drop_ge; [done|]. rewrite length_k256. lia.
  - destruct (ring_step b i ws Hr ltac:(lia)) as [-> Hr'].
    destruct (round_ok (k256 !!! i) (schedule b !!! i) v Hv) as [-> Hv']. rewrite IH by (done || lia).
    rewrite (k256_from i), (drop_S (schedule b) (schedule b !!! i) i); [done| |lia].
    apply list_lookup_lookup_total_lt. rewrite length_schedule. lia.
Qed.

Lemma rounds_app ks1 ks2 ws1 ws2 v : length ks1 = length ws1 ->
  rounds (ks1 ++ ks2) (ws1 ++ ws2) v = rounds ks2 ws2 (rounds ks1 ws1 v).
Proof.
  revert ws1 v. induction ks1 as [|k ks1 IH]; intros [|w ws1] v Hl; cbn in *; try done. apply IH. lia.
Qed.

Lemma schedule_split b : schedule b = words_of 16 b ++ drop 16 (schedule b).
Proof.
  rewrite <- (take_drop 16 (schedule b)) at 1. apply (f_equal (fun l => l ++ _)).
  apply (list_eq_same_length _ _ 16); [by rewrite length_words_of|by rewrite length_take, length_schedule|].
  intros t x y Ht Hx Hy. apply lookup_take_Some in Hx as [Hx _]. apply list_lookup_total_correct in Hx, Hy.
  subst x y. by rewrite schedule_first.
Qed.

(** A value of the hash. *)
Definition hash_value (H : list Z) : Prop := length H = 8%nat /\ Forall (fun x => word x) H.

Lemma work_of_ok H : hash_value H -> work_ok (work_of H).
Proof.
  intros [Hl HH]. unfold work_ok, work_of. cbn [of_work].
  repeat apply Forall_cons_2; try (apply (Forall_lookup_total_1 (fun x => word x)); [done|lia]). constructor.
Qed.

Lemma compress_spec H b : hash_value H -> length b = 64%nat -> compress H b = hash_block H b.
Proof.
  intros HH Hb. unfold compress, hash_block. fold (work_of H). pose proof (work_of_ok H HH) as Hv.
  rewrite block_loop_spec by (done || lia). rewrite take_0, drop_0, app_nil_l.
  rewrite (ring_loop_spec b); [|done|lia| |by apply rounds_ok].
  - rewrite <- k256_standard, schedule_split. rewrite <- (take_drop 16 k256) at 3.
    rewrite rounds_app by (rewrite length_words_of; reflexivity). rewrite <- schedule_split.
    by destruct (rounds _ _ _).
  - split; [by rewrite length_words_of|]. intros t Ht. rewrite ring_mod, Nat.mod_small, schedule_first by lia. done.
Qed.

Lemma hash_block_value H b : hash_value H -> hash_value (hash_block H b).
Proof.
  intros [Hl HH]. unfold hash_block. destruct (rounds _ _ _) as [a1 a2 a3 a4 a5 a6 a7 a8]. cbn [of_work].
  destruct H as [|x1 [|x2 [|x3 [|x4 [|x5 [|x6 [|x7 [|x8 [|]]]]]]]]]; try done. split; [done|]. cbn [zip_with].
  repeat apply Forall_cons_2; try (apply Z.mod_pos_bound; lia). constructor.
Qed.

Lemma hash_blocks_value n H m : hash_value H -> hash_value (hash_blocks n H m).
Proof. revert H m. induction n; intros; cbn; auto using hash_block_value. Qed.

Lemma H0_value : hash_value H0.
Proof. split; [reflexivity|]. apply (bool_decide_unpack _). vm_compute. exact I. Qed.

#[local] Opaque hash_block H0.

(** Blocks come one after the other. *)
Lemma hash_blocks_add n k H m : hash_blocks (n + k) H m = hash_blocks k (hash_blocks n H m) (drop (64 * n) m).
Proof.
  revert H m. induction n as [|n IH]; intros H m; cbn [Nat.add hash_blocks]; [by rewrite drop_0|].
  rewrite IH, drop_drop. do 2 f_equal. lia.
Qed.

(** Only the blocks that are hashed matter. *)
Lemma hash_blocks_app n H m k : (64 * n <= length m)%nat -> hash_blocks n H (m ++ k) = hash_blocks n H m.
Proof.
  revert H m. induction n as [|n IH]; intros H m Hm; cbn [hash_blocks]; [done|].
  rewrite (take_app_le m k 64), (drop_app_le m k 64) by lia. apply IH. rewrite length_drop. lia.
Qed.

(** ** Streaming *)

(** The state after the message [m]. *)
Record streams (m : list byte) (s : tc_sha256_state_struct) : Prop := {
  st_iv : iv s = hash_blocks (length m / 64) H0 m;
  st_bits : bits_hashed s = u64 (512 * Z.of_nat (length m / 64));
  st_len : length (leftover s) = 64%nat;
  st_off : leftover_offset s = Z.of_nat (length m mod 64);
  st_left : take (length m mod 64) (leftover s) = drop (64 * (length m / 64)) m;
}.

Lemma streams_init s : streams [] (default s (snd (tc_sha256_init (Some s)))).
Proof. rewrite init_standard. cbn [snd default]. change (length (@nil byte)) with 0%nat in *. split; cbn [iv bits_hashed leftover leftover_offset length];
    change (0 / 64)%nat with 0%nat; change (0 mod 64)%nat with 0%nat; [done..|by rewrite take_0]. Qed.

Lemma drop_blocks_length (m : list byte) : length (drop (64 * (length m / 64)) m) = (length m mod 64)%nat.
Proof. rewrite length_drop. pose proof (Nat.div_mod_eq (length m) 64). lia. Qed.

(** The block that a byte completes. *)
Lemma full_block m s x k : streams m s -> (length m mod 64 = k)%nat ->
  take (S k) (<[k := x]> (leftover s)) = drop (64 * (length m / 64)) (m ++ [x]).
Proof.
  intros [Hiv Hbits Hlen Hoff Hleft] Hk. pose proof (Nat.mod_upper_bound (length m) 64 ltac:(lia)).
  rewrite (take_S_r _ k x) by (apply list_lookup_insert_eq; lia). rewrite take_insert_ge by lia.
  rewrite <- Hk, Hleft, drop_app_le; [done|]. pose proof (Nat.div_mod_eq (length m) 64). lia.
Qed.

Lemma streams_byte m s x : streams m s -> streams (m ++ [x]) (update_byte s x).
Proof.
  intros Hs. pose proof Hs as [Hiv Hbits Hlen Hoff Hleft].
  pose proof (Nat.div_mod_eq (length m) 64) as Hdm. pose proof (Nat.mod_upper_bound (length m) 64 ltac:(lia)) as Hmb.
  set (q := (length m / 64)%nat) in *. set (k := (length m mod 64)%nat) in *.
  pose proof (full_block m s x k Hs eq_refl) as Hfull. fold q in Hfull.
  unfold update_byte. rewrite Hoff, Nat2Z.id, u32_small by lia. unfold TC_SHA256_BLOCK_SIZE.
  destruct (Z.leb_spec 64 (Z.of_nat k + 1)) as [Hge|Hlt].
  - assert (length (m ++ [x]) / 64 = S q /\ length (m ++ [x]) mod 64 = 0)%nat as [Eq Em].
    { rewrite length_app. cbn [length]. split; symmetry; [apply (Nat.div_unique _ _ _ 0)|apply (Nat.mod_unique _ _ (S q))]; lia. }
    assert (length (<[k:=x]> (leftover s)) = 64%nat) as Hl by (by rewrite length_insert).
    split; cbn [iv bits_hashed leftover leftover_offset]; rewrite ?Eq, ?Em.
    + rewrite Hiv, compress_spec by (apply hash_blocks_value, H0_value || done).
      replace (S q) with (q + 1)%nat by lia. rewrite hash_blocks_add, hash_blocks_app by lia. cbn [hash_blocks].
      rewrite <- Hfull. replace (S k) with 64%nat by lia. by rewrite !(take_ge (<[k:=x]> (leftover s))) by lia.
    + rewrite Hbits. change (Z.shiftl 64 3) with 512. unfold u64. rewrite Zplus_mod_idemp_l. f_equal. lia.
    + done.
    + done.
    + rewrite drop_ge; [done|]. rewrite length_app. cbn [length]. lia.
  - assert (length (m ++ [x]) / 64 = q /\ length (m ++ [x]) mod 64 = S k)%nat as [Eq Em].
    { rewrite length_app. cbn [length]. split; symmetry; [apply (Nat.div_unique _ _ _ (S k))|apply (Nat.mod_unique _ _ q)]; lia. }
    split; cbn [iv bits_hashed leftover leftover_offset]; rewrite ?Eq, ?Em; try done.
    + rewrite hash_blocks_app by lia. done.
    + by rewrite length_insert.
    + lia.
Qed.

Lemma streams_bytes l m s : streams m s -> streams (m ++ l) (fold_left update_byte l s).
Proof.
  revert m s. induction l as [|x l IH]; intros m s Hs; cbn [fold_left]; [by rewrite app_nil_r|].
  replace (m ++ x :: l) with ((m ++ [x]) ++ l) by (by rewrite <- app_assoc). by apply IH, streams_byte.
Qed.

(** ** The last blocks *)

(** The eight bytes of the length. *)
Lemma set_length pre t bits : length pre = 56%nat -> length t = 8%nat ->
  <[56%nat := z2b (Z.shiftr bits 56)]> (<[57%nat := z2b (Z.shiftr bits 48)]> (<[58%nat := z2b (Z.shiftr bits 40)]>
  (<[59%nat := z2b (Z.shiftr bits 32)]> (<[60%nat := z2b (Z.shiftr bits 24)]> (<[61%nat := z2b (Z.shiftr bits 16)]>
  (<[62%nat := z2b (Z.shiftr bits 8)]> (<[63%nat := z2b bits]> (pre ++ t)))))))) = pre ++ be_bytes 8 bits.
Proof.
  intros Hp Ht. destruct t as [|t0 [|t1 [|t2 [|t3 [|t4 [|t5 [|t6 [|t7 [|]]]]]]]]]; try done.
  rewrite !insert_app_r_alt by lia. rewrite Hp. f_equal. cbn [be_bytes app].
  rewrite !Z.shiftr_div_pow2, !Z.div_div by lia. reflexivity.
Qed.

Lemma tc_set_zeros pre t off len : zlen pre = off -> 0 <= len -> off + len <= zlen (pre ++ t) ->
  tc_set (pre ++ t) off Byte.x00 len = pre ++ replicate (Z.to_nat len) Byte.x00 ++ drop (Z.to_nat len) t.
Proof.
  intros Hp Hl Ht. rewrite zlen_app in Ht. unfold tc_set, splice, ztake, zdrop.
  rewrite take_app_length' by lia. do 2 f_equal. rewrite length_replicate, drop_app_ge by lia. f_equal. lia.
Qed.

Section finish.
  Context (m : list byte) (s : tc_sha256_state_struct) (Hs : streams m s).

Let q := (length m / 64)%nat.
Let k := (length m mod 64)%nat.
Let bits := u64 (bits_hashed s + u32 (Z.shiftl (leftover_offset s) 3)).
Let rest := drop (64 * q) m.

Lemma finish_sizes : length m = (64 * q + k)%nat /\ (k < 64)%nat /\ length rest = k /\ leftover_offset s = Z.of_nat k.
Proof.
  pose proof (Nat.div_mod_eq (length m) 64). pose proof (Nat.mod_upper_bound (length m) 64 ltac:(lia)).
  split_and!; [done|done|apply drop_blocks_length|apply (st_off _ _ Hs)].
Qed.

Lemma finish_bits : be_bytes 8 bits = be_bytes 8 (8 * zlen m).
Proof.
  destruct finish_sizes as (Hm & Hk & _ & Ho). rewrite <- (be_bytes_mod 8 (8 * _)). f_equal. unfold bits.
  rewrite Ho, (st_bits _ _ Hs), Z.shiftl_mul_pow2, u32_small by lia. unfold u64. rewrite Zplus_mod_idemp_l.
  change (256 ^ Z.of_nat 8) with (2 ^ 64). f_equal. fold q. lia.
Qed.

(** The block with the byte behind the message. *)
Lemma finish_marked : exists t, <[k := Byte.x80]> (leftover s) = (rest ++ [Byte.x80]) ++ t /\ length t = (63 - k)%nat.
Proof.
  destruct finish_sizes as (Hm & Hk & Hr & Ho). exists (drop (S k) (<[k := Byte.x80]> (leftover s))). split.
  - rewrite <- (take_drop (S k) (<[k := Byte.x80]> (leftover s))) at 1. f_equal.
    rewrite (take_S_r _ k Byte.x80) by (apply list_lookup_insert_eq; rewrite (st_len _ _ Hs); lia).
    rewrite take_insert_ge by lia. f_equal. apply (st_left _ _ Hs).
  - rewrite length_drop, length_insert, (st_len _ _ Hs). lia.
Qed.

(** The message with its padding, behind the blocks already hashed. *)
Lemma finish_padded : drop (64 * q) (m ++ padding (zlen m)) = (rest ++ [Byte.x80]) ++
  replicate (Z.to_nat ((55 - Z.of_nat k) mod 64)) Byte.x00 ++ be_bytes 8 bits.
Proof.
  destruct finish_sizes as (Hm & Hk & Hr & Ho). rewrite drop_app_le by lia. fold rest. rewrite finish_bits.
  unfold padding. rewrite <- !app_assoc. do 4 f_equal.
  replace (55 - zlen m) with (55 - Z.of_nat k + (- Z.of_nat q) * 64) by lia. by rewrite Z.mod_add by lia.
Qed.

Lemma sha256_blocks n : length (m ++ padding (zlen m)) = (64 * (q + n))%nat ->
  sha256 m = List.concat (digest_word <$> hash_blocks n (iv s) (drop (64 * q) (m ++ padding (zlen m)))).
Proof.
  intros Hn. destruct finish_sizes as (Hm & Hk & Hr & Ho). unfold sha256. rewrite Hn, Nat.mul_comm, Nat.div_mul by lia.
  rewrite hash_blocks_add, hash_blocks_app by lia. rewrite (st_iv _ _ Hs). fold q. f_equal.
  apply list_fmap_ext. intros _ x _. unfold digest_word. cbn [be_bytes app].
  rewrite !Z.shiftr_div_pow2, !Z.div_div by lia. reflexivity.
Qed.

Lemma length_padded n : (64 * n = k + 1 + Z.to_nat ((55 - Z.of_nat k) mod 64) + 8)%nat ->
  length (m ++ padding (zlen m)) = (64 * (q + n))%nat.
Proof.
  intros Hn. destruct finish_sizes as (Hm & Hk & Hr & Ho). pose proof (f_equal length finish_padded) as E.
  rewrite length_drop, !length_app, length_replicate, length_be_bytes, Hr in E. cbn [length] in E.
  rewrite length_app in *. lia.
Qed.

(** A block filled up to the length. *)
Lemma last_block pre t : length (pre ++ t) = 64%nat -> (length pre <= 56)%nat ->
  let buf := tc_set (pre ++ t) (zlen pre) Byte.x00 (64 - 8 - zlen pre) in
  <[56%nat := z2b (Z.shiftr bits 56)]> (<[57%nat := z2b (Z.shiftr bits 48)]> (<[58%nat := z2b (Z.shiftr bits 40)]>
  (<[59%nat := z2b (Z.shiftr bits 32)]> (<[60%nat := z2b (Z.shiftr bits 24)]> (<[61%nat := z2b (Z.shiftr bits 16)]>
  (<[62%nat := z2b (Z.shiftr bits 8)]> (<[63%nat := z2b bits]> buf))))))) =
  pre ++ replicate (56 - length pre) Byte.x00 ++ be_bytes 8 bits.
Proof.
  intros Hl Hp buf. unfold buf. rewrite length_app in Hl. rewrite tc_set_zeros by (rewrite ?zlen_app; lia). rewrite app_assoc.
  replace (Z.to_nat (64 - 8 - zlen pre)) with (56 - length pre)%nat by lia.
  rewrite set_length by (rewrite ?length_app, ?length_replicate, ?length_drop; lia). by rewrite <- app_assoc.
Qed.

Lemma iv_value : hash_value (iv s).
Proof. rewrite (st_iv _ _ Hs). apply hash_blocks_value, H0_value. Qed.

Lemma sha_finish_spec : sha_finish s = (sha256 m, sha_cleared).
Proof.
  destruct finish_sizes as (Hm & Hk & Hr & Ho). destruct finish_marked as (t & Et & Ht).
  assert (length ((rest ++ [Byte.x80]) ++ t) = 64%nat) as Hl by (rewrite !length_app; cbn [length]; lia).
  assert (zlen (rest ++ [Byte.x80]) = Z.of_nat k + 1) as Hz by (rewrite zlen_app; cbn [length]; lia).
  unfold sha_finish. fold bits. rewrite Ho, Nat2Z.id, Et, u32_small, <- Hz by lia. pose proof iv_value as Hv.
  destruct (Z.ltb_spec (64 - 8) (zlen (rest ++ [Byte.x80]))) as [Hgt|Hle]; cbv beta iota zeta; f_equal.
  - set (b1 := tc_set ((rest ++ [Byte.x80]) ++ t) _ _ _).
    assert (b1 = (rest ++ [Byte.x80]) ++ replicate (63 - k) Byte.x00) as Eb.
    { unfold b1. rewrite tc_set_zeros by lia. rewrite (drop_ge t), app_nil_r by lia. do 2 f_equal. lia. }
    assert (length b1 = 64%nat) as Hb1 by (rewrite Eb, length_app, length_replicate; lia).
    pose proof (last_block [] b1 Hb1 ltac:(cbn; lia)) as E. cbv zeta in E. change (zlen []) with 0 in E.
    rewrite !app_nil_l, Nat.sub_0_r in E. rewrite E. clear E.
    assert (Z.to_nat ((55 - Z.of_nat k) mod 64) = 63 - k + 56)%nat as En.
    { rewrite <- (Z.mod_add _ 1) by lia. rewrite Z.mod_small by lia. lia. }
    rewrite (sha256_blocks 2) by (apply length_padded; lia). rewrite finish_padded, En, replicate_add.
    replace ((rest ++ [Byte.x80]) ++ _ ++ be_bytes 8 bits) with (b1 ++ replicate 56 Byte.x00 ++ be_bytes 8 bits)
      by (by rewrite Eb, <- !app_assoc).
    assert (length (replicate 56 Byte.x00 ++ be_bytes 8 bits) = 64%nat) as Hb2
      by (by rewrite length_app, length_replicate, length_be_bytes).
    generalize dependent (replicate 56 Byte.x00 ++ be_bytes 8 bits). intros b2 Hb2. clearbody b1.
    cbn [hash_blocks]. replace (take 64 (b1 ++ b2)) with b1 by (symmetry; apply take_app_length'; lia).
    replace (drop 64 (b1 ++ b2)) with b2 by (symmetry; apply drop_app_length'; lia). rewrite take_ge by lia.
    rewrite (compress_spec (iv s)) by done. rewrite compress_spec; [done|by apply hash_block_value|done].
  - rewrite last_block by lia. assert (Z.to_nat ((55 - Z.of_nat k) mod 64) = 56 - length (rest ++ [Byte.x80]))%nat as En.
    { rewrite Z.mod_small by lia. lia. }
    rewrite (sha256_blocks 1) by (apply length_padded; lia). rewrite finish_padded, En. cbn [hash_blocks].
    assert (length ((rest ++ [Byte.x80]) ++ replicate (56 - length (rest ++ [Byte.x80])) Byte.x00 ++ be_bytes 8 bits) = 64%nat) as Hb
      by (rewrite length_app, (length_app (replicate _ _)), length_replicate, length_be_bytes; lia).
    rewrite take_ge by lia. by rewrite compress_spec.
Qed.
End finish.

(** ** The interface *)

(** A state set up by [tc_sha256_init], and pieces passed in. *)
Definition hash_pieces (s : tc_sha256_state_struct) (pieces : list (list byte)) : option tc_sha256_state_struct :=
  fold_left (fun s piece => snd (tc_sha256_update s (Some piece))) pieces (snd (tc_sha256_init (Some s))).

Lemma streams_pieces s pieces : exists s', hash_pieces s pieces = Some s' /\ streams (List.concat pieces) s'.
Proof.
  unfold hash_pieces. pose proof (streams_init s) as Hs. rewrite init_standard in *. cbn [snd default] in *.
  rewrite <- (app_nil_l (List.concat pieces)). generalize dependent (@nil byte). generalize (Sha H0 0 (replicate 64 Byte.x00) 0).
  induction pieces as [|p ps IH]; intros s1 m Hs; cbn [fold_left List.concat].
  - exists s1. by rewrite app_nil_r.
  - cbn [tc_sha256_update snd]. rewrite app_assoc. by apply IH, streams_bytes.
Qed.

(** C19: SHA-256: whatever pieces a message is passed in, [tc_sha256_final]
    succeeds, writes the hash FIPS 180-4 defines for the message, its length taken
    modulo 2^64 bits, and wipes the state. *)
Theorem sha256_exact (s : tc_sha256_state_struct) (pieces : list (list byte)) (digest : list byte) :
  tc_sha256_final (Some digest) (hash_pieces s pieces) =
    (TC_CRYPTO_SUCCESS, Some (sha256 (List.concat pieces)), Some sha_cleared).
Proof.
  destruct (streams_pieces s pieces) as (s' & -> & Hs). cbn [tc_sha256_final]. by rewrite (sha_finish_spec _ _ Hs).
Qed.
