(* ===== verification/TcAes.v ===== *)
(** * tinycrypt: AES-128

    [tinycrypt/source/aes_encrypt.c] and [aes_decrypt.c].  A block is a list of
    sixteen bytes, the schedule of a key a list of forty-four words; a pointer that
    may be null is an option.  [add_round_key], which both files define, is one
    definition. *)

From S2P Require Import Prelude TcWords TcSha256.

Definition Nb : nat := 4.
Definition Nk : nat := 4.
Definition Nr : nat := 10.

Definition sbox : list Z :=
  [
    99; 124; 119; 123; 242; 107; 111; 197; 48; 1; 103; 43; 254; 215; 171; 118;
    202; 130; 201; 125; 250; 89; 71; 240; 173; 212; 162; 175; 156; 164; 114; 192;
    183; 253; 147; 38; 54; 63; 247; 204; 52; 165; 229; 241; 113; 216; 49; 21;
    4; 199; 35; 195; 24; 150; 5; 154; 7; 18; 128; 226; 235; 39; 178; 117;
    9; 131; 44; 26; 27; 110; 90; 160; 82; 59; 214; 179; 41; 227; 47; 132;
    83; 209; 0; 237; 32; 252; 177; 91; 106; 203; 190; 57; 74; 76; 88; 207;
    208; 239; 170; 251; 67; 77; 51; 133; 69; 249; 2; 127; 80; 60; 159; 168;
    81; 163; 64; 143; 146; 157; 56; 245; 188; 182; 218; 33; 16; 255; 243; 210;
    205; 12; 19; 236; 95; 151; 68; 23; 196; 167; 126; 61; 100; 93; 25; 115;
    96; 129; 79; 220; 34; 42; 144; 136; 70; 238; 184; 20; 222; 94; 11; 219;
    224; 50; 58; 10; 73; 6; 36; 92; 194; 211; 172; 98; 145; 149; 228; 121;
    231; 200; 55; 109; 141; 213; 78; 169; 108; 86; 244; 234; 101; 122; 174; 8;
    186; 120; 37; 46; 28; 166; 180; 198; 232; 221; 116; 31; 75; 189; 139; 138;
    112; 62; 181; 102; 72; 3; 246; 14; 97; 53; 87; 185; 134; 193; 29; 158;
    225; 248; 152; 17; 105; 217; 142; 148; 155; 30; 135; 233; 206; 85; 40; 223;
    140; 161; 137; 13; 191; 230; 66; 104; 65; 153; 45; 15; 176; 84; 187; 22
  ].

Definition inv_sbox : list Z :=
  [
    82; 9; 106; 213; 48; 54; 165; 56; 191; 64; 163; 158; 129; 243; 215; 251;
    124; 227; 57; 130; 155; 47; 255; 135; 52; 142; 67; 68; 196; 222; 233; 203;
    84; 123; 148; 50; 166; 194; 35; 61; 238; 76; 149; 11; 66; 250; 195; 78;
    8; 46; 161; 102; 40; 217; 36; 178; 118; 91; 162; 73; 109; 139; 209; 37;
    114; 248; 246; 100; 134; 104; 152; 22; 212; 164; 92; 204; 93; 101; 182; 146;
    108; 112; 72; 80; 253; 237; 185; 218; 94; 21; 70; 87; 167; 141; 157; 132;
    144; 216; 171; 0; 140; 188; 211; 10; 247; 228; 88; 5; 184; 179; 69; 6;
    208; 44; 30; 143; 202; 63; 15; 2; 193; 175; 189; 3; 1; 19; 138; 107;
    58; 145; 17; 65; 79; 103; 220; 234; 151; 242; 207; 206; 240; 180; 230; 115;
    150; 172; 116; 34; 231; 173; 53; 133; 226; 249; 55; 232; 28; 117; 223; 110;
    71; 241; 26; 113; 29; 41; 197; 137; 111; 183; 98; 14; 170; 24; 190; 27;
    252; 86; 62; 75; 198; 210; 121; 32; 154; 219; 192; 254; 120; 205; 90; 244;
    31; 221; 168; 51; 136; 7; 199; 49; 177; 18; 16; 89; 39; 128; 236; 95;
    96; 81; 127; 169; 25; 181; 74; 13; 45; 229; 122; 159; 147; 201; 156; 239;
    160; 224; 59; 77; 174; 42; 245; 176; 200; 235; 187; 60; 131; 83; 153; 97;
    23; 43; 4; 126; 186; 119; 214; 38; 225; 105; 20; 99; 85; 33; 12; 125
  ].

(** [_double_byte] of [utils.c]. *)
Definition _double_byte (a : byte) : byte :=
  z2b (Z.lxor (Z.shiftl (b2z a) 1) (Z.shiftr (b2z a) 7 * 0x1b)).

(** [_compare] of [utils.c]: zero when the bytes agree. *)
Fixpoint _compare (a b : list byte) (result : byte) : byte :=
  match a, b with
  | x :: a, y :: b => _compare a b (z2b (Z.lor (b2z result) (b2z (bxor x y))))
  | _, _ => result
  end.

(** ** The schedule of a key *)

Definition rotword (a : Z) : Z := Z.lor (Z.shiftr a 24) (u32 (Z.shiftl a 8)).

Definition subbyte (a o : Z) : Z := u32 (Z.shiftl (sbox !!! Z.to_nat (Z.land (Z.shiftr a o) 0xff)) o).
Definition subword (a : Z) : Z := Z.lor (Z.lor (Z.lor (subbyte a 24) (subbyte a 16)) (subbyte a 8)) (subbyte a 0).

Definition rconst : list Z :=
  [0x00000000; 0x01000000; 0x02000000; 0x04000000; 0x08000000; 0x10000000;
   0x20000000; 0x40000000; 0x80000000; 0x1b000000; 0x36000000].

Definition key_word (k : list byte) (i : nat) : Z :=
  let at_ j := b2z (k !!! (Nb * i + j)%nat) in
  Z.lor (Z.lor (Z.lor (u32 (Z.shiftl (at_ 0%nat) 24)) (Z.shiftl (at_ 1%nat) 16)) (Z.shiftl (at_ 2%nat) 8)) (at_ 3%nat).

Fixpoint key_loop (n i : nat) (words : list Z) : list Z :=
  match n with
  | O => words
  | S n =>
      let t := words !!! (i - 1)%nat in
      let t := if (i mod Nk =? 0)%nat then Z.lxor (subword (rotword t)) (rconst !!! (i / Nk)%nat) else t in
      key_loop n (S i) (<[i := Z.lxor (words !!! (i - Nk)%nat) t]> words)
  end.

(** The structure of the schedule has forty-four words, whatever they were before. *)
Definition tc_aes128_set_encrypt_key (s : option (list Z)) (k : option (list byte)) : Z * option (list Z) :=
  match s, k with
  | Some words, Some k =>
      let words := fold_left (fun ws i => <[i := key_word k i]> ws) (seq 0 Nk) words in
      (TC_CRYPTO_SUCCESS, Some (key_loop (Nb * (Nr + 1) - Nk) Nk words))
  | s, _ => (TC_CRYPTO_FAIL, s)
  end.

Definition tc_aes128_set_decrypt_key (s : option (list Z)) (k : option (list byte)) : Z * option (list Z) :=
  tc_aes128_set_encrypt_key s k.

(** ** The steps of a round *)

(** The bytes of the four words at [k]. *)
Definition round_key (k : list Z) : list byte :=
  List.concat (digest_word <$> [k !!! 0%nat; k !!! 1%nat; k !!! 2%nat; k !!! 3%nat]).

Definition add_round_key (s : list byte) (k : list Z) : list byte := zip_with bxor s (round_key k).

Definition sub_bytes (s : list byte) : list byte := (fun x => z2b (sbox !!! Z.to_nat (b2z x))) <$> s.
Definition inv_sub_bytes (s : list byte) : list byte := (fun x => z2b (inv_sbox !!! Z.to_nat (b2z x))) <$> s.

Definition triple (a : byte) : byte := bxor (_double_byte a) a.

Definition mult_row_column (i0 i1 i2 i3 : byte) : list byte :=
  [ bxor (bxor (bxor (_double_byte i0) (triple i1)) i2) i3;
    bxor (bxor (bxor i0 (_double_byte i1)) (triple i2)) i3;
    bxor (bxor (bxor i0 i1) (_double_byte i2)) (triple i3);
    bxor (bxor (bxor (triple i0) i1) i2) (_double_byte i3) ].

(** The four columns of a block. *)
Definition on_columns (f : byte -> byte -> byte -> byte -> list byte) (s : list byte) : list byte :=
  let at_ i := s !!! i in
  f (at_ 0%nat) (at_ 1%nat) (at_ 2%nat) (at_ 3%nat) ++ f (at_ 4%nat) (at_ 5%nat) (at_ 6%nat) (at_ 7%nat) ++
  f (at_ 8%nat) (at_ 9%nat) (at_ 10%nat) (at_ 11%nat) ++ f (at_ 12%nat) (at_ 13%nat) (at_ 14%nat) (at_ 15%nat).

Definition mix_columns (s : list byte) : list byte := on_columns mult_row_column s.

Definition shift_rows (s : list byte) : list byte :=
  (fun i => s !!! i) <$> [0; 5; 10; 15; 4; 9; 14; 3; 8; 13; 2; 7; 12; 1; 6; 11]%nat.

Definition inv_shift_rows (s : list byte) : list byte :=
  (fun i => s !!! i) <$> [0; 13; 10; 7; 4; 1; 14; 11; 8; 5; 2; 15; 12; 9; 6; 3]%nat.

Definition mult8 (a : byte) : byte := _double_byte (_double_byte (_double_byte a)).
Definition mult9 (a : byte) : byte := bxor (mult8 a) a.
Definition multb (a : byte) : byte := bxor (bxor (mult8 a) (_double_byte a)) a.
Definition multd (a : byte) : byte := bxor (bxor (mult8 a) (_double_byte (_double_byte a))) a.
Definition multe (a : byte) : byte := bxor (bxor (mult8 a) (_double_byte (_double_byte a))) (_double_byte a).

Definition inv_mult_row_column (i0 i1 i2 i3 : byte) : list byte :=
  [ bxor (bxor (bxor (multe i0) (multb i1)) (multd i2)) (mult9 i3);
    bxor (bxor (bxor (mult9 i0) (multe i1)) (multb i2)) (multd i3);
    bxor (bxor (bxor (multd i0) (mult9 i1)) (multe i2)) (multb i3);
    bxor (bxor (bxor (multb i0) (multd i1)) (mult9 i2)) (multe i3) ].

Definition inv_mix_columns (s : list byte) : list byte := on_columns inv_mult_row_column s.

(** ** Encryption and decryption of a block *)

(** [s->words + Nb * i] *)
Definition words_at (words : list Z) (i : nat) : list Z := drop (Nb * i) words.

Fixpoint encrypt_loop (n i : nat) (words : list Z) (state : list byte) : list byte :=
  match n with
  | O => state
  | S n =>
      encrypt_loop n (S i) words
        (add_round_key (mix_columns (shift_rows (sub_bytes state))) (words_at words (i + 1)))
  end.

Definition aes_encrypt_block (words : list Z) (state : list byte) : list byte :=
  let state := add_round_key state words in
  let state := encrypt_loop (Nr - 1) 0 words state in
  add_round_key (shift_rows (sub_bytes state)) (words_at words (Nr - 1 + 1)).

Definition tc_aes_encrypt (out inp : option (list byte)) (s : option (list Z)) : Z * option (list byte) :=
  match out, inp, s with
  | Some _, Some inp, Some words => (TC_CRYPTO_SUCCESS, Some (aes_encrypt_block words (take (Nk * Nb) inp)))
  | out, _, _ => (TC_CRYPTO_FAIL, out)
  end.

(** The loop counts down from [i] to one. *)
Fixpoint decrypt_loop (i : nat) (words : list Z) (state : list byte) : list byte :=
  match i with
  | O => state
  | S i' =>
      decrypt_loop i' words (inv_mix_columns (add_round_key (inv_sub_bytes (inv_shift_rows state)) (words_at words i)))
  end.

Definition aes_decrypt_block (words : list Z) (state : list byte) : list byte :=
  let state := add_round_key state (words_at words Nr) in
  let state := decrypt_loop (Nr - 1) words state in
  add_round_key (inv_sub_bytes (inv_shift_rows state)) words.

Definition tc_aes_decrypt (out inp : option (list byte)) (s : option (list Z)) : Z * option (list byte) :=
  match out, inp, s with
  | Some _, Some inp, Some words => (TC_CRYPTO_SUCCESS, Some (aes_decrypt_block words (take (Nk * Nb) inp)))
  | out, _, _ => (TC_CRYPTO_FAIL, out)
  end.
