(* ===== verification/TcAesSpec.v ===== *)
(** * tinycrypt: AES is the cipher of FIPS 197, and decryption inverts encryption

    The standard's cipher over the field of 256 elements: the substitution is the
    inverse followed by an affine map, the columns are multiplied by a matrix, the
    constants of the key expansion are powers of [x].  The tables and the doubling
    of the source are that field; decryption undoes every step for any schedule. *)

From S2P Require Import Prelude TcWords TcSha256 TcAes.

(** ** The standard *)

Module FIPS197.

(** Products of polynomials over two elements, modulo x^8 + x^4 + x^3 + x + 1. *)
Definition poly_mul (a b : Z) : Z :=
  fold_left (fun r i => if Z.testbit b i then Z.lxor r (Z.shiftl a i) else r) (seqZ 0 8) 0.

Definition reduce (x : Z) : Z :=
  fold_left (fun r i => if Z.testbit r i then Z.lxor r (Z.shiftl 0x11b (i - 8)) else r) [14; 13; 12; 11; 10; 9; 8] x.

Definition gf_mul (a b : byte) : byte := z2b (reduce (poly_mul (b2z a) (b2z b))).

Fixpoint gf_pow (a : byte) (n : positive) : byte :=
  match n with
  | xH => a
  | xO n => let p := gf_pow a n in gf_mul p p
  | xI n => let p := gf_pow a n in gf_mul a (gf_mul p p)
  end.

(** The inverse; zero for zero. *)
Definition gf_inv (a : byte) : byte := gf_pow a 254.

Definition affine (x : byte) : byte :=
  let bit i := Z.testbit (b2z x) (i mod 8) in
  z2b (fold_left (fun r i =>
    r + 2 ^ i * Z.b2z (xorb (xorb (xorb (xorb (xorb (bit i) (bit (i + 4))) (bit (i + 5))) (bit (i + 6))) (bit (i + 7)))
                         (Z.testbit 0x63 i))) (seqZ 0 8) 0).

Definition SBox (x : byte) : byte := affine (gf_inv x).

(** Row [r] and column [c] of the state are byte [4 * c + r]. *)
Definition SubBytes (s : list byte) : list byte := SBox <$> s.

Definition ShiftRows (s : list byte) : list byte :=
  (fun i => s !!! (4 * ((i / 4 + i mod 4) mod 4) + i mod 4)%nat) <$> seq 0 16.

Definition coefficient (i : nat) : byte := nth i [Byte.x02; Byte.x03; Byte.x01; Byte.x01] Byte.x00.

Definition MixColumns (s : list byte) : list byte :=
  (fun i => let term j := gf_mul (coefficient ((j + 4 - i mod 4) mod 4)) (s !!! (4 * (i / 4) + j)%nat) in
            bxor (bxor (bxor (term 0%nat) (term 1%nat)) (term 2%nat)) (term 3%nat)) <$> seq 0 16.

(** Words of the schedule are four bytes. *)
Definition RotWord (w : list byte) : list byte := drop 1 w ++ take 1 w.
Definition Rcon (j : nat) : list byte := [Nat.iter (j - 1) (gf_mul Byte.x02) Byte.x01; Byte.x00; Byte.x00; Byte.x00].

Definition next_key_word (w : list (list byte)) : list byte :=
  let i := length w in
  let temp := w !!! (i - 1)%nat in
  let temp := if (i mod 4 =? 0)%nat then zip_with bxor (SBox <$> RotWord temp) (Rcon (i / 4)) else temp in
  zip_with bxor (w !!! (i - 4)%nat) temp.

Definition key_words (k : list byte) : list (list byte) := (fun i => take 4 (drop (4 * i) k)) <$> seq 0 4.

Definition KeyExpansion (k : list byte) : list (list byte) := grow next_key_word 40 (key_words k).

Definition AddRoundKey (w : list (list byte)) (round : nat) (s : list byte) : list byte :=
  zip_with bxor s (List.concat (take 4 (drop (4 * round) w))).

Definition Cipher (k s : list byte) : list byte :=
  let w := KeyExpansion k in
  let s := AddRoundKey w 0 s in
  let s := fold_left (fun s round => AddRoundKey w round (MixColumns (ShiftRows (SubBytes s)))) (seq 1 9) s in
  AddRoundKey w 10 (ShiftRows (SubBytes s)).
End FIPS197.
Import FIPS197.

(** The power is the inverse. *)
Lemma gf_inv_inverts x : x <> Byte.x00 -> gf_mul x (gf_inv x) = Byte.x01.
Proof.
  intros Hx. assert (forallb (fun x => bool_decide (x = Byte.x00) || bool_decide (gf_mul x (gf_inv x) = Byte.x01)) all_bytes = true)
    as H by (vm_compute; reflexivity). apply (byte_all _) with (x := x) in H.
  apply orb_true_iff in H as [H|H]; apply bool_decide_eq_true_1 in H; done.
Qed.

(** ** The tables and the doubling *)

Lemma sbox_standard x : z2b (sbox !!! Z.to_nat (b2z x)) = SBox x.
Proof. apply (byte_eq_all (fun x => z2b (sbox !!! Z.to_nat (b2z x))) SBox). vm_compute. reflexivity. Qed.

Lemma inv_sbox_inverts x : z2b (inv_sbox !!! Z.to_nat (b2z (z2b (sbox !!! Z.to_nat (b2z x))))) = x.
Proof.
  apply (byte_eq_all (fun x => z2b (inv_sbox !!! Z.to_nat (b2z (z2b (sbox !!! Z.to_nat (b2z x)))))) (fun x => x)).
  vm_compute. reflexivity.
Qed.

Lemma double_standard x : _double_byte x = gf_mul Byte.x02 x.
Proof. apply (byte_eq_all _double_byte (gf_mul Byte.x02)). vm_compute. reflexivity. Qed.

Lemma triple_standard x : triple x = gf_mul Byte.x03 x.
Proof. apply (byte_eq_all triple (gf_mul Byte.x03)). vm_compute. reflexivity. Qed.

Lemma gf_mul_1 x : gf_mul Byte.x01 x = x.
Proof. apply (byte_eq_all (gf_mul Byte.x01) (fun x => x)). vm_compute. reflexivity. Qed.

(** ** Encryption and decryption *)

Definition additive (f : byte -> byte) : Prop := forall x y, f (bxor x y) = bxor (f x) (f y).

Lemma double_additive : additive _double_byte.
Proof.
  intros x y. unfold _double_byte. rewrite <- z2b_lxor, bxor_val, Z.shiftl_lxor, Z.shiftr_lxor. f_equal.
  assert (forall z, Z.shiftr (b2z z) 7 = 0 \/ Z.shiftr (b2z z) 7 = 1) as Hb.
  { intros z. rewrite Z.shiftr_div_pow2 by lia. pose proof (b2z_bound z). change (2 ^ 7) with 128.
    assert (0 <= b2z z / 128 < 2) by (split; [apply Z.div_pos|apply Z.div_lt_upper_bound]; lia). lia. }
  assert (Z.lxor (Z.shiftr (b2z x) 7) (Z.shiftr (b2z y) 7) * 0x1b =
    Z.lxor (Z.shiftr (b2z x) 7 * 0x1b) (Z.shiftr (b2z y) 7 * 0x1b)) as ->
    by (destruct (Hb x) as [-> | ->], (Hb y) as [-> | ->]; reflexivity).
  rewrite !Z.lxor_assoc. f_equal. rewrite <- !Z.lxor_assoc. f_equal. apply Z.lxor_comm.
Qed.

Lemma additive_id : additive (fun x => x).
Proof. done. Qed.

Lemma additive_comp f g : additive f -> additive g -> additive (fun x => f (g x)).
Proof. intros Hf Hg x y. by rewrite Hg, Hf. Qed.

Lemma additive_xor f g : additive f -> additive g -> additive (fun x => bxor (f x) (g x)).
Proof. intros Hf Hg x y. cbv beta. by rewrite Hf, Hg, bxor_swap. Qed.

#[local] Hint Resolve double_additive additive_id additive_comp additive_xor : additive.

Lemma mult8_additive : additive mult8.
Proof. apply (additive_comp _double_byte (fun x => _double_byte (_double_byte x))); auto with additive. Qed.
#[local] Hint Resolve mult8_additive : additive.

Lemma mult9_additive : additive mult9.
Proof. apply (additive_xor mult8 (fun x => x)); auto with additive. Qed.

Lemma multb_additive : additive multb.
Proof. apply (additive_xor (fun x => bxor (mult8 x) (_double_byte x)) (fun x => x)); auto with additive. Qed.

Lemma multd_additive : additive multd.
Proof.
  apply (additive_xor (fun x => bxor (mult8 x) (_double_byte (_double_byte x))) (fun x => x)); auto with additive.
Qed.

Lemma multe_additive : additive multe.
Proof. apply (additive_xor (fun x => bxor (mult8 x) (_double_byte (_double_byte x))) _double_byte); auto with additive. Qed.

Lemma additive4 f a b c d : additive f ->
  f (bxor (bxor (bxor a b) c) d) = bxor (bxor (bxor (f a) (f b)) (f c)) (f d).
Proof. intros H. by rewrite !H. Qed.

Lemma bxor_add4 a0 b0 c0 d0 a1 b1 c1 d1 :
  bxor (bxor (bxor (bxor a0 b0) c0) d0) (bxor (bxor (bxor a1 b1) c1) d1) =
  bxor (bxor (bxor (bxor a0 a1) (bxor b0 b1)) (bxor c0 c1)) (bxor d0 d1).
Proof. rewrite bxor_swap, (bxor_swap (bxor a0 b0)), (bxor_swap a0). done. Qed.

Lemma bxor_transpose a0 b0 c0 d0 a1 b1 c1 d1 a2 b2 c2 d2 a3 b3 c3 d3 :
  bxor (bxor (bxor (bxor (bxor (bxor a0 b0) c0) d0) (bxor (bxor (bxor a1 b1) c1) d1)) (bxor (bxor (bxor a2 b2) c2) d2))
    (bxor (bxor (bxor a3 b3) c3) d3) =
  bxor (bxor (bxor (bxor (bxor (bxor a0 a1) a2) a3) (bxor (bxor (bxor b0 b1) b2) b3)) (bxor (bxor (bxor c0 c1) c2) c3))
    (bxor (bxor (bxor d0 d1) d2) d3).
Proof.
  rewrite (bxor_add4 a0 b0 c0 d0), (bxor_add4 (bxor a0 a1)), (bxor_add4 (bxor (bxor a0 a1) a2)). done.
Qed.

(** One row of the inverse matrix applied to a column of the matrix. *)
Definition row (f0 f1 f2 f3 g0 g1 g2 g3 : byte -> byte) (x : byte) : byte :=
  bxor (bxor (bxor (f0 (g0 x)) (f1 (g1 x))) (f2 (g2 x))) (f3 (g3 x)).

Definition zero_or_id (r : byte -> byte) (id : bool) : bool :=
  forallb (fun x => bool_decide (r x = if id then x else Byte.x00)) all_bytes.

Definition keep (x : byte) : byte := x.

Lemma row_product f0 f1 f2 f3 (i j k l : bool) a b c d :
  additive f0 -> additive f1 -> additive f2 -> additive f3 ->
  zero_or_id (row f0 f1 f2 f3 _double_byte keep keep triple) i = true ->
  zero_or_id (row f0 f1 f2 f3 triple _double_byte keep keep) j = true ->
  zero_or_id (row f0 f1 f2 f3 keep triple _double_byte keep) k = true ->
  zero_or_id (row f0 f1 f2 f3 keep keep triple _double_byte) l = true ->
  bxor (bxor (bxor (f0 (bxor (bxor (bxor (_double_byte a) (triple b)) c) d)) (f1 (bxor (bxor (bxor a (_double_byte b)) (triple c)) d)))
    (f2 (bxor (bxor (bxor a b) (_double_byte c)) (triple d)))) (f3 (bxor (bxor (bxor (triple a) b) c) (_double_byte d))) =
  bxor (bxor (bxor (if i then a else Byte.x00) (if j then b else Byte.x00)) (if k then c else Byte.x00)) (if l then d else Byte.x00).
Proof.
  intros H0 H1 H2 H3 Hi Hj Hk Hl. rewrite (additive4 f0), (additive4 f1), (additive4 f2), (additive4 f3) by done.
  rewrite bxor_transpose.
  assert (forall r m x, zero_or_id r m = true -> r x = if m then x else Byte.x00) as Hz.
  { intros r m x Hr. by apply (byte_eq_all r (fun x => if m then x else Byte.x00)). }
  rewrite <- (Hz _ _ a Hi), <- (Hz _ _ b Hj), <- (Hz _ _ c Hk), <- (Hz _ _ d Hl). unfold row, keep. reflexivity.
Qed.

Lemma inv_column_inverts a b c d :
  match mult_row_column a b c d with
  | [o0; o1; o2; o3] => inv_mult_row_column o0 o1 o2 o3 = [a; b; c; d]
  | _ => False
  end.
Proof.
  unfold mult_row_column, inv_mult_row_column. f_equal; [|f_equal; [|f_equal; [|f_equal]]].
  - rewrite (row_product multe multb multd mult9 true false false false _ _ _ _ multe_additive multb_additive multd_additive mult9_additive) by (vm_compute; reflexivity).
    by rewrite !bxor_0_r.
  - rewrite (row_product mult9 multe multb multd false true false false _ _ _ _ mult9_additive multe_additive multb_additive multd_additive) by (vm_compute; reflexivity).
    by rewrite !bxor_0_r, bxor_comm, bxor_0_r.
  - rewrite (row_product multd mult9 multe multb false false true false _ _ _ _ multd_additive mult9_additive multe_additive multb_additive) by (vm_compute; reflexivity).
    by rewrite !bxor_0_r, bxor_comm, bxor_0_r.
  - rewrite (row_product multb multd mult9 multe false false false true _ _ _ _ multb_additive multd_additive mult9_additive multe_additive) by (vm_compute; reflexivity).
    by rewrite !bxor_0_r, bxor_comm, bxor_0_r.
Qed.

(** ** The steps undo each other *)

Lemma block_eta (s : list byte) : length s = 16%nat -> (fun i => s !!! i) <$> seq 0 16 = s.
Proof.
  intros Hs. apply (list_eq_same_length _ _ 16); [done|by rewrite length_fmap, length_seq|]. intros i x y Hi Hx Hy.
  apply list_lookup_total_correct in Hy. subst y. rewrite list_lookup_fmap, lookup_seq_lt in Hx by done.
  by injection Hx as <-.
Qed.

Lemma inv_shift_shift s : length s = 16%nat -> inv_shift_rows (shift_rows s) = s.
Proof. intros Hs. rewrite <- (block_eta s Hs) at 2. reflexivity. Qed.

Lemma inv_sub_sub s : inv_sub_bytes (sub_bytes s) = s.
Proof.
  unfold inv_sub_bytes, sub_bytes. rewrite <- list_fmap_compose. rewrite <- (list_fmap_id s) at 2.
  apply list_fmap_ext. intros _ x _. apply inv_sbox_inverts.
Qed.

Lemma inv_mix_mix s : length s = 16%nat -> inv_mix_columns (mix_columns s) = s.
Proof.
  intros Hs. rewrite <- (block_eta s Hs) at 2. cbn [seq fmap list_fmap].
  pose proof (fun i j k l => inv_column_inverts (s !!! i) (s !!! j) (s !!! k) (s !!! l)) as H.
  unfold inv_mix_columns, mix_columns, on_columns. cbn [mult_row_column] in *.
  pose proof (H 0 1 2 3)%nat as H1. pose proof (H 4 5 6 7)%nat as H2. pose proof (H 8 9 10 11)%nat as H3.
  pose proof (H 12 13 14 15)%nat as H4. cbv zeta. unfold mult_row_column in *.
  cbn [app lookup_total list_lookup_total]. rewrite H1, H2, H3, H4. reflexivity.
Qed.

Lemma length_round_key k : length (round_key k) = 16%nat.
Proof. reflexivity. Qed.

Lemma length_add_round_key s k : length s = 16%nat -> length (add_round_key s k) = 16%nat.
Proof. intros Hs. unfold add_round_key. by rewrite length_zip_with, Hs, length_round_key. Qed.

Lemma add_round_key_twice s k : length s = 16%nat -> add_round_key (add_round_key s k) k = s.
Proof.
  intros Hs. unfold add_round_key. pose proof (length_round_key k) as Hk. revert Hk. generalize (round_key k).
  assert (forall l r : list byte, length l = length r -> zip_with bxor (zip_with bxor l r) r = l) as H.
  { induction l as [|x l IH]; intros [|y r]; cbn; try done. intros E. by rewrite bxor_inv, IH by lia. }
  intros r Hr. apply H. lia.
Qed.

Lemma length_sub_bytes s : length (sub_bytes s) = length s.
Proof. apply length_fmap. Qed.

Lemma length_shift_rows s : length (shift_rows s) = 16%nat.
Proof. reflexivity. Qed.

Lemma length_mix_columns s : length (mix_columns s) = 16%nat.
Proof. reflexivity. Qed.

#[local] Opaque add_round_key mix_columns inv_mix_columns shift_rows inv_shift_rows sub_bytes inv_sub_bytes words_at.

Create HintDb block_length.
#[local] Hint Resolve length_shift_rows length_mix_columns length_add_round_key : block_length.

Ltac block_length := rewrite ?length_sub_bytes; auto with block_length.

Lemma encrypt_loop_S n i w s : encrypt_loop (S n) i w s =
  encrypt_loop n (S i) w (add_round_key (mix_columns (shift_rows (sub_bytes s))) (words_at w (i + 1))).
Proof. reflexivity. Qed.

Lemma decrypt_loop_S n w s : decrypt_loop (S n) w s =
  decrypt_loop n w (inv_mix_columns (add_round_key (inv_sub_bytes (inv_shift_rows s)) (words_at w (S n)))).
Proof. reflexivity. Qed.

Lemma length_encrypt_loop n i w s : length s = 16%nat -> length (encrypt_loop n i w s) = 16%nat.
Proof.
  revert i s. induction n as [|n IH]; intros i s Hs; [exact Hs|]. rewrite encrypt_loop_S. apply IH. block_length.
Qed.

Lemma encrypt_loop_last n i w s : encrypt_loop (S n) i w s =
  add_round_key (mix_columns (shift_rows (sub_bytes (encrypt_loop n i w s)))) (words_at w (i + n + 1)).
Proof.
  revert i s. induction n as [|n IH]; intros i s.
  - rewrite encrypt_loop_S, Nat.add_0_r. reflexivity.
  - rewrite encrypt_loop_S, IH, <- encrypt_loop_S. by replace (S i + n + 1)%nat with (i + S n + 1)%nat by lia.
Qed.

Lemma inv_round_key_inverts w n s : length s = 16%nat ->
  inv_mix_columns (add_round_key (inv_sub_bytes (inv_shift_rows (shift_rows (sub_bytes
    (add_round_key (mix_columns s) (words_at w n)))))) (words_at w n)) = s.
Proof.
  intros Hs. rewrite inv_shift_shift by block_length. rewrite inv_sub_sub, add_round_key_twice by block_length.
  by apply inv_mix_mix.
Qed.

Lemma decrypt_loop_inverts n w s : decrypt_loop n w (shift_rows (sub_bytes (encrypt_loop n 0 w s))) = shift_rows (sub_bytes s).
Proof.
  induction n as [|n IH]; [reflexivity|]. rewrite encrypt_loop_last, decrypt_loop_S.
  replace (0 + n + 1)%nat with (S n) by lia. rewrite inv_round_key_inverts by block_length. exact IH.
Qed.

Lemma decrypt_encrypt_block w s : length s = 16%nat -> aes_decrypt_block w (aes_encrypt_block w s) = s.
Proof.
  intros Hs. unfold aes_decrypt_block, aes_encrypt_block. cbv zeta. change (Nr - 1 + 1)%nat with Nr.
  rewrite add_round_key_twice, decrypt_loop_inverts by block_length.
  rewrite inv_shift_shift by block_length. rewrite inv_sub_sub. by apply add_round_key_twice.
Qed.

Lemma length_encrypt_block w s : length (aes_encrypt_block w s) = 16%nat.
Proof. apply length_add_round_key, length_shift_rows. Qed.

(** Decryption gives back every block that was encrypted with the same schedule. *)
Lemma aes_round_trip (w : list Z) (block out out' : list byte) : length block = 16%nat ->
  exists c, tc_aes_encrypt (Some out) (Some block) (Some w) = (TC_CRYPTO_SUCCESS, Some c) /\
    tc_aes_decrypt (Some out') (Some c) (Some w) = (TC_CRYPTO_SUCCESS, Some block).
Proof.
  intros Hb. exists (aes_encrypt_block w block). unfold tc_aes_encrypt, tc_aes_decrypt.
  rewrite (take_ge block) by (rewrite Hb; reflexivity). split; [reflexivity|].
  rewrite take_ge by (rewrite length_encrypt_block; reflexivity).
  by rewrite decrypt_encrypt_block.
Qed.

(** ** Encryption is the standard's cipher *)

#[local] Transparent mix_columns shift_rows sub_bytes add_round_key words_at.

Lemma sub_bytes_standard s : sub_bytes s = SubBytes s.
Proof. apply list_fmap_ext. intros _ x _. apply sbox_standard. Qed.

Lemma shift_rows_standard s : shift_rows s = ShiftRows s.
Proof. reflexivity. Qed.

(** The matrix, for any product that doubles, triples and keeps. *)
Lemma mix_columns_matrix (mul : byte -> byte -> byte) s :
  (forall x, _double_byte x = mul Byte.x02 x) -> (forall x, triple x = mul Byte.x03 x) -> (forall x, mul Byte.x01 x = x) ->
  mix_columns s = (fun i => let term j := mul (coefficient ((j + 4 - i mod 4) mod 4)) (s !!! (4 * (i / 4) + j)%nat) in
                            bxor (bxor (bxor (term 0%nat) (term 1%nat)) (term 2%nat)) (term 3%nat)) <$> seq 0 16.
Proof.
  intros H2 H3 H1. unfold mix_columns, on_columns, mult_row_column. rewrite !H2, !H3.
  cbv -[bxor lookup_total list_lookup_total]. rewrite !H1. reflexivity.
Qed.

Lemma mix_columns_standard s : mix_columns s = MixColumns s.
Proof. exact (mix_columns_matrix gf_mul s double_standard triple_standard gf_mul_1). Qed.

(** ** The schedule of a key *)

Lemma be4 a b c d : be [a; b; c; d] = ((b2z a * 2 ^ 8 + b2z b) * 2 ^ 8 + b2z c) * 2 ^ 8 + b2z d.
Proof. unfold be. cbn [fold_left]. lia. Qed.

Lemma z2b_be x d : z2b (x * 2 ^ 8 + b2z d) = d.
Proof. rewrite <- z2b_mod, Z.add_comm, Z.mod_add by lia. rewrite Z.mod_small by apply b2z_bound. apply z2b_b2z. Qed.

Lemma div_be x d : (x * 2 ^ 8 + b2z d) / 2 ^ 8 = x.
Proof. rewrite Z.div_add_l, Z.div_small by (lia || apply b2z_bound). lia. Qed.

Lemma word_bytes a b c d : digest_word (be [a; b; c; d]) = [a; b; c; d].
Proof.
  unfold digest_word. rewrite be4, !Z.shiftr_div_pow2 by lia.
  change (2 ^ 24) with (2 ^ 8 * (2 ^ 8 * 2 ^ 8)). change (2 ^ 16) with (2 ^ 8 * 2 ^ 8).
  rewrite <- !Z.div_div by lia. by rewrite !div_be, !z2b_be, z2b_b2z.
Qed.

Lemma be_lxor a b c d a' b' c' d' :
  Z.lxor (be [a; b; c; d]) (be [a'; b'; c'; d']) = be (zip_with bxor [a; b; c; d] [a'; b'; c'; d']).
Proof. cbn [zip_with]. rewrite !be4, !lxor_parts by (lia || apply b2z_bound). by rewrite !bxor_val. Qed.

(** A word put together from bytes in place. *)
Lemma lor_bytes a b c d :
  Z.lor (Z.lor (Z.lor (Z.shiftl (b2z a) 24) (Z.shiftl (b2z b) 16)) (Z.shiftl (b2z c) 8)) (b2z d) = be [a; b; c; d].
Proof.
  pose proof (b2z_bound a); pose proof (b2z_bound b); pose proof (b2z_bound c); pose proof (b2z_bound d).
  rewrite be4, (Z.shiftl_mul_pow2 (b2z b)), (Z.shiftl_mul_pow2 (b2z c)) by lia. rewrite lor_parts by lia.
  replace (b2z a * 2 ^ 24 + b2z b * 2 ^ 16) with (Z.shiftl (b2z a * 2 ^ 8 + b2z b) 16) by (rewrite Z.shiftl_mul_pow2; lia).
  rewrite lor_parts by lia.
  replace ((b2z a * 2 ^ 8 + b2z b) * 2 ^ 16 + b2z c * 2 ^ 8)
    with (Z.shiftl ((b2z a * 2 ^ 8 + b2z b) * 2 ^ 8 + b2z c) 8) by (rewrite Z.shiftl_mul_pow2; lia).
  by rewrite lor_parts by lia.
Qed.

Lemma u32_byte x n : 0 <= n <= 24 -> u32 (Z.shiftl (b2z x) n) = Z.shiftl (b2z x) n.
Proof.
  intros Hn. apply u32_small. rewrite Z.shiftl_mul_pow2 by lia. pose proof (b2z_bound x).
  assert (2 ^ n <= 2 ^ 24) by (apply Z.pow_le_mono_r; lia). assert (0 < 2 ^ n) by lia. nia.
Qed.

Lemma rotword_be a b c d : rotword (be [a; b; c; d]) = be [b; c; d; a].
Proof.
  unfold rotword. pose proof (b2z_bound a); pose proof (b2z_bound b); pose proof (b2z_bound c); pose proof (b2z_bound d).
  replace (u32 (Z.shiftl (be [a; b; c; d]) 8)) with ((((b2z b * 2 ^ 8) + b2z c) * 2 ^ 8 + b2z d) * 2 ^ 8).
  - replace (Z.shiftr (be [a; b; c; d]) 24) with (b2z a).
    + rewrite lor_low by lia. rewrite be4. lia.
    + rewrite Z.shiftr_div_pow2, be4 by lia. change (2 ^ 24) with (2 ^ 8 * (2 ^ 8 * 2 ^ 8)).
      rewrite <- !Z.div_div by lia. by rewrite !div_be.
  - rewrite Z.shiftl_mul_pow2, be4 by lia. unfold u32. apply (Z.mod_unique _ _ (b2z a)); lia.
Qed.

Lemma subbyte_be (w o : Z) b : 0 <= o <= 24 -> Z.land (Z.shiftr w o) 0xff = b2z b -> subbyte w o = Z.shiftl (b2z (SBox b)) o.
Proof.
  intros Ho E. unfold subbyte. rewrite E. rewrite <- sbox_standard.
  assert (b2z (z2b (sbox !!! Z.to_nat (b2z b))) = sbox !!! Z.to_nat (b2z b)) as Es.
  { apply b2z_z2b. apply (Forall_lookup_total_1 (fun x => 0 <= x < 2 ^ 8)).
    - apply (bool_decide_unpack _). vm_compute. exact I.
    - pose proof (b2z_bound b). change (length sbox) with 256%nat. lia. }
  rewrite <- Es at 1. by apply u32_byte.
Qed.

Lemma land_byte x d : Z.land (x * 2 ^ 8 + b2z d) 0xff = b2z d.
Proof.
  change 0xff with (Z.ones 8). rewrite Z.land_ones, Z.add_comm, Z.mod_add by lia. apply Z.mod_small, b2z_bound.
Qed.

Lemma subword_be a b c d : subword (be [a; b; c; d]) = be (SBox <$> [a; b; c; d]).
Proof.
  unfold subword. rewrite (subbyte_be _ 24 a), (subbyte_be _ 16 b), (subbyte_be _ 8 c), (subbyte_be _ 0 d).
  - rewrite Z.shiftl_0_r. apply lor_bytes.
  - lia.
  - by rewrite Z.shiftr_0_r, be4, land_byte.
  - lia.
  - by rewrite Z.shiftr_div_pow2, be4, div_be, land_byte by lia.
  - lia.
  - rewrite Z.shiftr_div_pow2, be4 by lia. change (2 ^ 16) with (2 ^ 8 * 2 ^ 8). rewrite <- Z.div_div by lia.
    by rewrite !div_be, land_byte.
  - lia.
  - rewrite Z.shiftr_div_pow2, be4 by lia. change (2 ^ 24) with (2 ^ 8 * (2 ^ 8 * 2 ^ 8)). rewrite <- !Z.div_div by lia.
    rewrite !div_be. by apply (land_byte 0).
Qed.

Lemma rconst_be j : (1 <= j <= 10)%nat -> rconst !!! j = be (Rcon j).
Proof.
  intros Hj. do 11 (destruct j as [|j]; [try lia; vm_compute; reflexivity|]). lia.
Qed.

(** A word of four bytes. *)
Lemma word4 (w : list byte) : length w = 4%nat -> exists a b c d, w = [a; b; c; d].
Proof. destruct w as [|a [|b [|c [|d [|]]]]]; try done. by exists a, b, c, d. Qed.

Lemma length_key_xor (w v : list byte) : length w = 4%nat -> length v = 4%nat -> length (zip_with bxor w v) = 4%nat.
Proof. intros Hw Hv. rewrite length_zip_with. lia. Qed.

Lemma be_lxor4 w v : length w = 4%nat -> length v = 4%nat -> Z.lxor (be w) (be v) = be (zip_with bxor w v).
Proof.
  intros Hw Hv. destruct (word4 w Hw) as (a & b & c & d & ->). destruct (word4 v Hv) as (a' & b' & c' & d' & ->).
  apply be_lxor.
Qed.

Lemma take4_drop {A} `{Inhabited A} (l : list A) n : (n + 4 <= length l)%nat ->
  take 4 (drop n l) = [l !!! (n + 0)%nat; l !!! (n + 1)%nat; l !!! (n + 2)%nat; l !!! (n + 3)%nat].
Proof.
  intros Hn. assert (forall t, (t < length l)%nat -> drop t l = (l !!! t) :: drop (S t) l) as Hd.
  { intros t Ht. by apply drop_S, list_lookup_lookup_total_lt. }
  rewrite (Hd n), (Hd (S n)), (Hd (S (S n))), (Hd (S (S (S n)))) by lia. cbn [take]. rewrite take_0.
  by rewrite !Nat.add_succ_r, Nat.add_0_r.
Qed.

Section expansion.
  Context (k : list byte) (Hk : length k = 16%nat).

Let W := KeyExpansion k.

Lemma expansion_grows : W = grow next_key_word 40 (key_words k).
Proof. reflexivity. Qed.

Lemma length_expansion : length W = 44%nat.
Proof. rewrite expansion_grows, length_grow. reflexivity. Qed.

Lemma expansion_first t : (t < 4)%nat -> W !!! t = take 4 (drop (4 * t) k).
Proof.
  intros Ht. rewrite expansion_grows, grow_prefix by (by cbn). unfold key_words.
  apply list_lookup_total_correct. by rewrite list_lookup_fmap, lookup_seq_lt.
Qed.

Lemma expansion_next t : (4 <= t < 44)%nat -> W !!! t =
  zip_with bxor (W !!! (t - 4)%nat)
    (if (t mod 4 =? 0)%nat then zip_with bxor (SBox <$> RotWord (W !!! (t - 1)%nat)) (Rcon (t / 4)) else W !!! (t - 1)%nat).
Proof.
  intros Ht. rewrite expansion_grows at 1. rewrite grow_next by (cbn; lia). rewrite <- expansion_grows. unfold next_key_word.
  rewrite length_take, length_expansion, Nat.min_l, !lookup_total_take_lt by lia. done.
Qed.

Lemma expansion_word t : (t < 44)%nat -> length (W !!! t) = 4%nat.
Proof.
  induction t as [t IH] using lt_wf_ind. intros Ht. destruct (decide (t < 4)%nat).
  - rewrite expansion_first, length_take, length_drop by done. lia.
  - rewrite expansion_next by lia. apply length_key_xor; [apply IH; lia|].
    destruct (t mod 4 =? 0)%nat; [|apply IH; lia]. apply length_key_xor; [|done]. unfold RotWord.
    rewrite length_fmap, length_app, length_drop, length_take, IH by lia. done.
Qed.

Lemma key_word_be i : (i < 4)%nat -> key_word k i = be (W !!! i).
Proof.
  intros Hi. rewrite expansion_first by done.
  rewrite take4_drop by lia.
  rewrite <- lor_bytes. unfold key_word, Nb. by rewrite u32_byte.
Qed.

(** The first [i] words are there. *)
Definition expanded (i : nat) (ws : list Z) : Prop :=
  length ws = 44%nat /\ forall t, (t < i)%nat -> ws !!! t = be (W !!! t).

Lemma expanded_step i ws x : expanded i ws -> (i < 44)%nat -> x = be (W !!! i) -> expanded (S i) (<[i := x]> ws).
Proof.
  intros [Hl Hw] Hi ->. split; [by rewrite length_insert|]. intros t Ht. destruct (decide (t = i)) as [->|].
  - apply list_lookup_total_insert_eq. lia.
  - rewrite list_lookup_total_insert_ne by done. apply Hw. lia.
Qed.

Lemma key_loop_expands n i ws : (i + n = 44)%nat -> (4 <= i)%nat -> expanded i ws -> expanded 44 (key_loop n i ws).
Proof.
  revert i ws. induction n as [|n IH]; intros i ws Hn Hi Hw; cbn [key_loop]; [by replace 44%nat with i by lia|].
  apply IH; [lia..|]. apply expanded_step; [done|lia|]. destruct Hw as [Hl Hw]. unfold Nk.
  rewrite !Hw, (expansion_next i) by lia. pose proof (expansion_word (i - 1) ltac:(lia)) as H1.
  pose proof (expansion_word (i - 4) ltac:(lia)) as H4. destruct (word4 _ H1) as (a & b & c & d & E1). rewrite E1 in *.
  destruct (i mod 4 =? 0)%nat; [|by rewrite be_lxor4].
  rewrite rotword_be, subword_be, rconst_be, !be_lxor4; try done.
  pose proof (Nat.div_mod_eq i 4). pose proof (Nat.mod_upper_bound i 4 ltac:(lia)). lia.
Qed.

Lemma set_key_expands ws : length ws = 44%nat -> exists ws',
  tc_aes128_set_encrypt_key (Some ws) (Some k) = (TC_CRYPTO_SUCCESS, Some ws') /\ expanded 44 ws'.
Proof.
  intros Hl. eexists. split; [reflexivity|]. apply key_loop_expands; [done|unfold Nk; lia|].
  cbn [Nk seq fold_left]. repeat apply expanded_step; try lia; try (apply key_word_be; lia). split; [done|lia].
Qed.

(** The key of a round. *)
Lemma round_key_standard ws r s : expanded 44 ws -> (r <= 10)%nat -> add_round_key s (words_at ws r) = AddRoundKey W r s.
Proof.
  intros [Hl Hw] Hr. unfold add_round_key, AddRoundKey, words_at, round_key, Nb. do 2 f_equal.
  rewrite !lookup_total_drop, !Hw by lia.
  rewrite take4_drop by (rewrite length_expansion; lia).
  cbn [fmap list_fmap List.concat].
  assert (forall t, (t < 44)%nat -> digest_word (be (W !!! t)) = W !!! t) as Hd.
  { intros t Ht. destruct (word4 _ (expansion_word t Ht)) as (a & b & c & d & ->). apply word_bytes. }
  by rewrite !Hd by lia.
Qed.
End expansion.

#[local] Opaque KeyExpansion MixColumns ShiftRows SubBytes AddRoundKey add_round_key mix_columns shift_rows sub_bytes words_at.

Lemma encrypt_loop_standard k ws n i s : length k = 16%nat -> expanded k 44 ws -> (i + n <= 9)%nat ->
  encrypt_loop n i ws s =
    fold_left (fun s r => AddRoundKey (KeyExpansion k) r (MixColumns (ShiftRows (SubBytes s)))) (seq (i + 1) n) s.
Proof.
  intros Hk Hw. revert i s. induction n as [|n IH]; intros i s Hi; [reflexivity|].
  rewrite encrypt_loop_S, IH, (round_key_standard k Hk) by (done || lia). cbn [seq fold_left].
  rewrite sub_bytes_standard, shift_rows_standard, mix_columns_standard. by rewrite !Nat.add_1_r.
Qed.

Lemma encrypt_block_standard k ws s : length k = 16%nat -> expanded k 44 ws -> aes_encrypt_block ws s = Cipher k s.
Proof.
  intros Hk Hw. unfold aes_encrypt_block, Cipher. rewrite (encrypt_loop_standard k) by (done || (unfold Nr; lia)).
  assert (add_round_key s ws = AddRoundKey (KeyExpansion k) 0 s) as -> by (apply (round_key_standard k Hk ws 0); [exact Hw|lia]).
  rewrite (round_key_standard k Hk) by (done || (unfold Nr; lia)).
  rewrite sub_bytes_standard, shift_rows_standard. reflexivity.
Qed.

(** C23: AES-128: with the schedule of a key, [tc_aes_encrypt] is the cipher FIPS 197
    defines, and [tc_aes_decrypt] gives the block back. *)
Theorem aes128_exact (k : list byte) (words : list Z) (out out' : list byte) : length k = 16%nat -> length words = 44%nat ->
  exists w, tc_aes128_set_encrypt_key (Some words) (Some k) = (TC_CRYPTO_SUCCESS, Some w) /\
    forall block, length block = 16%nat ->
      tc_aes_encrypt (Some out) (Some block) (Some w) = (TC_CRYPTO_SUCCESS, Some (Cipher k block)) /\
      tc_aes_decrypt (Some out') (Some (Cipher k block)) (Some w) = (TC_CRYPTO_SUCCESS, Some block).
Proof.
  intros Hk Hl. destruct (set_key_expands k Hk words Hl) as (w & E & Hw). exists w. split; [exact E|]. intros block Hb.
  destruct (aes_round_trip w block out out' Hb) as (c & Ec & Ed).
  assert (tc_aes_encrypt (Some out) (Some block) (Some w) = (TC_CRYPTO_SUCCESS, Some (Cipher k block))) as E'.
  { unfold tc_aes_encrypt. rewrite (take_ge block) by (rewrite Hb; reflexivity).
    rewrite (encrypt_block_standard k w block Hk Hw). reflexivity. }
  split; [exact E'|]. rewrite E' in Ec. injection Ec as <-. exact Ed.
Qed.

Definition test_key : list byte := replicate 16 Byte.x2b.

Lemma aes128_exact_witness : exists w, tc_aes128_set_encrypt_key (Some (replicate 44 7)) (Some test_key) = (TC_CRYPTO_SUCCESS, Some w) /\
  forall block, length block = 16%nat ->
    tc_aes_encrypt (Some []) (Some block) (Some w) = (TC_CRYPTO_SUCCESS, Some (Cipher test_key block)) /\
    tc_aes_decrypt (Some []) (Some (Cipher test_key block)) (Some w) = (TC_CRYPTO_SUCCESS, Some block).
Proof. apply (aes128_exact test_key (replicate 44 7) [] []); reflexivity. Defined.
