(* ===== verification/TcPrng.v ===== *)
(** * tinycrypt: the random number generator

    [tinycrypt/source/ctr_prng.c].  The context is the structure of the source; a
    pointer that may be null is an option.  The loops that fill a buffer block by
    block have fuel for one byte per round, and every round adds at least one. *)

From S2P Require Import Prelude TcWords TcSha256 TcAes.

Definition TC_AES_BLOCK_SIZE : Z := 16.
Definition TC_AES_KEY_SIZE : Z := 16.
Definition SEED_SIZE : Z := TC_AES_KEY_SIZE + TC_AES_BLOCK_SIZE.
Definition TC_CTR_PRNG_RESEED_REQ : Z := -1.
Definition MAX_REQS_BEFORE_RESEED : Z := 0x1000000000000.
Definition MAX_BYTES_PER_REQ : Z := 65536.

Record TCCtrPrng := Ctx { ctr_V : list byte; ctr_key : list Z; reseedCount : Z }.

(** The loop of [arrInc] with [i] bytes left. *)
Fixpoint inc_loop (i : nat) (arr : list byte) : list byte :=
  match i with
  | O => arr
  | S j =>
      let x := z2b (b2z (arr !!! j) + 1) in
      let arr := <[j := x]> arr in
      if negb (b2z x =? 0) then arr else inc_loop j arr
  end.

Definition arrInc (arr : list byte) : list byte := inc_loop (length arr) arr.

(** The next block of the stream: the counter goes up and is encrypted. *)
Definition output_block (ctx : TCCtrPrng) : list byte * TCCtrPrng :=
  let V := arrInc (ctr_V ctx) in
  let '(_, out) := tc_aes_encrypt (Some (replicate 16 Byte.x00)) (Some V) (Some (ctr_key ctx)) in
  (default [] out, Ctx V (ctr_key ctx) (reseedCount ctx)).

(** [while (len < outlen)]: the bytes written so far, and the context. *)
Fixpoint stream_loop (fuel : nat) (outlen : Z) (out : list byte) (ctx : TCCtrPrng) : list byte * TCCtrPrng :=
  match fuel with
  | O => (out, ctx)
  | S fuel =>
      if zlen out <? outlen then
        let blocklen := outlen - zlen out in
        let '(block, ctx) := output_block ctx in
        let blocklen := if TC_AES_BLOCK_SIZE <? blocklen then TC_AES_BLOCK_SIZE else blocklen in
        stream_loop fuel outlen (out ++ ztake blocklen block) ctx
      else (out, ctx)
  end.

Definition fill_stream (outlen : Z) (ctx : TCCtrPrng) : list byte * TCCtrPrng :=
  stream_loop (Z.to_nat outlen) outlen [] ctx.

Definition tc_ctr_prng_update (ctx : TCCtrPrng) (providedData : option (list byte)) : TCCtrPrng :=
  let '(temp, ctx) := fill_stream SEED_SIZE ctx in
  let temp := match providedData with
              | Some data => zip_with bxor temp (ztake SEED_SIZE data)
              | None => temp
              end in
  let '(_, key) := tc_aes128_set_encrypt_key (Some (ctr_key ctx)) (Some temp) in
  Ctx (slice TC_AES_KEY_SIZE TC_AES_BLOCK_SIZE temp) (default [] key) (reseedCount ctx).

(** An optional input cut or padded to the size of a seed; [len] is its length. *)
Definition input_buf (input : option (list byte)) (len : Z) : list byte :=
  match input with
  | Some bs => splice 0 (ztake (if SEED_SIZE <? len then SEED_SIZE else len) bs) (replicate 32 Byte.x00)
  | None => replicate 32 Byte.x00
  end.

Definition tc_ctr_prng_init (ctx : option TCCtrPrng) (entropy : option (list byte)) (entropyLen : Z)
    (personalization : option (list byte)) (pLen : Z) : Z * option TCCtrPrng :=
  let personalization_buf := input_buf personalization pLen in
  match ctx, entropy with
  | Some c, Some e =>
      if SEED_SIZE <=? entropyLen then
        let seed_material := zip_with bxor (ztake SEED_SIZE e) personalization_buf in
        let '(_, key) := tc_aes128_set_encrypt_key (Some (ctr_key c)) (Some (replicate 16 Byte.x00)) in
        let c := tc_ctr_prng_update (Ctx (replicate 16 Byte.x00) (default [] key) (reseedCount c)) (Some seed_material) in
        (TC_CRYPTO_SUCCESS, Some (Ctx (ctr_V c) (ctr_key c) 1))
      else (TC_CRYPTO_FAIL, ctx)
  | _, _ => (TC_CRYPTO_FAIL, ctx)
  end.

(** [entropy] is not checked here. *)
Definition tc_ctr_prng_reseed (ctx : option TCCtrPrng) (entropy : list byte) (entropyLen : Z)
    (additional_input : option (list byte)) (additionallen : Z) : Z * option TCCtrPrng :=
  let additional_input_buf := input_buf additional_input additionallen in
  match ctx with
  | Some c =>
      if SEED_SIZE <=? entropyLen then
        let seed_material := zip_with bxor (ztake SEED_SIZE entropy) additional_input_buf in
        let c := tc_ctr_prng_update c (Some seed_material) in
        (TC_CRYPTO_SUCCESS, Some (Ctx (ctr_V c) (ctr_key c) 1))
      else (TC_CRYPTO_FAIL, ctx)
  | None => (TC_CRYPTO_FAIL, None)
  end.

(** The code, the buffer if it was written, and the context. *)
Definition tc_ctr_prng_generate (ctx : option TCCtrPrng) (additional_input : option (list byte)) (additionallen : Z)
    (out : option (list byte)) (outlen : Z) : Z * option (list byte) * option TCCtrPrng :=
  match ctx, out with
  | Some c, Some _ =>
      if outlen <? MAX_BYTES_PER_REQ then
        if MAX_REQS_BEFORE_RESEED <? reseedCount c then (TC_CTR_PRNG_RESEED_REQ, out, ctx)
        else
          let additional_input_buf := input_buf additional_input additionallen in
          let c := match additional_input with
                   | Some _ => tc_ctr_prng_update c (Some additional_input_buf)
                   | None => c
                   end in
          let '(bytes, c) := fill_stream outlen c in
          let c := tc_ctr_prng_update c (Some additional_input_buf) in
          (TC_CRYPTO_SUCCESS, Some bytes, Some (Ctx (ctr_V c) (ctr_key c) (u64 (reseedCount c + 1))))
      else (TC_CRYPTO_FAIL, out, ctx)
  | _, _ => (TC_CRYPTO_FAIL, out, ctx)
  end.

Definition tc_ctr_prng_uninstantiate (ctx : option TCCtrPrng) : option TCCtrPrng :=
  match ctx with
  | Some _ => Some (Ctx (replicate 16 Byte.x00) (replicate 44 0) 0)
  | None => None
  end.
