(* ===== verification/TcPrngSpec.v ===== *)
(** * tinycrypt: the generator is the CTR_DRBG of SP 800-90A

    The standard's generator has a key and a 128-bit counter and no derivation
    function.  The context of the source is that state, and every sequence of
    requests after an initialisation returns the codes and the bytes of the
    standard. *)

From S2P Require Import Prelude TcWords TcSha256 TcAes TcAesSpec TcPrng.

(** ** The standard *)

Module SP800_90A.

Record drbg := Drbg { Key : list byte; V : Z; reseed_counter : Z }.

Definition Block_Encrypt (key : list byte) (v : Z) : list byte := FIPS197.Cipher key (be_bytes 16 v).

(** [n] blocks of the stream behind the counter [v]. *)
Fixpoint stream (n : nat) (key : list byte) (v : Z) : list byte :=
  match n with
  | O => []
  | S n => Block_Encrypt key ((v + 1) mod 2 ^ 128) ++ stream n key (v + 1)
  end.

Definition Update (provided : list byte) (d : drbg) : drbg :=
  let temp := zip_with bxor (stream 2 (Key d) (V d)) provided in
  Drbg (take 16 temp) (be (drop 16 temp)) (reseed_counter d).

(** An input padded with zeros to the length of a seed. *)
Definition padded (input : list byte) : list byte := take 32 (input ++ replicate 32 Byte.x00).

Definition Instantiate (entropy personalization : list byte) : drbg :=
  let d := Update (zip_with bxor entropy (padded personalization)) (Drbg (replicate 16 Byte.x00) 0 0) in
  Drbg (Key d) (V d) 1.

Definition Reseed (entropy additional : list byte) (d : drbg) : drbg :=
  let d := Update (zip_with bxor entropy (padded additional)) d in
  Drbg (Key d) (V d) 1.

(** Blocks that hold [n] bytes. *)
Definition blocks (n : nat) : nat := (n + 15) / 16.

(** The bytes, or [None] when the generator must be reseeded first. *)
Definition Generate (n : nat) (additional : option (list byte)) (d : drbg) : option (list byte) * drbg :=
  if 2 ^ 48 <? reseed_counter d then (None, d)
  else
    let d := match additional with Some a => Update (padded a) d | None => d end in
    let out := take n (stream (blocks n) (Key d) (V d)) in
    let d := Drbg (Key d) ((V d + Z.of_nat (blocks n)) mod 2 ^ 128) (reseed_counter d) in
    let d := Update (padded (default [] additional)) d in
    (Some out, Drbg (Key d) (V d) (reseed_counter d + 1)).
End SP800_90A.
Import SP800_90A.

(** ** The counter *)

Lemma inc_loop_be n v rest : inc_loop n (be_bytes n v ++ rest) = be_bytes n (v + 1) ++ rest.
Proof.
  revert v rest. induction n as [|n IH]; intros v rest; cbn [inc_loop be_bytes]; [done|].
  rewrite <- !app_assoc. cbn [app]. assert (length (be_bytes n (v / 256)) = n) as Hl by apply length_be_bytes.
  rewrite lookup_total_app_r by lia. rewrite Hl, Nat.sub_diag. cbn [lookup_total list_lookup_total].
  rewrite (b2z_z2b_mod v), insert_app_r_alt by lia. rewrite Hl, Nat.sub_diag. cbn [insert list_insert].
  assert (z2b (v mod 256 + 1) = z2b (v + 1)) as -> by (rewrite <- z2b_mod, Zplus_mod_idemp_l; apply z2b_mod).
  pose proof (Z.mod_pos_bound v 256 ltac:(lia)). pose proof (Z.div_mod v 256 ltac:(lia)).
  rewrite b2z_z2b_mod. destruct (Z.eqb_spec ((v + 1) mod 256) 0) as [E|E]; cbn [negb].
  - rewrite IH. do 2 f_equal. pose proof (Z.div_mod (v + 1) 256 ltac:(lia)). lia.
  - do 2 f_equal. apply (Z.div_unique _ _ _ (v mod 256 + 1)); [|lia]. left.
    destruct (decide (v mod 256 = 255)) as [E'|]; [|lia]. exfalso. apply E.
    rewrite <- Zplus_mod_idemp_l, E'. reflexivity.
Qed.

Lemma arrInc_be v : arrInc (be_bytes 16 v) = be_bytes 16 (v + 1).
Proof. unfold arrInc. rewrite length_be_bytes, <- (app_nil_r (be_bytes 16 v)), inc_loop_be. apply app_nil_r. Qed.

Lemma be_bytes_wrap v : be_bytes 16 (v mod 2 ^ 128) = be_bytes 16 v.
Proof. exact (be_bytes_mod 16 v). Qed.

(** ** The stream *)

(** The context is a state of the standard's generator. *)
Record generator (c : TCCtrPrng) (d : drbg) : Prop := {
  ge_key : expanded (Key d) 44 (ctr_key c);
  ge_len : length (Key d) = 16%nat;
  ge_V : ctr_V c = be_bytes 16 (V d);
  ge_count : reseedCount c = reseed_counter d;
}.

Lemma make_generator k ws v bs n : expanded k 44 ws -> length k = 16%nat -> bs = be_bytes 16 v ->
  generator (Ctx bs ws n) (Drbg k v n).
Proof. intros Hk Hl HV. split; [exact Hk|exact Hl|exact HV|reflexivity]. Qed.

Definition at_counter (d : drbg) (v : Z) : drbg := Drbg (Key d) v (reseed_counter d).

#[local] Opaque FIPS197.Cipher aes_encrypt_block FIPS197.KeyExpansion tc_aes128_set_encrypt_key.

Lemma output_block_standard c d : generator c d ->
  exists c', output_block c = (Block_Encrypt (Key d) ((V d + 1) mod 2 ^ 128), c') /\
    generator c' (at_counter d (V d + 1)) /\ length (Block_Encrypt (Key d) ((V d + 1) mod 2 ^ 128)) = 16%nat.
Proof.
  intros [Hk Hl HV Hc]. unfold output_block, Block_Encrypt. rewrite HV, arrInc_be, be_bytes_wrap.
  unfold tc_aes_encrypt. rewrite take_ge by (rewrite length_be_bytes; reflexivity). cbn [default].
  rewrite (encrypt_block_standard (Key d)) by done. eexists. split_and!; [reflexivity|by split|].
  rewrite <- (encrypt_block_standard (Key d) (ctr_key c)) by done. apply length_encrypt_block.
Qed.

Lemma blocks_more n : (16 < n)%nat -> blocks n = S (blocks (n - 16)).
Proof.
  intros Hn. unfold blocks. replace (n + 15)%nat with (1 * 16 + (n - 16 + 15))%nat by lia. by rewrite Nat.div_add_l by lia.
Qed.

Lemma blocks_one n : (0 < n <= 16)%nat -> blocks n = 1%nat.
Proof. intros Hn. unfold blocks. symmetry. apply (Nat.div_unique _ _ _ (n - 1)); lia. Qed.

Lemma at_counter_twice d v w : at_counter (at_counter d v) w = at_counter d w.
Proof. done. Qed.

Lemma stream_loop_standard fuel outlen out c d r : generator c d -> zlen out + Z.of_nat r = outlen -> (r <= fuel)%nat ->
  exists c', stream_loop fuel outlen out c = (out ++ take r (stream (blocks r) (Key d) (V d)), c') /\
    generator c' (at_counter d (V d + Z.of_nat (blocks r))).
Proof.
  revert out c d r. induction fuel as [|fuel IH]; intros out c d r Hg Hr Hf; cbn [stream_loop].
  { assert (r = 0)%nat as -> by lia. exists c. rewrite take_0, app_nil_r. split; [done|]. cbn [blocks].
    change (Z.of_nat (blocks 0)) with 0. rewrite Z.add_0_r. by destruct Hg; split. }
  destruct (Z.ltb_spec (zlen out) outlen) as [Hlt|Hge].
  2:{ assert (r = 0)%nat as -> by lia. exists c. rewrite take_0, app_nil_r. split; [done|].
      change (Z.of_nat (blocks 0)) with 0. rewrite Z.add_0_r. by destruct Hg; split. }
  destruct (output_block_standard c d Hg) as (c1 & E & Hg1 & Hlen). rewrite E.
  replace (outlen - zlen out) with (Z.of_nat r) by lia. unfold TC_AES_BLOCK_SIZE.
  set (b := Block_Encrypt (Key d) ((V d + 1) mod 2 ^ 128)) in *.
  destruct (decide (r <= 16)%nat) as [Hs|Hb].
  - replace (if 16 <? Z.of_nat r then 16 else Z.of_nat r) with (Z.of_nat r) by (destruct (Z.ltb_spec 16 (Z.of_nat r)); lia).
    unfold ztake. rewrite Nat2Z.id.
    destruct (IH (out ++ take r b) c1 _ 0%nat Hg1) as (c2 & E2 & Hg2); [rewrite length_app, length_take; lia|lia|].
    exists c2. rewrite E2, take_0, app_nil_r, (blocks_one r) by lia. split.
    + cbn [stream]. fold b. by rewrite take_app_le by lia.
    + change (blocks 0) with 0%nat in Hg2. rewrite at_counter_twice in Hg2. cbn [V at_counter] in Hg2.
      by replace (V d + Z.of_nat 1) with (V d + 1 + Z.of_nat 0) by lia.
  - replace (if 16 <? Z.of_nat r then 16 else Z.of_nat r) with 16 by (destruct (Z.ltb_spec 16 (Z.of_nat r)); lia).
    unfold ztake. change (Z.to_nat 16) with 16%nat. rewrite (take_ge b) by lia.
    destruct (IH (out ++ b) c1 _ (r - 16)%nat Hg1) as (c2 & E2 & Hg2); [rewrite length_app; lia|lia|].
    exists c2. rewrite E2, (blocks_more r) by lia. rewrite at_counter_twice in Hg2. cbn [V Key at_counter] in *. split.
    + cbn [stream]. fold b. rewrite take_app_ge by lia. by rewrite Hlen, <- app_assoc.
    + by replace (V d + Z.of_nat (S (blocks (r - 16)))) with (V d + 1 + Z.of_nat (blocks (r - 16))) by lia.
Qed.

Lemma fill_stream_standard n c d : generator c d ->
  exists c', fill_stream (Z.of_nat n) c = (take n (stream (blocks n) (Key d) (V d)), c') /\
    generator c' (at_counter d (V d + Z.of_nat (blocks n))).
Proof.
  intros Hg. unfold fill_stream. rewrite Nat2Z.id.
  destruct (stream_loop_standard n (Z.of_nat n) [] c d n Hg) as (c' & E & Hg'); [done|done|]. by exists c'.
Qed.

Lemma length_stream c d n : generator c d -> length (stream n (Key d) (V d)) = (16 * n)%nat.
Proof.
  intros Hg. assert (forall key v, expanded key 44 (ctr_key c) -> length key = 16%nat -> length (stream n key v) = (16 * n)%nat) as H;
    [|apply H; apply Hg].
  induction n as [|n IH]; intros key v Hk Hl; cbn [stream]; [done|]. rewrite length_app, IH by done. unfold Block_Encrypt.
  rewrite <- (encrypt_block_standard key (ctr_key c)), length_encrypt_block by done. lia.
Qed.

(** ** The operations *)

Lemma length_zip_bxor (l k : list byte) n : length l = n -> length k = n -> length (zip_with bxor l k) = n.
Proof. intros Hl Hk. rewrite length_zip_with. lia. Qed.

(** A new schedule depends on the first sixteen bytes. *)
Lemma set_key_take ws k : (16 <= length k)%nat ->
  tc_aes128_set_encrypt_key (Some ws) (Some k) = tc_aes128_set_encrypt_key (Some ws) (Some (take 16 k)).
Proof.
  intros Hk. #[local] Transparent tc_aes128_set_encrypt_key. unfold tc_aes128_set_encrypt_key. cbn [Nk seq fold_left].
  assert (forall i, (i < 4)%nat -> key_word k i = key_word (take 16 k) i) as H.
  { intros i Hi. unfold key_word, Nb. by rewrite !lookup_total_take_lt by lia. }
  by rewrite !H by lia.
Qed.

#[local] Opaque tc_aes128_set_encrypt_key.

(** The state a temporary of 32 bytes becomes. *)
Lemma generator_from ws temp n : length ws = 44%nat -> length temp = 32%nat ->
  exists key, tc_aes128_set_encrypt_key (Some ws) (Some temp) = (TC_CRYPTO_SUCCESS, Some key) /\
    generator (Ctx (slice TC_AES_KEY_SIZE TC_AES_BLOCK_SIZE temp) key n) (Drbg (take 16 temp) (be (drop 16 temp)) n).
Proof.
  intros Hw Ht. assert (length (take 16 temp) = 16%nat) as Hl by (rewrite length_take; lia).
  destruct (set_key_expands (take 16 temp) Hl ws Hw) as (key & E & Hk). exists key.
  rewrite set_key_take by lia. split; [exact E|]. apply (make_generator _ _ _ _ _ Hk Hl).
  assert (length (drop 16 temp) = 16%nat) as Hd by (rewrite length_drop; lia).
  replace (be_bytes 16 (be (drop 16 temp))) with (drop 16 temp) by (rewrite <- (be_bytes_be (drop 16 temp)) at 1; by rewrite Hd).
  unfold slice, ztake, zdrop. change (Z.to_nat TC_AES_KEY_SIZE) with 16%nat.
  change (Z.to_nat TC_AES_BLOCK_SIZE) with 16%nat. by apply take_ge; rewrite Hd.
Qed.

Lemma update_standard c d provided : generator c d -> length provided = 32%nat ->
  generator (tc_ctr_prng_update c (Some provided)) (Update provided d).
Proof.
  intros Hg Hp. unfold tc_ctr_prng_update, Update. change SEED_SIZE with (Z.of_nat 32).
  destruct (fill_stream_standard 32 c d Hg) as (c' & E & Hg'). rewrite E. clear E.
  change (blocks 32) with 2%nat in *. pose proof (length_stream c d 2 Hg) as Hs. rewrite (take_ge (stream 2 _ _)) by lia.
  unfold ztake. rewrite Nat2Z.id, (take_ge provided) by lia. set (temp := zip_with bxor _ _).
  assert (length temp = 32%nat) as Ht by (by apply length_zip_bxor).
  destruct Hg' as [Hk' Hl' HV' Hc']. cbn [Key V reseed_counter at_counter] in *.
  destruct (generator_from (ctr_key c') temp (reseedCount c')) as (key & -> & Hnew); [apply Hk'|done|].
  cbn [default]. by rewrite Hc' in *.
Qed.

Lemma counted c d n : generator c d ->
  generator (Ctx (ctr_V c) (ctr_key c) n) (Drbg (Key d) (V d) n).
Proof. intros [Hk Hl HV Hc]. exact (make_generator _ _ _ _ _ Hk Hl HV). Qed.

Lemma input_buf_padded input : input_buf input (zlen (default [] input)) = padded (default [] input).
Proof.
  unfold input_buf, padded. destruct input as [bs|]; [|reflexivity]. change (default [] (Some bs)) with bs.
  assert ((if SEED_SIZE <? zlen bs then SEED_SIZE else zlen bs) = Z.of_nat (32 `min` length bs)) as ->.
  { change SEED_SIZE with 32. destruct (Z.ltb_spec 32 (zlen bs)); lia. }
  unfold splice, ztake, zdrop. rewrite Nat2Z.id. change (Z.to_nat 0) with 0%nat. rewrite take_0, app_nil_l.
  rewrite take_app, take_replicate, drop_replicate, length_take. f_equal; [|f_equal; lia].
  destruct (decide (32 <= length bs)%nat); [by rewrite Nat.min_l by lia|]. rewrite Nat.min_r by lia. by rewrite !take_ge by lia.
Qed.

Lemma length_padded_input input : length (padded input) = 32%nat.
Proof. unfold padded. rewrite length_take, length_app, length_replicate. lia. Qed.

(** ** Requests *)

Inductive prng_request :=
  | ReqReseed (entropy : list byte) (additional : option (list byte))
  | ReqGenerate (n : nat) (additional : option (list byte)) (buf : list byte).

(** The code of a request, the buffer behind it, and the context. *)
Definition serve_request (c : option TCCtrPrng) (r : prng_request) : Z * option (list byte) * option TCCtrPrng :=
  match r with
  | ReqReseed e a => let '(res, c) := tc_ctr_prng_reseed c e (zlen e) a (zlen (default [] a)) in (res, None, c)
  | ReqGenerate n a buf => tc_ctr_prng_generate c a (zlen (default [] a)) (Some buf) (Z.of_nat n)
  end.

Fixpoint serve_requests (c : option TCCtrPrng) (rs : list prng_request) : list (Z * option (list byte)) :=
  match rs with
  | [] => []
  | r :: rs => let '(res, out, c) := serve_request c r in (res, out) :: serve_requests c rs
  end.

(** What the standard's generator answers. *)
Definition drbg_request (d : drbg) (r : prng_request) : Z * option (list byte) * drbg :=
  match r with
  | ReqReseed e a =>
      if (32 <=? length e)%nat then (TC_CRYPTO_SUCCESS, None, Reseed (take 32 e) (default [] a) d) else (TC_CRYPTO_FAIL, None, d)
  | ReqGenerate n a buf =>
      if Z.of_nat n <? 65536
      then match Generate n a d with
           | (Some out, d) => (TC_CRYPTO_SUCCESS, Some out, d)
           | (None, d) => (TC_CTR_PRNG_RESEED_REQ, Some buf, d)
           end
      else (TC_CRYPTO_FAIL, Some buf, d)
  end.

Fixpoint drbg_requests (d : drbg) (rs : list prng_request) : list (Z * option (list byte)) :=
  match rs with
  | [] => []
  | r :: rs => let '(res, out, d) := drbg_request d r in (res, out) :: drbg_requests d rs
  end.

Lemma reseed_standard c d e a : generator c d -> (32 <= length e)%nat ->
  generator (tc_ctr_prng_update c (Some (zip_with bxor (ztake SEED_SIZE e) (input_buf a (zlen (default [] a))))))
    (Update (zip_with bxor (take 32 e) (padded (default [] a))) d).
Proof.
  intros Hg He. rewrite input_buf_padded. change (ztake SEED_SIZE e) with (take 32 e). apply update_standard; [done|].
  apply length_zip_bxor; [rewrite length_take; lia|apply length_padded_input].
Qed.

Lemma wrap_counter c d : generator c d -> generator c (Drbg (Key d) (V d mod 2 ^ 128) (reseed_counter d)).
Proof.
  intros [Hk Hl HV Hc]. split; [exact Hk|exact Hl| |exact Hc]. cbn [V]. by rewrite be_bytes_wrap.
Qed.

(** The counter of the requests of a generator that was seeded. *)
Definition counts (d : drbg) : Prop := 0 <= reseed_counter d <= 2 ^ 48 + 1.

Lemma serve_standard c d r : generator c d -> counts d -> exists c' d',
  serve_request (Some c) r = (fst (drbg_request d r), Some c') /\ snd (drbg_request d r) = d' /\ generator c' d' /\ counts d'.
Proof.
  intros Hg Hb. pose proof (ge_count _ _ Hg) as Hc. unfold counts in *. destruct r as [e a|n a buf]; cbn [serve_request drbg_request].
  - unfold tc_ctr_prng_reseed. destruct (Nat.leb_spec 32 (length e)) as [He|He].
    + rewrite (proj2 (Z.leb_le _ _)) by (change SEED_SIZE with 32; lia). do 2 eexists. split_and!; [reflexivity..| |cbn; lia|cbn; lia].
      apply counted. by apply reseed_standard.
    + rewrite (proj2 (Z.leb_gt _ _)) by (change SEED_SIZE with 32; lia). exists c, d. split_and!; (reflexivity || exact Hg || lia).
  - unfold tc_ctr_prng_generate, Generate. change MAX_BYTES_PER_REQ with 65536. change MAX_REQS_BEFORE_RESEED with (2 ^ 48).
    destruct (Z.of_nat n <? 65536); [|exists c, d; split_and!; (reflexivity || exact Hg || lia)]. rewrite Hc.
    destruct (Z.ltb_spec (2 ^ 48) (reseed_counter d)) as [Hgt|Hle]; [exists c, d; split_and!; (reflexivity || exact Hg || lia)|].
    rewrite input_buf_padded.
    set (c0 := match a with Some _ => _ | None => c end). set (d0 := match a with Some _ => _ | None => d end).
    assert (generator c0 d0) as Hg0.
    { unfold c0, d0. destruct a as [a|]; [|exact Hg]. apply update_standard; [exact Hg|apply length_padded_input]. }
    assert (reseed_counter d0 = reseed_counter d) as Hn by (unfold d0; by destruct a). clearbody c0 d0.
    destruct (fill_stream_standard n c0 d0 Hg0) as (c1 & E & Hg1). rewrite E.
    apply wrap_counter in Hg1. cbn [Key V reseed_counter at_counter] in Hg1.
    pose proof (update_standard _ _ (padded (default [] a)) Hg1 (length_padded_input _)) as Hg2.
    pose proof (ge_count _ _ Hg2) as Hc2. cbn [Update reseed_counter] in Hc2. rewrite Hn in *.
    do 2 eexists. split_and!; [reflexivity..| |cbn; lia|cbn; lia]. rewrite Hc2. unfold u64. rewrite Z.mod_small by lia.
    apply (counted _ _ (reseed_counter d + 1)) in Hg2. exact Hg2.
Qed.

Lemma serve_requests_standard c d rs : generator c d -> counts d -> serve_requests (Some c) rs = drbg_requests d rs.
Proof.
  revert c d. induction rs as [|r rs IH]; intros c d Hg Hd; [done|]. cbn [serve_requests drbg_requests].
  destruct (serve_standard c d r Hg Hd) as (c' & d' & E & Ed & Hg' & Hd'). rewrite E.
  destruct (drbg_request d r) as [[res out] d1]. cbn [fst snd] in *. subst d1. f_equal. by apply IH.
Qed.

Lemma prng_init_standard c e p : length (ctr_key c) = 44%nat -> (32 <= length e)%nat -> exists c',
  tc_ctr_prng_init (Some c) (Some e) (zlen e) p (zlen (default [] p)) = (TC_CRYPTO_SUCCESS, Some c') /\
  generator c' (Instantiate (take 32 e) (default [] p)).
Proof.
  intros Hw He. unfold tc_ctr_prng_init. rewrite (proj2 (Z.leb_le _ _)) by (change SEED_SIZE with 32; lia).
  destruct (set_key_expands (replicate 16 Byte.x00) eq_refl (ctr_key c) Hw) as (key & E & Hk). rewrite E. cbn [default].
  assert (generator (Ctx (replicate 16 Byte.x00) key (reseedCount c)) (Drbg (replicate 16 Byte.x00) 0 (reseedCount c))) as Hg
    by (exact (make_generator _ _ 0 (replicate 16 Byte.x00) _ Hk eq_refl eq_refl)).
  eexists. split; [reflexivity|]. apply (reseed_standard _ _ e p) in Hg; [|done].
  apply (counted _ _ 1) in Hg. exact Hg.
Qed.

(** C24: The random number generator: once it is initialised with at least 32 bytes of
    entropy, every sequence of requests gets the codes and the bytes of the
    CTR_DRBG of SP 800-90A over the cipher of FIPS 197. *)
Theorem ctr_prng_refines (c : TCCtrPrng) (entropy : list byte) (personalization : option (list byte)) (rs : list prng_request) :
  length (ctr_key c) = 44%nat -> (32 <= length entropy)%nat ->
  exists c', tc_ctr_prng_init (Some c) (Some entropy) (zlen entropy) personalization (zlen (default [] personalization)) =
    (TC_CRYPTO_SUCCESS, Some c') /\
    serve_requests (Some c') rs = drbg_requests (Instantiate (take 32 entropy) (default [] personalization)) rs.
Proof.
  intros Hw He. destruct (prng_init_standard c entropy personalization Hw He) as (c' & E & Hg). exists c'.
  split; [exact E|]. apply serve_requests_standard; [exact Hg|]. unfold counts. cbn. lia.
Qed.

Definition prng_blank : TCCtrPrng := Ctx [] (replicate 44 0) 0.

Lemma ctr_prng_refines_witness : exists c',
  tc_ctr_prng_init (Some prng_blank) (Some (replicate 32 Byte.x17)) 32 None 0 = (TC_CRYPTO_SUCCESS, Some c') /\
  serve_requests (Some c') [ReqGenerate 20 None []] =
    drbg_requests (Instantiate (replicate 32 Byte.x17) []) [ReqGenerate 20 None []].
Proof. apply (ctr_prng_refines prng_blank (replicate 32 Byte.x17) None [ReqGenerate 20 None []]); [reflexivity|cbn; lia]. Defined.
