(* ===== verification/EccVli.v ===== *)
(** * tinycrypt: integers of many words

    The [uECC_vli] functions of [tinycrypt/source/ecc.c].  An integer is the list
    of its 32-bit words, the lowest first; the number of words is the length of the
    list, and a function that works in place returns the new list.  The loop of
    [uECC_vli_modInv] and the last loops of the fast reduction have fuel; the
    theorems on their results show that it is enough. *)

From S2P Require Import Prelude.

Definition uECC_WORD_BITS : Z := 32.
Definition NUM_ECC_WORDS : nat := 8.

(** Comparisons as numbers. *)
Definition b2w (b : bool) : Z := if b then 1 else 0.

Definition uECC_vli_clear (num_words : nat) : list Z := replicate num_words 0.

Definition uECC_vli_isZero (vli : list Z) : Z := b2w (fold_left Z.lor vli 0 =? 0).

Definition uECC_vli_testBit (vli : list Z) (bit : Z) : Z :=
  Z.land (vli !!! Z.to_nat (Z.shiftr bit 5)) (u32 (Z.shiftl 1 (Z.land bit 0x1F))).

(** The loop of [vli_numDigits] with [i] words still to look at. *)
Fixpoint vli_numDigits (vli : list Z) (i : nat) : nat :=
  match i with
  | O => O
  | S j => if vli !!! j =? 0 then vli_numDigits vli j else i
  end.

(** [for (i = 0; digit; ++i) digit >>= 1;] for a word *)
Fixpoint digit_bits (fuel : nat) (digit i : Z) : Z :=
  match fuel with
  | O => i
  | S fuel => if digit =? 0 then i else digit_bits fuel (Z.shiftr digit 1) (i + 1)
  end.

Definition uECC_vli_numBits (vli : list Z) : Z :=
  let num_digits := vli_numDigits vli (length vli) in
  if (num_digits =? 0)%nat then 0
  else Z.shiftl (Z.of_nat (num_digits - 1)) 5 + digit_bits 32 (vli !!! (num_digits - 1)%nat) 0.

Fixpoint cmp_loop (lhs rhs : list Z) (i : nat) : Z :=
  match i with
  | O => 0
  | S j => if lhs !!! j >? rhs !!! j then 1 else if lhs !!! j <? rhs !!! j then -1 else cmp_loop lhs rhs j
  end.

Definition uECC_vli_cmp_unsafe (lhs rhs : list Z) : Z := cmp_loop lhs rhs (length lhs).

(** Zero when the integers are equal. *)
Definition uECC_vli_equal (lhs rhs : list Z) : Z :=
  b2w (negb (fold_left Z.lor (zip_with Z.lxor lhs rhs) 0 =? 0)).

Definition cond_set (p_true p_false : Z) (cond : bool) : Z := Z.lor (p_true * b2w cond) (p_false * b2w (negb cond)).

(** The result and the borrow, from the lowest word up. *)
Fixpoint sub_loop (lhs rhs : list Z) (borrow : Z) : list Z * Z :=
  match lhs, rhs with
  | l :: lhs, r :: rhs =>
      let diff := u32 (l - r - borrow) in
      let val := b2w (diff >? l) in
      let borrow := cond_set val borrow (negb (diff =? l)) in
      let '(result, borrow) := sub_loop lhs rhs borrow in
      (diff :: result, borrow)
  | _, _ => ([], borrow)
  end.

Definition uECC_vli_sub (lhs rhs : list Z) : list Z * Z := sub_loop lhs rhs 0.

(** The result and the carry. *)
Fixpoint add_loop (lhs rhs : list Z) (carry : Z) : list Z * Z :=
  match lhs, rhs with
  | l :: lhs, r :: rhs =>
      let sum := u32 (l + r + carry) in
      let val := b2w (sum <? l) in
      let carry := cond_set val carry (negb (sum =? l)) in
      let '(result, carry) := add_loop lhs rhs carry in
      (sum :: result, carry)
  | _, _ => ([], carry)
  end.

Definition uECC_vli_add (lhs rhs : list Z) : list Z * Z := add_loop lhs rhs 0.

Definition uECC_vli_cmp (lhs rhs : list Z) : Z :=
  let '(tmp, borrow) := uECC_vli_sub lhs rhs in
  let neg := b2w (negb (borrow =? 0)) in
  let equal := uECC_vli_isZero tmp in
  b2w (equal =? 0) - 2 * neg.

(** The highest word first: the words and the carry for the word below. *)
Fixpoint rshift_loop (vli : list Z) : list Z * Z :=
  match vli with
  | [] => ([], 0)
  | x :: vli =>
      let '(vli, carry) := rshift_loop vli in
      (Z.lor (Z.shiftr x 1) carry :: vli, u32 (Z.shiftl x (uECC_WORD_BITS - 1)))
  end.

Definition uECC_vli_rshift1 (vli : list Z) : list Z := fst (rshift_loop vli).

(** ** Products *)

Definition muladd (a b : Z) (r : Z * Z * Z) : Z * Z * Z :=
  let '(r0, r1, r2) := r in
  let p := u64 (a * b) in
  let r01 := Z.lor (u64 (Z.shiftl r1 32)) r0 in
  let r01 := u64 (r01 + p) in
  (u32 r01, Z.shiftr r01 32, u32 (r2 + b2w (r01 <? p))).

(** The inner loops: [n] products of the column [k], from index [i] on. *)
Fixpoint column_loop (n i k : nat) (lhs rhs : list Z) (r : Z * Z * Z) : Z * Z * Z :=
  match n with
  | O => r
  | S n => column_loop n (S i) k lhs rhs (muladd (lhs !!! i) (rhs !!! (k - i)%nat) r)
  end.

(** The columns from [k] on: the words of the result and [r0] behind the last. *)
Fixpoint columns_loop (n k num_words : nat) (lhs rhs : list Z) (r : Z * Z * Z) : list Z * Z :=
  match n with
  | O => ([], let '(r0, _, _) := r in r0)
  | S n =>
      let '(r0, r1, r2) :=
        if (k <? num_words)%nat then column_loop (S k) 0 k lhs rhs r
        else column_loop (num_words - (k + 1 - num_words)) (k + 1 - num_words) k lhs rhs r in
      let '(result, last) := columns_loop n (S k) num_words lhs rhs (r1, r2, 0) in
      (r0 :: result, last)
  end.

Definition uECC_vli_mult (lhs rhs : list Z) : list Z :=
  let num_words := length lhs in
  let '(result, last) := columns_loop (num_words * 2 - 1) 0 num_words lhs rhs (0, 0, 0) in
  result ++ [last].

(** ** Modular arithmetic *)

Definition uECC_vli_modAdd (lhs rhs mod_ : list Z) : list Z :=
  let '(result, carry) := uECC_vli_add lhs rhs in
  if negb (carry =? 0) || negb (uECC_vli_cmp_unsafe mod_ result =? 1) then fst (uECC_vli_sub result mod_) else result.

Definition uECC_vli_modSub (lhs rhs mod_ : list Z) : list Z :=
  let '(result, l_borrow) := uECC_vli_sub lhs rhs in
  if negb (l_borrow =? 0) then fst (uECC_vli_add result mod_) else result.

(** The words of [mod] shifted by less than a word. *)
Fixpoint shift_words (mod_ : list Z) (bit_shift carry : Z) : list Z :=
  match mod_ with
  | [] => []
  | x :: mod_ =>
      Z.lor (u32 (Z.shiftl x bit_shift)) carry :: shift_words mod_ bit_shift (Z.shiftr x (uECC_WORD_BITS - bit_shift))
  end.

(** The subtraction inside [uECC_vli_mmod]. *)
Fixpoint mmod_sub (v mod_multiple : list Z) (borrow : Z) : list Z * Z :=
  match v, mod_multiple with
  | x :: v, m :: mod_multiple =>
      let diff := u32 (x - m - borrow) in
      let borrow := if negb (diff =? x) then b2w (diff >? x) else borrow in
      let '(result, borrow) := mmod_sub v mod_multiple borrow in
      (diff :: result, borrow)
  | _, _ => ([], borrow)
  end.

(** One step down, in two halves. *)
Definition mmod_shift (mod_multiple : list Z) (num_words : nat) : list Z :=
  let low := uECC_vli_rshift1 (take num_words mod_multiple) in
  let high := drop num_words mod_multiple in
  let top := (num_words - 1)%nat in
  let low := <[top := Z.lor (low !!! top) (u32 (Z.shiftl (high !!! 0%nat) (uECC_WORD_BITS - 1)))]> low in
  low ++ uECC_vli_rshift1 high.

(** [n] rounds; [v0] is [tmp] and [v1] is [product].  The last [v[index]], and
    what is left in [product]. *)
Fixpoint mmod_loop (n num_words : nat) (v0 v1 : list Z) (index : bool) (mod_multiple : list Z) : list Z * list Z :=
  match n with
  | O => (if index then v1 else v0, v1)
  | S n =>
      let '(diff, borrow) := mmod_sub (if index then v1 else v0) mod_multiple 0 in
      let '(v0, v1) := if index then (diff, v1) else (v0, diff) in
      let index := negb (xorb index (negb (borrow =? 0))) in
      mmod_loop n num_words v0 v1 index (mmod_shift mod_multiple num_words)
  end.

(** [mod] with its highest bit at the top of the array.  The source is for moduli
    whose top word is not small: there the shifted words fill the array. *)
Definition mod_multiple_of (mod_ : list Z) (shift : Z) : list Z :=
  let num_words := length mod_ in
  let word_shift := Z.to_nat (shift / uECC_WORD_BITS) in
  let bit_shift := shift mod uECC_WORD_BITS in
  let shifted := if bit_shift >? 0 then shift_words mod_ bit_shift 0 else mod_ in
  take (2 * num_words) (uECC_vli_clear word_shift ++ shifted ++ uECC_vli_clear num_words).

(** The result, and what is left in [product]. *)
Definition uECC_vli_mmod (product mod_ : list Z) : list Z * list Z :=
  let num_words := length mod_ in
  let shift := Z.of_nat num_words * 2 * uECC_WORD_BITS - uECC_vli_numBits mod_ in
  let '(v, product) :=
    mmod_loop (Z.to_nat (shift + 1)) num_words (uECC_vli_clear (2 * num_words)) product true (mod_multiple_of mod_ shift) in
  (take num_words v, product).

Definition uECC_vli_modMult (lhs rhs mod_ : list Z) : list Z := fst (uECC_vli_mmod (uECC_vli_mult lhs rhs) mod_).

Definition EVEN (vli : list Z) : bool := Z.land (vli !!! 0%nat) 1 =? 0.

Definition HIGH_BIT_SET : Z := 0x80000000.

Definition vli_modInv_update (uv mod_ : list Z) : list Z :=
  let '(uv, carry) := if negb (EVEN uv) then uECC_vli_add uv mod_ else (uv, 0) in
  let uv := uECC_vli_rshift1 uv in
  let top := (length mod_ - 1)%nat in
  if negb (carry =? 0) then <[top := Z.lor (uv !!! top) HIGH_BIT_SET]> uv else uv.

Fixpoint modInv_loop (fuel : nat) (a b u v mod_ : list Z) : list Z :=
  match fuel with
  | O => u
  | S fuel =>
      let cmpResult := uECC_vli_cmp_unsafe a b in
      if cmpResult =? 0 then u
      else if EVEN a then
        modInv_loop fuel (uECC_vli_rshift1 a) b (vli_modInv_update u mod_) v mod_
      else if EVEN b then
        modInv_loop fuel a (uECC_vli_rshift1 b) u (vli_modInv_update v mod_) mod_
      else if cmpResult >? 0 then
        let a := uECC_vli_rshift1 (fst (uECC_vli_sub a b)) in
        let u := if uECC_vli_cmp_unsafe u v <? 0 then fst (uECC_vli_add u mod_) else u in
        let u := fst (uECC_vli_sub u v) in
        modInv_loop fuel a b (vli_modInv_update u mod_) v mod_
      else
        let b := uECC_vli_rshift1 (fst (uECC_vli_sub b a)) in
        let v := if uECC_vli_cmp_unsafe v u <? 0 then fst (uECC_vli_add v mod_) else v in
        let v := fst (uECC_vli_sub v u) in
        modInv_loop fuel a b u (vli_modInv_update v mod_) mod_
  end.

(** Every round halves the product of [a] and [b]. *)
Definition MODINV_FUEL : nat := 513.

Definition uECC_vli_modInv (input mod_ : list Z) : list Z :=
  let num_words := length mod_ in
  if negb (uECC_vli_isZero input =? 0) then uECC_vli_clear num_words
  else modInv_loop MODINV_FUEL input mod_ (<[0%nat := 1]> (uECC_vli_clear num_words)) (uECC_vli_clear num_words) mod_.

(** ** Bytes *)

(** Big-endian bytes from the words. *)
Definition uECC_vli_nativeToBytes (num_bytes : nat) (native : list Z) : list byte :=
  (fun i => let b := (num_bytes - 1 - i)%nat in
            z2b (Z.shiftr (native !!! (b / 4)%nat) (8 * Z.of_nat (b mod 4)))) <$> seq 0 num_bytes.

(** The loop of [uECC_vli_bytesToNative]. *)
Fixpoint bytes_loop (n i num_bytes : nat) (bytes : list byte) (native : list Z) : list Z :=
  match n with
  | O => native
  | S n =>
      let b := (num_bytes - 1 - i)%nat in
      bytes_loop n (S i) num_bytes bytes
        (<[(b / 4)%nat := Z.lor (native !!! (b / 4)%nat) (u32 (Z.shiftl (b2z (bytes !!! i)) (8 * Z.of_nat (b mod 4))))]> native)
  end.

Definition uECC_vli_bytesToNative (bytes : list byte) (num_bytes : nat) : list Z :=
  bytes_loop num_bytes 0 num_bytes bytes (uECC_vli_clear ((num_bytes + 3) / 4)).
