(* ===== verification/EccVliSpec.v ===== *)
(** * tinycrypt: what the integers of many words stand for

    [val] is the number that words represent and [words n] says that there are [n]
    of them, each in range.  Every function of [EccVli] is related to the operation
    on numbers it is for: sums and differences with their carries, comparisons,
    halves, products, remainders, inverses, and bytes. *)

From S2P Require Import Prelude TcWords EccVli.

(** ** Words and numbers *)

Fixpoint val (l : list Z) : Z :=
  match l with
  | [] => 0
  | x :: l => x + 2 ^ 32 * val l
  end.

Definition words (n : nat) (l : list Z) : Prop := length l = n /\ Forall (fun x => 0 <= x < 2 ^ 32) l.

(** What [n] words can hold. *)
Definition W (n : nat) : Z := 2 ^ (32 * Z.of_nat n).

Definition is_words (n : nat) (l : list Z) : bool := (length l =? n)%nat && forallb (fun x => (0 <=? x) && (x <? 2 ^ 32)) l.

Lemma is_words_ok n l : is_words n l = true -> words n l.
Proof.
  intros [Hn Hl]%andb_true_iff. split; [by apply Nat.eqb_eq|].
  apply List.Forall_forall. intros x Hx. rewrite forallb_forall in Hl. specialize (Hl x Hx). lia.
Qed.

Lemma W_S n : W (S n) = 2 ^ 32 * W n.
Proof. unfold W. rewrite <- Z.pow_add_r by lia. f_equal. lia. Qed.

Lemma W_pos n : 0 < W n.
Proof. apply Z.pow_pos_nonneg; lia. Qed.

Lemma W_add n k : W (n + k) = W n * W k.
Proof. unfold W. rewrite <- Z.pow_add_r by lia. f_equal. lia. Qed.

Lemma words_cons n x l : words (S n) (x :: l) <-> word x /\ words n l.
Proof.
  unfold words. rewrite List.Forall_cons_iff. cbn [length]. split; intros H; [|by destruct H as [? [-> ?]]].
  destruct H as ([= ->] & ? & ?). done.
Qed.

Lemma words_S n l : words (S n) l -> exists x k, l = x :: k /\ word x /\ words n k.
Proof. intros H. destruct l as [|x k]; [by destruct H|]. exists x, k. by rewrite words_cons in H. Qed.

Lemma words_0 l : words 0 l -> l = [].
Proof. intros [H _]. by apply length_zero_iff_nil. Qed.

Lemma words_app n k l m : words n l -> words k m -> words (n + k) (l ++ m).
Proof. intros [<- ?] [<- ?]. split; [apply length_app|by apply Forall_app]. Qed.

Lemma words_take n k l : words (n + k) l -> words n (take n l).
Proof. intros [H ?]. split; [rewrite length_take; lia|by apply Forall_take]. Qed.

Lemma words_drop n k l : words (n + k) l -> words k (drop n l).
Proof. intros [H ?]. split; [rewrite length_drop; lia|by apply Forall_drop]. Qed.

Lemma words_split n k l : words (n + k) l -> exists a b, l = a ++ b /\ words n a /\ words k b.
Proof. intros H. exists (take n l), (drop n l). rewrite take_drop. eauto using words_take, words_drop. Qed.

Lemma words_length n l : words n l -> length l = n.
Proof. by intros [? _]. Qed.

Lemma words_insert n i x l : words n l -> word x -> words n (<[i := x]> l).
Proof. intros [H ?] Hx. split; [by rewrite length_insert|by apply Forall_insert]. Qed.

Lemma words_clear n : words n (uECC_vli_clear n).
Proof. split; [apply length_replicate|]. apply Forall_replicate. lia. Qed.

Lemma val_clear n : val (uECC_vli_clear n) = 0.
Proof. induction n as [|n IH]; [done|]. unfold uECC_vli_clear in *. cbn [replicate val]. rewrite IH. lia. Qed.

Lemma val_bound n l : words n l -> 0 <= val l < W n.
Proof.
  revert n. induction l as [|x l IH]; intros n H.
  - destruct H as [<- _]. done.
  - destruct n as [|n]; [by destruct H|]. apply words_cons in H as [Hx Hl]. specialize (IH n Hl).
    rewrite W_S. cbn [val]. lia.
Qed.

Lemma val_app n l k : length l = n -> val (l ++ k) = val l + W n * val k.
Proof.
  revert n. induction l as [|x l IH]; intros n H.
  - subst n. cbn [app val]. change (W (length [])) with 1. lia.
  - destruct n as [|n]; [done|]. injection H as H. cbn [app val]. rewrite (IH n H), W_S. lia.
Qed.

Lemma word_parts x y a b : word x -> word y -> x + 2 ^ 32 * a = y + 2 ^ 32 * b -> x = y /\ a = b.
Proof. intros. lia. Qed.

Lemma val_inj n l k : words n l -> words n k -> val l = val k -> l = k.
Proof.
  revert n k. induction l as [|x l IH]; intros n k Hl Hk H.
  - destruct Hl as [<- _]. by rewrite (words_0 k Hk).
  - destruct n as [|n]; [by destruct Hl|]. apply words_cons in Hl as [Hx Hl].
    apply words_S in Hk as (y & k' & -> & Hy & Hk). cbn [val] in H.
    destruct (word_parts _ _ _ _ Hx Hy H) as [-> E]. f_equal. by apply (IH n).
Qed.

(** ** Sums and differences *)

Lemma cond_set_b2w a b c : cond_set (b2w a) (b2w b) c = b2w (if c then a else b).
Proof. by destruct a, b, c. Qed.

Lemma u32_wrap x : word x \/ (x < 0 /\ word (x + 2 ^ 32)) \/ (word (x - 2 ^ 32)) ->
  u32 x = x + 2 ^ 32 * (b2w (x <? 0) - b2w (2 ^ 32 <=? x)).
Proof.
  intros [H|[[Hn H]|H]]; unfold u32.
  - rewrite Z.mod_small by done. rewrite (proj2 (Z.ltb_ge _ _)), (proj2 (Z.leb_gt _ _)) by lia. cbn. lia.
  - rewrite (proj2 (Z.ltb_lt _ _)), (proj2 (Z.leb_gt _ _)) by lia. cbn.
    symmetry. apply (Z.mod_unique _ _ (-1)); lia.
  - rewrite (proj2 (Z.ltb_ge _ _)), (proj2 (Z.leb_le _ _)) by lia. cbn.
    symmetry. apply (Z.mod_unique _ _ 1); lia.
Qed.

Lemma add_word l r (c : bool) : word l -> word r -> let sum := u32 (l + r + b2w c) in
  word sum /\ exists c', cond_set (b2w (sum <? l)) (b2w c) (negb (sum =? l)) = b2w c' /\ sum + 2 ^ 32 * b2w c' = l + r + b2w c.
Proof.
  intros Hl Hr. cbn zeta. split; [apply u32_bound|]. rewrite cond_set_b2w. eexists. split; [done|].
  rewrite u32_wrap by (destruct c; cbn [b2w]; lia).
  rewrite (proj2 (Z.ltb_ge (l + r + b2w c) 0)) by (destruct c; cbn [b2w]; lia).
  destruct (Z.leb_spec (2 ^ 32) (l + r + b2w c)), c; cbn [b2w] in *;
    match goal with |- context [negb (?a =? ?b)] => destruct (Z.eqb_spec a b); cbn [negb];
      [|destruct (Z.ltb_spec a b)] end; cbn [b2w]; lia.
Qed.

Lemma sub_word l r (c : bool) : word l -> word r -> let diff := u32 (l - r - b2w c) in
  word diff /\ exists c', (if negb (diff =? l) then b2w (diff >? l) else b2w c) = b2w c' /\ diff - 2 ^ 32 * b2w c' = l - r - b2w c.
Proof.
  intros Hl Hr. cbn zeta. split; [apply u32_bound|].
  exists (if negb (u32 (l - r - b2w c) =? l) then u32 (l - r - b2w c) >? l else c).
  rewrite u32_wrap by (destruct c; cbn [b2w]; lia).
  rewrite (proj2 (Z.leb_gt (2 ^ 32) (l - r - b2w c))) by (destruct c; cbn [b2w]; lia).
  destruct (Z.ltb_spec (l - r - b2w c) 0), c; cbn [b2w] in *;
    match goal with |- context [negb (?a =? ?b)] => destruct (Z.eqb_spec a b); cbn [negb];
      [|rewrite Z.gtb_ltb; destruct (Z.ltb_spec b a)] end; cbn [b2w]; split; lia.
Qed.

Lemma add_loop_val n l r (c : bool) : words n l -> words n r ->
  exists s (c' : bool), add_loop l r (b2w c) = (s, b2w c') /\ words n s /\ val s + W n * b2w c' = val l + val r + b2w c.
Proof.
  revert n r c. induction l as [|x l IH]; intros n r c Hl Hr.
  - destruct Hl as [<- _]. exists [], c. cbn. split; [done|]. split; [by split|]. change (W 0) with 1.
    rewrite (words_0 _ Hr). cbn. lia.
  - destruct n as [|n]; [by destruct Hl|]. apply words_cons in Hl as [Hx Hl].
    apply words_S in Hr as (y & k & -> & Hy & Hr). destruct (add_word x y c Hx Hy) as [Hw (c1 & E1 & V1)].
    destruct (IH n k c1 Hl Hr) as (s & c2 & E2 & Ws & V2).
    exists (u32 (x + y + b2w c) :: s), c2. cbn [add_loop]. rewrite E1, E2. split; [done|].
    split; [by apply words_cons|]. cbn [val]. rewrite W_S. nia.
Qed.

Lemma sub_loop_val n l r (c : bool) : words n l -> words n r ->
  exists s (c' : bool), sub_loop l r (b2w c) = (s, b2w c') /\ words n s /\ val s - W n * b2w c' = val l - val r - b2w c.
Proof.
  revert n r c. induction l as [|x l IH]; intros n r c Hl Hr.
  - destruct Hl as [<- _]. exists [], c. cbn. split; [done|]. split; [by split|]. change (W 0) with 1.
    rewrite (words_0 _ Hr). cbn. lia.
  - destruct n as [|n]; [by destruct Hl|]. apply words_cons in Hl as [Hx Hl].
    apply words_S in Hr as (y & k & -> & Hy & Hr). destruct (sub_word x y c Hx Hy) as [Hw (c1 & E1 & V1)].
    destruct (IH n k c1 Hl Hr) as (s & c2 & E2 & Ws & V2).
    exists (u32 (x - y - b2w c) :: s), c2. cbn [sub_loop]. rewrite cond_set_b2w.
    replace (b2w (if negb (u32 (x - y - b2w c) =? x) then u32 (x - y - b2w c) >? x else c)) with (b2w c1)
      by (rewrite <- E1; by destruct (negb _)).
    rewrite E2. split; [done|].
    split; [by apply words_cons|]. cbn [val]. rewrite W_S. nia.
Qed.

(** The sum and the carry. *)
Lemma add_val n l r : words n l -> words n r ->
  exists s (c : bool), uECC_vli_add l r = (s, b2w c) /\ words n s /\ val s + W n * b2w c = val l + val r.
Proof.
  intros Hl Hr. destruct (add_loop_val n l r false Hl Hr) as (s & c & E & Ws & V). exists s, c. cbn [b2w] in *.
  split; [done|]. split; [done|]. lia.
Qed.

(** The difference and the borrow. *)
Lemma sub_val n l r : words n l -> words n r ->
  exists s (c : bool), uECC_vli_sub l r = (s, b2w c) /\ words n s /\ val s - W n * b2w c = val l - val r.
Proof.
  intros Hl Hr. destruct (sub_loop_val n l r false Hl Hr) as (s & c & E & Ws & V). exists s, c. cbn [b2w] in *.
  split; [done|]. split; [done|]. lia.
Qed.

(** ** Comparisons *)

Lemma fold_lor_0 l a : fold_left Z.lor l a = 0 <-> a = 0 /\ Forall (fun x => x = 0) l.
Proof.
  revert a. induction l as [|x l IH]; intros a; cbn [fold_left].
  - split; [by intros ->|by intros [? _]].
  - rewrite IH, Z.lor_eq_0_iff, List.Forall_cons_iff. tauto.
Qed.

Lemma val_zero n l : words n l -> val l = 0 <-> Forall (fun x => x = 0) l.
Proof.
  revert n. induction l as [|x l IH]; intros n Hl; [done|].
  destruct n as [|n]; [by destruct Hl|]. apply words_cons in Hl as [Hx Hl].
  rewrite List.Forall_cons_iff, <- (IH n Hl). cbn [val]. pose proof (val_bound n l Hl). lia.
Qed.

Lemma isZero_val n l : words n l -> uECC_vli_isZero l = b2w (val l =? 0).
Proof.
  intros Hl. unfold uECC_vli_isZero. f_equal. apply eq_bool_prop_intro. rewrite !Is_true_true, !Z.eqb_eq, fold_lor_0, (val_zero n) by done. tauto.
Qed.

Lemma isZero_true n l : words n l -> (uECC_vli_isZero l =? 0) = negb (val l =? 0).
Proof. intros Hl. rewrite (isZero_val n) by done. by destruct (val l =? 0). Qed.

Lemma xor_zero n l r : words n l -> words n r -> Forall (fun x => x = 0) (zip_with Z.lxor l r) <-> l = r.
Proof.
  revert n r. induction l as [|x l IH]; intros n r Hl Hr.
  - destruct Hl as [<- _]. rewrite (words_0 r Hr). done.
  - destruct n as [|n]; [by destruct Hl|]. apply words_cons in Hl as [Hx Hl]. apply words_S in Hr as (y & k & -> & Hy & Hr).
    cbn [zip_with]. rewrite List.Forall_cons_iff, (IH n k), Z.lxor_eq_0_iff by done. split; [by intros [-> ->]|by intros [= -> ->]].
Qed.

Lemma equal_val n l r : words n l -> words n r -> uECC_vli_equal l r = b2w (negb (val l =? val r)).
Proof.
  intros Hl Hr. unfold uECC_vli_equal. f_equal. f_equal. apply eq_bool_prop_intro.
  rewrite !Is_true_true, !Z.eqb_eq, fold_lor_0, (xor_zero n) by done. split; [by intros [_ ->]|].
  intros E. split; [done|]. by apply (val_inj n).
Qed.

Lemma lookup_app_snoc (l : list Z) x i : i = length l -> (l ++ [x]) !!! i = x.
Proof. intros ->. rewrite list_lookup_total_alt, lookup_app_r, Nat.sub_diag by lia. done. Qed.

Lemma lookup_app_low (l k : list Z) i : (i < length l)%nat -> (l ++ k) !!! i = l !!! i.
Proof. intros. by rewrite !list_lookup_total_alt, lookup_app_l. Qed.

Lemma cmp_loop_ext l r l' r' i : (i <= length l)%nat -> (i <= length r)%nat ->
  cmp_loop (l ++ l') (r ++ r') i = cmp_loop l r i.
Proof.
  induction i as [|i IH]; intros; cbn [cmp_loop]; [done|]. rewrite !lookup_app_low, IH by lia. done.
Qed.

Lemma words_snoc n l : words (S n) l -> exists k x, l = k ++ [x] /\ words n k /\ word x.
Proof.
  rewrite <- Nat.add_1_r. intros H. destruct (words_split _ _ _ H) as (a & b & -> & Ha & Hb).
  destruct (words_S _ _ Hb) as (x & k & -> & Hx & Hk). rewrite (words_0 _ Hk). eauto.
Qed.

(** The sign of the difference. *)
Lemma cmp_unsafe_val n l r : words n l -> words n r -> uECC_vli_cmp_unsafe l r = Z.sgn (val l - val r).
Proof.
  intros Hl Hr. unfold uECC_vli_cmp_unsafe. rewrite (words_length _ _ Hl). revert l r Hl Hr.
  induction n as [|n IH]; intros l r Hl Hr.
  - by rewrite (words_0 _ Hl), (words_0 _ Hr).
  - apply words_snoc in Hl as (k & x & -> & Hk & Hx). apply words_snoc in Hr as (q & y & -> & Hq & Hy).
    cbn [cmp_loop]. rewrite !lookup_app_snoc by (symmetry; by apply words_length).
    rewrite cmp_loop_ext, IH by (done || by erewrite words_length).
    rewrite !(val_app n) by by apply words_length. cbn [val].
    pose proof (val_bound n k Hk). pose proof (val_bound n q Hq). pose proof (W_pos n).
    rewrite Z.gtb_ltb. destruct (Z.ltb_spec y x); [|destruct (Z.ltb_spec x y)].
    + symmetry. apply Z.sgn_pos. nia.
    + symmetry. apply Z.sgn_neg. nia.
    + assert (x = y) as -> by lia. f_equal. lia.
Qed.

Lemma cmp_unsafe_gt n l r : words n l -> words n r -> (uECC_vli_cmp_unsafe l r =? 1) = (val r <? val l).
Proof.
  intros Hl Hr. rewrite (cmp_unsafe_val n) by done. destruct (Z.ltb_spec (val r) (val l)).
  - by rewrite Z.sgn_pos by lia.
  - apply Z.eqb_neq. destruct (Z.sgn_spec (val l - val r)) as [[? ?]|[[? ?]|[? ?]]]; lia.
Qed.

Lemma cmp_unsafe_lt n l r : words n l -> words n r -> (uECC_vli_cmp_unsafe l r <? 0) = (val l <? val r).
Proof.
  intros Hl Hr. rewrite (cmp_unsafe_val n) by done. destruct (Z.ltb_spec (val l) (val r)).
  - by rewrite Z.sgn_neg by lia.
  - apply Z.ltb_ge. destruct (Z.sgn_spec (val l - val r)) as [[? ?]|[[? ?]|[? ?]]]; lia.
Qed.

Lemma cmp_val n l r : words n l -> words n r -> uECC_vli_cmp l r = Z.sgn (val l - val r).
Proof.
  intros Hl Hr. unfold uECC_vli_cmp. destruct (sub_val n l r Hl Hr) as (s & c & -> & Hs & V).
  rewrite (isZero_val n) by done. pose proof (val_bound n l Hl). pose proof (val_bound n r Hr). pose proof (val_bound n s Hs).
  destruct c; cbn [b2w] in *; destruct (Z.eqb_spec (val s) 0); cbn [b2w Z.eqb negb]; symmetry.
  - lia.
  - rewrite Z.sgn_neg; lia.
  - rewrite Z.sgn_null; lia.
  - rewrite Z.sgn_pos; lia.
Qed.

(** ** Halves *)

Lemma rshift_loop_val n l : words n l ->
  exists k, rshift_loop l = (k, 2 ^ 31 * (val l mod 2)) /\ words n k /\ val k = val l / 2.
Proof.
  revert n. induction l as [|x l IH]; intros n Hl.
  - exists []. cbn. split; [done|]. split; [done|]. done.
  - destruct n as [|n]; [by destruct Hl|]. apply words_cons in Hl as [Hx Hl]. destruct (IH n Hl) as (k & E & Hk & V).
    exists (Z.shiftr x 1 + (val l mod 2) * 2 ^ 31 :: k). cbn [rshift_loop]. rewrite E.
    assert (0 <= Z.shiftr x 1 < 2 ^ 31) as Hh by (rewrite Z.shiftr_div_pow2 by lia; change (2 ^ 1) with 2; Z.div_mod_to_equations; lia).
    pose proof (Z.mod_pos_bound (val l) 2 ltac:(lia)). split; [|split].
    + f_equal.
      * f_equal. rewrite (Z.mul_comm (2 ^ 31)). by apply lor_low.
      * unfold uECC_WORD_BITS. rewrite (u32_shiftl x 1) by (done || lia).
        cbn [val]. replace (x + 2 ^ 32 * val l) with (x + 2 ^ 31 * val l * 2) by lia. rewrite Z.mod_add by lia. apply Z.mul_comm.
    + apply words_cons. split; [lia|done].
    + cbn [val]. rewrite V. rewrite Z.shiftr_div_pow2 by lia. change (2 ^ 1) with 2. Z.div_mod_to_equations. lia.
Qed.

Lemma rshift1_val n l : words n l -> words n (uECC_vli_rshift1 l) /\ val (uECC_vli_rshift1 l) = val l / 2.
Proof. intros Hl. unfold uECC_vli_rshift1. by destruct (rshift_loop_val n l Hl) as (k & -> & Hk & V). Qed.

Lemma EVEN_val n l : words (S n) l -> EVEN l = (val l mod 2 =? 0).
Proof.
  intros Hl. apply words_S in Hl as (x & k & -> & Hx & Hk). unfold EVEN. cbn [val].
  change ((x :: k) !!! 0%nat) with x. change 1 with (Z.ones 1). rewrite Z.land_ones by lia. change (2 ^ 1) with 2.
  replace (x + 2 ^ 32 * val k) with (x + 2 ^ 31 * val k * 2) by lia. by rewrite Z.mod_add by lia.
Qed.

(** ** Bits *)

Lemma val_testbit n l i : words n l -> 0 <= i < 32 * Z.of_nat n -> Z.testbit (val l) i = Z.testbit (l !!! Z.to_nat (i / 32)) (i mod 32).
Proof.
  revert n i. induction l as [|x l IH]; intros n i Hl Hi.
  - destruct Hl as [<- _]. cbn [length] in Hi. lia.
  - destruct n as [|n]; [by destruct Hl|]. apply words_cons in Hl as [Hx Hl]. cbn [val].
    rewrite Z.add_comm, Z.mul_comm, <- lor_parts, Z.lor_spec, Z.shiftl_spec by (done || lia).
    destruct (Z.lt_ge_cases i 32).
    + rewrite (Z.testbit_neg_r _ (i - 32)), Z.div_small, Z.mod_small by lia. done.
    + rewrite (bits_above 32 x) by (done || lia). rewrite orb_false_r, (IH n) by (done || lia).
      replace i with (i - 32 + 1 * 32) at 3 4 by lia. rewrite Z.div_add, Z.mod_add by lia.
      assert (0 <= (i - 32) / 32) by (apply Z.div_pos; lia).
      replace (Z.to_nat ((i - 32) / 32 + 1)) with (S (Z.to_nat ((i - 32) / 32))) by lia. done.
Qed.

Lemma land_bit x i : 0 <= i -> (Z.land x (2 ^ i) =? 0) = negb (Z.testbit x i).
Proof.
  intros Hi. destruct (Z.testbit x i) eqn:E; cbn [negb].
  - apply Z.eqb_neq. intros H. assert (Z.testbit (Z.land x (2 ^ i)) i = true) as Ht
      by (rewrite Z.land_spec, E, Z.pow2_bits_true by done; done). rewrite H, Z.testbit_0_l in Ht. done.
  - apply Z.eqb_eq. apply Z.bits_inj'. intros j Hj. rewrite Z.land_spec, Z.testbit_0_l.
    destruct (Z.eq_dec i j) as [->|Hn]; [by rewrite E|]. rewrite Z.pow2_bits_false by lia. apply andb_false_r.
Qed.

Lemma testBit_val n l i : words n l -> 0 <= i < 32 * Z.of_nat n -> (uECC_vli_testBit l i =? 0) = negb (Z.testbit (val l) i).
Proof.
  intros Hl Hi. unfold uECC_vli_testBit. change 0x1F with (Z.ones 5). rewrite Z.land_ones by lia. change (2 ^ 5) with 32.
  rewrite Z.shiftr_div_pow2 by lia. change (2 ^ 5) with 32. rewrite (val_testbit n) by done.
  pose proof (Z.mod_pos_bound i 32 ltac:(lia)). rewrite Z.shiftl_1_l, u32_small.
  - apply land_bit. lia.
  - split; [apply Z.pow_nonneg; lia|]. apply Z.pow_lt_mono_r; lia.
Qed.

(** The number of significant bits. *)
Definition bits (x : Z) : Z := if x =? 0 then 0 else Z.log2 x + 1.

Lemma digit_bits_val fuel d i : 0 <= d < 2 ^ Z.of_nat fuel -> digit_bits fuel d i = i + bits d.
Proof.
  revert d i. induction fuel as [|fuel IH]; intros d i Hd; cbn [digit_bits].
  - assert (d = 0) as -> by (change (2 ^ Z.of_nat 0) with 1 in Hd; lia). cbn. lia.
  - unfold bits. destruct (Z.eqb_spec d 0); [lia|]. rewrite Nat2Z.inj_succ, Z.pow_succ_r in Hd by lia.
    rewrite IH by (rewrite Z.shiftr_div_pow2 by lia; change (2 ^ 1) with 2; Z.div_mod_to_equations; lia).
    unfold bits. rewrite Z.log2_shiftr by lia. destruct (Z.eqb_spec (Z.shiftr d 1) 0) as [E|E].
    + assert (d = 1) as -> by (rewrite Z.shiftr_div_pow2 in E by lia; change (2 ^ 1) with 2 in E; Z.div_mod_to_equations; lia). cbn. lia.
    + assert (1 < d) by (destruct (Z.eq_dec d 1) as [->|]; [done|lia]). pose proof (Z.log2_pos d ltac:(lia)). lia.
Qed.

Lemma bits_top n low d : 0 <= low < W n -> 0 < d -> bits (low + W n * d) = 32 * Z.of_nat n + bits d.
Proof.
  intros Hl Hd. unfold bits, W in *. set (k := 32 * Z.of_nat n) in *.
  assert (0 < 2 ^ k) by (apply Z.pow_pos_nonneg; lia).
  rewrite !(proj2 (Z.eqb_neq _ 0)) by nia. rewrite Z.add_assoc. f_equal.
  assert ((low + 2 ^ k * d) / 2 ^ k = d) as E by (rewrite Z.mul_comm, Z.div_add, Z.div_small by lia; lia).
  assert (Z.shiftr (low + 2 ^ k * d) k = d) as E' by (rewrite Z.shiftr_div_pow2 by lia; done).
  rewrite <- E' at 2. rewrite Z.log2_shiftr by nia.
  assert (k <= Z.log2 (low + 2 ^ k * d)) by (apply Z.log2_le_pow2; nia). lia.
Qed.

Lemma numDigits_val n l i : words n l -> (i <= n)%nat -> exists j, vli_numDigits l i = j /\ (j <= i)%nat /\
  val (take i l) = val (take j l) /\ (j <> 0%nat -> l !!! (j - 1)%nat <> 0).
Proof.
  intros Hl. induction i as [|i IH]; intros Hi; cbn [vli_numDigits].
  - by exists 0%nat.
  - destruct (Z.eqb_spec (l !!! i) 0) as [E|E].
    + destruct (IH ltac:(lia)) as (j & Ej & Hj & V & Hd). exists j. split; [done|]. split; [lia|]. split; [|done]. rewrite <- V.
      destruct Hl as [Hn _]. assert (l !! i = Some 0) as L by (rewrite <- E; apply list_lookup_lookup_total_lt; lia).
      rewrite (take_S_r _ _ _ L), (val_app i) by (rewrite length_take; lia). cbn. lia.
    + exists (S i). split; [done|]. split; [lia|]. split; [done|]. intros _. by rewrite Nat.sub_succ, Nat.sub_0_r.
Qed.

Lemma words_lookup n l i : words n l -> word (l !!! i).
Proof.
  intros [_ Hf]. destruct (l !! i) as [x|] eqn:E.
  - rewrite (list_lookup_total_correct _ _ _ E). rewrite Forall_lookup in Hf. by apply (Hf i).
  - rewrite list_lookup_total_alt, E. cbn. lia.
Qed.

Lemma numBits_val n l : words n l -> uECC_vli_numBits l = bits (val l).
Proof.
  intros Hl. unfold uECC_vli_numBits. rewrite (words_length _ _ Hl).
  destruct (numDigits_val n l n Hl (le_n n)) as (j & -> & Hj & V & Hd).
  rewrite firstn_all2 in V by (rewrite (words_length _ _ Hl); lia). rewrite V. destruct j as [|j]; [done|].
  change (S j =? 0)%nat with false. cbv iota. specialize (Hd ltac:(done)). rewrite Nat.sub_succ, Nat.sub_0_r in *.
  pose proof (words_lookup n l j Hl) as Hw. pose proof (words_length _ _ Hl).
  rewrite digit_bits_val by done. rewrite (take_S_r l j (l !!! j)) by (apply list_lookup_lookup_total_lt; lia).
  rewrite (val_app j) by (rewrite length_take; lia). cbn [val]. rewrite Z.mul_0_r, Z.add_0_r.
  rewrite bits_top by (lia || (apply val_bound, (words_take _ (n - j)); by replace (j + (n - j))%nat with n by lia)).
  rewrite Z.shiftl_mul_pow2 by lia. change (2 ^ 5) with 32. lia.
Qed.

Lemma bits_bound n x : 0 <= n -> 0 <= x < 2 ^ n -> bits x <= n.
Proof.
  intros Hn Hx. unfold bits. destruct (Z.eqb_spec x 0); [done|].
  assert (Z.log2 x < n) by (apply Z.log2_lt_pow2; lia). lia.
Qed.

(** ** Products *)

Definition acc_val (r : Z * Z * Z) : Z := let '(r0, r1, r2) := r in r0 + 2 ^ 32 * r1 + 2 ^ 64 * r2.
Definition acc_ok (r : Z * Z * Z) : Prop := let '(r0, r1, r2) := r in word r0 /\ word r1 /\ word r2.

Lemma word_mul a b : word a -> word b -> 0 <= a * b <= (2 ^ 32 - 1) * (2 ^ 32 - 1).
Proof. intros. split; [nia|]. apply Z.mul_le_mono_nonneg; lia. Qed.

Lemma muladd_val a b r : word a -> word b -> acc_ok r -> acc_val r + a * b < 2 ^ 96 ->
  acc_ok (muladd a b r) /\ acc_val (muladd a b r) = acc_val r + a * b.
Proof.
  destruct r as [[r0 r1] r2]. intros Ha Hb (H0 & H1 & H2). unfold muladd, acc_val, acc_ok. intros Hs.
  pose proof (word_mul a b Ha Hb) as Hp. set (p := a * b) in *.
  assert (u64 p = p) as -> by (apply Z.mod_small; lia).
  assert (u64 (Z.shiftl r1 32) = r1 * 2 ^ 32) as E by (unfold u64; rewrite Z.shiftl_mul_pow2 by lia; apply Z.mod_small; lia).
  rewrite E, Z.lor_comm, (lor_low r0 r1 32) by lia. clear E. unfold u64.
  assert ((r0 + r1 * 2 ^ 32 + p) mod 2 ^ 64 = r0 + r1 * 2 ^ 32 + p - 2 ^ 64 * b2w (2 ^ 64 <=? r0 + r1 * 2 ^ 32 + p)) as E.
  { symmetry. apply (Z.mod_unique _ _ (b2w (2 ^ 64 <=? r0 + r1 * 2 ^ 32 + p))); [left|lia].
    destruct (Z.leb_spec (2 ^ 64) (r0 + r1 * 2 ^ 32 + p)); cbn [b2w]; lia. }
  assert (((r0 + r1 * 2 ^ 32 + p) mod 2 ^ 64 <? p) = (2 ^ 64 <=? r0 + r1 * 2 ^ 32 + p)) as C.
  { rewrite E. destruct (Z.leb_spec (2 ^ 64) (r0 + r1 * 2 ^ 32 + p)); cbn [b2w]; [apply Z.ltb_lt|apply Z.ltb_ge]; lia. }
  rewrite C. pose proof (Z.mod_pos_bound (r0 + r1 * 2 ^ 32 + p) (2 ^ 64) ltac:(lia)) as Hm. set (s := _ mod _) in *.
  set (c := b2w _) in *. assert (0 <= c <= 1) as Hc by (unfold c; by destruct (_ <=? _)).
  rewrite (u32_small (r2 + c)) by lia. unfold u32. rewrite Z.shiftr_div_pow2 by lia.
  split; [split; [|split]|]; try lia; Z.div_mod_to_equations; lia.
Qed.

(** The sum of [n] products of a column. *)
Fixpoint col (n i k : nat) (l r : list Z) : Z :=
  match n with
  | O => 0
  | S n => l !!! i * r !!! (k - i)%nat + col n (S i) k l r
  end.

Lemma column_loop_val m q n i k l r acc : words m l -> words q r -> acc_ok acc ->
  acc_val acc + Z.of_nat n * 2 ^ 64 <= 2 ^ 96 ->
  acc_ok (column_loop n i k l r acc) /\ acc_val (column_loop n i k l r acc) = acc_val acc + col n i k l r /\
  0 <= col n i k l r <= Z.of_nat n * 2 ^ 64.
Proof.
  intros Hl Hr. revert i acc. induction n as [|n IH]; intros i acc Ha Hb; cbn [column_loop col]; [split; [done|lia]|].
  pose proof (words_lookup m l i Hl) as H1. pose proof (words_lookup q r (k - i) Hr) as H2.
  pose proof (word_mul _ _ H1 H2) as Hp.
  destruct (muladd_val (l !!! i) (r !!! (k - i)%nat) acc H1 H2 Ha ltac:(lia)) as [Ok V].
  destruct (IH (S i) _ Ok ltac:(rewrite V; lia)) as (Ok' & V' & B). split; [done|]. rewrite V', V. lia.
Qed.

Definition column (k N : nat) (l r : list Z) : Z :=
  if (k <? N)%nat then col (S k) 0 k l r else col (N - (k + 1 - N)) (k + 1 - N) k l r.

Fixpoint cols (n k N : nat) (l r : list Z) : Z :=
  match n with
  | O => 0
  | S n => column k N l r + 2 ^ 32 * cols n (S k) N l r
  end.

Lemma columns_loop_val n k l r r0 r1 : words 8 l -> words 8 r -> word r0 -> word r1 ->
  exists ws w c, columns_loop n k 8 l r (r0, r1, 0) = (ws, w) /\ words n ws /\ word w /\ 0 <= c /\
    val ws + W n * (w + 2 ^ 32 * c) = r0 + 2 ^ 32 * r1 + cols n k 8 l r.
Proof.
  intros Hl Hr. revert k r0 r1. induction n as [|n IH]; intros k r0 r1 H0 H1; cbn [columns_loop cols].
  - exists [], r0, r1. split; [done|]. split; [done|]. split; [done|]. split; [lia|]. cbn [val]. change (W 0) with 1. lia.
  - assert (exists acc, (if (k <? 8)%nat then column_loop (S k) 0 k l r (r0, r1, 0)
        else column_loop (8 - (k + 1 - 8)) (k + 1 - 8) k l r (r0, r1, 0)) = acc /\ acc_ok acc /\
        acc_val acc = r0 + 2 ^ 32 * r1 + column k 8 l r) as (acc & -> & Ok & V).
    { eexists. split; [done|]. unfold column. destruct (Nat.ltb_spec k 8) as [Hk|Hk].
      - destruct (column_loop_val 8 8 (S k) 0 k l r (r0, r1, 0) Hl Hr) as (A & B & C); [cbn [acc_ok]; lia|cbn [acc_val]; lia|].
        split; [done|]. rewrite B. cbn [acc_val]. lia.
      - destruct (column_loop_val 8 8 (8 - (k + 1 - 8)) (k + 1 - 8) k l r (r0, r1, 0) Hl Hr) as (A & B & C); [cbn [acc_ok]; lia|cbn [acc_val]; lia|].
        split; [done|]. rewrite B. cbn [acc_val]. lia. }
    destruct acc as [[a0 a1] a2]. cbn [acc_ok acc_val] in Ok, V. destruct Ok as (O0 & O1 & O2).
    destruct (IH (S k) a1 a2 O1 O2) as (ws & w & c & -> & Hws & Hw & Hc & V2).
    exists (a0 :: ws), w, c. split; [done|]. split; [by apply words_cons|]. split; [done|]. split; [done|].
    cbn [val]. rewrite W_S. nia.
Qed.

Lemma cols_product l r : words 8 l -> words 8 r -> cols 15 0 8 l r = val l * val r.
Proof.
  intros Hl Hr.
  do 8 (apply words_S in Hl as (? & ? & -> & _ & Hl)). rewrite (words_0 _ Hl).
  do 8 (apply words_S in Hr as (? & ? & -> & _ & Hr)). rewrite (words_0 _ Hr).
  cbn -[Z.mul Z.add Z.pow]. ring.
Qed.

Lemma mult_val l r : words 8 l -> words 8 r -> words 16 (uECC_vli_mult l r) /\ val (uECC_vli_mult l r) = val l * val r.
Proof.
  intros Hl Hr. unfold uECC_vli_mult. rewrite (words_length _ _ Hl). change (8 * 2 - 1)%nat with 15%nat.
  destruct (columns_loop_val 15 0 l r 0 0 Hl Hr) as (ws & w & c & -> & Hws & Hw & Hc & V); [lia..|].
  rewrite cols_product in V by done.
  assert (words 1 [w]) as H1 by (apply words_cons; done). split; [apply (words_app 15 1 _ _ Hws H1)|].
  rewrite (val_app 15) by by apply words_length. cbn [val].
  pose proof (val_bound 8 l Hl). pose proof (val_bound 8 r Hr). pose proof (val_bound 15 ws Hws).
  assert (val l * val r < W 16) as Hlt by (change (W 16) with (W 8 * W 8); apply Z.mul_lt_mono_nonneg; lia).
  assert (c = 0) as -> by (rewrite (W_S 15) in Hlt; pose proof (W_pos 15); nia). lia.
Qed.

(** ** Modular arithmetic *)

Lemma not_one_le n m r : words n m -> words n r -> negb (uECC_vli_cmp_unsafe m r =? 1) = (val m <=? val r).
Proof. intros Hm Hr. rewrite (cmp_unsafe_gt n) by done. by rewrite <- Z.leb_antisym. Qed.

Lemma b2w_zero c : negb (b2w c =? 0) = c.
Proof. by destruct c. Qed.

Lemma modAdd_val n l r m : words n l -> words n r -> words n m -> val l < val m -> val r < val m ->
  words n (uECC_vli_modAdd l r m) /\ val (uECC_vli_modAdd l r m) = (val l + val r) mod val m.
Proof.
  intros Hl Hr Hm Ll Lr. unfold uECC_vli_modAdd. destruct (add_val n l r Hl Hr) as (s & c & -> & Hs & V).
  rewrite b2w_zero, (not_one_le n) by done. destruct (sub_val n s m Hs Hm) as (d & b & -> & Hd & Vd). cbn [fst].
  pose proof (val_bound n l Hl). pose proof (val_bound n r Hr). pose proof (val_bound n s Hs).
  pose proof (val_bound n d Hd). pose proof (val_bound n m Hm). pose proof (W_pos n).
  destruct c; cbn [orb b2w] in *; [|destruct (Z.leb_spec (val m) (val s))]; (split; [done|]).
  - apply (Z.mod_unique _ _ 1); destruct b; cbn [b2w] in *; lia.
  - apply (Z.mod_unique _ _ 1); destruct b; cbn [b2w] in *; lia.
  - symmetry. rewrite Z.mod_small; lia.
Qed.

Lemma modSub_val n l r m : words n l -> words n r -> words n m -> val l < val m -> val r < val m ->
  words n (uECC_vli_modSub l r m) /\ val (uECC_vli_modSub l r m) = (val l - val r) mod val m.
Proof.
  intros Hl Hr Hm Ll Lr. unfold uECC_vli_modSub. destruct (sub_val n l r Hl Hr) as (s & c & -> & Hs & V).
  rewrite b2w_zero. destruct (add_val n s m Hs Hm) as (d & b & -> & Hd & Vd). cbn [fst].
  pose proof (val_bound n l Hl). pose proof (val_bound n r Hr). pose proof (val_bound n s Hs).
  pose proof (val_bound n d Hd). pose proof (val_bound n m Hm). pose proof (W_pos n).
  destruct c; cbn [b2w] in *; (split; [done|]).
  - apply (Z.mod_unique _ _ (-1)); destruct b; cbn [b2w] in *; lia.
  - symmetry. rewrite Z.mod_small; lia.
Qed.

(** ** Remainders *)

Lemma mmod_sub_loop v m (c : bool) : mmod_sub v m (b2w c) = sub_loop v m (b2w c).
Proof.
  revert m c. induction v as [|x v IH]; intros [|y m] c; cbn [mmod_sub sub_loop]; [done..|].
  rewrite cond_set_b2w.
  assert ((if negb (u32 (x - y - b2w c) =? x) then b2w (u32 (x - y - b2w c) >? x) else b2w c) =
    b2w (if negb (u32 (x - y - b2w c) =? x) then u32 (x - y - b2w c) >? x else c)) as -> by by destruct (negb _).
  by rewrite IH.
Qed.

Lemma mmod_shift_val mm : words 16 mm -> words 16 (mmod_shift mm 8) /\ val (mmod_shift mm 8) = val mm / 2.
Proof.
  intros H. destruct (words_split 8 8 mm H) as (low & high & -> & Hl & Hh). unfold mmod_shift.
  rewrite <- (words_length _ _ Hl), take_app_length, drop_app_length, (words_length _ _ Hl).
  destruct (rshift1_val 8 low Hl) as [Wl Vl]. destruct (rshift1_val 8 high Hh) as [Wh Vh]. change (8 - 1)%nat with 7%nat.
  set (lo := uECC_vli_rshift1 low) in *. apply words_snoc in Wl as (k & t & -> & Wk & Wt) .
  assert (exists x h, high = x :: h /\ word x /\ words 7 h) as (x & h & -> & Hx & Wx) by by apply words_S.
  change ((x :: h) !!! 0%nat) with x. rewrite lookup_app_snoc by (symmetry; by apply words_length).
  pose proof (words_length _ _ Wk) as Lk. rewrite insert_app_r_alt by lia. rewrite Lk, Nat.sub_diag.
  match goal with |- context [<[0%nat:=?y]> [t]] => change (<[0%nat:=y]> [t]) with [y] end.
  pose proof (val_bound _ _ Hl) as Bl. rewrite (val_app 7) in Vl by done. cbn [val] in Vl.
  assert (t < 2 ^ 31) as Ht.
  { pose proof (val_bound 7 k Wk). change (W 8) with (W 7 * 2 ^ 32) in Bl. pose proof (W_pos 7). assert (val low / 2 < W 7 * 2 ^ 31) by (apply Z.div_lt_upper_bound; lia). nia. }
  assert (Z.lor t (u32 (Z.shiftl x (uECC_WORD_BITS - 1))) = t + x mod 2 * 2 ^ 31) as ->.
  { unfold uECC_WORD_BITS. rewrite (u32_shiftl x 1) by (done || lia). apply (lor_low t _ 31); lia. }
  pose proof (Z.mod_pos_bound x 2 ltac:(lia)) as Bx. split.
  - apply (words_app 8 8); [|done]. apply (words_app 7 1); [done|]. apply words_cons. split; [lia|done].
  - rewrite (val_app 8) by (rewrite length_app, Lk; done). rewrite (val_app 7) by done. rewrite (val_app 8) by by apply words_length.
    rewrite Vh. cbn [val]. rewrite Z.mul_0_r, Z.add_0_r in Vl |- *. assert (x mod 2 = (x + 2 ^ 32 * val h) mod 2) as ->.
    { replace (x + 2 ^ 32 * val h) with (x + 2 ^ 31 * val h * 2) by lia. by rewrite Z.mod_add by lia. }
    change (W 8) with (W 7 * 2 ^ 31 * 2) in *. set (H2 := x + 2 ^ 32 * val h) in *.
    replace (val low + W 7 * 2 ^ 31 * 2 * H2) with (val low + W 7 * 2 ^ 31 * H2 * 2) by lia.
    rewrite Z.div_add by lia. pose proof (Z.div_mod H2 2 ltac:(lia)) as E.
    rewrite <- Vl. replace (W 7 * 2 ^ 31 * H2) with (W 7 * 2 ^ 31 * (2 * (H2 / 2) + H2 mod 2)) by (f_equal; lia). ring.
Qed.

(** The remainder stays below the modulus times a power of two that falls. *)
Lemma mmod_loop_val n m v0 v1 index mm : 0 < m -> words 16 v0 -> words 16 v1 -> words 16 mm ->
  val (if index : bool then v1 else v0) < m * 2 ^ Z.of_nat n ->
  (n <> 0%nat -> val mm * 2 = m * 2 ^ Z.of_nat n) ->
  exists v p, mmod_loop n 8 v0 v1 index mm = (v, p) /\ words 16 v /\ words 16 p /\ val v = val (if index then v1 else v0) mod m.
Proof.
  intros Hm. revert v0 v1 index mm. induction n as [|n IH]; intros v0 v1 index mm H0 H1 Hmm Hv HM; cbn [mmod_loop].
  - change (2 ^ Z.of_nat 0) with 1 in Hv. exists (if index then v1 else v0), v1. split; [done|].
    assert (words 16 (if index then v1 else v0)) as Hw by by destruct index.
    split; [done|]. split; [done|]. pose proof (val_bound 16 _ Hw). symmetry. apply Z.mod_small. lia.
  - assert (words 16 (if index then v1 else v0)) as Hw by by destruct index.
    specialize (HM ltac:(done)). rewrite Nat2Z.inj_succ, Z.pow_succ_r in Hv, HM by lia.
    destruct (mmod_shift_val mm Hmm) as [Ws Vs].
    change 0 with (b2w false) at 1. rewrite mmod_sub_loop.
    destruct (sub_loop_val 16 _ mm false Hw Hmm) as (d & c & -> & Hd & V). cbn [b2w] in V. rewrite b2w_zero.
    pose proof (val_bound 16 _ Hw) as Bv. pose proof (val_bound 16 _ Hd) as Bd. pose proof (val_bound 16 _ Hmm) as Bm.
    assert (val mm = m * 2 ^ Z.of_nat n) as EM by lia.
    assert (n <> 0%nat -> val (mmod_shift mm 8) * 2 = m * 2 ^ Z.of_nat n) as HM'.
    { intros Hn. rewrite Vs, EM. destruct n as [|n]; [done|]. rewrite Nat2Z.inj_succ, Z.pow_succ_r by lia.
      replace (m * (2 * 2 ^ Z.of_nat n)) with (m * 2 ^ Z.of_nat n * 2) by lia. rewrite Z.div_mul by lia. done. }
    set (v := val (if index then v1 else v0)) in *.
    assert (Hd' : c = false -> val d < m * 2 ^ Z.of_nat n) by (intros ->; cbn [b2w] in V; lia).
    assert (Hv' : c = true -> v < m * 2 ^ Z.of_nat n) by (intros ->; cbn [b2w] in V; lia).
    assert (Hr : c = false -> val d mod m = v mod m).
    { intros ->. cbn [b2w] in V. replace (val d) with (v + - 2 ^ Z.of_nat n * m) by lia. apply Z.mod_add. lia. }
    assert (forall (i' : bool) u0 u1 (x := if i' then u1 else u0), words 16 u0 -> words 16 u1 ->
      val x < m * 2 ^ Z.of_nat n -> val x mod m = v mod m ->
      exists q p, mmod_loop n 8 u0 u1 i' (mmod_shift mm 8) = (q, p) /\ words 16 q /\ words 16 p /\ val q = v mod m) as Step.
    { intros i' u0 u1 x Hu0 Hu1 Hx Ex. destruct (IH u0 u1 i' _ Hu0 Hu1 Ws Hx HM') as (q & p & E & Wq & Wp & Vq).
      exists q, p. rewrite <- Ex. done. }
    destruct index, c; cbn [xorb negb]; (apply Step; [done|done|auto|auto]).
Qed.

(** Moduli with their highest bit set, as the curve's prime and order have it. *)
Definition modulus (m : list Z) : Prop := words 8 m /\ 2 ^ 255 <= val m.

Lemma modulus_bits m : modulus m -> uECC_vli_numBits m = 256.
Proof.
  intros [Hm Hb]. rewrite (numBits_val 8) by done. pose proof (val_bound 8 m Hm) as B. change (W 8) with (2 ^ 256) in B.
  unfold bits. rewrite (proj2 (Z.eqb_neq _ 0)) by lia. rewrite (Z.log2_unique _ 255); lia.
Qed.

Lemma mmod_val p m : words 16 p -> modulus m -> exists v q, uECC_vli_mmod p m = (v, q) /\ words 8 v /\ words 16 q /\ val v = val p mod val m.
Proof.
  intros Hp Hm. unfold uECC_vli_mmod. rewrite (modulus_bits m Hm). destruct Hm as [Hm Hb].
  rewrite (words_length _ _ Hm). change (Z.of_nat 8 * 2 * uECC_WORD_BITS - 256) with 256. change (Z.to_nat (256 + 1)) with 257%nat.
  change (2 * 8)%nat with 16%nat. unfold mod_multiple_of. rewrite (words_length _ _ Hm).
  change (Z.to_nat (256 / uECC_WORD_BITS)) with 8%nat. change (256 mod uECC_WORD_BITS >? 0) with false. cbv iota.
  rewrite app_assoc. change (2 * 8)%nat with 16%nat.
  pose proof (words_app 8 8 _ _ (words_clear 8) Hm) as Hmm.
  assert (take 16 ((uECC_vli_clear 8 ++ m) ++ uECC_vli_clear 8) = uECC_vli_clear 8 ++ m) as ->.
  { apply take_app_length'. symmetry. exact (words_length _ _ Hmm). }
  pose proof (val_bound 16 p Hp) as Bp. pose proof (val_bound 8 m Hm) as Bm.
  destruct (mmod_loop_val 257 (val m) (uECC_vli_clear 16) p true (uECC_vli_clear 8 ++ m)) as (v & q & -> & Hv & Hq & V);
    [lia|apply words_clear|exact Hp|exact Hmm| | |].
  - change (W 16) with (2 ^ 255 * 2 ^ Z.of_nat 257) in Bp. assert (0 < 2 ^ Z.of_nat 257) by (apply Z.pow_pos_nonneg; lia). nia.
  - intros _. rewrite (val_app 8 _ _ (words_length _ _ (words_clear 8))), val_clear. change (W 8) with (2 ^ 256). change (2 ^ Z.of_nat 257) with (2 ^ 256 * 2). lia.
  - cbn iota in V. pose proof (Z.mod_pos_bound (val p) (val m) ltac:(lia)) as Br.
    destruct (words_split 8 8 v Hv) as (a & b & -> & Ha & Hb').
    rewrite <- (words_length _ _ Ha), take_app_length, (words_length _ _ Ha).
    rewrite (val_app 8) in V by by apply words_length. pose proof (val_bound 8 b Hb'). pose proof (val_bound 8 a Ha).
    assert (val b = 0) as Eb by (pose proof (W_pos 8); nia). rewrite Eb in V.
    exists a, q. split; [done|]. split; [done|]. split; [done|]. lia.
Qed.

Lemma modMult_val l r m : words 8 l -> words 8 r -> modulus m ->
  words 8 (uECC_vli_modMult l r m) /\ val (uECC_vli_modMult l r m) = (val l * val r) mod val m.
Proof.
  intros Hl Hr Hm. unfold uECC_vli_modMult. destruct (mult_val l r Hl Hr) as [Wp Vp].
  destruct (mmod_val _ m Wp Hm) as (v & q & -> & Hv & _ & V). cbn [fst]. split; [done|]. by rewrite V, Vp.
Qed.

(** ** Inverses *)

Section inverse.
  Context (m : list Z) (Wm : words 8 m) (Om : val m mod 2 = 1) (x : Z).

(** [u] times [x] is [a], modulo [m]. *)
Definition stands_for (u a : list Z) : Prop := words 8 u /\ words 8 a /\ val u < val m /\ (val m | val u * x - val a).

Lemma m_odd_gcd : Z.gcd (val m) 2 = 1.
Proof. by rewrite Z.gcd_comm, <- Z.gcd_mod, Om by lia. Qed.

Lemma halve_divides y : (val m | 2 * y) -> (val m | y).
Proof. intros H. exact (Z.gauss _ _ _ H m_odd_gcd). Qed.

Lemma set_high n s : words (S n) s -> val s < 2 ^ 31 * W n ->
  let s' := <[n := Z.lor (s !!! n) HIGH_BIT_SET]> s in words (S n) s' /\ val s' = val s + 2 ^ 31 * W n.
Proof.
  intros Hs Hv. apply words_snoc in Hs as (k & t & -> & Hk & Ht). cbn zeta.
  pose proof (words_length _ _ Hk) as Lk. rewrite lookup_app_snoc, insert_app_r_alt by lia. rewrite Lk, Nat.sub_diag.
  match goal with |- context [<[0%nat:=?y]> [t]] => change (<[0%nat:=y]> [t]) with [y] end.
  rewrite !(val_app n) in * by done. cbn [val] in *. rewrite Z.mul_0_r, Z.add_0_r in *.
  pose proof (val_bound n k Hk). pose proof (W_pos n).
  assert (t < 2 ^ 31) by (apply (Z.mul_lt_mono_pos_l (W n)); lia). change HIGH_BIT_SET with (1 * 2 ^ 31). rewrite (lor_low t 1 31) by lia.
  split; [|lia]. rewrite <- Nat.add_1_r. apply (words_app n 1); [done|]. apply words_cons. split; [lia|done].
Qed.

Lemma update_val u : words 8 u -> val u < val m ->
  words 8 (vli_modInv_update u m) /\ 2 * val (vli_modInv_update u m) = val u + (if val u mod 2 =? 0 then 0 else val m).
Proof.
  intros Hu Lu. unfold vli_modInv_update. rewrite (EVEN_val 7) by done.
  pose proof (val_bound 8 m Wm) as Bm. pose proof (val_bound 8 u Hu) as Bu. pose proof (Z.mod_pos_bound (val u) 2 ltac:(lia)) as Bp.
  pose proof (Z.div_mod (val u) 2 ltac:(lia)) as Du.
  destruct (Z.eqb_spec (val u mod 2) 0) as [E|E]; cbn [negb Z.eqb].
  - destruct (rshift1_val 8 u Hu) as [Ws Vs]. split; [done|]. rewrite Vs. lia.
  - destruct (add_val 8 u m Hu Wm) as (s & c & -> & Hs & V). destruct (rshift1_val 8 s Hs) as [Ws Vs].
    rewrite b2w_zero, (words_length _ _ Wm). change (8 - 1)%nat with 7%nat. pose proof (val_bound 8 s Hs) as Bs.
    assert ((val u + val m) mod 2 = 0) as Ev by (rewrite Z.add_mod, Om by lia; by replace (val u mod 2) with 1 by lia).
    pose proof (Z.div_mod (val u + val m) 2 ltac:(lia)) as Da.
    change (W 8) with (2 ^ 31 * W 7 * 2) in *.
    destruct c; cbn [b2w] in V.
    + assert (val s / 2 < 2 ^ 31 * W 7) as Hlt by (apply Z.div_lt_upper_bound; lia).
      destruct (set_high 7 _ Ws ltac:(rewrite Vs; exact Hlt)) as [Wh Vh]. split; [exact Wh|]. rewrite Vh, Vs.
      replace (val s) with (val u + val m + - (2 ^ 31 * W 7) * 2) by lia. rewrite Z.div_add by lia. lia.
    + split; [done|]. rewrite Vs. replace (val s) with (val u + val m) by lia. lia.
Qed.

(** A halving step. *)
Lemma half_step u a : stands_for u a -> val a mod 2 = 0 ->
  stands_for (vli_modInv_update u m) (uECC_vli_rshift1 a) /\ val a = 2 * val (uECC_vli_rshift1 a).
Proof.
  intros (Hu & Ha & Lu & D) Ea. destruct (rshift1_val 8 a Ha) as [Ws Vs]. destruct (update_val u Hu Lu) as [Wu Vu].
  pose proof (Z.div_mod (val a) 2 ltac:(lia)) as Da. pose proof (val_bound 8 m Wm).
  assert (val a = 2 * val (uECC_vli_rshift1 a)) as Va by lia. split; [|done].
  split; [done|]. split; [done|]. split; [destruct (_ =? 0); lia|]. apply halve_divides.
  replace (2 * (val (vli_modInv_update u m) * x - val (uECC_vli_rshift1 a)))
    with ((val u * x - val a) + (if val u mod 2 =? 0 then 0 else val m) * x) by nia.
  apply Z.divide_add_r; [done|]. destruct (_ =? 0); [by rewrite Z.mul_0_l; apply Z.divide_0_r|]. apply Z.divide_factor_l.
Qed.

(** A subtracting step, of the smaller number. *)
Definition diff_words (u v : list Z) : list Z :=
  fst (uECC_vli_sub (if uECC_vli_cmp_unsafe u v <? 0 then fst (uECC_vli_add u m) else u) v).

Lemma diff_step u a v b : stands_for u a -> stands_for v b -> val b < val a ->
  stands_for (diff_words u v) (fst (uECC_vli_sub a b)) /\ val (fst (uECC_vli_sub a b)) = val a - val b.
Proof.
  intros (Hu & Ha & Lu & Du) (Hv & Hb & Lv & Dv) Hlt. unfold diff_words.
  destruct (sub_val 8 a b Ha Hb) as (d & c & -> & Hd & Vd). cbn [fst].
  pose proof (val_bound 8 a Ha). pose proof (val_bound 8 b Hb). pose proof (val_bound 8 d Hd). pose proof (val_bound 8 m Wm).
  pose proof (val_bound 8 u Hu). pose proof (val_bound 8 v Hv). pose proof (W_pos 8).
  assert (val d = val a - val b) as Ed by (destruct c; cbn [b2w] in Vd; lia). split; [|done].
  rewrite (cmp_unsafe_lt 8) by done.
  destruct (add_val 8 u m Hu Wm) as (s & k & -> & Hs & Vs). cbn [fst].
  destruct (Z.ltb_spec (val u) (val v)).
  - destruct (sub_val 8 s v Hs Hv) as (w & e & -> & Hw & Vw). cbn [fst]. pose proof (val_bound 8 w Hw).
    assert (val w = val u + val m - val v) as Ew by (destruct k, e; cbn [b2w] in *; lia).
    split; [done|]. split; [done|]. split; [lia|]. rewrite Ew, Ed.
    replace ((val u + val m - val v) * x - (val a - val b)) with ((val u * x - val a) - (val v * x - val b) + val m * x) by ring.
    apply Z.divide_add_r; [by apply Z.divide_sub_r|apply Z.divide_factor_l].
  - destruct (sub_val 8 u v Hu Hv) as (w & e & -> & Hw & Vw). cbn [fst]. pose proof (val_bound 8 w Hw).
    assert (val w = val u - val v) as Ew by (destruct e; cbn [b2w] in *; lia).
    split; [done|]. split; [done|]. split; [lia|]. rewrite Ew, Ed.
    replace ((val u - val v) * x - (val a - val b)) with ((val u * x - val a) - (val v * x - val b)) by ring.
    by apply Z.divide_sub_r.
Qed.

Lemma gcd_half a b : b mod 2 = 1 -> Z.gcd (2 * a) b = Z.gcd a b.
Proof.
  intros Hb. apply Z.divide_antisym_nonneg; [apply Z.gcd_nonneg..| |].
  - apply Z.gcd_greatest; [|apply Z.gcd_divide_r]. apply (Z.gauss _ 2); [apply Z.gcd_divide_l|].
    apply Z.divide_antisym_nonneg; [apply Z.gcd_nonneg|lia| |apply Z.divide_1_l].
    assert (Z.gcd b 2 = 1) as <- by (by rewrite Z.gcd_comm, <- Z.gcd_mod, Hb by lia).
    apply Z.gcd_greatest; [|apply Z.gcd_divide_r].
    eapply Z.divide_trans; [apply Z.gcd_divide_l|apply Z.gcd_divide_r].
  - apply Z.gcd_greatest; [|apply Z.gcd_divide_r]. apply Z.divide_mul_r, Z.gcd_divide_l.
Qed.

Lemma odd_sub_even a b : a mod 2 = 1 -> b mod 2 = 1 -> (a - b) mod 2 = 0.
Proof. intros Ha Hb. by rewrite Zminus_mod, Ha, Hb. Qed.

Lemma mod2 a : a mod 2 = 0 \/ a mod 2 = 1.
Proof. pose proof (Z.mod_pos_bound a 2 ltac:(lia)). lia. Qed.

Lemma both_even a b : a mod 2 = 0 -> b mod 2 = 0 -> (2 | Z.gcd a b).
Proof. intros Ha Hb. apply Z.gcd_greatest; by apply Z.mod_divide. Qed.

Lemma modInv_loop_val fuel a b u v g :
  stands_for u a -> stands_for v b -> 0 < val a -> 0 < val b -> val a * val b < 2 ^ Z.of_nat fuel ->
  Z.gcd (val a) (val b) = g -> g mod 2 = 1 ->
  let w := modInv_loop fuel a b u v m in words 8 w /\ val w < val m /\ (val m | val w * x - g).
Proof.
  revert a b u v. induction fuel as [|fuel IH]; intros a b u v Ua Vb Pa Pb Hf Hg Og.
  - change (2 ^ Z.of_nat 0) with 1 in Hf. nia.
  - cbn [modInv_loop]. rewrite Nat2Z.inj_succ, Z.pow_succ_r in Hf by lia.
    pose proof Ua as (Hu & Ha & Lu & Da). pose proof Vb as (Hv & Hb & Lv & Db).
    rewrite (cmp_unsafe_val 8), (EVEN_val 7 a), (EVEN_val 7 b) by done.
    assert (Odd : forall y, (y mod 2 =? 0) = false -> y mod 2 = 1) by (intros y ?%Z.eqb_neq; destruct (mod2 y); lia).
    destruct (Z.eqb_spec (Z.sgn (val a - val b)) 0) as [E0|E0].
    { apply Z.sgn_null_iff in E0. assert (val a = val b) as E by lia. rewrite <- E, Z.gcd_diag, Z.abs_eq in Hg by lia. subst g. done. }
    destruct (val a mod 2 =? 0) eqn:Ea.
    { apply Z.eqb_eq in Ea. destruct (half_step u a Ua Ea) as [Ua' E].
      assert (val b mod 2 = 1) as Eb.
      { destruct (mod2 (val b)) as [Eb|]; [|done]. pose proof (both_even _ _ Ea Eb) as D2. rewrite Hg in D2. apply Z.mod_divide in D2; lia. }
      apply IH; [done|done|lia|done|nia| |done]. rewrite <- Hg, E. symmetry. by apply gcd_half. }
    apply Odd in Ea. destruct (val b mod 2 =? 0) eqn:Eb.
    { apply Z.eqb_eq in Eb. destruct (half_step v b Vb Eb) as [Vb' E].
      apply IH; [done|done|done|lia|nia| |done]. rewrite <- Hg, E, (Z.gcd_comm _ (2 * _)), Z.gcd_comm. symmetry. by apply gcd_half. }
    apply Odd in Eb. rewrite Z.gtb_ltb. destruct (Z.ltb_spec 0 (Z.sgn (val a - val b))) as [Hp|Hp].
    + apply Z.sgn_pos_iff in Hp. destruct (diff_step u a v b Ua Vb ltac:(lia)) as [Ud Ed].
      destruct (half_step _ _ Ud ltac:(rewrite Ed; by apply odd_sub_even)) as [Uh Eh].
      apply IH; [exact Uh|done|lia|done|nia| |done].
      rewrite <- Hg, <- (gcd_half _ (val b)), <- Eh, Ed, Z.gcd_comm, Z.gcd_sub_diag_r by done. apply Z.gcd_comm.
    + assert (val a < val b) as Hlt by (destruct (Z.sgn_spec (val a - val b)) as [[? ?]|[[? ?]|[? ?]]]; lia).
      destruct (diff_step v b u a Vb Ua Hlt) as [Ud Ed].
      destruct (half_step _ _ Ud ltac:(rewrite Ed; by apply odd_sub_even)) as [Uh Eh].
      apply IH; [done|exact Uh|done|lia|nia| |done].
      rewrite <- Hg, Z.gcd_comm, <- (gcd_half _ (val a)), <- Eh, Ed, Z.gcd_comm, Z.gcd_sub_diag_r by done. done.
Qed.
End inverse.

Lemma val_one : words 8 (<[0%nat := 1]> (uECC_vli_clear 8)) /\ val (<[0%nat := 1]> (uECC_vli_clear 8)) = 1.
Proof. split; [by apply is_words_ok|reflexivity]. Qed.

(** The result times the input is their greatest common divisor with the modulus,
    for every odd modulus above one. *)
Lemma modInv_val l m : words 8 l -> words 8 m -> val m mod 2 = 1 -> 1 < val m ->
  words 8 (uECC_vli_modInv l m) /\ val (uECC_vli_modInv l m) < val m /\
  (val m | val (uECC_vli_modInv l m) * val l - Z.gcd (val l) (val m)).
Proof.
  intros Hl Hm Om Pm. unfold uECC_vli_modInv. rewrite (isZero_true 8), negb_involutive, (words_length _ _ Hm) by done.
  destruct (Z.eqb_spec (val l) 0) as [E|E].
  - split; [apply words_clear|]. rewrite val_clear, E. split; [lia|]. rewrite Z.gcd_0_l, Z.abs_eq by lia. exists (-1). lia.
  - pose proof (val_bound 8 l Hl). pose proof (val_bound 8 m Hm). destruct val_one as [W1 V1].
    apply modInv_loop_val; try done; try lia.
    + split; [done|]. split; [done|]. split; [rewrite V1; lia|]. rewrite V1. exists 0. lia.
    + split; [apply words_clear|]. split; [done|]. rewrite val_clear. split; [lia|]. exists (-1). lia.
    + change (2 ^ Z.of_nat MODINV_FUEL) with (W 8 * W 8 * 2). nia.
    + destruct (mod2 (Z.gcd (val l) (val m))) as [Eg|]; [|done].
      apply Z.mod_divide in Eg; [|lia]. pose proof (Z.divide_trans _ _ _ Eg (Z.gcd_divide_r _ _)) as D.
      apply Z.mod_divide in D; lia.
Qed.

(** ** Bytes *)

Lemma z2b_ext x y : (forall i, 0 <= i < 8 -> Z.testbit x i = Z.testbit y i) -> z2b x = z2b y.
Proof.
  intros H. rewrite <- z2b_mod, <- (z2b_mod y). f_equal. change 256 with (2 ^ 8). apply Z.bits_inj'. intros i Hi.
  destruct (Z.lt_ge_cases i 8); [rewrite !Z.mod_pow2_bits_low by lia; apply H; lia|by rewrite !Z.mod_pow2_bits_high by lia].
Qed.

(** The position of a bit of byte [b] among the words. *)
Lemma byte_position b i : 0 <= i < 8 ->
  (8 * Z.of_nat b + i) / 32 = Z.of_nat (b / 4) /\ (8 * Z.of_nat b + i) mod 32 = 8 * Z.of_nat (b mod 4) + i.
Proof.
  intros Hi. rewrite Nat2Z.inj_div, Nat2Z.inj_mod. change (Z.of_nat 4) with 4. Z.div_mod_to_equations. lia.
Qed.

Lemma native_byte n l b : words n l -> (b < 4 * n)%nat ->
  z2b (Z.shiftr (l !!! (b / 4)%nat) (8 * Z.of_nat (b mod 4))) = z2b (Z.shiftr (val l) (8 * Z.of_nat b)).
Proof.
  intros Hl Hb. apply z2b_ext. intros i Hi. rewrite !Z.shiftr_spec by lia. rewrite (val_testbit n) by (done || lia).
  destruct (byte_position b i Hi) as [Ed Em]. rewrite (Z.add_comm i (8 * Z.of_nat b)), Ed, Em, Nat2Z.id. f_equal. lia.
Qed.

Lemma be_bytes_map n x : (fun i => z2b (Z.shiftr x (8 * Z.of_nat (n - 1 - i)))) <$> seq 0 n = be_bytes n x.
Proof.
  revert x. induction n as [|n IH]; intros x; [done|]. rewrite seq_S, fmap_app. cbn [be_bytes]. f_equal.
  - rewrite <- IH. apply list_fmap_ext. intros k i [-> Hk]%lookup_seq. f_equal.
    change 256 with (2 ^ 8). rewrite <- Z.shiftr_div_pow2, Z.shiftr_shiftr by lia. f_equal. lia.
  - cbn. replace (n - 0 - n)%nat with 0%nat by lia. cbn. done.
Qed.

Lemma nativeToBytes_val n l : words n l -> uECC_vli_nativeToBytes (4 * n) l = be_bytes (4 * n) (val l).
Proof.
  intros Hl. rewrite <- be_bytes_map. unfold uECC_vli_nativeToBytes. apply list_fmap_ext. intros k i [-> Hk]%lookup_seq.
  apply (native_byte n); [done|lia].
Qed.

Lemma testbit_above n l i : words n l -> 32 * Z.of_nat n <= i -> Z.testbit (val l) i = false.
Proof. intros Hl Hi. apply (bits_above (32 * Z.of_nat n)); [by apply val_bound|lia..]. Qed.

Lemma lookup_insert_word n l j y k : words n l -> (j < n)%nat -> <[j := y]> l !!! k = if decide (k = j) then y else l !!! k.
Proof.
  intros Hl Hj. case_decide as Hk.
  - subst k. apply list_lookup_total_insert_eq. by rewrite (words_length _ _ Hl).
  - by rewrite list_lookup_total_insert_ne.
Qed.

(** A byte put at its place. *)
Lemma put_byte n l b y : words n l -> (b < 4 * n)%nat -> 0 <= y < 2 ^ 8 ->
  let l' := <[(b / 4)%nat := Z.lor (l !!! (b / 4)%nat) (u32 (Z.shiftl y (8 * Z.of_nat (b mod 4))))]> l in
  words n l' /\ val l' = Z.lor (val l) (Z.shiftl y (8 * Z.of_nat b)).
Proof.
  intros Hl Hb Hy. cbn zeta.
  assert (word (Z.shiftl y (8 * Z.of_nat (b mod 4)))) as Hs.
  { rewrite Z.shiftl_mul_pow2 by lia. assert (8 * Z.of_nat (b mod 4) <= 24) by (pose proof (Nat.mod_upper_bound b 4); lia).
    pose proof (Z.pow_le_mono_r 2 (8 * Z.of_nat (b mod 4)) 24 ltac:(lia) ltac:(lia)) as Hp.
    pose proof (Z.pow_nonneg 2 (8 * Z.of_nat (b mod 4)) ltac:(lia)). nia. }
  rewrite u32_small by done.
  assert (words n (<[(b / 4)%nat := Z.lor (l !!! (b / 4)%nat) (Z.shiftl y (8 * Z.of_nat (b mod 4)))]> l)) as Hw.
  { apply words_insert; [done|]. apply lor_pow2; [lia|by apply (words_lookup n)|done]. }
  split; [done|]. apply Z.bits_inj'. intros i Hi. rewrite Z.lor_spec, Z.shiftl_spec by lia.
  destruct (Z.lt_ge_cases i (32 * Z.of_nat n)) as [Hlt|Hge].
  - rewrite !(val_testbit n) by done. assert (b / 4 < n)%nat by (apply Nat.Div0.div_lt_upper_bound; lia).
    rewrite (lookup_insert_word n) by done. pose proof (Nat.div_mod_eq b 4). case_decide as Hk.
    + rewrite Hk, Z.lor_spec, Z.shiftl_spec by (apply Z.mod_pos_bound; lia). do 2 f_equal. Z.div_mod_to_equations. lia.
    + destruct (Z.lt_ge_cases (i - 8 * Z.of_nat b) 0) as [|Hge0]; [by rewrite (Z.testbit_neg_r y), orb_false_r by lia|].
      rewrite (bits_above 8 y); [by rewrite orb_false_r|done| |lia]. pose proof (Nat.mod_upper_bound b 4). Z.div_mod_to_equations. lia.
  - rewrite !(testbit_above n) by done. rewrite (bits_above 8 y) by lia. done.
Qed.

Lemma be_cons_take bs i : (i < length bs)%nat -> be (take (S i) bs) = be (take i bs) * 256 + b2z (bs !!! i).
Proof. intros Hi. rewrite (take_S_r bs i (bs !!! i)) by by apply list_lookup_lookup_total_lt. apply be_snoc. Qed.

Lemma bytes_loop_val n i nb bs w native : (i + n = nb)%nat -> (nb <= length bs)%nat -> (nb <= 4 * w)%nat -> words w native ->
  val native = be (take i bs) * 256 ^ Z.of_nat n ->
  words w (bytes_loop n i nb bs native) /\ val (bytes_loop n i nb bs native) = be (take nb bs).
Proof.
  intros Hn Hnb Hw. revert i native Hn. induction n as [|n IH]; intros i native Hn Hl V; cbn [bytes_loop].
  - split; [done|]. rewrite V. replace i with nb by lia. change (256 ^ Z.of_nat 0) with 1. lia.
  - destruct (put_byte w native (nb - 1 - i) (b2z (bs !!! i)) Hl ltac:(lia) (b2z_bound _)) as [Hl' V'].
    apply IH; [lia|exact Hl'|]. rewrite V', V, be_cons_take by lia. replace (nb - 1 - i)%nat with n by lia.
    rewrite Nat2Z.inj_succ, Z.pow_succ_r by lia.
    replace (8 * Z.of_nat n) with (Z.of_nat n * 8) by lia.
    assert (256 ^ Z.of_nat n = 2 ^ (Z.of_nat n * 8)) as E by (rewrite Z.mul_comm, Z.pow_mul_r by lia; done). rewrite E.
    assert (0 < 2 ^ (Z.of_nat n * 8)) by (apply Z.pow_pos_nonneg; lia). pose proof (b2z_bound (bs !!! i)) as By.
    replace (be (take i bs) * (256 * 2 ^ (Z.of_nat n * 8))) with (be (take i bs) * 2 ^ (Z.of_nat n * 8 + 8))
      by (rewrite Z.pow_add_r by lia; change (2 ^ 8) with 256; lia).
    rewrite <- (Z.shiftl_mul_pow2 (be _)), lor_parts, Z.shiftl_mul_pow2, Z.pow_add_r by (try lia; rewrite Z.shiftl_mul_pow2, Z.pow_add_r by lia; nia).
    change (2 ^ 8) with 256. lia.
Qed.

(** The words of big-endian bytes. *)
Lemma bytesToNative_val n bs : (n <= length bs)%nat ->
  words ((n + 3) / 4) (uECC_vli_bytesToNative bs n) /\ val (uECC_vli_bytesToNative bs n) = be (take n bs).
Proof.
  intros Hn. unfold uECC_vli_bytesToNative. apply (bytes_loop_val n 0 n bs); [done|done| |apply words_clear|rewrite val_clear; done].
  pose proof (Nat.div_mod_eq (n + 3) 4). pose proof (Nat.mod_upper_bound (n + 3) 4). lia.
Qed.
