(* ===== verification/EccPoint.v ===== *)
(** * tinycrypt: the curve P-256

    The point operations of [tinycrypt/source/ecc.c] for the only curve of the
    library, whose functions the structure of the curve points to.  Coordinates are
    words of [EccVli]; a function that works in place returns the new
    coordinates. *)

From S2P Require Import Prelude EccVli.

(** ** The curve *)

Definition curve_p : list Z :=
  [0xffffffff; 0xffffffff; 0xffffffff; 0x00000000; 0x00000000; 0x00000000; 0x00000001; 0xffffffff].

Definition curve_n : list Z :=
  [0xfc632551; 0xf3b9cac2; 0xa7179e84; 0xbce6faad; 0xffffffff; 0xffffffff; 0x00000000; 0xffffffff].

Definition curve_Gx : list Z :=
  [0xd898c296; 0xf4a13945; 0x2deb33a0; 0x77037d81; 0x63a440f2; 0xf8bce6e5; 0xe12c4247; 0x6b17d1f2].

Definition curve_Gy : list Z :=
  [0x37bf51f5; 0xcbb64068; 0x6b315ece; 0x2bce3357; 0x7c0f9e16; 0x8ee7eb4a; 0xfe1a7f9b; 0x4fe342e2].

Definition curve_b : list Z :=
  [0x27d2604b; 0x3bce3c3e; 0xcc53b0f6; 0x651d06b0; 0x769886bc; 0xb3ebbd55; 0xaa3a93e7; 0x5ac635d8].

Definition num_n_bits : Z := 256.
Definition num_bytes : nat := 32.

Definition BITS_TO_BYTES (num_bits : Z) : Z := (num_bits + 7) / 8.

Definition uECC_curve_private_key_size : Z := BITS_TO_BYTES num_n_bits.
Definition uECC_curve_public_key_size : Z := 2 * Z.of_nat num_bytes.

(** ** Reduction modulo the prime *)

(** The last loops: the result and the carry, with [fuel] rounds at most. *)
Fixpoint add_p_loop (fuel : nat) (result : list Z) (carry : Z) : list Z :=
  match fuel with
  | O => result
  | S fuel =>
      let '(result, c) := uECC_vli_add result curve_p in
      let carry := carry + c in
      if carry <? 0 then add_p_loop fuel result carry else result
  end.

Fixpoint sub_p_loop (fuel : nat) (result : list Z) (carry : Z) : list Z :=
  match fuel with
  | O => result
  | S fuel =>
      if negb (carry =? 0) || negb (uECC_vli_cmp_unsafe curve_p result =? 1) then
        let '(result, b) := uECC_vli_sub result curve_p in
        sub_p_loop fuel result (carry - b)
      else result
  end.

Definition MMOD_FUEL : nat := 16.

Definition vli_mmod_fast_secp256r1 (product : list Z) : list Z :=
  let w i := product !!! Z.to_nat i in
  (* t *)
  let result := take NUM_ECC_WORDS product in
  (* s1 *)
  let tmp := [0; 0; 0; w 11; w 12; w 13; w 14; w 15] in
  let '(tmp, c) := uECC_vli_add tmp tmp in
  let carry := c in
  let '(result, c) := uECC_vli_add result tmp in
  let carry := carry + c in
  (* s2 *)
  let tmp := [tmp !!! 0%nat; tmp !!! 1%nat; tmp !!! 2%nat; w 12; w 13; w 14; w 15; 0] in
  let '(tmp, c) := uECC_vli_add tmp tmp in
  let carry := carry + c in
  let '(result, c) := uECC_vli_add result tmp in
  let carry := carry + c in
  (* s3 *)
  let tmp := [w 8; w 9; w 10; 0; 0; 0; w 14; w 15] in
  let '(result, c) := uECC_vli_add result tmp in
  let carry := carry + c in
  (* s4 *)
  let tmp := [w 9; w 10; w 11; w 13; w 14; w 15; w 13; w 8] in
  let '(result, c) := uECC_vli_add result tmp in
  let carry := carry + c in
  (* d1 *)
  let tmp := [w 11; w 12; w 13; 0; 0; 0; w 8; w 10] in
  let '(result, c) := uECC_vli_sub result tmp in
  let carry := carry - c in
  (* d2 *)
  let tmp := [w 12; w 13; w 14; w 15; 0; 0; w 9; w 11] in
  let '(result, c) := uECC_vli_sub result tmp in
  let carry := carry - c in
  (* d3 *)
  let tmp := [w 13; w 14; w 15; w 8; w 9; w 10; 0; w 12] in
  let '(result, c) := uECC_vli_sub result tmp in
  let carry := carry - c in
  (* d4 *)
  let tmp := [w 14; w 15; 0; w 9; w 10; w 11; 0; w 13] in
  let '(result, c) := uECC_vli_sub result tmp in
  let carry := carry - c in
  if carry <? 0 then add_p_loop MMOD_FUEL result carry else sub_p_loop MMOD_FUEL result carry.

Definition uECC_vli_modMult_fast (lhs rhs : list Z) : list Z := vli_mmod_fast_secp256r1 (uECC_vli_mult lhs rhs).
Definition uECC_vli_modSquare_fast (lhs : list Z) : list Z := uECC_vli_modMult_fast lhs lhs.

(** ** Formulas *)

(** Halving modulo the prime, as [double_jacobian_default] does it. *)
Definition halve_p (x : list Z) : list Z :=
  if negb (uECC_vli_testBit x 0 =? 0) then
    let '(x, l_carry) := uECC_vli_add x curve_p in
    let x := uECC_vli_rshift1 x in
    let top := (NUM_ECC_WORDS - 1)%nat in
    <[top := Z.lor (x !!! top) (u32 (Z.shiftl l_carry (uECC_WORD_BITS - 1)))]> x
  else uECC_vli_rshift1 x.

Definition double_jacobian_default (P : list Z * list Z * list Z) : list Z * list Z * list Z :=
  let '(X1, Y1, Z1) := P in
  if negb (uECC_vli_isZero Z1 =? 0) then (X1, Y1, Z1)
  else
    let t4 := uECC_vli_modSquare_fast Y1 in
    let t5 := uECC_vli_modMult_fast X1 t4 in
    let t4 := uECC_vli_modSquare_fast t4 in
    let Y1 := uECC_vli_modMult_fast Y1 Z1 in
    let Z1 := uECC_vli_modSquare_fast Z1 in
    let X1 := uECC_vli_modAdd X1 Z1 curve_p in
    let Z1 := uECC_vli_modAdd Z1 Z1 curve_p in
    let Z1 := uECC_vli_modSub X1 Z1 curve_p in
    let X1 := uECC_vli_modMult_fast X1 Z1 in
    let Z1 := uECC_vli_modAdd X1 X1 curve_p in
    let X1 := uECC_vli_modAdd X1 Z1 curve_p in
    let X1 := halve_p X1 in
    let Z1 := uECC_vli_modSquare_fast X1 in
    let Z1 := uECC_vli_modSub Z1 t5 curve_p in
    let Z1 := uECC_vli_modSub Z1 t5 curve_p in
    let t5 := uECC_vli_modSub t5 Z1 curve_p in
    let X1 := uECC_vli_modMult_fast X1 t5 in
    let t4 := uECC_vli_modSub X1 t4 curve_p in
    (Z1, t4, Y1).

(** x^3 - 3x + b *)
Definition x_side_default (x : list Z) : list Z :=
  let _3 := [3; 0; 0; 0; 0; 0; 0; 0] in
  let result := uECC_vli_modSquare_fast x in
  let result := uECC_vli_modSub result _3 curve_p in
  let result := uECC_vli_modMult_fast result x in
  uECC_vli_modAdd result curve_b curve_p.

(** A point of two coordinates. *)
Abbreviation ecc_point := (list Z * list Z)%type.

Definition EccPoint_isZero (point : ecc_point) : Z := uECC_vli_isZero (fst point ++ snd point).

Definition apply_z (P : ecc_point) (z : list Z) : ecc_point :=
  let '(X1, Y1) := P in
  let t1 := uECC_vli_modSquare_fast z in
  let X1 := uECC_vli_modMult_fast X1 t1 in
  let t1 := uECC_vli_modMult_fast t1 z in
  let Y1 := uECC_vli_modMult_fast Y1 t1 in
  (X1, Y1).

(** The first point is doubled, the second is the point itself. *)
Definition XYcZ_initial_double (P1 : ecc_point) (initial_Z : option (list Z)) : ecc_point * ecc_point :=
  let z := match initial_Z with
           | Some z => z
           | None => <[0%nat := 1]> (uECC_vli_clear NUM_ECC_WORDS)
           end in
  let P2 := P1 in
  let '(X1, Y1) := apply_z P1 z in
  let '(X1, Y1, z) := double_jacobian_default (X1, Y1, z) in
  ((X1, Y1), apply_z P2 z).

Definition XYcZ_add (P1 P2 : ecc_point) : ecc_point * ecc_point :=
  let '(X1, Y1) := P1 in
  let '(X2, Y2) := P2 in
  let t5 := uECC_vli_modSub X2 X1 curve_p in
  let t5 := uECC_vli_modSquare_fast t5 in
  let X1 := uECC_vli_modMult_fast X1 t5 in
  let X2 := uECC_vli_modMult_fast X2 t5 in
  let Y2 := uECC_vli_modSub Y2 Y1 curve_p in
  let t5 := uECC_vli_modSquare_fast Y2 in
  let t5 := uECC_vli_modSub t5 X1 curve_p in
  let t5 := uECC_vli_modSub t5 X2 curve_p in
  let X2 := uECC_vli_modSub X2 X1 curve_p in
  let Y1 := uECC_vli_modMult_fast Y1 X2 in
  let X2 := uECC_vli_modSub X1 t5 curve_p in
  let Y2 := uECC_vli_modMult_fast Y2 X2 in
  let Y2 := uECC_vli_modSub Y2 Y1 curve_p in
  let X2 := t5 in
  ((X1, Y1), (X2, Y2)).

Definition XYcZ_addC (P1 P2 : ecc_point) : ecc_point * ecc_point :=
  let '(X1, Y1) := P1 in
  let '(X2, Y2) := P2 in
  let t5 := uECC_vli_modSub X2 X1 curve_p in
  let t5 := uECC_vli_modSquare_fast t5 in
  let X1 := uECC_vli_modMult_fast X1 t5 in
  let X2 := uECC_vli_modMult_fast X2 t5 in
  let t5 := uECC_vli_modAdd Y2 Y1 curve_p in
  let Y2 := uECC_vli_modSub Y2 Y1 curve_p in
  let t6 := uECC_vli_modSub X2 X1 curve_p in
  let Y1 := uECC_vli_modMult_fast Y1 t6 in
  let t6 := uECC_vli_modAdd X1 X2 curve_p in
  let X2 := uECC_vli_modSquare_fast Y2 in
  let X2 := uECC_vli_modSub X2 t6 curve_p in
  let t7 := uECC_vli_modSub X1 X2 curve_p in
  let Y2 := uECC_vli_modMult_fast Y2 t7 in
  let Y2 := uECC_vli_modSub Y2 Y1 curve_p in
  let t7 := uECC_vli_modSquare_fast t5 in
  let t7 := uECC_vli_modSub t7 t6 curve_p in
  let t6 := uECC_vli_modSub t7 X1 curve_p in
  let t6 := uECC_vli_modMult_fast t6 t5 in
  let Y1 := uECC_vli_modSub t6 Y1 curve_p in
  let X1 := t7 in
  ((X1, Y1), (X2, Y2)).

(** ** Multiplication by a scalar *)

(** [Rx[nb]], [Ry[nb]] and the other point; [R0] and [R1] are the rows of the arrays. *)
Definition ladder_addC (nb : bool) (R0 R1 : ecc_point) : ecc_point * ecc_point :=
  if nb then let '(R0, R1) := XYcZ_addC R0 R1 in (R0, R1)
  else let '(R1, R0) := XYcZ_addC R1 R0 in (R0, R1).

Definition ladder_add (nb : bool) (R0 R1 : ecc_point) : ecc_point * ecc_point :=
  if nb then let '(R1, R0) := XYcZ_add R1 R0 in (R0, R1)
  else let '(R0, R1) := XYcZ_add R0 R1 in (R0, R1).

(** The loop over the bits [i] down to 1. *)
Fixpoint ladder_loop (i : nat) (scalar : list Z) (R0 R1 : ecc_point) : ecc_point * ecc_point :=
  match i with
  | O => (R0, R1)
  | S j =>
      let nb := uECC_vli_testBit scalar (Z.of_nat i) =? 0 in
      let '(R0, R1) := ladder_addC nb R0 R1 in
      let '(R0, R1) := ladder_add nb R0 R1 in
      ladder_loop j scalar R0 R1
  end.

Definition EccPoint_mult (point : ecc_point) (scalar : list Z) (initial_Z : option (list Z)) (num_bits : Z) : ecc_point :=
  let '(R1, R0) := XYcZ_initial_double point initial_Z in
  let '(R0, R1) := ladder_loop (Z.to_nat (num_bits - 2)) scalar R0 R1 in
  let nb := uECC_vli_testBit scalar 0 =? 0 in
  let '(R0, R1) := ladder_addC nb R0 R1 in
  let Rb := if nb then R0 else R1 in
  let z := uECC_vli_modSub (fst R1) (fst R0) curve_p in
  let z := uECC_vli_modMult_fast z (snd Rb) in
  let z := uECC_vli_modMult_fast z (fst point) in
  let z := uECC_vli_modInv z curve_p in
  let z := uECC_vli_modMult_fast z (snd point) in
  let z := uECC_vli_modMult_fast z (fst Rb) in
  let '(R0, R1) := ladder_add nb R0 R1 in
  apply_z R0 z.

(** ** Keys *)

(** The carry, [k0] and [k1]. *)
Definition regularize_k (k : list Z) : Z * list Z * list Z :=
  let num_n_words := NUM_ECC_WORDS in
  let '(k0, c) := uECC_vli_add k curve_n in
  let carry := b2w (negb (c =? 0) || ((num_n_bits <? Z.of_nat num_n_words * 4 * 8) && negb (uECC_vli_testBit k0 num_n_bits =? 0))) in
  (carry, k0, fst (uECC_vli_add k0 curve_n)).

(** The result and the point. *)
Definition EccPoint_compute_public_key (private_key : list Z) : Z * ecc_point :=
  let '(carry, tmp1, tmp2) := regularize_k private_key in
  let result := EccPoint_mult (curve_Gx, curve_Gy) (if carry =? 0 then tmp2 else tmp1) None (num_n_bits + 1) in
  (if negb (EccPoint_isZero result =? 0) then 0 else 1, result).

Definition uECC_valid_point (point : ecc_point) : Z :=
  if negb (EccPoint_isZero point =? 0) then -1
  else if negb (uECC_vli_cmp_unsafe curve_p (fst point) =? 1) || negb (uECC_vli_cmp_unsafe curve_p (snd point) =? 1) then -2
  else
    let tmp1 := uECC_vli_modSquare_fast (snd point) in
    let tmp2 := x_side_default (fst point) in
    if negb (uECC_vli_equal tmp1 tmp2 =? 0) then -3 else 0.

Definition uECC_valid_public_key (public_key : list byte) : Z :=
  let _public := (uECC_vli_bytesToNative (take num_bytes public_key) num_bytes,
                  uECC_vli_bytesToNative (drop num_bytes public_key) num_bytes) in
  if uECC_vli_cmp_unsafe (fst _public ++ snd _public) (curve_Gx ++ curve_Gy) =? 0 then -4
  else uECC_valid_point _public.

(** The result, and the key when it was computed. *)
Definition uECC_compute_public_key (private_key : list byte) : Z * option (list byte) :=
  let _private := uECC_vli_bytesToNative private_key num_bytes in
  if negb (uECC_vli_isZero _private =? 0) then (0, None)
  else if negb (uECC_vli_cmp curve_n _private =? 1) then (0, None)
  else
    let '(res, _public) := EccPoint_compute_public_key _private in
    if res =? 0 then (0, None)
    else (1, Some (uECC_vli_nativeToBytes num_bytes (fst _public) ++ uECC_vli_nativeToBytes num_bytes (snd _public))).
