(* ===== verification/EccPointSpec.v ===== *)
(** * tinycrypt: what the curve's functions compute

    The fast reduction gives the remainder modulo the prime, so the coordinates
    that the formulas of [EccPoint] work on are elements of the field.  The formulas
    are related to the chords and tangents of the curve, and the check of a point to
    the equation of the curve. *)

From S2P Require Import Prelude TcWords EccVli EccVliSpec EccPoint.

(** ** The prime and the order *)

Definition P : Z := val curve_p.
Definition N : Z := val curve_n.

Lemma P_value : P = 2 ^ 256 - 2 ^ 224 + 2 ^ 192 + 2 ^ 96 - 1.
Proof. reflexivity. Qed.

Lemma P_bound : 0 < P < W 8.
Proof. split; reflexivity. Qed.

Lemma modulus_p : modulus curve_p.
Proof. split; [by apply is_words_ok|by apply Z.leb_le]. Qed.

Lemma modulus_n : modulus curve_n.
Proof. split; [by apply is_words_ok|by apply Z.leb_le]. Qed.

Lemma words_p : words 8 curve_p.
Proof. apply modulus_p. Qed.

Lemma words_n : words 8 curve_n.
Proof. apply modulus_n. Qed.

(** ** Fast reduction *)

Lemma add_p_loop_val fuel r c : words 8 r -> c < 0 -> - (Z.of_nat fuel * P) <= val r + W 8 * c ->
  words 8 (add_p_loop fuel r c) /\ val (add_p_loop fuel r c) = (val r + W 8 * c) mod P.
Proof.
  pose proof P_bound as HP. revert r c. induction fuel as [|fuel IH]; intros r c Hr Hc Hf.
  - pose proof (val_bound 8 r Hr). nia.
  - cbn [add_p_loop]. destruct (add_val 8 r curve_p Hr words_p) as (s & k & -> & Hs & V). fold P in V.
    pose proof (val_bound 8 r Hr). pose proof (val_bound 8 s Hs).
    assert (val s + W 8 * (c + b2w k) = val r + W 8 * c + P) as E by lia.
    destruct (Z.ltb_spec (c + b2w k) 0) as [Hn|Hn].
    + destruct (IH s (c + b2w k) Hs Hn ltac:(lia)) as [Ws Vs]. split; [done|]. rewrite Vs, E.
      replace (val r + W 8 * c + P) with (val r + W 8 * c + 1 * P) by lia. apply Z.mod_add. lia.
    + split; [done|]. assert (c + b2w k = 0) as E0 by (destruct k; cbn [b2w] in *; lia).
      assert (W 8 * c <= W 8 * -1) by (apply Z.mul_le_mono_nonneg_l; lia).
      rewrite E0 in E. apply (Z.mod_unique _ _ (-1)); [left|]; lia.
Qed.

Lemma sub_p_loop_val fuel r c : words 8 r -> 0 <= c -> val r + W 8 * c < Z.of_nat fuel * P ->
  words 8 (sub_p_loop fuel r c) /\ val (sub_p_loop fuel r c) = (val r + W 8 * c) mod P.
Proof.
  pose proof P_bound as HP. revert r c. induction fuel as [|fuel IH]; intros r c Hr Hc Hf.
  - pose proof (val_bound 8 r Hr). assert (0 <= W 8 * c) by (apply Z.mul_nonneg_nonneg; lia). lia.
  - cbn [sub_p_loop]. rewrite (not_one_le 8 curve_p r words_p Hr). fold P. pose proof (val_bound 8 r Hr).
    destruct (negb (c =? 0) || (P <=? val r)) eqn:E.
    + destruct (sub_val 8 r curve_p Hr words_p) as (s & k & -> & Hs & V). fold P in V. pose proof (val_bound 8 s Hs).
      assert (val s + W 8 * (c - b2w k) = val r + W 8 * c - P) as Es by lia.
      assert (0 <= c - b2w k) as Hk.
      { apply orb_true_iff in E as [E%negb_true_iff%Z.eqb_neq|E%Z.leb_le]; destruct k; cbn [b2w] in *; lia. }
      destruct (IH s (c - b2w k) Hs Hk ltac:(lia)) as [Ws Vs]. split; [done|]. rewrite Vs, Es.
      replace (val r + W 8 * c - P) with (val r + W 8 * c + -1 * P) by lia. apply Z.mod_add. lia.
    + apply orb_false_iff in E as [E%negb_false_iff%Z.eqb_eq L%Z.leb_gt]. split; [done|].
      rewrite E, Z.mul_0_r, Z.add_0_r. symmetry. apply Z.mod_small. lia.
Qed.

Lemma add_zeros l r : uECC_vli_add (0 :: 0 :: 0 :: l) (0 :: 0 :: 0 :: r) = let '(s, c) := uECC_vli_add l r in (0 :: 0 :: 0 :: s, c).
Proof.
  unfold uECC_vli_add.
  change (add_loop (0 :: 0 :: 0 :: l) (0 :: 0 :: 0 :: r) 0) with
    (let '(s, c) := let '(s, c) := let '(s, c) := add_loop l r 0 in (0 :: s, c) in (0 :: s, c) in (0 :: s, c)).
  by destruct (add_loop l r 0).
Qed.

Ltac word_list := repeat (apply words_cons; split; [lia|]); done.

(** Substitutes a sum or difference of [n] words by its value. *)
Ltac step_add n :=
  match goal with |- context [uECC_vli_add ?l ?r] =>
    let s := fresh "s" in let c := fresh "c" in let Hs := fresh "Hs" in let V := fresh "V" in
    destruct (add_val n l r) as (s & c & -> & Hs & V); [done || word_list|done || word_list|] end.
Ltac step_sub n :=
  match goal with |- context [uECC_vli_sub ?l ?r] =>
    let s := fresh "s" in let c := fresh "c" in let Hs := fresh "Hs" in let V := fresh "V" in
    destruct (sub_val n l r) as (s & c & -> & Hs & V); [done || word_list|done || word_list|] end.

Lemma mmod_fast_val p : words 16 p -> words 8 (vli_mmod_fast_secp256r1 p) /\ val (vli_mmod_fast_secp256r1 p) = val p mod P.
Proof.
  intros Hp.
  apply words_S in Hp as (w0 & ? & -> & ? & Hp). apply words_S in Hp as (w1 & ? & -> & ? & Hp).
  apply words_S in Hp as (w2 & ? & -> & ? & Hp). apply words_S in Hp as (w3 & ? & -> & ? & Hp).
  apply words_S in Hp as (w4 & ? & -> & ? & Hp). apply words_S in Hp as (w5 & ? & -> & ? & Hp).
  apply words_S in Hp as (w6 & ? & -> & ? & Hp). apply words_S in Hp as (w7 & ? & -> & ? & Hp).
  apply words_S in Hp as (w8 & ? & -> & ? & Hp). apply words_S in Hp as (w9 & ? & -> & ? & Hp).
  apply words_S in Hp as (w10 & ? & -> & ? & Hp). apply words_S in Hp as (w11 & ? & -> & ? & Hp).
  apply words_S in Hp as (w12 & ? & -> & ? & Hp). apply words_S in Hp as (w13 & ? & -> & ? & Hp).
  apply words_S in Hp as (w14 & ? & -> & ? & Hp). apply words_S in Hp as (w15 & ? & -> & ? & Hp).
  rewrite (words_0 _ Hp). clear Hp.
  unfold vli_mmod_fast_secp256r1. cbv zeta.
  change (take NUM_ECC_WORDS _) with [w0; w1; w2; w3; w4; w5; w6; w7].
  cbv [Z.to_nat Pos.to_nat Pos.iter_op Nat.add lookup_total list_lookup_total].
  rewrite add_zeros.
  step_add 5%nat. step_add 8%nat.
  rewrite add_zeros. step_add 5%nat.
  do 3 step_add 8%nat. do 4 step_sub 8%nat.
  match goal with |- words 8 (if ?k <? 0 then add_p_loop _ ?s _ else _) /\ _ => set (carry := k); set (result := s) in * end.
  set (p := val [w0; w1; w2; w3; w4; w5; w6; w7; w8; w9; w10; w11; w12; w13; w14; w15]).
  assert (val result + W 8 * carry = p + P * (- w8 - 4294967297 * w9 - 18446744078004518912 * w10
    - 79228162532711081667253501951 * w11 - 340282367000166625977638945021017194495 * w12
    - 1461501637671185285124623296161210883009696235519 * w13
    - 6277101736848182401166692341332123086285927382448418586623 * w14
    - 26959946673427741530053695850515137729844644212646842236464328081408 * w15)) as E.
  { subst carry p. cbn [val] in *. rewrite P_value. change (W 8) with (2 ^ 96 * W 5) in *. clear -V V0 V1 V2 V3 V4 V5 V6 V7 V8.
    change (W 5) with (2 ^ 160) in *. lia. }
  assert (- (16 * P) <= val result + W 8 * carry < 16 * P) as B.
  { subst carry. pose proof P_value. cbn [val] in *. change (W 8) with (2 ^ 96 * W 5) in *. change (W 5) with (2 ^ 160) in *. lia. }
  assert ((val result + W 8 * carry) mod P = p mod P) as <-.
  { rewrite E, Z.mul_comm. apply Z.mod_add. pose proof P_bound. lia. }
  destruct (Z.ltb_spec carry 0); [apply add_p_loop_val|apply sub_p_loop_val]; done || (change (Z.of_nat MMOD_FUEL) with 16; lia).
Qed.

(** ** Elements of the field *)

Definition fe (l : list Z) : Prop := words 8 l /\ val l < P.

Lemma fe_words l : fe l -> words 8 l.
Proof. by intros [? _]. Qed.

Lemma fe_bound l : fe l -> 0 <= val l < P.
Proof. intros [H ?]. pose proof (val_bound 8 l H). lia. Qed.

Lemma fe_mod l x : words 8 l -> val l = x mod P -> fe l /\ val l = x mod P.
Proof. intros H E. split; [|done]. split; [done|]. rewrite E. apply Z.mod_pos_bound. pose proof P_bound. lia. Qed.

Lemma mul_fe l r : words 8 l -> words 8 r -> fe (uECC_vli_modMult_fast l r) /\ val (uECC_vli_modMult_fast l r) = (val l * val r) mod P.
Proof.
  intros Hl Hr. unfold uECC_vli_modMult_fast. destruct (mult_val l r Hl Hr) as [Wp Vp].
  destruct (mmod_fast_val _ Wp) as [Wr Vr]. rewrite Vp in Vr. by apply fe_mod.
Qed.

Lemma square_fe l : words 8 l -> fe (uECC_vli_modSquare_fast l) /\ val (uECC_vli_modSquare_fast l) = (val l * val l) mod P.
Proof. intros Hl. by apply mul_fe. Qed.

Lemma add_fe l r : fe l -> fe r -> fe (uECC_vli_modAdd l r curve_p) /\ val (uECC_vli_modAdd l r curve_p) = (val l + val r) mod P.
Proof. intros [Hl Ll] [Hr Lr]. destruct (modAdd_val 8 l r curve_p Hl Hr words_p Ll Lr) as [? ?]. by apply fe_mod. Qed.

Lemma sub_fe l r : fe l -> fe r -> fe (uECC_vli_modSub l r curve_p) /\ val (uECC_vli_modSub l r curve_p) = (val l - val r) mod P.
Proof. intros [Hl Ll] [Hr Lr]. destruct (modSub_val 8 l r curve_p Hl Hr words_p Ll Lr) as [? ?]. by apply fe_mod. Qed.

Lemma P_odd : val curve_p mod 2 = 1.
Proof. reflexivity. Qed.

Lemma inv_fe l : words 8 l -> fe (uECC_vli_modInv l curve_p) /\ (P | val (uECC_vli_modInv l curve_p) * val l - Z.gcd (val l) P).
Proof.
  intros Hl. destruct (modInv_val l curve_p Hl words_p P_odd) as (Ww & Lw & D); [reflexivity|]. by split.
Qed.

Lemma halve_fe x : fe x -> fe (halve_p x) /\ (val (halve_p x) * 2) mod P = val x.
Proof.
  intros [Hx Lx]. pose proof (val_bound 8 x Hx) as Bx. pose proof P_bound as HP.
  assert (vli_modInv_update x curve_p = halve_p x) as <-.
  { unfold vli_modInv_update, halve_p. rewrite (testBit_val 8), (EVEN_val 7), Z.bit0_odd by (done || lia).
    rewrite negb_involutive, Zmod_odd. destruct (Z.odd (val x)); [|done]. cbn [Z.eqb negb].
    destruct (add_val 8 x curve_p Hx words_p) as (s & c & -> & Hs & V). rewrite b2w_zero.
    destruct (rshift1_val 8 s Hs) as [Ws _]. change (length curve_p - 1)%nat with 7%nat. change (NUM_ECC_WORDS - 1)%nat with 7%nat.
    destruct c; [done|]. change (u32 (Z.shiftl (b2w false) (uECC_WORD_BITS - 1))) with 0. rewrite Z.lor_0_r.
    symmetry. apply list_insert_id. apply list_lookup_lookup_total_lt. rewrite (words_length _ _ Ws). lia. }
  destruct (update_val curve_p words_p P_odd x Hx Lx) as [Wu Vu]. fold P in Vu.
  pose proof (val_bound 8 _ Wu).
  destruct (val x mod 2 =? 0).
  - split; [split; [done|lia]|]. rewrite Z.mod_small by lia. lia.
  - split; [split; [done|lia]|]. symmetry. apply (Z.mod_unique _ _ 1); [left|]; lia.
Qed.

Create HintDb fe.

(** ** Equality modulo the prime *)

Definition eqP (x y : Z) : Prop := x mod P = y mod P.
Infix "≡p" := eqP (at level 70) : tfm_scope.

#[global] Instance eqP_equivalence : Equivalence eqP.
Proof. split; [done|by intros ???|intros ??? H1 H2; by etrans]. Qed.

#[global] Instance eqP_add : Proper (eqP ==> eqP ==> eqP) Z.add.
Proof. intros x x' Hx y y' Hy. unfold eqP in *. by rewrite Zplus_mod, Hx, Hy, <- Zplus_mod. Qed.

#[global] Instance eqP_sub : Proper (eqP ==> eqP ==> eqP) Z.sub.
Proof. intros x x' Hx y y' Hy. unfold eqP in *. by rewrite Zminus_mod, Hx, Hy, <- Zminus_mod. Qed.

#[global] Instance eqP_mul : Proper (eqP ==> eqP ==> eqP) Z.mul.
Proof. intros x x' Hx y y' Hy. unfold eqP in *. by rewrite Zmult_mod, Hx, Hy, <- Zmult_mod. Qed.

Lemma eqP_of x y : x = y -> x ≡p y.
Proof. by intros ->. Qed.

Lemma eqP_mod x y : x = y mod P -> x ≡p y.
Proof. intros ->. apply Z.mod_mod. pose proof P_bound. lia. Qed.

Lemma eqP_eq x y : 0 <= x < P -> 0 <= y < P -> x ≡p y <-> x = y.
Proof. intros Hx Hy. unfold eqP. by rewrite !Z.mod_small. Qed.

Lemma eqP_half x y : x * 2 ≡p y * 2 -> x ≡p y.
Proof.
  intros H. pose proof P_bound. assert (P | x - y) as D.
  { apply (Z.gauss _ 2); [|reflexivity]. apply Z.mod_divide; [lia|].
    replace (2 * (x - y)) with (x * 2 - y * 2) by lia. by rewrite Zminus_mod, H, <- Zminus_mod, Z.sub_diag. }
  destruct D as [k Hk]. unfold eqP. replace x with (y + k * P) by lia. by apply Z.mod_add; lia.
Qed.

Lemma mul_eqP l r : words 8 l -> words 8 r -> val (uECC_vli_modMult_fast l r) ≡p val l * val r.
Proof. intros. by apply eqP_mod, mul_fe. Qed.
Lemma square_eqP l : words 8 l -> val (uECC_vli_modSquare_fast l) ≡p val l * val l.
Proof. intros. by apply eqP_mod, square_fe. Qed.
Lemma add_eqP l r : fe l -> fe r -> val (uECC_vli_modAdd l r curve_p) ≡p val l + val r.
Proof. intros. by apply eqP_mod, add_fe. Qed.
Lemma sub_eqP l r : fe l -> fe r -> val (uECC_vli_modSub l r curve_p) ≡p val l - val r.
Proof. intros. by apply eqP_mod, sub_fe. Qed.
Lemma mul_fe' l r : words 8 l -> words 8 r -> fe (uECC_vli_modMult_fast l r).
Proof. intros. by apply mul_fe. Qed.
Lemma square_fe' l : words 8 l -> fe (uECC_vli_modSquare_fast l).
Proof. intros. by apply square_fe. Qed.
Lemma add_fe' l r : fe l -> fe r -> fe (uECC_vli_modAdd l r curve_p).
Proof. intros. by apply add_fe. Qed.
Lemma sub_fe' l r : fe l -> fe r -> fe (uECC_vli_modSub l r curve_p).
Proof. intros. by apply sub_fe. Qed.
Lemma halve_fe' l : fe l -> fe (halve_p l).
Proof. intros. by apply halve_fe. Qed.

(** Membership follows the operations. *)
Ltac fe :=
  solve [repeat match goal with
    | H : ?A |- ?A => exact H
    | |- words 8 _ => apply fe_words
    | |- fe (uECC_vli_modMult_fast _ _) => apply mul_fe'
    | |- fe (uECC_vli_modSquare_fast _) => apply square_fe'
    | |- fe (uECC_vli_modAdd _ _ _) => apply add_fe'
    | |- fe (uECC_vli_modSub _ _ _) => apply sub_fe'
    | |- fe (halve_p _) => apply halve_fe'
    | |- fe _ => eauto with fe
    end].

(** ** Points of the curve *)

Definition G : Z * Z := (val curve_Gx, val curve_Gy).

(** The affine points: y^2 = x^3 - 3x + b. *)
Definition on_curve (x y : Z) : Prop := y * y ≡p x * x * x - 3 * x + val curve_b.

#[global] Instance on_curve_dec x y : Decision (on_curve x y) := Z.eq_dec _ _.

Lemma fe_b : fe curve_b.
Proof. split; [by apply is_words_ok|by apply Z.ltb_lt]. Qed.

Lemma fe_3 : fe [3; 0; 0; 0; 0; 0; 0; 0].
Proof. split; [by apply is_words_ok|by apply Z.ltb_lt]. Qed.

#[export] Hint Resolve fe_b fe_3 : fe.

Lemma x_side_val x : fe x -> fe (x_side_default x) /\ val (x_side_default x) ≡p val x * val x * val x - 3 * val x + val curve_b.
Proof.
  intros Hx. unfold x_side_default. split; [fe|]. rewrite add_eqP, mul_eqP, sub_eqP, square_eqP by fe.
  change (val [3; 0; 0; 0; 0; 0; 0; 0]) with 3. apply eqP_of; ring.
Qed.

Definition is_zero_point (x y : Z) : bool := (x =? 0) && (y =? 0).

Lemma point_isZero_val p : words 8 (fst p) -> words 8 (snd p) ->
  (EccPoint_isZero p =? 0) = negb (is_zero_point (val (fst p)) (val (snd p))).
Proof.
  intros Hx Hy. unfold EccPoint_isZero, is_zero_point. rewrite (isZero_true 16) by apply (words_app 8 8 _ _ Hx Hy).
  f_equal. rewrite (val_app 8) by by apply words_length.
  pose proof (val_bound 8 _ Hx). pose proof (val_bound 8 _ Hy). pose proof (W_pos 8).
  destruct (Z.eqb_spec (val (fst p)) 0), (Z.eqb_spec (val (snd p)) 0); cbn [andb]; [apply Z.eqb_eq|apply Z.eqb_neq..]; nia.
Qed.

(** What the check of a point answers. *)
Definition point_verdict (x y : Z) : Z :=
  if is_zero_point x y then -1
  else if negb ((x <? P) && (y <? P)) then -2
  else if decide (on_curve x y) then 0 else -3.

Lemma valid_point_val p : words 8 (fst p) -> words 8 (snd p) -> uECC_valid_point p = point_verdict (val (fst p)) (val (snd p)).
Proof.
  intros Hx Hy. unfold uECC_valid_point, point_verdict. rewrite point_isZero_val, negb_involutive by done.
  destruct (is_zero_point _ _); [done|].
  rewrite !(cmp_unsafe_gt 8 curve_p _ words_p), <- negb_andb by done. fold P.
  destruct ((val (fst p) <? P) && (val (snd p) <? P)) eqn:E; cbn [negb]; [|done].
  apply andb_true_iff in E as [Lx%Z.ltb_lt Ly%Z.ltb_lt]. assert (fe (fst p)) as Fx by done.
  destruct (x_side_val _ Fx) as [Fr Er]. destruct (square_fe _ Hy) as [Fs _]. pose proof (square_eqP _ Hy) as Es.
  rewrite (equal_val 8), b2w_zero by fe.
  case_decide as Hc; destruct (Z.eqb_spec (val (uECC_vli_modSquare_fast (snd p))) (val (x_side_default (fst p)))) as [E|E]; try done; exfalso.
  - apply E, eqP_eq; [by apply fe_bound..|]. by rewrite Er, Es.
  - apply Hc. unfold on_curve. by rewrite <- Er, <- Es, E.
Qed.

Lemma words_G : words 16 (curve_Gx ++ curve_Gy).
Proof. by apply is_words_ok. Qed.

(** ** Chords and tangents *)

(** A point whose coordinates are scaled by the square and the cube of [z]. *)
Definition scaled (z : Z) (q : Z * Z) (p : ecc_point) : Prop :=
  fe (fst p) /\ fe (snd p) /\ val (fst p) ≡p fst q * (z * z) /\ val (snd p) ≡p snd q * (z * z * z).

(** Where the line with slope [l] through two points (or the tangent, when they
    are the same) meets the curve again, mirrored. *)
Definition line_sum (l : Z) (p q : Z * Z) : Z * Z :=
  let x := l * l - fst p - fst q in (x, l * (fst p - x) - snd p).

Definition slope (l : Z) (p q : Z * Z) : Prop := l * (fst q - fst p) ≡p snd q - snd p.
Definition tangent (l : Z) (p : Z * Z) : Prop := l * (2 * snd p) ≡p 3 * (fst p * fst p) - 3.
Definition mirrored (p : Z * Z) : Z * Z := (fst p, - snd p).

Ltac eqP_ops := repeat first [rewrite mul_eqP by fe | rewrite square_eqP by fe | rewrite add_eqP by fe | rewrite sub_eqP by fe].

(** The formulas for two points with one scale keep it common. *)
Lemma XYcZ_add_val z p q P1 P2 l : scaled z p P1 -> scaled z q P2 -> slope l p q ->
  let z' := z * (val (fst P2) - val (fst P1)) in
  scaled z' p (fst (XYcZ_add P1 P2)) /\ scaled z' (line_sum l p q) (snd (XYcZ_add P1 P2)).
Proof.
  destruct P1 as [X1 Y1], P2 as [X2 Y2], p as [x1 y1], q as [x2 y2].
  intros (F1 & F2 & E1 & E2) (F3 & F4 & E3 & E4) Hs. cbn [fst snd] in *. unfold slope in Hs. cbn [fst snd] in Hs.
  assert (y2 ≡p l * (x2 - x1) + y1) as Ey by (rewrite Hs; apply eqP_of; ring).
  rewrite Ey in E4. cbn zeta. unfold XYcZ_add, scaled, line_sum. cbn [fst snd].
  split; (split; [fe|split; [fe|]]); split; eqP_ops; rewrite ?E1, ?E2, ?E3, ?E4; apply eqP_of; ring.
Qed.

(** ... and those for the difference and the sum. *)
Lemma XYcZ_addC_val z p q P1 P2 l m : scaled z p P1 -> scaled z q P2 -> slope l p q -> slope m p (mirrored q) ->
  let z' := z * (val (fst P2) - val (fst P1)) in
  scaled z' (line_sum m p (mirrored q)) (fst (XYcZ_addC P1 P2)) /\ scaled z' (line_sum l p q) (snd (XYcZ_addC P1 P2)).
Proof.
  destruct P1 as [X1 Y1], P2 as [X2 Y2], p as [x1 y1], q as [x2 y2].
  intros (F1 & F2 & E1 & E2) (F3 & F4 & E3 & E4) Hl Hm. unfold slope, mirrored in *. cbn [fst snd] in *.
  assert (y2 ≡p l * (x2 - x1) + y1) as Ey by (rewrite Hl; apply eqP_of; ring).
  assert (y2 ≡p - (m * (x2 - x1)) - y1) as Em by (rewrite <- (Z.sub_0_l (m * _)), Hm; apply eqP_of; ring).
  cbn zeta. unfold XYcZ_addC, scaled, line_sum. cbn [fst snd].
  split; (split; [fe|split; [fe|]]); [rewrite Em in E4|rewrite Ey in E4]; split; eqP_ops; rewrite ?E1, ?E2, ?E3, ?E4; apply eqP_of; ring.
Qed.

Lemma double_nonzero Z1 : words 8 Z1 -> val Z1 <> 0 -> negb (uECC_vli_isZero Z1 =? 0) = false.
Proof. intros HZ Hz. rewrite (isZero_true 8) by done. by rewrite (proj2 (Z.eqb_neq _ _) Hz). Qed.

(** Doubling: the new scale is the third coordinate. *)
Lemma double_val p l X Y Z1 : scaled (val Z1) p (X, Y) -> fe Z1 -> val Z1 <> 0 -> tangent l p ->
  exists X3 Y3 Z3, double_jacobian_default (X, Y, Z1) = (X3, Y3, Z3) /\ fe Z3 /\
    val Z3 ≡p val Y * val Z1 /\ scaled (val Z3) (line_sum l p p) (X3, Y3).
Proof.
  destruct p as [x y]. intros (F1 & F2 & E1 & E2) FZ Hz Ht. unfold tangent in Ht. cbn [fst snd] in *.
  unfold double_jacobian_default. rewrite (double_nonzero Z1 (fe_words _ FZ) Hz). cbv zeta.
  eexists _, _, _. split; [reflexivity|]. split; [fe|]. split; [by eqP_ops|].
  set (z := val Z1) in *.
  set (t := uECC_vli_modMult_fast (uECC_vli_modAdd X (uECC_vli_modSquare_fast Z1) curve_p)
      (uECC_vli_modSub (uECC_vli_modAdd X (uECC_vli_modSquare_fast Z1) curve_p)
         (uECC_vli_modAdd (uECC_vli_modSquare_fast Z1) (uECC_vli_modSquare_fast Z1) curve_p) curve_p)).
  set (B := halve_p _).
  assert (fe t) as Ft by (subst t; fe). assert (fe B) as FB by (subst B; fe).
  assert (val B ≡p l * y * (z * z * z * z)) as EB.
  { apply eqP_half. subst B. destruct (halve_fe (uECC_vli_modAdd t (uECC_vli_modAdd t t curve_p) curve_p)) as [_ Eh]; [fe|].
    assert (val (halve_p (uECC_vli_modAdd t (uECC_vli_modAdd t t curve_p) curve_p)) * 2 ≡p
      val (uECC_vli_modAdd t (uECC_vli_modAdd t t curve_p) curve_p)) as -> by (symmetry; by apply eqP_mod).
    rewrite !add_eqP by fe. subst t. eqP_ops. fold z. rewrite E1.
    transitivity ((3 * (x * x) - 3) * (z * z * z * z)); [apply eqP_of; ring|]. rewrite <- Ht. apply eqP_of. ring. }
  unfold scaled, line_sum. cbn [fst snd]. split; [fe|]. split; [fe|].
  split; eqP_ops; fold z; rewrite ?EB, ?E1, ?E2; apply eqP_of; ring.
Qed.

(** ** Coordinates stay in the field *)

Definition fe_point (p : ecc_point) : Prop := fe (fst p) /\ fe (snd p).

Lemma apply_z_val p z : words 8 (fst p) -> words 8 (snd p) -> words 8 z -> scaled (val z) (val (fst p), val (snd p)) (apply_z p z).
Proof.
  destruct p as [X Y]. cbn [fst snd]. intros HX HY Hz. unfold apply_z, scaled. cbn [fst snd].
  split; [fe|]. split; [fe|]. split; eqP_ops; [done|]. apply eqP_of. ring.
Qed.

Lemma apply_z_fe p z : fe_point p -> fe z -> fe_point (apply_z p z).
Proof. intros [Hx Hy] Hz. destruct (apply_z_val p z) as (? & ? & _); [fe..|]. by split. Qed.

Lemma double_fe X Y Z1 : fe X -> fe Y -> fe Z1 -> let '(X', Y', Z') := double_jacobian_default (X, Y, Z1) in fe X' /\ fe Y' /\ fe Z'.
Proof.
  intros HX HY HZ. unfold double_jacobian_default. destruct (negb _); cbv zeta; [done|]. split; [|split]; fe.
Qed.

Lemma add_points_fe p q : fe_point p -> fe_point q -> fe_point (fst (XYcZ_add p q)) /\ fe_point (snd (XYcZ_add p q)).
Proof.
  destruct p as [X1 Y1], q as [X2 Y2]. intros [H1 H2] [H3 H4]. cbn [fst snd] in *. unfold XYcZ_add, fe_point. cbn [fst snd].
  split; split; fe.
Qed.

Lemma addC_points_fe p q : fe_point p -> fe_point q -> fe_point (fst (XYcZ_addC p q)) /\ fe_point (snd (XYcZ_addC p q)).
Proof.
  destruct p as [X1 Y1], q as [X2 Y2]. intros [H1 H2] [H3 H4]. cbn [fst snd] in *. unfold XYcZ_addC, fe_point. cbn [fst snd].
  split; split; fe.
Qed.

Lemma ladder_addC_fe nb p q : fe_point p -> fe_point q -> fe_point (fst (ladder_addC nb p q)) /\ fe_point (snd (ladder_addC nb p q)).
Proof.
  intros Hp Hq. unfold ladder_addC. destruct nb.
  - pose proof (addC_points_fe p q Hp Hq). by destruct (XYcZ_addC p q).
  - pose proof (addC_points_fe q p Hq Hp) as [? ?]. by destruct (XYcZ_addC q p).
Qed.

Lemma ladder_add_fe nb p q : fe_point p -> fe_point q -> fe_point (fst (ladder_add nb p q)) /\ fe_point (snd (ladder_add nb p q)).
Proof.
  intros Hp Hq. unfold ladder_add. destruct nb.
  - pose proof (add_points_fe q p Hq Hp) as [? ?]. by destruct (XYcZ_add q p).
  - pose proof (add_points_fe p q Hp Hq). by destruct (XYcZ_add p q).
Qed.

Lemma ladder_loop_fe i scalar p q : fe_point p -> fe_point q ->
  fe_point (fst (ladder_loop i scalar p q)) /\ fe_point (snd (ladder_loop i scalar p q)).
Proof.
  revert p q. induction i as [|i IH]; intros p q Hp Hq; cbn [ladder_loop]; [done|].
  set (nb := _ =? 0). pose proof (ladder_addC_fe nb p q Hp Hq) as [H1 H2]. destruct (ladder_addC nb p q) as [p1 q1]. cbn [fst snd] in *.
  pose proof (ladder_add_fe nb p1 q1 H1 H2) as [H3 H4]. destruct (ladder_add nb p1 q1) as [p2 q2]. by apply IH.
Qed.

Lemma fe_one : fe (<[0%nat := 1]> (uECC_vli_clear NUM_ECC_WORDS)).
Proof. split; [by apply is_words_ok|by apply Z.ltb_lt]. Qed.

Lemma initial_double_fe p z : fe_point p -> (forall z0, z = Some z0 -> fe z0) ->
  fe_point (fst (XYcZ_initial_double p z)) /\ fe_point (snd (XYcZ_initial_double p z)).
Proof.
  intros Hp Hz. unfold XYcZ_initial_double. set (z1 := match z with Some z => z | None => _ end).
  assert (fe z1) as Hz1 by (subst z1; destruct z as [z0|]; [by apply Hz|apply fe_one]).
  pose proof (apply_z_fe p z1 Hp Hz1) as [Hx Hy]. destruct (apply_z p z1) as [X1 Y1]. cbn [fst snd] in *.
  pose proof (double_fe X1 Y1 z1 Hx Hy Hz1) as Hd. destruct (double_jacobian_default (X1, Y1, z1)) as [[X2 Y2] z2].
  destruct Hd as (HX & HY & HZ). split; [by split|]. by apply apply_z_fe.
Qed.

(** A multiple of a point has coordinates in the field. *)
Lemma mult_fe p scalar z num_bits : fe_point p -> (forall z0, z = Some z0 -> fe z0) -> fe_point (EccPoint_mult p scalar z num_bits).
Proof.
  intros Hp Hz. unfold EccPoint_mult. pose proof (initial_double_fe p z Hp Hz) as [H1 H2].
  destruct (XYcZ_initial_double p z) as [R1 R0]. cbn [fst snd] in *.
  pose proof (ladder_loop_fe (Z.to_nat (num_bits - 2)) scalar R0 R1 H2 H1) as [H3 H4].
  destruct (ladder_loop _ scalar R0 R1) as [R0' R1']. cbn [fst snd] in *. set (nb := _ =? 0).
  pose proof (ladder_addC_fe nb R0' R1' H3 H4) as [H5 H6]. destruct (ladder_addC nb R0' R1') as [S0 S1]. cbn [fst snd] in *.
  pose proof (ladder_add_fe nb S0 S1 H5 H6) as [H7 H8]. destruct (ladder_add nb S0 S1) as [T0 T1]. cbn [fst snd] in *.
  apply apply_z_fe; [done|]. destruct H5 as [H5 H5'], H6 as [H6 H6'], Hp as [Hp Hp'].
  assert (fe_point (if nb then S0 else S1)) as [Hb Hb'] by by destruct nb.
  apply mul_fe'; [|fe]. apply fe_words, mul_fe'; [|fe]. apply fe_words, inv_fe. fe.
Qed.

Lemma fe_G : fe_point (curve_Gx, curve_Gy).
Proof. split; (split; [by apply is_words_ok|by apply Z.ltb_lt]). Qed.

Lemma mult_G_fe scalar num_bits : fe_point (EccPoint_mult (curve_Gx, curve_Gy) scalar None num_bits).
Proof. apply mult_fe; [apply fe_G|done]. Qed.

(** ** Keys as bytes *)

(** The two coordinates of an encoded key. *)
Definition key_point (bs : list byte) : Z * Z := (be (take 32 bs), be (drop 32 bs)).

Lemma bytes_words bs : length bs = 32%nat -> words 8 (uECC_vli_bytesToNative bs 32) /\ val (uECC_vli_bytesToNative bs 32) = be bs.
Proof. intros H. destruct (bytesToNative_val 32 bs) as [Hw Hv]; [lia|]. rewrite firstn_all2 in Hv by lia. split; [exact Hw|exact Hv]. Qed.

Lemma parts_unique w x y a b : 0 <= x < w -> 0 <= y < w -> x + w * a = y + w * b -> x = y /\ a = b.
Proof. intros Hx Hy H. assert (a = b) as -> by (destruct (Z.lt_total a b) as [|[|]]; nia). lia. Qed.

Lemma valid_key_val bs : length bs = 64%nat ->
  uECC_valid_public_key bs = if decide (key_point bs = G) then -4 else point_verdict (be (take 32 bs)) (be (drop 32 bs)).
Proof.
  intros H. unfold uECC_valid_public_key, key_point, G. change num_bytes with 32%nat. cbv zeta. cbn [fst snd].
  destruct (bytes_words (take 32 bs)) as [Wx <-]; [rewrite length_take; lia|].
  destruct (bytes_words (drop 32 bs)) as [Wy <-]; [rewrite length_drop; lia|].
  generalize dependent (uECC_vli_bytesToNative (drop 32 bs) 32). generalize dependent (uECC_vli_bytesToNative (take 32 bs) 32).
  clear H. intros x Wx y Wy. rewrite (valid_point_val (x, y)) by done. cbn [fst snd].
  destruct fe_G as [[Wgx _] [Wgy _]]. cbn [fst snd] in Wgx, Wgy.
  revert Wgx Wgy. generalize curve_Gx, curve_Gy. intros gx gy Wgx Wgy.
  rewrite (cmp_unsafe_val 16) by (apply (words_app 8 8); done).
  rewrite !(val_app 8) by by apply words_length.
  pose proof (val_bound 8 _ Wx) as Bx. pose proof (val_bound 8 _ Wgx) as Bg. case_decide as E.
  - injection E as -> ->. by rewrite Z.sub_diag.
  - destruct (Z.eqb_spec (Z.sgn (val x + W 8 * val y - (val gx + W 8 * val gy))) 0) as [Es|Es]; [|done].
    exfalso. apply E. apply Z.sgn_null_iff in Es.
    destruct (parts_unique (W 8) (val x) (val gx) (val y) (val gy)) as [-> ->]; [done|done|lia|done].
Qed.

(** ** Claims *)

(** C22: The fast reduction of tinycrypt is the remainder: for every product of
    sixteen words [vli_mmod_fast_secp256r1] returns the same eight words as the
    bitwise division of [uECC_vli_mmod] by the prime, the number modulo the prime.
    Its last loops end within the fuel they have. *)
Theorem fast_reduction_exact (product : list Z) : words 16 product ->
  vli_mmod_fast_secp256r1 product = fst (uECC_vli_mmod product curve_p) /\
  words 8 (vli_mmod_fast_secp256r1 product) /\ val (vli_mmod_fast_secp256r1 product) = val product mod val curve_p.
Proof.
  intros Hp. destruct (mmod_fast_val product Hp) as [Wf Vf]. destruct (mmod_val product curve_p Hp modulus_p) as (v & q & -> & Wv & _ & Vv).
  split; [|by split]. apply (val_inj 8); [exact Wf|exact Wv|]. by rewrite Vf.
Qed.

Lemma fast_reduction_exact_witness :
  vli_mmod_fast_secp256r1 (replicate 16 0xffffffff) = fst (uECC_vli_mmod (replicate 16 0xffffffff) curve_p).
Proof. apply (fast_reduction_exact (replicate 16 0xffffffff)). apply is_words_ok. reflexivity. Defined.

(** C21: The check of a public key answers zero exactly for the points of the curve:
    for every 64 bytes, two coordinates, [uECC_valid_public_key] returns -4 for the
    base point, -1 when both are zero, -2 when one is not below the prime, -3 when
    y^2 is not x^3 - 3x + b modulo the prime, and zero otherwise. *)
Theorem public_key_check_exact (public_key : list byte) : length public_key = 64%nat ->
  let x := be (take 32 public_key) in let y := be (drop 32 public_key) in
  uECC_valid_public_key public_key =
    (if decide ((x, y) = (val curve_Gx, val curve_Gy)) then -4
     else if (x =? 0) && (y =? 0) then -1
     else if negb ((x <? val curve_p) && (y <? val curve_p)) then -2
     else if decide ((y * y) mod val curve_p = (x * x * x - 3 * x + val curve_b) mod val curve_p) then 0 else -3).
Proof. intros H. cbn zeta. by rewrite (valid_key_val public_key H). Qed.

Lemma public_key_check_exact_witness :
  uECC_valid_public_key (replicate 63 Byte.x00 ++ [Byte.x01]) =
    if decide ((0, 1) = (val curve_Gx, val curve_Gy)) then -4
    else if decide (1 mod val curve_p = val curve_b mod val curve_p) then 0 else -3.
Proof. exact (public_key_check_exact (replicate 63 Byte.x00 ++ [Byte.x01]) eq_refl). Defined.

(** C25: The formulas for points are the chords and tangents of the curve.  For points
    in coordinates scaled by a common z, [XYcZ_add] gives the first point and the
    sum in the scale z times the difference of the abscissas, [XYcZ_addC] gives the
    difference and the sum in that scale; [double_jacobian_default] gives the double
    in the scale y z, which is the third coordinate. *)
Theorem curve_formulas_exact (z l m : Z) (p q : Z * Z) (P1 P2 : ecc_point) (Z1 : list Z) :
  (scaled z p P1 -> scaled z q P2 -> slope l p q ->
     scaled (z * (val (fst P2) - val (fst P1))) p (fst (XYcZ_add P1 P2)) /\
     scaled (z * (val (fst P2) - val (fst P1))) (line_sum l p q) (snd (XYcZ_add P1 P2)) /\
     (slope m p (mirrored q) ->
        scaled (z * (val (fst P2) - val (fst P1))) (line_sum m p (mirrored q)) (fst (XYcZ_addC P1 P2)) /\
        scaled (z * (val (fst P2) - val (fst P1))) (line_sum l p q) (snd (XYcZ_addC P1 P2)))) /\
  (scaled (val Z1) p P1 -> fe Z1 -> val Z1 <> 0 -> tangent l p ->
     exists X3 Y3 Z3, double_jacobian_default (fst P1, snd P1, Z1) = (X3, Y3, Z3) /\
       val Z3 ≡p val (snd P1) * val Z1 /\ scaled (val Z3) (line_sum l p p) (X3, Y3)).
Proof.
  split.
  - intros H1 H2 Hl. destruct (XYcZ_add_val z p q P1 P2 l H1 H2 Hl) as [? ?]. split; [done|]. split; [done|].
    intros Hm. exact (XYcZ_addC_val z p q P1 P2 l m H1 H2 Hl Hm).
  - intros H1 HZ Hz Ht. destruct P1 as [X Y].
    destruct (double_val p l X Y Z1 H1 HZ Hz Ht) as (X3 & Y3 & Z3 & E & _ & E3 & Hs). eauto 10.
Qed.

(** Two points with the line of slope one through them. *)
Lemma curve_formulas_exact_witness :
  let one := [1; 0; 0; 0; 0; 0; 0; 0] in let two := [2; 0; 0; 0; 0; 0; 0; 0] in
  scaled 1 (line_sum 1 (1, 1) (2, 2)) (snd (XYcZ_add (one, one) (two, two))).
Proof.
  cbn zeta. destruct (curve_formulas_exact 1 1 1 (1, 1) (2, 2)
    ([1; 0; 0; 0; 0; 0; 0; 0], [1; 0; 0; 0; 0; 0; 0; 0]) ([2; 0; 0; 0; 0; 0; 0; 0], [2; 0; 0; 0; 0; 0; 0; 0]) []) as [H _].
  refine (proj1 (proj2 (H _ _ _))); [| |reflexivity]; (split; [|split; [|split; reflexivity]]); (split; [apply is_words_ok|]; reflexivity).
Defined.

(** C26: Coordinates keep their type: whatever points with coordinates of eight words
    below the prime the functions of the curve are given, sums, differences, doubles,
    rescaled points, inverses and multiples by any scalar have such coordinates
    again. *)
Theorem coordinates_stay_reduced (p q : ecc_point) (z scalar : list Z) (num_bits : Z) :
  fe_point p -> fe_point q -> fe z ->
  (fe_point (fst (XYcZ_add p q)) /\ fe_point (snd (XYcZ_add p q))) /\
  (fe_point (fst (XYcZ_addC p q)) /\ fe_point (snd (XYcZ_addC p q))) /\
  (let '(X, Y, Z') := double_jacobian_default (fst p, snd p, z) in fe X /\ fe Y /\ fe Z') /\
  fe_point (apply_z p z) /\ fe (uECC_vli_modInv z curve_p) /\ fe (x_side_default z) /\
  fe_point (EccPoint_mult p scalar (Some z) num_bits) /\ fe_point (EccPoint_mult p scalar None num_bits).
Proof.
  intros Hp Hq Hz. split; [by apply add_points_fe|]. split; [by apply addC_points_fe|].
  split; [apply double_fe; [apply Hp..|done]|]. split; [by apply apply_z_fe|]. split; [by apply inv_fe, fe_words|].
  split; [by apply x_side_val|]. split; apply mult_fe; try done. by intros z0 [= <-].
Qed.

Lemma coordinates_stay_reduced_witness : fe_point (EccPoint_mult (curve_Gx, curve_Gy) [7; 0; 0; 0; 0; 0; 0; 0] None 257).
Proof.
  destruct (coordinates_stay_reduced (curve_Gx, curve_Gy) (curve_Gx, curve_Gy) curve_Gx [7; 0; 0; 0; 0; 0; 0; 0] 257
    fe_G fe_G (proj1 fe_G)) as (_ & _ & _ & _ & _ & _ & _ & H). exact H.
Defined.
