(* ===== verification/EccDsa.v ===== *)
(** * tinycrypt: signatures

    [uECC_sign] and [uECC_verify] of [tinycrypt/source/ecc_dsa.c] for P-256, and the
    random integers of [ecc.c].  The random function gets the buffer and its size
    and returns its result and the buffer behind it; its state is threaded through.
    The second variable [g_rng_function], in [ecc_dsa.c], is null: the macro that
    would set it is defined in a header that file does not include, and
    [uECC_set_rng] sets the one of [ecc.c]. *)

From S2P Require Import Prelude EccVli EccPoint.

(** The new value of [g_rng_function] in [ecc.c], and its value. *)
Definition uECC_set_rng {F : Type} (rng_function g_rng_function : option F) : option F := rng_function.
Definition uECC_get_rng {F : Type} (g_rng_function : option F) : option F := g_rng_function.

Definition uECC_RNG_MAX_TRIES : nat := 64.

(** ** Memory images of words *)

Definition le_bytes (ws : list Z) : list byte := List.concat (put32 <$> ws).

Fixpoint le_words (n : nat) (bs : list byte) : list Z :=
  match n with
  | O => []
  | S n => get32 (take 4 bs) :: le_words n (drop 4 bs)
  end.

(** The bits of the words of [bits2int], shifted down. *)
Fixpoint bits_shift (native : list Z) (shift : Z) : list Z * Z :=
  match native with
  | [] => ([], 0)
  | x :: native =>
      let '(native, carry) := bits_shift native shift in
      (Z.lor (Z.shiftr x shift) carry :: native, u32 (Z.shiftl x (uECC_WORD_BITS - shift)))
  end.

Definition bits2int (bits : list byte) (bits_size : Z) : list Z :=
  let num_n_bytes := Z.of_nat num_bytes in
  let bits_size := if bits_size >? num_n_bytes then num_n_bytes else bits_size in
  let low := uECC_vli_bytesToNative bits (Z.to_nat bits_size) in
  let native := low ++ uECC_vli_clear (NUM_ECC_WORDS - length low) in
  if bits_size * 8 <=? num_n_bits then native
  else
    let native := fst (bits_shift native (bits_size * 8 - num_n_bits)) in
    if negb (uECC_vli_cmp_unsafe curve_n native =? 1) then fst (uECC_vli_sub native curve_n) else native.

Section dsa.
  Context {S : Type} (g_rng_function : option (list byte -> Z -> S -> Z * list byte * S)).

(** The one of [ecc_dsa.c]. *)
Definition dsa_rng_function : option (list byte -> Z -> S -> Z * list byte * S) := None.

Fixpoint random_int_loop (tries : nat) (random top : list Z) (st : S) : Z * list Z * S :=
  match tries with
  | O => (0, random, st)
  | Datatypes.S tries =>
      match g_rng_function with
      | None => (0, random, st)
      | Some rng =>
          let num_words := length top in
          let '(res, bs, st) := rng (le_bytes random) (Z.of_nat num_words * 4) st in
          let random := le_words num_words bs in
          if res =? 0 then (0, random, st)
          else
            let high := (num_words - 1)%nat in
            let mask := Z.shiftr 0xFFFFFFFF (Z.of_nat num_words * 4 * 8 - uECC_vli_numBits top) in
            let random := <[high := Z.land (random !!! high) mask]> random in
            if (uECC_vli_isZero random =? 0) && (uECC_vli_cmp top random =? 1) then (1, random, st)
            else random_int_loop tries random top st
      end
  end.

Definition uECC_generate_random_int (random top : list Z) (st : S) : Z * list Z * S :=
  random_int_loop uECC_RNG_MAX_TRIES random top st.

(** The number that hides [k] from observers; [None] when there is none. *)
Definition blinding (tmp : list Z) (st : S) : option (list Z) * S :=
  match dsa_rng_function with
  | None => (Some (<[0%nat := 1]> (uECC_vli_clear NUM_ECC_WORDS)), st)
  | Some _ =>
      let '(res, tmp, st) := uECC_generate_random_int tmp curve_n st in
      (if res =? 0 then None else Some tmp, st)
  end.

(** The result, the signature when it is complete, and the state. *)
Definition uECC_sign_with_k (private_key message_hash : list byte) (hash_size : Z) (k : list Z) (st : S)
    : Z * option (list byte) * S :=
  if negb (uECC_vli_isZero k =? 0) || negb (uECC_vli_cmp curve_n k =? 1) then (0, None, st)
  else
    let '(carry, tmp, s) := regularize_k k in
    let p := EccPoint_mult (curve_Gx, curve_Gy) (if carry =? 0 then s else tmp) None (num_n_bits + 1) in
    if negb (uECC_vli_isZero (fst p) =? 0) then (0, None, st)
    else
      match blinding tmp st with
      | (None, st) => (0, None, st)
      | (Some tmp, st) =>
          let k := uECC_vli_modMult k tmp curve_n in
          let k := uECC_vli_modInv k curve_n in
          let k := uECC_vli_modMult k tmp curve_n in
          let signature := uECC_vli_nativeToBytes num_bytes (fst p) in
          let tmp := uECC_vli_bytesToNative private_key num_bytes in
          let s := fst p in
          let s := uECC_vli_modMult tmp s curve_n in
          let tmp := bits2int message_hash hash_size in
          let s := uECC_vli_modAdd tmp s curve_n in
          let s := uECC_vli_modMult s k curve_n in
          if uECC_vli_numBits s >? Z.of_nat num_bytes * 8 then (0, None, st)
          else (1, Some (signature ++ uECC_vli_nativeToBytes num_bytes s), st)
      end.

Fixpoint sign_loop (tries : nat) (private_key message_hash : list byte) (hash_size : Z) (_random : list Z) (st : S)
    : Z * option (list byte) * S :=
  match tries with
  | O => (0, None, st)
  | Datatypes.S tries =>
      match uECC_get_rng g_rng_function with
      | None => (0, None, st)
      | Some rng =>
          let '(res, bs, st) := rng (le_bytes _random) (2 * Z.of_nat NUM_ECC_WORDS * 4) st in
          if res =? 0 then (0, None, st)
          else
            let '(k, _random) := uECC_vli_mmod (le_words (2 * NUM_ECC_WORDS) bs) curve_n in
            let '(res, signature, st) := uECC_sign_with_k private_key message_hash hash_size k st in
            if negb (res =? 0) then (1, signature, st)
            else sign_loop tries private_key message_hash hash_size _random st
      end
  end.

(** [stack] is what the local array holds before it is filled. *)
Definition uECC_sign (private_key message_hash : list byte) (hash_size : Z) (stack : list Z) (st : S)
    : Z * option (list byte) * S :=
  sign_loop uECC_RNG_MAX_TRIES private_key message_hash hash_size stack st.
End dsa.

(** ** Verification *)

Definition smax (a b : Z) : Z := if a >? b then a else b.

(** The bits of [u1] and [u2] choose a point. *)
Definition shamir_point (points : ecc_point * ecc_point * ecc_point) (u1 u2 : list Z) (i : Z) : option ecc_point :=
  let '(p1, p2, p3) := points in
  match negb (uECC_vli_testBit u1 i =? 0), negb (uECC_vli_testBit u2 i =? 0) with
  | false, false => None
  | true, false => Some p1
  | false, true => Some p2
  | true, true => Some p3
  end.

(** The loop over the bits below [i]. *)
Fixpoint shamir_loop (i : nat) (points : ecc_point * ecc_point * ecc_point) (u1 u2 : list Z) (R : list Z * list Z * list Z)
    : list Z * list Z * list Z :=
  match i with
  | O => R
  | S j =>
      let '(rx, ry, z) := double_jacobian_default R in
      let R :=
        match shamir_point points u1 u2 (Z.of_nat j) with
        | None => (rx, ry, z)
        | Some point =>
            let '(tx, ty) := apply_z point z in
            let tz := uECC_vli_modSub rx tx curve_p in
            let '(_, (rx, ry)) := XYcZ_add (tx, ty) (rx, ry) in
            let z := uECC_vli_modMult_fast z tz in
            (rx, ry, z)
        end in
      shamir_loop j points u1 u2 R
  end.

(** [None] when the source would read through the null pointer of [points]. *)
Definition uECC_verify (public_key message_hash : list byte) (hash_size : Z) (signature : list byte) : option Z :=
  let _public := (uECC_vli_bytesToNative (take num_bytes public_key) num_bytes,
                  uECC_vli_bytesToNative (drop num_bytes public_key) num_bytes) in
  let r := uECC_vli_bytesToNative (take num_bytes signature) num_bytes in
  let s := uECC_vli_bytesToNative (drop num_bytes signature) num_bytes in
  if negb (uECC_vli_isZero r =? 0) || negb (uECC_vli_isZero s =? 0) then Some 0
  else if negb (uECC_vli_cmp_unsafe curve_n r =? 1) || negb (uECC_vli_cmp_unsafe curve_n s =? 1) then Some 0
  else
    let z := uECC_vli_modInv s curve_n in
    let u1 := bits2int message_hash hash_size in
    let u1 := uECC_vli_modMult u1 z curve_n in
    let u2 := uECC_vli_modMult r z curve_n in
    let z := uECC_vli_modSub (fst _public) curve_Gx curve_p in
    let '(_, sum) := XYcZ_add (curve_Gx, curve_Gy) _public in
    let z := uECC_vli_modInv z curve_p in
    let sum := apply_z sum z in
    let points := ((curve_Gx, curve_Gy), _public, sum) in
    let num_bits := smax (uECC_vli_numBits u1) (uECC_vli_numBits u2) in
    match shamir_point points u1 u2 (num_bits - 1) with
    | None => None
    | Some (rx, ry) =>
        let z := <[0%nat := 1]> (uECC_vli_clear NUM_ECC_WORDS) in
        let '(rx, ry, z) := shamir_loop (Z.to_nat (num_bits - 1)) points u1 u2 (rx, ry, z) in
        let z := uECC_vli_modInv z curve_p in
        let '(rx, _) := apply_z (rx, ry) z in
        let rx := if negb (uECC_vli_cmp_unsafe curve_n rx =? 1) then fst (uECC_vli_sub rx curve_n) else rx in
        Some (b2w (uECC_vli_equal rx r =? 0))
    end.
