(* ===== verification/EccDsaSpec.v ===== *)
(** * tinycrypt: what a signature is

    A scalar has an inverse modulo the order of P-256 because the order is prime: the
    proof is a chain of certificates after Pocklington, in which a number is prime
    when enough of its predecessor is known to factor into primes and a power
    witnesses each of them; the smallest factors are checked by division.  The pair
    that [uECC_sign] writes solves the equation of ECDSA for the secret scalar, and
    [uECC_verify] answers for every input, refusing pairs outside their range
    before any curve arithmetic. *)

From S2P Require Import Prelude TcWords EccVli EccVliSpec EccPoint EccPointSpec EccDsa.
From Stdlib Require Import Zmod.ZmodInv Zpow_facts Zdivisibility.

(** ** Divisors *)

Lemma prime_divisor n : 1 < n -> exists q, Z.prime q /\ (q | n).
Proof.
  intros Hn. assert (0 <= n) as H0 by lia. revert n H0 Hn. apply (Z_lt_induction (fun n => 1 < n -> exists q, Z.prime q /\ (q | n))).
  intros n IH Hn. destruct (Znumtheory.prime_dec n) as [Hp|Hp].
  - exists n. split; [by apply Znumtheory.prime_alt|done].
  - apply Znumtheory.not_prime_divide in Hp as (d & Hd & D); [|done].
    destruct (IH d) as (q & Hq & Dq); [lia..|]. exists q. split; [done|]. by etrans.
Qed.

(** A number is prime when its prime divisors are above its square root. *)
Lemma prime_of_divisors n : 1 < n -> (forall q, Z.prime q -> (q | n) -> n < q * q) -> Z.prime n.
Proof.
  intros Hn H. destruct (Znumtheory.prime_dec n) as [Hp|Hp]; [by apply Znumtheory.prime_alt|]. exfalso.
  apply Znumtheory.not_prime_divide in Hp as (d & Hd & [e He]); [|done].
  assert (1 < e) by nia.
  assert (exists f, 1 < f /\ (f | n) /\ f * f <= n) as (f & Hf & Df & Lf).
  { destruct (Z.le_ge_cases d e); [exists d|exists e]; repeat split; try lia; try nia; [by exists e|exists d; lia]. }
  destruct (prime_divisor f Hf) as (q & Hq & Dq). specialize (H q Hq (Z.divide_trans _ _ _ Dq Df)).
  apply Z.divide_pos_le in Dq; [|lia]. pose proof (proj1 Hq). nia.
Qed.

(** ** Powers *)

Lemma pow_gcd q g x y : 1 < q -> 0 <= x -> 0 <= y -> g ^ x mod q = 1 -> g ^ y mod q = 1 -> g ^ Z.gcd x y mod q = 1.
Proof.
  intros Hq Hx. revert x Hx y.
  apply (Z_lt_induction (fun x => forall y, 0 <= y -> g ^ x mod q = 1 -> g ^ y mod q = 1 -> g ^ Z.gcd x y mod q = 1)).
  intros x IH y Hy H1 H2. destruct (Z.lt_ge_cases 0 x) as [Hp|Hp].
  - rewrite <- (Z.gcd_mod y x) by lia. pose proof (Z.mod_pos_bound y x ltac:(lia)) as B.
    assert (0 <= y / x) by (apply Z.div_pos; lia). apply IH; [lia..| |done].
    rewrite (Z.div_mod y x), Z.pow_add_r, Z.pow_mul_r in H2 by (lia || nia).
    rewrite Zmult_mod, <- Z.mod_pow_l, H1, Z.pow_1_l, (Z.mod_small 1), Z.mul_1_l, Z.mod_mod in H2 by lia. done.
  - destruct (Z.eq_dec x 0) as [->|]; [by rewrite Z.gcd_0_l, Z.abs_eq|]. exfalso. rewrite Z.pow_neg_r, Z.mod_0_l in H1 by lia. done.
Qed.

(** ** Certificates *)

(** [p] divides the predecessor of every prime divisor of [n]. *)
Definition witnessed (n p : Z) : Prop := forall q, Z.prime q -> (q | n) -> (p | q - 1).

Definition power_check (n a p : Z) : bool :=
  let g := Zpow_mod a ((n - 1) / p) n in
  ((n - 1) mod p =? 0) && (Zpow_mod g p n =? 1) && (Z.gcd (g - 1) n =? 1).

Lemma power_witness n a p : 1 < n -> Z.prime p -> power_check n a p = true -> witnessed n p.
Proof.
  intros Hn Hp. unfold power_check. set (g := Zpow_mod a ((n - 1) / p) n).
  intros [[Hd%Z.eqb_eq H1%Z.eqb_eq]%andb_true_iff Hg%Z.eqb_eq]%andb_true_iff q Hq Dq. rewrite Zpow_mod_correct in H1 by lia.
  pose proof (proj1 Hq) as Q1. pose proof (proj1 Hp) as P1.
  assert (g ^ p mod q = 1) as E1.
  { destruct Dq as [k Hk]. rewrite (Z.div_mod (g ^ p) n), H1, Hk by lia.
    replace (k * q * (g ^ p / (k * q)) + 1) with (1 + k * (g ^ p / (k * q)) * q) by ring. rewrite Z.mod_add by lia. apply Z.mod_small. lia. }
  assert (g mod q <> 0) as Nz.
  { intros E. rewrite <- Z.mod_pow_l, E, Z.pow_0_l, Z.mod_0_l in E1 by lia. done. }
  pose proof (ZmodInv.Z.fermat_nz q g Hq Nz) as E2.
  destruct (Znumtheory.Zdivide_dec p (q - 1)) as [D|D]; [done|]. exfalso.
  apply Z.coprime_prime_l_iff in D; [|done]. pose proof (pow_gcd q g p (q - 1) Q1 ltac:(lia) ltac:(lia) E1 E2) as E.
  rewrite D, Z.pow_1_r in E. assert (q | Z.gcd (g - 1) n) as D1.
  { apply Z.gcd_greatest; [|done]. apply Z.mod_divide; [lia|]. rewrite Zminus_mod, E, (Z.mod_small 1), Z.sub_diag by lia. apply Z.mod_0_l. lia. }
  rewrite Hg in D1. apply Z.divide_1_r in D1. lia.
Qed.

Lemma witnessed_mul n p r : Z.coprime p r -> witnessed n p -> witnessed n r -> witnessed n (p * r).
Proof.
  intros Hc Hp Hr q Hq Dq. destruct (Hr q Hq Dq) as [k Hk]. rewrite Hk. apply Z.mul_divide_mono_r.
  apply (Z.gauss _ r); [|done]. rewrite Z.mul_comm, <- Hk. by apply Hp.
Qed.

(** Pocklington's theorem. *)
Lemma pocklington n f : 1 < n -> 0 < f -> n <= f * f -> witnessed n f -> Z.prime n.
Proof.
  intros Hn Hf Hs Hw. apply prime_of_divisors; [done|]. intros q Hq Dq. pose proof (proj1 Hq).
  specialize (Hw q Hq Dq). apply Z.divide_pos_le in Hw; [|lia]. nia.
Qed.

(** Division by every number from [d] on. *)
Fixpoint no_divisor (fuel : nat) (n d : Z) : bool :=
  match fuel with
  | O => true
  | S fuel => negb (n mod d =? 0) && no_divisor fuel n (d + 1)
  end.

Lemma no_divisor_ok fuel n d : no_divisor fuel n d = true -> forall k, d <= k < d + Z.of_nat fuel -> n mod k <> 0.
Proof.
  revert d. induction fuel as [|fuel IH]; intros d H k Hk; [lia|]. cbn [no_divisor] in H.
  apply andb_true_iff in H as [H1%negb_true_iff%Z.eqb_neq H2]. destruct (Z.eq_dec k d) as [->|]; [done|].
  apply (IH (d + 1) H2). lia.
Qed.

Lemma small_prime b n : 1 < n -> 0 <= b -> n < (2 + b) * (2 + b) -> no_divisor (Z.to_nat b) n 2 = true -> Z.prime n.
Proof.
  intros Hn Hb Hf H. apply prime_of_divisors; [done|]. intros q Hq Dq. pose proof (proj1 Hq).
  destruct (Z.lt_ge_cases q (2 + b)); [|nia]. exfalso.
  apply (no_divisor_ok _ _ _ H q); [lia|]. by apply Znumtheory.Zdivide_mod.
Qed.

(** ** The chain *)

Lemma prime_3023 : Z.prime 3023.
Proof. apply (small_prime 60); [lia..|]. by vm_compute. Qed.

Lemma prime_3969899 : Z.prime 3969899.
Proof. apply (small_prime 2000); [lia..|]. by vm_compute. Qed.

Lemma prime_191039911 : Z.prime 191039911.
Proof. apply (small_prime 13900); [lia..|]. by vm_compute. Qed.

Lemma prime_1002328039319 : Z.prime 1002328039319.
Proof.
  apply (pocklington _ 3969899); [lia..|]. apply (power_witness _ 2); [lia|apply prime_3969899|]. by vm_compute.
Qed.

Lemma prime_208150935158385979 : Z.prime 208150935158385979.
Proof.
  apply (pocklington _ (191039911 * 3023)); [lia..|]. apply witnessed_mul; [by vm_compute|apply (power_witness _ 2)..];
    [lia|apply prime_191039911|by vm_compute|lia|apply prime_3023|by vm_compute].
Qed.

Lemma prime_2624747550333869278416773953 : Z.prime 2624747550333869278416773953.
Proof.
  apply (pocklington _ 208150935158385979); [lia..|]. apply (power_witness _ 2); [lia|apply prime_208150935158385979|]. by vm_compute.
Qed.

Lemma prime_n : Z.prime N.
Proof.
  apply (pocklington _ (2624747550333869278416773953 * 1002328039319)); [reflexivity|lia|by apply Z.leb_le|].
  apply witnessed_mul; [by vm_compute|apply (power_witness _ 2)..];
    [reflexivity|apply prime_2624747550333869278416773953|by vm_compute|reflexivity|apply prime_1002328039319|by vm_compute].
Qed.

(** Every scalar below the order has no factor in common with it. *)
Lemma coprime_n x : 0 < x < N -> Z.gcd x N = 1.
Proof. intros Hx. rewrite Z.gcd_comm. apply (Z.coprime_prime_small N x prime_n). lia. Qed.

(** ** Modulo the order *)

Lemma N_bound : 2 ^ 255 <= N < W 8.
Proof. split; [by apply Z.leb_le|reflexivity]. Qed.

Lemma N_odd : val curve_n mod 2 = 1.
Proof. reflexivity. Qed.

Lemma inv_n l : words 8 l -> 0 < val l < N ->
  words 8 (uECC_vli_modInv l curve_n) /\ 0 <= val (uECC_vli_modInv l curve_n) < N /\
  (val (uECC_vli_modInv l curve_n) * val l) mod N = 1.
Proof.
  intros Hl B. pose proof N_bound as HN. destruct (modInv_val l curve_n Hl words_n N_odd) as (Ww & Lw & D); [reflexivity|].
  fold N in Lw, D. rewrite coprime_n in D by done. pose proof (val_bound 8 _ Ww). split; [done|]. split; [lia|].
  destruct D as [q Hq]. replace (val (uECC_vli_modInv l curve_n) * val l) with (1 + q * N) by lia.
  rewrite Z.mod_add by lia. apply Z.mod_small. lia.
Qed.

Lemma mult_n l r : words 8 l -> words 8 r ->
  words 8 (uECC_vli_modMult l r curve_n) /\ val (uECC_vli_modMult l r curve_n) = (val l * val r) mod N.
Proof. intros Hl Hr. exact (modMult_val l r curve_n Hl Hr modulus_n). Qed.

(** A sum with one part above the modulus is right modulo it. *)
Lemma add_n l r : words 8 l -> words 8 r -> val r < N ->
  words 8 (uECC_vli_modAdd l r curve_n) /\ val (uECC_vli_modAdd l r curve_n) mod N = (val l + val r) mod N.
Proof.
  intros Hl Hr Lr. unfold uECC_vli_modAdd. destruct (add_val 8 l r Hl Hr) as (s & c & -> & Hs & V).
  rewrite b2w_zero, (not_one_le 8 curve_n s words_n Hs). fold N.
  destruct (sub_val 8 s curve_n Hs words_n) as (d & b & -> & Hd & Vd). cbn [fst]. fold N in Vd.
  pose proof (val_bound 8 l Hl). pose proof (val_bound 8 r Hr). pose proof (val_bound 8 s Hs).
  pose proof (val_bound 8 d Hd). pose proof N_bound.
  destruct (c || (N <=? val s)) eqn:E; (split; [done|]).
  - assert (val d = val l + val r + -1 * N) as ->; [|apply Z.mod_add; lia].
    destruct c; cbn [orb b2w] in *; [|apply Z.leb_le in E]; destruct b; cbn [b2w] in *; lia.
  - apply orb_false_iff in E as [-> _]. cbn [b2w] in V. rewrite <- V. rewrite Z.mul_0_r, Z.add_0_r. done.
Qed.

(** The scalar of the ladder, whose bit 256 is implied, is the secret one modulo the order. *)
Lemma regularize_val k : words 8 k -> val k < N ->
  exists carry k0 k1, regularize_k k = (carry, k0, k1) /\ let s := if carry =? 0 then k1 else k0 in
    words 8 s /\ (2 ^ 256 + val s) mod N = val k.
Proof.
  intros Hk Lk. unfold regularize_k. destruct (add_val 8 k curve_n Hk words_n) as (k0 & c & -> & H0 & V0).
  destruct (add_val 8 k0 curve_n H0 words_n) as (k1 & c1 & E1 & H1 & V1). rewrite E1. fold N in V0, V1.
  rewrite b2w_zero. change (num_n_bits <? Z.of_nat NUM_ECC_WORDS * 4 * 8) with false. rewrite andb_false_l, orb_false_r.
  eexists _, _, _. split; [reflexivity|]. cbn [fst]. pose proof N_bound as HN. change (W 8) with (2 ^ 256) in *.
  pose proof (val_bound 8 k Hk). pose proof (val_bound 8 k0 H0). pose proof (val_bound 8 k1 H1). change (W 8) with (2 ^ 256) in *.
  destruct c; cbn [b2w Z.eqb] in *; cbn zeta; (split; [done|]).
  - replace (2 ^ 256 + val k0) with (val k + 1 * N) by lia. rewrite Z.mod_add by lia. apply Z.mod_small. lia.
  - assert (2 ^ 256 + val k1 = val k + 2 * N) as -> by (destruct c1; cbn [b2w] in *; lia).
    rewrite Z.mod_add by lia. apply Z.mod_small. lia.
Qed.

(** ** Hashes as numbers *)

Lemma words_pad n k l : words n l -> words (n + k) (l ++ uECC_vli_clear k) /\ val (l ++ uECC_vli_clear k) = val l.
Proof.
  intros Hl. split; [apply words_app; [done|apply words_clear]|]. rewrite (val_app n) by by apply words_length. rewrite val_clear. lia.
Qed.

(** The leftmost 256 bits. *)
Lemma bits2int_val bs size : 0 <= size <= zlen bs ->
  words 8 (bits2int bs size) /\ val (bits2int bs size) = be (ztake (Z.min size 32) bs).
Proof.
  intros Hs. unfold bits2int. change (Z.of_nat num_bytes) with 32. change num_n_bits with 256.
  assert ((if size >? 32 then 32 else size) = Z.min size 32) as -> by (rewrite Z.gtb_ltb; destruct (Z.ltb_spec 32 size); lia).
  rewrite (proj2 (Z.leb_le _ _)) by lia.
  destruct (bytesToNative_val (Z.to_nat (Z.min size 32)) bs ltac:(lia)) as [Hw Hv]. change NUM_ECC_WORDS with 8%nat.
  set (n := ((Z.to_nat (Z.min size 32) + 3) / 4)%nat) in *.
  assert (n <= 8)%nat as Hn by (apply Nat.lt_succ_r; subst n; apply Nat.Div0.div_lt_upper_bound; lia).
  rewrite (words_length _ _ Hw). destruct (words_pad n (8 - n) _ Hw) as [Wp Vp]. rewrite Vp, Hv.
  replace (n + (8 - n))%nat with 8%nat in Wp by lia. split; [exact Wp|reflexivity].
Qed.

Lemma le_words_ok n bs : words n (le_words n bs).
Proof.
  revert bs. induction n as [|n IH]; intros bs; cbn [le_words]; [by split|]. apply words_cons. split; [|apply IH].
  pose proof (le_combine_bound (take 4 bs)) as B. unfold get32. split; [lia|].
  eapply Z.lt_le_trans; [apply B|]. apply Z.pow_le_mono_r; [lia|]. rewrite length_take. lia.
Qed.

(** ** Signatures *)

(** What a signature says: [r] is the abscissa of a multiple of the base point,
    by a scalar [k] modulo the order, and [s] solves the equation. *)
Definition signed (d e : Z) (sig : list byte) : Prop :=
  exists k r s scalar,
    sig = be_bytes 32 r ++ be_bytes 32 s /\
    0 < k < N /\ words 8 scalar /\ (2 ^ 256 + val scalar) mod N = k /\
    r = val (fst (EccPoint_mult (curve_Gx, curve_Gy) scalar None (num_n_bits + 1))) /\ 0 < r < P /\
    0 <= s < N /\ (s * k) mod N = (e + d * r) mod N.

(** A number no signature is made from: zero, or one whose multiple of the base
    point has the abscissa zero. *)
Definition no_nonce (k : Z) : Prop :=
  k = 0 \/ exists scalar, words 8 scalar /\ (2 ^ 256 + val scalar) mod N = k /\
    val (fst (EccPoint_mult (curve_Gx, curve_Gy) scalar None (num_n_bits + 1))) = 0.

(** Each of [n] draws from the random function fails, which ends the attempts, or
    gives a number, modulo the order, no signature is made from. *)
Inductive draws_fail {S : Type} (rng : list byte -> Z -> S -> Z * list byte * S) : nat -> list byte -> S -> Prop :=
  | draws_none buf st : draws_fail rng 0 buf st
  | draws_error n buf st bs st' : rng buf 64 st = (0, bs, st') -> draws_fail rng (Datatypes.S n) buf st
  | draws_next n buf st res bs st' buf' :
      rng buf 64 st = (res, bs, st') -> res <> 0 -> no_nonce (val (le_words 16 bs) mod N) ->
      draws_fail rng n buf' st' -> draws_fail rng (Datatypes.S n) buf st.

Section sign.
  Context {S : Type} (g_rng_function : option (list byte -> Z -> S -> Z * list byte * S)).
  Context (private_key message_hash : list byte) (hash_size : Z).
  Context (Hkey : length private_key = 32%nat) (Hsize : 0 <= hash_size <= zlen message_hash).

Lemma native32 l : words 8 l -> uECC_vli_nativeToBytes 32 l = be_bytes 32 (val l).
Proof. apply (nativeToBytes_val 8). Qed.

(** The arithmetic behind the last lines of the computation. *)
Lemma equation_mod k i e d r s a : (i * k) mod N = 1 -> a mod N = (e + (d * r) mod N) mod N -> s = (a * i) mod N ->
  (s * k) mod N = (e + d * r) mod N.
Proof.
  intros Hi Ha ->. pose proof N_bound. rewrite Zmult_mod_idemp_l.
  replace (a * i * k) with (a * (i * k)) by ring. rewrite Zmult_mod, Hi, Ha, Z.mul_1_r, !Z.mod_mod by lia. apply Zplus_mod_idemp_r.
Qed.

Lemma sign_with_k_val k (st : S) : words 8 k -> val k < N ->
  (uECC_sign_with_k g_rng_function private_key message_hash hash_size k st = (0, None, st) /\ no_nonce (val k)) \/
  exists sig, uECC_sign_with_k g_rng_function private_key message_hash hash_size k st = (1, Some sig, st) /\
    signed (be private_key) (be (ztake (Z.min hash_size 32) message_hash)) sig.
Proof.
  intros Hk Lk. unfold uECC_sign_with_k. rewrite (isZero_true 8), negb_involutive, (cmp_val 8 _ _ words_n Hk) by done. fold N.
  assert (Z.sgn (N - val k) = 1) as -> by (apply Z.sgn_pos_iff; lia). change (negb (1 =? 1)) with false. rewrite orb_false_r.
  destruct (Z.eqb_spec (val k) 0) as [E0|E0]; [left; split; [reflexivity|by left]|].
  pose proof (val_bound 8 k Hk). assert (0 < val k < N) as Bk by lia.
  destruct (regularize_val k Hk ltac:(lia)) as (carry & k0 & k1 & -> & Hs & Vs). cbn zeta in Hs, Vs.
  set (scalar := if carry =? 0 then k1 else k0) in *.
  pose proof (mult_G_fe scalar (num_n_bits + 1)) as [Fx _]. set (p := EccPoint_mult _ scalar None _) in *.
  rewrite (isZero_true 8), negb_involutive by fe. destruct (Z.eqb_spec (val (fst p)) 0) as [Ez|Ez].
  { left. split; [reflexivity|]. right. exists scalar. split; [exact Hs|]. split; [exact Vs|exact Ez]. }
  cbn [blinding dsa_rng_function]. set (one := <[0%nat := 1]> (uECC_vli_clear NUM_ECC_WORDS)).
  destruct val_one as [W1 V1]. change (<[0%nat := 1]> (uECC_vli_clear 8)) with one in W1, V1.
  destruct (mult_n k one Hk W1) as [Wk Vk]. rewrite V1, Z.mul_1_r, Z.mod_small in Vk by lia.
  destruct (inv_n _ Wk ltac:(lia)) as (Wi & Bi & Vi). rewrite Vk in Vi.
  destruct (mult_n _ one Wi W1) as [Wj Vj]. rewrite V1, Z.mul_1_r, Z.mod_small in Vj by lia.
  change num_bytes with 32%nat. destruct (bytes_words private_key Hkey) as [Wd Vd].
  destruct (mult_n _ (fst p) Wd (fe_words _ Fx)) as [Wm Vm]. rewrite Vd in Vm.
  destruct (bits2int_val message_hash hash_size Hsize) as [We Ve].
  pose proof N_bound. destruct (add_n _ _ We Wm) as [Wa Va]; [rewrite Vm; apply Z.mod_pos_bound; lia|]. rewrite Ve, Vm in Va.
  destruct (mult_n _ _ Wa Wj) as [Wr Vr]. rewrite Vj in Vr. cbv zeta.
  set (s := uECC_vli_modMult (uECC_vli_modAdd _ _ curve_n) _ curve_n) in *.
  assert (uECC_vli_numBits s >? Z.of_nat 32 * 8 = false) as ->.
  { rewrite (numBits_val 8 s Wr), Z.gtb_ltb. apply Z.ltb_ge, (bits_bound 256); [lia|exact (val_bound 8 s Wr)]. }
  right. eexists. split; [reflexivity|]. rewrite !native32 by fe.
  exists (val k), (val (fst p)), (val s), scalar. pose proof (fe_bound _ Fx).
  split; [reflexivity|]. split; [exact Bk|]. split; [exact Hs|]. split; [exact Vs|]. split; [reflexivity|]. split; [lia|].
  split; [rewrite Vr; apply Z.mod_pos_bound; lia|]. exact (equation_mod _ _ _ _ _ _ _ Vi Va Vr).
Qed.

Lemma sign_loop_val tries random (st : S) res sig st' :
  sign_loop g_rng_function tries private_key message_hash hash_size random st = (res, sig, st') ->
  (res = 0 /\ sig = None /\ forall rng, g_rng_function = Some rng -> draws_fail rng tries (le_bytes random) st) \/
  (res = 1 /\ exists bs, sig = Some bs /\ signed (be private_key) (be (ztake (Z.min hash_size 32) message_hash)) bs).
Proof.
  revert random st. induction tries as [|tries IH]; intros random st H; cbn [sign_loop] in H; unfold uECC_get_rng in H.
  { left. injection H as <- <- _. split_and!; [done..|]. intros. constructor. }
  destruct g_rng_function as [rng|] eqn:Er; [|left; by injection H as <- <- _]. rewrite <- Er in *.
  change (2 * Z.of_nat NUM_ECC_WORDS * 4) with 64 in H. destruct (rng (le_bytes random) 64 st) as [[r bs] st1] eqn:Ed. destruct (Z.eqb_spec r 0) as [->|Hr].
  { left. injection H as <- <- _. split_and!; [done..|]. intros rng' Hr'; rewrite Er in Hr'; injection Hr' as <-. by eapply draws_error. }
  destruct (mmod_val _ _ (le_words_ok 16 bs) modulus_n) as (k & q & E & Hk & _ & Vk). change (2 * NUM_ECC_WORDS)%nat with 16%nat in H. fold N in Vk.
  rewrite E in H. destruct (sign_with_k_val k st1 Hk) as [[E1 Hno]|(s & E1 & Hs)]; rewrite ?Vk.
  - apply Z.mod_pos_bound. pose proof N_bound. lia.
  - rewrite E1 in H. cbn [Z.eqb negb] in H. rewrite Vk in Hno. apply IH in H as [(-> & -> & Hf)|H]; [left|by right].
    split_and!; [done..|]. intros rng' Hr'; rewrite Er in Hr'; injection Hr' as <-. eapply draws_next; [exact Ed|done..|]. by apply Hf.
  - rewrite E1 in H. cbn [Z.eqb negb] in H. right. injection H as <- <- _. eauto.
Qed.
End sign.

(** ** Verification *)

Lemma testbit_top x : 0 < x -> Z.testbit x (bits x - 1) = true.
Proof.
  intros Hx. unfold bits. rewrite (proj2 (Z.eqb_neq x 0)) by lia. rewrite Z.add_simpl_r. by apply Z.bit_log2.
Qed.

Lemma bits_pos x : 0 <= x -> 0 <= bits x.
Proof. intros Hx. unfold bits. destruct (x =? 0); [done|]. pose proof (Z.log2_nonneg x). lia. Qed.

(** The table of points is read at a bit that is set in one of the two numbers. *)
Lemma shamir_first points u1 u2 : words 8 u1 -> words 8 u2 -> val u2 <> 0 ->
  exists p, shamir_point points u1 u2 (smax (uECC_vli_numBits u1) (uECC_vli_numBits u2) - 1) = Some p.
Proof.
  intros H1 H2 Hz. unfold shamir_point, smax. destruct points as [[p1 p2] p3]. rewrite !(numBits_val 8) by done.
  pose proof (val_bound 8 u1 H1) as B1. pose proof (val_bound 8 u2 H2) as B2.
  pose proof (bits_bound 256 (val u1) ltac:(lia) B1). pose proof (bits_bound 256 (val u2) ltac:(lia) B2).
  assert (0 < bits (val u2)) as Hb.
  { unfold bits. rewrite (proj2 (Z.eqb_neq _ 0)) by done. pose proof (Z.log2_nonneg (val u2)). lia. }
  pose proof (bits_pos (val u1) ltac:(lia)). rewrite Z.gtb_ltb. destruct (Z.ltb_spec (bits (val u2)) (bits (val u1))) as [Hlt|Hge].
  - assert (0 < val u1) as Hp by (destruct (Z.eq_dec (val u1) 0) as [E|]; [rewrite E in Hlt; cbn in Hlt; lia|lia]).
    rewrite !(testBit_val 8) by (done || lia). rewrite !negb_involutive, (testbit_top (val u1) Hp).
    destruct (Z.testbit (val u2) _); eauto.
  - rewrite !(testBit_val 8) by (done || lia). rewrite !negb_involutive, (testbit_top (val u2)) by lia.
    destruct (Z.testbit (val u1) _); eauto.
Qed.

Definition in_range (x : Z) : bool := (0 <? x) && (x <? N).

Lemma mul_nonzero_n x y : 0 < x < N -> (y * x) mod N = 1 -> forall r, 0 < r < N -> (r * y) mod N <> 0.
Proof.
  intros Hx Hy r Hr E. assert ((r * y * x) mod N = r) as E1.
  { rewrite <- Z.mul_assoc, Zmult_mod, Hy, Z.mul_1_r, Z.mod_mod by lia. apply Z.mod_small. lia. }
  rewrite Zmult_mod, E, Z.mul_0_l, Z.mod_0_l in E1 by lia. lia.
Qed.

Lemma verify_val pk hash size sig : length sig = 64%nat -> 0 <= size <= zlen hash ->
  let r := be (take 32 sig) in let s := be (drop 32 sig) in
  if in_range r && in_range s then exists b, uECC_verify pk hash size sig = Some (b2w b)
  else uECC_verify pk hash size sig = Some 0.
Proof.
  intros Hsig Hsize. cbn zeta. unfold uECC_verify. change num_bytes with 32%nat. cbv zeta. cbn [fst snd].
  destruct (bytes_words (take 32 sig)) as [Wr <-]; [rewrite length_take; lia|].
  destruct (bytes_words (drop 32 sig)) as [Ws <-]; [rewrite length_drop; lia|].
  destruct (bits2int_val hash size Hsize) as [We _].
  generalize dependent (uECC_vli_bytesToNative (take 32 sig) 32). generalize dependent (uECC_vli_bytesToNative (drop 32 sig) 32).
  intros s Ws r Wr. rewrite !(isZero_true 8), !negb_involutive, !(cmp_unsafe_gt 8 curve_n) by (done || apply words_n). fold N.
  pose proof (val_bound 8 r Wr). pose proof (val_bound 8 s Ws). unfold in_range.
  destruct (Z.eqb_spec (val r) 0) as [Er|Er]; [rewrite Er; reflexivity|].
  destruct (Z.eqb_spec (val s) 0) as [Es|Es]; [rewrite Es, andb_false_r; reflexivity|].
  rewrite (proj2 (Z.ltb_lt 0 (val r))), (proj2 (Z.ltb_lt 0 (val s))) by lia. cbn [orb andb]. rewrite <- negb_andb.
  destruct ((val r <? N) && (val s <? N)) eqn:E; [|reflexivity]. cbn [negb].
  apply andb_true_iff in E as [Lr%Z.ltb_lt Ls%Z.ltb_lt].
  destruct (inv_n s Ws ltac:(lia)) as (Wi & Bi & Vi).
  destruct (mult_n _ _ We Wi) as [W1 _]. destruct (mult_n _ _ Wr Wi) as [W2 V2].
  destruct (XYcZ_add _ _) as [p0 sum].
  match goal with |- context [shamir_point ?points _ _ _] => destruct (shamir_first points _ _ W1 W2) as [p1 E1] end.
  { rewrite V2. apply (mul_nonzero_n (val s)); [lia|exact Vi|lia]. }
  rewrite E1. destruct p1 as [rx ry]. destruct (shamir_loop _ _ _ _ _) as [[rx' ry'] z']. destruct (apply_z _ _) as [x y].
  eexists. reflexivity.
Qed.

(** ** Claims *)

(** C20: What [uECC_sign] writes is an ECDSA signature: whatever the random function
    does and the stack holds, a call either fails without a signature or succeeds
    with r and s, 32 bytes each, such that r is the abscissa of a multiple of the base
    point by a scalar that is k modulo the order, 0 < k < n, and s k is e + d r modulo
    the order, for the key d and the leftmost 256 bits e of the hash.  Without a random
    function the call fails. *)
Theorem signature_equation {S : Type} (g_rng_function : option (list byte -> Z -> S -> Z * list byte * S))
    (private_key message_hash : list byte) (hash_size : Z) (stack : list Z) (st : S) :
  length private_key = 32%nat -> 0 <= hash_size <= zlen message_hash ->
  let '(res, sig, _) := uECC_sign g_rng_function private_key message_hash hash_size stack st in
  (res = 0 /\ sig = None) \/
  (g_rng_function <> None /\ res = 1 /\
   exists bs, sig = Some bs /\ length bs = 64%nat /\ signed (be private_key) (be (ztake (Z.min hash_size 32) message_hash)) bs).
Proof.
  intros Hk Hs. destruct (uECC_sign _ _ _ _ _ _) as [[res sig] st'] eqn:E.
  destruct (sign_loop_val g_rng_function private_key message_hash hash_size Hk Hs _ _ _ _ _ _ E) as [(H1 & H2 & _)|(-> & bs & -> & Hb)]; [left; exact (conj H1 H2)|].
  right. split; [intros ->; discriminate E|]. split; [reflexivity|]. exists bs. split; [reflexivity|]. split; [|exact Hb].
  destruct Hb as (k & r & s & scalar & -> & _). rewrite length_app, !length_be_bytes. reflexivity.
Qed.

(** A random function that counts its calls in the bytes. *)
Definition counting_rng (buf : list byte) (size n : Z) : Z * list byte * Z := (1, replicate (Z.to_nat size) (z2b n), n + 1).

Lemma signature_equation_witness :
  let '(res, sig, _) := uECC_sign (Some counting_rng) (replicate 32 Byte.x07) (replicate 32 Byte.x05) 32 [] 1 in
  (res = 0 /\ sig = None) \/
  (Some counting_rng <> None /\ res = 1 /\
   exists bs, sig = Some bs /\ length bs = 64%nat /\ signed (be (replicate 32 Byte.x07)) (be (ztake 32 (replicate 32 Byte.x05))) bs).
Proof. apply (signature_equation (Some counting_rng) (replicate 32 Byte.x07) (replicate 32 Byte.x05) 32 [] 1); [reflexivity|cbn; lia]. Defined.

(** C27: [uECC_verify] answers for every key, hash and signature: it never reads its
    table of points through the null pointer, the result is zero or one, and a
    signature whose r or s is zero or not below the order is refused. *)
Theorem verify_answers (public_key message_hash : list byte) (hash_size : Z) (signature : list byte) :
  length signature = 64%nat -> 0 <= hash_size <= zlen message_hash ->
  exists result, uECC_verify public_key message_hash hash_size signature = Some result /\
    (result = 0 \/ result = 1) /\
    (result = 1 -> 0 < be (take 32 signature) < val curve_n /\ 0 < be (drop 32 signature) < val curve_n).
Proof.
  intros Hsig Hs. pose proof (verify_val public_key message_hash hash_size signature Hsig Hs) as H. cbn zeta in H.
  destruct (in_range _ && in_range _) eqn:E.
  - destruct H as [b H]. exists (b2w b). split; [exact H|]. split; [destruct b; [by right|by left]|]. intros _.
    apply andb_true_iff in E as [[R0%Z.ltb_lt R1%Z.ltb_lt]%andb_true_iff [S0%Z.ltb_lt S1%Z.ltb_lt]%andb_true_iff].
    exact (conj (conj R0 R1) (conj S0 S1)).
  - exists 0. split; [exact H|]. split; [by left|done].
Qed.

Lemma verify_answers_witness : exists result,
  uECC_verify (replicate 64 Byte.x01) (replicate 20 Byte.x02) 20 (replicate 64 Byte.x03) = Some result.
Proof.
  destruct (verify_answers (replicate 64 Byte.x01) (replicate 20 Byte.x02) 20 (replicate 64 Byte.x03)) as (result & H & _);
    [reflexivity|cbn; lia|]. exists result. exact H.
Defined.
