(* ===== verification/JwtEs256.v ===== *)
(** * Token service: the signature

    The interface to tinycrypt that [Jwt] is written against, given by the models of
    tinycrypt: the hash by [TcSha256], the generator by [TcPrng], the signature by
    [EccDsa], with [default_CSPRNG] of [jwt.c] between the last two. *)

From S2P Require Import Prelude SstDefs TcWords TcSha256 TcSha256Spec TcAes TcPrng TcPrngSpec EccVli EccVliSpec EccPoint EccPointSpec EccDsa EccDsaSpec Json JsonSpec Jwt JwtSpec JwtClaims.

(** The code of the generator is returned, whatever it is. *)
Definition default_CSPRNG (dest : list byte) (size : Z) (prng_state : TCCtrPrng) : Z * list byte * TCCtrPrng :=
  let '(res, out, ctx) := tc_ctr_prng_generate (Some prng_state) None 0 (Some dest) size in
  (res, default dest out, default prng_state ctx).

(** [tc_sha256_init], [tc_sha256_update] and [tc_sha256_final] in a row; the variables of
    the caller hold [ctx] and [hash] before. *)
Definition sha256_calls (ctx : tc_sha256_state_struct) (hash message : list byte) : list byte :=
  let '(_, ctx) := tc_sha256_init (Some ctx) in
  let '(_, ctx) := tc_sha256_update ctx (Some message) in
  let '(_, hash', _) := tc_sha256_final (Some hash) ctx in default hash hash'.

(** The size of the static context. *)
Definition prng_blank_state : TCCtrPrng := Ctx (replicate 16 Byte.x00) (replicate 44 0) 0.

(** [g_rng] is the random function set before, [random] what the local array of [uECC_sign] holds. *)
Definition es256 (g_rng : option (list byte -> Z -> TCCtrPrng -> Z * list byte * TCCtrPrng)) (ctx : tc_sha256_state_struct)
    (hash : list byte) (random : list Z) : tinycrypt := {|
  TCCtrPrng_t := TCCtrPrng;
  prng_zero := prng_blank_state;
  tc_sha256 := sha256_calls ctx hash;
  Jwt.tc_ctr_prng_init := fun entropy personalization c =>
    let '(res, c') := TcPrng.tc_ctr_prng_init (Some c) (Some entropy) (zlen entropy) (Some personalization) (zlen personalization) in
    (res =? TC_CRYPTO_SUCCESS, default c c');
  Jwt.uECC_sign := fun key message_hash c =>
    let '(res, sig, c) := EccDsa.uECC_sign (uECC_set_rng (Some default_CSPRNG) g_rng) key message_hash 32 random c in
    (if res =? TC_CRYPTO_SUCCESS then sig else None, c);
|}.

Lemma length_sha256 m : length (FIPS180.sha256 m) = 32%nat.
Proof.
  unfold FIPS180.sha256. cbv zeta.
  destruct (hash_blocks_value (length (m ++ FIPS180.padding (zlen m)) / 64) FIPS180.H0 (m ++ FIPS180.padding (zlen m)) H0_value) as [Hl _].
  revert Hl. generalize (FIPS180.hash_blocks (length (m ++ FIPS180.padding (zlen m)) / 64) FIPS180.H0 (m ++ FIPS180.padding (zlen m))).
  intros l Hl. assert (forall k, length (List.concat (be_bytes 4 <$> k)) = (4 * length k)%nat) as H.
  { induction k as [|x k IH]; [done|]. cbn [fmap list_fmap List.concat]. rewrite length_app, length_be_bytes, IH. cbn [length]. lia. }
  by rewrite H, Hl.
Qed.

Section es256.
  Context (g_rng : option (list byte -> Z -> TCCtrPrng -> Z * list byte * TCCtrPrng)).
  Context (ctx : tc_sha256_state_struct) (hash : list byte) (random : list Z).
Let Tc : tinycrypt := es256 g_rng ctx hash random.

Lemma sha256_calls_hash m : sha256_calls ctx hash m = FIPS180.sha256 m.
Proof.
  unfold sha256_calls. destruct (streams_pieces ctx [m]) as (s & E & Hs). cbn [List.concat] in Hs. rewrite app_nil_r in Hs. unfold hash_pieces in E. cbn [fold_left] in E.
  destruct (tc_sha256_init (Some ctx)) as [r1 c1]. cbn [snd] in E. destruct (tc_sha256_update c1 (Some m)) as [r2 c2]. cbn [snd] in E. subst c2.
  cbn [tc_sha256_final]. by rewrite (sha_finish_spec _ _ Hs).
Qed.

(** The state of the generator when the signature draws from it. *)
Definition generator (g : @jwt_static Tc) : TCCtrPrng := @prng_state Tc (snd (@setup_prng Tc g)).

(** The generator is always ready. *)
Lemma setup_ready (g : @jwt_static Tc) : exists g1, @setup_prng Tc g = (0, g1).
Proof.
  unfold setup_prng. destruct (prng_init g); [by eexists|]. destruct (entropy_loop 8 (next g)) as [entropy n] eqn:E.
  assert (length entropy = 32%nat) as Hl.
  { change entropy with (fst (entropy, n)). rewrite <- E. reflexivity. }
  cbn [Tc es256 Jwt.tc_ctr_prng_init]. unfold TcPrng.tc_ctr_prng_init.
  rewrite (proj2 (Z.leb_le _ _)) by (rewrite Hl; done). destruct (tc_aes128_set_encrypt_key _ _) as [r k]. by eexists.
Qed.

(** A signature of the text is one, and when there is none every draw has failed. *)
Lemma signature_cases (g : @jwt_static Tc) text :
  match @signature_of Tc g text with
  | Some sig => length sig = 64%nat /\ signed (be simple_private_der) (be (FIPS180.sha256 text)) sig
  | None => draws_fail default_CSPRNG uECC_RNG_MAX_TRIES (le_bytes random) (generator g)
  end.
Proof.
  destruct (setup_ready g) as [g1 Hg]. unfold generator. rewrite Hg. cbn [snd].
  assert (@signature_of Tc g text = fst (@Jwt.uECC_sign Tc simple_private_der (@Jwt.tc_sha256 Tc text) (@prng_state Tc g1))) as ->.
  { unfold signature_of. unfold setup_prng in Hg. destruct (prng_init g); [by injection Hg as <-|].
    destruct (entropy_loop 8 (next g)) as [entropy n]. cbn [fst]. destruct (Jwt.tc_ctr_prng_init _ _ _) as [[] p]; [|done].
    by injection Hg as <-. }
  cbn [Tc es256 Jwt.uECC_sign Jwt.tc_sha256]. unfold uECC_set_rng. rewrite sha256_calls_hash.
  destruct (EccDsa.uECC_sign (Some default_CSPRNG) simple_private_der (FIPS180.sha256 text) 32 random (prng_state g1)) as [[res sig] c] eqn:E.
  pose proof (sign_loop_val (Some default_CSPRNG) simple_private_der (FIPS180.sha256 text) 32 eq_refl ltac:(rewrite length_sha256; lia) _ _ _ _ _ _ E) as H.
  destruct H as [(-> & -> & Hf)|(-> & bs & -> & Hb)]; cbn [fst Z.eqb].
  - by apply Hf.
  - unfold ztake in Hb. rewrite firstn_all2 in Hb by (rewrite length_sha256; reflexivity). split; [|exact Hb].
    destruct Hb as (k & r & s & scalar & -> & _). rewrite length_app, !length_be_bytes. reflexivity.
Qed.

(** Four characters for three bytes, and two for the last. *)
Lemma length_b64 n bs : length bs = (3 * n + 1)%nat -> length (b64 bs) = (4 * n + 2)%nat.
Proof.
  revert bs. induction n as [|n IH]; intros bs H.
  - destruct bs as [|a [|b bs]]; [done|done|cbn [length] in H; lia].
  - destruct bs as [|a [|b [|c bs]]]; cbn [length] in H; [lia..|]. cbn [b64 length]. rewrite IH by lia. lia.
Qed.

Definition out_of_buffer (data : tfm_sst_jwt_t) (m m' : mem) : Prop :=
  forall x, x < jwt_buffer data \/ jwt_buffer data + jwt_buffer_size data <= x -> m' x = m x.

(** The characters and the terminator. *)
Definition buffer_holds (data : tfm_sst_jwt_t) (m : mem) (text : list byte) : Prop :=
  mread m (jwt_buffer data) (zlen text) = text /\ m (jwt_buffer data + zlen text) = chr 0.

(** C17: The token service, down to the arithmetic: with the models of tinycrypt behind
    its interface, a request whose token fits succeeds, writes only inside the
    buffer, and leaves there the signed text, a dot and the encoding of 64 bytes
    that are an ECDSA signature, by the key of the service, of the SHA-256 hash of
    the text.  It leaves the text without a signature only if every attempt to
    sign has failed: the generator refused the draw, or the number drawn was, modulo
    the order of the curve, zero or one whose multiple of the base point has the
    abscissa zero, 64 times in a row. *)
Theorem token_signature_exact (fuel : nat) (data : tfm_sst_jwt_t) (m0 : mem) (aud : list byte) (stack : byte * byte * byte)
    (g : @jwt_static Tc) :
  audience m0 data aud -> (length aud <= fuel)%nat /\ (5 <= fuel)%nat ->
  zlen (signed_text data aud) + 87 < jwt_buffer_size data ->
  exists m' g', @sst_jwt_sign Tc fuel data stack m0 g = Some (None, m', g') /\ out_of_buffer data m0 m' /\
    ((exists sig, length sig = 64%nat /\
        signed (be simple_private_der) (be (FIPS180.sha256 (signed_text data aud))) sig /\
        buffer_holds data m' (token data aud sig)) \/
     (draws_fail default_CSPRNG uECC_RNG_MAX_TRIES (le_bytes random) (generator g) /\
        buffer_holds data m' (signed_text data aud))).
Proof.
  intros Ha Hf Hs. destruct (@call_written Tc fuel data m0 aud stack g Ha Hf) as (err & m' & g' & E & Ho & H).
  pose proof (signature_cases g (signed_text data aud)) as Hsig.
  assert (zlen (@written_text Tc data aud g) < jwt_buffer_size data) as Hfit.
  { unfold written_text. destruct (signature_of g (signed_text data aud)) as [sig|]; [|lia]. destruct Hsig as [Hl _].
    unfold token. rewrite !zlen_app, (length_b64 21 sig Hl). cbn [length]. lia. }
  rewrite (proj2 (Z.ltb_lt _ _) Hfit) in H. destruct H as (-> & H1 & H2). exists m', g'. split; [exact E|]. split; [exact Ho|].
  unfold written_text in H1, H2. destruct (signature_of g (signed_text data aud)) as [sig|].
  - left. exists sig. destruct Hsig. split_and!; [done..|]. by split.
  - right. split; [exact Hsig|]. by split.
Qed.
End es256.

(** The request of the example, signed by tinycrypt. *)
Lemma token_signature_exact_witness :
  let Tc := es256 None sha_cleared (replicate 32 Byte.x00) [] in
  exists m' g',
    @sst_jwt_sign Tc 5 (JwtExample.request 400) (chr 1, chr 2, chr 3) JwtExample.caller_mem (@JwtStatic Tc prng_blank_state false 1) =
      Some (None, m', g').
Proof.
  cbn zeta. destruct (token_signature_exact None sha_cleared (replicate 32 Byte.x00) [] 5 (JwtExample.request 400) JwtExample.caller_mem
    JwtExample.aud_text (chr 1, chr 2, chr 3)
    (@JwtStatic (es256 None sha_cleared (replicate 32 Byte.x00) []) prng_blank_state false 1)) as (m' & g' & E & _).
  - apply JwtExample.aud_in_memory.
  - split; vm_compute; lia.
  - vm_compute. reflexivity.
  - exists m', g'. exact E.
Defined.
